(* ===== verification/_CoqProject ===== *)
-Q . S2P
Prelude.v
GoBase.v
Beads.v
MemStore.v
MemStoreProps.v
MemStoreReady.v
CloseOrder.v
GoText.v
GoTime.v
GoTimeProps.v
Prog.v
ConvMeta.v
ConvMetaProps.v
ConvStore.v
ConvHandler.v
ConvHandlerProps.v
ConvHandlerResults.v
ConvManual.v
ConvReconcile.v
ConvManualProps.v
ConvRecovery.v
ConvAdapter.v
ConvAdapterProps.v
ConvIndex.v
ConvScenarios.v
Breaker.v
BreakerProps.v
NudgeQueue.v
NudgeOps.v
NudgeProps.v
NudgeSafety.v
NudgeClaims.v
NudgeExact.v
NudgeDelivery.v
SessionState.v
SessionExits.v
SessionInfo.v
SessionInfoProps.v
SessionView.v
SessionViewProps.v
SessionPatchProps.v
SessionTimers.v
SessionTimersProps.v
SessionReconcile.v
SessionReconcileProps.v
SessionPassProps.v
SessionScenarios.v
AwakeSet.v
AwakeSetProps.v
AwakeScenarios.v
CreateBudget.v
CreateBudgetProps.v
AgentConfig.v
GoSort.v
PoolDesired.v
PoolDesiredProps.v
PoolScenarios.v
TopoOrder.v
TopoOrderProps.v
Orders.v
CronProps.v
OrdersProps.v
OrderStore.v
OrderStoreProps.v
OrderScenarios.v
Shellquote.v
TaskAttempt.v
TaskAttemptProps.v
WorkflowScope.v
WorkflowScopeProps.v
WorkflowScenarios.v
Drain.v
DrainProps.v
DrainScenarios.v
RetryEval.v
RetryEvalProps.v
RetryScenarios.v
