(* ===== verification/Prelude.v ===== *)
(** * Gas City: a verification library (root file)

    Gas City orchestrates coding agents.  Work items are beads (an issue-like
    record with metadata, dependencies and a status); a city keeps its beads in
    a store; the controller and the [gc] commands read and write them.  This
    library models the parts of the Go program under [src/] that carry its own
    logic, as executable definitions, and proves what makes them correct.

    ** Parts of the program, and the files that model them

    - The language: [Prelude] (notations, tactics, hints, generic lemmas),
      [GoBase] (64-bit integers with wrap-around, [strconv], [strings],
      [time.Time] as nanoseconds), [GoText] (UTF-8, letter case, white space,
      paths), [GoTime] (civil dates, the RFC 3339 layout).
    - The bead store ([internal/beads]): [Beads] has the data, the list queries
      with their cursor and orders, and the Ready predicates ([beads.go],
      [query.go]); [MemStore] has every operation of the in-memory store and of
      its conditional writer ([memstore.go], [memstore_conditional.go]);
      [MemStoreProps] and [MemStoreReady] its theorems; [CloseOrder] the
      blocker-first close batches ([closeorder/closeorder.go]).
    - Convergence ([internal/convergence]): bounded iterate-and-gate loops.
      [ConvMeta] the vocabulary and the pure functions; [ConvStore] the store
      interface as a type of effects; [ConvHandler] the processing of a closed
      wisp ([handler.go], [condition.go], [hybrid.go]); [ConvManual] creation,
      retry, triggers and operator commands ([create.go], [retry.go],
      [manual.go], [trigger.go]); [ConvReconcile] the startup recovery
      ([reconcile.go]); [ConvAdapter] the implementation of that interface over
      a bead store ([cmd/gc/convergence_store.go]).  Theorems: [ConvMetaProps],
      [ConvHandlerProps], [ConvHandlerResults], [ConvManualProps],
      [ConvRecovery], [ConvAdapterProps], [ConvIndex]; concrete runs of the
      handlers over the adapter and the in-memory store: [ConvScenarios].
    - The circuit breaker of the store transport ([internal/resilience]):
      [Breaker] and [BreakerProps].
    - The deferred-nudge queue ([internal/nudgequeue], [cmd/gc/cmd_nudge.go],
      [cmd/gc/nudge_scope.go]): [NudgeQueue] the state, scopes and shadow
      beads; [NudgeOps] the operations; [NudgeProps], [NudgeSafety],
      [NudgeClaims], [NudgeExact], [NudgeDelivery] the theorems.
    - Sessions ([internal/session] and the reconciler of [cmd/gc]):
      [SessionState] states, the command table and the metadata patches
      ([state_machine.go], [lifecycle_transition.go]); [SessionInfo] the typed
      snapshot, its codec and the front door ([info_codec.go], [store.go]);
      [SessionView] the lifecycle projection ([lifecycle_projection.go]);
      [SessionExits] the exit and timer ladders ([lifecycle_exits.go],
      [lifecycle_timers.go]); [SessionTimers] the trackers of [cmd/gc] and the
      timer passes; [SessionReconcile] the exit segment of the reconciler's pass
      ([session_reconcile.go]), a program over the front door.  Theorems:
      [SessionInfoProps], [SessionViewProps], [SessionPatchProps],
      [SessionTimersProps], [SessionReconcileProps], [SessionPassProps];
      scenarios: [SessionScenarios].
    - Planning, the pure decisions of a controller tick: [AwakeSet] which
      sessions should be awake ([compute_awake_set.go]); [AgentConfig] the
      agents, rigs and identities the planners read ([internal/config],
      [internal/agentutil]); [PoolDesired] how many sessions each pool should
      have, under nested caps ([pool_desired_state.go]); [CreateBudget] the
      shared budget of creates ([internal/poolplan]); [TopoOrder] sessions in
      dependency order ([session_reconcile.go]); [GoSort] a stable sort.
      Theorems: [AwakeSetProps], [PoolDesiredProps], [CreateBudgetProps],
      [TopoOrderProps]; scenarios: [AwakeScenarios], [PoolScenarios].  The
      loops of the budget take one unit of fuel per token, the dependency
      search one per template, the floors one per session of the minimum, each
      proved enough.
    - Orders ([internal/orders], [internal/orderdiscovery]), the recurring work
      of a city: [Orders] has the data, validation, overrides, layering and
      discovery, and every trigger ([order.go], [triggers.go], [override.go],
      [filter.go], [scanner.go], [discovery.go]); [OrderStore] the run records
      kept as beads ([store.go], [store_reads.go], [runtime_helpers.go]).
      Theorems: [CronProps], [OrdersProps], [OrderStoreProps]; scenarios:
      [OrderScenarios].  A cron check scans minutes, one unit of fuel per minute
      of the lookback; the gap of a clock set forward one per minute of the gap.
    - [Shellquote] the quoting and splitting of command lines
      ([internal/shellquote]); [TaskAttempt] the handshake that starts a native
      task once ([internal/taskattempt]), with [TaskAttemptProps].
    - Workflow control ([internal/dispatch]): [WorkflowScope] the scope checks,
      the abort and the pass of a scope, the reconciliation of closed members,
      canceled and orphaned controls and the outcome of a workflow
      ([runtime.go], [control.go]), as programs over the calls of a store;
      [Drain] the order of a drain's members and their exclusive reservations
      ([drain.go]); [RetryEval] the judgement of an attempt and the spawn of the
      next ([retry.go]).  Theorems: [WorkflowScopeProps], [DrainProps],
      [RetryEvalProps]; scenarios: [WorkflowScenarios], [DrainScenarios],
      [RetryScenarios].  The sweep that skips members takes
      one unit of fuel per pending bead, the order of members one per member:
      each round removes or emits one at least; the search for a scope's body
      makes five attempts, as the code does.

    ** How code is modelled

    Pure functions are functions; fallible ones return a Go pair of a value and
    an optional error.  A store under its mutex is a record, and a call an
    atomic state transformer with the clock reading as an argument.  Code that
    talks to an interface (convergence, nudges) is a tree of operations
    ([Prog.prog]): it runs against any implementation, failing ones included,
    and an execution may stop after any operation, which is a crash.  Loops are
    structural recursions over the slice they range over; where a loop has no
    such slice it takes fuel that is never exhausted: activation of a wisp
    subtree takes more than the number of beads, enough on a forest
    ([activation_complete]); a close batch takes its length, one bead per
    round; the decoding of a string its length, one byte at least per rune; the
    search for a character boundary four steps, the longest character; the
    breaker's backoff doubles once per trip, as its loop does.

    The interfaces between components are classes: [ConvRecovery.RootStore] is
    what the recovery argument asks of a store, discharged by the adapter over
    the in-memory store in [ConvAdapterProps]; [NudgeProps.QueueFile] is what
    the queue theorems ask of the queue file, discharged by a concrete file in
    [NudgeDelivery]; [GoText.UnicodeTables] holds the letter tables of runes
    above 127.

    ** What the theorems show

    - Bead store: it refines a finite map ([memstore_refines_map]); IDs are
      unique; revisions and claim fences move exactly when they should; stale
      conditional writes are refused; [Ready] returns exactly the beads the
      dependency predicate accepts; pagination neither skips nor repeats; close
      batches put blockers first.
    - Convergence: at every crash point the order of writes is the one recovery
      needs, and recovery completes an interrupted terminal transition; a wisp
      is processed once, gates are not re-run on replay, pours stay within the
      limit, scripts within a bound; each reported action is backed by stored
      effects; operator commands are guarded; creation is all or rolled back;
      the adapter pours once per key, its live index is exact, activation
      terminates.
    - Breaker: the exact condition of being closed, backoff bounds, probe
      spacing, recovery, a faithful notification log, independence of
      dependencies in the registry.
    - Nudges: nothing is lost or duplicated, leases exclude other claimants,
      generations are isolated, attempts are bounded, claims are exact.
    - Sessions: a snapshot that folds its own writes equals a fresh read; the
      exact condition under which a session is wanted running; quarantines are
      windows; wake requests are honoured; the command table and its reachable
      states; priming markers die with the start they confirm; timers stop only
      what nothing protects; each death takes one lane and is counted once
      whatever the store answers; a crash loop is quarantined at the fifth
      crash; healing respects the lease of a start in flight.
    - Planning: blockers win over every cause to be awake, work keeps its
      session awake, demand is met exactly, floors are kept, and the order in
      which Go visits its maps does not matter; pool plans respect the caps of
      agents, rigs and the workspace, give capacity by priority and keep live
      work; the create budget is spent exactly, a share cannot be taken by
      another template; dependencies come before dependents.
    - Orders: a scheduled minute since the last run is never missed within the
      lookback, and on a clock that keeps its offset checks fire exactly at the
      slots; a run moves the cooldown clock and the in-flight mark of its own
      order only; a cooldown paces runs; a batch close that reports success was
      read back closed; the scan registers an order once per scope.
    - Command lines round-trip through quoting and splitting.  Of any number of
      concurrent callers one starts a native task.
    - Workflow control: the abort of a scope survives a crash at any store call;
      the verdict of a scope check and the outcome of a workflow are the
      declarative ones; drain members come out blockers first or a cycle is
      reported; on a store with conditional writes no member is held by two
      drains, under any interleaving, failure or crash, and without them it can
      be ([unfenced_not_exclusive]); a transient failure is retried once, through
      any number of crashes, and attempts stay within the limit on any store.

    Some theorems record where the program departs from what its comments say:
    [adapter_hides_closed_wisps], [trigger_gated_loop_stalls],
    [fallback_fires_twice], [override_failure_keeps_earlier],
    [split_join_invalid], [reconcile_depends_on_numbering] and
    [retry_mark_strands_step].

    ** Not modelled

    Persistent store backends (subprocesses, SQL, caches), formula compilation
    ([molecule.Cook], a parameter of the adapter), tmux and process runtimes,
    the HTTP API and its generated client, configuration and pack parsing, the
    command line, artifacts and tokens on disk: they are input and output, or
    compilers of their own.  Of workflow control the newer retry control, ralph and
    fanout, which instantiate formulas and run scripts, the file system check of
    an attempt's artifacts, the expansion of
    drains and the finalizer's source chain; of orders the parsing of their
    files, the layout of packs and the dispatcher that runs what is due.  JSON decoding, [time.Parse],
    [time.ParseDuration], the time zone database and [strconv.Quote] are
    parameters where a modelled operation calls them.  Deep copies are the
    identity on values; a nil map or slice is the empty one where the code does
    not tell them apart. *)

From stdpp Require Export prelude gmap strings list sorting.
From Stdlib Require Export ZArith Lia.

(** ** Scope and notations

    [m .[ k ]] is Go's read of a string-valued map: the value stored under
    [k], or the zero value [""] when the key is absent (or the map is nil). *)

Declare Scope go_scope.
Delimit Scope go_scope with go.

Definition mget (m : gmap string string) (k : string) : string :=
  default "" (m !! k).

Notation "m .[ k ]" := (mget m k) (at level 1, left associativity, format "m .[ k ]") : go_scope.
#[global] Open Scope go_scope.

(** [s1 == s2]: Go's equality test on strings, as a Boolean. *)
Notation "s1 == s2" := (bool_decide (s1 = s2 :> string)) (at level 70, no associativity) : go_scope.
Notation "s1 != s2" := (negb (bool_decide (s1 = s2 :> string))) (at level 70, no associativity) : go_scope.

(** ** Hint databases *)

Create HintDb gc discriminated.
Create Rewrite HintDb gc.

(** ** Tactics *)

(** Case analysis on the discriminee of an [if] or [match] of the goal or of
    a hypothesis, keeping the equation. *)
Ltac dmatch :=
  match goal with
  | |- context [match ?x with _ => _ end] => destruct x eqn:?
  | H : context [match ?x with _ => _ end] |- _ => destruct x eqn:?
  end.

(** Split every Boolean conjunction/disjunction/negation hypothesis into
    propositional form. *)
Ltac bsplit :=
  repeat match goal with
  | H : andb _ _ = true |- _ => apply andb_true_iff in H as [? ?]
  | H : orb _ _ = false |- _ => apply orb_false_iff in H as [? ?]
  | H : negb _ = true |- _ => apply negb_true_iff in H
  | H : negb _ = false |- _ => apply negb_false_iff in H
  | H : bool_decide _ = true |- _ => apply bool_decide_eq_true in H
  | H : bool_decide _ = false |- _ => apply bool_decide_eq_false in H
  end.

(** ** Generic lemmas *)

Lemma mget_insert_eq m k v : (<[k:=v]> m : gmap string string).[k] = v.
Proof. unfold mget. by rewrite lookup_insert_eq. Qed.

Lemma mget_insert_ne m k k' v :
  k ≠ k' → (<[k:=v]> m : gmap string string).[k'] = m.[k'].
Proof. intros ?. unfold mget. by rewrite lookup_insert_ne. Qed.

Lemma mget_empty k : (∅ : gmap string string).[k] = "".
Proof. unfold mget. by rewrite lookup_empty. Qed.

Lemma mget_union (m1 m2 : gmap string string) k : (m1 ∪ m2).[k] = default m2.[k] (m1 !! k).
Proof. unfold mget. rewrite lookup_union. destruct (m1 !! k), (m2 !! k); done. Qed.

#[export] Hint Rewrite mget_insert_eq mget_empty : gc.
#[export] Hint Rewrite mget_insert_ne using done : gc.

(** ** Results of fallible operations *)

Inductive res (E A : Type) : Type :=
| Ok (a : A)
| Err (e : E).
Arguments Ok {E A} a.
Arguments Err {E A} e.

#[export] Instance res_eq_dec {E A} `{EqDecision E, EqDecision A} : EqDecision (res E A).
Proof. solve_decision. Defined.

(** Quantification over the elements of a list, one constructor at a time. *)
Lemma forall_elem_of_cons {A} (P : A → Prop) x l :
  (∀ y, y ∈ x :: l → P y) ↔ P x ∧ ∀ y, y ∈ l → P y.
Proof. set_solver. Qed.

Lemma exists_elem_of_snoc {A} (P : A → Prop) x l :
  (∃ y, y ∈ l ++ [x] ∧ P y) ↔ (∃ y, y ∈ l ∧ P y) ∨ P x.
Proof. set_solver. Qed.
