(* ===== verification/GoBase.v ===== *)
(** * The part of the Go language and standard library the models use

    Machine integers ([int], [int64], [time.Duration]: 64-bit two's
    complement), [strconv.Itoa]/[strconv.Atoi], the [strings] functions and
    [time.Time].  Everything is executable. *)

From S2P Require Import Prelude.
From Stdlib Require Import DecimalString DecimalFacts DecimalN DecimalPos.
From Stdlib Require Import Ascii.

Local Open Scope Z_scope.

(** ** 64-bit integers *)

Definition minInt64 : Z := - 2 ^ 63.
Definition maxInt64 : Z := 2 ^ 63 - 1.

(** Two's complement wrap-around of a mathematical integer to 64 bits. *)
Definition wrap64 (z : Z) : Z := (z + 2 ^ 63) mod 2 ^ 64 - 2 ^ 63.

Definition in_int64 (z : Z) : Prop := minInt64 ≤ z ≤ maxInt64.

#[export] Instance in_int64_dec z : Decision (in_int64 z).
Proof. unfold in_int64. apply _. Defined.

Lemma wrap64_id z : in_int64 z → wrap64 z = z.
Proof.
  unfold in_int64, wrap64, minInt64, maxInt64. intros.
  rewrite Z.mod_small; lia.
Qed.

Lemma wrap64_range z : in_int64 (wrap64 z).
Proof.
  unfold in_int64, wrap64, minInt64, maxInt64.
  pose proof (Z.mod_pos_bound (z + 2 ^ 63) (2 ^ 64) ltac:(lia)). lia.
Qed.

(** The machine increment [x++]. *)
Definition incr64 (z : Z) : Z := wrap64 (z + 1).

Lemma incr64_succ z : in_int64 z → z < maxInt64 → incr64 z = z + 1.
Proof. intros [? ?] ?. unfold incr64. apply wrap64_id. unfold in_int64. lia. Qed.

Lemma incr64_ne z : in_int64 z → incr64 z ≠ z.
Proof.
  intros H. destruct (decide (z < maxInt64)) as [?|?].
  - rewrite incr64_succ by done. lia.
  - assert (z = maxInt64) as -> by (unfold in_int64 in H; lia). done.
Qed.

(** ** strconv *)

(** [strconv.Itoa]: the decimal representation, with a leading minus sign for
    negative numbers and no leading zero. *)
Definition Itoa (z : Z) : string :=
  if z <? 0
  then String "-" (NilZero.string_of_uint (N.to_uint (Z.to_N (- z))))
  else NilZero.string_of_uint (N.to_uint (Z.to_N z)).

(** The digits of [strconv.Atoi] after an optional sign: at least one decimal
    digit, nothing else. *)
Definition parseDigits (s : string) : option Z :=
  match NilZero.uint_of_string s with
  | Some d => Some (Z.of_N (N.of_uint d))
  | None => None
  end.

(** [strconv.Atoi]: optional [+] or [-], decimal digits, and a range check on
    the 64-bit result.  [None] is the error result. *)
Definition Atoi (s : string) : option Z :=
  let checked (z : Z) := if decide (in_int64 z) then Some z else None in
  match s with
  | String "-" r => match parseDigits r with Some n => checked (- n) | None => None end
  | String "+" r => match parseDigits r with Some n => checked n | None => None end
  | _ => match parseDigits s with Some n => checked n | None => None end
  end.

Example Atoi_ex1 : Atoi "042" = Some 42. Proof. reflexivity. Qed.
Example Atoi_ex2 : Atoi "-7" = Some (-7). Proof. reflexivity. Qed.
Example Atoi_ex3 : Atoi "" = None. Proof. reflexivity. Qed.
Example Atoi_ex4 : Atoi "9223372036854775808" = None. Proof. reflexivity. Qed.
Example Atoi_ex5 : Atoi "1x" = None. Proof. reflexivity. Qed.
Example Itoa_ex1 : Itoa (-120) = "-120". Proof. reflexivity. Qed.
Example Itoa_ex2 : Itoa 0 = "0". Proof. reflexivity. Qed.

Lemma to_uint_nonnil n : N.to_uint n ≠ Decimal.Nil.
Proof. destruct n as [|p]; [done|]. cbn. apply DecimalPos.Unsigned.to_uint_nonnil. Qed.

Lemma parseDigits_uint d :
  d ≠ Decimal.Nil → parseDigits (NilZero.string_of_uint d) = Some (Z.of_N (N.of_uint d)).
Proof. intros Hd. unfold parseDigits. by rewrite NilZero.usu. Qed.

(** The characters [Itoa] produces: a digit first, unless there is a sign. *)
Definition isDigit (c : ascii) : bool :=
  match c with
  | "0" | "1" | "2" | "3" | "4" | "5" | "6" | "7" | "8" | "9" => true
  | _ => false
  end%char.

Fixpoint allDigits (s : string) : bool :=
  match s with
  | EmptyString => true
  | String c r => isDigit c && allDigits r
  end.

Lemma string_of_uint_digits d : allDigits (NilEmpty.string_of_uint d) = true.
Proof. induction d; cbn; done. Qed.

Lemma NilZero_digits d : allDigits (NilZero.string_of_uint d) = true.
Proof. destruct d; cbn; try done; apply string_of_uint_digits. Qed.

Lemma NilZero_nonempty d : NilZero.string_of_uint d ≠ "".
Proof. by destruct d. Qed.

Lemma Atoi_digits s :
  allDigits s = true →
  Atoi s = n ← parseDigits s; if decide (in_int64 n) then Some n else None.
Proof.
  intros Hs. destruct s as [|c r]; [done|].
  cbn in Hs. apply andb_true_iff in Hs as [Hc _].
  destruct c as [[] [] [] [] [] [] [] []]; cbn in Hc; try discriminate Hc;
    unfold Atoi; destruct (parseDigits _); done.
Qed.

(** [strconv.Atoi] inverts [strconv.Itoa] on every machine integer. *)
Lemma Atoi_Itoa z : in_int64 z → Atoi (Itoa z) = Some z.
Proof.
  intros Hz. unfold Itoa. destruct (z <? 0) eqn:Hneg.
  - unfold Atoi. rewrite parseDigits_uint by apply to_uint_nonnil.
    rewrite DecimalN.Unsigned.of_to. apply Z.ltb_lt in Hneg.
    replace (- Z.of_N (Z.to_N (- z))) with z by lia.
    by rewrite decide_True.
  - apply Z.ltb_ge in Hneg. rewrite Atoi_digits by apply NilZero_digits.
    rewrite parseDigits_uint by apply to_uint_nonnil.
    rewrite DecimalN.Unsigned.of_to. cbn. rewrite Z2N.id by done. by rewrite decide_True.
Qed.

Lemma Itoa_digits z : 0 ≤ z → allDigits (Itoa z) = true.
Proof.
  intros Hz. unfold Itoa. destruct (Z.ltb_spec z 0); [lia|]. apply NilZero_digits.
Qed.

Lemma Itoa_nonempty z : Itoa z ≠ "".
Proof. unfold Itoa. destruct (z <? 0); [done|]. apply NilZero_nonempty. Qed.

Lemma Itoa_inj z1 z2 : in_int64 z1 → in_int64 z2 → Itoa z1 = Itoa z2 → z1 = z2.
Proof.
  intros H1 H2 He. apply (f_equal Atoi) in He.
  rewrite !Atoi_Itoa in He by done. congruence.
Qed.

(** ** strings *)

(** [strings.HasPrefix s p]. *)
Definition HasPrefix (s p : string) : bool := String.prefix p s.

(** [s[n:]], the slice from byte [n] on. *)
Fixpoint sdrop (n : nat) (s : string) : string :=
  match n, s with
  | O, _ => s
  | S n, String _ r => sdrop n r
  | S _, EmptyString => EmptyString
  end.

(** [s[:n]], the first [n] bytes. *)
Fixpoint stake (n : nat) (s : string) : string :=
  match n, s with
  | O, _ => EmptyString
  | S n, String c r => String c (stake n r)
  | S _, EmptyString => EmptyString
  end.

(** [strings.TrimPrefix s p]. *)
Definition TrimPrefix (s p : string) : string :=
  if HasPrefix s p then sdrop (String.length p) s else s.

(** [strings.Index s sub]: the first position of [sub] in [s]; [None] is -1. *)
Fixpoint Index (s sub : string) : option nat :=
  if String.prefix sub s then Some O
  else match s with
       | EmptyString => None
       | String _ r => match Index r sub with Some i => Some (S i) | None => None end
       end.

(** [strings.LastIndex s sub]: the last position of [sub] in [s]. *)
Fixpoint LastIndex (s sub : string) : option nat :=
  match s with
  | EmptyString => if String.prefix sub EmptyString then Some O else None
  | String _ r =>
      match LastIndex r sub with
      | Some i => Some (S i)
      | None => if String.prefix sub s then Some O else None
      end
  end.

(** [strings.Contains s sub]. *)
Definition Contains (s sub : string) : bool :=
  match Index s sub with Some _ => true | None => false end.

Example LastIndex_ex : LastIndex "a:iter:b:iter:3" ":iter:" = Some 8%nat.
Proof. reflexivity. Qed.

Lemma string_app_cons c (a b : string) : String c a +:+ b = String c (a +:+ b).
Proof. done. Qed.

Lemma string_app_nil_l (b : string) : "" +:+ b = b.
Proof. done. Qed.

Lemma prefix_app p s : String.prefix p (p +:+ s) = true.
Proof.
  induction p as [|c p IH]; [by destruct s|]. rewrite string_app_cons. cbn.
  destruct (ascii_dec c c); [done|congruence].
Qed.

Lemma prefix_true p s : String.prefix p s = true ↔ ∃ r, s = p +:+ r.
Proof.
  split; [|intros [r ->]; apply prefix_app].
  revert s. induction p as [|c p IH]; intros s H; [by exists s|].
  destruct s as [|d s]; cbn in H; [done|].
  destruct (ascii_dec c d) as [->|]; [|done].
  destruct (IH s H) as [r ->]. by exists r.
Qed.

Lemma prefix_app_mono p a b :
  String.prefix p (a +:+ b) = true → (String.length p ≤ String.length a)%nat →
  String.prefix p a = true.
Proof.
  revert a. induction p as [|c p IH]; intros a H Hl; [by destruct a|].
  destruct a as [|d a]; [cbn in Hl; lia|]. rewrite string_app_cons in H. cbn in *.
  destruct (ascii_dec c d); [|done]. apply IH; [done|lia].
Qed.

Lemma sdrop_app p s : sdrop (String.length p) (p +:+ s) = s.
Proof. by induction p. Qed.

Lemma stake_all s n : (String.length s ≤ n)%nat → stake n s = s.
Proof.
  revert n. induction s as [|c s IH]; intros [|n] Hn; cbn in *; try done; [lia|].
  by rewrite IH by lia.
Qed.

Lemma stake_app p s : stake (String.length p) (p +:+ s) = p.
Proof.
  induction p as [|c p IH]; [by destruct s|]. rewrite string_app_cons. cbn. by rewrite IH.
Qed.

Lemma string_app_assoc (a b c : string) : (a +:+ b) +:+ c = a +:+ (b +:+ c).
Proof. induction a as [|x a IH]; [done|]. by rewrite !string_app_cons, IH. Qed.

Lemma string_app_nil_r (a : string) : a +:+ "" = a.
Proof. induction a as [|x a IH]; [done|]. by rewrite string_app_cons, IH. Qed.

Lemma length_string_app (a b : string) :
  String.length (a +:+ b) = (String.length a + String.length b)%nat.
Proof. induction a as [|x a IH]; [done|]. rewrite string_app_cons. cbn. by rewrite IH. Qed.

Lemma TrimPrefix_app p s : TrimPrefix (p +:+ s) p = s.
Proof. unfold TrimPrefix, HasPrefix. by rewrite prefix_app, sdrop_app. Qed.

(** A string whose suffixes never start with [sub] has no last index. *)
Lemma LastIndex_app_l (a s sub : string) i :
  LastIndex s sub = Some i → LastIndex (a +:+ s) sub = Some (String.length a + i)%nat.
Proof.
  intros H. induction a as [|c a IH]; [done|]. rewrite string_app_cons.
  cbn [LastIndex String.length]. by rewrite IH.
Qed.

(** No occurrence of a pattern starting with a non-digit in a digit string. *)
Lemma LastIndex_digits s c p :
  allDigits s = true → isDigit c = false → LastIndex s (String c p) = None.
Proof.
  intros Hs Hc. induction s as [|d s IH]; [done|].
  cbn in Hs. apply andb_true_iff in Hs as [Hd Hs].
  cbn -[String.prefix]. rewrite IH by done. cbn.
  destruct (ascii_dec c d) as [->|]; [congruence|done].
Qed.

(** ** time

    A [time.Time] is the number of nanoseconds since the zero time; a
    [time.Duration] is a 64-bit number of nanoseconds. *)

Definition IsZero (t : Z) : bool := t =? 0.

(** [t.Sub u]: saturates at the duration range. *)
Definition timeSub (t u : Z) : Z := Z.max minInt64 (Z.min maxInt64 (t - u)).

(** [d.Milliseconds()]: integer division truncated toward zero. *)
Definition Milliseconds (d : Z) : Z := Z.quot d 1000000.

Definition Millisecond : Z := 1000000.
Definition Second : Z := 1000 * Millisecond.
Definition Minute : Z := 60 * Second.

Lemma timeSub_range t u : in_int64 (timeSub t u).
Proof. unfold timeSub, in_int64, minInt64, maxInt64. lia. Qed.

(** ** Byte order on strings: Go's [<] on strings *)

Definition sltb (a b : string) : bool := String.ltb a b.

(** The order [sort.Strings] sorts by. *)
Definition strLe (a b : string) : Prop := sltb b a = false.

#[export] Instance strLe_dec : RelDecision strLe.
Proof. intros a b. unfold strLe. apply _. Defined.

Lemma sltb_irrefl a : sltb a a = false.
Proof.
  unfold sltb, String.ltb.
  replace (String.compare a a) with Eq; [done|].
  induction a as [|c a IH]; cbn; [done|].
  unfold Ascii.compare. by rewrite N.compare_refl.
Qed.

Lemma sltb_total a b : sltb a b = false → sltb b a = false → a = b.
Proof.
  unfold sltb, String.ltb. rewrite (String.compare_antisym b a).
  destruct (String.compare a b) eqn:E; cbn; intros; try done.
  by apply String.compare_eq_iff in E.
Qed.

Lemma sltb_leb a b : sltb a b = negb (String.leb b a).
Proof.
  unfold sltb, String.ltb, String.leb. rewrite (String.compare_antisym b a).
  destruct (String.compare a b); done.
Qed.

Lemma sltb_trans a b c : sltb a b = true → sltb b c = true → sltb a c = true.
Proof.
  rewrite !sltb_leb, !negb_true_iff. intros H1 H2.
  destruct (String.leb c a) eqn:E; [|done].
  assert (String.le c a) as Hca by by apply Is_true_true.
  destruct (String.le_total b c) as [H|H].
  - assert (String.le b a) as Hba by (by transitivity c).
    apply Is_true_true in Hba. congruence.
  - apply Is_true_true in H. unfold String.le in *. congruence.
Qed.

Lemma sltb_cotrans a b c : sltb a c = true → sltb a b = true ∨ sltb b c = true.
Proof.
  intros H. destruct (sltb a b) eqn:E1; [by left|]. right.
  destruct (sltb b a) eqn:E2; [by apply (sltb_trans b a c)|].
  by rewrite <-(sltb_total a b).
Qed.
