(* ===== verification/Beads.v ===== *)
(** * Beads: the bead data model, list queries and the Ready predicates

    Models [internal/beads/beads.go] (the [Bead], [Dep] and [UpdateOpts] data,
    the Ready predicates) and [internal/beads/query.go] (list queries, the
    canonical sort orders, cursor pagination).

    A Go nil map and an empty map, and a nil slice and an empty slice, are one
    value here: no code of these files tells them apart.  Timestamps are
    nanoseconds since the zero time, so [0] is the zero [time.Time]. *)

From S2P Require Import Prelude GoBase.

Local Open Scope Z_scope.

(** ** Data *)

(** [Dep]: [IssueID] depends on (is blocked by) [DependsOnID]. *)
Record Dep := mkDep {
  IssueID : string;
  DependsOnID : string;
  DepType : string
}.

#[export] Instance Dep_eq_dec : EqDecision Dep.
Proof. solve_decision. Defined.

(** [Bead]: a single unit of work.  [bType] is the source's field [Type]. *)
Record Bead := mkBead {
  bID : string;
  bTitle : string;
  bStatus : string;
  bType : string;
  bPriority : option Z;
  bCreatedAt : Z;
  bUpdatedAt : Z;
  bAssignee : string;
  bFrom : string;
  bParentID : string;
  bRef : string;
  bNeeds : list string;
  bDescription : string;
  bLabels : list string;
  bMetadata : gmap string string;
  bDependencies : list Dep;
  bEphemeral : bool;
  bNoHistory : bool;
  bDeferUntil : option Z;
  bIsBlocked : option bool;
  bRevision : Z;
  bClaimFence : Z
}.

#[export] Instance Bead_eq_dec : EqDecision Bead.
Proof. solve_decision. Defined.

(** The zero value [Bead{}]. *)
Definition zeroBead : Bead :=
  mkBead "" "" "" "" None 0 0 "" "" "" "" [] "" [] ∅ [] false false None None 0 0.

(** Field assignments [b.F = v]. *)
Section setters.
Variable b : Bead.
Definition setID v :=
  mkBead v b.(bTitle) b.(bStatus) b.(bType) b.(bPriority) b.(bCreatedAt) b.(bUpdatedAt)
    b.(bAssignee) b.(bFrom) b.(bParentID) b.(bRef) b.(bNeeds) b.(bDescription) b.(bLabels)
    b.(bMetadata) b.(bDependencies) b.(bEphemeral) b.(bNoHistory) b.(bDeferUntil) b.(bIsBlocked)
    b.(bRevision) b.(bClaimFence).
Definition setTitle v :=
  mkBead b.(bID) v b.(bStatus) b.(bType) b.(bPriority) b.(bCreatedAt) b.(bUpdatedAt)
    b.(bAssignee) b.(bFrom) b.(bParentID) b.(bRef) b.(bNeeds) b.(bDescription) b.(bLabels)
    b.(bMetadata) b.(bDependencies) b.(bEphemeral) b.(bNoHistory) b.(bDeferUntil) b.(bIsBlocked)
    b.(bRevision) b.(bClaimFence).
Definition setStatus v :=
  mkBead b.(bID) b.(bTitle) v b.(bType) b.(bPriority) b.(bCreatedAt) b.(bUpdatedAt)
    b.(bAssignee) b.(bFrom) b.(bParentID) b.(bRef) b.(bNeeds) b.(bDescription) b.(bLabels)
    b.(bMetadata) b.(bDependencies) b.(bEphemeral) b.(bNoHistory) b.(bDeferUntil) b.(bIsBlocked)
    b.(bRevision) b.(bClaimFence).
Definition setType v :=
  mkBead b.(bID) b.(bTitle) b.(bStatus) v b.(bPriority) b.(bCreatedAt) b.(bUpdatedAt)
    b.(bAssignee) b.(bFrom) b.(bParentID) b.(bRef) b.(bNeeds) b.(bDescription) b.(bLabels)
    b.(bMetadata) b.(bDependencies) b.(bEphemeral) b.(bNoHistory) b.(bDeferUntil) b.(bIsBlocked)
    b.(bRevision) b.(bClaimFence).
Definition setPriority v :=
  mkBead b.(bID) b.(bTitle) b.(bStatus) b.(bType) v b.(bCreatedAt) b.(bUpdatedAt) b.(bAssignee)
    b.(bFrom) b.(bParentID) b.(bRef) b.(bNeeds) b.(bDescription) b.(bLabels) b.(bMetadata)
    b.(bDependencies) b.(bEphemeral) b.(bNoHistory) b.(bDeferUntil) b.(bIsBlocked) b.(bRevision)
    b.(bClaimFence).
Definition setCreatedAt v :=
  mkBead b.(bID) b.(bTitle) b.(bStatus) b.(bType) b.(bPriority) v b.(bUpdatedAt) b.(bAssignee)
    b.(bFrom) b.(bParentID) b.(bRef) b.(bNeeds) b.(bDescription) b.(bLabels) b.(bMetadata)
    b.(bDependencies) b.(bEphemeral) b.(bNoHistory) b.(bDeferUntil) b.(bIsBlocked) b.(bRevision)
    b.(bClaimFence).
Definition setUpdatedAt v :=
  mkBead b.(bID) b.(bTitle) b.(bStatus) b.(bType) b.(bPriority) b.(bCreatedAt) v b.(bAssignee)
    b.(bFrom) b.(bParentID) b.(bRef) b.(bNeeds) b.(bDescription) b.(bLabels) b.(bMetadata)
    b.(bDependencies) b.(bEphemeral) b.(bNoHistory) b.(bDeferUntil) b.(bIsBlocked) b.(bRevision)
    b.(bClaimFence).
Definition setAssignee v :=
  mkBead b.(bID) b.(bTitle) b.(bStatus) b.(bType) b.(bPriority) b.(bCreatedAt) b.(bUpdatedAt) v
    b.(bFrom) b.(bParentID) b.(bRef) b.(bNeeds) b.(bDescription) b.(bLabels) b.(bMetadata)
    b.(bDependencies) b.(bEphemeral) b.(bNoHistory) b.(bDeferUntil) b.(bIsBlocked) b.(bRevision)
    b.(bClaimFence).
Definition setParentID v :=
  mkBead b.(bID) b.(bTitle) b.(bStatus) b.(bType) b.(bPriority) b.(bCreatedAt) b.(bUpdatedAt)
    b.(bAssignee) b.(bFrom) v b.(bRef) b.(bNeeds) b.(bDescription) b.(bLabels) b.(bMetadata)
    b.(bDependencies) b.(bEphemeral) b.(bNoHistory) b.(bDeferUntil) b.(bIsBlocked) b.(bRevision)
    b.(bClaimFence).
Definition setDescription v :=
  mkBead b.(bID) b.(bTitle) b.(bStatus) b.(bType) b.(bPriority) b.(bCreatedAt) b.(bUpdatedAt)
    b.(bAssignee) b.(bFrom) b.(bParentID) b.(bRef) b.(bNeeds) v b.(bLabels) b.(bMetadata)
    b.(bDependencies) b.(bEphemeral) b.(bNoHistory) b.(bDeferUntil) b.(bIsBlocked) b.(bRevision)
    b.(bClaimFence).
Definition setLabels v :=
  mkBead b.(bID) b.(bTitle) b.(bStatus) b.(bType) b.(bPriority) b.(bCreatedAt) b.(bUpdatedAt)
    b.(bAssignee) b.(bFrom) b.(bParentID) b.(bRef) b.(bNeeds) b.(bDescription) v b.(bMetadata)
    b.(bDependencies) b.(bEphemeral) b.(bNoHistory) b.(bDeferUntil) b.(bIsBlocked) b.(bRevision)
    b.(bClaimFence).
Definition setMetadataMap v :=
  mkBead b.(bID) b.(bTitle) b.(bStatus) b.(bType) b.(bPriority) b.(bCreatedAt) b.(bUpdatedAt)
    b.(bAssignee) b.(bFrom) b.(bParentID) b.(bRef) b.(bNeeds) b.(bDescription) b.(bLabels) v
    b.(bDependencies) b.(bEphemeral) b.(bNoHistory) b.(bDeferUntil) b.(bIsBlocked) b.(bRevision)
    b.(bClaimFence).
Definition setRevision v :=
  mkBead b.(bID) b.(bTitle) b.(bStatus) b.(bType) b.(bPriority) b.(bCreatedAt) b.(bUpdatedAt)
    b.(bAssignee) b.(bFrom) b.(bParentID) b.(bRef) b.(bNeeds) b.(bDescription) b.(bLabels)
    b.(bMetadata) b.(bDependencies) b.(bEphemeral) b.(bNoHistory) b.(bDeferUntil) b.(bIsBlocked)
    v b.(bClaimFence).
Definition setClaimFence v :=
  mkBead b.(bID) b.(bTitle) b.(bStatus) b.(bType) b.(bPriority) b.(bCreatedAt) b.(bUpdatedAt)
    b.(bAssignee) b.(bFrom) b.(bParentID) b.(bRef) b.(bNeeds) b.(bDescription) b.(bLabels)
    b.(bMetadata) b.(bDependencies) b.(bEphemeral) b.(bNoHistory) b.(bDeferUntil) b.(bIsBlocked)
    b.(bRevision) v.
End setters.

(** [UpdateOpts]: [None] is a nil pointer (no change); the empty list and the
    empty map are the nil ones. *)
Record UpdateOpts := mkUpdateOpts {
  oTitle : option string;
  oStatus : option string;
  oType : option string;
  oPriority : option Z;
  oDescription : option string;
  oParentID : option string;
  oAssignee : option string;
  oLabels : list string;
  oRemoveLabels : list string;
  oMetadata : gmap string string
}.

Definition noOpts : UpdateOpts := mkUpdateOpts None None None None None None None [] [] ∅.

Definition is_None {A} (o : option A) : bool := match o with None => true | Some _ => false end.
Definition is_empty {A} (l : list A) : bool := match l with [] => true | _ :: _ => false end.

(** [isEmptyUpdateOpts]: no mutation at all. *)
Definition isEmptyUpdateOpts (o : UpdateOpts) : bool :=
  is_None o.(oTitle) && is_None o.(oStatus) && is_None o.(oType) && is_None o.(oPriority) &&
  is_None o.(oDescription) && is_None o.(oParentID) && is_None o.(oAssignee) &&
  is_empty o.(oLabels) && is_empty o.(oRemoveLabels) && bool_decide (o.(oMetadata) = ∅).

(** [QueryOpt] and [HasOpt]. *)
Inductive QueryOpt := IncludeClosed | WithEphemeral | WithBothTiers.

#[export] Instance QueryOpt_eq_dec : EqDecision QueryOpt.
Proof. solve_decision. Defined.

Definition HasOpt (opts : list QueryOpt) (want : QueryOpt) : bool :=
  existsb (λ o, bool_decide (o = want)) opts.

(** ** Type tables *)

Definition containerTypes : list string := ["convoy"].
Definition IsContainerType (t : string) : bool := bool_decide (t ∈ containerTypes).

Definition moleculeTypes : list string := ["molecule"; "wisp"].
Definition IsMoleculeType (t : string) : bool := bool_decide (t ∈ moleculeTypes).

Definition readyExcludeTypes : list string :=
  ["merge-request"; "gate"; "molecule"; "step"; "convoy"; "message"; "session"; "agent"; "role"; "rig"].
Definition IsReadyExcludedType (t : string) : bool := bool_decide (t ∈ readyExcludeTypes).

Definition readyBlockingDependencyTypes : list string :=
  ["blocks"; "waits-for"; "conditional-blocks"].
Definition IsReadyBlockingDependencyType (t : string) : bool :=
  bool_decide (t ∈ readyBlockingDependencyTypes).

(** ** Ready predicates *)

Definition KindMetadataKey : string := "gc.kind".
Definition KindCleanup : string := "cleanup".
Definition KindWorkflowFinalize : string := "workflow-finalize".
Definition OutcomeMetadataKey : string := "gc.outcome".
Definition OutcomeFail : string := "fail".

(** A closed blocker permits its dependents unless it closed as failed. *)
Definition IsReadyBlockingDependencySatisfied (blocker : Bead) : bool :=
  (blocker.(bStatus) == "closed") && (blocker.(bMetadata).[OutcomeMetadataKey] != OutcomeFail).

Definition isReadyTerminalizer (b : Bead) : bool :=
  let kind := b.(bMetadata).[KindMetadataKey] in
  (kind == KindCleanup) || (kind == KindWorkflowFinalize).

Definition IsReadyBlockingDependencySatisfiedFor (dependent blocker : Bead) : bool :=
  if blocker.(bStatus) != "closed" then false
  else if isReadyTerminalizer dependent then true
  else IsReadyBlockingDependencySatisfied blocker.

Definition HasReadyExcludedLabel (b : Bead) : bool :=
  existsb (λ l, (l == "gc:session") || (l == "gc:order-tracking") || (l == "order-tracking")) b.(bLabels).

Definition IsReadyExcludedBead (b : Bead) : bool :=
  IsReadyExcludedType b.(bType) || HasReadyExcludedLabel b.

Definition IsDeferred (b : Bead) (now : Z) : bool :=
  match b.(bDeferUntil) with Some t => now <? t | None => false end.

(** ** Storage tiers *)

Inductive TierMode := TierIssues | TierWisps | TierBoth.

Definition TierModeFromOpts (opts : list QueryOpt) : TierMode :=
  if HasOpt opts WithBothTiers then TierBoth
  else if HasOpt opts WithEphemeral then TierWisps
  else TierIssues.

Definition IsReadyCandidateForTier (b : Bead) (now : Z) (tier : TierMode) : bool :=
  let rest := (b.(bStatus) == "open") && negb (IsReadyExcludedBead b) && negb (IsDeferred b now) in
  match tier with
  | TierWisps => if negb b.(bEphemeral) && negb b.(bNoHistory) then false else rest
  | TierBoth => rest
  | TierIssues => if b.(bEphemeral) then false else rest
  end.

Definition IsReadyCandidate (b : Bead) (now : Z) : bool :=
  IsReadyCandidateForTier b now TierIssues.

(** ** List queries *)

Inductive SortOrder := SortDefault | SortCreatedAsc | SortCreatedDesc.

#[export] Instance SortOrder_eq_dec : EqDecision SortOrder.
Proof. solve_decision. Defined.

Record SeekBoundary := mkSeek { skCreatedAt : Z; skID : string }.

Record ListQuery := mkListQuery {
  qStatus : string;
  qType : string;
  qLabel : string;
  qAssignee : string;
  qAssignees : list string;
  qParentID : string;
  qParentIDs : list string;
  qMetadata : gmap string string;
  qCreatedBefore : Z;
  qUpdatedBefore : Z;
  qLimit : Z;
  qIncludeClosed : bool;
  qAllowScan : bool;
  qSkipLabels : bool;
  qLive : bool;
  qSort : SortOrder;
  qAllowBackingCreatedLimit : bool;
  qTierMode : TierMode;
  qSeekAfter : option SeekBoundary
}.

(** The zero query. *)
Definition zeroQuery : ListQuery :=
  mkListQuery "" "" "" "" [] "" [] ∅ 0 0 0 false false false false SortDefault false TierIssues None.

Definition setSeekAfter (q : ListQuery) (sk : option SeekBoundary) : ListQuery :=
  mkListQuery q.(qStatus) q.(qType) q.(qLabel) q.(qAssignee) q.(qAssignees) q.(qParentID)
    q.(qParentIDs) q.(qMetadata) q.(qCreatedBefore) q.(qUpdatedBefore) q.(qLimit)
    q.(qIncludeClosed) q.(qAllowScan) q.(qSkipLabels) q.(qLive) q.(qSort)
    q.(qAllowBackingCreatedLimit) q.(qTierMode) sk.

Definition setLimit (q : ListQuery) (n : Z) : ListQuery :=
  mkListQuery q.(qStatus) q.(qType) q.(qLabel) q.(qAssignee) q.(qAssignees) q.(qParentID)
    q.(qParentIDs) q.(qMetadata) q.(qCreatedBefore) q.(qUpdatedBefore) n
    q.(qIncludeClosed) q.(qAllowScan) q.(qSkipLabels) q.(qLive) q.(qSort)
    q.(qAllowBackingCreatedLimit) q.(qTierMode) q.(qSeekAfter).

(** [Validate]: the two contradictory selector shapes, as an error value. *)
Inductive ValidateError := ErrAssigneeConflict | ErrSeekNeedsSort.

Definition Validate (q : ListQuery) : option ValidateError :=
  if (q.(qAssignee) != "") && negb (is_empty q.(qAssignees)) then Some ErrAssigneeConflict
  else match q.(qSeekAfter) with
       | Some _ => match q.(qSort) with
                   | SortCreatedAsc | SortCreatedDesc => None
                   | SortDefault => Some ErrSeekNeedsSort
                   end
       | None => None
       end.

Definition HasFilter (q : ListQuery) : bool :=
  (q.(qStatus) != "") || (q.(qType) != "") || (q.(qLabel) != "") || (q.(qAssignee) != "") ||
  negb (is_empty q.(qAssignees)) || (q.(qParentID) != "") ||
  negb (bool_decide (q.(qMetadata) = ∅)) ||
  negb (IsZero q.(qCreatedBefore)) || negb (IsZero q.(qUpdatedBefore)) ||
  negb (is_None q.(qSeekAfter)).

Definition IncludesClosed (q : ListQuery) : bool :=
  q.(qIncludeClosed) || (q.(qStatus) == "closed").

Definition matchesTier (q : ListQuery) (b : Bead) : bool :=
  match q.(qTierMode) with
  | TierWisps => b.(bEphemeral) || b.(bNoHistory)
  | TierBoth => true
  | TierIssues => negb b.(bEphemeral)
  end.

Definition beadUpdatedReferenceTime (b : Bead) : Z :=
  if negb (IsZero b.(bUpdatedAt)) then b.(bUpdatedAt) else b.(bCreatedAt).

Definition beadHasLabel (b : Bead) (want : string) : bool :=
  existsb (λ l, l == want) b.(bLabels).

Definition matchesMetadata (b : Bead) (filters : gmap string string) : bool :=
  forallb (λ kv, b.(bMetadata).[kv.1] == kv.2) (map_to_list filters).

(** [SeekBoundary.After]: strictly after the boundary in the given order. *)
Definition After (sb : SeekBoundary) (b : Bead) (sort : SortOrder) : bool :=
  match sort with
  | SortCreatedAsc =>
      if sb.(skCreatedAt) <? b.(bCreatedAt) then true
      else (b.(bCreatedAt) =? sb.(skCreatedAt)) && sltb sb.(skID) b.(bID)
  | SortCreatedDesc =>
      if b.(bCreatedAt) <? sb.(skCreatedAt) then true
      else (b.(bCreatedAt) =? sb.(skCreatedAt)) && sltb b.(bID) sb.(skID)
  | SortDefault => false
  end.

(** [Matches]: every populated selector holds. *)
Definition Matches (q : ListQuery) (b : Bead) : bool :=
  if negb (matchesTier q b) then false
  else if (if q.(qStatus) != "" then b.(bStatus) != q.(qStatus)
           else negb q.(qIncludeClosed) && (b.(bStatus) == "closed")) then false
  else if (q.(qType) != "") && (b.(bType) != q.(qType)) then false
  else if (q.(qLabel) != "") && negb (beadHasLabel b q.(qLabel)) then false
  else if (q.(qAssignee) != "") && (b.(bAssignee) != q.(qAssignee)) then false
  else if negb (is_empty q.(qAssignees)) &&
          negb (existsb (λ a, b.(bAssignee) == a) q.(qAssignees)) then false
  else if (q.(qParentID) != "") && (b.(bParentID) != q.(qParentID)) then false
  else if negb (bool_decide (q.(qMetadata) = ∅)) && negb (matchesMetadata b q.(qMetadata)) then false
  else if negb (IsZero q.(qCreatedBefore)) && negb (b.(bCreatedAt) <? q.(qCreatedBefore)) then false
  else if negb (IsZero q.(qUpdatedBefore)) &&
          negb (beadUpdatedReferenceTime b <? q.(qUpdatedBefore)) then false
  else match q.(qSeekAfter) with
       | Some sk => After sk b q.(qSort)
       | None => true
       end.

(** ** Canonical orders *)

(** The comparison functions handed to [sort.Slice]. *)
Definition createdAscLess (a b : Bead) : bool :=
  if a.(bCreatedAt) =? b.(bCreatedAt) then sltb a.(bID) b.(bID)
  else a.(bCreatedAt) <? b.(bCreatedAt).

Definition createdDescLess (a b : Bead) : bool :=
  if a.(bCreatedAt) =? b.(bCreatedAt) then sltb b.(bID) a.(bID)
  else b.(bCreatedAt) <? a.(bCreatedAt).

Definition readySortPriority (b : Bead) : Z :=
  match b.(bPriority) with None => 2 | Some p => p end.

Definition beadReadyLess (a b : Bead) : bool :=
  let pa := readySortPriority a in
  let pb := readySortPriority b in
  if negb (pa =? pb) then pa <? pb
  else if negb (a.(bCreatedAt) =? b.(bCreatedAt)) then a.(bCreatedAt) <? b.(bCreatedAt)
  else sltb a.(bID) b.(bID).

(** [sort.Slice items less]: some permutation in which no element is less
    than an earlier one; the merge sort below is one, and
    [sortSlice_unique] shows it is the only one when [less] separates the
    elements. *)
Definition notLess (less : Bead → Bead → bool) (a b : Bead) : Prop := less b a = false.

#[export] Instance notLess_dec less : RelDecision (notLess less).
Proof. intros a b. unfold notLess. apply _. Defined.

Definition sortSlice (less : Bead → Bead → bool) (items : list Bead) : list Bead :=
  merge_sort (notLess less) items.

Definition sortBeadsForQuery (items : list Bead) (order : SortOrder) : list Bead :=
  match order with
  | SortDefault => items
  | SortCreatedAsc => sortSlice createdAscLess items
  | SortCreatedDesc => sortSlice createdDescLess items
  end.

Definition sortBeadsReadyOrder (items : list Bead) : list Bead := sortSlice beadReadyLess items.

(** The [Limit] cut shared by [List] and [ApplyListQuery]: [0] (or a negative
    value) means no limit. *)
Definition applyLimit {A} (limit : Z) (l : list A) : list A :=
  if (0 <? limit) && (limit <? Z.of_nat (length l)) then take (Z.to_nat limit) l else l.

Definition ApplyListQuery (items : list Bead) (q : ListQuery) : list Bead :=
  applyLimit q.(qLimit)
    (sortBeadsForQuery (List.filter (Matches q) items) q.(qSort)).

(** Ready queries. *)
Record ReadyQuery := mkReadyQuery { rAssignee : string; rLimit : Z; rTierMode : TierMode }.

Definition readyQueryFromArgs (qs : list ReadyQuery) : ReadyQuery :=
  match qs with [] => mkReadyQuery "" 0 TierIssues | q :: _ => q end.

(** ** Laws of the orders *)

(** What [sort.Slice] callers rely on: a strict order that separates beads
    with different keys. *)
Class StrictKeyOrder (less : Bead → Bead → bool) : Prop := {
  sko_irrefl a : less a a = false;
  sko_trans a b c : less a b = true → less b c = true → less a c = true;
  sko_cotrans a b c : less a c = true → less a b = true ∨ less b c = true;
  sko_total a b : less a b = false → less b a = false → bID a = bID b
}.

#[export] Instance createdAscLess_order : StrictKeyOrder createdAscLess.
Proof.
  unfold createdAscLess. split.
  - intros a. rewrite Z.eqb_refl. apply sltb_irrefl.
  - intros a b c.
    repeat match goal with |- context [?x =? ?y] => destruct (Z.eqb_spec x y) end;
      rewrite ?Z.ltb_lt; try lia. apply sltb_trans.
  - intros a b c.
    repeat match goal with |- context [?x =? ?y] => destruct (Z.eqb_spec x y) end;
      rewrite ?Z.ltb_lt; try lia. apply sltb_cotrans.
  - intros a b. rewrite (Z.eqb_sym (bCreatedAt b)).
    destruct (Z.eqb_spec (bCreatedAt a) (bCreatedAt b)).
    + apply sltb_total.
    + rewrite !Z.ltb_ge. lia.
Qed.

Lemma createdDescLess_flip a b : createdDescLess a b = createdAscLess b a.
Proof. unfold createdDescLess, createdAscLess. by rewrite Z.eqb_sym. Qed.

#[export] Instance createdDescLess_order : StrictKeyOrder createdDescLess.
Proof.
  split; intros *; rewrite !createdDescLess_flip.
  - apply sko_irrefl.
  - intros H1 H2. eapply sko_trans; eauto.
  - intros H. apply or_comm. by apply sko_cotrans.
  - intros H1 H2. symmetry. by apply (sko_total (less := createdAscLess)).
Qed.

#[export] Instance beadReadyLess_order : StrictKeyOrder beadReadyLess.
Proof.
  unfold beadReadyLess. split.
  - intros a. rewrite !Z.eqb_refl. apply sltb_irrefl.
  - intros a b c.
    repeat match goal with |- context [?x =? ?y] => destruct (Z.eqb_spec x y) end; cbn;
      rewrite ?Z.ltb_lt; try lia. apply sltb_trans.
  - intros a b c.
    repeat match goal with |- context [?x =? ?y] => destruct (Z.eqb_spec x y) end; cbn;
      rewrite ?Z.ltb_lt; try lia. apply sltb_cotrans.
  - intros a b. rewrite (Z.eqb_sym (readySortPriority b)), (Z.eqb_sym (bCreatedAt b)).
    destruct (Z.eqb_spec (readySortPriority a) (readySortPriority b)); cbn;
      [destruct (Z.eqb_spec (bCreatedAt a) (bCreatedAt b)); cbn|];
      rewrite ?Z.ltb_ge; try lia. apply sltb_total.
Qed.

Section sorting.
Context (less : Bead → Bead → bool) `{!StrictKeyOrder less}.

#[export] Instance notLess_trans : Transitive (notLess less).
Proof.
  unfold notLess. intros a b c H1 H2.
  destruct (less c a) eqn:E; [|done].
  destruct (sko_cotrans c b a E); congruence.
Qed.

#[export] Instance notLess_total : Total (notLess less).
Proof.
  unfold notLess. intros a b. destruct (less b a) eqn:E; [right|by left].
  destruct (less a b) eqn:E2; [|done].
  pose proof (sko_trans a b a E2 E) as H. rewrite sko_irrefl in H. done.
Qed.

Lemma sortSlice_perm l : sortSlice less l ≡ₚ l.
Proof. apply merge_sort_Permutation. Qed.

Lemma sortSlice_sorted l : StronglySorted (notLess less) (sortSlice less l).
Proof. apply StronglySorted_merge_sort; apply _. Qed.

(** Beads with pairwise different IDs: the same ID is the same bead. *)
Lemma NoDup_bID_inj (l : list Bead) a b :
  NoDup (bID <$> l) → a ∈ l → b ∈ l → bID a = bID b → a = b.
Proof.
  intros Hnd Ha Hb He.
  apply list_elem_of_lookup in Ha as [i Hi]. apply list_elem_of_lookup in Hb as [j Hj].
  assert (i = j) as ->; [|congruence].
  eapply NoDup_lookup; [done|..]; rewrite list_lookup_fmap, ?Hi, ?Hj; cbn; by rewrite ?He.
Qed.

(** Any permutation of distinct beads that is in order is the one [sortSlice]
    computes: the result does not depend on the sorting algorithm. *)
Lemma sortSlice_unique l l' :
  NoDup (bID <$> l) → l' ≡ₚ l → StronglySorted (notLess less) l' → l' = sortSlice less l.
Proof.
  intros Hnd Hp Hs.
  eapply StronglySorted_unique_strong; [|exact Hs|apply sortSlice_sorted|].
  - intros a b Ha Hb H1 H2. rewrite Hp in Ha. rewrite sortSlice_perm in Hb.
    eapply NoDup_bID_inj; [exact Hnd|done..|]. by apply (sko_total a b).
  - by rewrite sortSlice_perm.
Qed.

Lemma StronglySorted_filter {A} (R : A → A → Prop) (f : A → bool) l :
  StronglySorted R l → StronglySorted R (List.filter f l).
Proof.
  induction 1 as [|a l Hs IH Hf]; cbn; [constructor|].
  destruct (f a); [|done]. constructor; [done|].
  apply Forall_forall. intros x Hx. rewrite Forall_forall in Hf.
  apply Hf. apply list_elem_of_In in Hx. apply filter_In in Hx as [Hx _].
  by apply list_elem_of_In.
Qed.

Lemma NoDup_filter_bID (f : Bead → bool) l :
  NoDup (bID <$> l) → NoDup (bID <$> List.filter f l).
Proof.
  induction l as [|a l IH]; cbn; [done|]. intros [Ha Hn]%NoDup_cons.
  destruct (f a); [|by apply IH]. cbn. apply NoDup_cons. split; [|by apply IH].
  intros [x [Hx Hin]]%list_elem_of_fmap. apply Ha. apply list_elem_of_fmap.
  exists x. split; [done|]. apply list_elem_of_In in Hin. apply filter_In in Hin as [Hin _].
  by apply list_elem_of_In.
Qed.

Lemma filter_Permutation_bool {A} (f : A → bool) l l' :
  l ≡ₚ l' → List.filter f l ≡ₚ List.filter f l'.
Proof.
  induction 1; cbn; repeat dmatch; auto; try constructor; etrans; eauto.
Qed.

(** Filtering commutes with sorting. *)
Lemma sortSlice_filter (f : Bead → bool) l :
  NoDup (bID <$> l) →
  sortSlice less (List.filter f l) = List.filter f (sortSlice less l).
Proof.
  intros Hnd. symmetry. apply sortSlice_unique.
  - by apply NoDup_filter_bID.
  - apply filter_Permutation_bool, sortSlice_perm.
  - apply StronglySorted_filter, sortSlice_sorted.
Qed.

(** In a sorted list of distinct beads, keeping what is strictly after an
    element is dropping everything up to it. *)
Lemma filter_after l1 b l2 :
  NoDup (bID <$> l1 ++ b :: l2) → StronglySorted (notLess less) (l1 ++ b :: l2) →
  List.filter (less b) (l1 ++ b :: l2) = l2.
Proof.
  intros Hnd Hs. rewrite List.filter_app.
  rewrite fmap_app, fmap_cons in Hnd.
  apply NoDup_app in Hnd as (_ & _ & [Hb Hnd2]%NoDup_cons).
  assert (Forall (λ x, less b x = false) l1) as H1.
  { clear -Hs StrictKeyOrder0. induction l1 as [|a l1 IH]; [constructor|].
    apply StronglySorted_inv in Hs as [Hs Hf]. constructor; [|by apply IH].
    rewrite Forall_forall in Hf. apply Hf. set_solver. }
  assert (Forall (λ x, less b x = true) l2) as H2.
  { apply Forall_forall. intros x Hx. destruct (less b x) eqn:E; [done|].
    exfalso. apply Hb. apply list_elem_of_fmap. exists x. split; [|done].
    apply (sko_total b x); [done|].
    clear H1. induction l1 as [|a l1 IH]; cbn in Hs.
    - apply StronglySorted_inv in Hs as [_ Hf]. rewrite Forall_forall in Hf. by apply Hf.
    - apply StronglySorted_inv in Hs as [Hs _]. by apply IH. }
  replace (List.filter (less b) l1) with (@nil Bead).
  2:{ clear -H1. induction H1 as [|x l Hx _ IH]; cbn; [done|]. by rewrite Hx. }
  cbn. rewrite sko_irrefl.
  clear -H2. induction H2 as [|x l Hx _ IH]; cbn; [done|]. by rewrite Hx, IH.
Qed.
End sorting.

(** [Matches] with a cursor is [Matches] without one, and the cursor test. *)
Lemma Matches_seek q sk b :
  qSeekAfter q = None →
  Matches (setSeekAfter q (Some sk)) b = Matches q b && After sk b (qSort q).
Proof.
  intros Hq. unfold Matches, setSeekAfter, matchesTier. cbn [qSeekAfter qTierMode qStatus qIncludeClosed
    qType qLabel qAssignee qAssignees qParentID qMetadata qCreatedBefore qUpdatedBefore qSort].
  rewrite Hq. repeat (match goal with |- context [if ?c then _ else _] => destruct c end; try done).
Qed.

Lemma After_asc c b :
  After (mkSeek (bCreatedAt c) (bID c)) b SortCreatedAsc = createdAscLess c b.
Proof.
  unfold After, createdAscLess. cbn. rewrite (Z.eqb_sym (bCreatedAt b)).
  destruct (Z.ltb_spec (bCreatedAt c) (bCreatedAt b));
    destruct (Z.eqb_spec (bCreatedAt c) (bCreatedAt b)); try done; lia.
Qed.

Lemma After_desc c b :
  After (mkSeek (bCreatedAt c) (bID c)) b SortCreatedDesc = createdDescLess c b.
Proof.
  unfold After, createdDescLess. cbn. rewrite (Z.eqb_sym (bCreatedAt b)).
  destruct (Z.ltb_spec (bCreatedAt b) (bCreatedAt c));
    destruct (Z.eqb_spec (bCreatedAt c) (bCreatedAt b)); try done; lia.
Qed.

Lemma filter_andb {A} (f g : A → bool) l :
  List.filter (λ x, f x && g x) l = List.filter g (List.filter f l).
Proof. induction l as [|a l IH]; cbn; [done|]. destruct (f a); cbn; by rewrite IH. Qed.

Lemma applyLimit_0 {A} (l : list A) : applyLimit 0 l = l.
Proof. done. Qed.

(** The order a sorted query uses, as a comparison function. *)
Definition orderLess (order : SortOrder) : Bead → Bead → bool :=
  match order with SortCreatedDesc => createdDescLess | _ => createdAscLess end.

#[export] Instance orderLess_order o : StrictKeyOrder (orderLess o).
Proof. destruct o; cbn; apply _. Qed.

Lemma sortBeadsForQuery_less l order :
  order ≠ SortDefault → sortBeadsForQuery l order = sortSlice (orderLess order) l.
Proof. by destruct order. Qed.

Lemma After_less order c b :
  order ≠ SortDefault →
  After (mkSeek (bCreatedAt c) (bID c)) b order = orderLess order c b.
Proof. destruct order; [done|intros _; apply After_asc|intros _; apply After_desc]. Qed.

(** Cursor pagination neither skips nor repeats a row: when the whole listing
    of a sorted query is [l1 ++ b :: l2], the page that resumes from the
    boundary of [b], whatever its limit, is the limit cut of exactly [l2]. *)
Theorem cursor_page_exact items q l1 b l2 :
  NoDup (bID <$> items) → qSeekAfter q = None → qSort q ≠ SortDefault →
  ApplyListQuery items (setLimit q 0) = l1 ++ b :: l2 →
  ApplyListQuery items (setSeekAfter q (Some (mkSeek (bCreatedAt b) (bID b)))) =
  applyLimit (qLimit q) l2.
Proof.
  intros Hnd Hq Hs Hfull. unfold ApplyListQuery in *. cbn [setLimit setSeekAfter qLimit qSort] in *.
  rewrite applyLimit_0 in Hfull. f_equal. rewrite sortBeadsForQuery_less in * by done.
  rewrite (List.filter_ext _ (λ x, Matches q x && orderLess (qSort q) b x)).
  2:{ intros x. by rewrite Matches_seek, After_less. }
  rewrite filter_andb, sortSlice_filter by (by apply NoDup_filter_bID || apply _).
  change (Matches (setLimit q 0)) with (Matches q) in Hfull. rewrite Hfull.
  apply filter_after; [apply _|..]; rewrite <-Hfull.
  - rewrite sortSlice_perm. by apply NoDup_filter_bID.
  - apply sortSlice_sorted, _.
Qed.

Lemma cursor_page_exact_witness :
  let a := setCreatedAt (setID zeroBead "gc-1") 5 in
  let b := setCreatedAt (setID zeroBead "gc-2") 5 in
  let c := setCreatedAt (setID zeroBead "gc-3") 7 in
  let q := mkListQuery "" "" "" "" [] "" [] ∅ 0 0 1 false true false false SortCreatedDesc false TierIssues None in
  ApplyListQuery [b; a; c] (setSeekAfter q (Some (mkSeek 5 "gc-2"))) = [a].
Proof.
  intros a b c q.
  apply (cursor_page_exact [b; a; c] q [c] b [a]).
  - apply (bool_decide_unpack _). vm_compute. exact I.
  - reflexivity.
  - discriminate.
  - vm_compute. reflexivity.
Defined.
