(* ===== verification/MemStore.v ===== *)
(** * MemStore: the in-memory bead store

    Models [internal/beads/memstore.go] and [memstore_conditional.go].  The
    store is a slice of beads in creation order, a slice of dependencies, a
    sequence counter and clone-local strings.  Every operation runs under the
    store's mutex, so it is one atomic state transformer; the current time is
    an argument.  Deep copies ([cloneBead]) are the identity on values: a value
    returned here shares nothing with the store. *)

From S2P Require Import Prelude GoBase Beads.

Local Open Scope Z_scope.

(** ** State and errors *)

Record MemStore := mkMemStore {
  msBeads : list Bead;
  msDeps : list Dep;
  msSeq : Z;
  DisableConditionalWrites : bool;
  localStrings : gmap string (gmap string string)
}.

(** The errors the operations return.  [ErrNotFound] is the sentinel, possibly
    wrapped with the operation's context. *)
Inductive StoreError :=
| ErrNotFound (context id : string)
| ErrQueryRequiresScan
| ErrConditionalWriteUnsupported
| ErrEmptyConditionalUpdate (id : string)
| PreconditionFailedError (id : string) (expected current : Z).

#[export] Instance StoreError_eq_dec : EqDecision StoreError.
Proof. solve_decision. Defined.

Abbreviation result A := (res StoreError A).

Definition NewMemStore : MemStore := mkMemStore [] [] 0 false ∅.

Definition NewMemStoreFrom (seq : Z) (existing : list Bead) (deps : list Dep) : MemStore :=
  mkMemStore existing deps seq false ∅.

Definition restoreFrom (m : MemStore) (seq : Z) (beads : list Bead) (deps : list Dep) : MemStore :=
  mkMemStore beads deps seq m.(DisableConditionalWrites) m.(localStrings).

Definition snapshot (m : MemStore) : Z * list Bead * list Dep :=
  (m.(msSeq), m.(msBeads), m.(msDeps)).

Definition setBeads (m : MemStore) (bs : list Bead) : MemStore :=
  mkMemStore bs m.(msDeps) m.(msSeq) m.(DisableConditionalWrites) m.(localStrings).

Definition setDeps (m : MemStore) (ds : list Dep) : MemStore :=
  mkMemStore m.(msBeads) ds m.(msSeq) m.(DisableConditionalWrites) m.(localStrings).

Definition setLocal (m : MemStore) (ls : gmap string (gmap string string)) : MemStore :=
  mkMemStore m.(msBeads) m.(msDeps) m.(msSeq) m.(DisableConditionalWrites) ls.

(** ** Lookup *)

(** [indexOfLocked]: the first index with the given ID, with the bead there;
    [None] is the source's -1.  The operations that scan for an ID stop at the
    same bead. *)
Definition indexOfLocked (m : MemStore) (id : string) : option (nat * Bead) :=
  list_find (λ b, bID b = id) m.(msBeads).

Definition beadExistsLocked (m : MemStore) (id : string) : bool :=
  existsb (λ b, bID b == id) m.(msBeads).

(** [m.beads[i] = b]. *)
Definition putAt (m : MemStore) (i : nat) (b : Bead) : MemStore :=
  setBeads m (<[i:=b]> m.(msBeads)).

Definition Get (m : MemStore) (id : string) : result Bead :=
  match indexOfLocked m id with
  | Some (_, b) => Ok b
  | None => Err (ErrNotFound "getting bead" id)
  end.

(** ** Create *)

(** The dependency a [Needs] entry stands for: ["type:id"] with both parts
    non-empty, or a plain blocking reference. *)
Definition needDep (issue need : string) : Dep :=
  match Index need ":" with
  | Some i =>
      let p0 := stake i need in
      let p1 := sdrop (S i) need in
      if (p0 != "") && (p1 != "") then mkDep issue p1 p0 else mkDep issue need "blocks"
  | None => mkDep issue need "blocks"
  end.

(** The bead [Create] stores: ID, status and bookkeeping are the store's. *)
Definition createdBead (now seq : Z) (b : Bead) : Bead :=
  let b := setStatus (setID b ("gc-" +:+ Itoa seq)) "open" in
  let b := if b.(bType) == "" then setType b "task" else b in
  setClaimFence (setRevision (setUpdatedAt (setCreatedAt b now) now) 1) 0.

Definition Create (now : Z) (b : Bead) (m : MemStore) : result Bead * MemStore :=
  let seq := incr64 m.(msSeq) in
  let stored := createdBead now seq b in
  (Ok stored,
   mkMemStore (m.(msBeads) ++ [stored])
     (m.(msDeps) ++ map (needDep stored.(bID)) stored.(bNeeds))
     seq m.(DisableConditionalWrites) m.(localStrings)).

(** ** Update *)

Definition isOwnershipTransition (oldStatus oldAssignee : string) (opts : UpdateOpts) : bool :=
  if match opts.(oAssignee) with Some a => a != oldAssignee | None => false end then true
  else match opts.(oStatus) with
       | Some s => (s != "") && (oldStatus == "closed") && (s != "closed")
       | None => false
       end.

Definition optApply {A} (o : option A) (f : Bead → A → Bead) (b : Bead) : Bead :=
  match o with Some v => f b v | None => b end.

(** [applyUpdateLocked] on the bead it updates. *)
Definition applyUpdate (now : Z) (opts : UpdateOpts) (b0 : Bead) : Bead :=
  let oldStatus := b0.(bStatus) in
  let oldAssignee := b0.(bAssignee) in
  let b := optApply opts.(oTitle) setTitle b0 in
  let b := optApply opts.(oStatus) setStatus b in
  let b := optApply opts.(oDescription) setDescription b in
  let b := optApply opts.(oPriority) (λ b p, setPriority b (Some p)) b in
  let b := optApply opts.(oParentID) setParentID b in
  let b := optApply opts.(oAssignee) setAssignee b in
  let b := optApply opts.(oType) setType b in
  let b := setMetadataMap b (opts.(oMetadata) ∪ b.(bMetadata)) in
  let b := setLabels b (b.(bLabels) ++ opts.(oLabels)) in
  let b := setLabels b (List.filter (λ l, negb (bool_decide (l ∈ opts.(oRemoveLabels)))) b.(bLabels)) in
  let b := setRevision (setUpdatedAt b now) (incr64 b.(bRevision)) in
  if isOwnershipTransition oldStatus oldAssignee opts
  then setClaimFence b (incr64 b.(bClaimFence)) else b.

Definition Update (now : Z) (id : string) (opts : UpdateOpts) (m : MemStore) : result unit * MemStore :=
  match indexOfLocked m id with
  | None => (Err (ErrNotFound "updating bead" id), m)
  | Some (i, b) => (Ok (), putAt m i (applyUpdate now opts b))
  end.

(** ** Status transitions *)

(** [UpdatedAt = now; Revision++]. *)
Definition touch (now : Z) (b : Bead) : Bead :=
  setRevision (setUpdatedAt b now) (incr64 b.(bRevision)).

Definition bumpFence (b : Bead) : Bead := setClaimFence b (incr64 b.(bClaimFence)).

Definition ReleaseIfCurrent (now : Z) (id expectedAssignee : string) (m : MemStore) : result bool * MemStore :=
  match indexOfLocked m id with
  | None => (Ok false, m)
  | Some (i, b) =>
      if (b.(bStatus) != "in_progress") || (b.(bAssignee) != expectedAssignee) then (Ok false, m)
      else (Ok true, putAt m i (bumpFence (touch now (setAssignee (setStatus b "open") ""))))
  end.

Definition Close (now : Z) (id : string) (m : MemStore) : result unit * MemStore :=
  match indexOfLocked m id with
  | None => (Err (ErrNotFound "closing bead" id), m)
  | Some (i, b) =>
      if b.(bStatus) == "closed" then (Ok (), m)
      else (Ok (), putAt m i (touch now (setStatus b "closed")))
  end.

Definition Reopen (now : Z) (id : string) (m : MemStore) : result unit * MemStore :=
  match indexOfLocked m id with
  | None => (Err (ErrNotFound "reopening bead" id), m)
  | Some (i, b) =>
      if b.(bStatus) == "open" then (Ok (), m)
      else
        let b' := touch now (setStatus b "open") in
        (Ok (), putAt m i (if b.(bStatus) == "closed" then bumpFence b' else b'))
  end.

(** One iteration of [CloseAll]'s loop: whether the bead is closed by it, and
    the bead after it. *)
Definition closeAllOne (now : Z) (ids : list string) (metadata : gmap string string) (b : Bead) : bool * Bead :=
  if negb (bool_decide (b.(bID) ∈ ids)) || (b.(bStatus) == "closed") then (false, b)
  else let b' := touch now (setStatus b "closed") in
       (true, setMetadataMap b' (metadata ∪ b'.(bMetadata))).

Definition CloseAll (now : Z) (ids : list string) (metadata : gmap string string) (m : MemStore)
    : result Z * MemStore :=
  let rs := map (closeAllOne now ids metadata) m.(msBeads) in
  (Ok (Z.of_nat (length (List.filter fst rs))), setBeads m (map snd rs)).

(** ** Metadata and clone-local strings *)

Definition SetMetadata (now : Z) (id key value : string) (m : MemStore) : result unit * MemStore :=
  match indexOfLocked m id with
  | None => (Err (ErrNotFound "setting metadata on" id), m)
  | Some (i, b) => (Ok (), putAt m i (touch now (setMetadataMap b (<[key:=value]> b.(bMetadata)))))
  end.

Definition SetMetadataBatch (now : Z) (id : string) (kvs : gmap string string) (m : MemStore)
    : result unit * MemStore :=
  if decide (kvs = ∅) then (Ok (), m)
  else match indexOfLocked m id with
       | None => (Err (ErrNotFound "setting metadata batch on" id), m)
       | Some (i, b) => (Ok (), putAt m i (touch now (setMetadataMap b (kvs ∪ b.(bMetadata)))))
       end.

Definition localOf (m : MemStore) (id : string) : gmap string string :=
  default ∅ (m.(localStrings) !! id).

Definition SetLocalString (id key value : string) (m : MemStore) : result unit * MemStore :=
  if negb (beadExistsLocked m id) then (Err (ErrNotFound "setting local string on" id), m)
  else if value == "" then
    (Ok (), setLocal m (match m.(localStrings) !! id with
                        | Some ls => <[id:=delete key ls]> m.(localStrings)
                        | None => m.(localStrings)
                        end))
  else (Ok (), setLocal m (<[id:=<[key:=value]> (localOf m id)]> m.(localStrings))).

Definition GetLocalString (m : MemStore) (id key : string) : result string :=
  if negb (beadExistsLocked m id) then Err (ErrNotFound "getting local string on" id)
  else Ok (localOf m id).[key].

(** ** Delete *)

Definition Delete (id : string) (m : MemStore) : result unit * MemStore :=
  match indexOfLocked m id with
  | None => (Err (ErrNotFound "deleting bead" id), m)
  | Some (i, _) =>
      (Ok (), setLocal (setBeads m (delete i m.(msBeads))) (delete id m.(localStrings)))
  end.

(** ** Dependencies *)

Fixpoint depAdd (issueID dependsOnID depType : string) (ds : list Dep) : list Dep :=
  match ds with
  | [] => [mkDep issueID dependsOnID depType]
  | d :: ds' =>
      if (d.(IssueID) == issueID) && (d.(DependsOnID) == dependsOnID) && (d.(DepType) == depType)
      then ds
      else if (d.(IssueID) == issueID) && (d.(DependsOnID) == dependsOnID) &&
              (d.(DepType) != "parent-child") && (depType != "parent-child")
      then mkDep d.(IssueID) d.(DependsOnID) depType :: ds'
      else d :: depAdd issueID dependsOnID depType ds'
  end.

Definition DepAdd (issueID dependsOnID depType : string) (m : MemStore) : result unit * MemStore :=
  (Ok (), setDeps m (depAdd issueID dependsOnID depType m.(msDeps))).

Fixpoint depRemove (issueID dependsOnID : string) (ds : list Dep) : list Dep :=
  match ds with
  | [] => []
  | d :: ds' =>
      if (d.(IssueID) == issueID) && (d.(DependsOnID) == dependsOnID) then ds'
      else d :: depRemove issueID dependsOnID ds'
  end.

Definition DepRemove (issueID dependsOnID : string) (m : MemStore) : result unit * MemStore :=
  (Ok (), setDeps m (depRemove issueID dependsOnID m.(msDeps))).

Definition DepList (m : MemStore) (id direction : string) : result (list Dep) :=
  Ok (List.filter (λ d, if direction == "up" then d.(DependsOnID) == id else d.(IssueID) == id) m.(msDeps)).

Definition DepListBatch (m : MemStore) (ids : list string) : result (gmap string (list Dep)) :=
  Ok (foldl (λ acc d,
        if bool_decide (d.(IssueID) ∈ ids)
        then <[d.(IssueID) := default [] (acc !! d.(IssueID)) ++ [d]]> acc else acc)
      ∅ m.(msDeps)).

(** ** Queries *)

Definition ListBeads (m : MemStore) (query : ListQuery) : result (list Bead) :=
  if negb (HasFilter query) && negb query.(qAllowScan) then Err ErrQueryRequiresScan
  else Ok (ApplyListQuery m.(msBeads) query).

Definition ListOpen (m : MemStore) (status : list string) : result (list Bead) :=
  let st := match status with [] => "" | s :: _ => s end in
  ListBeads m (mkListQuery st "" "" "" [] "" [] ∅ 0 0 0 false true false false SortDefault false TierIssues None).

Definition Children (m : MemStore) (parentID : string) (opts : list QueryOpt) : result (list Bead) :=
  ListBeads m (mkListQuery "" "" "" "" [] parentID [] ∅ 0 0 0 (HasOpt opts IncludeClosed) false
    false false SortCreatedAsc false (TierModeFromOpts opts) None).

Definition ListByLabel (m : MemStore) (label : string) (limit : Z) (opts : list QueryOpt) : result (list Bead) :=
  ListBeads m (mkListQuery "" "" label "" [] "" [] ∅ 0 0 limit (HasOpt opts IncludeClosed) false
    false false SortCreatedDesc false (TierModeFromOpts opts) None).

Definition ListByAssignee (m : MemStore) (assignee status : string) (limit : Z) : result (list Bead) :=
  ListBeads m (mkListQuery status "" "" assignee [] "" [] ∅ 0 0 limit false false
    false false SortCreatedDesc false TierIssues None).

Definition ListByMetadata (m : MemStore) (filters : gmap string string) (limit : Z) (opts : list QueryOpt)
    : result (list Bead) :=
  ListBeads m (mkListQuery "" "" "" "" [] "" [] filters 0 0 limit (HasOpt opts IncludeClosed) false
    false false SortCreatedDesc false (TierModeFromOpts opts) None).

(** ** Ready *)

(** The map [beadByID] the projection builds (a later bead with the same ID
    wins, as in the source's assignment loop). *)
Definition beadByID (bs : list Bead) : gmap string Bead :=
  foldl (λ acc b, <[b.(bID):=b]> acc) ∅ bs.

(** The inner loop: is some blocking dependency of [b] unsatisfied? *)
Definition readyBlocked (byID : gmap string Bead) (deps : list Dep) (b : Bead) : bool :=
  existsb (λ dep,
    if dep.(IssueID) != b.(bID) then false
    else if negb ((dep.(DepType) == "blocks") || (dep.(DepType) == "waits-for") ||
                  (dep.(DepType) == "conditional-blocks")) then false
    else match byID !! dep.(DependsOnID) with
         | None => true
         | Some blocker => negb (IsReadyBlockingDependencySatisfiedFor b blocker)
         end) deps.

(** The outer loop, from the [n]-th result on; it stops when the limit is
    reached. *)
Fixpoint readyLoop (now : Z) (q : ReadyQuery) (byID : gmap string Bead) (deps : list Dep)
    (n : Z) (bs : list Bead) : list Bead :=
  match bs with
  | [] => []
  | b :: bs' =>
      if negb (IsReadyCandidateForTier b now q.(rTierMode)) then readyLoop now q byID deps n bs'
      else if (q.(rAssignee) != "") && (b.(bAssignee) != q.(rAssignee)) then readyLoop now q byID deps n bs'
      else if readyBlocked byID deps b then readyLoop now q byID deps n bs'
      else b :: (if (0 <? q.(rLimit)) && (q.(rLimit) <=? n + 1) then []
                 else readyLoop now q byID deps (n + 1) bs')
  end.

(** [Ready]: the background context is never canceled. *)
Definition Ready (now : Z) (m : MemStore) (query : list ReadyQuery) : result (list Bead) :=
  let q := readyQueryFromArgs query in
  Ok (readyLoop now q (beadByID m.(msBeads)) m.(msDeps) 0 m.(msBeads)).

(** [UnsatisfiedReadyBlockingDependencies] and its Boolean form, over this
    store's [DepList] and [Get]. *)
Fixpoint unsatisfiedLoop (m : MemStore) (dependent : Bead) (deps : list Dep) : result (list Bead) :=
  match deps with
  | [] => Ok []
  | dep :: deps' =>
      if negb (IsReadyBlockingDependencyType dep.(DepType)) then unsatisfiedLoop m dependent deps'
      else match Get m dep.(DependsOnID) with
           | Err e => Err e
           | Ok blocker =>
               match unsatisfiedLoop m dependent deps' with
               | Err e => Err e
               | Ok blockers =>
                   Ok (if negb (IsReadyBlockingDependencySatisfiedFor dependent blocker)
                       then blocker :: blockers else blockers)
               end
           end
  end.

Definition UnsatisfiedReadyBlockingDependencies (m : MemStore) (dependent : Bead) : result (list Bead) :=
  match DepList m dependent.(bID) "down" with
  | Err e => Err e
  | Ok deps => unsatisfiedLoop m dependent deps
  end.

Definition ReadyBlockingDependenciesSatisfied (m : MemStore) (dependent : Bead) : result bool :=
  match UnsatisfiedReadyBlockingDependencies m dependent with
  | Err e => Err e
  | Ok blockers => Ok (is_empty blockers)
  end.

(** ** Conditional writes *)

Definition UpdateIfMatch (now : Z) (id : string) (expectedRevision : Z) (opts : UpdateOpts) (m : MemStore)
    : result unit * MemStore :=
  if isEmptyUpdateOpts opts then (Err (ErrEmptyConditionalUpdate id), m)
  else if m.(DisableConditionalWrites) then (Err ErrConditionalWriteUnsupported, m)
  else match indexOfLocked m id with
       | None => (Err (ErrNotFound "updating bead" id), m)
       | Some (i, b) =>
           if negb (b.(bRevision) =? expectedRevision)
           then (Err (PreconditionFailedError id expectedRevision b.(bRevision)), m)
           else (Ok (), putAt m i (applyUpdate now opts b))
       end.

Definition CloseIfMatch (now : Z) (id : string) (expectedRevision : Z) (m : MemStore) : result unit * MemStore :=
  if m.(DisableConditionalWrites) then (Err ErrConditionalWriteUnsupported, m)
  else match indexOfLocked m id with
       | None => (Err (ErrNotFound "closing bead" id), m)
       | Some (i, b) =>
           if negb (b.(bRevision) =? expectedRevision)
           then (Err (PreconditionFailedError id expectedRevision b.(bRevision)), m)
           else if b.(bStatus) == "closed" then (Ok (), m)
           else (Ok (), putAt m i (touch now (setStatus b "closed")))
       end.

Definition DeleteIfMatch (id : string) (expectedRevision : Z) (m : MemStore) : result unit * MemStore :=
  if m.(DisableConditionalWrites) then (Err ErrConditionalWriteUnsupported, m)
  else match indexOfLocked m id with
       | None => (Err (ErrNotFound "deleting bead" id), m)
       | Some (i, b) =>
           if negb (b.(bRevision) =? expectedRevision)
           then (Err (PreconditionFailedError id expectedRevision b.(bRevision)), m)
           else (Ok (), setBeads m (delete i m.(msBeads)))
       end.

Definition CompareAndSetMetadataKey (now : Z) (id key expected next : string) (m : MemStore)
    : result bool * MemStore :=
  if m.(DisableConditionalWrites) then (Err ErrConditionalWriteUnsupported, m)
  else match indexOfLocked m id with
       | None => (Err (ErrNotFound "compare-and-set metadata on" id), m)
       | Some (i, b) =>
           if b.(bMetadata).[key] != expected then (Ok false, m)
           else (Ok true, putAt m i (touch now (setMetadataMap b (<[key:=next]> b.(bMetadata)))))
       end.

(** ** The store as a transition system *)

(** A call of a mutating method. *)
Inductive MemOp :=
| OpCreate (b : Bead)
| OpUpdate (id : string) (opts : UpdateOpts)
| OpReleaseIfCurrent (id assignee : string)
| OpClose (id : string)
| OpReopen (id : string)
| OpCloseAll (ids : list string) (metadata : gmap string string)
| OpSetMetadata (id key value : string)
| OpSetMetadataBatch (id : string) (kvs : gmap string string)
| OpSetLocalString (id key value : string)
| OpDelete (id : string)
| OpDepAdd (issueID dependsOnID depType : string)
| OpDepRemove (issueID dependsOnID : string)
| OpUpdateIfMatch (id : string) (rev : Z) (opts : UpdateOpts)
| OpCloseIfMatch (id : string) (rev : Z)
| OpDeleteIfMatch (id : string) (rev : Z)
| OpCompareAndSet (id key expected next : string).

(** The store after a call at time [now]. *)
Definition execOp (now : Z) (op : MemOp) (m : MemStore) : MemStore :=
  match op with
  | OpCreate b => (Create now b m).2
  | OpUpdate id o => (Update now id o m).2
  | OpReleaseIfCurrent id a => (ReleaseIfCurrent now id a m).2
  | OpClose id => (Close now id m).2
  | OpReopen id => (Reopen now id m).2
  | OpCloseAll ids md => (CloseAll now ids md m).2
  | OpSetMetadata id k v => (SetMetadata now id k v m).2
  | OpSetMetadataBatch id kvs => (SetMetadataBatch now id kvs m).2
  | OpSetLocalString id k v => (SetLocalString id k v m).2
  | OpDelete id => (Delete id m).2
  | OpDepAdd i d t => (DepAdd i d t m).2
  | OpDepRemove i d => (DepRemove i d m).2
  | OpUpdateIfMatch id r o => (UpdateIfMatch now id r o m).2
  | OpCloseIfMatch id r => (CloseIfMatch now id r m).2
  | OpDeleteIfMatch id r => (DeleteIfMatch id r m).2
  | OpCompareAndSet id k e n => (CompareAndSetMetadataKey now id k e n m).2
  end.

(** [calls n m m']: [n] calls lead from store [m] to store [m']. *)
Inductive calls : nat → MemStore → MemStore → Prop :=
| calls_nil m : calls 0 m m
| calls_step n now op m m' : calls n m m' → calls (S n) m (execOp now op m').

(** The bead stored under an ID. *)
Definition lookupBead (m : MemStore) (id : string) : option Bead := snd <$> indexOfLocked m id.

(** The contract of the store as a finite map: what each call does to the
    entry of one ID, from that entry alone (and the sequence counter). *)
Definition specOp (now : Z) (op : MemOp) (m : MemStore) (id : string) (ob : option Bead) : option Bead :=
  let on id' (f : Bead → Bead) := if decide (id = id') then f <$> ob else ob in
  let cw (ob' : option Bead) := if m.(DisableConditionalWrites) then ob else ob' in
  match op with
  | OpCreate b =>
      let nb := createdBead now (incr64 m.(msSeq)) b in
      if decide (id = nb.(bID)) then Some nb else ob
  | OpUpdate id' o => on id' (applyUpdate now o)
  | OpReleaseIfCurrent id' a =>
      on id' (λ b, if (b.(bStatus) == "in_progress") && (b.(bAssignee) == a)
                   then bumpFence (touch now (setAssignee (setStatus b "open") "")) else b)
  | OpClose id' => on id' (λ b, if b.(bStatus) == "closed" then b else touch now (setStatus b "closed"))
  | OpReopen id' =>
      on id' (λ b, if b.(bStatus) == "open" then b
                   else let b' := touch now (setStatus b "open") in
                        if b.(bStatus) == "closed" then bumpFence b' else b')
  | OpCloseAll ids md =>
      (λ b, if bool_decide (id ∈ ids) && (b.(bStatus) != "closed")
            then let b' := touch now (setStatus b "closed") in setMetadataMap b' (md ∪ b'.(bMetadata))
            else b) <$> ob
  | OpSetMetadata id' k v => on id' (λ b, touch now (setMetadataMap b (<[k:=v]> b.(bMetadata))))
  | OpSetMetadataBatch id' kvs =>
      if decide (kvs = ∅) then ob else on id' (λ b, touch now (setMetadataMap b (kvs ∪ b.(bMetadata))))
  | OpSetLocalString _ _ _ | OpDepAdd _ _ _ | OpDepRemove _ _ => ob
  | OpDelete id' => if decide (id = id') then None else ob
  | OpUpdateIfMatch id' r o =>
      if isEmptyUpdateOpts o then ob
      else cw (on id' (λ b, if b.(bRevision) =? r then applyUpdate now o b else b))
  | OpCloseIfMatch id' r =>
      cw (on id' (λ b, if negb (b.(bRevision) =? r) then b
                       else if b.(bStatus) == "closed" then b else touch now (setStatus b "closed")))
  | OpDeleteIfMatch id' r =>
      cw (if decide (id = id')
          then match ob with Some b => if b.(bRevision) =? r then None else ob | None => None end
          else ob)
  | OpCompareAndSet id' k e n =>
      cw (on id' (λ b, if b.(bMetadata).[k] == e
                       then touch now (setMetadataMap b (<[k:=n]> b.(bMetadata))) else b))
  end.
