(* ===== verification/MemStoreProps.v ===== *)
(** * MemStore: invariants, the finite-map contract and the write contracts

    The well-formedness invariant (unique IDs issued from the counter), the
    refinement of the slice store to a finite map, and the revision and
    claim-fence contracts of conditional writes. *)

From S2P Require Import Prelude GoBase Beads MemStore.

Local Open Scope Z_scope.

(** ** Identifiers *)

Definition gcID (k : Z) : string := "gc-" +:+ Itoa k.

Lemma gcID_inj k1 k2 : in_int64 k1 → in_int64 k2 → gcID k1 = gcID k2 → k1 = k2.
Proof. intros H1 H2 He. apply (inj (String.app "gc-")) in He. by apply Itoa_inj. Qed.

(** The invariant: IDs are unique and were issued by the counter. *)
Record wf (m : MemStore) : Prop := {
  wf_seq : 0 ≤ msSeq m ≤ maxInt64;
  wf_nodup : NoDup (bID <$> msBeads m);
  wf_issued : Forall (λ b, ∃ k, 1 ≤ k ≤ msSeq m ∧ bID b = gcID k) (msBeads m)
}.

(** ** Lookup in a list of distinct beads *)

Lemma lookupBead_Some m id b :
  NoDup (bID <$> msBeads m) →
  lookupBead m id = Some b ↔ b ∈ msBeads m ∧ bID b = id.
Proof.
  intros Hnd. unfold lookupBead. split.
  - intros ([i b'] & H & ->)%fmap_Some. apply list_find_Some in H as (Hi & Hb & _).
    split; [|done]. by eapply list_elem_of_lookup_2.
  - intros [Hin Hid]. destruct (indexOfLocked m id) as [[i b']|] eqn:E.
    + apply list_find_Some in E as (Hi & Hb & _). cbn. f_equal.
      eapply NoDup_bID_inj; [done|by eapply list_elem_of_lookup_2|done|congruence].
    + apply list_find_None in E. rewrite Forall_forall in E. by destruct (E b).
Qed.

Lemma lookupBead_None m id : lookupBead m id = None ↔ id ∉ bID <$> msBeads m.
Proof.
  unfold lookupBead, indexOfLocked. rewrite fmap_None, list_find_None, Forall_forall.
  rewrite list_elem_of_fmap. naive_solver.
Qed.

Lemma Get_lookup m id :
  Get m id = match lookupBead m id with Some b => Ok b | None => Err (ErrNotFound "getting bead" id) end.
Proof. unfold Get, lookupBead. by destruct (indexOfLocked m id) as [[]|]. Qed.

Lemma indexOf_lookup m id i b : indexOfLocked m id = Some (i, b) → msBeads m !! i = Some b ∧ bID b = id.
Proof. intros H. apply list_find_Some in H as (? & ? & _). done. Qed.

(** Replacing the bead at an index by one with the same ID. *)
Lemma lookupBead_putAt m id0 i b b' id :
  NoDup (bID <$> msBeads m) → indexOfLocked m id0 = Some (i, b) → bID b' = bID b →
  lookupBead (putAt m i b') id = if decide (id = id0) then Some b' else lookupBead m id.
Proof.
  intros Hnd Hidx Hid. apply indexOf_lookup in Hidx as [Hi Hb].
  assert (bID <$> msBeads (putAt m i b') = bID <$> msBeads m) as Hids.
  { cbn. rewrite list_fmap_insert. apply list_insert_id. by rewrite list_lookup_fmap, Hi, Hid. }
  destruct (decide (id = id0)) as [->|Hne].
  - apply lookupBead_Some; [by rewrite Hids|]. split; [|congruence].
    eapply list_elem_of_lookup_2. cbn. apply list_lookup_insert_eq. by eapply lookup_lt_Some.
  - apply option_eq. intros x. rewrite !lookupBead_Some by (by rewrite ?Hids).
    cbn. rewrite !list_elem_of_lookup. split; intros [[j Hj] Hx]; (split; [|done]); exists j.
    + rewrite list_lookup_insert in Hj. case_decide; [|done]. naive_solver congruence.
    + rewrite list_lookup_insert_ne; [done|]. intros ->. naive_solver congruence.
Qed.

Lemma putAt_ids m id i b b' :
  indexOfLocked m id = Some (i, b) → bID b' = bID b →
  bID <$> msBeads (putAt m i b') = bID <$> msBeads m.
Proof.
  intros [Hi Hb]%indexOf_lookup Hid. cbn. rewrite list_fmap_insert. apply list_insert_id.
  by rewrite list_lookup_fmap, Hi, Hid.
Qed.

Lemma lookupBead_delete m id0 i b ls id :
  NoDup (bID <$> msBeads m) → indexOfLocked m id0 = Some (i, b) →
  lookupBead (setLocal (setBeads m (delete i (msBeads m))) ls) id =
  if decide (id = id0) then None else lookupBead m id.
Proof.
  intros Hnd [Hi Hb]%indexOf_lookup.
  assert (bID <$> msBeads m = take i (bID <$> msBeads m) ++ id0 :: drop (S i) (bID <$> msBeads m)) as Hsp.
  { symmetry. apply take_drop_middle. rewrite list_lookup_fmap, Hi. cbn. congruence. }
  assert (NoDup (bID <$> delete i (msBeads m)) ∧ id0 ∉ bID <$> delete i (msBeads m)) as [Hnd' Hout].
  { rewrite delete_take_drop, fmap_app, fmap_take, fmap_drop.
    rewrite Hsp in Hnd. apply NoDup_app in Hnd as (H1 & H2 & [H3 H4]%NoDup_cons).
    split; [apply NoDup_app; set_solver|]. set_solver. }
  destruct (decide (id = id0)) as [->|Hne]; [by apply lookupBead_None|].
  apply option_eq. intros x. rewrite !lookupBead_Some by done. cbn.
  rewrite delete_take_drop, elem_of_app.
  rewrite <-(take_drop_middle (msBeads m) i b Hi) at 3.
  rewrite elem_of_app, elem_of_cons. naive_solver congruence.
Qed.

(** ** What an update leaves alone *)

Lemma applyUpdate_fields now o b :
  bID (applyUpdate now o b) = bID b ∧
  bCreatedAt (applyUpdate now o b) = bCreatedAt b ∧
  bRevision (applyUpdate now o b) = incr64 (bRevision b) ∧
  bStatus (applyUpdate now o b) = default (bStatus b) (oStatus o) ∧
  bAssignee (applyUpdate now o b) = default (bAssignee b) (oAssignee o) ∧
  bClaimFence (applyUpdate now o b) =
    (if isOwnershipTransition (bStatus b) (bAssignee b) o then incr64 (bClaimFence b) else bClaimFence b).
Proof.
  destruct o as [ot os oty op od opa oa ol orl om]. unfold applyUpdate.
  cbn [oTitle oStatus oType oPriority oDescription oParentID oAssignee oLabels oRemoveLabels oMetadata].
  destruct (isOwnershipTransition _ _ _); destruct ot, os, oty, op, od, opa, oa; cbn; auto 10.
Qed.

Lemma applyUpdate_id now o b : bID (applyUpdate now o b) = bID b.
Proof. apply applyUpdate_fields. Qed.

#[export] Hint Resolve applyUpdate_id : gc.

Lemma closeAllOne_id now ids md b : bID (closeAllOne now ids md b).2 = bID b.
Proof. unfold closeAllOne. by destruct (_ || _). Qed.

Lemma fmap_closeAll_ids now ids md bs :
  bID <$> map snd (map (closeAllOne now ids md) bs) = bID <$> bs.
Proof.
  induction bs as [|b bs IH]; cbn; [done|]. f_equal; [apply closeAllOne_id|exact IH].
Qed.

Lemma lookupBead_setLocal m ls id : lookupBead (setLocal m ls) id = lookupBead m id.
Proof. done. Qed.

Lemma lookupBead_setDeps m ds id : lookupBead (setDeps m ds) id = lookupBead m id.
Proof. done. Qed.

Lemma lookupBead_closeAll now ids md m id :
  lookupBead (CloseAll now ids md m).2 id =
  (λ b, (closeAllOne now ids md b).2) <$> lookupBead m id.
Proof.
  unfold lookupBead, indexOfLocked, CloseAll. cbn [setBeads msBeads snd].
  induction (msBeads m) as [|b bs IH]; [done|]. cbn.
  rewrite closeAllOne_id. destruct (decide (bID b = id)); [done|].
  revert IH. destruct (list_find _ bs) as [[]|], (list_find _ (map snd _)) as [[]|]; cbn; naive_solver.
Qed.

Lemma lookupBead_create now b m id :
  wf m → msSeq m < maxInt64 →
  lookupBead (Create now b m).2 id =
  (let nb := createdBead now (incr64 (msSeq m)) b in
   if decide (id = bID nb) then Some nb else lookupBead m id).
Proof.
  intros [Hseq Hnd Hiss] Hlt. cbv zeta. unfold Create. cbn [snd msBeads].
  set (nb := createdBead now (incr64 (msSeq m)) b).
  assert (bID nb = gcID (msSeq m + 1)) as Hid.
  { subst nb. unfold createdBead. rewrite incr64_succ by (unfold in_int64, minInt64 in *; lia).
    by destruct (bType _ == ""). }
  assert (bID nb ∉ bID <$> msBeads m) as Hfresh.
  { rewrite Hid. intros (x & Hx & Hin)%list_elem_of_fmap.
    rewrite Forall_forall in Hiss. destruct (Hiss x Hin) as (k & Hk & He).
    rewrite He in Hx. apply gcID_inj in Hx; unfold in_int64, minInt64 in *; lia. }
  assert (NoDup (bID <$> msBeads m ++ [nb])) as Hnd'.
  { rewrite fmap_app. apply NoDup_app. split; [done|]. split; [set_solver|]. apply NoDup_singleton. }
  apply option_eq. intros x. rewrite lookupBead_Some by done. cbn [msBeads].
  rewrite elem_of_app, list_elem_of_singleton.
  destruct (decide (id = bID nb)) as [->|Hne].
  - split; [|by intros [= <-]; auto]. intros [[Hin| ->] Hx]; [|done].
    exfalso. apply Hfresh. rewrite <-Hx. by apply list_elem_of_fmap_2.
  - rewrite lookupBead_Some by done. naive_solver.
Qed.

(** ** Every call is a modification of one bead, a create, a delete or a batch close *)

Definition modify (m : MemStore) (id : string) (f : Bead → Bead) : MemStore :=
  match indexOfLocked m id with
  | Some (i, b) => putAt m i (f b)
  | None => m
  end.

Lemma putAt_same m id i b : indexOfLocked m id = Some (i, b) → putAt m i b = m.
Proof.
  intros [Hi _]%indexOf_lookup. unfold putAt. rewrite list_insert_id by done. by destruct m.
Qed.

Lemma lookup_modify m id0 f id :
  NoDup (bID <$> msBeads m) → (∀ b, bID (f b) = bID b) →
  lookupBead (modify m id0 f) id =
  if decide (id = id0) then f <$> lookupBead m id else lookupBead m id.
Proof.
  intros Hnd Hf. unfold modify. destruct (indexOfLocked m id0) as [[i b]|] eqn:E.
  - rewrite (lookupBead_putAt m id0 i b) by done. case_decide; subst; [|done].
    unfold lookupBead. by rewrite E.
  - case_decide; subst; [|done]. unfold lookupBead. by rewrite E.
Qed.

Lemma modify_ids m id f :
  (∀ b, bID (f b) = bID b) → bID <$> msBeads (modify m id f) = bID <$> msBeads m.
Proof.
  intros Hf. unfold modify. destruct (indexOfLocked m id) as [[i b]|] eqn:E; [|done].
  by eapply putAt_ids.
Qed.

(** The bead-level effect of the calls that touch one bead. *)
Definition opEffect (now : Z) (op : MemOp) (m : MemStore) : option (string * (Bead → Bead)) :=
  let cw p := if m.(DisableConditionalWrites) then None else p in
  match op with
  | OpUpdate id o => Some (id, applyUpdate now o)
  | OpReleaseIfCurrent id a =>
      Some (id, λ b, if (b.(bStatus) == "in_progress") && (b.(bAssignee) == a)
                     then bumpFence (touch now (setAssignee (setStatus b "open") "")) else b)
  | OpClose id => Some (id, λ b, if b.(bStatus) == "closed" then b else touch now (setStatus b "closed"))
  | OpReopen id =>
      Some (id, λ b, if b.(bStatus) == "open" then b
                     else let b' := touch now (setStatus b "open") in
                          if b.(bStatus) == "closed" then bumpFence b' else b')
  | OpSetMetadata id k v => Some (id, λ b, touch now (setMetadataMap b (<[k:=v]> b.(bMetadata))))
  | OpSetMetadataBatch id kvs =>
      if decide (kvs = ∅) then None
      else Some (id, λ b, touch now (setMetadataMap b (kvs ∪ b.(bMetadata))))
  | OpUpdateIfMatch id r o =>
      if isEmptyUpdateOpts o then None
      else cw (Some (id, λ b, if b.(bRevision) =? r then applyUpdate now o b else b))
  | OpCloseIfMatch id r =>
      cw (Some (id, λ b, if negb (b.(bRevision) =? r) then b
                         else if b.(bStatus) == "closed" then b else touch now (setStatus b "closed")))
  | OpCompareAndSet id k e n =>
      cw (Some (id, λ b, if b.(bMetadata).[k] == e
                         then touch now (setMetadataMap b (<[k:=n]> b.(bMetadata))) else b))
  | _ => None
  end.

(** Close a goal about an operation on one bead: case analysis on the scan and
    on the tests, then the no-op write. *)
Ltac effect_cases :=
  unfold modify;
  match goal with |- context [indexOfLocked ?m ?id] => destruct (indexOfLocked m id) as [[? ?]|] eqn:? end;
  [|done];
  repeat match goal with |- context [bool_decide ?P] => destruct (bool_decide P) eqn:?; cbn end;
  repeat match goal with |- context [if ?c then _ else _] =>
    lazymatch c with context [if _ then _ else _] => fail | _ => destruct c eqn:? end end;
  cbn; try done; try (by erewrite putAt_same); bsplit; congruence.

Lemma execOp_effect now op m id f :
  opEffect now op m = Some (id, f) → execOp now op m = modify m id f.
Proof.
  destruct op; cbn [opEffect execOp]; intros Heq; repeat case_decide;
    try (destruct (isEmptyUpdateOpts _) eqn:?); try (destruct (DisableConditionalWrites m) eqn:?);
    simplify_eq; unfold Update, ReleaseIfCurrent, Close, Reopen, SetMetadata, SetMetadataBatch,
      UpdateIfMatch, CloseIfMatch, CompareAndSetMetadataKey; rewrite ?decide_False by done;
    repeat match goal with H : _ = false |- _ => rewrite H end; effect_cases.
Qed.

Lemma opEffect_id now op m id f : opEffect now op m = Some (id, f) → ∀ b, bID (f b) = bID b.
Proof.
  destruct op; cbn [opEffect]; intros Heq b0; repeat case_decide;
    try (destruct (isEmptyUpdateOpts _)); try (destruct (DisableConditionalWrites m));
    simplify_eq; repeat case_match; cbn; auto with gc.
Qed.

Lemma lookupBead_deleteOp id0 m id :
  NoDup (bID <$> msBeads m) →
  lookupBead (Delete id0 m).2 id = if decide (id = id0) then None else lookupBead m id.
Proof.
  intros Hnd. unfold Delete. destruct (indexOfLocked m id0) as [[i b]|] eqn:E.
  - by eapply lookupBead_delete.
  - cbn. case_decide; subst; [|done]. unfold lookupBead. by rewrite E.
Qed.

Lemma lookupBead_deleteIfMatch id0 r m id :
  NoDup (bID <$> msBeads m) →
  lookupBead (DeleteIfMatch id0 r m).2 id =
  specOp 0 (OpDeleteIfMatch id0 r) m id (lookupBead m id).
Proof.
  intros Hnd. unfold DeleteIfMatch. cbn. destruct (DisableConditionalWrites m); [done|].
  destruct (indexOfLocked m id0) as [[i b]|] eqn:E.
  - destruct (Z.eqb_spec (bRevision b) r) as [Hr|Hr]; cbn [negb snd].
    + pose proof (lookupBead_delete m id0 i b (localStrings m) id Hnd E) as HD.
      rewrite lookupBead_setLocal in HD. rewrite HD.
      case_decide; subst; [|done]. unfold lookupBead. rewrite E. cbn. by rewrite Z.eqb_refl.
    + case_decide; subst; [|done]. unfold lookupBead. rewrite E. cbn.
      by rewrite (proj2 (Z.eqb_neq _ _) Hr).
  - cbn. case_decide; subst; [|done]. unfold lookupBead. by rewrite E.
Qed.

Lemma memstore_refines_map_lemma now op m id :
  wf m → msSeq m < maxInt64 →
  lookupBead (execOp now op m) id = specOp now op m id (lookupBead m id).
Proof.
  intros Hwf Hseq. pose proof (wf_nodup m Hwf) as Hnd.
  destruct (opEffect now op m) as [[id' f]|] eqn:He.
  - rewrite (execOp_effect _ _ _ _ _ He), lookup_modify by eauto using opEffect_id.
    destruct op; cbn [opEffect specOp] in *; repeat case_decide; try done;
      try (destruct (isEmptyUpdateOpts _)); try (destruct (DisableConditionalWrites m));
      simplify_eq; done.
  - destruct op; cbn [opEffect execOp specOp] in *; try done.
    + by apply lookupBead_create.
    + rewrite lookupBead_closeAll. destruct (lookupBead m id) as [b|] eqn:E; [|done].
      apply lookupBead_Some in E as [_ <-]; [|done]. cbn. f_equal. unfold closeAllOne.
      by destruct (bool_decide (bID b ∈ ids)), (bStatus b == "closed").
    + unfold SetMetadataBatch. by case_decide.
    + unfold SetLocalString. by repeat case_match.
    + by apply lookupBead_deleteOp.
    + unfold UpdateIfMatch. repeat case_match; done.
    + unfold CloseIfMatch. repeat case_match; done.
    + by apply lookupBead_deleteIfMatch.
    + unfold CompareAndSetMetadataKey. repeat case_match; done.
Qed.

(** C2 The slice store refines a finite map: for every call, the entry of every
    ID after the call is the one the map contract [specOp] computes from the
    entry before it (with the counter below its 64-bit limit). *)
Theorem memstore_refines_map now op m id :
  wf m → msSeq m < maxInt64 →
  lookupBead (execOp now op m) id = specOp now op m id (lookupBead m id).
Proof. apply memstore_refines_map_lemma. Qed.

Lemma wf_NewMemStore : wf NewMemStore.
Proof. split; cbn; [done|apply NoDup_nil_2|constructor]. Qed.

Lemma memstore_refines_map_witness :
  let m := execOp 7 (OpCreate zeroBead) NewMemStore in
  bStatus <$> lookupBead (execOp 9 (OpClose "gc-1") m) "gc-1" = Some "closed" ∧
  lookupBead (execOp 7 (OpCreate zeroBead) NewMemStore) "gc-1" =
  specOp 7 (OpCreate zeroBead) NewMemStore "gc-1" None.
Proof.
  split; [reflexivity|].
  apply (memstore_refines_map 7 (OpCreate zeroBead) NewMemStore "gc-1").
  - apply wf_NewMemStore.
  - reflexivity.
Defined.

(** The invariant depends only on the counter and the list of IDs. *)
Lemma wf_same_ids m m' :
  msSeq m' = msSeq m → bID <$> msBeads m' = bID <$> msBeads m → wf m → wf m'.
Proof.
  intros Hs Hi [H1 H2 H3]. split; [by rewrite Hs|by rewrite Hi|].
  rewrite Forall_forall in *. intros b Hb. rewrite Hs.
  assert (bID b ∈ bID <$> msBeads m) as (b' & He & Hb')%list_elem_of_fmap
    by (rewrite <-Hi; by apply list_elem_of_fmap_2).
  rewrite He. by apply H3.
Qed.

Lemma wf_delete m i ls : wf m → wf (setLocal (setBeads m (delete i (msBeads m))) ls).
Proof.
  intros [H1 H2 H3]. split; cbn; [done|..].
  - rewrite delete_take_drop, fmap_app, fmap_take, fmap_drop, <-delete_take_drop.
    eapply sublist_NoDup; [exact H2|]. apply sublist_delete.
  - by apply Forall_delete.
Qed.

Lemma Create_id now b m :
  0 ≤ msSeq m < maxInt64 → bID (createdBead now (incr64 (msSeq m)) b) = gcID (msSeq m + 1).
Proof.
  intros H. unfold createdBead. rewrite incr64_succ by (unfold in_int64, minInt64; lia).
  by destruct (bType _ == "").
Qed.

Lemma wf_create now b m : wf m → msSeq m < maxInt64 → wf (Create now b m).2.
Proof.
  intros [H1 H2 H3] Hlt. pose proof (Create_id now b m ltac:(lia)) as Hid.
  unfold Create. cbn. set (nb := createdBead _ _ _) in *.
  rewrite incr64_succ by (unfold in_int64, minInt64; lia).
  rewrite Forall_forall in H3. split; cbn; [lia|..].
  - rewrite fmap_app. apply NoDup_app. split; [done|]. split; [|apply NoDup_singleton].
    intros x (b' & -> & Hb')%list_elem_of_fmap Hx. apply list_elem_of_singleton in Hx.
    destruct (H3 b' Hb') as (k & Hk & He). rewrite Hx, Hid in He.
    apply gcID_inj in He; unfold in_int64, minInt64 in *; lia.
  - apply Forall_app. split; [|apply Forall_singleton; exists (msSeq m + 1); split; [lia|done]].
    apply Forall_forall. intros x Hx. destruct (H3 x Hx) as (k & Hk & He). exists k. split; [lia|done].
Qed.

Lemma modify_seq m id f : msSeq (modify m id f) = msSeq m.
Proof. unfold modify. by destruct (indexOfLocked m id) as [[]|]. Qed.

(** Preservation of the invariant by every call. *)
Lemma wf_execOp now op m : wf m → msSeq m < maxInt64 → wf (execOp now op m).
Proof.
  intros Hwf Hseq. destruct (opEffect now op m) as [[id' f]|] eqn:He.
  - rewrite (execOp_effect _ _ _ _ _ He). eapply wf_same_ids; [..|done].
    + apply modify_seq.
    + apply modify_ids. by eapply opEffect_id.
  - destruct op; cbn [opEffect execOp] in *; try done.
    + by apply wf_create.
    + eapply wf_same_ids; [..|done]; [done|]. apply fmap_closeAll_ids.
    + unfold SetMetadataBatch. by case_decide.
    + unfold SetLocalString. repeat case_match; cbn; try done; by apply (wf_same_ids m).
    + unfold Delete. destruct (indexOfLocked m id) as [[i b]|]; [|done]. by apply wf_delete.
    + by apply (wf_same_ids m).
    + by apply (wf_same_ids m).
    + unfold UpdateIfMatch. by repeat case_match.
    + unfold CloseIfMatch. by repeat case_match.
    + unfold DeleteIfMatch. repeat case_match; cbn; try done.
      by apply (wf_delete m _ (localStrings m)).
    + unfold CompareAndSetMetadataKey. by repeat case_match.
Qed.

Lemma execOp_seq now op m :
  0 ≤ msSeq m < maxInt64 → msSeq m ≤ msSeq (execOp now op m) ≤ msSeq m + 1.
Proof.
  intros H. destruct (opEffect now op m) as [[id' f]|] eqn:He.
  - rewrite (execOp_effect _ _ _ _ _ He), modify_seq. lia.
  - destruct op; cbn [opEffect execOp] in *; try done;
      unfold SetMetadataBatch, SetLocalString, Delete, UpdateIfMatch, CloseIfMatch,
        DeleteIfMatch, CompareAndSetMetadataKey; repeat case_match; cbn; try lia.
    rewrite incr64_succ by (unfold in_int64, minInt64; lia). lia.
Qed.

(** Along [n] calls the counter advances by at most [n]. *)
Lemma calls_wf n m m' :
  calls n m m' → wf m → msSeq m + Z.of_nat n ≤ maxInt64 →
  wf m' ∧ msSeq m ≤ msSeq m' ≤ msSeq m + Z.of_nat n.
Proof.
  induction 1 as [m|n now op m m' _ IH]; intros Hwf Hb; [split; [done|lia]|].
  destruct IH as [Hwf' Hs]; [done|lia|]. pose proof (wf_seq m' Hwf').
  split; [apply wf_execOp; [done|lia]|]. pose proof (execOp_seq now op m' ltac:(lia)). lia.
Qed.

(** Every store reached from the empty one by fewer than 2^63 calls has
    pairwise distinct bead IDs, each of the form [gc-k] with [k] between 1 and
    the sequence counter. *)
Theorem reachable_wf n m :
  calls n NewMemStore m → Z.of_nat n ≤ maxInt64 → wf m.
Proof.
  intros Hc Hn. by destruct (calls_wf n NewMemStore m Hc wf_NewMemStore ltac:(cbn; lia)).
Qed.

Lemma reachable_wf_witness :
  wf (execOp 3 (OpDelete "gc-1") (execOp 2 (OpCreate zeroBead) (execOp 1 (OpCreate zeroBead) NewMemStore))).
Proof.
  apply (reachable_wf 3).
  - repeat constructor.
  - unfold maxInt64. lia.
Defined.

(** ** The revision and claim-fence contracts *)

(** One call either leaves a bead as it was or replaces it by a bead with the
    same ID and creation time and the next revision. *)
Definition evolves (b b' : Bead) : Prop :=
  b' = b ∨ bID b' = bID b ∧ bCreatedAt b' = bCreatedAt b ∧ bRevision b' = incr64 (bRevision b).

Lemma specOp_evolves now op m id b b' :
  specOp now op m id (Some b) = Some b' → bID b = id → (∀ nb, op = OpCreate nb →
    bID (createdBead now (incr64 (msSeq m)) nb) ≠ id) → evolves b b'.
Proof.
  intros H Hid Hnew. unfold evolves. pose proof (applyUpdate_fields now) as HU.
  destruct op; cbn [specOp] in H; repeat case_decide; cbn in H; simplify_eq; auto;
    try (by destruct (Hnew _ eq_refl));
    repeat (case_match; simplify_eq; auto); right; try (cbn; done).
  all: cbn; destruct (HU opts b) as (? & ? & ? & _); auto.
Qed.

Lemma step_evolves now op m id b b' :
  wf m → msSeq m < maxInt64 →
  lookupBead m id = Some b → lookupBead (execOp now op m) id = Some b' → evolves b b'.
Proof.
  intros Hwf Hs Hb Hb'. rewrite memstore_refines_map_lemma, Hb in Hb' by done.
  pose proof Hb as Hb2. apply lookupBead_Some in Hb2 as [Hin Hid]; [|apply Hwf].
  eapply specOp_evolves; [done..|]. intros nb _. rewrite Create_id by (pose proof (wf_seq m Hwf); lia).
  destruct Hwf as [Hseq _ Hiss]. rewrite Forall_forall in Hiss.
  destruct (Hiss b Hin) as (k & Hk & He). rewrite <-Hid, He. intros Hx.
  apply gcID_inj in Hx; unfold in_int64, minInt64 in *; lia.
Qed.

(** An ID below the counter that is absent stays absent: IDs are not reused. *)
Lemma absent_step now op m id k :
  wf m → msSeq m < maxInt64 → id = gcID k → 1 ≤ k ≤ msSeq m →
  lookupBead m id = None → lookupBead (execOp now op m) id = None.
Proof.
  intros Hwf Hs -> Hk Hn. rewrite memstore_refines_map_lemma, Hn by done.
  destruct op; cbn [specOp]; try by repeat case_match.
  rewrite Create_id by lia. case_decide as He; [|done].
  apply gcID_inj in He; unfold in_int64, minInt64 in *; lia.
Qed.

Lemma issued_present m id b :
  wf m → lookupBead m id = Some b → ∃ k, id = gcID k ∧ 1 ≤ k ≤ msSeq m.
Proof.
  intros Hwf Hb. apply lookupBead_Some in Hb as [Hin <-]; [|apply Hwf].
  destruct (proj1 (Forall_forall _ _) (wf_issued m Hwf) b Hin) as (k & ? & ?). eauto.
Qed.

Lemma absent_calls n m m' id k :
  calls n m m' → wf m → msSeq m + Z.of_nat n ≤ maxInt64 → id = gcID k → 1 ≤ k ≤ msSeq m →
  lookupBead m id = None → lookupBead m' id = None.
Proof.
  induction 1 as [m|n now op m m' Hc IH]; intros Hwf Hb Hid Hk Hn; [done|].
  destruct (calls_wf n m m' Hc Hwf ltac:(lia)) as [Hwf' Hs].
  eapply absent_step; [done|lia|done|lia|]. apply IH; [done|lia|done|lia|done].
Qed.

(** Along any run a bead keeps its revision only by staying the same bead. *)
Lemma calls_revision n m m' id b b' :
  calls n m m' → wf m → msSeq m + Z.of_nat n ≤ maxInt64 →
  lookupBead m id = Some b → lookupBead m' id = Some b' →
  minInt64 ≤ bRevision b → bRevision b + Z.of_nat n ≤ maxInt64 →
  b' = b ∨ bRevision b < bRevision b' ≤ bRevision b + Z.of_nat n.
Proof.
  intros Hc. revert b'. induction Hc as [m|n now op m m' Hc IH];
    intros b' Hwf Hseq Hb Hb' Hmin Hmax; [left; congruence|].
  destruct (calls_wf n m m' Hc Hwf ltac:(lia)) as [Hwf' Hs].
  destruct (issued_present m id b Hwf Hb) as (k & Hid & Hk).
  destruct (lookupBead m' id) as [b1|] eqn:E.
  2:{ rewrite (absent_step now op m' id k) in Hb'; try done; lia. }
  assert (b1 = b ∨ bRevision b < bRevision b1 ≤ bRevision b + Z.of_nat n) as HIH
    by (apply IH; try done; lia).
  assert (evolves b1 b') as [->|(_ & _ & Hr)] by (eapply step_evolves; eauto; lia).
  - destruct HIH as [->|?]; [by left|right; lia].
  - right. rewrite incr64_succ in Hr by (unfold in_int64; destruct HIH as [->|?]; lia).
    destruct HIH as [->|?]; lia.
Qed.

(** The revision contract of conditional writes, per call: a bead that is
    there before and after a call is either untouched or carries the next
    revision, so no mutation goes unnoticed by an equality test on it. *)
Theorem revision_contract now op m id b b' :
  wf m → msSeq m < maxInt64 → in_int64 (bRevision b) →
  lookupBead m id = Some b → lookupBead (execOp now op m) id = Some b' →
  (bRevision b' = bRevision b ↔ b' = b).
Proof.
  intros Hwf Hs Hr Hb Hb'. destruct (step_evolves now op m id b b' Hwf Hs Hb Hb') as [->|(_ & _ & He)].
  - done.
  - rewrite He. split; [intros H; by destruct (incr64_ne _ Hr)|intros ->].
    by destruct (incr64_ne (bRevision b) Hr).
Qed.

Lemma revision_contract_witness :
  let m := execOp 7 (OpCreate zeroBead) NewMemStore in
  let b := createdBead 7 1 zeroBead in
  let b' := touch 9 (setMetadataMap b {["k" := "v"]}) in
  (bRevision b' = bRevision b ↔ b' = b).
Proof.
  intros m b b'.
  apply (revision_contract 9 (OpSetMetadata "gc-1" "k" "v") m "gc-1" b b').
  - apply (wf_create 7 zeroBead NewMemStore wf_NewMemStore). reflexivity.
  - vm_compute; reflexivity.
  - apply (bool_decide_unpack _). vm_compute. exact I.
  - vm_compute; reflexivity.
  - vm_compute; reflexivity.
Defined.

(** No lost update: once a bead has changed, however many calls ago and
    whatever they were, a conditional update that carries the revision of the
    old snapshot is refused with the two revisions and changes nothing. *)
Theorem stale_update_refused n m m' now id b b' opts :
  calls n m m' → wf m → msSeq m + Z.of_nat n ≤ maxInt64 →
  minInt64 ≤ bRevision b → bRevision b + Z.of_nat n ≤ maxInt64 →
  lookupBead m id = Some b → lookupBead m' id = Some b' → b' ≠ b →
  isEmptyUpdateOpts opts = false → DisableConditionalWrites m' = false →
  UpdateIfMatch now id (bRevision b) opts m' =
  (Err (PreconditionFailedError id (bRevision b) (bRevision b')), m').
Proof.
  intros Hc Hwf Hseq Hmin Hmax Hb Hb' Hne Hopts Hcw.
  destruct (calls_revision n m m' id b b') as [?|Hr]; try done.
  unfold UpdateIfMatch. rewrite Hopts, Hcw. unfold lookupBead in Hb'.
  destruct (indexOfLocked m' id) as [[i x]|]; [|done]. cbn in Hb'. simplify_eq.
  destruct (Z.eqb_spec (bRevision b') (bRevision b)); [lia|done].
Qed.

Definition titleOpts (t : string) : UpdateOpts :=
  mkUpdateOpts (Some t) None None None None None None [] [] ∅.

Lemma stale_update_refused_witness :
  let m := execOp 7 (OpCreate zeroBead) NewMemStore in
  let m' := execOp 9 (OpClose "gc-1") (execOp 8 (OpUpdate "gc-1" (titleOpts "x")) m) in
  UpdateIfMatch 10 "gc-1" 1 (titleOpts "mine") m' = (Err (PreconditionFailedError "gc-1" 1 3), m').
Proof.
  intros m m'.
  apply (stale_update_refused 2 m m' 10 "gc-1" (createdBead 7 1 zeroBead)
           (touch 9 (setStatus (applyUpdate 8 (titleOpts "x") (createdBead 7 1 zeroBead)) "closed"))).
  - repeat constructor.
  - apply (wf_create 7 zeroBead NewMemStore wf_NewMemStore). reflexivity.
  - vm_compute. discriminate.
  - vm_compute. discriminate.
  - vm_compute. discriminate.
  - vm_compute; reflexivity.
  - vm_compute; reflexivity.
  - discriminate.
  - vm_compute; reflexivity.
  - vm_compute; reflexivity.
Defined.

(** Ownership transitions between two versions of a bead. *)
Definition ownerChanged (b b' : Bead) : Prop := bAssignee b' ≠ bAssignee b.
Definition reopened (b b' : Bead) : Prop :=
  bStatus b = "closed" ∧ bStatus b' ≠ "closed" ∧ bStatus b' ≠ "".
Definition released (b b' : Bead) : Prop :=
  bStatus b = "in_progress" ∧ bStatus b' = "open" ∧ bAssignee b' = "".

Definition fenceOK (b b' : Bead) : Prop :=
  (ownerChanged b b' ∨ reopened b b' → bClaimFence b' = incr64 (bClaimFence b)) ∧
  (bClaimFence b' = bClaimFence b ∨
   bClaimFence b' = incr64 (bClaimFence b) ∧ (ownerChanged b b' ∨ reopened b b' ∨ released b b')).

Lemma fenceOK_refl b : fenceOK b b.
Proof. unfold fenceOK, ownerChanged, reopened. naive_solver. Qed.

Lemma fenceOK_applyUpdate now o b : fenceOK b (applyUpdate now o b).
Proof.
  destruct (applyUpdate_fields now o b) as (_ & _ & _ & Hs & Ha & Hf).
  unfold fenceOK, ownerChanged, reopened. rewrite Hs, Ha, Hf. unfold isOwnershipTransition.
  destruct (oAssignee o) as [a|] eqn:Ea, (oStatus o) as [st|] eqn:Es; cbn;
    repeat case_bool_decide; subst; cbn; split; try tauto; intros [?|(?&?&?)]; by try congruence.
Qed.

(** A write that changes neither owner nor fence and does not leave [closed]. *)
Lemma fenceOK_content b b' :
  bAssignee b' = bAssignee b → bClaimFence b' = bClaimFence b →
  (bStatus b' = bStatus b ∨ bStatus b' = "closed" ∨ bStatus b ≠ "closed") → fenceOK b b'.
Proof.
  intros Ha Hf Hs. split; [|by left]. intros [H|(H1 & H2 & H3)]; [done|].
  destruct Hs as [?|[?|?]]; congruence.
Qed.

Lemma specOp_fence now op m id b b' :
  (∀ nb, op ≠ OpCreate nb) → specOp now op m id (Some b) = Some b' → fenceOK b b'.
Proof.
  intros Hnc H. pose proof fenceOK_refl as Hr. pose proof fenceOK_applyUpdate as Hu.
  destruct op; cbn [specOp] in H; try (by destruct (Hnc b0));
    repeat case_decide; cbn in H; simplify_eq; auto;
    repeat (case_match; simplify_eq; auto); bsplit;
    try (apply fenceOK_content; cbn; auto; fail).
  all: clear Hr Hu Hnc; unfold fenceOK, ownerChanged, reopened, released; cbn; split; [done|right].
  - split; [done|]. by right; right.
  - split; [done|]. by right; left.
Qed.

(** C30 The claim fence moves exactly at ownership boundaries: a call that changes
    a bead's assignee or reopens it advances the fence, and a call that
    advances the fence changed the owner, reopened the bead or released it;
    content edits and closes leave it alone. *)
Theorem claim_fence_contract now op m id b b' :
  wf m → msSeq m < maxInt64 → (∀ nb, op ≠ OpCreate nb) →
  lookupBead m id = Some b → lookupBead (execOp now op m) id = Some b' →
  fenceOK b b'.
Proof.
  intros Hwf Hs Hnc Hb Hb'. rewrite memstore_refines_map_lemma, Hb in Hb' by done.
  by eapply specOp_fence.
Qed.

Lemma claim_fence_contract_witness :
  let m := execOp 7 (OpCreate zeroBead) NewMemStore in
  let o := mkUpdateOpts None (Some "in_progress") None None None None (Some "alice") [] [] ∅ in
  fenceOK (createdBead 7 1 zeroBead) (applyUpdate 8 o (createdBead 7 1 zeroBead)).
Proof.
  intros m o.
  apply (claim_fence_contract 8 (OpUpdate "gc-1" o) m "gc-1").
  - apply (wf_create 7 zeroBead NewMemStore wf_NewMemStore). reflexivity.
  - reflexivity.
  - discriminate.
  - vm_compute; reflexivity.
  - vm_compute; reflexivity.
Defined.

(** Bead IDs are never reissued: a bead deleted at some point stays unknown
    after any further calls. *)
Theorem deleted_id_never_reissued n m m' id b :
  wf m → msSeq m + Z.of_nat n ≤ maxInt64 → lookupBead m id = Some b →
  calls n (Delete id m).2 m' → Get m' id = Err (ErrNotFound "getting bead" id).
Proof.
  intros Hwf Hseq Hb Hc. destruct (issued_present m id b Hwf Hb) as (k & Hid & Hk).
  assert (msSeq (Delete id m).2 = msSeq m) as Hsd.
  { unfold Delete. by destruct (indexOfLocked m id) as [[]|]. }
  assert (wf (Delete id m).2) as Hwfd.
  { unfold Delete. destruct (indexOfLocked m id) as [[i x]|]; [by apply wf_delete|done]. }
  rewrite Get_lookup, (absent_calls n (Delete id m).2 m' id k); try done; try lia.
  rewrite lookupBead_deleteOp by apply Hwf. by rewrite decide_True.
Qed.

Lemma deleted_id_never_reissued_witness :
  let m := execOp 7 (OpCreate zeroBead) NewMemStore in
  Get (execOp 9 (OpCreate zeroBead) (Delete "gc-1" m).2) "gc-1" = Err (ErrNotFound "getting bead" "gc-1").
Proof.
  intros m. apply (deleted_id_never_reissued 1 m _ "gc-1" (createdBead 7 1 zeroBead)).
  - apply (wf_create 7 zeroBead NewMemStore wf_NewMemStore). reflexivity.
  - vm_compute. discriminate.
  - vm_compute. reflexivity.
  - apply calls_step. apply calls_nil.
Defined.
