(* ===== verification/MemStoreReady.v ===== *)
(** * MemStore: Ready, batch close, compare-and-set and dependency edges *)

From S2P Require Import Prelude GoBase Beads MemStore MemStoreProps.

Local Open Scope Z_scope.

(** ** The Ready projection *)

(** On distinct IDs the map [beadByID] is the store's own lookup. *)
Lemma beadByID_lookup m id :
  NoDup (bID <$> msBeads m) → beadByID (msBeads m) !! id = lookupBead m id.
Proof.
  intros Hnd. apply option_eq. intros b. rewrite lookupBead_Some by done.
  revert Hnd. unfold beadByID. induction (msBeads m) as [|x l IH] using rev_ind; intros Hnd.
  - cbn. rewrite lookup_empty. set_solver.
  - rewrite foldl_app. cbn. rewrite fmap_app in Hnd. cbn in Hnd.
    apply NoDup_app in Hnd as (Hl & Hd & _).
    rewrite lookup_insert, elem_of_app, list_elem_of_singleton.
    case_decide as Hx.
    + split; [intros [= <-]; auto|]. intros [[Hin| ->] Hb]; [|done].
      exfalso. apply (Hd (bID b)); [by apply list_elem_of_fmap_2|]. rewrite Hb, <-Hx. set_solver.
    + rewrite IH by done. naive_solver.
Qed.

Definition depBlocking (d : Dep) : bool := IsReadyBlockingDependencyType (DepType d).

(** The two spellings of the blocking-type test agree. *)
Lemma blockingType_inline t :
  (t == "blocks") || (t == "waits-for") || (t == "conditional-blocks") = IsReadyBlockingDependencyType t.
Proof.
  unfold IsReadyBlockingDependencyType, readyBlockingDependencyTypes.
  repeat case_bool_decide; cbn; set_solver.
Qed.

(** A blocking edge of [b] is satisfied: its target exists and permits [b]. *)
Definition edgeSatisfied (m : MemStore) (b : Bead) (d : Dep) : Prop :=
  ∃ blocker, lookupBead m (DependsOnID d) = Some blocker ∧
             IsReadyBlockingDependencySatisfiedFor b blocker = true.

Lemma readyBlocked_false m b :
  NoDup (bID <$> msBeads m) →
  readyBlocked (beadByID (msBeads m)) (msDeps m) b = false ↔
  (∀ d, d ∈ msDeps m → IssueID d = bID b → depBlocking d = true → edgeSatisfied m b d).
Proof.
  intros Hnd. unfold readyBlocked, edgeSatisfied, depBlocking.
  induction (msDeps m) as [|d ds IH]; cbn; [set_solver|].
  rewrite orb_false_iff, IH, blockingType_inline, beadByID_lookup by done. clear IH.
  rewrite (forall_elem_of_cons (λ d, IssueID d = bID b →
    IsReadyBlockingDependencyType (DepType d) = true → ∃ blocker, _ ∧ _)).
  apply and_iff_compat_r.
  case_bool_decide as Hi; cbn; [|tauto].
  destruct (IsReadyBlockingDependencyType (DepType d)) eqn:Ht; cbn; [|naive_solver].
  destruct (lookupBead m (DependsOnID d)) as [blk|] eqn:Hl.
  - rewrite negb_false_iff. naive_solver.
  - split; [done|]. intros H. by destruct (H Hi eq_refl) as (? & ? & _).
Qed.

Lemma unsatisfiedLoop_nil m b ds :
  unsatisfiedLoop m b ds = Ok [] ↔
  (∀ d, d ∈ ds → depBlocking d = true → edgeSatisfied m b d).
Proof.
  unfold edgeSatisfied, depBlocking. induction ds as [|d ds IH]; cbn; [set_solver|].
  rewrite (forall_elem_of_cons (λ d, IsReadyBlockingDependencyType (DepType d) = true →
    ∃ blocker, _ ∧ _)), <-IH. clear IH.
  destruct (IsReadyBlockingDependencyType (DepType d)) eqn:Ht; cbn.
  2:{ split; [by intros H; split|by intros [_ H]]. }
  rewrite Get_lookup. destruct (lookupBead m (DependsOnID d)) as [blk|] eqn:Hl.
  2:{ split; [done|]. intros [H _]. by destruct (H eq_refl) as (? & ? & _). }
  destruct (unsatisfiedLoop m b ds) as [bs|e]; [|split; [done|by intros [_ ?]]].
  destruct (IsReadyBlockingDependencySatisfiedFor b blk) eqn:Hs; cbn.
  - split; [intros [= ->]; split; [eauto|done]|by intros [_ [= ->]]].
  - split; [done|]. intros [H _]. destruct (H eq_refl) as (? & ? & ?). congruence.
Qed.

(** The controller's dependency predicate, edge by edge. *)
Lemma ReadyBlockingDependenciesSatisfied_true m b :
  ReadyBlockingDependenciesSatisfied m b = Ok true ↔
  (∀ d, d ∈ msDeps m → IssueID d = bID b → depBlocking d = true → edgeSatisfied m b d).
Proof.
  unfold ReadyBlockingDependenciesSatisfied, UnsatisfiedReadyBlockingDependencies, DepList. cbn.
  transitivity (unsatisfiedLoop m b (List.filter (λ d, IssueID d == bID b) (msDeps m)) = Ok []).
  { destruct (unsatisfiedLoop _ _ _) as [[|x l]|e]; cbn; naive_solver. }
  rewrite unsatisfiedLoop_nil. setoid_rewrite list_elem_of_In. setoid_rewrite filter_In.
  setoid_rewrite bool_decide_eq_true. naive_solver.
Qed.

(** The tests [Ready] makes on one bead. *)
Definition readyOK (now : Z) (q : ReadyQuery) (m : MemStore) (b : Bead) : bool :=
  IsReadyCandidateForTier b now (rTierMode q) &&
  ((rAssignee q == "") || (bAssignee b == rAssignee q)) &&
  bool_decide (ReadyBlockingDependenciesSatisfied m b = Ok true).

Lemma readyLoop_filter now q m n bs :
  NoDup (bID <$> msBeads m) → 0 ≤ n → (0 < rLimit q → n < rLimit q) →
  readyLoop now q (beadByID (msBeads m)) (msDeps m) n bs =
  (if 0 <? rLimit q then take (Z.to_nat (rLimit q - n)) else λ l, l)
    (List.filter (readyOK now q m) bs).
Proof.
  intros Hnd. revert n. induction bs as [|b bs IH]; intros n Hn Hlt; cbn [readyLoop List.filter].
  - destruct (0 <? rLimit q); [by rewrite take_nil|done].
  - assert (readyOK now q m b =
      negb (negb (IsReadyCandidateForTier b now (rTierMode q))) &&
      negb ((rAssignee q != "") && (bAssignee b != rAssignee q)) &&
      negb (readyBlocked (beadByID (msBeads m)) (msDeps m) b)) as Hok.
    { unfold readyOK. rewrite negb_involutive. repeat case_bool_decide; cbn; try done.
      all: rewrite ?andb_true_r, ?andb_false_r; try done.
      all: destruct (readyBlocked _ _ b) eqn:E; cbn; rewrite ?andb_true_r, ?andb_false_r; try done.
      all: exfalso; match goal with H : _ |- _ =>
        rewrite ReadyBlockingDependenciesSatisfied_true, <-readyBlocked_false in H by done; congruence end. }
    rewrite Hok. destruct (negb (IsReadyCandidateForTier _ _ _)); cbn; [by apply IH|].
    destruct ((rAssignee q != "") && (bAssignee b != rAssignee q)); cbn; [by apply IH|].
    destruct (readyBlocked _ _ b); cbn; [by apply IH|].
    destruct (Z.ltb_spec 0 (rLimit q)) as [Hl|Hl]; cbn.
    + specialize (Hlt Hl). replace (Z.to_nat (rLimit q - n)) with (S (Z.to_nat (rLimit q - (n + 1)))) by lia.
      cbn. f_equal. destruct (Z.leb_spec (rLimit q) (n + 1)).
      * replace (Z.to_nat (rLimit q - (n + 1))) with 0%nat by lia. done.
      * by apply IH; lia.
    + f_equal. apply IH; lia.
Qed.

Lemma applyLimit_take {A} limit (l : list A) :
  (if 0 <? limit then take (Z.to_nat limit) else λ l, l) l = applyLimit limit l.
Proof.
  unfold applyLimit. destruct (0 <? limit) eqn:E; cbn; [|done].
  destruct (Z.ltb_spec limit (Z.of_nat (length l))); [done|].
  apply take_ge. lia.
Qed.

(** C4 [Ready] returns, in creation order and cut at the limit, exactly the beads
    that are open, in the tier, actionable, not deferred, assigned as asked and
    for which the controller's own dependency predicate
    [ReadyBlockingDependenciesSatisfied] answers true: the store's projection
    and the controller never disagree. *)
Theorem ready_exact now m q :
  wf m → Ready now m [q] = Ok (applyLimit (rLimit q) (List.filter (readyOK now q m) (msBeads m))).
Proof.
  intros Hwf. unfold Ready. cbn [readyQueryFromArgs]. f_equal.
  rewrite readyLoop_filter by (apply Hwf || lia). rewrite Z.sub_0_r. apply applyLimit_take.
Qed.

Definition exampleBlocked : MemStore :=
  execOp 3 (OpDepAdd "gc-2" "gc-1" "blocks")
    (execOp 2 (OpCreate zeroBead) (execOp 1 (OpCreate zeroBead) NewMemStore)).

Lemma exampleBlocked_wf : wf exampleBlocked.
Proof.
  apply (proj1 (calls_wf 3 NewMemStore exampleBlocked ltac:(repeat constructor) wf_NewMemStore
    ltac:(unfold maxInt64; cbn; lia))).
Qed.

Lemma ready_exact_witness :
  Ready 5 exampleBlocked [mkReadyQuery "" 0 TierIssues] =
    Ok (applyLimit 0 (List.filter (readyOK 5 (mkReadyQuery "" 0 TierIssues) exampleBlocked) (msBeads exampleBlocked))) ∧
  Ready 5 exampleBlocked [mkReadyQuery "" 0 TierIssues] = Ok [createdBead 1 1 zeroBead].
Proof.
  split; [|vm_compute; reflexivity].
  apply (ready_exact 5 exampleBlocked (mkReadyQuery "" 0 TierIssues)). apply exampleBlocked_wf.
Defined.

(** A failed blocker keeps ordinary work blocked: a bead with a blocking edge to
    a bead closed with [gc.outcome=fail] is in no Ready result, unless it is a
    cleanup or workflow-finalize control. *)
Theorem failed_blocker_hides_dependent now m q b blocker t l :
  wf m → b ∈ msBeads m → lookupBead m (bID blocker) = Some blocker →
  mkDep (bID b) (bID blocker) t ∈ msDeps m → IsReadyBlockingDependencyType t = true →
  (bMetadata blocker).[OutcomeMetadataKey] = OutcomeFail → isReadyTerminalizer b = false →
  Ready now m [q] = Ok l → b ∉ l.
Proof.
  intros Hwf Hb Hlk Hdep Ht Hfail Hterm HR Hin. unfold Ready in HR. cbn [readyQueryFromArgs] in HR.
  rewrite readyLoop_filter in HR by (apply Hwf || lia). injection HR as <-.
  rewrite Z.sub_0_r, applyLimit_take in Hin.
  assert (b ∈ List.filter (readyOK now q m) (msBeads m)) as Hf.
  { unfold applyLimit in Hin. destruct (_ && _) in Hin; [|done]. apply elem_of_take in Hin as (i & Hi & _).
    by eapply list_elem_of_lookup_2. }
  apply list_elem_of_In, filter_In in Hf as [_ Hok]. unfold readyOK in Hok. bsplit.
  match goal with HS : ReadyBlockingDependenciesSatisfied _ _ = _ |- _ =>
    destruct (proj1 (ReadyBlockingDependenciesSatisfied_true m b) HS
      (mkDep (bID b) (bID blocker) t)) as (x & Hx & Hsat); [done..|] end.
  cbn in Hx. simplify_eq.
  unfold IsReadyBlockingDependencySatisfiedFor, IsReadyBlockingDependencySatisfied in Hsat.
  rewrite Hterm, Hfail in Hsat. cbn in Hsat. rewrite andb_false_r in Hsat. by destruct (_ != _) in Hsat.
Qed.

Lemma failed_blocker_hides_dependent_witness :
  let m := execOp 5 (OpCloseAll ["gc-1"] {[OutcomeMetadataKey := OutcomeFail]}) exampleBlocked in
  createdBead 2 2 zeroBead ∉ @nil Bead.
Proof.
  intros m.
  apply (failed_blocker_hides_dependent 6 m (mkReadyQuery "" 0 TierIssues) (createdBead 2 2 zeroBead)
    (setMetadataMap (touch 5 (setStatus (createdBead 1 1 zeroBead) "closed")) {[OutcomeMetadataKey := OutcomeFail]}) "blocks").
  - apply wf_execOp; [apply exampleBlocked_wf|vm_compute; reflexivity].
  - vm_compute. right. left.
  - vm_compute; reflexivity.
  - vm_compute. left.
  - vm_compute; reflexivity.
  - vm_compute; reflexivity.
  - vm_compute; reflexivity.
  - vm_compute; reflexivity.
Defined.

(** ** Batch close *)

Lemma closeAllOne_status now ids md b :
  bID b ∈ ids → bStatus (closeAllOne now ids md b).2 = "closed".
Proof.
  intros H. unfold closeAllOne. rewrite bool_decide_true by done. cbn.
  case_bool_decide; cbn; done.
Qed.

Lemma closeAllOne_again now ids md now' md' b :
  closeAllOne now' ids md' (closeAllOne now ids md b).2 = (false, (closeAllOne now ids md b).2).
Proof.
  destruct (decide (bID b ∈ ids)) as [Hin|Hin].
  - unfold closeAllOne at 1. rewrite closeAllOne_status by done.
    by rewrite (bool_decide_true ("closed" = "closed")), orb_true_r by done.
  - assert (∀ n mt, closeAllOne n ids mt b = (false, b)) as Hb.
    { intros n mt. unfold closeAllOne. by rewrite bool_decide_false. }
    by rewrite Hb, Hb.
Qed.

(** A batch close is complete and idempotent: afterwards every listed bead that
    exists is closed, and closing the same IDs again, whatever the metadata,
    closes none and leaves the store as it is. *)
Theorem close_all_idempotent now ids md m now' md' :
  let m' := (CloseAll now ids md m).2 in
  (∀ b, b ∈ msBeads m' → bID b ∈ ids → bStatus b = "closed") ∧
  CloseAll now' ids md' m' = (Ok 0, m').
Proof.
  unfold CloseAll. cbn. rewrite !map_map. split.
  - intros b (b0 & -> & _)%list_elem_of_fmap. rewrite closeAllOne_id. apply closeAllOne_status.
  - assert (map (λ x, closeAllOne now' ids md' (closeAllOne now ids md x).2) (msBeads m) =
            map (λ x, (false, (closeAllOne now ids md x).2)) (msBeads m)) as He.
    { apply map_ext. intros b. apply closeAllOne_again. }
    f_equal.
    + do 2 f_equal. rewrite He. clear He. induction (msBeads m) as [|x l IH]; cbn; [done|exact IH].
    + unfold setBeads. cbn. f_equal. apply map_ext. intros b. by rewrite closeAllOne_again.
Qed.

(** ** Compare-and-set races *)

(** Contenders for one metadata key that all read the same expected value,
    served in some order. *)
Fixpoint casRace (now : Z) (id key expected : string) (nexts : list string) (m : MemStore)
    : list (result bool) * MemStore :=
  match nexts with
  | [] => ([], m)
  | next :: rest =>
      let '(r, m1) := CompareAndSetMetadataKey now id key expected next m in
      let '(rs, m2) := casRace now id key expected rest m1 in
      (r :: rs, m2)
  end.

Lemma cas_lost now id key e next m b :
  DisableConditionalWrites m = false → lookupBead m id = Some b → (bMetadata b).[key] ≠ e →
  CompareAndSetMetadataKey now id key e next m = (Ok false, m).
Proof.
  unfold CompareAndSetMetadataKey, lookupBead. intros -> Hb Hne.
  destruct (indexOfLocked m id) as [[i x]|]; [|done]. cbn in Hb. simplify_eq.
  by rewrite bool_decide_false.
Qed.

Lemma casRace_lost now id key e nexts m b :
  DisableConditionalWrites m = false → lookupBead m id = Some b → (bMetadata b).[key] ≠ e →
  casRace now id key e nexts m = (replicate (length nexts) (Ok false), m).
Proof.
  intros H1 H2 H3. induction nexts as [|n ns IH]; [done|]. cbn.
  by erewrite cas_lost, IH.
Qed.

(** Mutual exclusion of compare-and-set: when any number of contenders swap the
    same key from the same expected value to values that differ from it, the
    first one served wins, every other one is told it lost, and the winner's
    value is the one stored. *)
Theorem cas_single_winner now id key e n ns m b :
  wf m → DisableConditionalWrites m = false → lookupBead m id = Some b →
  (bMetadata b).[key] = e → n ≠ e →
  ∃ b' m', casRace now id key e (n :: ns) m = (Ok true :: replicate (length ns) (Ok false), m') ∧
    lookupBead m' id = Some b' ∧ (bMetadata b').[key] = n.
Proof.
  intros Hwf Hcw Hb He Hn. cbn. unfold CompareAndSetMetadataKey. rewrite Hcw.
  unfold lookupBead in Hb. destruct (indexOfLocked m id) as [[i x]|] eqn:Hi; [|done].
  cbn in Hb. simplify_eq. rewrite bool_decide_true by done. cbn [negb].
  set (b' := touch now (setMetadataMap b (<[key:=n]> (bMetadata b)))).
  assert (lookupBead (putAt m i b') id = Some b') as Hl.
  { rewrite (lookupBead_putAt m id i b b' id); [by rewrite decide_True|apply Hwf|done|done]. }
  assert ((bMetadata b').[key] = n) as Hv by apply mget_insert_eq.
  erewrite casRace_lost; [..|by rewrite Hv]; [|done..].
  by exists b', (putAt m i b').
Qed.

Lemma cas_single_winner_witness :
  let m := execOp 7 (OpCreate zeroBead) NewMemStore in
  ∃ b' m', casRace 8 "gc-1" "owner" "" ["a"; "b"; "c"] m = ([Ok true; Ok false; Ok false], m') ∧
    lookupBead m' "gc-1" = Some b' ∧ (bMetadata b').["owner"] = "a".
Proof.
  intros m. apply (cas_single_winner 8 "gc-1" "owner" "" "a" ["b"; "c"] m (createdBead 7 1 zeroBead)).
  - apply (wf_create 7 zeroBead NewMemStore wf_NewMemStore). reflexivity.
  - reflexivity.
  - vm_compute; reflexivity.
  - vm_compute; reflexivity.
  - discriminate.
Defined.

(** ** Dependency edges *)

(** What an edge occupies: an ordered pair has one parent-child slot and one
    slot for every other type. *)
Definition depSlot (d : Dep) : string * string * bool :=
  (IssueID d, DependsOnID d, DepType d == "parent-child").

Definition slotsUnique (ds : list Dep) : Prop := NoDup (depSlot <$> ds).

(** The three branches of the loop body in terms of slots. *)
Lemma depAdd_cons i o t x ds :
  depAdd i o t (x :: ds) =
  if decide (depSlot x = depSlot (mkDep i o t)) then mkDep i o t :: ds else x :: depAdd i o t ds.
Proof.
  destruct x as [xi xo xt]. unfold depSlot. cbn.
  case_decide as Hs; repeat case_bool_decide; cbn; simplify_eq; try done.
Qed.

Lemma depAdd_elem i o t ds d :
  slotsUnique ds →
  d ∈ depAdd i o t ds ↔ d = mkDep i o t ∨ (d ∈ ds ∧ depSlot d ≠ depSlot (mkDep i o t)).
Proof.
  unfold slotsUnique. induction ds as [|x ds IH]; intros Hnd; [set_solver|].
  apply NoDup_cons in Hnd as [Hx Hnd]. rewrite depAdd_cons.
  assert (∀ d', d' ∈ ds → depSlot d' ≠ depSlot x) as Hother.
  { intros d' Hd' He. apply Hx. rewrite <-He. by apply list_elem_of_fmap_2. }
  case_decide as Hs; rewrite !elem_of_cons, ?IH by done; rewrite <-?Hs; naive_solver.
Qed.

Lemma depAdd_unique i o t ds : slotsUnique ds → slotsUnique (depAdd i o t ds).
Proof.
  unfold slotsUnique. induction ds as [|x ds IH]; intros Hnd; [apply NoDup_singleton|].
  apply NoDup_cons in Hnd as [Hx Hnd]. rewrite depAdd_cons. case_decide as Hs; cbn.
  - rewrite <-Hs. by apply NoDup_cons.
  - apply NoDup_cons. split; [|by apply IH].
    intros (d & Hd & Hin)%list_elem_of_fmap. apply depAdd_elem in Hin as [->|[Hin _]]; [done| |done].
    apply Hx. rewrite Hd. by apply list_elem_of_fmap_2.
Qed.

(** Adding an edge keeps at most one parent-child edge and one edge of any other
    type per ordered pair, leaves the new edge in place with the requested
    type, keeps every edge of another slot and invents none. *)
Theorem dep_add_slot i o t m d :
  slotsUnique (msDeps m) →
  slotsUnique (msDeps (DepAdd i o t m).2) ∧
  (d ∈ msDeps (DepAdd i o t m).2 ↔
   d = mkDep i o t ∨ (d ∈ msDeps m ∧ depSlot d ≠ depSlot (mkDep i o t))).
Proof. intros H. split; [by apply depAdd_unique|by apply depAdd_elem]. Qed.

Lemma dep_add_slot_witness :
  let m := execOp 3 (OpDepAdd "gc-2" "gc-1" "tracks") exampleBlocked in
  msDeps m = [mkDep "gc-2" "gc-1" "tracks"] ∧ slotsUnique (msDeps m).
Proof.
  intros m. split; [vm_compute; reflexivity|].
  apply (dep_add_slot "gc-2" "gc-1" "tracks" exampleBlocked (mkDep "" "" "")).
  vm_compute. repeat constructor. inversion 1.
Defined.
