(* ===== verification/CloseOrder.v ===== *)
(** * CloseOrder: blocker-first close batches

    Models [internal/beads/closeorder/closeorder.go].  The bead store appears
    only through its [DepList] method, which is a parameter: any store, a
    failing one included.  The theorems: the result is a permutation of the
    batch, blockers come first when the edges within the batch are acyclic, and
    an order that already puts blockers first is kept. *)

From S2P Require Import Prelude GoBase Beads MemStore.

Local Open Scope Z_scope.

Section Order.
Context {E : Type} (depList : string → string → res E (list Dep)).

(** The error [Order] returns: the failing ID and the store's error. *)
Inductive OrderError := ErrListingDeps (id : string) (cause : E).

(** [priority]: the last index of each ID. *)
Definition priorityMap (ids : list string) : gmap string Z :=
  (foldl (λ '(i, acc) id, (i + 1, <[id:=i]> acc)) (0, ∅) ids).2.

(** The blockers of [id] that matter: ["blocks"] edges to other members. *)
Definition batchBlockers (ids : list string) (id : string) (deps : list Dep) : gset string :=
  foldl (λ acc d,
    if (d.(IssueID) != id) || (d.(DepType) != "blocks") then acc
    else if negb (bool_decide (d.(DependsOnID) ∈ ids)) || (d.(DependsOnID) == id) then acc
    else {[d.(DependsOnID)]} ∪ acc) ∅ deps.

(** The map [blockedBy], built in batch order; the first failing [DepList] is
    returned. *)
Fixpoint blockedByLoop (ids todo : list string) (acc : gmap string (gset string))
    : res OrderError (gmap string (gset string)) :=
  match todo with
  | [] => Ok acc
  | id :: todo' =>
      match depList id "down" with
      | Err e => Err (ErrListingDeps id e)
      | Ok deps =>
          blockedByLoop ids todo' (<[id := batchBlockers ids id deps ∪ default ∅ (acc !! id)]> acc)
      end
  end.

Section loop.
Variables (ids : list string) (priority : gmap string Z) (blockedBy : gmap string (gset string)).

Definition prio (id : string) : Z := default 0 (priority !! id).
Definition blockers (id : string) : gset string := default ∅ (blockedBy !! id).

(** One iteration of the scan for the next pick; [""] is "nothing picked". *)
Definition pickStep (emitted : gset string) (st : string * Z) (id : string) : string * Z :=
  let '(pick, pickPrio) := st in
  if bool_decide (id ∈ emitted) then st
  else if negb (bool_decide (blockers id ⊆ emitted)) then st
  else if (pick == "") || (prio id <? pickPrio) then (id, prio id)
  else st.

Definition pickNext (emitted : gset string) : string :=
  (foldl (pickStep emitted) ("", -1) ids).1.

(** The fallback: every remaining ID in input order. *)
Definition appendRest (out : list string) (emitted : gset string) : list string :=
  (foldl (λ '(out, emitted) id,
     if bool_decide (id ∈ emitted) then (out, emitted) else (out ++ [id], {[id]} ∪ emitted))
     (out, emitted) ids).1.

(** The main loop; each turn appends an ID or breaks, so [length ids] turns are
    enough for [len(out) < len(ids)] to fail. *)
Fixpoint orderLoop (fuel : nat) (out : list string) (emitted : gset string) : list string :=
  match fuel with
  | O => out
  | S fuel' =>
      if negb (Nat.ltb (length out) (length ids)) then out
      else let pick := pickNext emitted in
           if pick == "" then appendRest out emitted
           else orderLoop fuel' (out ++ [pick]) ({[pick]} ∪ emitted)
  end.
End loop.

Definition Order (ids : list string) : res OrderError (list string) :=
  if Nat.leb (length ids) 1 then Ok ids
  else match blockedByLoop ids ids ∅ with
       | Err e => Err e
       | Ok blockedBy => Ok (orderLoop ids (priorityMap ids) blockedBy (length ids) [] ∅)
       end.

(** ** What the edges of the batch are *)

(** [blocksIn ids b id]: within the batch, [b] must close before [id]. *)
Definition blocksIn (ids : list string) (b id : string) : Prop :=
  ∃ deps d, depList id "down" = Ok deps ∧ d ∈ deps ∧ IssueID d = id ∧ DepType d = "blocks" ∧
            DependsOnID d = b ∧ b ∈ ids ∧ b ≠ id.

Lemma batchBlockers_elem ids id deps b :
  b ∈ batchBlockers ids id deps ↔
  ∃ d, d ∈ deps ∧ IssueID d = id ∧ DepType d = "blocks" ∧ DependsOnID d = b ∧ b ∈ ids ∧ b ≠ id.
Proof.
  unfold batchBlockers. induction deps as [|d deps IH] using rev_ind; [set_solver|].
  rewrite foldl_app, exists_elem_of_snoc. cbn.
  repeat case_bool_decide; cbn; rewrite ?elem_of_union, ?elem_of_singleton, IH; intuition congruence.
Qed.

Lemma blockedByLoop_lookup ids todo acc bb :
  blockedByLoop ids todo acc = Ok bb →
  (∀ x, default ∅ (acc !! x) ⊆ default ∅ (bb !! x)) ∧
  (∀ x b, b ∈ (default ∅ (bb !! x) : gset string) ↔
     b ∈ (default ∅ (acc !! x) : gset string) ∨ x ∈ todo ∧ blocksIn ids b x).
Proof.
  revert acc. induction todo as [|id todo IH]; intros acc H; cbn in H.
  { simplify_eq. set_solver. }
  destruct (depList id "down") as [deps|e] eqn:Hd; [|done].
  apply IH in H as [H1 H2]. assert (∀ b, b ∈ batchBlockers ids id deps ↔ blocksIn ids b id) as Hb.
  { intros b. rewrite batchBlockers_elem. unfold blocksIn. rewrite Hd. naive_solver. }
  assert (∀ x b, b ∈ (default ∅ (bb !! x) : gset string) ↔
     b ∈ (default ∅ (acc !! x) : gset string) ∨ x ∈ id :: todo ∧ blocksIn ids b x) as H3.
  { intros x b. rewrite H2, elem_of_cons. destruct (decide (x = id)) as [->|Hx].
    - rewrite lookup_insert_eq. cbn. rewrite elem_of_union, Hb. tauto.
    - rewrite lookup_insert_ne by done. naive_solver. }
  split; [|done]. intros x b. rewrite H3. tauto.
Qed.

(** ** The scan *)

Section loop_facts.
Variables (ids : list string) (priority : gmap string Z) (blockedBy : gmap string (gset string)).

Abbreviation blk := (blockers blockedBy).
Abbreviation scan := (pickNext ids priority blockedBy).

(** An ID that may be emitted next. *)
Definition emittable (emitted : gset string) (id : string) : Prop :=
  id ∉ emitted ∧ blk id ⊆ emitted.

Lemma scan_sound emitted :
  scan emitted = "" ∨ scan emitted ∈ ids ∧ emittable emitted (scan emitted).
Proof.
  unfold pickNext, emittable. induction ids as [|id l IH] using rev_ind; [by left|].
  rewrite foldl_app. cbn.
  destruct (foldl (pickStep priority blockedBy emitted) ("", -1) l) as [p q]; cbn in *.
  assert (p = "" ∨ p ∈ l ++ [id] ∧ p ∉ emitted ∧ blk p ⊆ emitted) as Hold.
  { rewrite elem_of_app. tauto. }
  assert (id ∈ l ++ [id]) by set_solver.
  case_bool_decide; [done|]. case_bool_decide; cbn; [|done].
  destruct ((p == "") || (prio priority id <? q)); cbn; auto.
Qed.

Lemma scan_complete emitted x :
  "" ∉ ids → x ∈ ids → emittable emitted x → scan emitted ≠ "".
Proof.
  unfold pickNext, emittable. intros Hne. revert x. induction ids as [|id l IH] using rev_ind; [set_solver|].
  intros x Hx [Hx1 Hx2]. rewrite foldl_app. cbn. unfold pickStep at 1.
  destruct (foldl (pickStep priority blockedBy emitted) ("", -1) l) as [p q]; cbn in *.
  apply not_elem_of_app in Hne as [Hne Hid]. rewrite list_elem_of_singleton in Hid.
  apply elem_of_app in Hx as [Hx|Hx%list_elem_of_singleton].
  - specialize (IH Hne x Hx (conj Hx1 Hx2)). repeat case_bool_decide; cbn; try done.
    destruct (_ <? _); cbn; congruence.
  - subst x. rewrite !bool_decide_false, bool_decide_true by done. cbn.
    case_bool_decide; cbn; [congruence|]. destruct (_ <? _); cbn; congruence.
Qed.

(** ** The fallback and the loop *)

Lemma appendRest_spec out emitted :
  emitted = list_to_set out → NoDup out →
  NoDup (appendRest ids out emitted) ∧
  ∀ x, x ∈ appendRest ids out emitted ↔ x ∈ out ∨ x ∈ ids.
Proof.
  unfold appendRest. revert out emitted.
  induction ids as [|id l IH]; intros out emitted He Hnd; cbn; [set_solver|].
  case_bool_decide as Hin.
  - destruct (IH out emitted He Hnd) as [H1 H2]. split; [done|]. intros x. rewrite H2. set_solver.
  - destruct (IH (out ++ [id]) ({[id]} ∪ emitted)) as [H1 H2].
    + rewrite list_to_set_app_L. cbn. set_solver.
    + apply NoDup_app. split; [done|]. split; [set_solver|apply NoDup_singleton].
    + split; [done|]. intros x. rewrite H2. set_solver.
Qed.

Lemma orderLoop_spec fuel out emitted :
  emitted = list_to_set out → NoDup out → (∀ x, x ∈ out → x ∈ ids) →
  (length ids ≤ fuel + length out)%nat →
  let r := orderLoop ids priority blockedBy fuel out emitted in
  NoDup r ∧ ∀ x, x ∈ r ↔ x ∈ ids.
Proof.
  revert out emitted. induction fuel as [|fuel IH]; intros out emitted He Hnd Hin Hlen.
  all: assert (Hfull : (length ids ≤ length out)%nat → NoDup out ∧ ∀ x, x ∈ out ↔ x ∈ ids)
    by (intros Hl; split; [done|]; intros x; split; [apply Hin|];
        rewrite !list_elem_of_In; apply (NoDup_length_incl (proj1 (NoDup_ListNoDup out) Hnd) Hl);
        intros y; rewrite <-!list_elem_of_In; apply Hin).
  { cbn. apply Hfull. lia. }
  cbn [orderLoop]. cbv zeta. destruct (Nat.ltb_spec (length out) (length ids)) as [Hlt|Hge]; cbn [negb]; [|by apply Hfull].
  case_bool_decide as Hp.
  - destruct (appendRest_spec out emitted He Hnd) as [H1 H2]. split; [done|].
    intros x. rewrite H2. naive_solver.
  - destruct (scan_sound emitted) as [?|(Hs1 & Hs2 & _)]; [done|]. apply IH.
    + rewrite list_to_set_app_L, He. cbn. set_solver.
    + apply NoDup_app. split; [done|]. split; [|apply NoDup_singleton].
      subst emitted. intros x Hx ->%list_elem_of_singleton. by apply Hs2, elem_of_list_to_set.
    + intros x. rewrite elem_of_app, list_elem_of_singleton. naive_solver.
    + rewrite length_app. cbn. lia.
Qed.

(** Blockers first: every element's blockers are among those before it. *)
Definition blockersFirst (out : list string) : Prop :=
  ∀ l1 x l2, out = l1 ++ x :: l2 → blk x ⊆ (list_to_set l1 : gset string).

Lemma blockersFirst_snoc out x :
  blockersFirst out → blk x ⊆ (list_to_set out : gset string) → blockersFirst (out ++ [x]).
Proof.
  intros H Hx l1 y l2 He. destruct l2 as [|z l2 _] using rev_ind.
  - apply app_inj_tail in He as [<- <-]. done.
  - rewrite app_comm_cons, app_assoc in He. apply app_inj_tail in He as [He _]. by apply (H _ _ _ He).
Qed.

(** With a rank that decreases along every edge to a member, some member is
    always emittable until all are emitted. *)
Lemma emittable_exists (rank : string → nat) emitted x :
  (∀ id b, id ∈ ids → b ∈ blk id → b ∈ ids ∧ (rank b < rank id)%nat) →
  x ∈ ids → x ∉ emitted → ∃ y, y ∈ ids ∧ emittable emitted y.
Proof.
  intros Hrank. remember (rank x) as n eqn:Hn. revert x Hn.
  induction n as [n IH] using lt_wf_ind. intros x -> Hx Hxe.
  destruct (decide (blk x ⊆ emitted)) as [Hs|Hs]; [by exists x|].
  destruct (decide (Exists (λ b, b ∉ emitted) (elements (blk x)))) as [He|He].
  - apply Exists_exists in He as (b & Hb%elem_of_elements & Hbe).
    destruct (Hrank x b Hx Hb) as [Hbi Hlt]. by apply (IH (rank b) Hlt b).
  - destruct Hs. intros b Hb. destruct (decide (b ∈ emitted)) as [|Hn]; [done|].
    destruct He. apply Exists_exists. exists b. by rewrite elem_of_elements.
Qed.

Lemma orderLoop_blockersFirst (rank : string → nat) fuel out emitted :
  "" ∉ ids →
  (∀ id b, id ∈ ids → b ∈ blk id → b ∈ ids ∧ (rank b < rank id)%nat) →
  emitted = list_to_set out → (∀ x, x ∈ out → x ∈ ids) → blockersFirst out →
  blockersFirst (orderLoop ids priority blockedBy fuel out emitted).
Proof.
  intros Hne Hrank. revert out emitted.
  induction fuel as [|fuel IH]; intros out emitted He Hin Hbf; [done|]. cbn [orderLoop]. cbv zeta.
  destruct (Nat.ltb_spec (length out) (length ids)) as [Hlt|Hge]; cbn [negb]; [|done].
  case_bool_decide as Hp.
  - assert (appendRest ids out emitted = out) as ->; [|done].
    assert (∀ x, x ∈ ids → x ∈ emitted) as Hall.
    { intros x Hx. destruct (decide (x ∈ emitted)) as [|Hxe]; [done|].
      destruct (emittable_exists rank emitted x Hrank Hx Hxe) as (y & Hy & Hem).
      by destruct (scan_complete emitted y Hne Hy Hem). }
    clear -Hall. unfold appendRest. induction ids as [|id l IH]; cbn; [done|].
    rewrite bool_decide_true by (apply Hall; set_solver). apply IH. set_solver.
  - destruct (scan_sound emitted) as [?|(Hs1 & Hs2 & Hs3)]; [done|]. apply IH.
    + rewrite list_to_set_app_L, He. cbn. set_solver.
    + intros x. rewrite elem_of_app, list_elem_of_singleton. naive_solver.
    + apply blockersFirst_snoc; [done|]. by rewrite <-He.
Qed.

(** ** Input order is the priority *)

Lemma scan_keep emitted p q l :
  p ≠ "" → (∀ x, x ∈ l → q ≤ prio priority x) →
  foldl (pickStep priority blockedBy emitted) (p, q) l = (p, q).
Proof.
  intros Hp. induction l as [|x l IH]; intros Hl; [done|]. cbn [foldl].
  assert (pickStep priority blockedBy emitted (p, q) x = (p, q)) as ->; [|by apply IH; set_solver].
  unfold pickStep. rewrite (bool_decide_false (p = "")) by done.
  pose proof (Hl x ltac:(set_solver)). rewrite (proj2 (Z.ltb_ge (prio priority x) q)) by done.
  by repeat case_bool_decide.
Qed.

Lemma scan_skip emitted l :
  (∀ x, x ∈ l → x ∈ emitted) → foldl (pickStep priority blockedBy emitted) ("", -1) l = ("", -1).
Proof.
  induction l as [|x l IH]; intros Hl; [done|]. cbn. rewrite bool_decide_true by set_solver.
  apply IH. set_solver.
Qed.

Hypothesis Hprio : ∀ i x, ids !! i = Some x → prio priority x = Z.of_nat i.

(** While the emitted IDs are a prefix, the scan picks the next member. *)
Lemma scan_next k x :
  "" ∉ ids → NoDup ids → blockersFirst ids → ids !! k = Some x →
  scan (list_to_set (take k ids)) = x.
Proof.
  intros Hne Hnd Hbf Hk. unfold pickNext.
  rewrite <-(take_drop_middle ids k x Hk) at 2.
  assert (x ≠ "") as Hx by (intros ->; apply Hne; by eapply list_elem_of_lookup_2).
  rewrite foldl_app, scan_skip by (intros y; by rewrite elem_of_list_to_set).
  cbn [foldl]. unfold pickStep at 2. rewrite bool_decide_false, bool_decide_true; cbn [negb orb].
  - rewrite (bool_decide_true ("" = "")) by done. cbn [orb].
    rewrite scan_keep; [done|done|]. intros y (j & Hj)%list_elem_of_lookup.
    rewrite lookup_drop in Hj. rewrite (Hprio k x Hk), (Hprio _ y Hj). lia.
  - apply (Hbf _ x (drop (S k) ids)). by rewrite take_drop_middle.
  - rewrite elem_of_list_to_set. rewrite <-(take_drop_middle ids k x Hk) in Hnd.
    apply NoDup_app in Hnd as (_ & Hd & _). intros Hin. apply (Hd x Hin). set_solver.
Qed.

Lemma orderLoop_stable fuel k :
  "" ∉ ids → NoDup ids → blockersFirst ids → (k + fuel = length ids)%nat →
  orderLoop ids priority blockedBy fuel (take k ids) (list_to_set (take k ids)) = ids.
Proof.
  intros Hne Hnd Hbf. revert k. induction fuel as [|fuel IH]; intros k Hlen.
  { cbn. apply take_ge. lia. }
  cbn [orderLoop]. cbv zeta. destruct (Nat.ltb_spec (length (take k ids)) (length ids)) as [Hlt|Hge]; cbn [negb].
  - destruct (lookup_lt_is_Some_2 ids k ltac:(lia)) as [x Hx].
    rewrite (scan_next k x) by done.
    rewrite bool_decide_false by (intros ->; apply Hne; by eapply list_elem_of_lookup_2).
    specialize (IH (S k) ltac:(lia)). rewrite (take_S_r _ _ _ Hx) in IH.
    rewrite list_to_set_app_L in IH. cbn in IH.
    by rewrite (right_id_L ∅ (∪)), (comm_L (∪)) in IH.
  - rewrite length_take in Hge. lia.
Qed.
End loop_facts.

Lemma priorityMap_lookup ids i x :
  NoDup ids → ids !! i = Some x → prio (priorityMap ids) x = Z.of_nat i.
Proof.
  unfold prio, priorityMap. intros Hnd Hi.
  assert (∀ l, (foldl (λ '(i, acc) id, (i + 1, <[id:=i]> acc)) (0, ∅ : gmap string Z) l).1 = Z.of_nat (length l)) as Hl.
  { induction l as [|y l IH] using rev_ind; [done|]. rewrite foldl_app, length_app. cbn.
    destruct (foldl _ _ l); cbn in *. lia. }
  induction ids as [|y l IH] using rev_ind; [done|].
  rewrite foldl_app. cbn. specialize (Hl l). destruct (foldl _ _ l) as [n acc]; cbn in *. subst n.
  apply NoDup_app in Hnd as (Hnd & Hd & _). apply lookup_snoc_Some in Hi as [[Hlt Hi]|[-> ->]].
  - rewrite lookup_insert_ne; [by apply IH|]. intros ->.
    apply (Hd x); [by eapply list_elem_of_lookup_2|set_solver].
  - by rewrite lookup_insert_eq.
Qed.

(** ** The theorems *)

Definition depListTotal (ids : list string) : Prop :=
  ∀ id, id ∈ ids → ∃ deps, depList id "down" = Ok deps.

Lemma blockedByLoop_total ids todo acc :
  (∀ id, id ∈ todo → ∃ deps, depList id "down" = Ok deps) →
  ∃ bb, blockedByLoop ids todo acc = Ok bb.
Proof.
  revert acc. induction todo as [|id todo IH]; intros acc H; cbn; [eauto|].
  destruct (H id) as [deps ->]; [set_solver|]. apply IH. set_solver.
Qed.

(** The unfolding of [Order] on a batch of at least two beads. *)
Lemma Order_unfold ids :
  depListTotal ids → (1 < length ids)%nat →
  ∃ bb, Order ids = Ok (orderLoop ids (priorityMap ids) bb (length ids) [] ∅) ∧
    ∀ x b, x ∈ ids → b ∈ blockers bb x ↔ blocksIn ids b x.
Proof.
  intros Ht Hlen. unfold Order. rewrite (proj2 (Nat.leb_gt _ _) Hlen).
  destruct (blockedByLoop_total ids ids ∅ Ht) as [bb Hbb]. rewrite Hbb. exists bb. split; [done|].
  intros x b Hx. unfold blockers. destruct (blockedByLoop_lookup _ _ _ _ Hbb) as [_ ->].
  rewrite lookup_empty. set_solver.
Qed.

(** Every member of a batch is closed exactly once: whatever the dependency
    edges, cycles included, the ordered batch is a permutation of the input. *)
Theorem close_order_permutation ids :
  depListTotal ids → NoDup ids → ∃ out, Order ids = Ok out ∧ out ≡ₚ ids.
Proof.
  intros Ht Hnd. destruct (decide (1 < length ids)%nat) as [Hlen|Hlen].
  - destruct (Order_unfold ids Ht Hlen) as (bb & -> & _). eexists; split; [done|].
    destruct (orderLoop_spec ids (priorityMap ids) bb (length ids) [] ∅) as [H1 H2]; [done|apply NoDup_nil_2|set_solver|cbn; lia|].
    by apply NoDup_Permutation.
  - exists ids. split; [|done]. unfold Order. by rewrite (proj2 (Nat.leb_le _ _)) by lia.
Qed.

(** Blockers close first: when the blocking edges within the batch are acyclic
    (they decrease some rank), every blocker precedes what it blocks. *)
Theorem close_order_blockers_first (rank : string → nat) ids b x :
  depListTotal ids → NoDup ids → "" ∉ ids →
  (∀ b x, x ∈ ids → blocksIn ids b x → (rank b < rank x)%nat) →
  x ∈ ids → blocksIn ids b x →
  ∃ l1 l2 l3, Order ids = Ok (l1 ++ b :: l2 ++ x :: l3).
Proof.
  intros Ht Hnd Hne Hrank Hx Hb. assert (b ∈ ids ∧ b ≠ x) as [Hbin Hbx] by (unfold blocksIn in Hb; naive_solver).
  assert (1 < length ids)%nat as Hlen.
  { destruct ids as [|y [|z l]]; [set_solver| |cbn; lia].
    apply list_elem_of_singleton in Hx, Hbin. congruence. }
  destruct (Order_unfold ids Ht Hlen) as (bb & -> & Hbb).
  destruct (orderLoop_spec ids (priorityMap ids) bb (length ids) [] ∅) as [H1 H2]; [done|apply NoDup_nil_2|set_solver|cbn; lia|].
  assert (blockersFirst bb (orderLoop ids (priorityMap ids) bb (length ids) [] ∅)) as Hf.
  { apply (orderLoop_blockersFirst _ _ _ rank); try done.
    - intros id c Hid Hc. apply Hbb in Hc; [|done]. split; [|by apply Hrank].
      unfold blocksIn in Hc. naive_solver.
    - set_solver.
    - intros [] ? ? ?; done. }
  destruct (list_elem_of_split _ x (proj2 (H2 x) Hx)) as (l & l3 & He).
  specialize (Hf _ _ _ He). assert (b ∈ l) as (l1 & l2 & ->)%list_elem_of_split.
  { apply (elem_of_list_to_set (C := gset string)), Hf, Hbb; done. }
  exists l1, l2, l3. f_equal. rewrite He, <-app_assoc. done.
Qed.

(** Input order is the priority: a batch that already lists every blocker before
    what it blocks is returned unchanged. *)
Theorem close_order_stable ids :
  depListTotal ids → NoDup ids → "" ∉ ids →
  (∀ l1 x l2 b, ids = l1 ++ x :: l2 → blocksIn ids b x → b ∈ l1) →
  Order ids = Ok ids.
Proof.
  intros Ht Hnd Hne Hbf. destruct (decide (1 < length ids)%nat) as [Hlen|Hlen].
  - destruct (Order_unfold ids Ht Hlen) as (bb & -> & Hbb). f_equal.
    apply (orderLoop_stable ids (priorityMap ids) bb ltac:(intros; by apply priorityMap_lookup) (length ids) 0);
      try done.
    intros l1 x l2 He c Hc. apply elem_of_list_to_set. apply (Hbf l1 x l2); [done|].
    apply Hbb; [rewrite He; set_solver|done].
  - unfold Order. by rewrite (proj2 (Nat.leb_le _ _)) by lia.
Qed.
End Order.

(** ** On the in-memory store *)

(** Three beads, [gc-1] blocked by [gc-3] and [gc-2] by [gc-1]. *)
Definition orderExample : MemStore :=
  NewMemStoreFrom 3 [createdBead 1 1 zeroBead; createdBead 1 2 zeroBead; createdBead 1 3 zeroBead]
    [mkDep "gc-1" "gc-3" "blocks"; mkDep "gc-2" "gc-1" "blocks"].

(** Two beads that block each other. *)
Definition cycleExample : MemStore :=
  NewMemStoreFrom 2 [createdBead 1 1 zeroBead; createdBead 1 2 zeroBead]
    [mkDep "gc-1" "gc-2" "blocks"; mkDep "gc-2" "gc-1" "blocks"].

Lemma memstore_depList_total m ids : depListTotal (DepList m) ids.
Proof. intros id _. eexists. reflexivity. Qed.

Lemma DepList_sub m id dir deps d : DepList m id dir = Ok deps → d ∈ deps → d ∈ msDeps m.
Proof. unfold DepList. intros [= <-]. rewrite !list_elem_of_In, filter_In. by intros [? _]. Qed.

Lemma close_order_permutation_witness :
  ∃ out, Order (DepList cycleExample) ["gc-2"; "gc-1"] = Ok out ∧ out ≡ₚ ["gc-2"; "gc-1"].
Proof.
  apply (close_order_permutation (DepList cycleExample)).
  - apply memstore_depList_total.
  - apply (bool_decide_unpack _). vm_compute. exact I.
Defined.

Definition exampleRank (id : string) : nat :=
  if id == "gc-3" then 0 else if id == "gc-1" then 1 else 2.

Lemma orderExample_edges b x :
  blocksIn (DepList orderExample) ["gc-1"; "gc-2"; "gc-3"] b x → b = "gc-3" ∧ x = "gc-1" ∨ b = "gc-1" ∧ x = "gc-2".
Proof.
  intros (deps & d & Hl & Hd & Hi & Ht & Ho & _). apply (DepList_sub _ _ _ _ _ Hl), list_elem_of_In in Hd.
  destruct Hd as [<-|[<-|[]]]; cbn in *; auto.
Qed.

Lemma close_order_blockers_first_witness :
  ∃ l1 l2 l3, Order (DepList orderExample) ["gc-1"; "gc-2"; "gc-3"] = Ok (l1 ++ "gc-3" :: l2 ++ "gc-1" :: l3).
Proof.
  apply (close_order_blockers_first (DepList orderExample) exampleRank).
  - apply memstore_depList_total.
  - apply (bool_decide_unpack _). vm_compute. exact I.
  - apply (bool_decide_unpack _). vm_compute. exact I.
  - intros b x _ [[-> ->]|[-> ->]]%orderExample_edges; vm_compute; lia.
  - left.
  - exists [mkDep "gc-1" "gc-3" "blocks"], (mkDep "gc-1" "gc-3" "blocks").
    repeat split; try (vm_compute; reflexivity); try discriminate; [left|right; right; left].
Defined.

Lemma close_order_stable_witness :
  Order (DepList orderExample) ["gc-3"; "gc-1"; "gc-2"] = Ok ["gc-3"; "gc-1"; "gc-2"].
Proof.
  apply (close_order_stable (DepList orderExample)).
  - apply memstore_depList_total.
  - apply (bool_decide_unpack _). vm_compute. exact I.
  - apply (bool_decide_unpack _). vm_compute. exact I.
  - intros l1 x l2 b He (deps & d & Hl & Hd & Hi & Ht & Ho & _). apply (DepList_sub _ _ _ _ _ Hl), list_elem_of_In in Hd.
    destruct Hd as [<-|[<-|[]]]; cbn in *; subst.
    + destruct l1 as [|? [|? [|? [|]]]]; cbn in He; simplify_eq. left.
    + destruct l1 as [|? [|? [|? [|]]]]; cbn in He; simplify_eq. right. left.
Defined.
