(* ===== verification/GoText.v ===== *)
(** * GoText: UTF-8, letter case, white space and slash-separated paths

    The parts of Go's [unicode/utf8], [strings] and [path/filepath] that the
    convergence packages use.  Strings are byte strings, as in Go.  The Unicode
    letter tables for runes above 127 are the parameters of [UnicodeTables];
    everything on ASCII, the decoding of UTF-8 and the white-space set are
    written out. *)

From Stdlib Require Import Ascii.
From S2P Require Import Prelude GoBase.

Local Open Scope Z_scope.

(** ** Runes *)

Definition bval (c : ascii) : Z := Z.of_N (N_of_ascii c).
Definition bchr (z : Z) : ascii := ascii_of_N (Z.to_N z).

Definition RuneError : Z := 65533.
Definition UTFMax : Z := 4.

Definition between (lo x hi : Z) : bool := (lo <=? x) && (x <=? hi).

(** [utf8.RuneStart]: not a continuation byte. *)
Definition RuneStart (c : ascii) : bool := negb (between 128 (bval c) 191).

(** The range of the second byte, from the first one. *)
Definition secondRange (b0 : Z) : Z * Z :=
  if b0 =? 224 then (160, 191) else if b0 =? 237 then (128, 159)
  else if b0 =? 240 then (144, 191) else if b0 =? 244 then (128, 143) else (128, 191).

Definition cont (z : Z) : bool := between 128 z 191.

(** [utf8.DecodeRuneInString]: the first rune and its width; an invalid
    encoding is [RuneError] of width one. *)
Definition DecodeRune (s : string) : option (Z * nat) :=
  match s with
  | EmptyString => None
  | String c0 r0 =>
      let b0 := bval c0 in
      let bad := Some (RuneError, 1%nat) in
      let '(lo, hi) := secondRange b0 in
      if b0 <? 128 then Some (b0, 1%nat)
      else if negb (between 194 b0 244) then bad
      else match r0 with
      | EmptyString => bad
      | String c1 r1 =>
          let b1 := bval c1 in
          if negb (between lo b1 hi) then bad
          else if b0 <? 224 then Some ((b0 - 192) * 64 + (b1 - 128), 2%nat)
          else match r1 with
          | EmptyString => bad
          | String c2 r2 =>
              let b2 := bval c2 in
              if negb (cont b2) then bad
              else if b0 <? 240
              then Some ((b0 - 224) * 4096 + (b1 - 128) * 64 + (b2 - 128), 3%nat)
              else match r2 with
              | EmptyString => bad
              | String c3 _ =>
                  let b3 := bval c3 in
                  if negb (cont b3) then bad
                  else Some ((b0 - 240) * 262144 + (b1 - 128) * 4096 + (b2 - 128) * 64 + (b3 - 128), 4%nat)
              end
          end
      end
  end.

(** The runes of a string with their bytes; every rune is at least one byte,
    so the length of the string is enough fuel. *)
Fixpoint runesLoop (fuel : nat) (s : string) : list (Z * string) :=
  match fuel with
  | O => []
  | S fuel' =>
      match DecodeRune s with
      | None => []
      | Some (r, w) => (r, stake w s) :: runesLoop fuel' (sdrop w s)
      end
  end.

Definition runes (s : string) : list (Z * string) := runesLoop (String.length s) s.

Definition bytes (l : list Z) : string := fold_right (λ z s, String (bchr z) s) "" l.

(** [utf8.EncodeRune]. *)
Definition EncodeRune (r : Z) : string :=
  if (r <? 0) || (1114111 <? r) || between 55296 r 57343 then bytes [239; 191; 189]
  else if r <? 128 then bytes [r]
  else if r <? 2048 then bytes [192 + r / 64; 128 + r mod 64]
  else if r <? 65536 then bytes [224 + r / 4096; 128 + (r / 64) mod 64; 128 + r mod 64]
  else bytes [240 + r / 262144; 128 + (r / 4096) mod 64; 128 + (r / 64) mod 64; 128 + r mod 64].

(** ** Letter case and classes *)

(** The tables of package [unicode] above ASCII. *)
Class UnicodeTables := {
  lowerTable : Z → Z;
  letterTable : Z → bool;
  digitTable : Z → bool
}.

Section unicode.
Context `{UnicodeTables}.

Definition unicodeToLower (r : Z) : Z :=
  if r <? 128 then (if between 65 r 90 then r + 32 else r) else lowerTable r.

Definition IsLetter (r : Z) : bool :=
  if r <? 128 then between 65 r 90 || between 97 r 122 else letterTable r.

Definition IsDigit (r : Z) : bool :=
  if r <? 128 then between 48 r 57 else digitTable r.

Fixpoint isASCII (s : string) : bool :=
  match s with EmptyString => true | String c r => (bval c <? 128) && isASCII r end.

Fixpoint asciiLower (s : string) : string :=
  match s with
  | EmptyString => ""
  | String c r => String (if between 65 (bval c) 90 then bchr (bval c + 32) else c) (asciiLower r)
  end.

(** [strings.ToLower]: bytewise on ASCII, else [strings.Map unicode.ToLower],
    which drops runes mapped below zero. *)
Definition ToLower (s : string) : string :=
  if isASCII s then asciiLower s
  else fold_right (λ rb acc,
         let r := unicodeToLower rb.1 in
         if r <? 0 then acc else EncodeRune r +:+ acc) "" (runes s).

(** [unicode.IsSpace]: the White_Space property. *)
Definition IsSpace (r : Z) : bool :=
  between 9 r 13 || (r =? 32) || (r =? 133) || (r =? 160) || (r =? 5760) || between 8192 r 8202 ||
  (r =? 8232) || (r =? 8233) || (r =? 8239) || (r =? 8287) || (r =? 12288).

Fixpoint dropSpace (l : list (Z * string)) : list (Z * string) :=
  match l with
  | [] => []
  | rb :: l' => if IsSpace rb.1 then dropSpace l' else l
  end.

(** [strings.TrimSpace]. *)
Definition TrimSpace (s : string) : string :=
  fold_right (λ rb acc, rb.2 +:+ acc) "" (rev (dropSpace (rev (dropSpace (runes s))))).
End unicode.

(** ** Paths (Unix) *)

(** The components of a path, between its slashes. *)
Fixpoint splitSlash (s : string) : list string :=
  match s with
  | EmptyString => [""]
  | String c r =>
      if Ascii.eqb c "/" then "" :: splitSlash r
      else match splitSlash r with
           | [] => [String c ""]
           | x :: l => String c x :: l
           end
  end.

(** One component of [filepath.Clean]'s scan; the stack is reversed. *)
Definition cleanStep (rooted : bool) (stack : list string) (comp : string) : list string :=
  if (comp == "") || (comp == ".") then stack
  else if comp == ".." then
    match stack with
    | x :: rest => if x == ".." then ".." :: stack else rest
    | [] => if rooted then [] else [".."]
    end
  else comp :: stack.

Definition Clean (path : string) : string :=
  if path == "" then "."
  else
    let rooted := HasPrefix path "/" in
    let out := rev (foldl (cleanStep rooted) [] (splitSlash path)) in
    if rooted then "/" +:+ String.concat "/" out
    else match out with [] => "." | _ => String.concat "/" out end.

(** [filepath.Join]: leading empty elements are ignored. *)
Fixpoint Join (elems : list string) : string :=
  match elems with
  | [] => ""
  | e :: rest => if e == "" then Join rest else Clean (String.concat "/" elems)
  end.

Example Clean_ex : Clean "/a/./b//../c/" = "/a/c".
Proof. vm_compute. reflexivity. Qed.
Example Join_ex : Join [""; "city"; ".gc"; "../x"] = "city/x".
Proof. vm_compute. reflexivity. Qed.
Example Trim_ex `{UnicodeTables} : TrimSpace (String (bchr 9) (bytes [194; 160] +:+ "Block ")) = "Block".
Proof. vm_compute. reflexivity. Qed.
Example Lower_ex `{UnicodeTables} : ToLower "Approve-With-RISKS" = "approve-with-risks".
Proof. vm_compute. reflexivity. Qed.
