(* ===== verification/GoTime.v ===== *)
(** * GoTime: civil dates and the RFC 3339 layouts

    Instants are nanoseconds since the zero time (1 January of year 1, UTC).
    [FormatRFC3339 t] is [t.UTC().Format(time.RFC3339)], [FormatRFC3339Nano t]
    the same with [time.RFC3339Nano], and [ParseRFC3339] is [time.Parse] with
    either layout: both accept an optional fraction of a second. *)

From Stdlib Require Import Ascii.
From S2P Require Import Prelude GoBase GoText.

Local Open Scope Z_scope.

Definition Hour : Z := 60 * Minute.
Definition Day : Z := 24 * Hour.

(** Year, month and day of the [d]-th day after 1 January of year 1, in the
    proleptic Gregorian calendar; years are counted from 1 March, so that the
    leap day is the last of its year. *)
Definition civil (d : Z) : Z * Z * Z :=
  let z := d + 306 in
  let era := z / 146097 in
  let doe := z - era * 146097 in
  let yoe := (doe - doe / 1460 + doe / 36524 - doe / 146096) / 365 in
  let doy := doe - (365 * yoe + yoe / 4 - yoe / 100) in
  let mp := (5 * doy + 2) / 153 in
  let day := doy - (153 * mp + 2) / 5 + 1 in
  let month := if mp <? 10 then mp + 3 else mp - 9 in
  (yoe + era * 400 + (if month <=? 2 then 1 else 0), month, day).

Fixpoint zeros (n : nat) : string := match n with O => "" | S n => "0" +:+ zeros n end.

(** [appendInt]: decimal with at least [width] digits. *)
Definition pad (width : nat) (z : Z) : string :=
  let s := Itoa (Z.abs z) in
  (if z <? 0 then "-" else "") +:+ zeros (width - String.length s) +:+ s.

Definition FormatRFC3339 (t : Z) : string :=
  let '(y, mo, d) := civil (t / Day) in
  let s := (t mod Day) / Second in
  pad 4 y +:+ "-" +:+ pad 2 mo +:+ "-" +:+ pad 2 d +:+ "T" +:+
  pad 2 (s / 3600) +:+ ":" +:+ pad 2 (s / 60 mod 60) +:+ ":" +:+ pad 2 (s mod 60) +:+ "Z".

Example format_zero : FormatRFC3339 0 = "0001-01-01T00:00:00Z".
Proof. reflexivity. Qed.

(** 719162 days separate year 1 from the Unix epoch. *)
Example format_leap : FormatRFC3339 ((719162 * 86400 + 1709210096) * Second) = "2024-02-29T12:34:56Z".
Proof. reflexivity. Qed.

Example format_epoch : FormatRFC3339 (719162 * Day) = "1970-01-01T00:00:00Z".
Proof. reflexivity. Qed.

(** ** Fractions of a second *)

(** The layout [.999999999]: nine digits without the trailing zeros, nothing
    for a whole second. *)
Fixpoint trimZeros (s : string) : string :=
  match s with
  | EmptyString => ""
  | String c r =>
      match trimZeros r with
      | EmptyString => if Ascii.eqb c "0" then "" else String c ""
      | t => String c t
      end
  end.

Definition fracSecond (nanos : Z) : string :=
  let digits := trimZeros (pad 9 nanos) in
  if digits == "" then "" else "." +:+ digits.

Definition FormatRFC3339Nano (t : Z) : string :=
  let '(y, mo, d) := civil (t / Day) in
  let s := (t mod Day) / Second in
  pad 4 y +:+ "-" +:+ pad 2 mo +:+ "-" +:+ pad 2 d +:+ "T" +:+
  pad 2 (s / 3600) +:+ ":" +:+ pad 2 (s / 60 mod 60) +:+ ":" +:+ pad 2 (s mod 60) +:+
  fracSecond (t mod Second) +:+ "Z".

Example format_nano : FormatRFC3339Nano (719162 * Day + 1500) = "1970-01-01T00:00:00.0000015Z".
Proof. reflexivity. Qed.

(** ** Parsing *)

Definition digitVal (c : ascii) : Z := bval c - 48.

(** [getnum]: one or two digits, exactly two when [fixed]. *)
Definition getnum (s : string) (fixed : bool) : option (Z * string) :=
  match s with
  | String a r =>
      if negb (isDigit a) then None
      else match r with
      | String b r' =>
          if isDigit b then Some (digitVal a * 10 + digitVal b, r')
          else if fixed then None else Some (digitVal a, r)
      | EmptyString => if fixed then None else Some (digitVal a, r)
      end
  | EmptyString => None
  end.

(** A number within its range. *)
Definition numIn (lo hi : Z) (fixed : bool) (s : string) : option (Z * string) :=
  match getnum s fixed with
  | Some (n, r) => if between lo n hi then Some (n, r) else None
  | None => None
  end.

(** A literal character of the layout. *)
Definition lit (c : ascii) (s : string) : option string :=
  match s with
  | String a r => if Ascii.eqb a c then Some r else None
  | EmptyString => None
  end.

(** The year: exactly four digits. *)
Definition longYear (s : string) : option (Z * string) :=
  match s with
  | String a (String b (String c (String d r))) =>
      if isDigit a && isDigit b && isDigit c && isDigit d
      then Some (digitVal a * 1000 + digitVal b * 100 + digitVal c * 10 + digitVal d, r)
      else None
  | _ => None
  end.

(** The longest prefix of digits, and what follows. *)
Fixpoint spanDigits (s : string) : string * string :=
  match s with
  | EmptyString => ("", "")
  | String c r => if isDigit c then let '(ds, rest) := spanDigits r in (String c ds, rest) else ("", s)
  end.

Fixpoint digitsVal (acc : Z) (s : string) : Z :=
  match s with
  | EmptyString => acc
  | String c r => digitsVal (acc * 10 + digitVal c) r
  end.

(** [parseNanoseconds]: at most nine digits count, the rest is cut. *)
Definition parseNanoseconds (ds : string) : Z :=
  let ds := stake 9 ds in
  digitsVal 0 ds * 10 ^ (9 - Z.of_nat (String.length ds)).

(** An optional fraction, after a period or a comma. *)
Definition fraction (s : string) : Z * string :=
  match s with
  | String p r =>
      if Ascii.eqb p "." || Ascii.eqb p ","
      then match spanDigits r with
           | (EmptyString, _) => (0, s)
           | (ds, rest) => (parseNanoseconds ds, rest)
           end
      else (0, s)
  | EmptyString => (0, s)
  end.

(** The zone at the end of the text: [Z], or a signed offset of hours and
    minutes; the offset in seconds. *)
Definition zone (s : string) : option Z :=
  match s with
  | String sign r =>
      if Ascii.eqb sign "Z" then (if r == "" then Some 0 else None)
      else
        '(hr, r) ← numIn 0 24 true r; r ← lit ":" r; '(mm, r) ← numIn 0 60 true r;
        if r != "" then None
        else if Ascii.eqb sign "+" then Some ((hr * 60 + mm) * 60)
        else if Ascii.eqb sign "-" then Some (- ((hr * 60 + mm) * 60))
        else None
  | EmptyString => None
  end.

Definition isLeap (y : Z) : bool := (y mod 4 =? 0) && (negb (y mod 100 =? 0) || (y mod 400 =? 0)).

Definition daysIn (m y : Z) : Z :=
  if m =? 2 then (if isLeap y then 29 else 28)
  else if (m =? 4) || (m =? 6) || (m =? 9) || (m =? 11) then 30 else 31.

(** Days from 1 January of year 1 to a date, the inverse of [civil]. *)
Definition dayNumber (y m d : Z) : Z :=
  let y' := if m <=? 2 then y - 1 else y in
  let era := y' / 400 in
  let yoe := y' - era * 400 in
  let mp := if m <=? 2 then m + 9 else m - 3 in
  era * 146097 + (365 * yoe + yoe / 4 - yoe / 100) + ((153 * mp + 2) / 5 + d - 1) - 306.

Definition ParseRFC3339 (s : string) : option Z :=
  '(y, s) ← longYear s; s ← lit "-" s; '(mo, s) ← numIn 1 12 true s; s ← lit "-" s;
  '(d, s) ← getnum s true; s ← lit "T" s;
  '(h, s) ← numIn 0 23 false s; s ← lit ":" s; '(mi, s) ← numIn 0 59 true s; s ← lit ":" s;
  '(sec, s) ← numIn 0 59 true s;
  let '(nanos, s) := fraction s in
  off ← zone s;
  if between 1 d (daysIn mo y)
  then Some ((dayNumber y mo d * 86400 + h * 3600 + mi * 60 + sec - off) * Second + nanos)
  else None.

Example parse_zero : ParseRFC3339 "0001-01-01T00:00:00Z" = Some 0.
Proof. reflexivity. Qed.
Example parse_offset : ParseRFC3339 "2024-02-29T14:34:56.5+02:00" = Some ((719162 * 86400 + 1709210096) * Second + 500 * Millisecond).
Proof. reflexivity. Qed.
Example parse_noleap : ParseRFC3339 "2023-02-29T12:34:56Z" = None.
Proof. reflexivity. Qed.
Example parse_short_hour : ParseRFC3339 "1970-01-01T1:02:03Z" = Some ((719162 * 86400 + 3723) * Second).
Proof. reflexivity. Qed.
Example parse_junk : ParseRFC3339 "1970-01-01T01:02:03Z " = None.
Proof. reflexivity. Qed.
