(* ===== verification/GoTimeProps.v ===== *)
(** * GoTimeProps: the RFC 3339 layouts round-trip

    The civil calendar is inverted by [dayNumber], padded decimals are read
    back by the digit parsers, and a timestamp the program writes is the one it
    reads: to the second for [time.RFC3339], exactly for [time.RFC3339Nano].  A
    written timestamp has no white space, so trimming leaves it alone. *)

From Stdlib Require Import Ascii DecimalString DecimalFacts DecimalN DecimalPos.
From S2P Require Import Prelude GoBase GoText GoTime.

Local Open Scope Z_scope.

(** ** The calendar *)

(** Linear arithmetic with division by constants. *)
Ltac divs := Z.to_euclidean_division_equations; lia.

(** Evaluate the tests that are closed terms. *)
Ltac closed_ifs :=
  repeat match goal with
  | |- context [if ?b then _ else _] =>
      let v := eval vm_compute in b in
      match v with true => change b with true | false => change b with false end; cbn iota
  end.

(** The year within a 400-year era, from the day. *)
Definition yearOfEra (doe : Z) : Z := (doe - doe / 1460 + doe / 36524 - doe / 146096) / 365.

Lemma era_arith doe y q c w u v :
  0 ≤ doe ≤ 146096 → 0 ≤ y ≤ 399 → y * 365 ≤ doe - q + c - w < y * 365 + 365 →
  1460 * q ≤ doe < 1460 * q + 1460 → 36524 * c ≤ doe < 36524 * c + 36524 →
  146096 * w ≤ doe < 146096 * w + 146096 →
  4 * u ≤ y < 4 * u + 4 → 100 * v ≤ y < 100 * v + 100 →
  let doy := doe - (365 * y + u - v) in
  0 ≤ doy ≤ 365 ∧ (doy = 365 → y = 4 * u + 3 ∧ (y ≠ 100 * v + 99 ∨ y = 399)).
Proof.
  intros. subst doy.
  assert (0 ≤ c ≤ 4) by lia. assert (0 ≤ w ≤ 1) by lia. assert (0 ≤ v ≤ 3) by lia.
  assert (c = 0 ∨ c = 1 ∨ c = 2 ∨ c = 3 ∨ c = 4) as Hc by lia.
  assert (w = 0 ∨ w = 1) as Hw by lia.
  assert (v = 0 ∨ v = 1 ∨ v = 2 ∨ v = 3) as Hv by lia.
  destruct Hw as [->| ->], Hc as [->|[->|[->|[->| ->]]]], Hv as [->|[->|[->| ->]]]; lia.
Qed.

Lemma yearOfEra_spec doe :
  0 ≤ doe ≤ 146096 →
  let y := yearOfEra doe in let doy := doe - (365 * y + y / 4 - y / 100) in
  0 ≤ y ≤ 399 ∧ 0 ≤ doy ≤ 365 ∧ (doy = 365 → isLeap (y + 1) = true).
Proof.
  intros H y. assert (0 ≤ y ≤ 399) as Hy by (unfold y, yearOfEra; divs).
  destruct (era_arith doe y (doe / 1460) (doe / 36524) (doe / 146096) (y / 4) (y / 100)) as [Hd Hl];
    [done|done|unfold y, yearOfEra; divs|divs|divs|divs|divs|divs|].
  split; [done|]. split; [done|]. intros H365. destruct (Hl H365) as [H4 Hc].
  unfold isLeap. clear Hl H365 Hd. clearbody y.
  destruct (Z.eqb_spec ((y + 1) mod 4) 0) as [_|]; [|divs].
  destruct (Z.eqb_spec ((y + 1) mod 100) 0); [|done].
  destruct (Z.eqb_spec ((y + 1) mod 400) 0); [done|]. destruct Hc as [Hc| ->]; [divs|done].
Qed.

Lemma isLeap_period y k : isLeap (y + k * 400) = isLeap y.
Proof.
  unfold isLeap.
  replace ((y + k * 400) mod 4) with (y mod 4) by divs.
  replace ((y + k * 400) mod 100) with (y mod 100) by divs.
  by replace ((y + k * 400) mod 400) with (y mod 400) by divs.
Qed.

(** A day of the year counted from 1 March, as a month and a day. *)
Lemma month_day doy :
  0 ≤ doy ≤ 365 →
  let mp := (5 * doy + 2) / 153 in let day := doy - (153 * mp + 2) / 5 + 1 in
  0 ≤ mp ≤ 11 ∧ 1 ≤ day ∧
  ∀ y, (doy = 365 → isLeap y = true) → day ≤ daysIn (if mp <? 10 then mp + 3 else mp - 9) y.
Proof.
  intros H mp. assert (0 ≤ mp ≤ 11) as Hmp by (unfold mp; divs).
  assert (153 * mp ≤ 5 * doy + 2 < 153 * mp + 153) as Hb by (unfold mp; divs).
  clearbody mp. intros day. split; [done|].
  assert (mp = 0 ∨ mp = 1 ∨ mp = 2 ∨ mp = 3 ∨ mp = 4 ∨ mp = 5 ∨ mp = 6 ∨ mp = 7 ∨ mp = 8 ∨ mp = 9 ∨ mp = 10 ∨ mp = 11) as Hc by lia.
  unfold day, daysIn. split; [divs|].
  intros y Hl. repeat destruct Hc as [->|Hc]; try subst mp; closed_ifs; try divs.
  assert (doy = 365 → isLeap y = true) as Hl' by done.
  destruct (isLeap y); [divs|]. assert (doy ≠ 365) by (intros E; by apply Hl' in E). divs.
Qed.

(** Days from year 1 to year 10000. *)
Definition daysToYear10000 : Z := 3652059.

(** [dayNumber] inverts [civil] from year 0 on, and a civil date passes the
    range checks. *)
Lemma civil_spec n y m d :
  -306 ≤ n < daysToYear10000 → civil n = (y, m, d) →
  0 ≤ y ≤ 9999 ∧ 1 ≤ m ≤ 12 ∧ 1 ≤ d ≤ daysIn m y ∧ dayNumber y m d = n.
Proof.
  intros Hn Hc. unfold civil in Hc.
  set (z := n + 306) in *. set (era := z / 146097) in *. set (doe := z - era * 146097) in *.
  assert (0 ≤ doe ≤ 146096) as Hdoe by (unfold doe, era; divs).
  assert (0 ≤ era ≤ 24) as Hera by (unfold era, z, daysToYear10000 in *; divs).
  fold (yearOfEra doe) in Hc. set (yoe := yearOfEra doe) in *.
  set (doy := doe - (365 * yoe + yoe / 4 - yoe / 100)) in *.
  destruct (yearOfEra_spec doe Hdoe) as (Hy & Hdoy & Hleap). fold yoe doy in Hy, Hdoy, Hleap.
  destruct (month_day doy Hdoy) as (Hmp & Hd1 & Hd2).
  set (mp := (5 * doy + 2) / 153) in *.
  assert (10 ≤ mp ↔ 306 ≤ doy) as Hmp10 by (unfold mp; divs).
  assert (n = era * 146097 + doe - 306) as Hn' by (unfold doe, z; lia).
  assert (doe = doy + (365 * yoe + yoe / 4 - yoe / 100)) as Hde by (unfold doy; lia).
  assert (yoe = 399 → yoe / 4 = 99 ∧ yoe / 100 = 3) as H399 by (intros ->; done).
  injection Hc as Ey Em Ed.
  unfold daysToYear10000 in Hn. clearbody mp doy yoe doe era. clear z.
  assert (0 ≤ y ≤ 9999) as Hyr.
  { destruct (Z.ltb_spec mp 10) as [Hlt|Hge]; subst m.
    - destruct (Z.leb_spec (mp + 3) 2); lia.
    - destruct (Z.leb_spec (mp - 9) 2); [|lia]. lia. }
  split; [done|].
  assert (dayNumber y m d = n ∧ 1 ≤ m ≤ 12 ∧ y = yoe + era * 400 + (if m <=? 2 then 1 else 0)) as (Hday & Hm & Hyy).
  { subst m y d. unfold dayNumber. destruct (Z.ltb_spec mp 10) as [Hlt|Hge].
    - destruct (Z.leb_spec (mp + 3) 2); [lia|].
      replace ((yoe + era * 400 + 0) / 400) with era by divs.
      replace (yoe + era * 400 + 0 - era * 400) with yoe by lia.
      replace (mp + 3 - 3) with mp by lia. lia.
    - destruct (Z.leb_spec (mp - 9) 2); [|lia].
      replace ((yoe + era * 400 + 1 - 1) / 400) with era by divs.
      replace (yoe + era * 400 + 1 - 1 - era * 400) with yoe by lia.
      replace (mp - 9 + 9) with mp by lia. lia. }
  split; [done|]. split; [|done]. split; [lia|]. rewrite <-Ed. rewrite <-Em. apply Hd2.
  intros E. subst y. rewrite Hyy.
  assert (10 ≤ mp) by lia. destruct (Z.ltb_spec mp 10); [lia|]. 
  rewrite <-Em. destruct (Z.leb_spec (mp - 9) 2); [|lia].
  replace (yoe + era * 400 + 1) with (yoe + 1 + era * 400) by lia. rewrite isLeap_period. auto.
Qed.

(** ** Padded decimals *)

Lemma digitsVal_app acc a b : digitsVal acc (a +:+ b) = digitsVal (digitsVal acc a) b.
Proof. revert acc. induction a as [|c a IH]; intros acc; [done|]. rewrite string_app_cons. cbn. apply IH. Qed.

Lemma digitsVal_zeros n : digitsVal 0 (zeros n) = 0.
Proof. induction n as [|n IH]; [done|]. exact IH. Qed.

Lemma digitsVal_uint acc d :
  digitsVal (Z.pos acc) (NilEmpty.string_of_uint d) = Z.pos (Pos.of_uint_acc d acc).
Proof.
  revert acc. induction d as [|d IH|d IH|d IH|d IH|d IH|d IH|d IH|d IH|d IH|d IH]; intros acc; [done|..];
    cbn [NilEmpty.string_of_uint digitsVal Pos.of_uint_acc]; rewrite <-IH; f_equal;
    unfold digitVal; match goal with |- context [bval ?c] => let v := eval vm_compute in (bval c) in change (bval c) with v end; lia.
Qed.

Lemma digitsVal_of_uint d : digitsVal 0 (NilEmpty.string_of_uint d) = Z.of_N (N.of_uint d).
Proof. induction d; try done; exact (digitsVal_uint _ d). Qed.

Lemma digitsVal_Itoa z : 0 ≤ z → digitsVal 0 (Itoa z) = z.
Proof.
  intros Hz. unfold Itoa. destruct (Z.ltb_spec z 0); [lia|].
  assert (∀ d, d ≠ Decimal.Nil → NilZero.string_of_uint d = NilEmpty.string_of_uint d) as Hn by by intros [].
  rewrite Hn by apply to_uint_nonnil. rewrite digitsVal_of_uint, DecimalN.Unsigned.of_to. lia.
Qed.

Lemma digitVal_range c : isDigit c = true → 0 ≤ digitVal c ≤ 9.
Proof. destruct c as [[] [] [] [] [] [] [] []]; intros H; try discriminate H; cbv; split; discriminate. Qed.

Lemma digitsVal_lower acc s :
  allDigits s = true → 0 ≤ acc → acc * 10 ^ Z.of_nat (String.length s) ≤ digitsVal acc s.
Proof.
  revert acc. induction s as [|c s IH]; intros acc Hs Ha; [cbn; lia|].
  cbn in Hs. apply andb_true_iff in Hs as [Hc Hs]. apply digitVal_range in Hc.
  cbn [digitsVal String.length]. rewrite Nat2Z.inj_succ, Z.pow_succ_r by lia.
  specialize (IH (acc * 10 + digitVal c) Hs ltac:(lia)).
  pose proof (Z.pow_pos_nonneg 10 (Z.of_nat (String.length s)) ltac:(lia) ltac:(lia)). nia.
Qed.

(** [Itoa] has no leading zero. *)
Lemma Itoa_head z c r : 0 < z → Itoa z = String c r → 1 ≤ digitVal c.
Proof.
  intros Hz. unfold Itoa. destruct (Z.ltb_spec z 0); [lia|].
  assert (N.to_uint (Z.to_N z) = Decimal.unorm (N.to_uint (Z.to_N z))) as ->.
  { rewrite <-DecimalN.Unsigned.to_of. by rewrite DecimalN.Unsigned.of_to. }
  unfold Decimal.unorm. set (d := N.to_uint (Z.to_N z)).
  destruct (Decimal.nzhead d) as [|d'|d'|d'|d'|d'|d'|d'|d'|d'|d'] eqn:E; cbn; try (intros [= <- _]; vm_compute; discriminate).
  - assert (N.of_uint d = 0%N) as H0.
    { rewrite <-DecimalN.Unsigned.of_uint_norm. unfold Decimal.unorm. by rewrite E. }
    unfold d in H0. rewrite DecimalN.Unsigned.of_to in H0. lia.
  - by apply nzhead_nonzero in E.
Qed.

Lemma length_zeros n : String.length (zeros n) = n.
Proof. induction n as [|n IH]; [done|]. exact (f_equal S IH). Qed.

Lemma allDigits_app a b : allDigits (a +:+ b) = allDigits a && allDigits b.
Proof. induction a as [|c a IH]; [done|]. rewrite string_app_cons. cbn. by rewrite IH, andb_assoc. Qed.

Lemma allDigits_zeros n : allDigits (zeros n) = true.
Proof. induction n as [|n IH]; [done|]. exact IH. Qed.

Lemma Itoa_length w z : 0 ≤ z < 10 ^ Z.of_nat w → (0 < w)%nat → (String.length (Itoa z) ≤ w)%nat.
Proof.
  intros [Hz Hw] Hw0. destruct (decide (z = 0)) as [->|Hne]; [exact Hw0|].
  destruct (Itoa z) as [|c r] eqn:E; [cbn; lia|]. cbn.
  pose proof (Itoa_head z c r ltac:(lia) E) as Hc. pose proof (digitsVal_Itoa z Hz) as Hv.
  pose proof (Itoa_digits z Hz) as Hd. rewrite E in Hv, Hd. cbn in Hv, Hd. apply andb_true_iff in Hd as [_ Hd].
  pose proof (digitsVal_lower (digitVal c) r Hd ltac:(lia)) as Hl. 
  assert (10 ^ Z.of_nat (String.length r) < 10 ^ Z.of_nat w) as Hlt.
  { pose proof (Z.pow_pos_nonneg 10 (Z.of_nat (String.length r)) ltac:(lia) ltac:(lia)). rewrite Z.mul_0_l, Z.add_0_l in Hv. nia. }
  apply Z.pow_lt_mono_r_iff in Hlt; lia.
Qed.

(** A padded decimal: [w] digits whose value is the number. *)
Lemma pad_spec w z :
  0 ≤ z < 10 ^ Z.of_nat w → (0 < w)%nat →
  String.length (pad w z) = w ∧ allDigits (pad w z) = true ∧ digitsVal 0 (pad w z) = z.
Proof.
  intros Hz Hw. pose proof (Itoa_length w z Hz Hw). unfold pad. rewrite Z.abs_eq by lia.
  destruct (Z.ltb_spec z 0); [lia|]. rewrite string_app_nil_l.
  rewrite length_string_app, length_zeros, allDigits_app, allDigits_zeros, digitsVal_app, digitsVal_zeros.
  split; [lia|]. split; [by apply Itoa_digits|]. by apply digitsVal_Itoa.
Qed.

Lemma longYear_pad y r : 0 ≤ y ≤ 9999 → longYear (pad 4 y +:+ r) = Some (y, r).
Proof.
  intros Hy. destruct (pad_spec 4 y ltac:(change (Z.of_nat 4) with 4; lia) ltac:(lia)) as (Hl & Hd & Hv).
  destruct (pad 4 y) as [|a [|b [|c [|d [|]]]]]; try discriminate Hl.
  rewrite !string_app_cons, string_app_nil_l. cbn in Hd, Hv. unfold longYear.
  rewrite andb_true_r in Hd. rewrite !andb_assoc in Hd. rewrite Hd. do 2 f_equal. lia.
Qed.

Lemma getnum_pad n r fixed : 0 ≤ n ≤ 99 → getnum (pad 2 n +:+ r) fixed = Some (n, r).
Proof.
  intros Hn. destruct (pad_spec 2 n ltac:(change (Z.of_nat 2) with 2; lia) ltac:(lia)) as (Hl & Hd & Hv).
  destruct (pad 2 n) as [|a [|b [|]]]; try discriminate Hl.
  rewrite !string_app_cons, string_app_nil_l. cbn in Hd, Hv. unfold getnum.
  rewrite andb_true_r in Hd. apply andb_true_iff in Hd as [-> ->]. cbn. do 2 f_equal. lia.
Qed.

Lemma numIn_pad lo hi n r fixed :
  0 ≤ lo → lo ≤ n ≤ hi → hi ≤ 99 → numIn lo hi fixed (pad 2 n +:+ r) = Some (n, r).
Proof.
  intros ? ? ?. unfold numIn. rewrite getnum_pad by lia. unfold between.
  destruct (Z.leb_spec lo n), (Z.leb_spec n hi); try lia. done.
Qed.

(** ** Fractions *)

Lemma trimZeros_app s : ∃ k, s = trimZeros s +:+ zeros k.
Proof.
  induction s as [|c s [k IH]]; [by exists O|]. cbn. destruct (trimZeros s) as [|d t] eqn:E.
  - destruct (Ascii.eqb_spec c "0") as [->|Hc].
    + exists (S k). rewrite IH. done.
    + exists k. rewrite IH. done.
  - exists k. rewrite IH at 1. done.
Qed.

Lemma digitsVal_trail acc k : digitsVal acc (zeros k) = acc * 10 ^ Z.of_nat k.
Proof.
  revert acc. induction k as [|k IH]; intros acc; [cbn; lia|].
  rewrite Nat2Z.inj_succ, Z.pow_succ_r by lia. change (zeros (S k)) with (String "0" (zeros k)).
  cbn [digitsVal]. rewrite IH. change (digitVal "0") with 0. lia.
Qed.

Lemma spanDigits_app ds r :
  allDigits ds = true → match r with String c _ => isDigit c = false | _ => True end →
  spanDigits (ds +:+ r) = (ds, r).
Proof.
  intros Hd Hr. induction ds as [|c ds IH]; [rewrite string_app_nil_l; destruct r as [|c r]; [done|]; cbn; by rewrite Hr|].
  rewrite string_app_cons. cbn in *. apply andb_true_iff in Hd as [-> Hd]. by rewrite IH.
Qed.

Lemma fraction_frac n : 0 ≤ n < Second → fraction (fracSecond n +:+ "Z") = (n, "Z").
Proof.
  intros Hn. unfold Second, Millisecond in Hn.
  destruct (pad_spec 9 n ltac:(change (Z.of_nat 9) with 9; lia) ltac:(lia)) as (Hl & Hd & Hv).
  unfold fracSecond. destruct (trimZeros_app (pad 9 n)) as [k Hk]. set (ds := trimZeros (pad 9 n)) in *.
  rewrite Hk in Hl, Hd, Hv. rewrite length_string_app, length_zeros in Hl.
  rewrite allDigits_app in Hd. apply andb_true_iff in Hd as [Hd _].
  rewrite digitsVal_app, digitsVal_trail in Hv.
  case_bool_decide as E.
  - rewrite E in Hv. cbn in Hv. by subst n.
  - rewrite string_app_assoc. change ("." +:+ (ds +:+ "Z")) with (String "." (ds +:+ "Z")). cbn [fraction].
    change (Ascii.eqb "." "." || Ascii.eqb "." ",") with true. cbn iota.
    rewrite spanDigits_app by done. destruct ds as [|c ds'] eqn:Eds; [done|]. rewrite <-Eds in *. f_equal.
    unfold parseNanoseconds. rewrite stake_all by lia. rewrite <-Hv. repeat f_equal. lia.
Qed.

(** ** White space *)

(** ASCII text without white space. *)
Fixpoint solid (s : string) : bool :=
  match s with
  | EmptyString => true
  | String c r => (bval c <? 128) && negb (IsSpace (bval c)) && solid r
  end.

Lemma runes_solid s :
  solid s = true →
  Forall (λ rb, IsSpace rb.1 = false) (runes s) ∧ fold_right (λ rb acc, rb.2 +:+ acc) "" (runes s) = s.
Proof.
  unfold runes. induction s as [|c s IH]; intros H; [done|]. cbn in H. bsplit.
  cbn [String.length runesLoop]. unfold DecodeRune. destruct (secondRange (bval c)).
  replace (bval c <? 128) with true by done. cbn [stake sdrop]. destruct (IH ltac:(done)) as [Hf Hs].
  split; [by constructor|]. cbn [fold_right snd]. by rewrite Hs.
Qed.

Lemma dropSpace_id l : Forall (λ rb, IsSpace rb.1 = false) l → dropSpace l = l.
Proof. intros [|[r b] l' Hr _]; [done|]. cbn in *. by rewrite Hr. Qed.

(** [strings.TrimSpace] leaves text without white space alone. *)
Lemma TrimSpace_solid s : solid s = true → TrimSpace s = s.
Proof.
  intros Hs. destruct (runes_solid s Hs) as [Hf He]. unfold TrimSpace.
  rewrite (dropSpace_id (runes s)) by done. rewrite dropSpace_id by by apply Forall_rev.
  by rewrite rev_involutive.
Qed.

Lemma solid_app a b : solid (a +:+ b) = solid a && solid b.
Proof. induction a as [|c a IH]; [done|]. rewrite string_app_cons. cbn. by rewrite IH, !andb_assoc. Qed.

Lemma solid_digits s : allDigits s = true → solid s = true.
Proof.
  induction s as [|c s IH]; [done|]. cbn. intros H. apply andb_true_iff in H as [Hc Hs]. rewrite IH by done.
  destruct c as [[] [] [] [] [] [] [] []]; try discriminate Hc; done.
Qed.

(** ** The layouts *)

(** The instants of the years 1 to 9999. *)
Definition civilRange (t : Z) : Prop := 0 ≤ t < daysToYear10000 * Day.

(** The clock part of an instant. *)
Lemma clock_parts t :
  0 ≤ t →
  let n := t / Day in let s := (t mod Day) / Second in
  0 ≤ n ∧ 0 ≤ s / 3600 ≤ 23 ∧ 0 ≤ s / 60 mod 60 ≤ 59 ∧ 0 ≤ s mod 60 ≤ 59 ∧
  (n * 86400 + s / 3600 * 3600 + s / 60 mod 60 * 60 + s mod 60) * Second = t - t mod Second.
Proof.
  intros Ht n s.
  assert (0 ≤ s < 86400) as Hs by (unfold s, Day, Hour, Minute, Second, Millisecond; divs).
  assert ((n * 86400 + s) * Second = t - t mod Second) as <- by (unfold n, s, Day, Hour, Minute, Second, Millisecond; divs).
  assert (0 ≤ n) by (unfold n, Day, Hour, Minute, Second, Millisecond; divs).
  clearbody n s. split; [done|]. split; [divs|]. split; [divs|]. split; [divs|]. f_equal. divs.
Qed.

(** A date, a time of day and a tail that gives a fraction. *)
Lemma Parse_layout y m d h mi s tail nanos :
  0 ≤ y ≤ 9999 → 1 ≤ m ≤ 12 → 1 ≤ d ≤ daysIn m y → 0 ≤ h ≤ 23 → 0 ≤ mi ≤ 59 → 0 ≤ s ≤ 59 →
  fraction tail = (nanos, "Z") →
  ParseRFC3339 (pad 4 y +:+ "-" +:+ pad 2 m +:+ "-" +:+ pad 2 d +:+ "T" +:+ pad 2 h +:+ ":" +:+ pad 2 mi +:+ ":" +:+ pad 2 s +:+ tail)
  = Some ((dayNumber y m d * 86400 + h * 3600 + mi * 60 + s) * Second + nanos).
Proof.
  intros Hy Hm Hd Hh Hmi Hs Ht. assert (daysIn m y ≤ 31) as H31 by (unfold daysIn; repeat case_match; lia).
  assert (∀ c r, lit c (String c "" +:+ r) = Some r) as Hlit.
  { intros c r. rewrite string_app_cons, string_app_nil_l. unfold lit. by rewrite Ascii.eqb_refl. }
  unfold ParseRFC3339. rewrite longYear_pad by done. cbn [mbind option_bind].
  repeat (first [rewrite Hlit | rewrite numIn_pad by lia | rewrite getnum_pad by lia]; cbn [mbind option_bind]).
  rewrite Ht. change (zone "Z") with (Some 0). cbn [mbind option_bind]. unfold between.
  destruct (Z.leb_spec 1 d), (Z.leb_spec d (daysIn m y)); try lia. cbn [andb]. by rewrite Z.sub_0_r.
Qed.

Lemma civilRange_day t : civilRange t → 0 ≤ t / Day < daysToYear10000.
Proof.
  unfold civilRange, Day, Hour, Minute, Second, Millisecond. intros [??].
  split; [apply Z.div_pos; lia|apply Z.div_lt_upper_bound; lia].
Qed.

Lemma Parse_Format t : civilRange t → ParseRFC3339 (FormatRFC3339 t) = Some (t - t mod Second).
Proof.
  intros Ht. pose proof (civilRange_day t Ht) as Hr. destruct Ht as [Ht _]. unfold FormatRFC3339. destruct (civil (t / Day)) as [[y m] d] eqn:E.
  destruct (clock_parts t Ht) as (Hn & Hh & Hmi & Hs & <-).
  destruct (civil_spec (t / Day) y m d) as (Hy & Hm & Hd & <-); [lia|done|].
  rewrite (Parse_layout _ _ _ _ _ _ "Z" 0) by done. f_equal. lia.
Qed.

Lemma Parse_FormatNano t : civilRange t → ParseRFC3339 (FormatRFC3339Nano t) = Some t.
Proof.
  intros Ht. pose proof (civilRange_day t Ht) as Hr. destruct Ht as [Ht _]. unfold FormatRFC3339Nano. destruct (civil (t / Day)) as [[y m] d] eqn:E.
  destruct (clock_parts t Ht) as (Hn & Hh & Hmi & Hs & Hc).
  destruct (civil_spec (t / Day) y m d) as (Hy & Hm & Hd & Hdn); [lia|done|].
  rewrite (Parse_layout _ _ _ _ _ _ _ (t mod Second)) by (try done; apply fraction_frac, Z.mod_pos_bound; done).
  rewrite Hdn, Hc. f_equal. lia.
Qed.

(** A written timestamp is its own trimmed form. *)
Lemma Trim_Format t : civilRange t → TrimSpace (FormatRFC3339 t) = FormatRFC3339 t.
Proof.
  intros Ht. apply TrimSpace_solid. pose proof (civilRange_day t Ht) as Hr. destruct Ht as [Ht _]. unfold FormatRFC3339. destruct (civil (t / Day)) as [[y m] d] eqn:E.
  destruct (clock_parts t Ht) as (Hn & Hh & Hmi & Hs & _).
  destruct (civil_spec (t / Day) y m d) as (Hy & Hm & Hd & _); [lia|done|].
  assert (daysIn m y ≤ 31) as H31 by (unfold daysIn; repeat case_match; lia).
  assert (∀ w z, (0 < w)%nat → 0 ≤ z < 10 ^ Z.of_nat w → solid (pad w z) = true) as Hp.
  { intros w z Hw Hz. apply solid_digits. by apply pad_spec. }
  rewrite !solid_app, !Hp by (change (Z.of_nat 4) with 4; change (Z.of_nat 2) with 2; lia). done.
Qed.

Lemma Format_nonempty t : civilRange t → FormatRFC3339 t ≠ "".
Proof. intros Ht E. pose proof (Parse_Format t Ht) as H. by rewrite E in H. Qed.
