(* ===== verification/Prog.v ===== *)
(** * Prog: programs that call a store, their executions and a monitor logic

    Code that talks to an interface is a tree: it either returns or performs
    one operation and continues with the answer, whatever it is.  An execution
    ([exec]) is a sequence of operations with their answers; stopping it
    anywhere is a crash.  A monitor watches the operations; [wp] says that a
    program keeps a monitor satisfied whatever the answers are, and is proved
    once for each procedure and composed.  [run] interprets a program against a
    concrete state machine. *)

From S2P Require Import Prelude.

(** ** Programs *)

Inductive prog (E : Type → Type) (A : Type) : Type :=
| Ret (a : A)
| Vis {X : Type} (e : E X) (k : X → prog E A).
Arguments Ret {E A} a.
Arguments Vis {E A X} e k.

Fixpoint bind {E A B} (p : prog E A) (f : A → prog E B) : prog E B :=
  match p with
  | Ret a => f a
  | Vis e k => Vis e (λ x, bind (k x) f)
  end.

Definition trigger {E X} (e : E X) : prog E X := Vis e Ret.

Declare Scope prog_scope.
Delimit Scope prog_scope with prog.
Notation "'let*' x := p 'in' q" := (bind p (λ x, q))
  (at level 200, x pattern, p at level 100, q at level 200, right associativity) : prog_scope.
#[global] Open Scope prog_scope.

(** A loop over a list that stops at the first error, as Go's
    [for ... { if err := ...; err != nil { return err } }]. *)
Fixpoint forEach {E A B} (l : list A) (f : A → prog E (option B)) : prog E (option B) :=
  match l with
  | [] => Ret None
  | x :: l' =>
      let* err := f x in
      match err with Some e => Ret (Some e) | None => forEach l' f end
  end.

(** ** Executions *)

(** An operation with the answer it got. *)
Inductive event (E : Type → Type) : Type :=
| Ev {X : Type} (e : E X) (x : X).
Arguments Ev {E X} e x.

(** [exec p tr q]: performing the operations [tr] takes [p] to [q]. *)
Inductive exec {E : Type → Type} {A : Type} : prog E A → list (event E) → prog E A → Prop :=
| exec_nil p : exec p [] p
| exec_step {X} (e : E X) k x tr q : exec (k x) tr q → exec (Vis e k) (Ev e x :: tr) q.

(** Executions of a sequence are an execution of the first part, then of the
    rest. *)
Lemma exec_bind {E A B} (p : prog E A) (f : A → prog E B) tr1 a tr2 q :
  exec p tr1 (Ret a) → exec (f a) tr2 q → exec (bind p f) (tr1 ++ tr2) q.
Proof.
  intros Hp Hf. remember (Ret a) as r eqn:Hr. induction Hp as [p|X e k x tr q' _ IH].
  - by subst.
  - cbn. constructor. by apply IH.
Qed.

(** An execution of [Vis e k] starts with [e] and some answer. *)
Lemma exec_Vis {E A X} (e : E X) (k : X → prog E A) ev tr q :
  exec (Vis e k) (ev :: tr) q → ∃ x, ev = Ev e x ∧ exec (k x) tr q.
Proof.
  assert (∀ (p : prog E A) (tr' : list (event E)) (q' : prog E A), exec p tr' q' →
    match p, tr' with
    | Vis e k, ev :: tr => ∃ x, ev = Ev e x ∧ exec (k x) tr q'
    | _, _ => True
    end) as H.
  { intros p tr' q' Hx. destruct Hx as [p0|]; [by destruct p0|eauto]. }
  intros He. by apply H in He.
Qed.

Lemma exec_Ret {E A} (a : A) tr (q : prog E A) : exec (Ret a) tr q → tr = [] ∧ q = Ret a.
Proof.
  assert (∀ (p : prog E A) tr' q', exec p tr' q' → match p with Ret a => tr' = [] ∧ q' = Ret a | _ => True end) as H.
  { intros p tr' q' Hx. destruct Hx as [p0|]; [by destruct p0|done]. }
  intros He. by apply H in He.
Qed.

(** ** Monitors *)

(** A monitor has a state, an allowed set of operations in each state, and a
    transition on each answered operation. *)
Record monitor (E : Type → Type) (S : Type) := Monitor {
  allowed : S → ∀ X, E X → Prop;
  next : S → ∀ X, E X → X → S
}.
Arguments Monitor {E S}.
Arguments allowed {E S} m s {X} e.
Arguments next {E S} m s {X} e x.

Section wp.
Context {E : Type → Type} {S : Type} (M : monitor E S).

(** Along [tr] from state [s] every operation is allowed. *)
Fixpoint accepts (s : S) (tr : list (event E)) : Prop :=
  match tr with
  | [] => True
  | Ev e x :: tr' => allowed M s e ∧ accepts (next M s e x) tr'
  end.

Definition after (s : S) (tr : list (event E)) : S :=
  foldl (λ s ev, match ev with Ev e x => next M s e x end) s tr.

(** From [s], whatever the answers, [p] only performs allowed operations and
    returns in a state and with a value in [Q]. *)
Fixpoint wp {A} (p : prog E A) (s : S) (Q : A → S → Prop) : Prop :=
  match p with
  | Ret a => Q a s
  | Vis e k => allowed M s e ∧ ∀ x, wp (k x) (next M s e x) Q
  end.

Lemma wp_mono {A} (p : prog E A) s (Q Q' : A → S → Prop) :
  wp p s Q → (∀ a s', Q a s' → Q' a s') → wp p s Q'.
Proof.
  intros Hp HQ. revert s Hp. induction p as [a|X e k IH]; intros s Hp; cbn in *; [auto|].
  destruct Hp as [Ha Hk]. split; [done|]. intros x. by apply IH.
Qed.

Lemma wp_bind {A B} (p : prog E A) (f : A → prog E B) s (Q : B → S → Prop) :
  wp p s (λ a s', wp (f a) s' Q) → wp (bind p f) s Q.
Proof.
  revert s. induction p as [a|X e k IH]; intros s Hp; cbn in *; [done|].
  destruct Hp as [Ha Hk]. split; [done|]. intros x. by apply IH.
Qed.

(** The two rules composed: a specification of [p] serves any continuation. *)
Lemma wp_seq {A B} (p : prog E A) (f : A → prog E B) s (R : A → S → Prop) (Q : B → S → Prop) :
  wp p s R → (∀ a s', R a s' → wp (f a) s' Q) → wp (bind p f) s Q.
Proof. intros Hp Hf. apply wp_bind. by eapply wp_mono. Qed.

(** A loop with an invariant. *)
Lemma wp_forEach {A B} (I : S → Prop) (l : list A) (f : A → prog E (option B)) s (Q : option B → S → Prop) :
  I s → (∀ s', I s' → Q None s') →
  (∀ x s', x ∈ l → I s' → wp (f x) s' (λ err s'', match err with Some _ => Q err s'' | None => I s'' end)) →
  wp (forEach l f) s Q.
Proof.
  intros Hs HQ. revert s Hs. induction l as [|x l IH]; intros s Hs Hf; cbn; [auto|].
  eapply wp_seq; [apply Hf; [left|done]|]. intros [b|] s' H; cbn; [done|].
  apply IH; [done|]. intros y s'' Hy. apply Hf. by right.
Qed.

(** ** Soundness *)

Lemma wp_exec {A} (p : prog E A) s Q tr q : exec p tr q → wp p s Q → accepts s tr ∧ wp q (after s tr) Q.
Proof.
  intros He. revert s. induction He as [p|X e k x tr q _ IH]; intros s Hp; cbn in *; [done|].
  destruct Hp as [Ha Hk]. destruct (IH _ (Hk x)) as [H1 H2]. done.
Qed.

(** Every execution, stopped anywhere, keeps the monitor satisfied. *)
Lemma wp_sound {A} (p : prog E A) s Q tr q : wp p s Q → exec p tr q → accepts s tr.
Proof. intros Hw He. by destruct (wp_exec p s Q tr q He Hw). Qed.

Lemma wp_sound_ret {A} (p : prog E A) s Q tr a : wp p s Q → exec p tr (Ret a) → Q a (after s tr).
Proof. intros Hw He. by destruct (wp_exec p s Q tr (Ret a) He Hw). Qed.

Lemma accepts_app s tr1 tr2 : accepts s (tr1 ++ tr2) ↔ accepts s tr1 ∧ accepts (after s tr1) tr2.
Proof.
  revert s. induction tr1 as [|[X e x] tr1 IH]; intros s; cbn; [tauto|]. rewrite IH. unfold after. cbn. tauto.
Qed.

Lemma after_app s tr1 tr2 : after s (tr1 ++ tr2) = after (after s tr1) tr2.
Proof. apply foldl_app. Qed.
End wp.

(** ** Footprints *)

(** [uses F p]: whatever the answers, every operation of [p] is in [F]. *)
Fixpoint uses {E A} (F : ∀ X, E X → Prop) (p : prog E A) : Prop :=
  match p with
  | Ret _ => True
  | Vis e k => F _ e ∧ ∀ x, uses F (k x)
  end.

Lemma uses_bind {E A B} F (p : prog E A) (f : A → prog E B) :
  uses F p → (∀ a, uses F (f a)) → uses F (bind p f).
Proof.
  intros Hp Hf. induction p as [a|X e k IH]; cbn in *; [done|].
  destruct Hp as [He Hk]. split; [done|]. intros x. by apply IH.
Qed.

Lemma uses_any {E A} (p : prog E A) : uses (λ _ _, True) p.
Proof. by induction p as [a|X e k IH]; cbn. Qed.

Lemma uses_mono {E A} (F G : ∀ X, E X → Prop) (p : prog E A) :
  uses F p → (∀ X (e : E X), F X e → G X e) → uses G p.
Proof.
  intros Hp HFG. induction p as [a|X e k IH]; cbn in *; [done|].
  destruct Hp as [He Hk]. split; [auto|]. intros x. by apply IH.
Qed.

Lemma uses_forEach {E A B} F (l : list A) (f : A → prog E (option B)) :
  (∀ x, x ∈ l → uses F (f x)) → uses F (forEach l f).
Proof.
  induction l as [|x l IH]; intros Hf; cbn; [done|].
  apply uses_bind; [apply Hf; left|]. intros [b|]; [done|]. apply IH. intros y Hy. apply Hf. by right.
Qed.

(** A monitor that ignores the operations of a footprint passes over a
    program that has it. *)
Definition ignores {E S} (M : monitor E S) (F : ∀ X, E X → Prop) : Prop :=
  ∀ s X (e : E X), F X e → allowed M s e ∧ ∀ x, next M s e x = s.

Lemma wp_uses {E S A} (M : monitor E S) F (p : prog E A) s (Q : A → S → Prop) :
  ignores M F → uses F p → (∀ a, Q a s) → wp M p s Q.
Proof.
  intros HM Hp HQ. induction p as [a|X e k IH]; cbn in *; [done|].
  destruct Hp as [He Hk]. destruct (HM s X e He) as [Ha Hn]. split; [done|].
  intros x. rewrite Hn. by apply IH.
Qed.

Lemma uses_exec {E A} F (p : prog E A) tr q :
  uses F p → exec p tr q → ∀ X (e : E X) x, Ev e x ∈ tr → F X e.
Proof.
  intros Hp He. induction He as [p|X e k x tr q _ IH]; intros Y e' y Hin; [set_solver|].
  destruct Hp as [HF Hk]. apply elem_of_cons in Hin as [Heq|Hin]; [|by eapply IH].
  refine (match Heq in _ = ev return match ev with Ev e0 _ => F _ e0 → F Y e' end with eq_refl => λ H, H end HF).
Qed.

(** ** Interpretation *)

(** A state machine that answers the operations. *)
Definition machine (E : Type → Type) (T : Type) := ∀ X, E X → T → X * T.

Fixpoint run {E T A} (h : machine E T) (p : prog E A) (t : T) : A * T :=
  match p with
  | Ret a => (a, t)
  | Vis e k => let '(x, t') := h _ e t in run h (k x) t'
  end.

Lemma run_bind {E T A B} (h : machine E T) (p : prog E A) (f : A → prog E B) t :
  run h (bind p f) t = let '(a, t') := run h p t in run h (f a) t'.
Proof.
  revert t. induction p as [a|X e k IH]; intros t; cbn; [done|].
  destruct (h X e t) as [x t']. apply IH.
Qed.

(** ** Crashes *)

(** The state after at most [n] operations: the machine stopped there. *)
Fixpoint runN {E T A} (n : nat) (h : machine E T) (p : prog E A) (t : T) : T :=
  match n, p with
  | S n', Vis e k => let '(x, t') := h _ e t in runN n' h (k x) t'
  | _, _ => t
  end.

(** [I] holds in every state a run goes through. *)
Fixpoint always {E T A} (h : machine E T) (I : T → Prop) (p : prog E A) (t : T) : Prop :=
  I t ∧ match p with
        | Ret _ => True
        | Vis e k => let '(x, t') := h _ e t in always h I (k x) t'
        end.

Lemma always_runN {E T A} (h : machine E T) I (p : prog E A) t n : always h I p t → I (runN n h p t).
Proof.
  revert p t. induction n as [|n IH]; intros p t Hp; [by destruct p, Hp|].
  destruct p as [a|X e k]; cbn in *; [by destruct Hp|].
  destruct (h X e t) as [x t']. apply IH, Hp.
Qed.

Lemma always_bind {E T A B} (h : machine E T) I (p : prog E A) (f : A → prog E B) t :
  always h I p t → (let '(a, t') := run h p t in always h I (f a) t') → always h I (bind p f) t.
Proof.
  revert t. induction p as [a|X e k IH]; intros t Hp Hf; cbn in *; [done|].
  destruct Hp as [Ht Hp]. split; [done|]. destruct (h X e t) as [x t']. by apply IH.
Qed.

(** The two together: the run ends in [Q], through states in [I]. *)
Fixpoint settles {E T A} (h : machine E T) (I : T → Prop) (p : prog E A) (t : T) (Q : A → T → Prop) : Prop :=
  I t ∧ match p with
        | Ret a => Q a t
        | Vis e k => let '(x, t') := h _ e t in settles h I (k x) t' Q
        end.

Lemma settles_run {E T A} (h : machine E T) I (p : prog E A) t Q : settles h I p t Q → Q (run h p t).1 (run h p t).2.
Proof.
  revert t. induction p as [a|X e k IH]; intros t [_ Hp]; cbn; [done|].
  destruct (h X e t) as [x t']. by apply IH.
Qed.

Lemma settles_runN {E T A} (h : machine E T) I (p : prog E A) t Q n : settles h I p t Q → I (runN n h p t).
Proof.
  revert p t. induction n as [|n IH]; intros p t Hp; [by destruct p, Hp|].
  destruct p as [a|X e k]; cbn in *; [by destruct Hp|]. destruct (h X e t) as [x t']. apply IH, Hp.
Qed.

Lemma settles_mono {E T A} (h : machine E T) I (p : prog E A) t Q Q' :
  settles h I p t Q → (∀ a t', I t' → Q a t' → Q' a t') → settles h I p t Q'.
Proof.
  intros Hp HQ. revert t Hp. induction p as [a|X e k IH]; intros t [Ht Hp]; cbn; [auto|].
  split; [done|]. destruct (h X e t) as [x t']. by apply IH.
Qed.

Lemma settles_bind {E T A B} (h : machine E T) I (p : prog E A) (f : A → prog E B) t Q :
  settles h I p t (λ a t', settles h I (f a) t' Q) → settles h I (bind p f) t Q.
Proof.
  revert t. induction p as [a|X e k IH]; intros t [Ht Hp]; cbn; [done|].
  split; [done|]. destruct (h X e t) as [x t']. by apply IH.
Qed.

(** The operations a run performs; a run is one of the executions, so what
    holds of all executions holds of it. *)
Fixpoint runTrace {E T A} (h : machine E T) (p : prog E A) (t : T) : list (event E) :=
  match p with
  | Ret a => []
  | Vis e k => let '(x, t') := h _ e t in Ev e x :: runTrace h (k x) t'
  end.

Lemma runTrace_exec {E T A} (h : machine E T) (p : prog E A) t :
  exec p (runTrace h p t) (Ret (run h p t).1).
Proof.
  revert t. induction p as [a|X e k IH]; intros t; cbn; [constructor|].
  destruct (h X e t) as [x t']. constructor. apply IH.
Qed.

(** ** Histories *)

(** A monitor whose state is the history: each operation is judged by what was
    performed and answered before it. *)
Definition histMonitor {E} (P : list (event E) → ∀ X, E X → Prop) : monitor E (list (event E)) :=
  Monitor P (λ hist X e x, hist ++ [Ev e x]).

Lemma hist_after {E} (P : list (event E) → ∀ X, E X → Prop) hist tr : after (histMonitor P) hist tr = hist ++ tr.
Proof.
  revert hist. induction tr as [|[X e x] tr IH]; intros hist; cbn; [by rewrite app_nil_r|].
  unfold after in IH. cbn in IH. rewrite IH, <-app_assoc. done.
Qed.

(** A program whose operations are allowed at any time extends the history. *)
Lemma wp_hist_uses {E A} (P : list (event E) → ∀ X, E X → Prop) F (p : prog E A) hist (Q : A → list (event E) → Prop) :
  (∀ hist X (e : E X), F X e → P hist X e) → uses F p → (∀ a ext, Q a (hist ++ ext)) →
  wp (histMonitor P) p hist Q.
Proof.
  intros HF Hp. revert hist. induction p as [a|X e k IH]; intros hist HQ; cbn in *.
  { rewrite <-(app_nil_r hist). apply HQ. }
  destruct Hp as [He Hk]. split; [by apply HF|]. intros x. apply IH; [done|].
  intros a ext. rewrite <-app_assoc. apply HQ.
Qed.

(** What a history monitor guarantees of an execution. *)
Lemma hist_sound {E A} (P : list (event E) → ∀ X, E X → Prop) (p : prog E A) Q tr1 X (e : E X) x tr2 q :
  wp (histMonitor P) p [] Q → exec p (tr1 ++ Ev e x :: tr2) q → P tr1 X e.
Proof.
  intros Hw He. pose proof (wp_sound _ _ _ _ _ _ Hw He) as Ha. apply accepts_app in Ha as [_ Ha].
  rewrite hist_after in Ha. by destruct Ha.
Qed.
