(* ===== verification/ConvMeta.v ===== *)
(** * ConvMeta: the convergence vocabulary and its pure functions

    Models the pure part of [internal/convergence]: the metadata vocabulary and
    codecs ([metadata.go]), gate and trigger configuration ([gate.go],
    [trigger.go], [hybrid.go]), idempotency keys and event identifiers
    ([handler.go], [events.go]), child statistics ([childstats.go]), bounded
    output capture ([capture.go]), the access rules ([acl.go]) and the small
    projections of [depfilter.go], [gate_output.go], [template.go],
    [formula.go] and [evaluate.go]. *)

From Stdlib Require Import Ascii.
From S2P Require Import Prelude GoBase GoText.

Local Open Scope Z_scope.

(** ** Errors *)

(** A format argument. *)
Inductive arg := AStr (s : string) | AInt (z : Z) | ADur (z : Z).

(** [StoreErr] is an error of the store behind the interface, with whether it
    wraps [beads.ErrNotFound]; the others are [fmt.Errorf] without and with
    wrapped causes. *)
Inductive error :=
| StoreErr (notFound : bool) (msg : string)
| Errorf (format : string) (args : list arg)
| Wrapf (format : string) (args : list arg) (causes : list error).

(** [errors.Is err beads.ErrNotFound]. *)
Fixpoint IsNotFound (e : error) : bool :=
  match e with
  | StoreErr nf _ => nf
  | Errorf _ _ => false
  | Wrapf _ _ es => existsb IsNotFound es
  end.

(** The value a Go function returns with a nil error, or the error (its value
    is then the zero value, which no caller reads). *)
Abbreviation result A := (res error A).

Abbreviation metadata := (gmap string string).

(** ** Metadata vocabulary *)

Definition FieldState : string := "convergence.state".
Definition FieldIteration : string := "convergence.iteration".
Definition FieldMaxIterations : string := "convergence.max_iterations".
Definition FieldFormula : string := "convergence.formula".
Definition FieldTarget : string := "convergence.target".
Definition FieldGateMode : string := "convergence.gate_mode".
Definition FieldGateCondition : string := "convergence.gate_condition".
Definition FieldGateTimeout : string := "convergence.gate_timeout".
Definition FieldGateTimeoutAction : string := "convergence.gate_timeout_action".
Definition FieldActiveWisp : string := "convergence.active_wisp".
Definition FieldLastProcessedWisp : string := "convergence.last_processed_wisp".
Definition FieldAgentVerdict : string := "convergence.agent_verdict".
Definition FieldAgentVerdictWisp : string := "convergence.agent_verdict_wisp".
Definition FieldGateOutcome : string := "convergence.gate_outcome".
Definition FieldGateExitCode : string := "convergence.gate_exit_code".
Definition FieldGateOutcomeWisp : string := "convergence.gate_outcome_wisp".
Definition FieldGateRetryCount : string := "convergence.gate_retry_count".
Definition FieldTerminalReason : string := "convergence.terminal_reason".
Definition FieldTerminalActor : string := "convergence.terminal_actor".
Definition FieldWaitingReason : string := "convergence.waiting_reason".
Definition FieldRetrySource : string := "convergence.retry_source".
Definition FieldCityPath : string := "convergence.city_path".
Definition FieldRig : string := "convergence.rig".
Definition FieldEvaluatePrompt : string := "convergence.evaluate_prompt".
Definition FieldGateStdout : string := "convergence.gate_stdout".
Definition FieldGateStderr : string := "convergence.gate_stderr".
Definition FieldGateDurationMs : string := "convergence.gate_duration_ms".
Definition FieldGateTruncated : string := "convergence.gate_truncated".
Definition FieldPendingNextWisp : string := "convergence.pending_next_wisp".
Definition FieldTrigger : string := "convergence.trigger".
Definition FieldTriggerCondition : string := "convergence.trigger_condition".

Definition VarPrefix : string := "var.".

Definition StateCreating : string := "creating".
Definition StateActive : string := "active".
Definition StateWaitingManual : string := "waiting_manual".
Definition StateWaitingTrigger : string := "waiting_trigger".
Definition StateTerminated : string := "terminated".

Definition TriggerNone : string := "".
Definition TriggerEvent : string := "event".

Definition GateModeManual : string := "manual".
Definition GateModeCondition : string := "condition".
Definition GateModeHybrid : string := "hybrid".

Definition TimeoutActionIterate : string := "iterate".
Definition TimeoutActionRetry : string := "retry".
Definition TimeoutActionManual : string := "manual".
Definition TimeoutActionTerminate : string := "terminate".

Definition TerminalApproved : string := "approved".
Definition TerminalNoConvergence : string := "no_convergence".
Definition TerminalStopped : string := "stopped".
Definition TerminalPartialCreation : string := "partial_creation".

Definition GatePass : string := "pass".
Definition GateFail : string := "fail".
Definition GateTimeout : string := "timeout".
Definition GateError : string := "error".

Definition WaitManual : string := "manual".
Definition WaitHybridNoCondition : string := "hybrid_no_condition".
Definition WaitTimeout : string := "timeout".
Definition WaitSlingFailure : string := "sling_failure".

Definition VerdictApprove : string := "approve".
Definition VerdictApproveWithRisks : string := "approve-with-risks".
Definition VerdictBlock : string := "block".

Definition pastTenseMap : gmap string string :=
  list_to_map [("approved", VerdictApprove); ("blocked", VerdictBlock);
    ("approve-with-risk", VerdictApproveWithRisks); ("approved-with-risks", VerdictApproveWithRisks);
    ("approved-with-risk", VerdictApproveWithRisks)].

Definition NormalizeVerdict `{UnicodeTables} (raw : string) : string :=
  let v := ToLower (TrimSpace raw) in
  if v == "" then VerdictBlock
  else match pastTenseMap !! v with
       | Some mapped => mapped
       | None => if (v == VerdictApprove) || (v == VerdictApproveWithRisks) || (v == VerdictBlock)
                 then v else VerdictBlock
       end.

(** ** Codecs *)

Definition EncodeInt (n : Z) : string := Itoa n.

Definition DecodeInt (s : string) : Z * bool :=
  if s == "" then (0, false)
  else match Atoi s with Some n => (n, true) | None => (0, false) end.

(** [time.ParseDuration]: a parameter, [None] on a malformed duration. *)
Class DurationParser := { ParseDuration : string → option Z }.

Definition DecodeDuration `{DurationParser} (s : string) : Z * bool :=
  if s == "" then (0, false)
  else match ParseDuration s with Some d => (d, true) | None => (0, false) end.

Definition MetadataPresent (meta : metadata) (key : string) : string * bool :=
  (meta.[key], bool_decide (is_Some (meta !! key))).

(** ** Gate and trigger configuration *)

Definition DefaultGateTimeout : Z := 5 * Minute.
Definition MaxGateRetries : Z := 3.

Record GateConfig := mkGateConfig {
  gcMode : string;
  gcCondition : string;
  gcTimeout : Z;
  gcTimeoutAction : string
}.

Record GateResult := mkGateResult {
  grOutcome : string;
  grExitCode : option Z;
  grRetryCount : Z;
  grStdout : string;
  grStderr : string;
  grDuration : Z;
  grTruncated : bool
}.

Definition zeroGateResult : GateResult := mkGateResult "" None 0 "" "" 0 false.

Definition GateManualResult : GateResult := mkGateResult GatePass None 0 "" "" 0 false.

Definition ParseGateConfig `{DurationParser} (meta : metadata) : result GateConfig :=
  let mode := if meta.[FieldGateMode] == "" then GateModeManual else meta.[FieldGateMode] in
  if negb ((mode == GateModeManual) || (mode == GateModeCondition) || (mode == GateModeHybrid))
  then Err (Errorf "parsing gate config: invalid gate mode %q" [AStr mode])
  else
    let raw := meta.[FieldGateTimeout] in
    let timeout :=
      if raw != "" then
        let '(d, valid) := DecodeDuration raw in
        if negb valid then Err (Errorf "parsing gate config: invalid gate timeout %q" [AStr raw])
        else if d <=? 0 then Err (Errorf "parsing gate config: gate timeout must be positive, got %v" [ADur d])
        else Ok d
      else Ok DefaultGateTimeout in
    match timeout with
    | Err e => Err e
    | Ok timeout =>
        let raw := meta.[FieldGateTimeoutAction] in
        let action :=
          if raw != "" then
            if (raw == TimeoutActionIterate) || (raw == TimeoutActionRetry) ||
               (raw == TimeoutActionManual) || (raw == TimeoutActionTerminate)
            then Ok raw
            else Err (Errorf "parsing gate config: invalid gate timeout action %q" [AStr raw])
          else Ok TimeoutActionIterate in
        match action with
        | Err e => Err e
        | Ok timeoutAction => Ok (mkGateConfig mode meta.[FieldGateCondition] timeout timeoutAction)
        end
    end.

Definition NeedsConditionExecution (gc : GateConfig) : bool :=
  if gc.(gcMode) == GateModeManual then false
  else if (gc.(gcMode) == GateModeCondition) || (gc.(gcMode) == GateModeHybrid)
  then gc.(gcCondition) != "" else false.

Definition HybridNeedsManual (cfg : GateConfig) : bool := cfg.(gcCondition) == "".

Record TriggerConfig := mkTriggerConfig { tcMode : string; tcCondition : string }.

Definition Enabled (tc : TriggerConfig) : bool := tc.(tcMode) == TriggerEvent.

Definition ParseTriggerConfig (meta : metadata) : result TriggerConfig :=
  let mode := meta.[FieldTrigger] in
  let condition := meta.[FieldTriggerCondition] in
  if mode == TriggerNone then Ok (mkTriggerConfig TriggerNone "")
  else if mode == TriggerEvent then
    if condition == ""
    then Err (Errorf "parsing trigger config: trigger mode %q requires a trigger condition path" [AStr TriggerEvent])
    else Ok (mkTriggerConfig TriggerEvent condition)
  else Err (Errorf "parsing trigger config: invalid trigger mode %q" [AStr mode]).

(** ** Idempotency keys *)

Definition IdempotencyKeyPrefix (beadID : string) : string := "converge:" +:+ beadID +:+ ":iter:".

Definition IdempotencyKey (beadID : string) (iteration : Z) : string :=
  "converge:" +:+ beadID +:+ ":iter:" +:+ Itoa iteration.

Definition ParseIterationFromKey (key : string) : Z * bool :=
  match LastIndex key ":iter:" with
  | None => (0, false)
  | Some idx =>
      match Atoi (sdrop (idx + String.length ":iter:") key) with
      | None => (0, false)
      | Some n => if n <? 0 then (0, false) else (n, true)
      end
  end.

(** ** Child statistics *)

Record BeadInfo := mkBeadInfo {
  biID : string;
  biStatus : string;
  biParentID : string;
  biIdempotencyKey : string;
  biCreatedAt : Z;
  biClosedAt : Z
}.

Definition zeroBeadInfo : BeadInfo := mkBeadInfo "" "" "" "" 0 0.

Record ChildStats := mkChildStats {
  ClosedCount : Z;
  CumulativeDur : Z;
  HighestClosed : BeadInfo;
  HighestClosedIter : Z;
  HighestClosedFound : bool;
  HighestOpen : BeadInfo;
  HighestOpenIter : Z;
  HighestOpenFound : bool
}.

Definition zeroChildStats : ChildStats :=
  mkChildStats 0 0 zeroBeadInfo (-1) false zeroBeadInfo (-1) false.

(** One turn of the loop of [childStats]; the number of children of a slice
    bounds the counter, so it does not wrap. *)
Definition childStatsStep (prefix : string) (st : ChildStats) (child : BeadInfo) : ChildStats :=
  if negb (HasPrefix child.(biIdempotencyKey) prefix) then st
  else
    let '(iter, iterOK) := ParseIterationFromKey child.(biIdempotencyKey) in
    if child.(biStatus) == "closed" then
      let cum := if negb (IsZero child.(biClosedAt)) && negb (IsZero child.(biCreatedAt))
                 then wrap64 (st.(CumulativeDur) + timeSub child.(biClosedAt) child.(biCreatedAt))
                 else st.(CumulativeDur) in
      let better := iterOK && (st.(HighestClosedIter) <? iter) in
      mkChildStats (st.(ClosedCount) + 1) cum
        (if better then child else st.(HighestClosed))
        (if better then iter else st.(HighestClosedIter))
        (if better then true else st.(HighestClosedFound))
        st.(HighestOpen) st.(HighestOpenIter) st.(HighestOpenFound)
    else if (child.(biStatus) == "open") || (child.(biStatus) == "in_progress") then
      let better := iterOK && (st.(HighestOpenIter) <? iter) in
      mkChildStats st.(ClosedCount) st.(CumulativeDur)
        st.(HighestClosed) st.(HighestClosedIter) st.(HighestClosedFound)
        (if better then child else st.(HighestOpen))
        (if better then iter else st.(HighestOpenIter))
        (if better then true else st.(HighestOpenFound))
    else st.

Definition childStats (children : list BeadInfo) (beadID : string) : ChildStats :=
  foldl (childStatsStep (IdempotencyKeyPrefix beadID)) zeroChildStats children.

Definition deriveIterationFromChildren (children : list BeadInfo) (beadID : string) : Z :=
  (childStats children beadID).(ClosedCount).

Definition highestClosedWisp (children : list BeadInfo) (beadID : string) : BeadInfo * Z * bool :=
  let s := childStats children beadID in
  (s.(HighestClosed), s.(HighestClosedIter), s.(HighestClosedFound)).

(** ** Bounded output capture *)

Definition MaxOutputBytes : Z := 4096.

Record boundedBuffer := mkBuffer { bufBytes : string; bufMax : Z; bufOverflow : bool }.

Definition newBoundedBuffer (maxBytes : Z) : boundedBuffer := mkBuffer "" maxBytes false.

Definition slen (s : string) : Z := Z.of_nat (String.length s).

(** [Write]: the buffer after it, and the count it reports. *)
Definition BufferWrite (b : boundedBuffer) (p : string) : boundedBuffer * Z :=
  let remaining := b.(bufMax) - slen b.(bufBytes) in
  if remaining <=? 0 then (mkBuffer b.(bufBytes) b.(bufMax) true, slen p)
  else if remaining <? slen p
  then (mkBuffer (b.(bufBytes) +:+ stake (Z.to_nat remaining) p) b.(bufMax) true, slen p)
  else (mkBuffer (b.(bufBytes) +:+ p) b.(bufMax) b.(bufOverflow), slen p).

(** The loop of [TruncateOutput] that backs off to a rune boundary; it stops
    after [utf8.UTFMax] steps, the fuel.  [data[end]] is in range: the caller
    has more than [maxBytes] bytes. *)
Fixpoint truncateEnd (fuel : nat) (data : string) (maxBytes end_ : Z) : Z :=
  match fuel with
  | O => end_
  | S fuel' =>
      if (0 <? end_) && (maxBytes - UTFMax <? end_) then
        match String.get (Z.to_nat end_) data with
        | Some c => if RuneStart c then end_ else truncateEnd fuel' data maxBytes (end_ - 1)
        | None => end_
        end
      else end_
  end.

Definition TruncateOutput (data : string) (maxBytes : Z) : string * bool :=
  if maxBytes <=? 0 then (if slen data =? 0 then ("", false) else ("", true))
  else if slen data <=? maxBytes then (data, false)
  else (stake (Z.to_nat (truncateEnd 4 data maxBytes maxBytes)) data, true).

(** ** Access rules *)

Definition ProtectedPrefix : string := "convergence.".
Definition TokenEnvVar : string := "GC_CONTROLLER_TOKEN".

Definition agentWritableKeys : list string := [FieldAgentVerdict; FieldAgentVerdictWisp].

Definition RequiresToken (key : string) : bool :=
  if HasPrefix key VarPrefix then true
  else if negb (HasPrefix key ProtectedPrefix) then false
  else negb (bool_decide (key ∈ agentWritableKeys)).

Definition ScrubTokenEnv (env : metadata) : metadata := delete TokenEnvVar env.

(** ** Projections of metadata *)

Definition MatchesDependencyFilter (meta filter : metadata) : bool :=
  forallb (λ kv, match meta !! kv.1 with Some actual => actual == kv.2 | None => false end)
    (map_to_list filter).

(** [ExtractVars]: the [var.*] entries, prefix stripped. *)
Definition ExtractVars (meta : metadata) : metadata :=
  list_to_map (omap (λ kv, if HasPrefix kv.1 VarPrefix then Some (TrimPrefix kv.1 VarPrefix, kv.2) else None)
    (map_to_list meta)).

Record GateOutput := mkGateOutput { goDurationMs : string; goExitCode : string; goStdout : string; goStderr : string }.

Definition GateOutputFromMetadata (meta : metadata) : GateOutput :=
  mkGateOutput meta.[FieldGateDurationMs] meta.[FieldGateExitCode] meta.[FieldGateStdout] meta.[FieldGateStderr].

Definition HasOutput (g : GateOutput) : bool := (g.(goStdout) != "") || (g.(goStderr) != "").

Definition newline : string := String (bchr 10) "".

Definition CombinedOutput (g : GateOutput) : string :=
  if g.(goStderr) != "" then
    (if g.(goStdout) != "" then g.(goStdout) +:+ newline else g.(goStdout)) +:+ g.(goStderr)
  else g.(goStdout).

Definition ArtifactDirFor (cityPath beadID : string) (iteration : Z) : string :=
  Join [cityPath; ".gc"; "artifacts"; beadID; "iter-" +:+ Itoa iteration].

Record TemplateContext := mkTemplateContext {
  tBeadID : string; tWispID : string; tIteration : Z; tArtifactDir : string;
  tFormula : string; tRetrySource : string; tVar : metadata
}.

Definition NewTemplateContext (cityPath beadID wispID formulaName : string) (iteration : Z)
    (beadMeta : metadata) (retrySource : string) : TemplateContext :=
  mkTemplateContext beadID wispID iteration (ArtifactDirFor cityPath beadID iteration)
    formulaName retrySource (ExtractVars beadMeta).

(** ** Formula validation *)

Record Formula := mkFormula {
  fName : string;
  fConvergence : bool;
  fRequiredVars : list string;
  fEvaluatePrompt : string;
  fStepNames : list string
}.

Definition EvaluateStepName : string := "evaluate".

(** [ValidateVarKey]: a Go identifier. *)
Definition ValidateVarKey `{UnicodeTables} (key : string) : bool :=
  if key == "" then false
  else match runes key with
       | [] => true
       | r0 :: rs =>
           (IsLetter r0.1 || (r0.1 =? 95)) &&
           forallb (λ r, IsLetter r.1 || IsDigit r.1 || (r.1 =? 95)) rs
       end.

(** The messages of [ValidateRequiredVars], in order; none means valid. *)
Definition ValidateRequiredVars `{UnicodeTables} (required : list string) (vars : metadata) : list error :=
  omap (λ key,
    if negb (ValidateVarKey key) then Some (Errorf "invalid var key %q: must be a valid identifier (letters, digits, underscores)" [AStr key])
    else match vars !! key with
         | None => Some (Errorf "missing required var %q" [AStr key])
         | Some _ => None
         end) required.

Definition evaluateRequiredSubstrings : list string := ["bd meta set"; "convergence.agent_verdict"].

(** [ValidateEvaluatePrompt]: the missing substrings; none means valid. *)
Definition ValidateEvaluatePrompt (content : string) : list string :=
  List.filter (λ sub, negb (Contains content sub)) evaluateRequiredSubstrings.

(** [ValidateForConvergence] with the prompt already read: the failed checks of
    the formula itself and of its prompt, in order. *)
Definition validateFormulaChecks (f : Formula) : list error :=
  (if f.(fConvergence) then [] else [Errorf "formula %q: convergence flag must be true" [AStr f.(fName)]]) ++
  map (λ name, Errorf "formula %q: step name %q is reserved for controller injection" [AStr f.(fName); AStr name])
    (List.filter (λ name, name == EvaluateStepName) f.(fStepNames)).

(** ** Events *)

Definition EventCreated : string := "convergence.created".
Definition EventIteration : string := "convergence.iteration".
Definition EventTerminated : string := "convergence.terminated".
Definition EventWaitingManual : string := "convergence.waiting_manual".
Definition EventManualApprove : string := "convergence.manual_approve".
Definition EventManualIterate : string := "convergence.manual_iterate".
Definition EventManualStop : string := "convergence.manual_stop".
Definition EventTriggerAdvance : string := "convergence.trigger_advance".

Definition EventIDCreated (beadID : string) : string := "converge:" +:+ beadID +:+ ":created".
Definition EventIDIteration (beadID : string) (iteration : Z) : string :=
  "converge:" +:+ beadID +:+ ":iter:" +:+ Itoa iteration +:+ ":iteration".
Definition EventIDWaitingManual (beadID : string) (iteration : Z) : string :=
  "converge:" +:+ beadID +:+ ":iter:" +:+ Itoa iteration +:+ ":waiting_manual".
Definition EventIDTerminated (beadID : string) : string := "converge:" +:+ beadID +:+ ":terminated".
Definition EventIDManualApprove (beadID : string) : string := "converge:" +:+ beadID +:+ ":manual_approve".
Definition EventIDManualIterate (beadID : string) (iteration : Z) : string :=
  "converge:" +:+ beadID +:+ ":iter:" +:+ Itoa iteration +:+ ":manual_iterate".
Definition EventIDManualStop (beadID : string) : string := "converge:" +:+ beadID +:+ ":manual_stop".
Definition EventIDTriggerAdvance (beadID : string) (iteration : Z) : string :=
  "converge:" +:+ beadID +:+ ":iter:" +:+ Itoa iteration +:+ ":trigger_advance".

Record GateResultPayload := mkGateResultPayload {
  gpExitCode : option Z; gpStdout : string; gpStderr : string; gpDurationMs : Z; gpTruncated : bool
}.

Record CreatedPayload := mkCreatedPayload {
  cpFormula : string; cpTarget : string; cpRig : string; cpGateMode : string; cpMaxIterations : Z;
  cpTitle : string; cpFirstWispID : string; cpRetrySource : option string
}.

Record IterationPayload := mkIterationPayload {
  ipRig : string; ipIteration : Z; ipWispID : string; ipAgentVerdict : string; ipGateMode : string;
  ipGateOutcome : option string; ipGateResult : option GateResultPayload; ipGateRetryCount : Z;
  ipAction : string; ipWaitingReason : option string; ipNextWispID : option string;
  ipIterationDurationMs : Z; ipCumulativeDurationMs : Z
}.

Record TerminatedPayload := mkTerminatedPayload {
  tpRig : string; tpTerminalReason : string; tpTotalIterations : Z; tpFinalStatus : string;
  tpActor : string; tpCumulativeDurationMs : Z
}.

Record WaitingManualPayload := mkWaitingManualPayload {
  wpRig : string; wpIteration : Z; wpWispID : string; wpAgentVerdict : string; wpGateMode : string;
  wpGateOutcome : option string; wpGateResult : option GateResultPayload; wpReason : string;
  wpIterationDurationMs : Z; wpCumulativeDurationMs : Z
}.

Record ManualActionPayload := mkManualActionPayload {
  mpRig : string; mpActor : string; mpPriorState : string; mpNewState : string; mpIteration : Z;
  mpWispID : option string; mpNextWispID : option string
}.

(** The payload values before JSON encoding. *)
Inductive Payload :=
| PCreated (p : CreatedPayload)
| PIteration (p : IterationPayload)
| PTerminated (p : TerminatedPayload)
| PWaitingManual (p : WaitingManualPayload)
| PManualAction (p : ManualActionPayload).

Definition NullableString (s : string) : option string := if s == "" then None else Some s.

Definition GateResultToPayload (r : GateResult) : option GateResultPayload :=
  if r.(grOutcome) == "" then None
  else Some (mkGateResultPayload r.(grExitCode) r.(grStdout) r.(grStderr) (Milliseconds r.(grDuration)) r.(grTruncated)).

(** The switch of [withEventRig]: [p.Rig = rig]. *)
Definition setRig (rig : string) (payload : Payload) : Payload :=
  match payload with
  | PCreated p => PCreated (mkCreatedPayload p.(cpFormula) p.(cpTarget) rig p.(cpGateMode) p.(cpMaxIterations)
      p.(cpTitle) p.(cpFirstWispID) p.(cpRetrySource))
  | PIteration p => PIteration (mkIterationPayload rig p.(ipIteration) p.(ipWispID) p.(ipAgentVerdict) p.(ipGateMode)
      p.(ipGateOutcome) p.(ipGateResult) p.(ipGateRetryCount) p.(ipAction) p.(ipWaitingReason) p.(ipNextWispID)
      p.(ipIterationDurationMs) p.(ipCumulativeDurationMs))
  | PTerminated p => PTerminated (mkTerminatedPayload rig p.(tpTerminalReason) p.(tpTotalIterations) p.(tpFinalStatus)
      p.(tpActor) p.(tpCumulativeDurationMs))
  | PWaitingManual p => PWaitingManual (mkWaitingManualPayload rig p.(wpIteration) p.(wpWispID) p.(wpAgentVerdict)
      p.(wpGateMode) p.(wpGateOutcome) p.(wpGateResult) p.(wpReason) p.(wpIterationDurationMs) p.(wpCumulativeDurationMs))
  | PManualAction p => PManualAction (mkManualActionPayload rig p.(mpActor) p.(mpPriorState) p.(mpNewState)
      p.(mpIteration) p.(mpWispID) p.(mpNextWispID))
  end.
