(* ===== verification/ConvMetaProps.v ===== *)
(** * ConvMetaProps: correctness of the pure convergence functions

    Idempotency keys and event identifiers are injective and keys parse back;
    verdicts normalise to three values; a parsed gate configuration is within
    its ranges; captured output is a bounded prefix cut at a rune boundary; the
    child statistics are the counts and maxima their documentation says. *)

From Stdlib Require Import Ascii.
From S2P Require Import Prelude GoBase GoText ConvMeta.

Local Open Scope Z_scope.

(** Membership in a literal list from the matching chain of string tests. *)
Ltac in_list H :=
  rewrite !orb_true_iff, !bool_decide_eq_true in H; rewrite list_elem_of_In; cbn; intuition congruence.

(** ** Splitting at the last colon *)

Fixpoint noChar (c : ascii) (s : string) : bool :=
  match s with EmptyString => true | String d r => negb (Ascii.eqb d c) && noChar c r end.

Lemma LastIndex_noChar c p s : noChar c s = true → LastIndex s (String c p) = None.
Proof.
  induction s as [|d s IH]; intros Hs; [done|]. cbn in Hs. apply andb_true_iff in Hs as [Hd Hs].
  cbn -[String.prefix]. rewrite IH by done. cbn. destruct (ascii_dec c d) as [->|]; [|done].
  by rewrite Ascii.eqb_refl in Hd.
Qed.

Lemma LastIndex_last a c x : noChar c x = true → LastIndex (a +:+ String c x) (String c "") = Some (String.length a).
Proof.
  intros Hx. rewrite <-(Nat.add_0_r (String.length a)). apply LastIndex_app_l.
  cbn -[String.prefix]. rewrite LastIndex_noChar by done. cbn. destruct (ascii_dec c c); [|done].
  by destruct x.
Qed.

Lemma string_app_inj_same_length a b x y :
  String.length a = String.length b → a +:+ x = b +:+ y → a = b ∧ x = y.
Proof.
  revert b. induction a as [|c a IH]; intros [|d b] Hl He; cbn in Hl; try lia; [done|].
  rewrite !string_app_cons in He. injection He as -> He.
  destruct (IH b ltac:(lia) He) as [-> ->]. done.
Qed.

(** The text after the last separator and the text before it are determined. *)
Lemma last_sep_inj c a b x y :
  noChar c x = true → noChar c y = true → a +:+ String c x = b +:+ String c y → a = b ∧ x = y.
Proof.
  intros Hx Hy He. pose proof (LastIndex_last a c x Hx) as H1. rewrite He, LastIndex_last in H1 by done.
  injection H1 as H1. destruct (string_app_inj_same_length a b (String c x) (String c y)) as [-> [=]]; auto.
Qed.

Lemma string_app_inj_r a b x : a +:+ x = b +:+ x → a = b.
Proof.
  intros He. apply (string_app_inj_same_length a b x x); [|done].
  apply (f_equal String.length) in He. rewrite !length_string_app in He. lia.
Qed.

Lemma noChar_digits c s : allDigits s = true → isDigit c = false → noChar c s = true.
Proof.
  intros Hs Hc. induction s as [|d s IH]; [done|]. cbn in *. apply andb_true_iff in Hs as [Hd Hs].
  rewrite IH by done. destruct (Ascii.eqb_spec d c) as [->|]; [congruence|done].
Qed.

Lemma Itoa_noColon n : 0 ≤ n → noChar ":" (Itoa n) = true.
Proof. intros Hn. apply noChar_digits; [by apply Itoa_digits|done]. Qed.

(** ** Idempotency keys *)

Lemma prefix_digits s c p : allDigits s = true → isDigit c = false → String.prefix (String c p) s = false.
Proof.
  intros Hs Hc. destruct s as [|d s]; [done|]. cbn in Hs. apply andb_true_iff in Hs as [Hd _]. cbn.
  destruct (ascii_dec c d) as [->|]; [congruence|done].
Qed.

Lemma LastIndex_iter_digits s : allDigits s = true → LastIndex (":iter:" +:+ s) ":iter:" = Some 0%nat.
Proof.
  intros Hs. rewrite !string_app_cons, string_app_nil_l.
  cbn [LastIndex]. rewrite (LastIndex_digits s ":" "iter:" Hs eq_refl).
  pose proof (prefix_digits s "i" "ter:" Hs eq_refl) as Hp. cbn in Hp |- *. rewrite Hp. by destruct s.
Qed.

(** Every idempotency key parses back to its iteration. *)
Theorem key_roundtrip beadID n :
  0 ≤ n ≤ maxInt64 → ParseIterationFromKey (IdempotencyKey beadID n) = (n, true).
Proof.
  intros Hn. unfold ParseIterationFromKey, IdempotencyKey.
  rewrite <-string_app_assoc.
  erewrite LastIndex_app_l by (apply LastIndex_iter_digits, Itoa_digits; lia).
  rewrite Nat.add_0_r, <-length_string_app, <-string_app_assoc, sdrop_app.
  rewrite Atoi_Itoa by (unfold in_int64, minInt64; lia).
  destruct (Z.ltb_spec n 0); [lia|done].
Qed.

Lemma key_roundtrip_witness : ParseIterationFromKey (IdempotencyKey "a:iter:7" 12) = (12, true).
Proof. apply (key_roundtrip "a:iter:7" 12). unfold maxInt64. lia. Defined.

Lemma IdempotencyKey_inj b1 n1 b2 n2 :
  0 ≤ n1 ≤ maxInt64 → 0 ≤ n2 ≤ maxInt64 →
  IdempotencyKey b1 n1 = IdempotencyKey b2 n2 → b1 = b2 ∧ n1 = n2.
Proof.
  intros H1 H2 He.
  assert (∀ b n, IdempotencyKey b n = ("converge:" +:+ b +:+ ":iter") +:+ String ":" (Itoa n)) as Hs.
  { intros b n. unfold IdempotencyKey. by rewrite !string_app_assoc. }
  rewrite !Hs in He. apply last_sep_inj in He as [Hb Hn]; [|apply Itoa_noColon; lia..].
  apply (inj (String.app "converge:")), string_app_inj_r in Hb. split; [done|].
  apply Itoa_inj; [unfold in_int64, minInt64; lia..|done].
Qed.

(** ** Event identifiers *)

Inductive EventKind :=
| KCreated | KIteration | KWaitingManual | KTerminated
| KManualApprove | KManualIterate | KManualStop | KTriggerAdvance.

(** The identifier of an event; kinds that are not per iteration ignore [n]. *)
Definition eventIDOf (k : EventKind) (beadID : string) (n : Z) : string :=
  match k with
  | KCreated => EventIDCreated beadID
  | KIteration => EventIDIteration beadID n
  | KWaitingManual => EventIDWaitingManual beadID n
  | KTerminated => EventIDTerminated beadID
  | KManualApprove => EventIDManualApprove beadID
  | KManualIterate => EventIDManualIterate beadID n
  | KManualStop => EventIDManualStop beadID
  | KTriggerAdvance => EventIDTriggerAdvance beadID n
  end.

Definition perIteration (k : EventKind) : bool :=
  match k with KIteration | KWaitingManual | KManualIterate | KTriggerAdvance => true | _ => false end.

Definition eventToken (k : EventKind) : string :=
  match k with
  | KCreated => "created" | KIteration => "iteration" | KWaitingManual => "waiting_manual"
  | KTerminated => "terminated" | KManualApprove => "manual_approve" | KManualIterate => "manual_iterate"
  | KManualStop => "manual_stop" | KTriggerAdvance => "trigger_advance"
  end.

Lemma eventIDOf_split k b n :
  eventIDOf k b n = (if perIteration k then IdempotencyKey b n else "converge:" +:+ b) +:+ String ":" (eventToken k).
Proof. destruct k; cbn; unfold IdempotencyKey; by rewrite ?string_app_assoc. Qed.

(** Event identifiers never collide: equal identifiers come from the same kind
    of event, the same loop and, for per-iteration events, the same iteration. *)
Theorem event_id_injective k1 b1 n1 k2 b2 n2 :
  0 ≤ n1 ≤ maxInt64 → 0 ≤ n2 ≤ maxInt64 → eventIDOf k1 b1 n1 = eventIDOf k2 b2 n2 →
  k1 = k2 ∧ b1 = b2 ∧ (perIteration k1 = true → n1 = n2).
Proof.
  intros H1 H2 He. rewrite !eventIDOf_split in He.
  apply last_sep_inj in He as [Hp Ht]; [|by destruct k1|by destruct k2].
  assert (k1 = k2) as <- by (destruct k1, k2; done). split; [done|].
  destruct (perIteration k1).
  - destruct (IdempotencyKey_inj b1 n1 b2 n2); auto.
  - split; [|done]. by apply (inj (String.app "converge:")) in Hp.
Qed.

Lemma event_id_injective_witness : KTriggerAdvance = KTriggerAdvance ∧ "b" = "b" ∧ (perIteration KTriggerAdvance = true → 3 = 3).
Proof.
  apply (event_id_injective KTriggerAdvance "b" 3 KTriggerAdvance "b" 3); [unfold maxInt64; lia..|reflexivity].
Defined.

(** ** Verdicts and gate configuration *)

Definition verdicts : list string := [VerdictApprove; VerdictApproveWithRisks; VerdictBlock].

(** Normalisation is total onto the three verdicts and idempotent, whatever the
    Unicode tables; text that trims to nothing is a block. *)
Theorem normalize_verdict_range `{UnicodeTables} raw :
  NormalizeVerdict raw ∈ verdicts ∧
  NormalizeVerdict (NormalizeVerdict raw) = NormalizeVerdict raw ∧
  (TrimSpace raw = "" → NormalizeVerdict raw = VerdictBlock).
Proof.
  assert (NormalizeVerdict raw ∈ verdicts) as Hin.
  { unfold NormalizeVerdict, verdicts. case_bool_decide; [set_solver|].
    destruct (pastTenseMap !! _) as [m|] eqn:Hm.
    - apply elem_of_list_to_map_2 in Hm. set_solver.
    - destruct (_ || _) eqn:Hv; [|set_solver]. in_list Hv. }
  split; [done|]. split; [|by intros Ht; unfold NormalizeVerdict; rewrite Ht].
  rewrite list_elem_of_In in Hin. destruct Hin as [<-|[<-|[<-|[]]]]; vm_compute; reflexivity.
Qed.

Definition gateConfigOK (cfg : GateConfig) : Prop :=
  gcMode cfg ∈ [GateModeManual; GateModeCondition; GateModeHybrid] ∧ 0 < gcTimeout cfg ∧
  gcTimeoutAction cfg ∈ [TimeoutActionIterate; TimeoutActionRetry; TimeoutActionManual; TimeoutActionTerminate].

(** A gate configuration that parses is in range: a known mode, a positive
    timeout, a known timeout action, and the configured condition path. *)
Theorem parse_gate_config_ok `{DurationParser} meta cfg :
  ParseGateConfig meta = Ok cfg → gateConfigOK cfg ∧ gcCondition cfg = meta.[FieldGateCondition].
Proof.
  unfold ParseGateConfig, gateConfigOK. intros Hp.
  destruct (negb _) eqn:Hm in Hp; [done|]. apply negb_false_iff in Hm.
  set (mode := if meta.[FieldGateMode] == "" then _ else _) in *. clearbody mode.
  destruct (if meta.[FieldGateTimeout] != "" then _ else _) as [t|] eqn:Ht in Hp; [|done].
  destruct (if meta.[FieldGateTimeoutAction] != "" then _ else _) as [a|] eqn:Ha in Hp; [|done].
  injection Hp as <-. cbn. split; [|done]. split; [|split].
  - in_list Hm.
  - destruct (meta.[FieldGateTimeout] != ""); [|injection Ht as <-; vm_compute; reflexivity].
    destruct (DecodeDuration _) as [d []]; cbn in Ht; [|done].
    destruct (Z.leb_spec d 0); [done|]. by injection Ht as <-.
  - destruct (meta.[FieldGateTimeoutAction] != ""); [|injection Ha as <-; set_solver].
    destruct (_ || _) eqn:Hr in Ha; [|discriminate]. injection Ha as <-. in_list Hr.
Qed.

Definition noDurations : DurationParser := {| ParseDuration := λ _, None |}.

Lemma parse_gate_config_ok_witness :
  let meta := {[FieldGateMode := GateModeHybrid; FieldGateCondition := "x.sh"]} in
  let cfg := mkGateConfig GateModeHybrid "x.sh" DefaultGateTimeout TimeoutActionIterate in
  gateConfigOK cfg ∧ gcCondition cfg = meta.[FieldGateCondition].
Proof. intros meta cfg. apply (@parse_gate_config_ok noDurations). vm_compute. reflexivity. Defined.

(** ** Output capture *)

Lemma slen_nonneg s : 0 ≤ slen s.
Proof. unfold slen. lia. Qed.

Lemma slen_app a b : slen (a +:+ b) = slen a + slen b.
Proof. unfold slen. rewrite length_string_app. lia. Qed.

Lemma stake_app_full a b n : stake (String.length a + n) (a +:+ b) = a +:+ stake n b.
Proof. induction a as [|c a IH]; [done|]. rewrite !string_app_cons. cbn. by rewrite IH. Qed.

Lemma stake_short n a b : (n ≤ String.length a)%nat → stake n (a +:+ b) = stake n a.
Proof.
  revert a. induction n as [|n IH]; intros [|c a] Hn; cbn in Hn; try done; try lia.
  rewrite string_app_cons. cbn. by rewrite IH by lia.
Qed.

Lemma length_stake n s : String.length (stake n s) = Nat.min n (String.length s).
Proof. revert s. induction n as [|n IH]; intros [|c s]; cbn; try done. by rewrite IH. Qed.

(** A capture buffer after a sequence of writes. *)
Definition captured (maxBytes : Z) (chunks : list string) : boundedBuffer :=
  foldl (λ b p, (BufferWrite b p).1) (newBoundedBuffer maxBytes) chunks.

Lemma captured_spec maxBytes chunks :
  0 < maxBytes →
  let all := foldr String.app "" chunks in
  let b := captured maxBytes chunks in
  bufMax b = maxBytes ∧ bufBytes b = stake (Z.to_nat maxBytes) all ∧
  (bufOverflow b = true → maxBytes ≤ slen all) ∧ (maxBytes < slen all → bufOverflow b = true).
Proof.
  intros Hm. unfold captured. induction chunks as [|p chunks IH] using rev_ind; cbn.
  { repeat split; [by destruct (Z.to_nat maxBytes)|done|]. unfold slen. cbn. lia. }
  rewrite foldl_app, foldr_app. cbn. destruct IH as (I1 & I2 & I3 & I4).
  rewrite string_app_nil_r. set (b := foldl _ _ chunks) in *. clearbody b.
  assert (∀ l : list string, foldr String.app p l = foldr String.app "" l +:+ p) as Hf.
  { induction l as [|x l IHl]; cbn; [done|]. by rewrite IHl, string_app_assoc. }
  rewrite Hf. clear Hf. set (all := foldr String.app "" chunks) in *. clearbody all.
  pose proof (slen_nonneg all). pose proof (slen_nonneg p).
  assert (slen (bufBytes b) = Z.min maxBytes (slen all)) as Hl.
  { rewrite I2. unfold slen. rewrite length_stake. lia. }
  unfold BufferWrite. rewrite slen_app, I1, Hl. unfold slen in *.
  destruct (Z.leb_spec (maxBytes - Z.min maxBytes (Z.of_nat (String.length all))) 0) as [Hr|Hr]; cbn.
  { repeat split; try done; try lia. rewrite I2.
    rewrite <-(stake_short (Z.to_nat maxBytes) all p) by lia. done. }
  assert (bufBytes b = all) as -> by (rewrite I2; apply stake_all; lia).
  replace (Z.to_nat maxBytes) with (String.length all + Z.to_nat (maxBytes - Z.of_nat (String.length all)))%nat by lia.
  rewrite stake_app_full. rewrite Z.min_r by lia.
  destruct (Z.ltb_spec (maxBytes - Z.of_nat (String.length all)) (Z.of_nat (String.length p))); cbn.
  - repeat split; try done; lia.
  - split_and!; [done|f_equal; symmetry; apply stake_all; lia|intros Ho; specialize (I3 Ho); lia|lia].
Qed.

(** A capture buffer never stores more than its bound: after any sequence of
    writes it holds exactly the first [maxBytes] bytes written, it reports
    overflow when more was written, and only after at least that much. *)
Theorem bounded_buffer_prefix maxBytes chunks :
  0 < maxBytes →
  let all := foldr String.app "" chunks in
  let b := captured maxBytes chunks in
  bufBytes b = stake (Z.to_nat maxBytes) all ∧ slen (bufBytes b) ≤ maxBytes ∧
  (maxBytes < slen all → bufOverflow b = true) ∧ (bufOverflow b = true → maxBytes ≤ slen all).
Proof.
  intros Hm all b. destruct (captured_spec maxBytes chunks Hm) as (_ & H2 & H3 & H4).
  split_and!; auto. fold b all in H2. rewrite H2. unfold slen. rewrite length_stake. lia.
Qed.

Lemma bounded_buffer_prefix_witness :
  bufBytes (captured 5 ["abc"; "def"]) = "abcde" ∧ slen (bufBytes (captured 5 ["abc"; "def"])) ≤ 5 ∧
  (5 < 6 → bufOverflow (captured 5 ["abc"; "def"]) = true) ∧ (bufOverflow (captured 5 ["abc"; "def"]) = true → 5 ≤ 6).
Proof. apply (bounded_buffer_prefix 5 ["abc"; "def"]). lia. Defined.

(** Where the truncation may stop: before a byte that starts a rune, or at the
    end of the look-back window. *)
Definition cutOK (data : string) (maxBytes end_ : Z) : Prop :=
  (∃ c, String.get (Z.to_nat end_) data = Some c ∧ RuneStart c = true) ∨ end_ = Z.max 0 (maxBytes - UTFMax).

Lemma get_lt s n : (n < String.length s)%nat → ∃ c, String.get n s = Some c.
Proof. revert n. induction s as [|c s IH]; intros [|n] Hn; cbn in *; try lia; [by eexists|]. apply IH. lia. Qed.

Lemma truncateEnd_spec fuel data maxBytes end_ :
  0 ≤ end_ ≤ maxBytes → maxBytes < slen data → maxBytes - UTFMax ≤ end_ → end_ ≤ maxBytes - UTFMax + Z.of_nat fuel →
  let e := truncateEnd fuel data maxBytes end_ in
  0 ≤ e ≤ end_ ∧ maxBytes - UTFMax ≤ e ∧ cutOK data maxBytes e.
Proof.
  revert end_. induction fuel as [|fuel IH]; intros end_ He Hd Hlo Hf; cbn [truncateEnd]; cbv zeta.
  { split_and!; try lia. right. lia. }
  destruct (Z.ltb_spec 0 end_) as [H0|H0]; cbn [andb]; [|split_and!; try lia; right; lia].
  destruct (Z.ltb_spec (maxBytes - UTFMax) end_) as [H1|H1]; [|split_and!; try lia; right; lia].
  destruct (get_lt data (Z.to_nat end_)) as [c Hc]; [unfold slen in Hd; lia|]. rewrite Hc.
  destruct (RuneStart c) eqn:Hr.
  - split_and!; try lia. left. eauto.
  - destruct (IH (end_ - 1)) as (? & ? & ?); try lia. split_and!; try lia. done.
Qed.

(** Truncation of captured output: the text kept is a prefix of the data of at
    most [maxBytes] bytes, it is reported exactly when something was cut,
    it stops at most four bytes short of the limit, and it stops before a byte
    that starts a character unless the look-back window holds none. *)
Theorem truncate_output_spec data maxBytes :
  0 < maxBytes →
  let s := (TruncateOutput data maxBytes).1 in
  let cut := (TruncateOutput data maxBytes).2 in
  s = stake (String.length s) data ∧ slen s ≤ maxBytes ∧ (cut = true ↔ maxBytes < slen data) ∧
  (cut = false → s = data) ∧ (cut = true → maxBytes - UTFMax ≤ slen s ∧ cutOK data maxBytes (slen s)).
Proof.
  intros Hm. unfold TruncateOutput. destruct (Z.leb_spec maxBytes 0); [lia|].
  destruct (Z.leb_spec (slen data) maxBytes) as [Hs|Hs]; cbn [fst snd]; cbv zeta.
  - split_and!; [by rewrite stake_all|lia|split; [done|lia]|done|done].
  - destruct (truncateEnd_spec 4 data maxBytes maxBytes) as (H1 & H2 & H3); [lia|lia|unfold UTFMax; lia..|].
    set (e := truncateEnd 4 data maxBytes maxBytes) in *. clearbody e.
    assert (slen (stake (Z.to_nat e) data) = e) as Hl by (unfold slen in *; rewrite length_stake; lia).
    rewrite Hl. split_and!; [|lia|done|done|done]. f_equal. unfold slen in Hl. lia.
Qed.

Lemma truncate_output_spec_witness :
  let d := "ab" +:+ bytes [195; 169] +:+ "c" in
  let s := (TruncateOutput d 3).1 in
  let cut := (TruncateOutput d 3).2 in
  s = stake (String.length s) d ∧ slen s ≤ 3 ∧ (cut = true ↔ 3 < slen d) ∧
  (cut = false → s = d) ∧ (cut = true → 3 - UTFMax ≤ slen s ∧ cutOK d 3 (slen s)).
Proof. intros d. apply (truncate_output_spec d 3). lia. Defined.

(** ** Child statistics *)

Definition closedIter (beadID : string) (c : BeadInfo) (n : Z) : Prop :=
  HasPrefix (biIdempotencyKey c) (IdempotencyKeyPrefix beadID) = true ∧ biStatus c = "closed" ∧
  ParseIterationFromKey (biIdempotencyKey c) = (n, true).

Definition openIter (beadID : string) (c : BeadInfo) (n : Z) : Prop :=
  HasPrefix (biIdempotencyKey c) (IdempotencyKeyPrefix beadID) = true ∧
  (biStatus c = "open" ∨ biStatus c = "in_progress") ∧
  ParseIterationFromKey (biIdempotencyKey c) = (n, true).

(** [h] with iteration [iter] is the highest child satisfying [P], if any. *)
Definition highestOK (P : BeadInfo → Z → Prop) (l : list BeadInfo) (found : bool) (h : BeadInfo) (iter : Z) : Prop :=
  if found then h ∈ l ∧ P h iter ∧ (∀ c n, c ∈ l → P c n → n ≤ iter) ∧ 0 ≤ iter
  else iter = -1 ∧ ∀ c n, c ∈ l → ¬ P c n.

Lemma ParseIteration_nonneg key n : ParseIterationFromKey key = (n, true) → 0 ≤ n.
Proof.
  unfold ParseIterationFromKey. destruct (LastIndex _ _); [|done]. destruct (Atoi _); [|done].
  destruct (Z.ltb_spec z 0); [done|]. intros [= <-]. done.
Qed.

(** A child that does not satisfy [P] changes nothing. *)
Lemma highestOK_skip P l c found h iter :
  (∀ n, ¬ P c n) → highestOK P l found h iter → highestOK P (l ++ [c]) found h iter.
Proof.
  intros Hc. unfold highestOK. destruct found.
  - intros (H1 & H2 & H3 & H4). split_and!; [set_solver|done| |done].
    intros d n [Hd| ->%list_elem_of_singleton]%elem_of_app Hp; [by eapply H3|by destruct (Hc n)].
  - intros [-> H]. split; [done|]. intros d n [Hd| ->%list_elem_of_singleton]%elem_of_app; [by apply H|apply Hc].
Qed.

(** A child that satisfies it replaces the highest if it is strictly higher. *)
Lemma highestOK_step P l c n found h iter :
  P c n → (∀ n', P c n' → n' = n) → 0 ≤ n → highestOK P l found h iter →
  highestOK P (l ++ [c]) (if iter <? n then true else found) (if iter <? n then c else h) (if iter <? n then n else iter).
Proof.
  intros Hc Hu Hn. unfold highestOK. destruct (Z.ltb_spec iter n) as [Hlt|Hge], found.
  - intros (H1 & H2 & H3 & H4). split_and!; [set_solver|done| |done].
    intros d m [Hd| ->%list_elem_of_singleton]%elem_of_app Hp; [specialize (H3 d m Hd Hp); lia|by rewrite (Hu m Hp)].
  - intros [-> H]. split_and!; [set_solver|done| |done].
    intros d m [Hd| ->%list_elem_of_singleton]%elem_of_app Hp; [by destruct (H d m Hd)|by rewrite (Hu m Hp)].
  - intros (H1 & H2 & H3 & H4). split_and!; [set_solver|done| |done].
    intros d m [Hd| ->%list_elem_of_singleton]%elem_of_app Hp; [by eapply H3|by rewrite (Hu m Hp)].
  - intros [-> H]. lia.
Qed.

(** The child statistics are what their documentation says: the closed count is
    the number of closed wisps of the loop, and the highest closed and highest
    open wisps have the greatest parseable iteration of their class, or are
    reported absent exactly when the class is empty. *)
Theorem child_stats_spec children beadID :
  let st := childStats children beadID in
  ClosedCount st = Z.of_nat (length (List.filter
    (λ c, HasPrefix (biIdempotencyKey c) (IdempotencyKeyPrefix beadID) && (biStatus c == "closed")) children)) ∧
  highestOK (closedIter beadID) children (HighestClosedFound st) (HighestClosed st) (HighestClosedIter st) ∧
  highestOK (openIter beadID) children (HighestOpenFound st) (HighestOpen st) (HighestOpenIter st).
Proof.
  unfold childStats. induction children as [|c l IH] using rev_ind.
  { cbn. repeat split; set_solver. }
  rewrite foldl_app. cbn [foldl]. cbv zeta in *. set (st := foldl _ _ l) in *. clearbody st.
  destruct IH as (IH1 & IH2 & IH3). rewrite List.filter_app, length_app. cbn [List.filter].
  unfold childStatsStep. destruct (HasPrefix _ _) eqn:Hpre; cbn [negb andb].
  2:{ cbn. rewrite Nat.add_0_r. split_and!; [done|apply highestOK_skip; [|done]..]; intros n [? _]; congruence. }
  destruct (ParseIterationFromKey (biIdempotencyKey c)) as [iter ok] eqn:Hit.
  destruct (decide (biStatus c = "closed")) as [Hcl|Hcl].
  - rewrite !(bool_decide_true _ Hcl). cbn.
    split_and!; [lia| |apply highestOK_skip; [|done]; intros n (_ & [?|?] & _); congruence].
    destruct ok; cbn.
    + apply highestOK_step; [by split_and!|intros n' (_ & _ & ?); congruence| |done].
      by eapply ParseIteration_nonneg.
    + apply highestOK_skip; [|done]. intros n (_ & _ & ?). congruence.
  - rewrite !(bool_decide_false _ Hcl). cbn. rewrite Nat.add_0_r.
    assert (∀ n, ¬ closedIter beadID c n) as Hnc by (intros n (_ & ? & _); done).
    destruct ((biStatus c == "open") || (biStatus c == "in_progress")) eqn:Hop; cbn.
    + rewrite orb_true_iff, !bool_decide_eq_true in Hop.
      split_and!; [done|by apply highestOK_skip|]. destruct ok; cbn.
      * apply highestOK_step; [by split_and!|intros n' (_ & _ & ?); congruence| |done].
        by eapply ParseIteration_nonneg.
      * apply highestOK_skip; [|done]. intros n (_ & _ & ?). congruence.
    + rewrite orb_false_iff, !bool_decide_eq_false in Hop.
      split_and!; [done|by apply highestOK_skip|]. apply highestOK_skip; [|done].
      intros n (_ & [?|?] & _); naive_solver.
Qed.

(** The keys the controller pours are counted by these statistics. *)
Lemma IdempotencyKey_prefix b n : HasPrefix (IdempotencyKey b n) (IdempotencyKeyPrefix b) = true.
Proof.
  unfold HasPrefix, IdempotencyKey, IdempotencyKeyPrefix. rewrite <-!string_app_assoc. apply prefix_app.
Qed.
