(* ===== verification/ConvStore.v ===== *)
(** * ConvStore: the store interface of the convergence handlers

    [storeE] is the interface [convergence.Store] of
    [internal/convergence/handler.go] together with the two other effects the
    handlers have: emitting an event ([EventEmitter]) and running a condition
    script.  A program over [storeE] runs against any implementation, failing
    ones included: an answer is a Go pair of a value and an error. *)

From S2P Require Import Prelude GoBase GoText ConvMeta Prog.

Local Open Scope Z_scope.

(** ** Condition scripts *)

Record ConditionEnv := mkConditionEnv {
  ceBeadID : string;
  ceIteration : Z;
  ceCityPath : string;
  ceStorePath : string;
  ceWorkDir : string;
  ceWispID : string;
  ceDocPath : string;
  ceMoleculeDir : string;
  ceArtifactDir : string;
  ceIterationDurationMs : Z;
  ceCumulativeDurationMs : Z;
  ceMaxIterations : Z;
  ceAgentVerdict : string;
  ceAgentProvider : string;
  ceAgentModel : string
}.

(** What [cmd.Run] ends with. *)
Inductive RunError := ExitError (code : Z) | OtherError (msg : string).

(** What one execution of a script shows: the chunks written to its two
    outputs, whether the caller's context was done, whether the script's own
    deadline passed, the error of [cmd.Run] and the wall-clock time. *)
Record RunOutcome := mkRunOutcome {
  roStdout : list string;
  roStderr : list string;
  roCtxDone : bool;
  roDeadline : bool;
  roErr : option RunError;
  roDuration : Z
}.

(** ** The interface *)

Inductive storeE : Type → Type :=
| GetBead (id : string) : storeE (BeadInfo * option error)
| GetMetadata (id : string) : storeE (metadata * option error)
| SetMetadata (id key value : string) : storeE (option error)
| CloseBead (id reason : string) : storeE (option error)
| DeleteBead (id : string) : storeE (option error)
| Children (parentID : string) : storeE (list BeadInfo * option error)
| PourWisp (parentID formula idempotencyKey : string) (vars : metadata) (evaluatePrompt : string) : storeE (string * option error)
| PourSpeculativeWisp (parentID formula idempotencyKey : string) (vars : metadata) (evaluatePrompt : string) : storeE (string * option error)
| ActivateWisp (id : string) : storeE (option error)
| FindByIdempotencyKey (key : string) : storeE (string * bool * option error)
| CountActiveConvergenceLoops (targetAgent : string) : storeE (Z * option error)
| CreateConvergenceBead (title : string) : storeE (string * option error)
| Emit (eventType eventID beadID : string) (payload : Payload) (recovery : bool) : storeE unit
| RunProcess (scriptPath dir : string) (env : ConditionEnv) (timeout : Z) : storeE RunOutcome
| RetryDelay : storeE bool (* the 25 ms timer; true when the context is done first *).

Abbreviation conv A := (prog storeE A).

(** One operation of the interface. *)
Definition perform {X} (e : storeE X) : conv X := trigger e.

(** ** Errors and early returns *)

(** [v, err := ...; if err != nil { return err }]: the value or the error. *)
Definition val {A} (r : A * option error) : result A :=
  match r.2 with Some e => Err e | None => Ok r.1 end.

Definition call {A} (e : storeE (A * option error)) : conv (result A) :=
  let* r := perform e in Ret (val r).

Definition wrapf (format : string) (args : list arg) (e : error) : error := Wrapf format args [e].

(** [x, err := p; if err != nil { return f err }; q]. *)
Definition bindE {A B} (p : conv (result A)) (f : error → error) (q : A → conv (result B)) : conv (result B) :=
  let* r := p in match r with Err e => Ret (Err (f e)) | Ok x => q x end.

(** [if err := p; err != nil { return f err }; q]. *)
Definition thenE {B} (p : conv (option error)) (f : error → error) (q : conv (result B)) : conv (result B) :=
  let* err := p in match err with Some e => Ret (Err (f e)) | None => q end.

Notation "'let?' x := p 'else' f 'in' q" := (bindE p f (λ x, q))
  (at level 200, x pattern, p at level 100, f at level 100, q at level 200, right associativity) : prog_scope.
Notation "'do?' p 'else' f 'in' q" := (thenE p f q)
  (at level 200, p at level 100, f at level 100, q at level 200, right associativity) : prog_scope.

(** ** Classes of operations *)

(** Operations that change neither the store nor the event log. *)
Definition isRead {X} (e : storeE X) : Prop :=
  match e with
  | GetBead _ | GetMetadata _ | Children _ | FindByIdempotencyKey _ | CountActiveConvergenceLoops _ => True
  | _ => False
  end.

Definition isReadOrEmit {X} (e : storeE X) : Prop :=
  match e with Emit _ _ _ _ _ => True | _ => isRead e end.

Definition isScript {X} (e : storeE X) : Prop :=
  match e with RunProcess _ _ _ _ | RetryDelay => True | _ => False end.

(** Everything but the operations that change the store. *)
Definition isQuiet {X} (e : storeE X) : Prop := isReadOrEmit e ∨ isScript e.

(** ** Program logic for the wrappers *)

Section rules.
Context {S : Type} (M : monitor storeE S).

Lemma wp_bindE {A B} (p : conv (result A)) f (q : A → conv (result B)) s (R : result A → S → Prop) (Q : result B → S → Prop) :
  wp M p s R → (∀ e s', R (Err e) s' → Q (Err (f e)) s') → (∀ x s', R (Ok x) s' → wp M (q x) s' Q) →
  wp M (bindE p f q) s Q.
Proof. intros Hp He Hq. eapply wp_seq; [exact Hp|]. intros [x|e] s' H; cbn; auto. Qed.

Lemma wp_thenE {B} (p : conv (option error)) f (q : conv (result B)) s (R : option error → S → Prop) (Q : result B → S → Prop) :
  wp M p s R → (∀ e s', R (Some e) s' → Q (Err (f e)) s') → (∀ s', R None s' → wp M q s' Q) →
  wp M (thenE p f q) s Q.
Proof. intros Hp He Hq. eapply wp_seq; [exact Hp|]. intros [e|] s' H; cbn; auto. Qed.
End rules.

Lemma uses_call {A} (F : ∀ X, storeE X → Prop) (e : storeE (A * option error)) : F _ e → uses F (call e).
Proof. intros H. apply uses_bind; [by split|done]. Qed.

Lemma uses_perform {X} (F : ∀ X, storeE X → Prop) (e : storeE X) : F _ e → uses F (perform e).
Proof. by split. Qed.

Lemma uses_bindE {A B} (F : ∀ X, storeE X → Prop) (p : conv (result A)) f (q : A → conv (result B)) :
  uses F p → (∀ x, uses F (q x)) → uses F (bindE p f q).
Proof. intros Hp Hq. apply uses_bind; [done|]. by intros [x|e]. Qed.

Lemma uses_thenE {B} (F : ∀ X, storeE X → Prop) (p : conv (option error)) f (q : conv (result B)) :
  uses F p → uses F q → uses F (thenE p f q).
Proof. intros Hp Hq. apply uses_bind; [done|]. by intros [e|]. Qed.

#[export] Hint Resolve uses_call uses_perform : gc.
