(* ===== verification/ConvHandler.v ===== *)
(** * ConvHandler: processing of a closed wisp

    Models [internal/convergence/handler.go] with the condition runner of
    [condition.go] and the hybrid gate of [hybrid.go]: the nine-step algorithm
    of [HandleWispClosed], its transitions, the commit discipline, speculative
    wisps and their burning, and the admission checks.  Each definition is a
    program over the store interface. *)

From S2P Require Import Prelude GoBase GoText ConvMeta Prog ConvStore.

Local Open Scope Z_scope.

Definition CloseReasonCreateRollback : string := "convergence: bead-create rollback after error".
Definition CloseReasonRetryRollback : string := "convergence: retry-create rollback after error".
Definition CloseReasonManualApprove : string := "convergence: iteration closed by manual approve".
Definition CloseReasonManualSupersede : string := "convergence: active wisp superseded during manual stop".
Definition CloseReasonManualStop : string := "convergence: iteration closed by manual stop".
Definition CloseReasonReconcileDone : string := "convergence reconcile: terminated-state bead closed".
Definition CloseReasonHandlerCleanup : string := "convergence: terminated state observed; closing root".
Definition CloseReasonHandlerRoot : string := "convergence: workflow handler closing root after terminate".

Definition ActionIterate : string := "iterate".
Definition ActionApproved : string := "approved".
Definition ActionNoConvergence : string := "no_convergence".
Definition ActionWaitingManual : string := "waiting_manual".
Definition ActionWaitingTrigger : string := "waiting_trigger".
Definition ActionStopped : string := "stopped".
Definition ActionSkipped : string := "skipped".

Record HandlerResult := mkHandlerResult {
  hrAction : string;
  hrIteration : Z;
  hrGateOutcome : string;
  hrNextWispID : string;
  hrWaitingReason : string
}.

(** [Handler]: its store is the interpretation of the programs; [hEmitter] is
    whether an emitter is set.  [hDepth] bounds the depth of the bead trees the
    recursive deletion walks (Go's recursion has no bound but the stack). *)
Record Handler := mkHandler { hStorePath : string; hEmitter : bool; hDepth : nat }.

Section handler.
Context `{UnicodeTables, DurationParser} (h : Handler).

(** ** Events *)

Definition eventRig (beadID : string) : conv string :=
  if beadID == "" then Ret ""
  else let* meta := call (GetMetadata beadID) in
       Ret (match meta with Ok meta => meta.[FieldRig] | Err _ => "" end).

Definition withEventRig (beadID : string) (payload : Payload) : conv Payload :=
  let* rig := eventRig beadID in
  Ret (if rig == "" then payload else setRig rig payload).

Definition emitEventWith (recovery : bool) (eventType eventID beadID : string) (payload : Payload) : conv unit :=
  if negb h.(hEmitter) then Ret ()
  else let* p := withEventRig beadID payload in
       perform (Emit eventType eventID beadID p recovery).

Definition emitEvent : string → string → string → Payload → conv unit := emitEventWith false.

(** ** Reads *)

Definition deriveIterationCount (rootBeadID : string) : conv (result Z) :=
  let* r := call (Children rootBeadID) in
  Ret (match r with Ok children => Ok (ClosedCount (childStats children rootBeadID)) | Err e => Err e end).

Definition computeDurations (rootBeadID wispID : string) : conv (Z * Z) :=
  let* iterDur :=
    (if wispID != "" then
       let* r := call (GetBead wispID) in
       Ret (match r with
            | Ok info => if negb (IsZero info.(biClosedAt)) && negb (IsZero info.(biCreatedAt))
                         then timeSub info.(biClosedAt) info.(biCreatedAt) else 0
            | Err _ => 0
            end)
     else Ret 0) in
  let* r := call (Children rootBeadID) in
  Ret (match r with
       | Ok children => (iterDur, CumulativeDur (childStats children rootBeadID))
       | Err _ => (iterDur, 0)
       end).

(** ** The commit discipline *)

Record metaWrite := mkWrite { mwKey : string; mwValue : string; mwDesc : string }.

Definition write (rootID : string) (w : metaWrite) : conv (option error) :=
  let* err := perform (SetMetadata rootID w.(mwKey) w.(mwValue)) in
  Ret (option_map (wrapf "%s: %w" [AStr w.(mwDesc)]) err).

Definition commit (rootID : string) (writes : list metaWrite) (preMarker : option (conv (option error)))
    (marker : metaWrite) : conv (option error) :=
  let* err := forEach writes (write rootID) in
  match err with
  | Some e => Ret (Some e)
  | None =>
      let* err := match preMarker with Some p => p | None => Ret None end in
      match err with
      | Some e => Ret (Some e)
      | None => if marker.(mwValue) == "" then Ret None else write rootID marker
      end
  end.

Definition persistGateOutcome (rootBeadID wispID : string) (r : GateResult) : conv (option error) :=
  let exitCode := match r.(grExitCode) with Some c => EncodeInt c | None => "" end in
  let truncated := if r.(grTruncated) then "true" else "" in
  commit rootBeadID
    [mkWrite FieldGateOutcome r.(grOutcome) "setting gate outcome";
     mkWrite FieldGateExitCode exitCode "setting gate exit code";
     mkWrite FieldGateRetryCount (EncodeInt r.(grRetryCount)) "setting gate retry count";
     mkWrite FieldGateStdout r.(grStdout) "setting gate stdout";
     mkWrite FieldGateStderr r.(grStderr) "setting gate stderr";
     mkWrite FieldGateDurationMs (Itoa (Milliseconds r.(grDuration))) "setting gate duration";
     mkWrite FieldGateTruncated truncated "setting gate truncated"]
    None (mkWrite FieldGateOutcomeWisp wispID "setting gate outcome wisp").

(** ** Speculative wisps *)

Fixpoint deleteBeadSubtree (depth : nat) (id : string) : conv (option error) :=
  match depth with
  | O => Ret (Some (Errorf "stack overflow" []))
  | S depth' =>
      let* r := call (Children id) in
      match r with
      | Err e => Ret (Some (wrapf "listing children for delete %q: %w" [AStr id] e))
      | Ok children =>
          let* err := forEach children (λ child, deleteBeadSubtree depth' child.(biID)) in
          match err with
          | Some e => Ret (Some e)
          | None =>
              let* err := perform (DeleteBead id) in
              Ret (option_map (wrapf "deleting bead %q: %w" [AStr id]) err)
          end
      end
  end.

Definition burnSpeculativeWisp (rootBeadID speculativeWispID : string) : conv (option error) :=
  if speculativeWispID == "" then Ret None
  else let* err := deleteBeadSubtree h.(hDepth) speculativeWispID in
       match err with
       | Some e => Ret (Some e)
       | None => let* _ := perform (SetMetadata rootBeadID FieldPendingNextWisp "") in Ret None
       end.

Definition validPendingNextWisp (rootBeadID nextKey pendingID : string) : conv string :=
  if pendingID == "" then Ret ""
  else let* r := call (GetBead pendingID) in
       let bad := match r with
                  | Err _ => true
                  | Ok info => (info.(biParentID) != rootBeadID) || (info.(biIdempotencyKey) != nextKey) ||
                               (info.(biStatus) == "closed")
                  end in
       if bad then let* _ := perform (SetMetadata rootBeadID FieldPendingNextWisp "") in Ret ""
       else Ret pendingID.

(** ** Condition scripts *)

(** The classification of one execution. *)
Definition classifyRun (o : RunOutcome) : GateResult :=
  let write b chunks := foldl (λ b p, (BufferWrite b p).1) b chunks in
  let stdout := write (newBoundedBuffer (MaxOutputBytes + UTFMax)) o.(roStdout) in
  let stderr := write (newBoundedBuffer (MaxOutputBytes + UTFMax)) o.(roStderr) in
  let '(outStr, outTrunc) := TruncateOutput stdout.(bufBytes) MaxOutputBytes in
  let '(errStr, errTrunc) := TruncateOutput stderr.(bufBytes) MaxOutputBytes in
  let truncated := outTrunc || errTrunc || stdout.(bufOverflow) || stderr.(bufOverflow) in
  if o.(roCtxDone) then mkGateResult GateError None 0 outStr errStr o.(roDuration) truncated
  else if o.(roDeadline) then mkGateResult GateTimeout None 0 outStr errStr o.(roDuration) truncated
  else match o.(roErr) with
       | Some (ExitError code) => mkGateResult GateFail (Some code) 0 outStr errStr o.(roDuration) truncated
       | Some (OtherError msg) => mkGateResult GateError None 0 "" msg o.(roDuration) truncated
       | None => mkGateResult GatePass (Some 0) 0 outStr errStr o.(roDuration) truncated
       end.

Definition runOnceNoPreExecRetry (scriptPath : string) (env : ConditionEnv) (timeout : Z) : conv GateResult :=
  let dir := if env.(ceStorePath) != "" then env.(ceStorePath) else env.(ceCityPath) in
  let dir := if env.(ceWorkDir) != "" then env.(ceWorkDir) else dir in
  let* o := perform (RunProcess scriptPath dir env timeout) in
  Ret (classifyRun o).

Definition isTextFileBusyPreExecError (r : GateResult) : bool :=
  (r.(grOutcome) == GateError) && Contains (ToLower r.(grStderr)) "text file busy".

Definition textFileBusyRetryAttempts : nat := 5.

(** [runOnce]: [left] retries remain; the loop counts [attempt] up to
    [textFileBusyRetryAttempts]. *)
Fixpoint runOnceLoop (left : nat) (scriptPath : string) (env : ConditionEnv) (timeout : Z) : conv GateResult :=
  let* r := runOnceNoPreExecRetry scriptPath env timeout in
  if negb (isTextFileBusyPreExecError r) then Ret r
  else match left with
       | O => Ret r
       | S left' =>
           let* done := perform RetryDelay in
           if done then Ret r else runOnceLoop left' scriptPath env timeout
       end.

Definition runOnce : string → ConditionEnv → Z → conv GateResult := runOnceLoop textFileBusyRetryAttempts.

Definition setRetryCount (r : GateResult) (n : Z) : GateResult :=
  mkGateResult r.(grOutcome) r.(grExitCode) n r.(grStdout) r.(grStderr) r.(grDuration) r.(grTruncated).

(** [RunCondition]: [left] is [retryBudget - attempt], [retries] the retries
    done so far. *)
Fixpoint runConditionLoop (left : nat) (retries : Z) (scriptPath : string) (env : ConditionEnv) (timeout : Z) : conv GateResult :=
  let* r := runOnce scriptPath env timeout in
  if r.(grOutcome) != GateTimeout then Ret (setRetryCount r retries)
  else match left with
       | O => Ret (setRetryCount r retries)
       | S left' => runConditionLoop left' (retries + 1) scriptPath env timeout
       end.

(** A negative budget runs nothing and returns the zero result. *)
Definition RunCondition (scriptPath : string) (env : ConditionEnv) (timeout retryBudget : Z) : conv GateResult :=
  if retryBudget <? 0 then Ret zeroGateResult
  else runConditionLoop (Z.to_nat retryBudget) 0 scriptPath env timeout.

Definition setAgentVerdict (e : ConditionEnv) (v : string) : ConditionEnv :=
  mkConditionEnv e.(ceBeadID) e.(ceIteration) e.(ceCityPath) e.(ceStorePath) e.(ceWorkDir) e.(ceWispID)
    e.(ceDocPath) e.(ceMoleculeDir) e.(ceArtifactDir) e.(ceIterationDurationMs) e.(ceCumulativeDurationMs)
    e.(ceMaxIterations) v e.(ceAgentProvider) e.(ceAgentModel).

Definition retryBudgetOf (cfg : GateConfig) : Z :=
  if cfg.(gcTimeoutAction) == TimeoutActionRetry then MaxGateRetries else 0.

Definition EvaluateHybrid (cfg : GateConfig) (env : ConditionEnv) (verdict : string) : conv GateResult :=
  if HybridNeedsManual cfg then Ret GateManualResult
  else RunCondition cfg.(gcCondition) (setAgentVerdict env verdict) cfg.(gcTimeout) (retryBudgetOf cfg).

Definition evaluateGate (gateConfig : GateConfig) (meta : metadata) (wispID : string) (iteration : Z)
    (verdict rootBeadID : string) : conv GateResult :=
  let cityPath := meta.[FieldCityPath] in
  let* durs := computeDurations rootBeadID wispID in
  let env := mkConditionEnv rootBeadID iteration cityPath h.(hStorePath) "" wispID
    meta.[VarPrefix +:+ "doc_path"] "" (ArtifactDirFor cityPath rootBeadID iteration)
    (Milliseconds durs.1) (Milliseconds durs.2) (DecodeInt meta.[FieldMaxIterations]).1 "" "" "" in
  if gateConfig.(gcMode) == GateModeCondition
  then RunCondition gateConfig.(gcCondition) env gateConfig.(gcTimeout) (retryBudgetOf gateConfig)
  else if gateConfig.(gcMode) == GateModeHybrid then EvaluateHybrid gateConfig env verdict
  else Ret (mkGateResult GateError None 0 "" ("unexpected gate mode: " +:+ gateConfig.(gcMode)) 0 false).

(** ** Transitions *)

(** The verdict reported in events: only if it was given for this wisp. *)
Definition eventVerdict (meta : metadata) (wispID : string) : string :=
  if meta.[FieldAgentVerdictWisp] == wispID then NormalizeVerdict meta.[FieldAgentVerdict] else "".

(** The check of a commit's error before a successful return. *)
Definition committed {A} (p : conv (option error)) (r : conv (result A)) : conv (result A) :=
  thenE p (λ e, e) r.

Definition transitionToWaitingManual (rootBeadID wispID : string) (iteration : Z) (gateConfig : GateConfig)
    (gateResult : GateResult) (reason gateOutcome : string) (meta : metadata) : conv (result HandlerResult) :=
  let* durs := computeDurations rootBeadID wispID in
  let gateOutcomePtr := if gateOutcome != "" then Some gateOutcome else None in
  let verdict := eventVerdict meta wispID in
  let* _ := emitEvent EventIteration (EventIDIteration rootBeadID iteration) rootBeadID
    (PIteration (mkIterationPayload "" iteration wispID verdict gateConfig.(gcMode) gateOutcomePtr
      (GateResultToPayload gateResult) gateResult.(grRetryCount) ActionWaitingManual (NullableString reason)
      None (Milliseconds durs.1) (Milliseconds durs.2))) in
  committed (commit rootBeadID
    [mkWrite FieldActiveWisp "" "clearing active wisp";
     mkWrite FieldWaitingReason reason "setting waiting reason";
     mkWrite FieldState StateWaitingManual "setting state to waiting_manual"]
    None (mkWrite FieldLastProcessedWisp wispID "setting last processed wisp"))
  (let* _ := emitEvent EventWaitingManual (EventIDWaitingManual rootBeadID iteration) rootBeadID
    (PWaitingManual (mkWaitingManualPayload "" iteration wispID verdict gateConfig.(gcMode) gateOutcomePtr
      (GateResultToPayload gateResult) reason (Milliseconds durs.1) (Milliseconds durs.2))) in
  Ret (Ok (mkHandlerResult ActionWaitingManual iteration gateOutcome "" reason))).

Definition handleSlingFailure (rootBeadID wispID : string) (iteration : Z) (gateConfig : GateConfig)
    (gateResult : GateResult) (meta : metadata) : conv (result HandlerResult) :=
  transitionToWaitingManual rootBeadID wispID iteration gateConfig gateResult WaitSlingFailure
    gateResult.(grOutcome) meta.

(** The two writes that clear a verdict given for this wisp. *)
Definition clearVerdict {A} (rootBeadID wispID : string) (meta : metadata) (q : conv (result A)) : conv (result A) :=
  if meta.[FieldAgentVerdictWisp] == wispID then
    do? perform (SetMetadata rootBeadID FieldAgentVerdict "") else wrapf "clearing agent verdict: %w" [] in
    do? perform (SetMetadata rootBeadID FieldAgentVerdictWisp "") else wrapf "clearing agent verdict wisp: %w" [] in
    q
  else q.

(** Pour, or find the wisp a failed pour left behind; [None] when neither. *)
Definition pourOrFind (rootBeadID nextKey : string) (meta : metadata) : conv (res error string) :=
  let* r := call (PourWisp rootBeadID meta.[FieldFormula] nextKey (ExtractVars meta) meta.[FieldEvaluatePrompt]) in
  match r with
  | Ok id => Ret (Ok id)
  | Err e =>
      let* f := call (FindByIdempotencyKey nextKey) in
      Ret (match f with Ok (existingID, true) => Ok existingID | _ => Err e end)
  end.

Definition iterate (rootBeadID wispID : string) (iteration : Z) (gateConfig : GateConfig) (gateResult : GateResult)
    (meta : metadata) (speculativeWispID : string) : conv (result HandlerResult) :=
  clearVerdict rootBeadID wispID meta (
  let nextKey := IdempotencyKey rootBeadID (incr64 iteration) in
  let* next :=
    (if speculativeWispID != "" then Ret (Ok speculativeWispID) else pourOrFind rootBeadID nextKey meta) in
  match next with
  | Err _ => handleSlingFailure rootBeadID wispID iteration gateConfig gateResult meta
  | Ok nextWispID =>
      do? perform (ActivateWisp nextWispID) else wrapf "activating next wisp %q: %w" [AStr nextWispID] in
      let* durs := computeDurations rootBeadID wispID in
      let* _ := emitEvent EventIteration (EventIDIteration rootBeadID iteration) rootBeadID
        (PIteration (mkIterationPayload "" iteration wispID (eventVerdict meta wispID) gateConfig.(gcMode)
          (NullableString gateResult.(grOutcome)) (GateResultToPayload gateResult) gateResult.(grRetryCount)
          ActionIterate None (NullableString nextWispID) (Milliseconds durs.1) (Milliseconds durs.2))) in
      committed (commit rootBeadID [mkWrite FieldActiveWisp nextWispID "setting active wisp"] None
        (mkWrite FieldLastProcessedWisp wispID "setting last processed wisp"))
      (let* _ := perform (SetMetadata rootBeadID FieldPendingNextWisp "") in
      Ret (Ok (mkHandlerResult ActionIterate iteration gateResult.(grOutcome) nextWispID "")))
  end).

Definition transitionToWaitingTrigger (rootBeadID wispID : string) (iteration : Z) (gateConfig : GateConfig)
    (gateResult : GateResult) (meta : metadata) : conv (result HandlerResult) :=
  clearVerdict rootBeadID wispID meta (
  let* durs := computeDurations rootBeadID wispID in
  let* _ := emitEvent EventIteration (EventIDIteration rootBeadID iteration) rootBeadID
    (PIteration (mkIterationPayload "" iteration wispID (eventVerdict meta wispID) gateConfig.(gcMode)
      (NullableString gateResult.(grOutcome)) (GateResultToPayload gateResult) gateResult.(grRetryCount)
      ActionWaitingTrigger None None (Milliseconds durs.1) (Milliseconds durs.2))) in
  committed (commit rootBeadID
    [mkWrite FieldActiveWisp "" "clearing active wisp";
     mkWrite FieldState StateWaitingTrigger "setting state to waiting_trigger"]
    None (mkWrite FieldLastProcessedWisp wispID "setting last processed wisp"))
  (Ret (Ok (mkHandlerResult ActionWaitingTrigger iteration gateResult.(grOutcome) "" "")))).

Definition terminate (rootBeadID wispID : string) (iteration : Z) (gateConfig : GateConfig) (gateResult : GateResult)
    (reason actor : string) (globalIteration : Z) (meta : metadata) : conv (result HandlerResult) :=
  let* durs := computeDurations rootBeadID wispID in
  let* _ := emitEvent EventIteration (EventIDIteration rootBeadID iteration) rootBeadID
    (PIteration (mkIterationPayload "" iteration wispID (eventVerdict meta wispID) gateConfig.(gcMode)
      (NullableString gateResult.(grOutcome)) (GateResultToPayload gateResult) gateResult.(grRetryCount)
      reason None None (Milliseconds durs.1) (Milliseconds durs.2))) in
  let* _ := emitEvent EventTerminated (EventIDTerminated rootBeadID) rootBeadID
    (PTerminated (mkTerminatedPayload "" reason globalIteration "closed" actor (Milliseconds durs.2))) in
  committed (commit rootBeadID
    [mkWrite FieldTerminalReason reason "setting terminal reason";
     mkWrite FieldTerminalActor actor "setting terminal actor";
     mkWrite FieldState StateTerminated "setting state to terminated"]
    (Some (let* err := perform (CloseBead rootBeadID CloseReasonHandlerRoot) in
           Ret (option_map (wrapf "closing root bead: %w" []) err)))
    (mkWrite FieldLastProcessedWisp wispID "setting last processed wisp"))
  (Ret (Ok (mkHandlerResult reason iteration gateResult.(grOutcome) "" ""))).

(** ** HandleWispClosed *)

(** Step 2: the iteration of the last processed wisp, 0 when it is unknown,
    missing or its key does not parse. *)
Definition lastProcessedIteration (meta : metadata) : conv Z :=
  if meta.[FieldLastProcessedWisp] == "" then Ret 0
  else let* r := call (GetBead meta.[FieldLastProcessedWisp]) in
       Ret (match r with
            | Err _ => 0
            | Ok info => let '(n, ok) := ParseIterationFromKey info.(biIdempotencyKey) in if ok then n else 0
            end).

(** Step 3b: the pending wisp, or a speculative pour recorded as pending;
    the second component is [speculativePourErr]. *)
Definition speculativePour (rootBeadID nextKey : string) (wispIteration maxIterations : Z)
    (gateConfig : GateConfig) (triggerConfig : TriggerConfig) (meta : metadata)
    : conv (result (string * option error)) :=
  let* speculativeWispID := validPendingNextWisp rootBeadID nextKey meta.[FieldPendingNextWisp] in
  let needsManualWithoutGate := (gateConfig.(gcMode) == GateModeManual) ||
    ((gateConfig.(gcMode) == GateModeHybrid) && HybridNeedsManual gateConfig) in
  let skipSpeculativePour := needsManualWithoutGate || Enabled triggerConfig in
  if (wispIteration <? maxIterations) && negb skipSpeculativePour && (speculativeWispID == "") then
    let* poured := perform (PourSpeculativeWisp rootBeadID meta.[FieldFormula] nextKey (ExtractVars meta)
      meta.[FieldEvaluatePrompt]) in
    let* found :=
      (match poured.2 with
       | None => Ret (poured.1, None)
       | Some err =>
           let* f := call (FindByIdempotencyKey nextKey) in
           Ret (match f with Ok (existingID, true) => (existingID, None) | _ => (poured.1, Some err) end)
       end) in
    if found.1 != "" then
      let* err := perform (SetMetadata rootBeadID FieldPendingNextWisp found.1) in
      match err with
      | None => Ret (Ok found)
      | Some e =>
          let* burnErr := burnSpeculativeWisp rootBeadID found.1 in
          Ret (Err (match burnErr with
                    | Some b => Wrapf "setting pending next wisp: %w; additionally burning speculative wisp: %w" [] [e; b]
                    | None => Wrapf "setting pending next wisp: %w" [] [e]
                    end))
      end
    else Ret (Ok found)
  else Ret (Ok (speculativeWispID, None)).

(** Step 4 on replay: the persisted outcome. *)
Definition persistedGateResult (meta : metadata) : GateResult :=
  let decode s := let '(n, ok) := DecodeInt s in if ok then Some n else None in
  mkGateResult meta.[FieldGateOutcome]
    (if meta.[FieldGateExitCode] != "" then decode meta.[FieldGateExitCode] else None)
    (default 0 (decode meta.[FieldGateRetryCount]))
    meta.[FieldGateStdout] meta.[FieldGateStderr]
    (if meta.[FieldGateDurationMs] != ""
     then default 0 ((λ ms, wrap64 (ms * Millisecond)) <$> decode meta.[FieldGateDurationMs]) else 0)
    (meta.[FieldGateTruncated] == "true").

(** Step 7: the outcome decides between waiting, iterating and terminating. *)
Definition terminalReasonFor (gateConfig : GateConfig) (gateResult : GateResult) (wispIteration maxIterations : Z)
    : option string :=
  if gateResult.(grOutcome) == GatePass then Some TerminalApproved
  else if (gateResult.(grOutcome) == GateTimeout) && (gateConfig.(gcTimeoutAction) == TimeoutActionTerminate)
  then Some TerminalNoConvergence
  else if maxIterations <=? wispIteration then Some TerminalNoConvergence
  else None.

Definition conclude (rootBeadID wispID : string) (wispIteration maxIterations globalIteration : Z)
    (gateConfig : GateConfig) (triggerConfig : TriggerConfig) (gateResult : GateResult) (meta : metadata)
    (speculativeWispID : string) (speculativePourErr : option error) : conv (result HandlerResult) :=
  if (gateResult.(grOutcome) == GateTimeout) && (gateConfig.(gcTimeoutAction) == TimeoutActionManual) then
    do? burnSpeculativeWisp rootBeadID speculativeWispID
      else wrapf "burning speculative wisp before waiting_manual: %w" [] in
    transitionToWaitingManual rootBeadID wispID wispIteration gateConfig gateResult WaitTimeout
      gateResult.(grOutcome) meta
  else match terminalReasonFor gateConfig gateResult wispIteration maxIterations with
  | None =>
      match speculativePourErr with
      | Some _ => handleSlingFailure rootBeadID wispID wispIteration gateConfig gateResult meta
      | None =>
          if Enabled triggerConfig
          then transitionToWaitingTrigger rootBeadID wispID wispIteration gateConfig gateResult meta
          else iterate rootBeadID wispID wispIteration gateConfig gateResult meta speculativeWispID
      end
  | Some terminalReason =>
      do? burnSpeculativeWisp rootBeadID speculativeWispID
        else wrapf "burning speculative wisp before terminal transition: %w" [] in
      terminate rootBeadID wispID wispIteration gateConfig gateResult terminalReason "controller"
        globalIteration meta
  end.

(** Steps 4 and 5 when the gate was not evaluated for this wisp yet, then
    step 7. *)
Definition evaluateAndConclude (rootBeadID wispID : string) (wispIteration maxIterations globalIteration : Z)
    (gateConfig : GateConfig) (triggerConfig : TriggerConfig) (meta : metadata)
    (speculativeWispID : string) (speculativePourErr : option error) : conv (result HandlerResult) :=
  if gateConfig.(gcMode) == GateModeManual then
    do? burnSpeculativeWisp rootBeadID speculativeWispID
      else wrapf "burning speculative wisp before waiting_manual: %w" [] in
    transitionToWaitingManual rootBeadID wispID wispIteration gateConfig zeroGateResult WaitManual "" meta
  else if (gateConfig.(gcMode) == GateModeHybrid) && HybridNeedsManual gateConfig then
    do? burnSpeculativeWisp rootBeadID speculativeWispID
      else wrapf "burning speculative wisp before waiting_manual: %w" [] in
    transitionToWaitingManual rootBeadID wispID wispIteration gateConfig zeroGateResult WaitHybridNoCondition "" meta
  else
    let verdict := if meta.[FieldAgentVerdictWisp] == wispID
                   then NormalizeVerdict meta.[FieldAgentVerdict] else VerdictBlock in
    let* gateResult := evaluateGate gateConfig meta wispID wispIteration verdict rootBeadID in
    let* err := persistGateOutcome rootBeadID wispID gateResult in
    match err with
    | Some e =>
        let* burnErr := burnSpeculativeWisp rootBeadID speculativeWispID in
        Ret (Err (match burnErr with
                  | Some b => Wrapf "persisting gate outcome: %w; additionally burning speculative wisp: %w" [] [e; b]
                  | None => Wrapf "persisting gate outcome: %w" [] [e]
                  end))
    | None => conclude rootBeadID wispID wispIteration maxIterations globalIteration gateConfig triggerConfig
                gateResult meta speculativeWispID speculativePourErr
    end.

(** Steps 3b to 9, for a wisp not processed yet. *)
Definition processWisp (rootBeadID wispID : string) (wispIteration maxIterations globalIteration : Z)
    (gateConfig : GateConfig) (triggerConfig : TriggerConfig) (meta : metadata) : conv (result HandlerResult) :=
  let nextKey := IdempotencyKey rootBeadID (incr64 wispIteration) in
  let skipGateEval := meta.[FieldGateOutcomeWisp] == wispID in
  if negb skipGateEval && (gateConfig.(gcMode) == GateModeCondition) && (gateConfig.(gcCondition) == "") then
    let* pending := validPendingNextWisp rootBeadID nextKey meta.[FieldPendingNextWisp] in
    let noCondition := Errorf "gate mode is %q but no condition path configured" [AStr GateModeCondition] in
    if pending != "" then
      do? burnSpeculativeWisp rootBeadID pending
        else wrapf "gate mode is %q but no condition path configured; additionally burning pending wisp: %w"
          [AStr GateModeCondition] in
      Ret (Err noCondition)
    else Ret (Err noCondition)
  else
    let? spec := speculativePour rootBeadID nextKey wispIteration maxIterations gateConfig triggerConfig meta
      else (λ e, e) in
    if skipGateEval
    then conclude rootBeadID wispID wispIteration maxIterations globalIteration gateConfig triggerConfig
           (persistedGateResult meta) meta spec.1 spec.2
    else evaluateAndConclude rootBeadID wispID wispIteration maxIterations globalIteration gateConfig
           triggerConfig meta spec.1 spec.2.

Definition skipped : HandlerResult := mkHandlerResult ActionSkipped 0 "" "" "".

Definition HandleWispClosed (rootBeadID wispID : string) : conv (result HandlerResult) :=
  let? meta := call (GetMetadata rootBeadID) else wrapf "reading root bead metadata: %w" [] in
  if meta.[FieldState] == StateTerminated then
    let* _ := perform (CloseBead rootBeadID CloseReasonHandlerCleanup) in Ret (Ok skipped)
  else
  let? wispInfo := call (GetBead wispID) else wrapf "reading wisp info: %w" [] in
  let '(wispIteration, ok) := ParseIterationFromKey wispInfo.(biIdempotencyKey) in
  if negb ok then Ret (Err (Errorf "parsing iteration from wisp key %q" [AStr wispInfo.(biIdempotencyKey)]))
  else
  let* lastProcessed := lastProcessedIteration meta in
  if wispIteration <=? lastProcessed then Ret (Ok skipped)
  else
  let? globalIteration := deriveIterationCount rootBeadID else wrapf "deriving iteration count: %w" [] in
  let* err :=
    (if negb (globalIteration =? (DecodeInt meta.[FieldIteration]).1)
     then perform (SetMetadata rootBeadID FieldIteration (EncodeInt globalIteration)) else Ret None) in
  match err with
  | Some e => Ret (Err (wrapf "updating iteration count: %w" [] e))
  | None =>
      let maxIterations := (DecodeInt meta.[FieldMaxIterations]).1 in
      match ParseGateConfig meta with
      | Err e => Ret (Err (wrapf "parsing gate config: %w" [] e))
      | Ok gateConfig =>
          match ParseTriggerConfig meta with
          | Err e => Ret (Err (wrapf "parsing trigger config: %w" [] e))
          | Ok triggerConfig =>
              processWisp rootBeadID wispID wispIteration maxIterations globalIteration gateConfig
                triggerConfig meta
          end
      end
  end.

(** ** Admission checks *)

Definition CheckNestedConvergence (callingAgent targetAgent : string) : conv (option error) :=
  if callingAgent != targetAgent then Ret None
  else let* r := call (CountActiveConvergenceLoops targetAgent) in
       Ret (match r with
            | Err e => Some (wrapf "checking nested convergence: %w" [] e)
            | Ok count => if 0 <? count
                then Some (Errorf "cannot create convergence loop targeting %q: agent is currently executing a convergence wisp. Self-targeting convergence would deadlock" [AStr targetAgent])
                else None
            end).

Definition CheckConcurrencyLimits (targetAgent : string) (maxPerAgent : Z) : conv (option error) :=
  let* r := call (CountActiveConvergenceLoops targetAgent) in
  Ret (match r with
       | Err e => Some (wrapf "checking concurrency limits: %w" [] e)
       | Ok agentCount => if maxPerAgent <=? agentCount
           then Some (Errorf "cannot create convergence loop targeting %q: per-agent limit reached (%d/%d active loops)" [AStr targetAgent; AInt agentCount; AInt maxPerAgent])
           else None
       end).
End handler.
