(* ===== verification/ConvHandlerResults.v ===== *)
(** * ConvHandlerResults: what a result of [HandleWispClosed] means

    A wisp processed before is skipped without touching the store; a successful
    result reports effects that were stored; the gate is not run again on
    replay, and the number of script runs is bounded; no wisp is poured past
    the iteration limit; a speculative wisp is adopted or deleted before the
    loop leaves the active state. *)

From S2P Require Import Prelude GoBase GoText ConvMeta ConvMetaProps Prog ConvStore ConvHandler ConvHandlerProps.

Local Open Scope Z_scope.

(** ** Answers of two reads, from an event *)

Definition metadataAnswer (ev : event storeE) : option (string * (metadata * option error)) :=
  match ev with
  | Ev e x => match e in storeE X return X → _ with GetMetadata id => λ x, Some (id, x) | _ => λ _, None end x
  end.

Definition beadAnswer (ev : event storeE) : option (string * (BeadInfo * option error)) :=
  match ev with
  | Ev e x => match e in storeE X return X → _ with GetBead id => λ x, Some (id, x) | _ => λ _, None end x
  end.

Lemma GetMetadata_inj id id' x y : Ev (GetMetadata id) x = Ev (GetMetadata id') y → id = id' ∧ x = y.
Proof. intros He. apply (f_equal metadataAnswer) in He. by injection He. Qed.

Lemma GetBead_inj id id' x y : Ev (GetBead id) x = Ev (GetBead id') y → id = id' ∧ x = y.
Proof. intros He. apply (f_equal beadAnswer) in He. by injection He. Qed.

(** The continuation of a call, from the first event of an execution. *)
Lemma exec_GetMetadata {B} id f (q : metadata → conv (result B)) meta tr r :
  exec (bindE (call (GetMetadata id)) f q) (Ev (GetMetadata id) (meta, None) :: tr) r → exec (q meta) tr r.
Proof. intros (x & He & Hx)%exec_Vis. apply GetMetadata_inj in He as [_ <-]. exact Hx. Qed.

Lemma exec_GetBead {B} id f (q : BeadInfo → conv (result B)) info tr r :
  exec (bindE (call (GetBead id)) f q) (Ev (GetBead id) (info, None) :: tr) r → exec (q info) tr r.
Proof. intros (x & He & Hx)%exec_Vis. apply GetBead_inj in He as [_ <-]. exact Hx. Qed.

(** ** Deduplication *)

(** A wisp whose iteration is not above that of the last processed wisp is
    skipped: after the three reads that show it, the call returns [skipped] and
    performs no further operation. *)
Theorem processed_wisp_skipped `{UnicodeTables, DurationParser} h root wisp meta info linfo n m tr q :
  meta.[FieldState] ≠ StateTerminated → meta.[FieldLastProcessedWisp] ≠ "" →
  ParseIterationFromKey (biIdempotencyKey info) = (n, true) →
  ParseIterationFromKey (biIdempotencyKey linfo) = (m, true) → n ≤ m →
  exec (HandleWispClosed h root wisp)
    (Ev (GetMetadata root) (meta, None) :: Ev (GetBead wisp) (info, None) ::
     Ev (GetBead meta.[FieldLastProcessedWisp]) (linfo, None) :: tr) q →
  tr = [] ∧ q = Ret (Ok skipped).
Proof.
  intros Hst Hlp Hn Hm Hle He. unfold HandleWispClosed in He. apply exec_GetMetadata in He.
  rewrite bool_decide_false in He by done. apply exec_GetBead in He. rewrite Hn in He. cbn [negb] in He.
  unfold lastProcessedIteration in He. rewrite bool_decide_false in He by done.
  apply exec_Vis in He as (x & Hx & He). apply GetBead_inj in Hx as [_ <-]. cbn in He. rewrite Hm in He.
  rewrite (proj2 (Z.leb_le n m) Hle) in He. by apply exec_Ret in He.
Qed.

(** ** Replay does not run the gate again *)

Definition isRun {X} (e : storeE X) : bool := match e with RunProcess _ _ _ _ => true | _ => false end.
Abbreviation noRun := (λ X (e : storeE X), isRun e = false).

Lemma step_noRun root {A} (p : conv A) : uses (stepOps root) p → uses noRun p.
Proof. intros Hp. eapply uses_mono; [exact Hp|]. intros X e. by destruct e. Qed.

Section replay.
Context `{UnicodeTables, DurationParser} (h : Handler) (root : string).

Lemma reads_noRun : withReadsEmits noRun.
Proof. intros X e. by destruct e. Qed.

Lemma terminate_noRun wisp n cfg gr reason actor g meta :
  uses noRun (terminate h root wisp n cfg gr reason actor g meta).
Proof.
  pose proof (withReadsEmits_reads _ reads_noRun) as HR. unfold terminate, committed.
  uses_walk; auto using computeDurations_uses, emitEvent_uses, reads_noRun.
  apply commit_uses; [done| |done]. intros p [= <-]. by uses_walk.
Qed.

Lemma conclude_noRun wisp n mx g cfg tc gr meta spec serr :
  uses noRun (conclude h root wisp n mx g cfg tc gr meta spec serr).
Proof.
  unfold conclude. uses_walk; try apply terminate_noRun; apply (step_noRun root);
    auto using burn_step, transitionToWaitingManual_step, transitionToWaitingTrigger_step, iterate_step.
  apply transitionToWaitingManual_step.
Qed.

Lemma processWisp_replay_noRun wisp n mx g cfg tc meta :
  meta.[FieldGateOutcomeWisp] = wisp → uses noRun (processWisp h root wisp n mx g cfg tc meta).
Proof.
  intros Hw. unfold processWisp. rewrite bool_decide_true by done. cbn [negb andb].
  uses_walk; [apply (step_noRun root), speculativePour_step|apply conclude_noRun].
Qed.
End replay.

(** The gate is not evaluated again on replay: when its outcome for this wisp is
    already stored, no execution of [HandleWispClosed] runs a script. *)
Theorem gate_not_rerun `{UnicodeTables, DurationParser} h root wisp meta tr q X (e : storeE X) x :
  meta.[FieldGateOutcomeWisp] = wisp →
  exec (HandleWispClosed h root wisp) (Ev (GetMetadata root) (meta, None) :: tr) q →
  Ev e x ∈ tr → isRun e = false.
Proof.
  intros Hw He. unfold HandleWispClosed in He. apply exec_GetMetadata in He. revert e x.
  eapply (uses_exec noRun); [|exact He]. pose proof (withReadsEmits_reads _ reads_noRun) as HR.
  uses_walk; auto using lastProcessedIteration_uses, deriveIterationCount_uses, processWisp_replay_noRun.
Qed.

(** ** Bound on script runs *)

Definition countRuns (tr : list (event storeE)) : nat :=
  length (List.filter (λ ev, match ev with Ev e _ => isRun e end) tr).

(** Runs so far, never above the bound. *)
Definition runMonitor (bound : nat) : monitor storeE nat :=
  Monitor (λ s X e, isRun e = true → (s < bound)%nat) (λ s X e _, if isRun e then S s else s).

Lemma accepts_countRuns bound s tr :
  accepts (runMonitor bound) s tr → (s ≤ bound)%nat → (s + countRuns tr ≤ bound)%nat.
Proof.
  revert s. induction tr as [|[X e x] tr IH]; intros s Ha Hs; cbn in *; [lia|].
  destruct Ha as [Hok Ha]. unfold countRuns in *. cbn. destruct (isRun e); cbn in *.
  - specialize (IH _ Ha ltac:(specialize (Hok eq_refl); lia)). lia.
  - apply (IH _ Ha Hs).
Qed.

Section runs.
Context `{UnicodeTables, DurationParser} (h : Handler) (bound : nat).

Abbreviation R := (runMonitor bound).

Lemma noRun_ignored : ignores R noRun.
Proof. intros s X e He. cbn. rewrite He. done. Qed.

Lemma wp_noRun {A} (p : conv A) s (Q : A → nat → Prop) : uses noRun p → (∀ a, Q a s) → wp R p s Q.
Proof. apply wp_uses, noRun_ignored. Qed.

Lemma runOnce_runs sp env t s :
  (s + 6 ≤ bound)%nat → wp R (runOnce sp env t) s (λ _ s', s' ≤ s + 6)%nat.
Proof.
  assert (∀ left s, (s + S left ≤ bound)%nat →
    wp R (runOnceLoop left sp env t) s (λ _ s', s' ≤ s + S left)%nat) as Hl.
  { clear s. induction left as [|left IH]; intros s Hs; cbn; (split; [lia|]); intros o;
      destruct (negb _); cbn; try lia.
    split; [done|]. intros [|]; cbn; [lia|]. eapply wp_mono; [apply IH; lia|]. cbn. intros. lia. }
  intros Hs. apply Hl. cbn. lia.
Qed.

Lemma runConditionLoop_runs left r sp env t s :
  (s + 6 * S left ≤ bound)%nat → wp R (runConditionLoop left r sp env t) s (λ _ s', s' ≤ s + 6 * S left)%nat.
Proof.
  revert r s. induction left as [|left IH]; intros r s Hs; cbn [runConditionLoop];
    (eapply wp_seq; [apply runOnce_runs; lia|]); intros gr s' Hs'; cbn in Hs'; destruct (_ != _); cbn; try lia.
  eapply wp_mono; [apply IH; lia|]. cbn. intros. lia.
Qed.

Lemma evaluateGate_runs cfg meta w n v root s :
  (s + 24 ≤ bound)%nat → wp R (evaluateGate h cfg meta w n v root) s (λ _ s', s' ≤ s + 24)%nat.
Proof.
  intros Hs. assert (∀ sp env t, wp R (RunCondition sp env t (retryBudgetOf cfg)) s (λ _ s', s' ≤ s + 24)%nat) as Hrun.
  { intros sp env t. unfold RunCondition, retryBudgetOf. destruct (_ == _).
    - apply (runConditionLoop_runs 3). lia.
    - eapply wp_mono; [apply (runConditionLoop_runs 0); lia|]. cbn. intros. lia. }
  unfold evaluateGate, EvaluateHybrid. apply wp_bind, wp_noRun.
  { apply computeDurations_uses. intros X e. by destruct e. }
  intros durs. destruct (_ == _); [apply Hrun|]. destruct (_ == _); [|cbn; lia].
  destruct (HybridNeedsManual cfg); [cbn; lia|apply Hrun].
Qed.

Lemma HandleWispClosed_runs root wisp : (24 ≤ bound)%nat → wp R (HandleWispClosed h root wisp) 0%nat (λ _ _, True).
Proof.
  intros Hb. pose proof (withReadsEmits_reads _ reads_noRun) as HR. unfold HandleWispClosed.
  apply wp_bind, wp_noRun; [by uses_walk|]. intros [meta|]; [|done].
  destruct (_ == _); [by apply wp_noRun; [uses_walk|]|].
  apply wp_bind, wp_noRun; [by uses_walk|]. intros [info|]; [|done].
  destruct (ParseIterationFromKey _) as [n []]; cbn [negb]; [|done].
  apply wp_bind, wp_noRun; [by apply lastProcessedIteration_uses|]. intros lp. destruct (n <=? lp); [done|].
  apply wp_bind, wp_noRun; [by apply deriveIterationCount_uses|]. intros [g|]; [|done].
  apply wp_bind, wp_noRun; [case_match; by uses_walk|]. intros [e|]; [done|].
  destruct (ParseGateConfig meta) as [cfg|]; [|done]. destruct (ParseTriggerConfig meta) as [tc|]; [|done].
  unfold processWisp. destruct (_ && _ && _).
  { apply wp_noRun; [|done]. apply (step_noRun root). uses_walk; [apply validPending_step|apply burn_step]. }
  apply wp_bind, wp_noRun; [apply (step_noRun root), speculativePour_step|]. intros [[spec serr]|]; [|done].
  destruct (_ == _); [by apply wp_noRun; [apply conclude_noRun|]|]. unfold evaluateAndConclude.
  do 2 (case_match; [apply wp_noRun; [|done]; apply (step_noRun root); uses_walk;
    [apply burn_step|apply transitionToWaitingManual_step]|]).
  apply wp_seq with (R := λ _ _, True); [by eapply wp_mono; [apply evaluateGate_runs; lia|]|].
  intros gr s _. apply wp_noRun; [|done]. uses_walk; [apply (step_noRun root), persist_step| |apply conclude_noRun].
  apply (step_noRun root), burn_step.
Qed.
End runs.

(** The number of script executions in one call is bounded: at most four attempts
    ([MaxGateRetries] retries after a timeout) of at most six executions (five
    retries of a busy script file), whatever the scripts do. *)
Theorem script_runs_bounded `{UnicodeTables, DurationParser} h root wisp tr q :
  exec (HandleWispClosed h root wisp) tr q → (countRuns tr ≤ 24)%nat.
Proof.
  intros He. pose proof (wp_sound _ _ _ _ _ _ (HandleWispClosed_runs h 24 root wisp ltac:(lia)) He) as Ha.
  apply accepts_countRuns in Ha; lia.
Qed.

(** ** Pours stay within the iteration limit *)

Abbreviation rootRead root meta := (Ev (GetMetadata root) (meta, None) : event storeE).

(** A pour of an execution that started by reading [meta] of the root. *)
Definition pourWithinLimit (root : string) (hist : list (event storeE)) X (e : storeE X) : Prop :=
  match e with
  | PourWisp p _ key _ _ | PourSpeculativeWisp p _ key _ _ =>
      p = root ∧ ∃ meta n rest, hist = rootRead root meta :: rest ∧
        key = IdempotencyKey root (incr64 n) ∧ 0 ≤ n < (DecodeInt meta.[FieldMaxIterations]).1
  | _ => True
  end.

Definition isPour {X} (e : storeE X) : bool :=
  match e with PourWisp _ _ _ _ _ | PourSpeculativeWisp _ _ _ _ _ => true | _ => false end.
Abbreviation noPour := (λ X (e : storeE X), isPour e = false).

Section pours.
Context `{UnicodeTables, DurationParser} (h : Handler) (root : string) (meta : metadata).

Abbreviation L := (histMonitor (pourWithinLimit root)).

Lemma reads_noPour : withReadsEmits noPour.
Proof. intros X e. by destruct e. Qed.

Lemma wp_noPour {A} (p : conv A) hist (Q : A → list (event storeE) → Prop) :
  uses noPour p → (∀ a ext, Q a (hist ++ ext)) → wp L p hist Q.
Proof. apply wp_hist_uses. intros hist' X e He. by destruct e. Qed.

Lemma transitionToWaitingManual_noPour wisp n cfg gr reason outcome :
  uses noPour (transitionToWaitingManual h root wisp n cfg gr reason outcome meta).
Proof.
  pose proof (withReadsEmits_reads _ reads_noPour) as HR. unfold transitionToWaitingManual, committed.
  uses_walk; auto using computeDurations_uses, emitEvent_uses, reads_noPour. by apply commit_uses.
Qed.

Lemma transitionToWaitingTrigger_noPour wisp n cfg gr :
  uses noPour (transitionToWaitingTrigger h root wisp n cfg gr meta).
Proof.
  pose proof (withReadsEmits_reads _ reads_noPour) as HR. unfold transitionToWaitingTrigger, clearVerdict, committed.
  uses_walk; auto using computeDurations_uses, emitEvent_uses, reads_noPour; by apply commit_uses.
Qed.

Lemma terminate_noPour wisp n cfg gr reason actor g :
  uses noPour (terminate h root wisp n cfg gr reason actor g meta).
Proof.
  pose proof (withReadsEmits_reads _ reads_noPour) as HR. unfold terminate, committed.
  uses_walk; auto using computeDurations_uses, emitEvent_uses, reads_noPour.
  apply commit_uses; [done| |done]. intros p [= <-]. by uses_walk.
Qed.

Lemma burn_noPour w : uses noPour (burnSpeculativeWisp h root w).
Proof. by apply burnSpeculativeWisp_uses. Qed.

Abbreviation limit := ((DecodeInt meta.[FieldMaxIterations]).1).

Lemma iterate_pours wisp n cfg gr spec rest :
  0 ≤ n < limit → wp L (iterate h root wisp n cfg gr meta spec) (rootRead root meta :: rest) (λ _ _, True).
Proof.
  intros Hn. pose proof (withReadsEmits_reads _ reads_noPour) as HR. unfold iterate.
  match goal with |- wp _ (clearVerdict _ _ _ ?q) _ _ =>
    assert (∀ rest, wp L q (rootRead root meta :: rest) (λ _ _, True)) as Hq end.
  { intros rest'. apply wp_seq with (R := λ _ hist, ∃ rest, hist = rootRead root meta :: rest).
    - destruct (spec != ""); [by cbn; eauto|]. cbn. split; [split; [done|]; by exists meta, n, rest'|].
      intros [id [e|]]; cbn; [|by eauto]. split; [done|]. intros [[? []] [|]]; cbn; by eauto.
    - intros [next|e] hist [rest2 ->]; (apply wp_noPour; [|done]);
        [|apply transitionToWaitingManual_noPour].
      unfold committed. uses_walk; auto using computeDurations_uses, emitEvent_uses, reads_noPour.
      by apply commit_uses. }
  unfold clearVerdict. destruct (meta.[FieldAgentVerdictWisp] == wisp); [|apply Hq].
  do 2 (apply wp_bind, wp_noPour; [by uses_walk|]; intros [|] ?; [done|]; cbn [app]). apply Hq.
Qed.

Lemma conclude_pours wisp n g cfg tc gr spec serr rest :
  0 ≤ n → wp L (conclude h root wisp n limit g cfg tc gr meta spec serr) (rootRead root meta :: rest) (λ _ _, True).
Proof.
  intros Hn. unfold conclude. destruct (_ && _).
  { apply wp_noPour; [|done]. uses_walk; [apply burn_noPour|apply transitionToWaitingManual_noPour]. }
  destruct (terminalReasonFor _ _ _ _) eqn:Ht.
  { apply wp_noPour; [|done]. uses_walk; [apply burn_noPour|apply terminate_noPour]. }
  destruct serr; [by apply wp_noPour; [apply transitionToWaitingManual_noPour|]|].
  destruct (Enabled tc); [by apply wp_noPour; [apply transitionToWaitingTrigger_noPour|]|].
  apply iterate_pours. unfold terminalReasonFor in Ht. do 2 (destruct (_ == _); cbn in Ht; try done);
    try (destruct (_ == _); cbn in Ht; try done); destruct (Z.leb_spec limit n); try done; lia.
Qed.

Lemma speculativePour_pours n cfg tc rest :
  0 ≤ n →
  wp L (speculativePour h root (IdempotencyKey root (incr64 n)) n limit cfg tc meta) (rootRead root meta :: rest)
    (λ _ hist, ∃ rest', hist = rootRead root meta :: rest').
Proof.
  intros Hn. unfold speculativePour. apply wp_bind, wp_noPour.
  { apply validPendingNextWisp_uses; [intros X e; by destruct e|done]. }
  intros pending ext. cbn [app]. destruct (Z.ltb_spec n limit) as [Hlt|]; cbn [andb]; [|cbn; by eauto].
  destruct (_ && _); [|cbn; by eauto]. apply wp_perform; [split; [done|]; by exists meta, n, (rest ++ ext)|].
  intros [id err]. cbn [snd fst]. apply wp_noPour; [|cbn; by eauto].
  uses_walk; try done. apply burn_noPour.
Qed.

Lemma processWisp_pours wisp n g cfg tc rest :
  0 ≤ n → wp L (processWisp h root wisp n limit g cfg tc meta) (rootRead root meta :: rest) (λ _ _, True).
Proof.
  intros Hn. unfold processWisp. destruct (_ && _ && _).
  { apply wp_noPour; [|done]. uses_walk; [|apply burn_noPour].
    apply validPendingNextWisp_uses; [intros X e; by destruct e|done]. }
  eapply wp_seq; [by apply speculativePour_pours|]. intros [[spec serr]|] hist [rest' ->]; [|done].
  destruct (_ == _); [by apply conclude_pours|]. unfold evaluateAndConclude.
  do 2 (case_match; [apply wp_noPour; [|done]; uses_walk; [apply burn_noPour|apply transitionToWaitingManual_noPour]|]).
  apply wp_bind, wp_noPour; [apply evaluateGate_uses; intros X e [?|?]; by destruct e|]. intros gr ext.
  apply wp_bind, wp_noPour; [by apply commit_uses|]. intros [e|] ext2; [|by apply conclude_pours].
  apply wp_noPour; [|done]. uses_walk. apply burn_noPour.
Qed.
End pours.

Lemma HandleWispClosed_pours `{UnicodeTables, DurationParser} h root wisp :
  wp (histMonitor (pourWithinLimit root)) (HandleWispClosed h root wisp) [] (λ _ _, True).
Proof.
  pose proof (withReadsEmits_reads _ reads_noPour) as HR. unfold HandleWispClosed.
  apply wp_callE; [done|done|]. intros meta. cbn [app].
  destruct (_ == _); [by apply wp_noPour; [uses_walk|]|].
  apply wp_callE; [done|done|]. intros info.
  destruct (ParseIterationFromKey _) as [n []] eqn:Hn; cbn [negb]; [|done]. apply ParseIteration_nonneg in Hn.
  apply wp_bind, wp_noPour; [by apply lastProcessedIteration_uses|]. intros lp ext. destruct (n <=? lp); [done|].
  apply wp_bind, wp_noPour; [by apply deriveIterationCount_uses|]. intros [g|] ext2; [|done].
  apply wp_bind, wp_noPour; [case_match; by uses_walk|]. intros [e|] ext3; [done|].
  destruct (ParseGateConfig meta) as [cfg|]; [|done]. destruct (ParseTriggerConfig meta) as [tc|]; [|done].
  by apply processWisp_pours.
Qed.

(** C28 No iteration is poured past the limit: every wisp [HandleWispClosed] pours,
    speculatively or not, is a child of the root with the key of iteration
    [n+1] for an [n] below [max_iterations] as read at the start of the call. *)
Theorem pours_within_limit `{UnicodeTables, DurationParser} h root wisp tr1 X (e : storeE X) x tr2 q :
  exec (HandleWispClosed h root wisp) (tr1 ++ Ev e x :: tr2) q → pourWithinLimit root tr1 X e.
Proof. apply hist_sound with (Q := λ _ _, True). apply HandleWispClosed_pours. Qed.

(** ** A speculative wisp is adopted or deleted *)

(** The speculative wisps this call poured and did not delete yet. *)
Definition outstanding (out : gset string) X (e : storeE X) : X → gset string :=
  match e in storeE X return X → gset string with
  | PourSpeculativeWisp _ _ _ _ _ => λ x,
      match x.2 with None => if x.1 == "" then out else {[x.1]} ∪ out | Some _ => out end
  | DeleteBead id => λ err, match err with None => out ∖ {[id]} | Some _ => out end
  | _ => λ _, out
  end.

(** The loop's state is only written when none is left. *)
Definition speculationMonitor (root : string) : monitor storeE (gset string) :=
  Monitor (λ out X e, match e with
                      | SetMetadata id k _ => id = root → k = FieldState → out = ∅
                      | _ => True
                      end) outstanding.

Definition isSpecPour {X} (e : storeE X) : bool :=
  match e with PourSpeculativeWisp _ _ _ _ _ => true | _ => false end.
Abbreviation noSpec := (λ X (e : storeE X), isSpecPour e = false).

(** Operations the monitor does not notice. *)
Definition neutral {X} (e : storeE X) : Prop :=
  match e with
  | PourSpeculativeWisp _ _ _ _ _ | DeleteBead _ => False
  | SetMetadata _ k _ => k ≠ FieldState
  | _ => True
  end.
Abbreviation neutralOps := (λ X (e : storeE X), neutral e).

Section speculation.
Context `{UnicodeTables, DurationParser} (h : Handler) (root : string).

Abbreviation G := (speculationMonitor root).

Lemma wp_neutral {A} (p : conv A) out (Q : A → gset string → Prop) :
  uses neutralOps p → (∀ a, Q a out) → wp G p out Q.
Proof. apply wp_uses. intros s X e He. destruct e; cbn in *; try done. Qed.

Lemma wp_empty {A} (p : conv A) (Q : A → gset string → Prop) : uses noSpec p → (∀ a, Q a ∅) → wp G p ∅ Q.
Proof.
  intros Hp HQ. induction p as [a|X e k IH]; cbn in *; [done|]. destruct Hp as [He Hk].
  split; [by destruct e|]. intros x. replace (outstanding ∅ X e x) with (∅ : gset string); [by apply IH|].
  destruct e; try done. cbn in x |- *. destruct x; set_solver.
Qed.

Lemma reads_neutral : withReadsEmits neutralOps.
Proof. intros X e. by destruct e. Qed.

Lemma noPour_noSpec {A} (p : conv A) : uses noPour p → uses noSpec p.
Proof. intros Hp. eapply uses_mono; [exact Hp|]. intros X e. by destruct e. Qed.

(** A subtree deletion only deletes, and on success its root is gone. *)
Lemma deleteBeadSubtree_spec depth id out :
  wp G (deleteBeadSubtree depth id) out (λ r out', out' ⊆ out ∧ (r = None → id ∉ out')).
Proof.
  revert id out. induction depth as [|depth IH]; intros id out; cbn [deleteBeadSubtree]; [by cbn|].
  apply wp_bind, wp_neutral; [by uses_walk|]. intros [children|e]; [|by cbn].
  apply wp_bind, (wp_forEach _ (λ out', out' ⊆ out)); [done| |].
  - intros out' Hs. cbn. split; [done|]. intros [e|]; cbn; [by split|]. split; [set_solver|intros _; set_solver].
  - intros c out' _ Hs. eapply wp_mono; [apply IH|]. intros [e|] out'' [Hs' _]; cbn; [|set_solver].
    split; [set_solver|done].
Qed.

Lemma burn_spec spec out :
  out = ∅ ∨ out = {[spec]} ∧ spec ≠ "" →
  wp G (burnSpeculativeWisp h root spec) out (λ r out', r = None → out' = ∅).
Proof.
  intros Hout. unfold burnSpeculativeWisp. case_bool_decide as Hs; [cbn; naive_solver|].
  eapply wp_seq; [apply deleteBeadSubtree_spec|]. intros [e|] out' [Hsub Hid]; [by cbn|]. cbn.
  split; [by intros _|]. intros _ _. specialize (Hid eq_refl). destruct Hout as [->|[-> _]]; set_solver.
Qed.

Lemma burn_then spec out f (q : conv (result HandlerResult)) :
  out = ∅ ∨ out = {[spec]} ∧ spec ≠ "" → uses noSpec q →
  wp G (thenE (burnSpeculativeWisp h root spec) f q) out (λ _ _, True).
Proof.
  intros Hout Hq. eapply wp_thenE; [by apply burn_spec|done|].
  intros out' Hb. rewrite Hb by done. by apply wp_empty.
Qed.

Lemma iterate_noSpec wisp n cfg gr meta spec : uses noSpec (iterate h root wisp n cfg gr meta spec).
Proof.
  assert (withReadsEmits noSpec) as HF by (intros X e; by destruct e).
  pose proof (withReadsEmits_reads _ HF) as HR. unfold iterate, clearVerdict, committed.
  uses_walk; auto using computeDurations_uses, emitEvent_uses.
  all: try (apply noPour_noSpec, transitionToWaitingManual_noPour).
  all: try (by apply pourOrFind_uses); by apply commit_uses.
Qed.

Lemma iterate_adopts wisp n cfg gr meta spec :
  spec ≠ "" → uses neutralOps (iterate h root wisp n cfg gr meta spec).
Proof.
  intros Hs. pose proof (withReadsEmits_reads _ reads_neutral) as HR. unfold iterate, clearVerdict, committed.
  rewrite (bool_decide_false (spec = "")) by done. cbn [negb bind].
  uses_walk; auto using computeDurations_uses, emitEvent_uses, reads_neutral.
  all: first [ exact I | discriminate | apply commit_uses; [|done|discriminate];
    intros w Hw; apply list_elem_of_singleton in Hw as ->; discriminate ].
Qed.

(** What the poured wisps are when step 7 starts. *)
Definition pouredOK (tc : TriggerConfig) (spec : string) (serr : option error) (out : gset string) : Prop :=
  out = ∅ ∨ out = {[spec]} ∧ spec ≠ "" ∧ serr = None ∧ Enabled tc = false.

Lemma conclude_speculation wisp n mx g cfg tc gr meta spec serr out :
  pouredOK tc spec serr out → wp G (conclude h root wisp n mx g cfg tc gr meta spec serr) out (λ _ _, True).
Proof.
  intros Hp. assert (out = ∅ ∨ out = {[spec]} ∧ spec ≠ "") as Hb by (unfold pouredOK in Hp; naive_solver).
  unfold conclude. destruct (_ && _); [by apply burn_then; [|apply noPour_noSpec, transitionToWaitingManual_noPour]|].
  destruct (terminalReasonFor _ _ _ _); [by apply burn_then; [|apply noPour_noSpec, terminate_noPour]|].
  destruct Hp as [->|(-> & Hs & -> & ->)]; [|by apply wp_neutral; [apply iterate_adopts|]].
  apply wp_empty; [|done]. destruct serr; [apply noPour_noSpec, transitionToWaitingManual_noPour|].
  destruct (Enabled tc); [apply noPour_noSpec, transitionToWaitingTrigger_noPour|apply iterate_noSpec].
Qed.

Lemma validPending_neutral k p : uses neutralOps (validPendingNextWisp root k p).
Proof. apply validPendingNextWisp_uses; [apply withReadsEmits_reads, reads_neutral|discriminate]. Qed.

Lemma speculativePour_spec k n mx cfg tc meta :
  wp G (speculativePour h root k n mx cfg tc meta) ∅
    (λ r out, ∀ spec serr, r = Ok (spec, serr) → pouredOK tc spec serr out).
Proof.
  unfold speculativePour. apply wp_bind, wp_neutral; [apply validPending_neutral|]. intros pending.
  destruct (_ && _ && _) eqn:Hc; [|intros ? ? [= <- <-]; by left]. bsplit.
  assert (Enabled tc = false) as Htc by done.
  apply wp_bind. split; [done|]. intros [id [e|]]; cbn [wp snd fst].
  - (* a failed pour leaves nothing outstanding *)
    apply wp_empty; [|intros a spec serr ->; by left].
    uses_walk; try done. apply noPour_noSpec, burn_noPour.
  - cbn [bind fst]. cbn [next speculationMonitor outstanding snd fst].
    destruct (bool_decide_reflect (id = "")) as [Hid|Hid]; cbn [negb wp]; [intros ? ? [= <- <-]; by left|].
    apply wp_bind, wp_neutral; [by split|]. intros [e|]; cbn [wp].
    + eapply wp_seq; [apply burn_spec; right; split; [set_solver|done]|]. by intros ? ? ? ? ?.
    + intros ? ? [= <- <-]. right. split_and!; [set_solver|done|done|done].
Qed.

Lemma HandleWispClosed_speculation wisp : wp G (HandleWispClosed h root wisp) ∅ (λ _ _, True).
Proof.
  pose proof (withReadsEmits_reads _ reads_neutral) as HR. unfold HandleWispClosed.
  apply wp_bind, wp_neutral; [by uses_walk|]. intros [meta|]; [|done].
  destruct (_ == _); [by apply wp_neutral; [uses_walk|]|].
  apply wp_bind, wp_neutral; [by uses_walk|]. intros [info|]; [|done].
  destruct (ParseIterationFromKey _) as [n []]; cbn [negb]; [|done].
  apply wp_bind, wp_neutral; [by apply lastProcessedIteration_uses|]. intros lp. destruct (n <=? lp); [done|].
  apply wp_bind, wp_neutral; [by apply deriveIterationCount_uses|]. intros [g|]; [|done].
  apply wp_bind, wp_neutral; [case_match; by uses_walk|]. intros [e|]; [done|].
  destruct (ParseGateConfig meta) as [cfg|]; [|done]. destruct (ParseTriggerConfig meta) as [tc|]; [|done].
  unfold processWisp. destruct (_ && _ && _).
  { apply wp_empty; [|done]. apply noPour_noSpec. uses_walk; [|apply burn_noPour].
    apply validPendingNextWisp_uses; [intros X e; by destruct e|done]. }
  eapply wp_seq; [apply speculativePour_spec|]. intros [[spec serr]|] out Hp; [|done].
  specialize (Hp _ _ eq_refl). destruct (_ == _); [by apply conclude_speculation|].
  assert (out = ∅ ∨ out = {[spec]} ∧ spec ≠ "") as Hb by (unfold pouredOK in Hp; naive_solver).
  unfold evaluateAndConclude.
  do 2 (case_match; [by apply burn_then; [|apply noPour_noSpec, transitionToWaitingManual_noPour]|]).
  apply wp_bind, wp_neutral; [apply evaluateGate_uses; intros X e [?|?]; by destruct e|]. intros gr.
  apply wp_bind, wp_neutral; [|intros [e|]; [|by apply conclude_speculation]].
  - apply commit_uses; [|done|discriminate]. intros w Hw. rewrite list_elem_of_In in Hw. cbn in Hw.
    destruct_or? Hw; try contradiction; subst w; discriminate.
  - eapply wp_seq; [by apply burn_spec|]. done.
Qed.
End speculation.

(** Speculative work never outlives its purpose: in every execution of
    [HandleWispClosed], whenever the loop's state is written (to waiting or
    terminated), every speculative wisp poured by this call has been deleted. *)
Theorem speculation_burned `{UnicodeTables, DurationParser} h root wisp tr1 state x tr2 q :
  exec (HandleWispClosed h root wisp) (tr1 ++ Ev (SetMetadata root FieldState state) x :: tr2) q →
  after (speculationMonitor root) ∅ tr1 = ∅.
Proof.
  intros He. pose proof (wp_sound _ _ _ _ _ _ (HandleWispClosed_speculation h root wisp) He) as Ha.
  apply accepts_app in Ha as [_ Ha]. cbn in Ha. destruct Ha as [Hs _]. by apply Hs.
Qed.

(** ** A result reports stored effects *)

Definition stored (root : string) (hist : list (event storeE)) (k v : string) : Prop :=
  Ev (SetMetadata root k v) None ∈ hist.

Definition resultEffects (root wisp : string) (hist : list (event storeE)) (r : HandlerResult) : Prop :=
  hrAction r = ActionSkipped ∨
  (wisp ≠ "" → stored root hist FieldLastProcessedWisp wisp) ∧
  ((hrAction r = ActionIterate ∧ hrGateOutcome r ≠ GatePass ∧
    Ev (ActivateWisp (hrNextWispID r)) None ∈ hist ∧ stored root hist FieldActiveWisp (hrNextWispID r)) ∨
   (hrAction r = ActionWaitingManual ∧ stored root hist FieldActiveWisp "" ∧
    stored root hist FieldWaitingReason (hrWaitingReason r) ∧ stored root hist FieldState StateWaitingManual) ∨
   (hrAction r = ActionWaitingTrigger ∧ hrGateOutcome r ≠ GatePass ∧
    stored root hist FieldActiveWisp "" ∧ stored root hist FieldState StateWaitingTrigger) ∨
   ((hrAction r = ActionApproved ∧ hrGateOutcome r = GatePass ∨
     hrAction r = ActionNoConvergence ∧ hrGateOutcome r ≠ GatePass) ∧
    stored root hist FieldTerminalReason (hrAction r) ∧ stored root hist FieldTerminalActor "controller" ∧
    stored root hist FieldState StateTerminated ∧ Ev (CloseBead root CloseReasonHandlerRoot) None ∈ hist)).

(** The monitor that allows everything and only keeps the history. *)
Abbreviation record := (histMonitor (E := storeE) (λ _ _ _, True)).

Lemma wp_record {A} (p : conv A) hist (Q : A → list (event storeE) → Prop) :
  (∀ a ext, Q a (hist ++ ext)) → wp record p hist Q.
Proof. intros HQ. apply (wp_hist_uses _ (λ _ _, True)); [done|apply uses_any|done]. Qed.

(** Every write of a list was performed and succeeded. *)
Definition writesIn (root : string) (ws : list metaWrite) (hist : list (event storeE)) : Prop :=
  Forall (λ w, Ev (SetMetadata root (mwKey w) (mwValue w)) None ∈ hist) ws.

Ltac open_writes H := unfold writesIn in H; rewrite ?Forall_cons in H; cbn in H; destruct_and? H.
Ltac in_hist := solve [unfold stored in *; cbn in *; rewrite ?elem_of_app; auto 10 using list_elem_of_here].

Lemma wp_writes root ws hist (Q : option error → list (event storeE) → Prop) :
  (∀ e ext, Q (Some e) (hist ++ ext)) →
  (∀ ext, writesIn root ws ext → Q None (hist ++ ext)) →
  wp record (forEach ws (write root)) hist Q.
Proof.
  revert hist. induction ws as [|w ws IH]; intros hist HE HN; cbn [forEach].
  { rewrite <-(app_nil_r hist). apply HN. constructor. }
  apply wp_bind, wp_write; [done|intros e e'; apply HE|]. apply IH.
  - intros e ext. rewrite <-app_assoc. apply HE.
  - intros ext Hext. rewrite <-app_assoc. apply HN. constructor; [left|].
    eapply Forall_impl; [exact Hext|]. cbn. intros w' Hw'. by right.
Qed.

Lemma wp_commit_record root ws pre marker (R : list (event storeE) → Prop) hist (Q : option error → list (event storeE) → Prop) :
  (∀ hist', wp record (match pre with Some p => p | None => Ret None end) hist'
     (λ r h', ∃ ext, h' = hist' ++ ext ∧ (r = None → R ext))) →
  (∀ e ext, Q (Some e) (hist ++ ext)) →
  (∀ e1 e2 e3, writesIn root ws e1 → R e2 →
     (mwValue marker ≠ "" → Ev (SetMetadata root (mwKey marker) (mwValue marker)) None ∈ e3) →
     Q None (hist ++ e1 ++ e2 ++ e3)) →
  wp record (commit root ws pre marker) hist Q.
Proof.
  intros Hpre HE HN. unfold commit. apply wp_bind, wp_writes; [intros e ext; apply HE|].
  intros e1 H1. eapply wp_seq; [apply Hpre|]. intros [e|] h' (e2 & -> & H2); cbn [wp].
  { rewrite <-app_assoc. apply HE. }
  specialize (H2 eq_refl). case_bool_decide as Hm.
  - cbn. rewrite <-(app_nil_r ((hist ++ e1) ++ e2)), <-!app_assoc. by apply HN.
  - apply wp_write; [done|intros e e'; rewrite <-!app_assoc; apply HE|].
    rewrite <-!app_assoc. apply HN; [done|done|]. set_solver.
Qed.

Section effects.
Context `{UnicodeTables, DurationParser} (h : Handler) (root wisp : string).

Definition effectsPost (r : result HandlerResult) (hist : list (event storeE)) : Prop :=
  ∀ hr, r = Ok hr → resultEffects root wisp hist hr.

Lemma no_pre hist : wp record (Ret None : conv (option error)) hist (λ r h', ∃ ext, h' = hist ++ ext ∧ (r = None → True)).
Proof. exists []. by rewrite app_nil_r. Qed.

(** A commit without a pre-marker action, then more operations. *)
Lemma wp_committed_record ws v d (q : conv (result HandlerResult)) hist hr :
  (∀ hist', wp record q hist' (λ r _, r = Ok hr)) →
  (∀ hist' e1 e3 ext, writesIn root ws e1 →
     (v ≠ "" → stored root e3 FieldLastProcessedWisp v) →
     resultEffects root wisp (hist ++ (e1 ++ hist' ++ e3) ++ ext) hr) →
  wp record (committed (commit root ws None (mkWrite FieldLastProcessedWisp v d)) q) hist effectsPost.
Proof.
  intros Hq Heff. unfold committed. apply wp_bind.
  apply (wp_commit_record root ws None _ (λ _, True)); [apply no_pre|done|].
  intros e1 e2 e3 H1 _ H3.
  assert (∀ p hist0, wp record p hist0 (λ r _, r = Ok hr) →
    (∀ ext, resultEffects root wisp (hist0 ++ ext) hr) → wp record p hist0 effectsPost) as Hgen.
  { clear. induction p as [a|X e k IH]; intros hist0 Hp Heff; cbn in *.
    - subst a. intros hr' [= <-]. rewrite <-(app_nil_r hist0). apply Heff.
    - split; [done|]. intros x. apply IH; [apply Hp|]. intros ext. rewrite <-app_assoc. apply Heff. }
  apply Hgen; [apply Hq|]. intros ext. rewrite <-app_assoc. by apply Heff.
Qed.

Lemma waitingManual_effects n cfg gr reason outcome meta hist :
  wp record (transitionToWaitingManual h root wisp n cfg gr reason outcome meta) hist effectsPost.
Proof.
  unfold transitionToWaitingManual. apply wp_bind, wp_record. intros durs ext1.
  apply wp_bind, wp_record. intros _ ext2. eapply wp_committed_record.
  { intros hist'. apply wp_bind, wp_record. done. }
  intros hist' e1 e3 ext H1 H3. open_writes H1. right. split; [intros Hw; specialize (H3 Hw); in_hist|].
  right; left. cbn. split_and!; [done|in_hist..].
Qed.

Lemma clearVerdict_effects meta (q : conv (result HandlerResult)) hist :
  (∀ hist', wp record q hist' effectsPost) → wp record (clearVerdict root wisp meta q) hist effectsPost.
Proof.
  intros Hq. unfold clearVerdict. destruct (_ == _); [|apply Hq].
  do 2 (apply wp_bind, wp_record; intros [e|] ?; [done|]). apply Hq.
Qed.

Lemma iterate_effects n cfg gr meta spec hist :
  grOutcome gr ≠ GatePass → wp record (iterate h root wisp n cfg gr meta spec) hist effectsPost.
Proof.
  intros Hgr. unfold iterate. apply clearVerdict_effects. intros hist1.
  apply wp_bind, wp_record. intros [next|e] ext; [|apply waitingManual_effects].
  apply wp_perform; [done|]. intros [e|]; [done|].
  apply wp_bind, wp_record. intros durs ext1. apply wp_bind, wp_record. intros _ ext2.
  eapply wp_committed_record; [intros hist'; apply wp_bind, wp_record; done|].
  intros hist' e1 e3 ext3 H1 H3. open_writes H1. right. split; [intros Hw; specialize (H3 Hw); in_hist|].
  left. cbn. split_and!; [done|done|in_hist..].
Qed.

Lemma waitingTrigger_effects n cfg gr meta hist :
  grOutcome gr ≠ GatePass → wp record (transitionToWaitingTrigger h root wisp n cfg gr meta) hist effectsPost.
Proof.
  intros Hgr. unfold transitionToWaitingTrigger. apply clearVerdict_effects. intros hist1.
  apply wp_bind, wp_record. intros durs ext1. apply wp_bind, wp_record. intros _ ext2.
  eapply wp_committed_record; [by intros hist'|].
  intros hist' e1 e3 ext3 H1 H3. open_writes H1. right. split; [intros Hw; specialize (H3 Hw); in_hist|].
  right; right; left. cbn. split_and!; [done|done|in_hist..].
Qed.

Lemma terminate_effects n cfg gr reason g meta hist :
  (reason = TerminalApproved ∧ grOutcome gr = GatePass ∨ reason = TerminalNoConvergence ∧ grOutcome gr ≠ GatePass) →
  wp record (terminate h root wisp n cfg gr reason "controller" g meta) hist effectsPost.
Proof.
  intros Hr. unfold terminate. apply wp_bind, wp_record. intros durs ext1.
  do 2 (apply wp_bind, wp_record; intros _ ?). unfold committed. apply wp_bind.
  apply (wp_commit_record root _ _ _ (λ ext, Ev (CloseBead root CloseReasonHandlerRoot) None ∈ ext)).
  - intros hist'. apply wp_perform; [done|]. intros [e|]; (eexists; split; [done|]); [done|]. intros _. left.
  - done.
  - intros e1 e2 e3 H1 H2 H3 hr [= <-]. open_writes H1. right.
    split; [intros Hw; specialize (H3 Hw); in_hist|]. right; right; right. cbn.
    split_and!; [destruct Hr as [[-> ?]|[-> ?]]; auto|in_hist..].
Qed.

Lemma conclude_effects n mx g cfg tc gr meta spec serr hist :
  wp record (conclude h root wisp n mx g cfg tc gr meta spec serr) hist effectsPost.
Proof.
  unfold conclude. destruct (_ && _).
  { apply wp_bind, wp_record. intros [e|] ext; [done|]. apply waitingManual_effects. }
  destruct (terminalReasonFor _ _ _ _) as [reason|] eqn:Ht; unfold terminalReasonFor in Ht;
    (destruct (bool_decide_reflect (grOutcome gr = GatePass)) as [Hp|Hp]; [try discriminate Ht|]).
  - apply wp_bind, wp_record. intros [e|] ext; [done|]. apply terminate_effects. injection Ht as <-. auto.
  - apply wp_bind, wp_record. intros [e|] ext; [done|]. apply terminate_effects.
    right. split; [|done]. destruct (_ && _); [congruence|]. destruct (_ <=? _); congruence.
  - destruct serr; [apply waitingManual_effects|].
    destruct (Enabled tc); [by apply waitingTrigger_effects|by apply iterate_effects].
Qed.

Lemma HandleWispClosed_effects : wp record (HandleWispClosed h root wisp) [] effectsPost.
Proof.
  unfold HandleWispClosed. apply wp_callE; [done|done|]. intros meta.
  destruct (_ == _); [apply wp_perform; [done|]; intros ? hr [= <-]; by left|].
  apply wp_callE; [done|done|]. intros info. destruct (ParseIterationFromKey _) as [n []]; cbn [negb]; [|done].
  apply wp_bind, wp_record. intros lp ext. destruct (n <=? lp); [intros hr [= <-]; by left|].
  apply wp_bind, wp_record. intros [g|] ext2; [|done]. apply wp_bind, wp_record. intros [e|] ext3; [done|].
  destruct (ParseGateConfig meta) as [cfg|]; [|done]. destruct (ParseTriggerConfig meta) as [tc|]; [|done].
  unfold processWisp. destruct (_ && _ && _).
  { apply wp_bind, wp_record. intros pending ext4. destruct (_ != _); [|done].
    apply wp_bind, wp_record. by intros [e|] ext5. }
  apply wp_bind, wp_record. intros [[spec serr]|] ext4; [|done].
  destruct (_ == _); [apply conclude_effects|]. unfold evaluateAndConclude.
  do 2 (case_match; [apply wp_bind, wp_record; intros [e|] ?; [done|]; apply waitingManual_effects|]).
  do 2 (apply wp_bind, wp_record; intros ? ?). case_match; [|apply conclude_effects].
  apply wp_bind, wp_record. done.
Qed.
End effects.

(** C27 A successful result is never ahead of the store: when [HandleWispClosed]
    returns an action other than skipped, every effect the action stands for
    was stored, the marker included; and it approves exactly on a passing gate:
    approved means pass, iterate, waiting_trigger and no_convergence mean not
    pass. *)
Theorem result_effects `{UnicodeTables, DurationParser} h root wisp tr r :
  exec (HandleWispClosed h root wisp) tr (Ret (Ok r)) → resultEffects root wisp tr r.
Proof.
  intros He. pose proof (wp_sound_ret _ _ _ _ _ _ (HandleWispClosed_effects h root wisp) He) as HQ.
  rewrite hist_after in HQ. by apply HQ.
Qed.
