(* ===== verification/ConvManual.v ===== *)
(** * ConvManual: creation, retry, triggers and the operator's commands

    Models [internal/convergence/create.go], [retry.go], [manual.go] and the
    trigger side of [trigger.go], as programs over the store interface. *)

From S2P Require Import Prelude GoBase GoText ConvMeta Prog ConvStore ConvHandler.

Local Open Scope Z_scope.

Record CreateParams := mkCreateParams {
  prFormula : string;
  prTarget : string;
  prMaxIterations : Z;
  prGateMode : string;
  prGateCondition : string;
  prGateTimeout : string;
  prGateTimeoutAction : string;
  prTitle : string;
  prVars : metadata;
  prCityPath : string;
  prEvaluatePrompt : string;
  prTrigger : string;
  prTriggerCondition : string;
  prRig : string;
  prRetrySource : string
}.

Record CreateResult := mkCreateResult { crBeadID : string; crFirstWispID : string }.

Record RetryResult := mkRetryResult { rrNewBeadID : string; rrFirstWispID : string; rrIteration : Z }.

Section manual.
Context `{UnicodeTables, DurationParser} (h : Handler).

(** The order in which a [range] loop visits a map: Go does not specify it. *)
Variable rangeMap : metadata → list (string * string).

(** ** Creation *)

(** [closeBead]: the best-effort rollback of a partial creation. *)
Definition createRollback {A} (beadID closeReason : string) (cause : error) : conv (result A) :=
  let* _ := perform (SetMetadata beadID FieldState StateTerminated) in
  let* _ := perform (CloseBead beadID closeReason) in
  Ret (Err cause).

(** [if err := p; err != nil { return closeBead (f err) }; q]. *)
Definition orRollback {A} (beadID closeReason : string) (p : conv (option error)) (f : error → error)
    (q : conv (result A)) : conv (result A) :=
  let* err := p in
  match err with Some e => createRollback beadID closeReason (f e) | None => q end.

(** The loop over the metadata writes of step 2. *)
Fixpoint createWrites {A} (beadID closeReason : string) (ws : list (string * string)) (q : conv (result A)) : conv (result A) :=
  match ws with
  | [] => q
  | (k, v) :: ws' =>
      orRollback beadID closeReason (perform (SetMetadata beadID k v))
        (wrapf "setting %s on convergence bead: %w" [AStr k]) (createWrites beadID closeReason ws' q)
  end.

(** The loop over the template variables of step 3. *)
Fixpoint createVars {A} (beadID closeReason : string) (vars : list (string * string)) (q : conv (result A)) : conv (result A) :=
  match vars with
  | [] => q
  | (k, v) :: vars' =>
      orRollback beadID closeReason (perform (SetMetadata beadID (VarPrefix +:+ k) v))
        (wrapf "setting var %q on convergence bead: %w" [AStr k]) (createVars beadID closeReason vars' q)
  end.

Definition gateMetaOf (mode condition timeout action : string) : metadata :=
  list_to_map [(FieldGateMode, mode); (FieldGateCondition, condition); (FieldGateTimeout, timeout);
    (FieldGateTimeoutAction, action)].

Definition createMetaWrites (p : CreateParams) (gateMode : string) : list (string * string) :=
  [(FieldFormula, p.(prFormula)); (FieldTarget, p.(prTarget)); (FieldMaxIterations, EncodeInt p.(prMaxIterations));
   (FieldGateMode, gateMode); (FieldGateCondition, p.(prGateCondition)); (FieldGateTimeout, p.(prGateTimeout));
   (FieldGateTimeoutAction, p.(prGateTimeoutAction)); (FieldCityPath, p.(prCityPath)); (FieldRig, p.(prRig));
   (FieldEvaluatePrompt, p.(prEvaluatePrompt)); (FieldTrigger, p.(prTrigger));
   (FieldTriggerCondition, p.(prTriggerCondition))] ++
  (if p.(prRetrySource) != "" then [(FieldRetrySource, p.(prRetrySource))] else []).

(** Steps 4 to 6, after all metadata is stored. *)
Definition createStart (params : CreateParams) (gateMode title beadID closeReason : string)
    (triggerConfig : TriggerConfig) : conv (result CreateResult) :=
  let retrySource := NullableString params.(prRetrySource) in
  let created firstWispID := PCreated (mkCreatedPayload params.(prFormula) params.(prTarget) "" gateMode
    params.(prMaxIterations) title firstWispID retrySource) in
  if Enabled triggerConfig then
    orRollback beadID closeReason (perform (SetMetadata beadID FieldIteration (EncodeInt 0)))
      (wrapf "setting iteration: %w" [])
    (orRollback beadID closeReason (perform (SetMetadata beadID FieldState StateWaitingTrigger))
      (wrapf "setting waiting_trigger state: %w" [])
    (let* _ := emitEvent h EventCreated (EventIDCreated beadID) beadID (created "") in
    Ret (Ok (mkCreateResult beadID ""))))
  else
    orRollback beadID closeReason (perform (SetMetadata beadID FieldState StateActive))
      (wrapf "setting active state: %w" [])
    (let* poured := call (PourWisp beadID params.(prFormula) (IdempotencyKey beadID 1) params.(prVars)
      params.(prEvaluatePrompt)) in
    match poured with
    | Err e => createRollback beadID closeReason (wrapf "pouring first wisp: %w" [] e)
    | Ok firstWispID =>
        orRollback beadID closeReason (perform (SetMetadata beadID FieldActiveWisp firstWispID))
          (wrapf "setting active wisp: %w" [])
        (orRollback beadID closeReason (perform (SetMetadata beadID FieldIteration (EncodeInt 1)))
          (wrapf "setting iteration: %w" [])
        (let* _ := emitEvent h EventCreated (EventIDCreated beadID) beadID (created firstWispID) in
        Ret (Ok (mkCreateResult beadID firstWispID))))
    end).

Definition CreateHandler (params : CreateParams) : conv (result CreateResult) :=
  if params.(prFormula) == "" then Ret (Err (Errorf "formula is required" []))
  else if params.(prTarget) == "" then Ret (Err (Errorf "target is required" []))
  else if params.(prMaxIterations) <=? 0 then Ret (Err (Errorf "max_iterations must be positive" []))
  else
  let gateMode := if params.(prGateMode) == "" then GateModeManual else params.(prGateMode) in
  match ParseGateConfig (gateMetaOf gateMode params.(prGateCondition) params.(prGateTimeout) params.(prGateTimeoutAction)) with
  | Err e => Ret (Err e)
  | Ok _ =>
  match ParseTriggerConfig (list_to_map [(FieldTrigger, params.(prTrigger));
          (FieldTriggerCondition, params.(prTriggerCondition))]) with
  | Err e => Ret (Err e)
  | Ok triggerConfig =>
      let title := if params.(prTitle) == "" then "Convergence: " +:+ params.(prFormula) else params.(prTitle) in
      let? beadID := call (CreateConvergenceBead title) else wrapf "creating convergence bead: %w" [] in
      let closeReason := if params.(prRetrySource) != "" then CloseReasonRetryRollback else CloseReasonCreateRollback in
      orRollback beadID closeReason (perform (SetMetadata beadID FieldState StateCreating))
        (wrapf "setting creating state: %w" [])
      (createWrites beadID closeReason (createMetaWrites params gateMode)
      (createVars beadID closeReason (rangeMap params.(prVars))
      (createStart params gateMode title beadID closeReason triggerConfig)))
  end end.

(** ** Retry *)

Definition RetryHandler (sourceBeadID : string) (maxIterations : Z) : conv (result RetryResult) :=
  let? meta := call (GetMetadata sourceBeadID) else wrapf "reading source bead %q metadata: %w" [AStr sourceBeadID] in
  if meta.[FieldState] != StateTerminated
  then Ret (Err (Errorf "cannot retry bead %q: state is %q, expected %q"
    [AStr sourceBeadID; AStr meta.[FieldState]; AStr StateTerminated]))
  else if meta.[FieldTerminalReason] == TerminalApproved
  then Ret (Err (Errorf "cannot retry bead %q: terminal_reason is %q (approved loops cannot be retried)"
    [AStr sourceBeadID; AStr TerminalApproved]))
  else
  match ParseGateConfig (gateMetaOf meta.[FieldGateMode] meta.[FieldGateCondition] meta.[FieldGateTimeout]
          meta.[FieldGateTimeoutAction]) with
  | Err e => Ret (Err (wrapf "source bead %q has invalid gate config: %w" [AStr sourceBeadID] e))
  | Ok _ =>
      let? result := CreateHandler (mkCreateParams meta.[FieldFormula] meta.[FieldTarget] maxIterations
          meta.[FieldGateMode] meta.[FieldGateCondition] meta.[FieldGateTimeout] meta.[FieldGateTimeoutAction]
          ("Retry of " +:+ sourceBeadID) (ExtractVars meta) meta.[FieldCityPath] meta.[FieldEvaluatePrompt]
          meta.[FieldTrigger] meta.[FieldTriggerCondition] meta.[FieldRig] sourceBeadID)
        else (λ e, e) in
      Ret (Ok (mkRetryResult result.(crBeadID) result.(crFirstWispID) 1))
  end.

(** ** Triggers *)

Definition TriggerConditionEnv (meta : metadata) (beadID cityPath storePath : string) (nextIteration : Z) : ConditionEnv :=
  let '(maxIter, ok) := DecodeInt meta.[FieldMaxIterations] in
  mkConditionEnv beadID nextIteration cityPath storePath "" "" meta.[VarPrefix +:+ "doc_path"] ""
    (ArtifactDirFor cityPath beadID nextIteration) 0 0 (if ok then maxIter else 0) "" "" "".

Definition advanceFromTrigger (rootBeadID : string) (meta : metadata) (nextIteration : Z) : conv (result HandlerResult) :=
  let? nextWispID := pourOrFind rootBeadID (IdempotencyKey rootBeadID nextIteration) meta
    else wrapf "pouring wisp for iteration %d: %w" [AInt nextIteration] in
  do? perform (ActivateWisp nextWispID) else wrapf "activating wisp %q: %w" [AStr nextWispID] in
  do? perform (SetMetadata rootBeadID FieldIteration (EncodeInt nextIteration)) else wrapf "setting iteration: %w" [] in
  do? perform (SetMetadata rootBeadID FieldActiveWisp nextWispID) else wrapf "setting active wisp: %w" [] in
  do? perform (SetMetadata rootBeadID FieldState StateActive) else wrapf "setting state to active: %w" [] in
  let* _ := emitEvent h EventTriggerAdvance (EventIDTriggerAdvance rootBeadID nextIteration) rootBeadID
    (PManualAction (mkManualActionPayload "" "controller" StateWaitingTrigger StateActive nextIteration
      (NullableString meta.[FieldLastProcessedWisp]) (NullableString nextWispID))) in
  Ret (Ok (mkHandlerResult ActionIterate nextIteration "" nextWispID "")).

Definition HandleTrigger (rootBeadID : string) : conv (result HandlerResult) :=
  let? meta := call (GetMetadata rootBeadID) else wrapf "reading root bead metadata: %w" [] in
  if meta.[FieldState] != StateWaitingTrigger then Ret (Ok skipped)
  else match ParseTriggerConfig meta with
  | Err e => Ret (Err (wrapf "parsing trigger config: %w" [] e))
  | Ok triggerConfig =>
      if negb (Enabled triggerConfig)
      then Ret (Err (Errorf "bead %q is in %s but has no trigger configured" [AStr rootBeadID; AStr StateWaitingTrigger]))
      else match ParseGateConfig meta with
      | Err e => Ret (Err (wrapf "parsing gate config: %w" [] e))
      | Ok gateConfig =>
          let? closedIterations := deriveIterationCount rootBeadID else wrapf "deriving iteration count: %w" [] in
          let nextIteration := incr64 closedIterations in
          let '(maxIter, ok) := DecodeInt meta.[FieldMaxIterations] in
          if ok && (0 <? maxIter) && (maxIter <? nextIteration)
          then Ret (Err (Errorf "trigger-gated loop %q at iteration %d exceeds max_iterations %d; refusing to advance"
            [AStr rootBeadID; AInt nextIteration; AInt maxIter]))
          else
          let* r := RunCondition triggerConfig.(tcCondition)
            (TriggerConditionEnv meta rootBeadID meta.[FieldCityPath] h.(hStorePath) nextIteration)
            gateConfig.(gcTimeout) 0 in
          if r.(grOutcome) != GatePass then Ret (Ok skipped)
          else advanceFromTrigger rootBeadID meta nextIteration
      end
  end.

(** ** Operator commands *)

Definition ApproveHandler (beadID username : string) : conv (result HandlerResult) :=
  let? meta := call (GetMetadata beadID) else wrapf "reading bead %q metadata: %w" [AStr beadID] in
  let state := meta.[FieldState] in
  let actor := "operator:" +:+ username in
  if (state == StateTerminated) && (meta.[FieldTerminalReason] == TerminalApproved)
  then Ret (Ok (mkHandlerResult ActionApproved 0 "" "" ""))
  else if state != StateWaitingManual
  then Ret (Err (Errorf "cannot approve bead %q: state is %q, expected %q" [AStr beadID; AStr state; AStr StateWaitingManual]))
  else
  let? iterationCount := deriveIterationCount beadID else wrapf "deriving iteration count for bead %q: %w" [AStr beadID] in
  let lastProcessedWisp := meta.[FieldLastProcessedWisp] in
  let eventWispID := if meta.[FieldActiveWisp] != "" then meta.[FieldActiveWisp] else lastProcessedWisp in
  let* durs := computeDurations beadID eventWispID in
  committed (commit beadID
    [mkWrite FieldTerminalReason TerminalApproved "setting terminal reason";
     mkWrite FieldTerminalActor actor "setting terminal actor";
     mkWrite FieldWaitingReason "" "clearing waiting reason";
     mkWrite FieldState StateTerminated "setting state to terminated"]
    (Some (let* _ := emitEvent h EventTerminated (EventIDTerminated beadID) beadID
             (PTerminated (mkTerminatedPayload "" TerminalApproved iterationCount "closed" actor (Milliseconds durs.2))) in
           let* err := perform (CloseBead beadID CloseReasonManualApprove) in
           match err with
           | Some e => Ret (Some (wrapf "closing bead %q: %w" [AStr beadID] e))
           | None =>
               let* _ := emitEvent h EventManualApprove (EventIDManualApprove beadID) beadID
                 (PManualAction (mkManualActionPayload "" actor StateWaitingManual StateTerminated iterationCount
                   (NullableString eventWispID) None)) in
               Ret None
           end))
    (mkWrite FieldLastProcessedWisp lastProcessedWisp "setting last processed wisp"))
  (Ret (Ok (mkHandlerResult ActionApproved iterationCount "" "" ""))).

Definition IterateHandler (beadID username : string) : conv (result HandlerResult) :=
  let? meta := call (GetMetadata beadID) else wrapf "reading bead %q metadata: %w" [AStr beadID] in
  let state := meta.[FieldState] in
  if state != StateWaitingManual
  then Ret (Err (Errorf "cannot iterate bead %q: state is %q, expected %q" [AStr beadID; AStr state; AStr StateWaitingManual]))
  else
  let? iterationCount := deriveIterationCount beadID else wrapf "deriving iteration count for bead %q: %w" [AStr beadID] in
  let maxIterations := (DecodeInt meta.[FieldMaxIterations]).1 in
  if maxIterations <=? iterationCount
  then Ret (Err (Errorf "cannot iterate bead %q: at max iterations (%d/%d)" [AStr beadID; AInt iterationCount; AInt maxIterations]))
  else
  let lastProcessedWisp := meta.[FieldLastProcessedWisp] in
  let nextIteration := incr64 iterationCount in
  let? nextWispID := pourOrFind beadID (IdempotencyKey beadID nextIteration) meta
    else wrapf "pouring next wisp for bead %q: %w" [AStr beadID] in
  let* verdictErr :=
    (if (lastProcessedWisp != "") && (meta.[FieldAgentVerdictWisp] == lastProcessedWisp) then
       let* e1 := perform (SetMetadata beadID FieldAgentVerdict "") in
       match e1 with
       | Some e => Ret (Some (wrapf "clearing agent verdict: %w" [] e))
       | None => let* e2 := perform (SetMetadata beadID FieldAgentVerdictWisp "") in
                 Ret (option_map (wrapf "clearing agent verdict wisp: %w" []) e2)
       end
     else Ret None) in
  match verdictErr with
  | Some e => Ret (Err e)
  | None =>
      do? perform (SetMetadata beadID FieldWaitingReason "") else wrapf "clearing waiting reason: %w" [] in
      do? perform (SetMetadata beadID FieldState StateActive) else wrapf "setting state to active: %w" [] in
      do? perform (SetMetadata beadID FieldActiveWisp nextWispID) else wrapf "setting active wisp: %w" [] in
      let* _ := emitEvent h EventManualIterate (EventIDManualIterate beadID nextIteration) beadID
        (PManualAction (mkManualActionPayload "" ("operator:" +:+ username) StateWaitingManual StateActive nextIteration
          (NullableString lastProcessedWisp) (NullableString nextWispID))) in
      Ret (Ok (mkHandlerResult ActionIterate nextIteration "" nextWispID ""))
  end.

(** The wisp that stands in for a lost active wisp: the next one after the last
    processed, or the highest open, or the highest closed. *)
Definition recoverCurrentActiveWisp (beadID lastProcessedWisp : string) : conv (result (option BeadInfo)) :=
  let? children := call (Children beadID) else wrapf "listing children for stale active wisp recovery: %w" [] in
  let? next :=
    (if lastProcessedWisp != "" then
       let* r := call (GetBead lastProcessedWisp) in
       Ret (match r with
            | Err e => if negb (IsNotFound e)
                       then Err (wrapf "reading last processed wisp %q: %w" [AStr lastProcessedWisp] e) else Ok None
            | Ok info => let '(iter, ok) := ParseIterationFromKey info.(biIdempotencyKey) in
                         Ok (if ok then Some (incr64 iter) else None)
            end)
     else Ret (Ok None)) else (λ e, e) in
  match next with
  | Some nextIter =>
      let nextKey := IdempotencyKey beadID nextIter in
      let? found := call (FindByIdempotencyKey nextKey)
        else wrapf "looking up replacement active wisp %q: %w" [AStr nextKey] in
      if found.2 then
        let* r := call (GetBead found.1) in
        Ret (match r with
             | Err e => if IsNotFound e then Ok None
                        else Err (wrapf "reading replacement active wisp %q: %w" [AStr found.1] e)
             | Ok info => Ok (Some info)
             end)
      else Ret (Ok None)
  | None =>
      let stats := childStats children beadID in
      Ret (Ok (if stats.(HighestOpenFound) then Some stats.(HighestOpen)
               else if stats.(HighestClosedFound) then Some stats.(HighestClosed) else None))
  end.

(** The active wisp with its info, recovered when its bead is gone; [None]
    when there is none. *)
Definition lookupActive (format beadID activeWisp lastProcessedWisp : string) : conv (result (option BeadInfo)) :=
  let* r := call (GetBead activeWisp) in
  match r with
  | Ok info => Ret (Ok (Some (mkBeadInfo activeWisp info.(biStatus) info.(biParentID) info.(biIdempotencyKey)
                 info.(biCreatedAt) info.(biClosedAt))))
  | Err e =>
      if negb (IsNotFound e) then Ret (Err (wrapf format [AStr activeWisp] e))
      else recoverCurrentActiveWisp beadID lastProcessedWisp
  end.

(** Steps 3 to 10 of the stop sequence, from the refreshed variables. *)
Definition stopFinish (beadID actor : string) (meta : metadata) (state activeWisp lastProcessedWisp : string)
    : conv (result HandlerResult) :=
  let? current :=
    (if activeWisp != "" then lookupActive "reading active wisp %q for force-close: %w" beadID activeWisp lastProcessedWisp
     else Ret (Ok None)) else (λ e, e) in
  let activeWisp := match current with Some info => info.(biID) | None => "" end in
  let force := match current with Some info => (activeWisp != "") && (info.(biStatus) != "closed") | None => false end in
  let* closeErr := (if force then perform (CloseBead activeWisp CloseReasonManualSupersede) else Ret None) in
  match closeErr with
  | Some e => Ret (Err (wrapf "force-closing active wisp %q: %w" [AStr activeWisp] e))
  | None =>
  let? iterationCount := deriveIterationCount beadID else wrapf "deriving iteration count for bead %q: %w" [AStr beadID] in
  do? perform (SetMetadata beadID FieldAgentVerdict "") else wrapf "clearing stale agent verdict: %w" [] in
  do? perform (SetMetadata beadID FieldAgentVerdictWisp "") else wrapf "clearing stale agent verdict wisp: %w" [] in
  let eventWispID := if activeWisp != "" then activeWisp else lastProcessedWisp in
  let* durs := computeDurations beadID eventWispID in
  let finalLPW := if force then activeWisp else lastProcessedWisp in
  committed (commit beadID
    [mkWrite FieldTerminalReason TerminalStopped "setting terminal reason";
     mkWrite FieldTerminalActor actor "setting terminal actor";
     mkWrite FieldWaitingReason "" "clearing waiting reason";
     mkWrite FieldState StateTerminated "setting state to terminated"]
    (Some (let* _ :=
             (if force then
                let* sdurs := computeDurations beadID activeWisp in
                let gateMode := if meta.[FieldGateMode] == "" then GateModeManual else meta.[FieldGateMode] in
                emitEvent h EventIteration (EventIDIteration beadID iterationCount) beadID
                  (PIteration (mkIterationPayload "" iterationCount activeWisp "" gateMode None None 0 ActionStopped
                    None None (Milliseconds sdurs.1) (Milliseconds sdurs.2)))
              else Ret ()) in
           let* _ := emitEvent h EventTerminated (EventIDTerminated beadID) beadID
             (PTerminated (mkTerminatedPayload "" TerminalStopped iterationCount "closed" actor (Milliseconds durs.2))) in
           let* err := perform (CloseBead beadID CloseReasonManualStop) in
           match err with
           | Some e => Ret (Some (wrapf "closing bead %q: %w" [AStr beadID] e))
           | None =>
               let* _ := emitEvent h EventManualStop (EventIDManualStop beadID) beadID
                 (PManualAction (mkManualActionPayload "" actor state StateTerminated iterationCount
                   (NullableString eventWispID) None)) in
               Ret None
           end))
    (mkWrite FieldLastProcessedWisp finalLPW "setting last processed wisp"))
  (Ret (Ok (mkHandlerResult ActionStopped iterationCount "" "" "")))
  end.

Definition StopHandler (beadID username : string) : conv (result HandlerResult) :=
  let? meta := call (GetMetadata beadID) else wrapf "reading bead %q metadata: %w" [AStr beadID] in
  let state := meta.[FieldState] in
  let actor := "operator:" +:+ username in
  if (state == StateTerminated) && (meta.[FieldTerminalReason] == TerminalStopped)
  then Ret (Ok (mkHandlerResult ActionStopped 0 "" "" ""))
  else if (state != StateActive) && (state != StateWaitingManual) && (state != StateWaitingTrigger)
  then Ret (Err (Errorf "cannot stop bead %q: state is %q, expected %q, %q, or %q"
    [AStr beadID; AStr state; AStr StateActive; AStr StateWaitingManual; AStr StateWaitingTrigger]))
  else
  let activeWisp := meta.[FieldActiveWisp] in
  let lastProcessedWisp := meta.[FieldLastProcessedWisp] in
  let? current :=
    (if activeWisp != "" then lookupActive "reading active wisp %q: %w" beadID activeWisp lastProcessedWisp
     else Ret (Ok None)) else (λ e, e) in
  match current with
  | None => stopFinish beadID actor meta state "" lastProcessedWisp
  | Some info =>
      if (info.(biID) != "") && (info.(biStatus) == "closed") then
        let? _ := HandleWispClosed h beadID info.(biID) else wrapf "draining completed wisp %q: %w" [AStr info.(biID)] in
        let? meta := call (GetMetadata beadID) else wrapf "re-reading metadata after drain: %w" [] in
        if meta.[FieldState] == StateTerminated then Ret (Ok (mkHandlerResult ActionStopped 0 "" "" ""))
        else stopFinish beadID actor meta meta.[FieldState] meta.[FieldActiveWisp] meta.[FieldLastProcessedWisp]
      else stopFinish beadID actor meta state info.(biID) lastProcessedWisp
  end.
End manual.
