(* ===== verification/ConvReconcile.v ===== *)
(** * ConvReconcile: startup recovery of convergence loops

    Models [internal/convergence/reconcile.go]: for each bead, the state it was
    left in selects the recovery path; a path returns an action and an error
    (both are reported). *)

From S2P Require Import Prelude GoBase GoText ConvMeta Prog ConvStore ConvHandler ConvManual.

Local Open Scope Z_scope.

Definition ActionNoAction : string := "no_action".
Definition ActionCompletedTerminal : string := "completed_terminal".
Definition ActionAdoptedWisp : string := "adopted_wisp".
Definition ActionPouredWisp : string := "poured_wisp".
Definition ActionRepairedState : string := "repaired_state".

Record ReconcileDetail := mkDetail { rdBeadID : string; rdAction : string; rdError : option error }.

Record ReconcileReport := mkReport {
  rpScanned : Z;
  rpRecovered : Z;
  rpErrors : Z;
  rpDetails : list ReconcileDetail
}.

(** What a recovery path returns. *)
Abbreviation outcome := (string * option error)%type.

(** [x, err := p; if err != nil { return action, f err }; q]. *)
Definition bindR {A} (action : string) (p : conv (result A)) (f : error → error) (q : A → conv outcome) : conv outcome :=
  let* r := p in match r with Err e => Ret (action, Some (f e)) | Ok x => q x end.

(** [if err := p; err != nil { return action, f err }; q]. *)
Definition thenR (action : string) (p : conv (option error)) (f : error → error) (q : conv outcome) : conv outcome :=
  let* err := p in match err with Some e => Ret (action, Some (f e)) | None => q end.

Section reconcile.
Context `{UnicodeTables, DurationParser} (h : Handler).

Definition emitRecoveryEvent : string → string → string → Payload → conv unit := emitEventWith h true.

Definition backfillTerminalActor (beadID : string) (meta : metadata) : conv (option error) :=
  if meta.[FieldTerminalActor] != "" then Ret None
  else perform (SetMetadata beadID FieldTerminalActor "recovery").

(** [children, _ := Children(beadID)]: the error is ignored, the value used. *)
Definition childrenBestEffort (beadID : string) : conv (list BeadInfo) :=
  let* r := perform (Children beadID) in Ret r.1.

(** ** Path 1: missing state, partial creation *)

Definition reconcileMissingState (beadID : string) (meta : metadata) : conv outcome :=
  let key1 := IdempotencyKey beadID 1 in
  bindR ActionNoAction (call (FindByIdempotencyKey key1)) (wrapf "looking up iter-1 wisp: %w" []) (λ found,
  if found.2 then
    let existingID := found.1 in
    bindR ActionAdoptedWisp (call (GetBead existingID)) (wrapf "reading wisp %q info: %w" [AStr existingID]) (λ wispInfo,
    thenR ActionAdoptedWisp (perform (SetMetadata beadID FieldActiveWisp existingID)) (wrapf "setting active_wisp: %w" [])
    (let closed := wispInfo.(biStatus) == "closed" in
    thenR ActionAdoptedWisp (perform (SetMetadata beadID FieldIteration (EncodeInt (if closed then 1 else 0))))
      (wrapf "setting iteration: %w" [])
    (thenR ActionAdoptedWisp (perform (SetMetadata beadID FieldState StateActive)) (wrapf "setting state: %w" [])
    (if closed then
       bindR ActionAdoptedWisp (HandleWispClosed h beadID existingID)
         (wrapf "replaying wisp_closed for adopted wisp %q: %w" [AStr existingID]) (λ _,
       Ret (ActionAdoptedWisp, None))
     else Ret (ActionAdoptedWisp, None)))))
  else
    bindR ActionPouredWisp (call (PourWisp beadID meta.[FieldFormula] key1 (ExtractVars meta) meta.[FieldEvaluatePrompt]))
      (wrapf "pouring first wisp: %w" []) (λ wispID,
    thenR ActionPouredWisp (perform (SetMetadata beadID FieldActiveWisp wispID)) (wrapf "setting active_wisp: %w" [])
    (thenR ActionPouredWisp (perform (SetMetadata beadID FieldIteration (EncodeInt 0))) (wrapf "setting iteration: %w" [])
    (thenR ActionPouredWisp (perform (SetMetadata beadID FieldState StateActive)) (wrapf "setting state: %w" [])
    (Ret (ActionPouredWisp, None)))))).

Definition reconcileCreating (beadID : string) : conv outcome :=
  thenR ActionCompletedTerminal (perform (SetMetadata beadID FieldTerminalReason TerminalPartialCreation))
    (wrapf "setting terminal_reason: %w" [])
  (thenR ActionCompletedTerminal (perform (SetMetadata beadID FieldTerminalActor "recovery"))
    (wrapf "setting terminal_actor: %w" [])
  (thenR ActionCompletedTerminal (perform (SetMetadata beadID FieldState StateTerminated))
    (wrapf "setting state to terminated: %w" [])
  (thenR ActionCompletedTerminal (perform (CloseBead beadID CloseReasonReconcileDone)) (wrapf "closing bead: %w" [])
  (Ret (ActionCompletedTerminal, None))))).

(** ** Path 2: terminated but not closed *)

Definition reconcileTerminatedNotClosed (beadID : string) (meta : metadata) : conv outcome :=
  bindR ActionNoAction (call (GetBead beadID)) (wrapf "reading bead info: %w" []) (λ beadInfo,
  if beadInfo.(biStatus) == "closed" then Ret (ActionNoAction, None)
  else
  thenR ActionCompletedTerminal (backfillTerminalActor beadID meta) (wrapf "backfilling terminal_actor: %w" [])
  (let* children := childrenBestEffort beadID in
  let stats := childStats children beadID in
  let reason := if meta.[FieldTerminalReason] == "" then TerminalNoConvergence else meta.[FieldTerminalReason] in
  let actor := if meta.[FieldTerminalActor] == "" then "recovery" else meta.[FieldTerminalActor] in
  let* _ := emitRecoveryEvent EventTerminated (EventIDTerminated beadID) beadID
    (PTerminated (mkTerminatedPayload "" reason stats.(ClosedCount) "closed" actor (Milliseconds stats.(CumulativeDur)))) in
  thenR ActionCompletedTerminal (perform (CloseBead beadID CloseReasonReconcileDone)) (wrapf "closing bead: %w" [])
  (Ret (ActionCompletedTerminal, None)))).

(** Finishes an interrupted terminal transition. *)
Definition completeTerminalTransition (beadID : string) (meta : metadata) : conv outcome :=
  thenR ActionCompletedTerminal (backfillTerminalActor beadID meta) (wrapf "backfilling terminal_actor: %w" [])
  (let reason := meta.[FieldTerminalReason] in
  let actor := if meta.[FieldTerminalActor] == "" then "recovery" else meta.[FieldTerminalActor] in
  let* children := childrenBestEffort beadID in
  let stats := childStats children beadID in
  let* _ := emitRecoveryEvent EventTerminated (EventIDTerminated beadID) beadID
    (PTerminated (mkTerminatedPayload "" reason stats.(ClosedCount) "closed" actor (Milliseconds stats.(CumulativeDur)))) in
  thenR ActionCompletedTerminal
    (if meta.[FieldState] != StateTerminated then perform (SetMetadata beadID FieldState StateTerminated) else Ret None)
    (wrapf "setting state to terminated: %w" [])
  (thenR ActionCompletedTerminal (perform (CloseBead beadID CloseReasonReconcileDone)) (wrapf "closing bead: %w" [])
  (if stats.(HighestClosedFound) then
     let* _ := perform (SetMetadata beadID FieldLastProcessedWisp stats.(HighestClosed).(biID)) in
     Ret (ActionCompletedTerminal, None)
   else Ret (ActionCompletedTerminal, None)))).

(** ** Path 3: waiting *)

Definition reconcileWaitingManual (beadID : string) (meta : metadata) : conv outcome :=
  let waitingReason := meta.[FieldWaitingReason] in
  if meta.[FieldTerminalReason] != "" then completeTerminalTransition beadID meta
  else if waitingReason != "" then
    let iteration := (DecodeInt meta.[FieldIteration]).1 in
    let* r := perform (Children beadID) in
    let '(children, childErr) := r in
    let stats := childStats children beadID in
    let* _ := emitRecoveryEvent EventWaitingManual (EventIDWaitingManual beadID iteration) beadID
      (PWaitingManual (mkWaitingManualPayload "" iteration meta.[FieldLastProcessedWisp] "" meta.[FieldGateMode]
        None None waitingReason 0 (Milliseconds stats.(CumulativeDur)))) in
    match childErr with
    | Some e => Ret (ActionNoAction, Some (wrapf "listing children: %w" [] e))
    | None =>
        if stats.(HighestClosedFound) && (meta.[FieldLastProcessedWisp] != stats.(HighestClosed).(biID)) then
          thenR ActionRepairedState (perform (SetMetadata beadID FieldLastProcessedWisp stats.(HighestClosed).(biID)))
            (wrapf "repairing last_processed_wisp: %w" [])
          (Ret (ActionRepairedState, None))
        else Ret (ActionNoAction, None)
    end
  else
    bindR ActionNoAction (call (Children beadID)) (wrapf "listing children: %w" []) (λ children,
    if (childStats children beadID).(HighestClosedFound) then
      thenR ActionRepairedState (perform (SetMetadata beadID FieldWaitingReason WaitManual))
        (wrapf "setting default waiting_reason: %w" [])
      (Ret (ActionRepairedState, None))
    else Ret (ActionNoAction, None)).

Definition reconcileWaitingTrigger (beadID : string) (meta : metadata) : conv outcome :=
  if meta.[FieldTerminalReason] != "" then completeTerminalTransition beadID meta
  else Ret (ActionNoAction, None).

(** ** Path 4: active *)

(** No active wisp: adopt or pour the next one. *)
Definition reconcileNextWisp (beadID : string) (meta : metadata) : conv outcome :=
  bindR ActionNoAction (call (Children beadID)) (wrapf "listing children: %w" []) (λ children,
  let nextIter := incr64 (childStats children beadID).(ClosedCount) in
  let nextKey := IdempotencyKey beadID nextIter in
  let* pendingID := validPendingNextWisp beadID nextKey meta.[FieldPendingNextWisp] in
  let finish (action wispID : string) : conv outcome :=
    thenR action (perform (ActivateWisp wispID)) (wrapf "activating wisp %q: %w" [AStr wispID])
    (thenR action (perform (SetMetadata beadID FieldActiveWisp wispID)) (wrapf "setting active_wisp: %w" [])
    (let* _ := perform (SetMetadata beadID FieldPendingNextWisp "") in
    Ret (action, None))) in
  if pendingID != "" then finish ActionAdoptedWisp pendingID
  else
    bindR ActionNoAction (call (FindByIdempotencyKey nextKey)) (wrapf "looking up next wisp: %w" []) (λ found,
    if found.2 then finish ActionAdoptedWisp found.1
    else
      bindR ActionPouredWisp (call (PourWisp beadID meta.[FieldFormula] nextKey (ExtractVars meta) meta.[FieldEvaluatePrompt]))
        (wrapf "pouring wisp for iter %d: %w" [AInt nextIter]) (λ wispID,
      finish ActionPouredWisp wispID))).

(** The active wisp exists (perhaps recovered): act on its status. *)
Definition reconcileActiveWisp (beadID : string) (meta : metadata) (activeWispID : string) (wispInfo : BeadInfo)
    (recoveredActiveWisp : bool) : conv outcome :=
  thenR ActionRepairedState
    (if recoveredActiveWisp then perform (SetMetadata beadID FieldActiveWisp activeWispID) else Ret None)
    (wrapf "setting recovered active wisp %q: %w" [AStr activeWispID])
  (if (wispInfo.(biStatus) == "open") || (wispInfo.(biStatus) == "in_progress") then
     Ret (if recoveredActiveWisp then ActionRepairedState else ActionNoAction, None)
   else if wispInfo.(biStatus) == "closed" then
     if meta.[FieldLastProcessedWisp] == activeWispID then Ret (ActionNoAction, None)
     else bindR ActionRepairedState (HandleWispClosed h beadID activeWispID)
       (wrapf "replaying wisp_closed for %q: %w" [AStr activeWispID]) (λ _,
     Ret (ActionRepairedState, None))
   else Ret (ActionNoAction, Some (Errorf "active wisp %q has unexpected status %q" [AStr activeWispID; AStr wispInfo.(biStatus)]))).

Definition reconcileActive (beadID : string) (meta : metadata) : conv outcome :=
  if meta.[FieldTerminalReason] != "" then completeTerminalTransition beadID meta
  else
  let activeWispID := meta.[FieldActiveWisp] in
  if activeWispID == "" then reconcileNextWisp beadID meta
  else
  let* r := call (GetBead activeWispID) in
  match r with
  | Ok wispInfo => reconcileActiveWisp beadID meta activeWispID wispInfo false
  | Err e =>
      if negb (IsNotFound e)
      then Ret (ActionNoAction, Some (wrapf "reading active wisp %q: %w" [AStr activeWispID] e))
      else
      bindR ActionNoAction (recoverCurrentActiveWisp beadID meta.[FieldLastProcessedWisp]) (λ e, e) (λ recovered,
      match recovered with
      | None => reconcileNextWisp beadID meta
      | Some info =>
          if info.(biID) == "" then reconcileNextWisp beadID meta
          else reconcileActiveWisp beadID meta info.(biID) info true
      end)
  end.

(** ** Dispatch and report *)

Definition reconcileState (beadID : string) : conv outcome :=
  bindR ActionNoAction (call (GetMetadata beadID)) (wrapf "reading metadata: %w" []) (λ meta,
  let state := meta.[FieldState] in
  if state == "" then reconcileMissingState beadID meta
  else if state == StateCreating then reconcileCreating beadID
  else if state == StateTerminated then reconcileTerminatedNotClosed beadID meta
  else if state == StateWaitingManual then reconcileWaitingManual beadID meta
  else if state == StateWaitingTrigger then reconcileWaitingTrigger beadID meta
  else if state == StateActive then reconcileActive beadID meta
  else Ret (ActionNoAction, Some (Errorf "unknown convergence state %q" [AStr state]))).

Definition reconcileBead (beadID : string) : conv ReconcileDetail :=
  let* r := reconcileState beadID in Ret (mkDetail beadID r.1 r.2).

Definition addDetail (report : ReconcileReport) (d : ReconcileDetail) : ReconcileReport :=
  let errored := match d.(rdError) with Some _ => true | None => false end in
  mkReport report.(rpScanned)
    (if negb errored && (d.(rdAction) != ActionNoAction) then report.(rpRecovered) + 1 else report.(rpRecovered))
    (if errored then report.(rpErrors) + 1 else report.(rpErrors))
    (report.(rpDetails) ++ [d]).

Fixpoint reconcileLoop (report : ReconcileReport) (beadIDs : list string) : conv ReconcileReport :=
  match beadIDs with
  | [] => Ret report
  | id :: rest => let* d := reconcileBead id in reconcileLoop (addDetail report d) rest
  end.

Definition ReconcileBeads (beadIDs : list string) : conv ReconcileReport :=
  reconcileLoop (mkReport (Z.of_nat (length beadIDs)) 0 0 []) beadIDs.
End reconcile.
