(* ===== verification/ConvManualProps.v ===== *)
(** * ConvManualProps: guarantees of creation, retry, triggers and operator commands *)

From S2P Require Import Prelude GoBase GoText ConvMeta ConvMetaProps Prog ConvStore ConvHandler.
From S2P Require Import ConvHandlerProps ConvHandlerResults ConvManual.

Local Open Scope Z_scope.

(** ** Creation is all or rolled back *)

(** The answer of a creation, from an event. *)
Definition createAnswer (ev : event storeE) : option (string * option error) :=
  match ev with
  | Ev e x => match e in storeE X return X → _ with CreateConvergenceBead _ => λ x, Some x | _ => λ _, None end x
  end.

(** The two last operations of a rolled-back creation. *)
Definition rolledBack (tr : list (event storeE)) (id : string) : Prop :=
  ∃ reason x y pre, tr = pre ++ [Ev (SetMetadata id FieldState StateTerminated) x; Ev (CloseBead id reason) y] ∧
    reason ∈ [CloseReasonCreateRollback; CloseReasonRetryRollback].

(** What a successful creation has stored on the new bead. *)
Definition createdStored (p : CreateParams) (tr : list (event storeE)) (r : CreateResult) : Prop :=
  let id := crBeadID r in
  stored id tr FieldFormula (prFormula p) ∧ stored id tr FieldTarget (prTarget p) ∧
  stored id tr FieldMaxIterations (EncodeInt (prMaxIterations p)) ∧
  stored id tr FieldTrigger (prTrigger p) ∧ stored id tr FieldTriggerCondition (prTriggerCondition p) ∧
  (prTrigger p = TriggerEvent ∧ crFirstWispID r = "" ∧
     stored id tr FieldIteration "0" ∧ stored id tr FieldState StateWaitingTrigger ∨
   prTrigger p ≠ TriggerEvent ∧ stored id tr FieldState StateActive ∧
     stored id tr FieldActiveWisp (crFirstWispID r) ∧ stored id tr FieldIteration "1").

Section create.
Context `{UnicodeTables, DurationParser} (h : Handler) (rangeMap : metadata → list (string * string)).

(** The outcome of the steps after the bead exists, from history [hist]. *)
Definition createPost (p : CreateParams) (id : string) (r : result CreateResult) (hist : list (event storeE)) : Prop :=
  match r with Err _ => rolledBack hist id | Ok cr => crBeadID cr = id ∧ createdStored p hist cr end.

Lemma rollback_post p id reason cause hist :
  reason ∈ [CloseReasonCreateRollback; CloseReasonRetryRollback] →
  wp record (createRollback id reason cause) hist (createPost p id).
Proof.
  intros Hr. apply wp_perform; [done|]. intros x. apply wp_perform; [done|]. intros y. cbn.
  exists reason, x, y, hist. by rewrite <-app_assoc.
Qed.

Lemma orRollback_post p id reason k v f q hist :
  reason ∈ [CloseReasonCreateRollback; CloseReasonRetryRollback] →
  wp record q (hist ++ [Ev (SetMetadata id k v) None]) (createPost p id) →
  wp record (orRollback id reason (perform (SetMetadata id k v)) f q) hist (createPost p id).
Proof. intros Hr Hq. apply wp_perform; [done|]. intros [e|]; [by apply rollback_post|done]. Qed.

Lemma createWrites_post p id reason ws q hist :
  reason ∈ [CloseReasonCreateRollback; CloseReasonRetryRollback] →
  (∀ ext, Forall (λ kv, Ev (SetMetadata id kv.1 kv.2) None ∈ ext) ws → wp record q (hist ++ ext) (createPost p id)) →
  wp record (createWrites id reason ws q) hist (createPost p id).
Proof.
  intros Hr. revert hist. induction ws as [|[k v] ws IH]; intros hist Hq; cbn [createWrites].
  { rewrite <-(app_nil_r hist). by apply Hq. }
  apply orRollback_post; [done|]. apply IH. intros ext Hext. rewrite <-app_assoc. apply Hq.
  constructor; [left|]. eapply Forall_impl; [exact Hext|]. cbn. intros kv Hkv. by right.
Qed.

Lemma createVars_post p id reason vars q hist :
  reason ∈ [CloseReasonCreateRollback; CloseReasonRetryRollback] →
  (∀ ext, wp record q (hist ++ ext) (createPost p id)) →
  wp record (createVars id reason vars q) hist (createPost p id).
Proof.
  intros Hr. revert hist. induction vars as [|[k v] vars IH]; intros hist Hq; cbn [createVars].
  { rewrite <-(app_nil_r hist). apply Hq. }
  apply orRollback_post; [done|]. apply IH. intros ext. rewrite <-app_assoc. apply Hq.
Qed.

Lemma createStart_post p mode title id reason tc hist :
  reason ∈ [CloseReasonCreateRollback; CloseReasonRetryRollback] →
  (Enabled tc = true ↔ prTrigger p = TriggerEvent) →
  Forall (λ kv, Ev (SetMetadata id kv.1 kv.2) None ∈ hist) (createMetaWrites p mode) →
  wp record (createStart h p mode title id reason tc) hist (createPost p id).
Proof.
  intros Hr Htc Hw. unfold createMetaWrites in Hw. apply Forall_app in Hw as [Hw _].
  rewrite !Forall_cons in Hw. cbn in Hw. destruct_and? Hw.
  unfold createStart. destruct (Enabled tc).
  - do 2 (apply orRollback_post; [done|]). apply wp_bind, wp_record. intros _ ext. cbn. split; [done|].
    split_and!; try in_hist. left. split_and!; [by apply Htc|done|in_hist..].
  - apply orRollback_post; [done|]. apply wp_bind, wp_record. intros [w|e] ext; [|by apply rollback_post].
    do 2 (apply orRollback_post; [done|]). apply wp_bind, wp_record. intros _ ext2. cbn. split; [done|].
    split_and!; try in_hist. right. split_and!; [by intros Ht; apply Htc in Ht|in_hist..].
Qed.

Lemma triggerEnabled t c tc :
  ParseTriggerConfig (list_to_map [(FieldTrigger, t); (FieldTriggerCondition, c)]) = Ok tc →
  Enabled tc = true ↔ t = TriggerEvent.
Proof.
  unfold ParseTriggerConfig, mget. cbn [list_to_map uncurry foldr].
  rewrite lookup_insert_eq, lookup_insert_ne, lookup_insert_eq by discriminate. cbn [default from_option id fst snd].
  unfold Enabled. destruct (bool_decide_reflect (t = TriggerNone)) as [->|Hn].
  { intros [= <-]. by rewrite bool_decide_eq_true. }
  destruct (bool_decide_reflect (t = TriggerEvent)) as [->|Hne]; [|by intros ?].
  destruct (_ == _); [by intros ?|]. intros [= <-]. by rewrite bool_decide_eq_true.
Qed.

(** Either nothing was created, or the outcome is as [createPost] says. *)
Lemma CreateHandler_post params :
  wp record (CreateHandler h rangeMap params) []
    (λ r hist, (∃ e, r = Err e ∧ (hist = [] ∨ ∃ t x err, hist = [Ev (CreateConvergenceBead t) (x, Some err)])) ∨
       ∃ t id tr, hist = Ev (CreateConvergenceBead t) (id, None) :: tr ∧ createPost params id r hist).
Proof.
  unfold CreateHandler. do 3 (case_match; [left; eauto|]).
  destruct (ParseGateConfig _); [|left; eauto]. destruct (ParseTriggerConfig _) as [tc|] eqn:Htc; [|left; eauto].
  apply triggerEnabled in Htc. apply wp_callE; [done|intros x err; left; eauto 10|]. intros id.
  set (reason := if prRetrySource params != "" then _ else _).
  assert (reason ∈ [CloseReasonCreateRollback; CloseReasonRetryRollback]) as Hr.
  { unfold reason. destruct (_ != _); [right; left|left]. }
  match goal with |- wp _ ?q ?hi _ => assert (wp record q hi (createPost params id)) as Hq end.
  { apply orRollback_post; [done|]. apply createWrites_post; [done|]. intros ext Hext.
    apply createVars_post; [done|]. intros ext2. apply createStart_post; [done|done|].
    eapply Forall_impl; [exact Hext|]. cbn. intros kv Hkv. do 2 right. rewrite elem_of_app. by left. }
  generalize dependent Hq.
  match goal with |- wp _ ?q ?hi _ → _ => generalize q as p; intros p Hq end.
  assert (∀ A (p : conv A) hist (Q : A → list (event storeE) → Prop),
    wp record p hist Q → wp record p hist (λ r hist', Q r hist' ∧ ∃ ext, hist' = hist ++ ext)) as Hext.
  { clear. induction p as [a|X e k IH]; intros hist Q Hp; cbn in *.
    - split; [done|]. exists []. by rewrite app_nil_r.
    - split; [done|]. intros x. eapply wp_mono; [apply IH, Hp|]. intros a s [HQ [ext ->]].
      split; [done|]. rewrite <-app_assoc. eauto. }
  eapply wp_mono; [apply Hext, Hq|]. intros r hist [HQ [ext ->]]. right. cbn. eauto.
Qed.
End create.


(** ** Guards *)

(** Once every operation is allowed in every extension of the history, any
    program may follow. *)
Lemma wp_hist_free {A} (P : list (event storeE) → ∀ X, storeE X → Prop) (p : conv A) hist :
  (∀ ext X (e : storeE X), P (hist ++ ext) X e) → wp (histMonitor P) p hist (λ _ _, True).
Proof.
  revert hist. induction p as [a|X e k IH]; intros hist HP; cbn; [done|].
  split; [specialize (HP [] X e); by rewrite app_nil_r in HP|]. intros x. apply IH.
  intros ext Y e'. rewrite <-app_assoc. apply HP.
Qed.

(** The first read showed metadata satisfying [G]. *)
Definition guardedBy (id : string) (G : metadata → Prop) (hist : list (event storeE)) : Prop :=
  ∃ meta rest, hist = rootRead id meta :: rest ∧ G meta.

Lemma guardedBy_app id G hist ext : guardedBy id G hist → guardedBy id G (hist ++ ext).
Proof. intros (meta & rest & -> & HG). by exists meta, (rest ++ ext). Qed.

Definition retryable (meta : metadata) : Prop :=
  meta.[FieldState] = StateTerminated ∧ meta.[FieldTerminalReason] ≠ TerminalApproved.

(** A retry touches nothing unless it is allowed: every operation of
    [RetryHandler] other than a read comes after the source bead was read as
    terminated and not approved. *)
Theorem retry_guard `{UnicodeTables, DurationParser} h rangeMap source maxIter tr1 X (e : storeE X) x tr2 q :
  exec (RetryHandler h rangeMap source maxIter) (tr1 ++ Ev e x :: tr2) q →
  isRead e ∨ guardedBy source retryable tr1.
Proof.
  set (P := λ hist X (e : storeE X), isRead e ∨ guardedBy source retryable hist).
  apply (hist_sound P _ (λ _ _, True)). unfold RetryHandler.
  apply wp_callE; [by left|done|]. intros meta.
  destruct (bool_decide_reflect (meta.[FieldState] = StateTerminated)) as [Hs|]; [|done]. cbn [negb].
  destruct (bool_decide_reflect (meta.[FieldTerminalReason] = TerminalApproved)) as [|Hr]; [done|].
  destruct (ParseGateConfig _); [|done]. apply wp_hist_free. intros ext Y e'. right.
  by exists meta, ext.
Qed.

(** ** Operator commands *)

Definition terminalStored (bead reason actor : string) (hist : list (event storeE)) : Prop :=
  stored bead hist FieldTerminalReason reason ∧ stored bead hist FieldTerminalActor actor ∧
  stored bead hist FieldState StateTerminated.

(** The terminated event went out (when events are emitted at all). *)
Definition terminatedEmitted (h : Handler) (bead : string) (hist : list (event storeE)) : Prop :=
  hEmitter h = true → ∃ p, Ev (Emit EventTerminated (EventIDTerminated bead) bead p false) () ∈ hist.

(** What an operator's terminal command may do: reads at any time; anything else
    only in an allowed state; closing the loop with the command's reason only
    when the terminal state is stored and the event emitted. *)
Definition commandOrder (h : Handler) (bead reason actor closeReason : string) (G : metadata → Prop)
    (hist : list (event storeE)) X (e : storeE X) : Prop :=
  isRead e ∨
  guardedBy bead G hist ∧
  match e with
  | CloseBead id r => id = bead → r = closeReason → terminalStored bead reason actor hist ∧ terminatedEmitted h bead hist
  | _ => True
  end.

Section command.
Context `{UnicodeTables, DurationParser} (h : Handler) (bead reason actor closeReason : string) (G : metadata → Prop).

Abbreviation C := (commandOrder h bead reason actor closeReason G).

Definition notCommandClose {X} (e : storeE X) : Prop :=
  match e with CloseBead _ r => r ≠ closeReason | _ => True end.
Abbreviation freeOps := (λ X (e : storeE X), notCommandClose e).

Lemma reads_free : withReadsEmits freeOps.
Proof. intros X e. by destruct e. Qed.

(** After the guard, everything but the command's own close is free. *)
Lemma wp_free {A} (p : conv A) hist (Q : A → list (event storeE) → Prop) :
  guardedBy bead G hist → uses freeOps p → (∀ a ext, Q a (hist ++ ext)) → wp (histMonitor C) p hist Q.
Proof.
  revert hist. induction p as [a|X e k IH]; intros hist Hg Hp HQ; cbn in *.
  { rewrite <-(app_nil_r hist). apply HQ. }
  destruct Hp as [He Hk]. split.
  - right. split; [done|]. by destruct e; cbn in *.
  - intros x. apply IH; [by apply guardedBy_app|done|]. intros a ext. rewrite <-app_assoc. apply HQ.
Qed.

Lemma wp_emit t i b pl hist (Q : unit → list (event storeE) → Prop) :
  guardedBy bead G hist →
  (∀ ext, (hEmitter h = true → ∃ p, Ev (Emit t i b p false) () ∈ ext) → Q () (hist ++ ext)) →
  wp (histMonitor C) (emitEvent h t i b pl) hist Q.
Proof.
  intros Hg HQ. unfold emitEvent, emitEventWith. destruct (hEmitter h) eqn:Hem; cbn [negb].
  - apply wp_bind. apply wp_free; [done| |].
    { unfold withEventRig. uses_walk. apply eventRig_uses, withReadsEmits_reads, reads_free. }
    intros p ext. cbn. split; [right; split; [by apply guardedBy_app|done]|]. intros []. rewrite <-app_assoc.
    apply HQ. intros _. exists p. rewrite elem_of_app. right. left.
  - cbn. rewrite <-(app_nil_r hist). by apply HQ.
Qed.

(** The terminal commit of a command: the writes, then the events around the
    close, then the marker. *)
Lemma wp_terminal_commit (pre : conv unit) payload (closed : conv unit) f ws lpw hist (Q : option error → list (event storeE) → Prop) :
  guardedBy bead G hist → uses freeOps pre → uses freeOps closed → (∀ r hist', Q r hist') →
  writesIn bead [mkWrite FieldTerminalReason reason ""; mkWrite FieldTerminalActor actor "";
                 mkWrite FieldState StateTerminated ""] (map (λ w, Ev (SetMetadata bead (mwKey w) (mwValue w)) None) ws) →
  wp (histMonitor C) (commit bead ws
    (Some (let* _ := pre in
           let* _ := emitEvent h EventTerminated (EventIDTerminated bead) bead payload in
           let* err := perform (CloseBead bead closeReason) in
           match err with
           | Some e => Ret (Some (f e))
           | None => let* _ := closed in Ret None
           end)) lpw) hist Q.
Proof.
  intros Hg Hpre Hclosed HQ Hws. unfold commit. apply wp_bind.
  assert (∀ ws hist, guardedBy bead G hist → ∀ R : option error → list (event storeE) → Prop,
    (∀ e hist', R (Some e) hist') →
    (∀ ext, (∀ ev, ev ∈ map (λ w, Ev (SetMetadata bead (mwKey w) (mwValue w)) None) ws → ev ∈ ext) → R None (hist ++ ext)) →
    wp (histMonitor C) (forEach ws (write bead)) hist R) as Hwrites.
  { clear -G. induction ws as [|w ws IH]; intros hist Hg R HE HN; cbn [forEach].
    { rewrite <-(app_nil_r hist). apply HN. set_solver. }
    apply wp_bind, wp_write; [by right|by intros; cbn|].
    refine (IH _ _ R _ _); [by apply guardedBy_app|done|]. intros ext Hext. rewrite <-app_assoc. apply HN.
    cbn. intros ev [->|Hev]%elem_of_cons; [left|right; auto]. }
  apply Hwrites; [done|by intros; cbn|]. intros ext Hext. apply wp_bind.
  assert (terminalStored bead reason actor ext) as Hstored.
  { open_writes Hws. split_and!; apply Hext; done. }
  apply wp_bind, wp_free; [by apply guardedBy_app|done|]. intros [] ext2.
  apply wp_bind, wp_emit; [by do 2 apply guardedBy_app|]. intros ext3 Hemit.
  apply wp_perform.
  { right. split; [by do 3 apply guardedBy_app|]. intros _ _. split.
    - destruct Hstored as (? & ? & ?). split_and!; in_hist.
    - intros Hem. destruct (Hemit Hem) as [p Hp]. exists p. in_hist. }
  intros [e|]; cbn [wp]; [by apply HQ|]. apply wp_bind, wp_free; [by do 4 apply guardedBy_app|done|].
  intros [] ext4. cbn [wp]. destruct (_ == _); [by cbn|].
  apply wp_write; [right; split; [by do 5 apply guardedBy_app|done]|intros; apply HQ|apply HQ].
Qed.
End command.

(** Approval is guarded and ordered: [ApproveHandler] changes nothing unless the
    loop was read in waiting_manual, and it closes the loop only after reason,
    actor and [state=terminated] are stored and the terminated event is out. *)
Theorem approve_guard_order `{UnicodeTables, DurationParser} h bead user tr1 X (e : storeE X) x tr2 q :
  exec (ApproveHandler h bead user) (tr1 ++ Ev e x :: tr2) q →
  commandOrder h bead TerminalApproved ("operator:" +:+ user) CloseReasonManualApprove
    (λ meta, meta.[FieldState] = StateWaitingManual) tr1 X e.
Proof.
  apply hist_sound with (Q := λ _ _, True). unfold ApproveHandler.
  apply wp_callE; [by left|done|]. intros meta. destruct (_ && _); [done|].
  destruct (bool_decide_reflect (meta.[FieldState] = StateWaitingManual)) as [Hs|]; [|done]. cbn [negb].
  assert (∀ ext, guardedBy bead (λ meta, meta.[FieldState] = StateWaitingManual) ([rootRead bead meta] ++ ext)) as Hg.
  { intros ext. by exists meta, ext. }
  pose proof (withReadsEmits_reads _ (reads_free CloseReasonManualApprove)) as HR.
  apply wp_bind, wp_free; [apply (Hg [])|by apply deriveIterationCount_uses|]. intros [n|] ext; [|done].
  apply wp_bind, wp_free; [apply Hg|by apply computeDurations_uses|]. intros durs ext2.
  unfold committed. apply wp_bind. apply (wp_terminal_commit h bead _ _ _ _ (Ret ())).
  - rewrite <-app_assoc. apply Hg.
  - exact I.
  - apply emitEvent_uses, reads_free.
  - by intros [|].
  - unfold writesIn. cbn. repeat constructor; set_solver.
Qed.

Section stop.
Context `{UnicodeTables, DurationParser} (h : Handler) (root : string).
Abbreviation freeOps := (λ X (e : storeE X), notCommandClose CloseReasonManualStop e).

Lemma step_free {A} (p : conv A) : uses (stepOps root) p → uses freeOps p.
Proof. intros Hp. eapply uses_mono; [exact Hp|]. intros X e. by destruct e. Qed.

Lemma reads_freeOps : withReads freeOps.
Proof. apply withReadsEmits_reads, reads_free. Qed.

Lemma terminate_free wisp n cfg gr reason actor g meta :
  uses freeOps (terminate h root wisp n cfg gr reason actor g meta).
Proof.
  pose proof reads_freeOps as HR. unfold terminate, committed.
  uses_walk; auto using computeDurations_uses, emitEvent_uses, reads_free.
  apply commit_uses; [done| |done]. intros p [= <-]. by uses_walk.
Qed.

Lemma conclude_free wisp n mx g cfg tc gr meta spec serr :
  uses freeOps (conclude h root wisp n mx g cfg tc gr meta spec serr).
Proof.
  unfold conclude. uses_walk; try apply terminate_free; apply step_free;
    auto using burn_step, transitionToWaitingTrigger_step, iterate_step; apply transitionToWaitingManual_step.
Qed.

(** Draining a completed wisp never closes the loop with the stop reason. *)
Lemma HandleWispClosed_free wisp : uses freeOps (HandleWispClosed h root wisp).
Proof.
  pose proof reads_freeOps as HR. unfold HandleWispClosed, processWisp, evaluateAndConclude. uses_walk;
    auto using lastProcessedIteration_uses, deriveIterationCount_uses, conclude_free, step_free, validPending_step,
      burn_step, speculativePour_step, transitionToWaitingManual_step, persist_step; try done.
  apply evaluateGate_uses. intros X e [?|?]; by destruct e.
Qed.

Lemma lookupActive_free f w l : uses freeOps (lookupActive f root w l).
Proof.
  pose proof reads_freeOps as HR. unfold lookupActive, recoverCurrentActiveWisp. uses_walk; by apply HR.
Qed.
End stop.

Definition stoppable (meta : metadata) : Prop :=
  meta.[FieldState] = StateActive ∨ meta.[FieldState] = StateWaitingManual ∨ meta.[FieldState] = StateWaitingTrigger.

Lemma stopFinish_order `{UnicodeTables, DurationParser} h bead user meta state active lpw hist :
  guardedBy bead stoppable hist →
  wp (histMonitor (commandOrder h bead TerminalStopped ("operator:" +:+ user) CloseReasonManualStop stoppable))
    (stopFinish h bead ("operator:" +:+ user) meta state active lpw) hist (λ _ _, True).
Proof.
  intros Hg. pose proof reads_freeOps as HR. unfold stopFinish.
  apply wp_bind, wp_free; [done|destruct (_ != _); [apply lookupActive_free|exact I]|].
  intros [current|] ext; [|done]. apply (guardedBy_app _ _ _ ext) in Hg.
  generalize (match current with Some info => biID info | None => "" end) as active'. intros active'.
  generalize (match current with Some info => (active' != "") && (biStatus info != "closed") | None => false end) as force.
  intros force. apply wp_bind, wp_free; [done|destruct force; by uses_walk|]. intros [e|] ext2; [done|].
  apply (guardedBy_app _ _ _ ext2) in Hg.
  apply wp_bind, wp_free; [done|by apply deriveIterationCount_uses|]. intros [n|] ext3; [|done].
  apply (guardedBy_app _ _ _ ext3) in Hg.
  do 2 (apply wp_bind, wp_free; [done|by uses_walk|]; (let x := fresh "ext" in intros [e|] x; [done|]; apply (guardedBy_app _ _ _ x) in Hg)).
  apply wp_bind, wp_free; [done|by apply computeDurations_uses|]. intros durs ext5.
  apply (guardedBy_app _ _ _ ext5) in Hg. unfold committed. apply wp_bind. apply wp_terminal_commit; [done| | |by intros [|]|].
  - destruct force; [|exact I]. apply uses_bind; [by apply computeDurations_uses|]. intros d. apply emitEvent_uses, reads_free.
  - apply emitEvent_uses, reads_free.
  - unfold writesIn. cbn. repeat constructor; set_solver.
Qed.

(** Stopping is guarded and ordered: [StopHandler] changes nothing unless the loop
    was read as active or waiting, and its own close of the loop (the one with
    the manual-stop reason; draining a completed wisp has its own) comes only
    after reason, actor and [state=terminated] are stored and the terminated
    event is out. *)
Theorem stop_guard_order `{UnicodeTables, DurationParser} h bead user tr1 X (e : storeE X) x tr2 q :
  exec (StopHandler h bead user) (tr1 ++ Ev e x :: tr2) q →
  commandOrder h bead TerminalStopped ("operator:" +:+ user) CloseReasonManualStop stoppable tr1 X e.
Proof.
  apply hist_sound with (Q := λ _ _, True). unfold StopHandler.
  apply wp_callE; [by left|done|]. intros meta. destruct (_ && _); [done|].
  destruct (_ && _ && _) eqn:Hst; [done|].
  assert (guardedBy bead stoppable [rootRead bead meta]) as Hg.
  { exists meta, []. split; [done|]. unfold stoppable.
    destruct (bool_decide_reflect (meta.[FieldState] = StateActive)); [auto|].
    destruct (bool_decide_reflect (meta.[FieldState] = StateWaitingManual)); [auto|].
    destruct (bool_decide_reflect (meta.[FieldState] = StateWaitingTrigger)); [auto|done]. }
  clear Hst.
  apply wp_bind, wp_free; [done|destruct (meta.[FieldActiveWisp] != ""); [apply lookupActive_free|exact I]|].
  intros [[info|]|] ext; [| |done]; apply (guardedBy_app _ _ _ ext) in Hg; [|by apply stopFinish_order].
  destruct ((biID info != "") && (biStatus info == "closed")); [|by apply stopFinish_order].
  apply wp_bind, wp_free; [done|apply HandleWispClosed_free|]. intros [r|] ext2; [|done].
  apply (guardedBy_app _ _ _ ext2) in Hg. apply wp_callE; [by left|done|]. intros meta2.
  destruct (_ == _); [done|]. apply stopFinish_order. by apply guardedBy_app.
Qed.

(** ** Triggers *)

(** A script of this path ran and exited with success. *)
Definition passingRun (script : string) (hist : list (event storeE)) : Prop :=
  ∃ dir env t o, Ev (RunProcess script dir env t) o ∈ hist ∧ grOutcome (classifyRun o) = GatePass.

Lemma passingRun_app_l s h1 h2 : passingRun s h1 → passingRun s (h1 ++ h2).
Proof. intros (d & env & t & o & Hin & Ho). exists d, env, t, o. rewrite elem_of_app. auto. Qed.

Lemma passingRun_app_r s h1 h2 : passingRun s h2 → passingRun s (h1 ++ h2).
Proof. intros (d & env & t & o & Hin & Ho). exists d, env, t, o. rewrite elem_of_app. auto. Qed.

(** A pass of [RunCondition] is the pass of one of its script runs. *)
Lemma RunCondition_pass `{UnicodeTables} (P : list (event storeE) → ∀ X, storeE X → Prop) script env t n hist
    (Q : GateResult → list (event storeE) → Prop) :
  (∀ hist' X (e : storeE X), isScript e → P hist' X e) →
  (∀ r ext, (grOutcome r = GatePass → passingRun script ext) → Q r (hist ++ ext)) →
  wp (histMonitor P) (RunCondition script env t n) hist Q.
Proof.
  intros HP HQ. assert (∀ k hist Q, (∀ r ext, (grOutcome r = GatePass → passingRun script ext) → Q r (hist ++ ext)) →
    wp (histMonitor P) (runOnceLoop k script env t) hist Q) as Hone.
  { clear HQ hist Q. induction k as [|k IH]; intros hist Q HQ; cbn [runOnceLoop]; apply wp_bind;
      unfold runOnceNoPreExecRetry; (apply wp_perform; [by apply HP|]); intros o; cbn [wp];
      assert (grOutcome (classifyRun o) = GatePass → ∀ dir, passingRun script [Ev (RunProcess script dir env t) o]) as Hpass
        by (intros Hp dir; exists dir, env, t, o; split; [left|done]);
      (destruct (negb _); [apply HQ; auto|]).
    - apply HQ; auto.
    - apply wp_perform; [by apply HP|]. intros [|]; cbn [wp].
      + rewrite <-app_assoc. apply HQ. intros Hp. apply passingRun_app_l. auto.
      + apply IH. intros r ext Hr. rewrite <-!app_assoc. apply HQ. intros Hp. do 2 apply passingRun_app_r. auto. }
  unfold RunCondition. destruct (n <? 0).
  { rewrite <-(app_nil_r hist). by apply HQ. }
  generalize 0 as retries. revert hist HQ. induction (Z.to_nat n) as [|k IH]; intros hist HQ retries; cbn [runConditionLoop].
  all: apply wp_bind, Hone; intros r ext Hr; destruct (_ != _); [by apply HQ|].
  - by apply HQ.
  - apply IH. intros r' ext' Hr'. rewrite <-app_assoc. apply HQ. intros Hp. apply passingRun_app_r. auto.
Qed.

(** Beyond reads and scripts: only when waiting, and after a passing run. *)
Definition triggerOrder (root : string) (hist : list (event storeE)) X (e : storeE X) : Prop :=
  isRead e ∨ isScript e ∨
  ∃ meta rest, hist = rootRead root meta :: rest ∧ meta.[FieldState] = StateWaitingTrigger ∧
    meta.[FieldTrigger] = TriggerEvent ∧ passingRun meta.[FieldTriggerCondition] rest.

(** A trigger-gated loop advances only on its trigger: every operation of
    [HandleTrigger] other than reads and script runs happens after the loop was
    read in waiting_trigger and after its own trigger script exited with
    success in this call. *)
Theorem trigger_guard `{UnicodeTables, DurationParser} h root tr1 X (e : storeE X) x tr2 q :
  exec (HandleTrigger h root) (tr1 ++ Ev e x :: tr2) q → triggerOrder root tr1 X e.
Proof.
  apply hist_sound with (Q := λ _ _, True). unfold HandleTrigger.
  apply wp_callE; [by left|done|]. intros meta. cbn [app].
  destruct (bool_decide_reflect (meta.[FieldState] = StateWaitingTrigger)) as [Hs|]; [|done]. cbn [negb].
  destruct (ParseTriggerConfig meta) as [tc|] eqn:Htc; [|done].
  destruct (Enabled tc) eqn:Hen; [|done]. cbn [negb]. destruct (ParseGateConfig meta) as [cfg|]; [|done].
  assert (meta.[FieldTrigger] = TriggerEvent ∧ tcCondition tc = meta.[FieldTriggerCondition]) as [Htr Hcond].
  { unfold ParseTriggerConfig in Htc. revert Htc.
    destruct (bool_decide_reflect (meta.[FieldTrigger] = TriggerNone)); [by intros [= <-]|].
    destruct (bool_decide_reflect (meta.[FieldTrigger] = TriggerEvent)); [|by intros ?].
    destruct (_ == _); [by intros ?|]. by intros [= <-]. }
  unfold deriveIterationCount. apply wp_bind, wp_bind. apply wp_perform; [by left|]. intros [cs [e'|]]; cbn [wp]; [done|].
  destruct (DecodeInt _) as [mx ok]. cbn [val snd fst]. case_match; [done|].
  apply wp_bind, RunCondition_pass; [by right; left|]. intros r ext Hr. rewrite Hcond in Hr.
  destruct (bool_decide_reflect (grOutcome r = GatePass)) as [Hp|]; [|done]. cbn [negb].
  apply wp_hist_free. intros ext2 Y e2. right; right.
  exists meta, ([Ev (Children root) (cs, None)] ++ ext ++ ext2). split_and!; [done..|].
  apply passingRun_app_r, passingRun_app_l. auto.
Qed.
