(* ===== verification/ConvRecovery.v ===== *)
(** * ConvRecovery: the recovery scan completes what a crash interrupted

    [RootStore] is what the recovery argument needs of a store: the metadata of
    the loop's root bead behaves as a map, closing it sticks, and reads and
    events leave it alone.  Against any such store: a terminal transition
    stopped at any operation is completed by the recovery scan. *)

From S2P Require Import Prelude GoBase GoText ConvMeta ConvMetaProps Prog ConvStore ConvHandler.
From S2P Require Import ConvHandlerProps ConvManual ConvReconcile.

Local Open Scope Z_scope.

(** ** The contract of a store, as seen from one root bead *)

Class RootStore {T : Type} (m : machine storeE T) (root : string) := {
  rootValid : T → Prop;
  rootMeta : T → metadata;
  rootClosed : T → bool;
  root_getMetadata t : rootValid t → m _ (GetMetadata root) t = ((rootMeta t, None), t);
  root_getBead t : rootValid t →
    ∃ info, m _ (GetBead root) t = ((info, None), t) ∧ (biStatus info = "closed" ↔ rootClosed t = true);
  root_setMetadata k v t : rootValid t →
    ∃ t', m _ (SetMetadata root k v) t = (None, t') ∧ rootValid t' ∧
          rootMeta t' = <[k:=v]> (rootMeta t) ∧ rootClosed t' = rootClosed t;
  root_close r t : rootValid t →
    ∃ t', m _ (CloseBead root r) t = (None, t') ∧ rootValid t' ∧ rootClosed t' = true ∧
          ∀ k, k ≠ "close_reason" → (rootMeta t').[k] = (rootMeta t).[k];
  root_quiet X (e : storeE X) t : rootValid t → isReadOrEmit e →
    rootValid (m _ e t).2 ∧ rootMeta (m _ e t).2 = rootMeta t ∧ rootClosed (m _ e t).2 = rootClosed t
}.

Section recovery.
Context `{UnicodeTables, DurationParser} {T : Type} (m : machine storeE T) (root : string) `{!RootStore m root}.
Context (h : Handler).

(** What the root looks like did not change. *)
Definition sameRoot (t t' : T) : Prop :=
  rootValid t' ∧ rootMeta t' = rootMeta t ∧ rootClosed t' = rootClosed t.

Lemma sameRoot_refl t : rootValid t → sameRoot t t.
Proof. intros Ht. unfold sameRoot. done. Qed.

Lemma sameRoot_trans t1 t2 t3 : sameRoot t1 t2 → sameRoot t2 t3 → sameRoot t1 t3.
Proof. intros (_ & ? & ?) (? & ? & ?). split_and!; congruence. Qed.

Abbreviation quietOps := (λ X (e : storeE X), isReadOrEmit e).

Lemma quiet_run {A} (p : conv A) t : uses quietOps p → rootValid t → sameRoot t (run m p t).2.
Proof.
  intros Hp. revert t. induction p as [a|X e k IH]; intros t Ht; [done|]. destruct Hp as [He Hk]. cbn.
  destruct (root_quiet X e t Ht He) as (Hv & Hm & Hc). destruct (m X e t) as [x t'] eqn:Hme. cbn in *.
  destruct (IH x (Hk x) t' Hv) as (? & ? & ?). split_and!; congruence.
Qed.

Lemma quiet_always {A} (I : T → Prop) (p : conv A) t :
  (∀ t', sameRoot t t' → I t') → uses quietOps p → rootValid t → always m I p t.
Proof.
  intros HI Hp. revert t HI. induction p as [a|X e k IH]; intros t HI Ht; cbn.
  { split; [|done]. by apply HI, sameRoot_refl. }
  destruct Hp as [He Hk]. split; [by apply HI, sameRoot_refl|].
  destruct (root_quiet X e t Ht He) as (Hv & Hm & Hc). destruct (m X e t) as [x t'] eqn:Hme. cbn in *.
  apply IH; [done| |done]. intros t2 Ht2. apply HI. by eapply sameRoot_trans.
Qed.

Lemma emit_quiet r t i b p : uses quietOps (emitEventWith h r t i b p).
Proof. apply emitEventWith_uses. by intros X e. Qed.

Lemma durations_quiet a b : uses quietOps (computeDurations a b).
Proof. apply computeDurations_uses. intros X e. by destruct e. Qed.

(** ** Completing a terminal transition *)

Definition terminated (reason : string) (t : T) : Prop :=
  rootValid t ∧ (rootMeta t).[FieldState] = StateTerminated ∧ (rootMeta t).[FieldTerminalReason] = reason ∧
  rootClosed t = true.

(** A transition that got at least as far as storing the reason. *)
Definition terminating (reason : string) (t : T) : Prop :=
  rootValid t ∧ reason ≠ "" ∧ (rootMeta t).[FieldTerminalReason] = reason ∧
  (rootMeta t).[FieldState] ∈ [StateActive; StateWaitingManual; StateWaitingTrigger; StateTerminated].

(** Storing one field of the root. *)
Lemma run_setMetadata {A} k v (f : option error → conv A) t :
  rootValid t → ∃ t', run m (bind (perform (SetMetadata root k v)) f) t = run m (f None) t' ∧
    rootValid t' ∧ rootMeta t' = <[k:=v]> (rootMeta t) ∧ rootClosed t' = rootClosed t.
Proof.
  intros Ht. destruct (root_setMetadata k v t Ht) as (t' & Hm & Hv & Hmeta & Hc).
  exists t'. cbn. by rewrite Hm.
Qed.

Lemma run_close {A} r (f : option error → conv A) t :
  rootValid t → ∃ t', run m (bind (perform (CloseBead root r)) f) t = run m (f None) t' ∧
    rootValid t' ∧ rootClosed t' = true ∧ ∀ k, k ≠ "close_reason" → (rootMeta t').[k] = (rootMeta t).[k].
Proof.
  intros Ht. destruct (root_close r t Ht) as (t' & Hm & Hv & Hc & Hmeta). exists t'. cbn. by rewrite Hm.
Qed.

Lemma run_quiet {A B} (p : conv A) (f : A → conv B) t :
  uses quietOps p → rootValid t → ∃ a t', run m (bind p f) t = run m (f a) t' ∧ sameRoot t t'.
Proof.
  intros Hp Ht. pose proof (quiet_run p t Hp Ht) as Hs. rewrite run_bind.
  destruct (run m p t) as [a t']. by exists a, t'.
Qed.

(** The parts of the recovery path that only touch the root. *)
Lemma run_backfill (f : option error → conv outcome) meta t :
  rootValid t → ∃ t', run m (bind (backfillTerminalActor root meta) f) t = run m (f None) t' ∧
    rootValid t' ∧ rootClosed t' = rootClosed t ∧
    ∀ k, k ≠ FieldTerminalActor → (rootMeta t').[k] = (rootMeta t).[k].
Proof.
  intros Ht. unfold backfillTerminalActor. destruct (negb _); [by exists t|].
  destruct (run_setMetadata FieldTerminalActor "recovery" f t Ht) as (t' & Hr & Hv & Hm & Hc).
  exists t'. split_and!; [done..|]. intros k Hk. rewrite Hm. by apply mget_insert_ne.
Qed.

Lemma run_children {A} (f : list BeadInfo → conv A) t :
  rootValid t → ∃ cs t', run m (bind (childrenBestEffort root) f) t = run m (f cs) t' ∧ sameRoot t t'.
Proof. apply run_quiet. apply uses_bind; [by apply uses_perform|done]. Qed.

Lemma run_event {A} ty id b p (f : unit → conv A) t :
  rootValid t → ∃ t', run m (bind (emitRecoveryEvent h ty id b p) f) t = run m (f ()) t' ∧ sameRoot t t'.
Proof.
  intros Ht. destruct (run_quiet _ f t (emit_quiet true ty id b p) Ht) as ([] & t' & Hr & Hs). by exists t'.
Qed.

Lemma run_closeRoot act fr t (r : conv outcome) reason :
  rootValid t → (rootMeta t).[FieldTerminalReason] = reason → (rootMeta t).[FieldState] = StateTerminated →
  ∃ t', run m (thenR act (perform (CloseBead root CloseReasonReconcileDone)) fr r) t = run m r t' ∧
        terminated reason t'.
Proof.
  intros Ht Hr Hs. destruct (run_close CloseReasonReconcileDone
    (λ err, match err with Some e => Ret (act, Some (fr e)) | None => r end) t Ht) as (t' & Hrun & Hv & Hc & Hm).
  exists t'. split; [exact Hrun|]. split_and!; [done|by rewrite Hm|by rewrite Hm|done].
Qed.

Lemma run_setState (f : option error → conv outcome) st t :
  rootValid t → (rootMeta t).[FieldState] = st →
  ∃ t', run m (bind (if st != StateTerminated then perform (SetMetadata root FieldState StateTerminated) else Ret None) f) t
          = run m (f None) t' ∧
        rootValid t' ∧ (rootMeta t').[FieldState] = StateTerminated ∧
        (rootMeta t').[FieldTerminalReason] = (rootMeta t).[FieldTerminalReason].
Proof.
  intros Ht Hst. destruct (bool_decide_reflect (st = StateTerminated)) as [->|Hne]; cbn [negb].
  { by exists t. }
  destruct (run_setMetadata FieldState StateTerminated f t Ht) as (t' & Hr & Hv & Hm & _). exists t'.
  split_and!; [done..|by rewrite Hm, mget_insert_eq|by rewrite Hm, mget_insert_ne].
Qed.

(** The marker is stored last, and changes neither state nor reason. *)
Lemma run_marker (b : bool) v (r : outcome) reason t :
  terminated reason t →
  ∃ t', run m (if b then let* _ := perform (SetMetadata root FieldLastProcessedWisp v) in Ret r else Ret r) t = (r, t') ∧
        terminated reason t'.
Proof.
  intros Ht. destruct b; [|by exists t]. destruct Ht as (Hv & Hs & Hr & Hc).
  destruct (run_setMetadata FieldLastProcessedWisp v (λ _, Ret r) t Hv) as (t' & Hrun & Hv' & Hm & Hc').
  exists t'. split; [exact Hrun|]. unfold terminated. rewrite Hm, !mget_insert_ne, Hc' by done. done.
Qed.

Lemma complete_terminal t :
  rootValid t →
  ∃ t', run m (completeTerminalTransition h root (rootMeta t)) t = ((ActionCompletedTerminal, None), t') ∧
        terminated (rootMeta t).[FieldTerminalReason] t'.
Proof.
  intros Hv. unfold completeTerminalTransition, thenR at 1.
  edestruct run_backfill as (t1 & -> & Hv1 & Hc1 & Hm1); [done|]. cbn beta iota.
  edestruct (run_children (A := outcome)) as (cs & t2 & -> & Hv2 & Hm2 & Hc2); [done|].
  edestruct (run_event (A := outcome)) as (t3 & -> & Hv3 & Hm3 & Hc3); [done|].
  unfold thenR at 1. edestruct run_setState as (t4 & -> & Hv4 & Hs4 & Hr4); [exact Hv3|by rewrite Hm3, Hm2, Hm1|].
  edestruct run_closeRoot as (t5 & -> & Ht5); [exact Hv4|exact Hr4|exact Hs4|].
  rewrite Hm3, Hm2, Hm1 in Ht5 by done.
  by apply run_marker.
Qed.

Lemma run_getRoot act fr (q : BeadInfo → conv outcome) t :
  rootValid t → ∃ info, run m (bindR act (call (GetBead root)) fr q) t = run m (q info) t ∧
    (biStatus info = "closed" ↔ rootClosed t = true).
Proof.
  intros Hv. destruct (root_getBead t Hv) as (info & Hg & Hclosed). exists info. split; [|done].
  unfold bindR. cbn. by rewrite Hg.
Qed.

Lemma complete_terminatedNotClosed t :
  rootValid t → (rootMeta t).[FieldState] = StateTerminated →
  ∃ act t', run m (reconcileTerminatedNotClosed h root (rootMeta t)) t = ((act, None), t') ∧
        terminated (rootMeta t).[FieldTerminalReason] t'.
Proof.
  intros Hv Hs. unfold reconcileTerminatedNotClosed.
  edestruct run_getRoot as (info & -> & Hclosed); [done|]. cbn beta.
  destruct (bool_decide_reflect (biStatus info = "closed")) as [Hc|Hc].
  { exists ActionNoAction, t. split; [done|]. apply Hclosed in Hc. done. }
  unfold thenR at 1. edestruct run_backfill as (t1 & -> & Hv1 & Hc1 & Hm1); [done|]. cbn beta iota.
  edestruct (run_children (A := outcome)) as (cs & t2 & -> & Hv2 & Hm2 & Hc2); [done|].
  edestruct (run_event (A := outcome)) as (t3 & -> & Hv3 & Hm3 & Hc3); [done|].
  edestruct run_closeRoot as (t5 & -> & Ht5); [exact Hv3|done|by rewrite Hm3, Hm2, Hm1|].
  rewrite Hm3, Hm2, Hm1 in Ht5 by done. by exists ActionCompletedTerminal, t5.
Qed.

Lemma run_reconcileState t : rootValid t →
  run m (reconcileState h root) t = run m (
    let meta := rootMeta t in
    let state := meta.[FieldState] in
    if state == "" then reconcileMissingState h root meta
    else if state == StateCreating then reconcileCreating root
    else if state == StateTerminated then reconcileTerminatedNotClosed h root meta
    else if state == StateWaitingManual then reconcileWaitingManual h root meta
    else if state == StateWaitingTrigger then reconcileWaitingTrigger h root meta
    else if state == StateActive then reconcileActive h root meta
    else Ret (ActionNoAction, Some (Errorf "unknown convergence state %q" [AStr state]))) t.
Proof. intros Ht. unfold reconcileState, bindR. cbn. by rewrite (root_getMetadata t Ht). Qed.

Lemma terminating_completed reason t :
  terminating reason t →
  (run m (reconcileState h root) t).1.2 = None ∧ terminated reason (run m (reconcileState h root) t).2.
Proof.
  intros (Hv & Hne & Hr & Hst). rewrite run_reconcileState by done. cbv zeta.
  assert (((rootMeta t).[FieldTerminalReason] == "") = false) as Hr0 by (apply bool_decide_eq_false; congruence).
  destruct (complete_terminal t Hv) as (t' & Hc & Ht'). rewrite Hr in Ht'.
  set_unfold in Hst. destruct Hst as [Hs|[Hs|[Hs|[Hs|[]]]]]; rewrite Hs; cbn [bool_decide];
    repeat (rewrite bool_decide_eq_false_2 by done); rewrite bool_decide_eq_true_2 by done.
  - unfold reconcileActive. rewrite Hr0. cbn [negb]. by rewrite Hc.
  - unfold reconcileWaitingManual. cbv zeta. rewrite Hr0. cbn [negb]. by rewrite Hc.
  - unfold reconcileWaitingTrigger. rewrite Hr0. cbn [negb]. by rewrite Hc.
  - destruct (complete_terminatedNotClosed t Hv Hs) as (act & t2 & -> & Ht2). by rewrite Hr in Ht2.
Qed.

(** A terminated loop is left alone. *)
Lemma terminated_stable reason t :
  terminated reason t → run m (reconcileState h root) t = ((ActionNoAction, None), t).
Proof.
  intros (Hv & Hs & _ & Hc). rewrite run_reconcileState by done. cbv zeta. rewrite Hs.
  repeat (rewrite bool_decide_eq_false_2 by done). rewrite bool_decide_eq_true_2 by done.
  unfold reconcileTerminatedNotClosed. edestruct run_getRoot as (info & -> & Hclosed); [done|].
  by rewrite bool_decide_eq_true_2 by (by apply Hclosed).
Qed.

(** The recovery scan finishes every terminal transition that got as far as
    storing its reason: from any of the states such a transition can be left
    in (active, waiting for an operator or a trigger, or terminated), the scan
    reports no error and leaves the loop terminated, closed, and with the very
    reason that was stored; a second scan has nothing left to do and changes
    nothing. *)
Theorem reconcile_completes_terminal reason t :
  terminating reason t →
  let '(r, t') := run m (reconcileState h root) t in
  r.2 = None ∧ terminated reason t' ∧ run m (reconcileState h root) t' = ((ActionNoAction, None), t').
Proof.
  intros Ht. destruct (terminating_completed reason t Ht) as [Hr Ht'].
  destruct (run m (reconcileState h root) t) as [r t']. split_and!; [done..|]. by eapply terminated_stable.
Qed.

(** ** Crashes inside a terminal transition *)

Lemma always_quiet {A B} (I : T → Prop) (p : conv A) (f : A → conv B) t :
  (∀ t', sameRoot t t' → I t') → uses quietOps p → rootValid t →
  (∀ a t', sameRoot t t' → always m I (f a) t') → always m I (bind p f) t.
Proof.
  intros HI Hp Hv Hf. apply always_bind; [by apply quiet_always|].
  pose proof (quiet_run p t Hp Hv) as Hs. destruct (run m p t) as [a t']. by apply Hf.
Qed.

(** One operation on the root, then the rest. *)
Lemma always_setMetadata {A} (I : T → Prop) k v (f : option error → conv A) t :
  I t → rootValid t →
  (∀ t', rootValid t' → rootMeta t' = <[k:=v]> (rootMeta t) → always m I (f None) t') →
  always m I (Vis (SetMetadata root k v) f) t.
Proof.
  intros HI Hv Hf. cbn. split; [done|].
  destruct (root_setMetadata k v t Hv) as (t' & -> & Hv' & Hm & _). by apply Hf.
Qed.

Lemma always_close {A} (I : T → Prop) r (f : option error → conv A) t :
  I t → rootValid t →
  (∀ t', rootValid t' → (∀ k, k ≠ "close_reason" → (rootMeta t').[k] = (rootMeta t).[k]) → always m I (f None) t') →
  always m I (Vis (CloseBead root r) f) t.
Proof.
  intros HI Hv Hf. cbn. split; [done|].
  destruct (root_close r t Hv) as (t' & -> & Hv' & _ & Hm). by apply Hf.
Qed.

(** The writes of a terminal transition and the close, from a live state. *)
Lemma always_commit_terminal reason actor l1 l2 l3 fr lm wisp t :
  rootValid t → reason ≠ "" → (rootMeta t).[FieldState] ∈ [StateActive; StateWaitingManual; StateWaitingTrigger] →
  always m (λ t', sameRoot t t' ∨ terminating reason t') (commit root
    [mkWrite FieldTerminalReason reason l1; mkWrite FieldTerminalActor actor l2;
     mkWrite FieldState StateTerminated l3]
    (Some (let* err := perform (CloseBead root CloseReasonHandlerRoot) in Ret (option_map fr err)))
    (mkWrite FieldLastProcessedWisp wisp lm)) t.
Proof.
  intros Hv Hne Hst. unfold commit, write. cbn [forEach bind perform trigger mwKey mwValue].
  assert (∀ t', rootValid t' → (rootMeta t').[FieldTerminalReason] = reason →
    (rootMeta t').[FieldState] = (rootMeta t).[FieldState] ∨ (rootMeta t').[FieldState] = StateTerminated →
    terminating reason t') as Hterm.
  { intros t' Hv' Hr Hs. split_and!; [done..|]. set_unfold. destruct Hs as [->| ->]; tauto. }
  apply always_setMetadata; [left; by apply sameRoot_refl|done|]. intros t1 Hv1 Hm1.
  apply always_setMetadata; [right|done|].
  { apply Hterm; rewrite ?Hm1; autorewrite with gc; auto. }
  intros t2 Hv2 Hm2. apply always_setMetadata; [right|done|].
  { apply Hterm; rewrite ?Hm2, ?Hm1; autorewrite with gc; auto. }
  intros t3 Hv3 Hm3. apply always_close; [right|done|].
  { apply Hterm; rewrite ?Hm3, ?Hm2, ?Hm1; autorewrite with gc; auto. }
  intros t4 Hv4 Hm4. assert (terminating reason t4) as Ht4.
  { apply Hterm; [done|..]; rewrite Hm4, Hm3, ?Hm2, ?Hm1 by done; autorewrite with gc; auto. }
  destruct (wisp == ""); [by split; [right|]|]. apply always_setMetadata; [by right|done|]. intros t5 Hv5 Hm5.
  split; [right|done]. apply Hterm; [done|..]; rewrite Hm5, mget_insert_ne, Hm4, Hm3, ?Hm2, ?Hm1 by done;
    autorewrite with gc; auto.
Qed.

Lemma always_mono {A} (I J : T → Prop) (p : conv A) t : (∀ t', I t' → J t') → always m I p t → always m J p t.
Proof.
  intros HIJ. revert t. induction p as [a|X e k IH]; intros t; cbn; intros [HI Hk]; split; auto.
  destruct (m X e t). by apply IH.
Qed.

Lemma always_run {A} (I : T → Prop) (p : conv A) t : always m I p t → I (run m p t).2.
Proof.
  revert t. induction p as [a|X e k IH]; intros t; cbn; intros [HI Hk]; [done|].
  destruct (m X e t). by apply IH.
Qed.

Lemma always_terminate wisp n cfg gr reason actor g meta t :
  rootValid t → reason ≠ "" → (rootMeta t).[FieldState] ∈ [StateActive; StateWaitingManual; StateWaitingTrigger] →
  always m (λ t', sameRoot t t' ∨ terminating reason t') (terminate h root wisp n cfg gr reason actor g meta) t.
Proof.
  intros Hv Hne Hst. unfold terminate.
  apply always_quiet; [by left|apply durations_quiet|done|]. intros durs t1 H1.
  apply always_quiet; [intros; left; by eapply sameRoot_trans|apply emit_quiet|apply H1|]. intros _ t2 H2.
  pose proof (sameRoot_trans _ _ _ H1 H2) as H2'.
  apply always_quiet; [intros; left; by eapply sameRoot_trans|apply emit_quiet|apply H2|]. intros _ t3 H3.
  pose proof (sameRoot_trans _ _ _ H2' H3) as (Hv3 & Hm3 & Hc3). unfold committed, thenE.
  eassert (always m (λ t', sameRoot t t' ∨ terminating reason t') (commit root _ _ _) t3) as Hc.
  { eapply always_mono; [|apply (always_commit_terminal reason); [done..|by rewrite Hm3]].
    intros t' [Hs|?]; [left|by right]. by apply (sameRoot_trans _ _ _ (conj Hv3 (conj Hm3 Hc3))). }
  apply always_bind; [exact Hc|]. apply always_run in Hc.
  destruct (run m _ t3) as [[e|] t4]; by split.
Qed.

(** C1 A terminal transition interrupted at any point is either not begun or is
    finished by the recovery scan.  Stop [terminate] after any number [n] of
    store operations, for a live loop: either the root bead is exactly as it
    was before, or the scan at the next start reports no error and leaves the
    loop terminated, closed, and with the reason the interrupted transition
    was recording. *)
Theorem terminal_crash_recovery wisp n cfg gr reason actor g meta t k :
  rootValid t → reason ≠ "" → (rootMeta t).[FieldState] ∈ [StateActive; StateWaitingManual; StateWaitingTrigger] →
  let t' := runN k m (terminate h root wisp n cfg gr reason actor g meta) t in
  (rootMeta t' = rootMeta t ∧ rootClosed t' = rootClosed t) ∨
  ((run m (reconcileState h root) t').1.2 = None ∧ terminated reason (run m (reconcileState h root) t').2).
Proof.
  intros Hv Hne Hst t'. pose proof (always_runN m _ _ _ k (always_terminate wisp n cfg gr reason actor g meta t Hv Hne Hst))
    as [(_ & Hs)|Ht]; [by left|right]. by apply terminating_completed.
Qed.
End recovery.

(** ** The report *)

Section report.
Context `{UnicodeTables, DurationParser} (h : Handler).

Definition detailErrored (d : ReconcileDetail) : Prop := is_Some d.(rdError).
Definition detailRecovered (d : ReconcileDetail) : Prop := d.(rdError) = None ∧ d.(rdAction) ≠ ActionNoAction.

#[export] Instance detailErrored_dec d : Decision (detailErrored d).
Proof. unfold detailErrored. apply _. Defined.

#[export] Instance detailRecovered_dec d : Decision (detailRecovered d).
Proof. unfold detailRecovered. destruct (rdError d) as [e|]; [right; by intros [? _]|].
  destruct (decide (rdAction d = ActionNoAction)) as [?|?]; [right; by intros [_ ?]|by left]. Defined.

Lemma addDetails_report ds rep :
  foldl addDetail rep ds = mkReport rep.(rpScanned)
    (rep.(rpRecovered) + Z.of_nat (length (filter detailRecovered ds)))
    (rep.(rpErrors) + Z.of_nat (length (filter detailErrored ds)))
    (rep.(rpDetails) ++ ds).
Proof.
  revert rep. induction ds as [|d ds IH]; intros rep; cbn [foldl].
  { destruct rep as [s r e ds]. cbn. by rewrite !Z.add_0_r, app_nil_r. }
  rewrite IH, !filter_cons. unfold addDetail. cbn [rpScanned rpRecovered rpErrors rpDetails]. rewrite <-app_assoc. f_equal.
  - destruct (rdError d) as [e|] eqn:He; cbn.
    + rewrite decide_False; [done|]. intros [? _]. congruence.
    + destruct (bool_decide_reflect (rdAction d = ActionNoAction)) as [Ha|Ha]; cbn.
      * rewrite decide_False; [done|]. by intros [_ ?].
      * rewrite decide_True by done. cbn. lia.
  - destruct (rdError d) as [e|] eqn:He.
    + rewrite decide_True; [cbn; lia|]. by exists e.
    + rewrite decide_False; [done|]. unfold detailErrored. rewrite He. by intros [? ?].
Qed.

Lemma reconcileLoop_details ids rep tr rep' :
  exec (reconcileLoop h rep ids) tr (Ret rep') →
  ∃ ds, rep' = foldl addDetail rep ds ∧ rdBeadID <$> ds = ids.
Proof.
  set (M := histMonitor (E := storeE) (λ _ _ _, True)).
  assert (∀ s, wp M (reconcileLoop h rep ids) s (λ r _, ∃ ds, r = foldl addDetail rep ds ∧ rdBeadID <$> ds = ids)) as Hw.
  { revert rep. induction ids as [|id ids IH]; intros rep s; cbn [reconcileLoop]; [by exists []|].
    unfold reconcileBead. apply wp_bind, wp_bind. apply (wp_hist_uses _ (λ _ _, True)); [done|apply uses_any|].
    intros r ext. cbn. eapply wp_mono; [apply IH|]. intros r' _ (ds & -> & Hds).
    exists (mkDetail id r.1 r.2 :: ds). by rewrite <-Hds. }
  intros He. apply (wp_sound_ret M _ [] _ _ _ (Hw []) He).
Qed.

(** The report of a recovery scan accounts for every bead it was given, in
    order and exactly once, and its counters are exact: an error is counted
    for each bead whose path failed, a recovery for each bead whose path
    succeeded and did something; no bead is counted twice. *)
Theorem reconcile_report ids tr rep :
  exec (ReconcileBeads h ids) tr (Ret rep) →
  rdBeadID <$> rep.(rpDetails) = ids ∧
  rep.(rpScanned) = Z.of_nat (length ids) ∧
  rep.(rpErrors) = Z.of_nat (length (filter detailErrored rep.(rpDetails))) ∧
  rep.(rpRecovered) = Z.of_nat (length (filter detailRecovered rep.(rpDetails))) ∧
  rep.(rpErrors) + rep.(rpRecovered) ≤ rep.(rpScanned).
Proof.
  intros He. destruct (reconcileLoop_details _ _ _ _ He) as (ds & -> & <-). rewrite addDetails_report.
  cbn [rpScanned rpRecovered rpErrors rpDetails app]. rewrite !Z.add_0_l.
  split_and!; [done..|]. rewrite length_fmap. clear He. induction ds as [|d ds IH]; [done|].
  rewrite !filter_cons. destruct (decide (detailErrored d)) as [[e He']|], (decide (detailRecovered d)) as [[? ?]|];
    [congruence|cbn [length]; lia..].
Qed.
End report.
