(* ===== verification/ConvAdapter.v ===== *)
(** * ConvAdapter: the convergence store over a bead store

    Models [cmd/gc/convergence_store.go]: the adapter that implements
    [convergence.Store] with a [beads.Store], here the in-memory one, and keeps
    an index of the live loops.  Formula compilation ([molecule.Cook],
    [graphv2.IsGraphV2Formula]) and [time.Parse] are parameters.  Each call of
    the store reads the clock once; [clock n] is what the [n]-th reading says.
    [adapterMachine] runs the programs of the handlers against the adapter. *)

From S2P Require Import Prelude GoBase GoText Beads MemStore ConvMeta Prog ConvStore.

Local Open Scope Z_scope.

(** ** Errors of the bead store *)

Definition storeError (e : StoreError) : error :=
  match e with
  | ErrNotFound context id => Wrapf (context +:+ " %q: %w") [AStr id] [StoreErr true "bead not found"]
  | ErrQueryRequiresScan => Wrapf "listing beads: %w" [] [StoreErr false "query requires scan"]
  | ErrConditionalWriteUnsupported => StoreErr false "conditional write unsupported"
  | ErrEmptyConditionalUpdate id => Errorf "empty conditional update %q" [AStr id]
  | PreconditionFailedError id x y => Errorf "precondition failed on %q: %d %d" [AStr id; AInt x; AInt y]
  end.

(** A Go pair of a value and an error; the zero value goes with an error. *)
Definition pairOf {A B} (zero : B) (f : A → B) (r : res StoreError A) : B * option error :=
  match r with Ok a => (f a, None) | Err e => (zero, Some (storeError e)) end.

Definition errOf {A} (r : res StoreError A) : option error :=
  match r with Ok _ => None | Err e => Some (storeError e) end.

(** ** State *)

(** [convergenceStoreAdapter]; a nil index is [None]. *)
Record Adapter := mkAdapter {
  aStore : MemStore;
  aIndex : option (gmap string string);
  aTick : nat
}.

Definition setStore (a : Adapter) (m : MemStore) : Adapter := mkAdapter m a.(aIndex) a.(aTick).
Definition setIndex (a : Adapter) (idx : option (gmap string string)) : Adapter := mkAdapter a.(aStore) idx a.(aTick).

(** [delete(a.activeIndex, id)] when the index exists. *)
Definition dropIndex (id : string) (a : Adapter) : Adapter := setIndex a (delete id <$> a.(aIndex)).

Definition liveStates : list string := [StateActive; StateWaitingManual; StateWaitingTrigger].

Definition DeferredAssigneeMetadataKey : string := "gc.deferred_assignee".
Definition DeferredRoutedToMetadataKey : string := "gc.deferred_routed_to".
Definition DeferredExecutionRoutedToMetadataKey : string := "gc.deferred_execution_routed_to".
Definition DeferredTypeMetadataKey : string := "gc.deferred_type".
Definition RoutedToMetadataKey : string := "gc.routed_to".
Definition ExecutionRoutedToMetadataKey : string := "gc.execution_routed_to".

(** [extractParentIDFromKey]. *)
Definition extractParentIDFromKey (key : string) : string :=
  if negb (HasPrefix key "converge:") then ""
  else let rest := sdrop 9 key in
       match Index rest ":iter:" with
       | None => ""
       | Some idx => stake idx rest
       end.

Section adapter.
(** [clock]: the clock; [parseTime]: [time.Parse(time.RFC3339Nano, _)], [None]
    for an error; [isGraphV2Formula] and [cook]: the formula compiler, which
    changes the store. *)
Variable clock : nat → Z.
Variable parseTime : string → option Z.
Variable isGraphV2Formula : string → res error bool.
Variable cook : Z → string → gmap string string → string → string → bool → MemStore → res error string * MemStore.

(** One mutating call of the store. *)
Definition mutate {A} (f : Z → MemStore → res StoreError A * MemStore) (a : Adapter) : res StoreError A * Adapter :=
  let '(r, m) := f (clock a.(aTick)) a.(aStore) in
  (r, mkAdapter m a.(aIndex) (S a.(aTick))).

Definition beadToInfo (b : Bead) : BeadInfo :=
  let parsed := if b.(bMetadata).["closed_at"] != "" then default 0 (parseTime b.(bMetadata).["closed_at"]) else 0 in
  mkBeadInfo b.(bID) b.(bStatus) b.(bParentID) b.(bMetadata).["idempotency_key"] b.(bCreatedAt)
    (if (b.(bStatus) == "closed") && IsZero parsed then b.(bCreatedAt) else parsed).

Definition GetBead (id : string) (a : Adapter) : BeadInfo * option error :=
  pairOf zeroBeadInfo beadToInfo (Get a.(aStore) id).

Definition GetMetadata (id : string) (a : Adapter) : metadata * option error :=
  pairOf ∅ bMetadata (Get a.(aStore) id).

(** The index upkeep of [SetMetadata] for a live state. *)
Definition indexLive (id : string) (idx : gmap string string) (a : Adapter) : option error * Adapter :=
  match idx !! id with
  | Some _ => (None, a)
  | None =>
      match Get a.(aStore) id with
      | Err e => (Some (Wrapf "reading bead %q for active index: %w" [AStr id] [storeError e]), a)
      | Ok b => (None, if decide (b.(bMetadata) = ∅) then a
                       else setIndex a (Some (<[id:=b.(bMetadata).[FieldTarget]]> idx)))
      end
  end.

Definition SetMetadata (id key value : string) (a : Adapter) : option error * Adapter :=
  let '(r, a) := mutate (λ now, MemStore.SetMetadata now id key value) a in
  match r with
  | Err e => (Some (storeError e), a)
  | Ok _ =>
      match a.(aIndex) with
      | Some idx =>
          if key == FieldState then
            if bool_decide (value ∈ liveStates) then indexLive id idx a
            else if (value == StateTerminated) || (value == StateCreating) then (None, dropIndex id a)
            else (None, a)
          else (None, a)
      | None => (None, a)
      end
  end.

Definition CloseBead (id reason : string) (a : Adapter) : option error * Adapter :=
  let a := if reason != "" then (mutate (λ now, MemStore.SetMetadata now id "close_reason" reason) a).2 else a in
  let '(r, a) := mutate (λ now, Close now id) a in
  match r with
  | Err e => (Some (storeError e), a)
  | Ok _ => (None, dropIndex id a)
  end.

Definition DeleteBead (id : string) (a : Adapter) : option error * Adapter :=
  let '(r, a) := mutate (λ _, Delete id) a in
  match r with
  | Err e => (Some (storeError e), a)
  | Ok _ => (None, dropIndex id a)
  end.

(** [beads.ListQuery{ParentID: parentID, Sort: SortCreatedAsc}]. *)
Definition childrenQuery (parentID : string) : ListQuery :=
  mkListQuery "" "" "" "" [] parentID [] ∅ 0 0 0 false false false false SortCreatedAsc false TierIssues None.

(** [beads.ListQuery{Type: "convergence"}]. *)
Definition convergenceQuery : ListQuery :=
  mkListQuery "" "convergence" "" "" [] "" [] ∅ 0 0 0 false false false false SortDefault false TierIssues None.

(** [beads.ListQuery{Metadata: {"idempotency_key": key}}]. *)
Definition keyQuery (key : string) : ListQuery :=
  mkListQuery "" "" "" "" [] "" [] {["idempotency_key" := key]} 0 0 0 false false false false SortDefault false TierIssues None.

Definition Children (parentID : string) (a : Adapter) : list BeadInfo * option error :=
  pairOf [] (map beadToInfo) (ListBeads a.(aStore) (childrenQuery parentID)).

(** The first bead of a listing that carries the key (an empty metadata map
    counts as nil). *)
Definition findKey (key : string) (bs : list Bead) : string * bool :=
  match List.find (λ b, negb (bool_decide (b.(bMetadata) = ∅)) && (b.(bMetadata).["idempotency_key"] == key)) bs with
  | Some b => (b.(bID), true)
  | None => ("", false)
  end.

Definition findByKeyScan (key : string) (a : Adapter) : string * bool * option error :=
  match ListBeads a.(aStore) (keyQuery key) with
  | Err e => ("", false, Some (storeError e))
  | Ok bs => (findKey key bs, None)
  end.

Definition FindByIdempotencyKey (key : string) (a : Adapter) : string * bool * option error :=
  let parentID := extractParentIDFromKey key in
  if parentID == "" then findByKeyScan key a
  else match ListBeads a.(aStore) (childrenQuery parentID) with
       | Err e => ("", false, Some (Wrapf "listing children of %s: %w" [AStr parentID] [storeError e]))
       | Ok bs => (findKey key bs, None)
       end.

Definition pourWisp (parentID formula idempotencyKey : string) (vars : gmap string string) (evaluatePrompt : string)
    (deferAssignees : bool) (a : Adapter) : (string * option error) * Adapter :=
  let '(existing, found, err) := FindByIdempotencyKey idempotencyKey a in
  match err with
  | Some e => (("", Some (Wrapf "idempotency check for %q: %w" [AStr idempotencyKey] [e])), a)
  | None =>
      if found : bool then ((existing, None), a)
      else
        let cookVars := if evaluatePrompt != "" then <["evaluate_prompt":=evaluatePrompt]> vars else vars in
        match isGraphV2Formula formula with
        | Err e => (("", Some (Wrapf "checking formulas v2 contract for convergence wisp %q: %w" [AStr formula] [e])), a)
        | Ok true => (("", Some (Errorf "convergence wisps do not support v2 formula %q; use a v1 formula until convergence has an explicit input convoy target" [AStr formula])), a)
        | Ok false =>
            let '(r, m) := cook (clock a.(aTick)) formula cookVars parentID idempotencyKey deferAssignees a.(aStore) in
            let a := mkAdapter m a.(aIndex) (S a.(aTick)) in
            match r with
            | Err e => (("", Some e), a)
            | Ok rootID => ((rootID, None), a)
            end
        end
  end.

(** The update [activateDeferredAssignees] applies to one bead. *)
Definition activationUpdate (b : Bead) : UpdateOpts :=
  let meta := b.(bMetadata) in
  let assignee := meta.[DeferredAssigneeMetadataKey] in
  let routedTo := meta.[DeferredRoutedToMetadataKey] in
  let executionRoutedTo := meta.[DeferredExecutionRoutedToMetadataKey] in
  let typ := meta.[DeferredTypeMetadataKey] in
  let md := if (routedTo != "") && (meta.[RoutedToMetadataKey] != routedTo)
            then {[RoutedToMetadataKey := routedTo]} else ∅ in
  let md := if (executionRoutedTo != "") && (meta.[ExecutionRoutedToMetadataKey] != executionRoutedTo)
            then <[ExecutionRoutedToMetadataKey := executionRoutedTo]> md else md in
  mkUpdateOpts None None
    (if (typ != "") && (b.(bType) != typ) then Some typ else None)
    None None None
    (if (assignee != "") && (b.(bAssignee) != assignee) then Some assignee else None)
    [] [] md.

(** The loop over the children. *)
Fixpoint activateEach (activate : string → Adapter → option (option error * Adapter)) (l : list Bead) (a : Adapter)
    : option (option error * Adapter) :=
  match l with
  | [] => Some (None, a)
  | child :: l' =>
      match activate child.(bID) a with
      | None => None
      | Some (Some e, a) => Some (Some e, a)
      | Some (None, a) => activateEach activate l' a
      end
  end.

(** The recursion over the wisp's subtree.  [None]: out of fuel; the result is
    the error and the adapter otherwise. *)
Fixpoint activateDeferredAssignees (fuel : nat) (id : string) (a : Adapter) : option (option error * Adapter) :=
  match fuel with
  | O => None
  | S fuel =>
      match Get a.(aStore) id with
      | Err e => Some (Some (storeError e), a)
      | Ok b =>
          let update := activationUpdate b in
          let '(r, a) :=
            if negb (is_None update.(oAssignee)) || negb (is_None update.(oType)) ||
               negb (bool_decide (update.(oMetadata) = ∅))
            then mutate (λ now, Update now id update) a else (Ok (), a) in
          match r with
          | Err e => Some (Some (Wrapf "assigning deferred bead %q: %w" [AStr id] [storeError e]), a)
          | Ok _ =>
              match MemStore.Children a.(aStore) id [IncludeClosed] with
              | Err e => Some (Some (Wrapf "listing children for activation %q: %w" [AStr id] [storeError e]), a)
              | Ok children =>
                  activateEach (activateDeferredAssignees fuel) children a
              end
          end
      end
  end.

(** Enough fuel whenever parent links do not form a cycle
    ([activate_terminates]). *)
Definition activationFuel (a : Adapter) : nat := S (length a.(aStore).(msBeads)).

Definition ActivateWisp (id : string) (a : Adapter) : option (option error * Adapter) :=
  activateDeferredAssignees (activationFuel a) id a.

(** A bead that counts as a live loop. *)
Definition isLive (b : Bead) : bool := bool_decide (b.(bMetadata).[FieldState] ∈ liveStates).

Definition CountActiveConvergenceLoops (targetAgent : string) (a : Adapter) : Z * option error :=
  match a.(aIndex) with
  | Some idx => (Z.of_nat (length (List.filter (λ kv, kv.2 == targetAgent) (map_to_list idx))), None)
  | None =>
      pairOf 0 (λ bs, Z.of_nat (length (List.filter (λ b, isLive b && (b.(bMetadata).[FieldTarget] == targetAgent)) bs)))
        (ListBeads a.(aStore) convergenceQuery)
  end.

Definition CreateConvergenceBead (title : string) (a : Adapter) : (string * option error) * Adapter :=
  let '(r, a) := mutate (λ now, Create now (setStatus (setType (setTitle zeroBead title) "convergence") "in_progress")) a in
  (pairOf "" bID r, a).

Definition populateIndex (a : Adapter) : option error * Adapter :=
  match ListBeads a.(aStore) convergenceQuery with
  | Err e => (Some (storeError e), a)
  | Ok bs =>
      (None, setIndex a (Some (foldl (λ idx b, if isLive b then <[b.(bID):=b.(bMetadata).[FieldTarget]]> idx else idx) ∅ bs)))
  end.

(** In some order, that of Go's map iteration. *)
Definition activeBeadIDs (a : Adapter) : list string :=
  match a.(aIndex) with None => [] | Some idx => (map_to_list idx).*1 end.

(** ** The machine *)

(** What [convergenceEventEmitter] records: type, subject and payload. *)
Record Recorded := mkRecorded { reType : string; reActor : string; reSubject : string; rePayload : Payload }.

(** The adapter, the event log, and what running a script shows. *)
Record World := mkWorld { wAdapter : Adapter; wEvents : list Recorded }.

Variable runScript : string → string → ConditionEnv → Z → RunOutcome.

Definition onAdapter (w : World) (a : Adapter) : World := mkWorld a w.(wEvents).

Definition adapterMachine : machine storeE World := λ X e,
  match e in storeE X return World → X * World with
  | ConvStore.GetBead id => λ w, (GetBead id w.(wAdapter), w)
  | ConvStore.GetMetadata id => λ w, (GetMetadata id w.(wAdapter), w)
  | ConvStore.SetMetadata id k v => λ w, let '(r, a) := SetMetadata id k v w.(wAdapter) in (r, onAdapter w a)
  | ConvStore.CloseBead id reason => λ w, let '(r, a) := CloseBead id reason w.(wAdapter) in (r, onAdapter w a)
  | ConvStore.DeleteBead id => λ w, let '(r, a) := DeleteBead id w.(wAdapter) in (r, onAdapter w a)
  | ConvStore.Children p => λ w, (Children p w.(wAdapter), w)
  | ConvStore.PourWisp p f k vars ep => λ w,
      let '(r, a) := pourWisp p f k vars ep false w.(wAdapter) in (r, onAdapter w a)
  | ConvStore.PourSpeculativeWisp p f k vars ep => λ w,
      let '(r, a) := pourWisp p f k vars ep true w.(wAdapter) in (r, onAdapter w a)
  | ConvStore.ActivateWisp id => λ w,
      match ActivateWisp id w.(wAdapter) with
      | Some (r, a) => (r, onAdapter w a)
      | None => (Some (Errorf "wisp %q: parent links form a cycle" [AStr id]), w)
      end
  | ConvStore.FindByIdempotencyKey k => λ w, (FindByIdempotencyKey k w.(wAdapter), w)
  | ConvStore.CountActiveConvergenceLoops t => λ w, (CountActiveConvergenceLoops t w.(wAdapter), w)
  | ConvStore.CreateConvergenceBead title => λ w,
      let '(r, a) := CreateConvergenceBead title w.(wAdapter) in (r, onAdapter w a)
  | ConvStore.Emit ty id bead p _ => λ w,
      ((), mkWorld w.(wAdapter) (w.(wEvents) ++ [mkRecorded ty "convergence" bead p]))
  | ConvStore.RunProcess sp dir env t => λ w, (runScript sp dir env t, w)
  | ConvStore.RetryDelay => λ w, (false, w)
  end.
End adapter.
