(* ===== verification/ConvAdapterProps.v ===== *)
(** * ConvAdapterProps: what the adapter promises to the handlers

    The adapter over the in-memory store implements the contract the recovery
    argument asks for ([RootStore]); activation terminates on a forest; the
    live index counts what a scan counts; pouring is idempotent per key; and
    what the adapter hides: closed wisps. *)

From Stdlib Require Import Ascii.
From S2P Require Import Prelude GoBase GoText Beads MemStore MemStoreProps ConvMeta ConvMetaProps.
From S2P Require Import Prog ConvStore ConvHandler ConvHandlerProps ConvManual ConvReconcile ConvRecovery ConvAdapter.

Local Open Scope Z_scope.

Section props.
Context (clock : nat → Z) (parseTime : string → option Z) (isGraphV2Formula : string → res error bool).
Context (cook : Z → string → gmap string string → string → string → bool → MemStore → res error string * MemStore).
Context (runScript : string → string → ConditionEnv → Z → RunOutcome).

Abbreviation machine_ := (adapterMachine clock parseTime isGraphV2Formula cook runScript).
Abbreviation storeOf w := (aStore (wAdapter w)).

(** ** The root of a loop, through the adapter *)

Lemma SetMetadata_lookup now id k v m b :
  NoDup (bID <$> msBeads m) → lookupBead m id = Some b →
  (MemStore.SetMetadata now id k v m).1 = Ok () ∧
  NoDup (bID <$> msBeads (MemStore.SetMetadata now id k v m).2) ∧
  ∀ id', lookupBead (MemStore.SetMetadata now id k v m).2 id' =
    if decide (id' = id) then Some (touch now (setMetadataMap b (<[k:=v]> (bMetadata b)))) else lookupBead m id'.
Proof.
  intros Hnd Hb. unfold MemStore.SetMetadata. unfold lookupBead in Hb at 1.
  destruct (indexOfLocked m id) as [[i b']|] eqn:E; [|done]. cbn in Hb. injection Hb as ->. cbn [fst snd].
  split_and!; [done| |].
  - by rewrite (putAt_ids m id i b).
  - intros id'. by rewrite (lookupBead_putAt m id i b).
Qed.

Lemma Close_lookup now id m b :
  NoDup (bID <$> msBeads m) → lookupBead m id = Some b →
  (Close now id m).1 = Ok () ∧
  NoDup (bID <$> msBeads (Close now id m).2) ∧
  ∀ id', lookupBead (Close now id m).2 id' =
    if decide (id' = id) then Some (if bStatus b == "closed" then b else touch now (setStatus b "closed")) else lookupBead m id'.
Proof.
  intros Hnd Hb. unfold Close. pose proof Hb as Hb'. unfold lookupBead in Hb at 1.
  destruct (indexOfLocked m id) as [[i b']|] eqn:E; [|done]. cbn in Hb. injection Hb as ->. cbn [fst snd].
  destruct (bStatus b == "closed"); cbn [fst snd]; (split_and!; [done| |]).
  - done.
  - intros id'. by destruct (decide (id' = id)) as [->|].
  - by rewrite (putAt_ids m id i b).
  - intros id'. by rewrite (lookupBead_putAt m id i b).
Qed.

(** The adapter's [SetMetadata] on a bead that exists. *)
Lemma adapter_SetMetadata id k v a b :
  NoDup (bID <$> msBeads (aStore a)) → lookupBead (aStore a) id = Some b →
  (SetMetadata clock id k v a).1 = None ∧
  aStore (SetMetadata clock id k v a).2 = (MemStore.SetMetadata (clock (aTick a)) id k v (aStore a)).2.
Proof.
  intros Hnd Hb. destruct (SetMetadata_lookup (clock (aTick a)) id k v (aStore a) b Hnd Hb) as (Hr & _ & Hl).
  unfold SetMetadata, mutate. destruct (MemStore.SetMetadata _ _ _ _ _) as [r m]. cbn in *. subst r.
  destruct (aIndex a) as [idx|]; [|done]. destruct (k == FieldState); [|done].
  destruct (bool_decide (v ∈ liveStates)).
  - unfold indexLive. destruct (idx !! id); [done|]. cbn [aStore]. rewrite Get_lookup, Hl, decide_True by done. cbn.
    by destruct (decide _).
  - by destruct ((v == StateTerminated) || (v == StateCreating)).
Qed.

Lemma adapter_CloseBead id reason a b :
  NoDup (bID <$> msBeads (aStore a)) → lookupBead (aStore a) id = Some b →
  (CloseBead clock id reason a).1 = None ∧
  NoDup (bID <$> msBeads (aStore (CloseBead clock id reason a).2)) ∧
  ∃ b', lookupBead (aStore (CloseBead clock id reason a).2) id = Some b' ∧ bStatus b' = "closed" ∧
        ∀ k, k ≠ "close_reason" → (bMetadata b').[k] = (bMetadata b).[k].
Proof.
  intros Hnd Hb. unfold CloseBead.
  set (a1 := if reason != "" then _ else a).
  assert (NoDup (bID <$> msBeads (aStore a1)) ∧ ∃ b1, lookupBead (aStore a1) id = Some b1 ∧
    ∀ k, k ≠ "close_reason" → (bMetadata b1).[k] = (bMetadata b).[k]) as (Hnd1 & b1 & Hb1 & Hm1).
  { subst a1. destruct (reason != ""); [|by eauto]. unfold mutate.
    destruct (SetMetadata_lookup (clock (aTick a)) id "close_reason" reason (aStore a) b Hnd Hb) as (_ & Hnd1 & Hl).
    destruct (MemStore.SetMetadata _ _ _ _ _) as [r m]. cbn in *. split; [done|]. rewrite Hl, decide_True by done.
    eexists. split; [done|]. intros k Hk. cbn. by rewrite mget_insert_ne. }
  destruct (Close_lookup (clock (aTick a1)) id (aStore a1) b1 Hnd1 Hb1) as (Hr & Hnd2 & Hl).
  unfold mutate. destruct (Close _ _ _) as [r m]. cbn in *. subst r. cbn.
  split_and!; [done..|]. rewrite Hl, decide_True by done. eexists. split; [done|].
  destruct (bool_decide_reflect (bStatus b1 = "closed")); by split.
Qed.

#[export] Instance adapter_rootStore root : RootStore machine_ root.
Proof.
  refine {|
    rootValid w := NoDup (bID <$> msBeads (storeOf w)) ∧ is_Some (lookupBead (storeOf w) root);
    rootMeta w := default ∅ (bMetadata <$> lookupBead (storeOf w) root);
    rootClosed w := default false ((λ b, bStatus b == "closed") <$> lookupBead (storeOf w) root)
  |}.
  - intros w [Hnd [b Hb]]. cbn. unfold GetMetadata. rewrite Get_lookup, Hb. done.
  - intros w [Hnd [b Hb]]. cbn. unfold GetBead. rewrite Get_lookup, Hb. cbn. eexists. split; [done|]. cbn.
    by rewrite bool_decide_eq_true.
  - intros k v w [Hnd [b Hb]]. cbn.
    destruct (adapter_SetMetadata root k v (wAdapter w) b Hnd Hb) as [Hr Hs].
    destruct (SetMetadata_lookup (clock (aTick (wAdapter w))) root k v _ b Hnd Hb) as (_ & Hnd' & Hl).
    destruct (SetMetadata clock root k v (wAdapter w)) as [r a']. cbn in *. subst r. eexists. split; [done|]. cbn.
    rewrite Hs, Hl, decide_True, Hb by done. by split_and!.
  - intros r w [Hnd [b Hb]]. cbn.
    destruct (adapter_CloseBead root r (wAdapter w) b Hnd Hb) as (Hr & Hnd' & b' & Hb' & Hc & Hm).
    destruct (CloseBead clock root r (wAdapter w)) as [r' a']. cbn in *. subst r'. eexists. split; [done|]. cbn.
    rewrite Hb', Hb. cbn. rewrite Hc. by split_and!.
  - intros X e w Hv He. by destruct e.
Defined.

(** ** Closed wisps are invisible *)

(** A query that neither asks for closed beads nor for a status skips them. *)
Lemma Matches_open q b :
  qStatus q = "" → qIncludeClosed q = false → Matches q b = true → bStatus b ≠ "closed".
Proof.
  intros Hs Hi. unfold Matches. rewrite Hs, Hi. destruct (negb (matchesTier q b)); [done|]. cbn.
  by destruct (bool_decide_reflect (bStatus b = "closed")).
Qed.

Lemma ListBeads_elem m q bs b :
  ListBeads m q = Ok bs → qLimit q = 0 → b ∈ bs ↔ b ∈ msBeads m ∧ Matches q b = true.
Proof.
  unfold ListBeads. destruct (negb _ && _); [done|]. intros [= <-] Hl. unfold ApplyListQuery. rewrite Hl.
  assert (sortBeadsForQuery (List.filter (Matches q) (msBeads m)) (qSort q) ≡ₚ List.filter (Matches q) (msBeads m)) as Hp.
  { destruct (qSort q); [done|apply sortSlice_perm..]. }
  cbn. rewrite Hp, !list_elem_of_In, filter_In. done.
Qed.

Lemma findKey_true key bs id :
  findKey key bs = (id, true) → ∃ b, b ∈ bs ∧ bID b = id ∧ (bMetadata b).["idempotency_key"] = key.
Proof.
  unfold findKey. destruct (List.find _ bs) as [b|] eqn:E; [|done]. intros [= <-].
  apply find_some in E as [Hin Hb]. bsplit. exists b. by rewrite list_elem_of_In.
Qed.

Lemma FindByIdempotencyKey_open key a id :
  FindByIdempotencyKey key a = (id, true, None) →
  ∃ b, b ∈ msBeads (aStore a) ∧ bID b = id ∧ (bMetadata b).["idempotency_key"] = key ∧ bStatus b ≠ "closed".
Proof.
  assert (∀ q bs, ListBeads (aStore a) q = Ok bs → qLimit q = 0 → qStatus q = "" → qIncludeClosed q = false →
    findKey key bs = (id, true) →
    ∃ b, b ∈ msBeads (aStore a) ∧ bID b = id ∧ (bMetadata b).["idempotency_key"] = key ∧ bStatus b ≠ "closed") as H.
  { intros q bs El Hl Hs Hi (b & Hb & Hid & Hk)%findKey_true.
    apply (ListBeads_elem _ _ _ _ El Hl) in Hb as [Hb Hm]. exists b. split_and!; [done..|]. by apply (Matches_open q). }
  unfold FindByIdempotencyKey, findByKeyScan. destruct (extractParentIDFromKey key == "");
    (destruct (ListBeads _ _) as [bs|e] eqn:El; [|done]); intros [= Hf]; by apply (H _ _ El).
Qed.

Lemma adapter_Children_open parent a c : c ∈ (Children parseTime parent a).1 → biStatus c ≠ "closed".
Proof.
  unfold Children. destruct (ListBeads _ _) as [bs|e] eqn:El; [|by cbn; intros ?%not_elem_of_nil].
  cbn. intros (b & -> & Hb)%list_elem_of_fmap. apply (ListBeads_elem _ _ _ _ El) in Hb as [_ Hm]; [|done].
  by apply Matches_open in Hm.
Qed.

Lemma childStats_noClosed children beadID :
  (∀ c, c ∈ children → biStatus c ≠ "closed") →
  ClosedCount (childStats children beadID) = 0 ∧ HighestClosedFound (childStats children beadID) = false ∧
  CumulativeDur (childStats children beadID) = 0.
Proof.
  unfold childStats. induction children as [|c l IH] using rev_ind; intros Hc; [done|].
  rewrite foldl_app. cbn [foldl]. set (st := foldl _ _ l) in *.
  assert (biStatus c ≠ "closed") as Hcl by (apply Hc; set_solver).
  destruct IH as (H1 & H2 & H3); [intros x Hx; apply Hc; set_solver|]. unfold childStatsStep.
  destruct (negb _); [done|]. destruct (ParseIterationFromKey _) as [n ok].
  rewrite (bool_decide_eq_false_2 _ Hcl). by destruct ((biStatus c == "open") || (biStatus c == "in_progress")).
Qed.

(** Through the adapter no closed wisp is ever visible: its child listing and
    its lookup by idempotency key both skip closed beads.  So the iteration
    count the handlers derive for a loop is 0 whatever the store holds, and no
    closed wisp is found under its key. *)
Theorem adapter_hides_closed_wisps root key w :
  (∀ c, c ∈ (Children parseTime root (wAdapter w)).1 → biStatus c ≠ "closed") ∧
  (∀ n, (run machine_ (deriveIterationCount root) w).1 = Ok n → n = 0) ∧
  (∀ id, FindByIdempotencyKey key (wAdapter w) = (id, true, None) →
     ∃ b, b ∈ msBeads (storeOf w) ∧ bID b = id ∧ (bMetadata b).["idempotency_key"] = key ∧ bStatus b ≠ "closed").
Proof.
  split_and!.
  - apply adapter_Children_open.
  - intros n. cbn. unfold val. destruct (Children parseTime root (wAdapter w)) as [cs [e|]] eqn:Ec; cbn; [done|].
    intros [= <-]. apply (childStats_noClosed cs root). intros c Hc. apply (adapter_Children_open root (wAdapter w)).
    by rewrite Ec.
  - intros id. apply FindByIdempotencyKey_open.
Qed.

End props.

(** ** Activation *)

Section activation.
Context (clock : nat → Z).

(** Every deferred field of the bead is in force. *)
Definition activated (b : Bead) : Prop :=
  let meta := bMetadata b in
  (meta.[DeferredAssigneeMetadataKey] ≠ "" → bAssignee b = meta.[DeferredAssigneeMetadataKey]) ∧
  (meta.[DeferredTypeMetadataKey] ≠ "" → bType b = meta.[DeferredTypeMetadataKey]) ∧
  (meta.[DeferredRoutedToMetadataKey] ≠ "" → meta.[RoutedToMetadataKey] = meta.[DeferredRoutedToMetadataKey]) ∧
  (meta.[DeferredExecutionRoutedToMetadataKey] ≠ "" →
     meta.[ExecutionRoutedToMetadataKey] = meta.[DeferredExecutionRoutedToMetadataKey]).

Definition activatedIn (m : MemStore) (id : string) : Prop := ∃ b, lookupBead m id = Some b ∧ activated b.

(** The beads activation visits: the root, and the non-ephemeral children of
    every bead it visits. *)
Inductive below (m : MemStore) : string → string → Prop :=
| below_refl id : below m id id
| below_child id b x : b ∈ msBeads m → bParentID b = id → bEphemeral b = false → below m (bID b) x → below m id x.

(** Parent links go down in rank: they form no cycle. *)
Definition forest (rank : string → nat) (m : MemStore) : Prop :=
  ∀ b, b ∈ msBeads m → bParentID b ≠ "" → (rank (bID b) < rank (bParentID b))%nat.

Definition proper (m : MemStore) : Prop := NoDup (bID <$> msBeads m) ∧ "" ∉ bID <$> msBeads m.

(** What a step of the activation does to the store. *)
Definition grows (m m' : MemStore) : Prop :=
  bID <$> msBeads m' = bID <$> msBeads m ∧
  ∀ id b, lookupBead m id = Some b → ∃ b', lookupBead m' id = Some b' ∧ bParentID b' = bParentID b ∧
    bEphemeral b' = bEphemeral b ∧ (activated b → activated b').

Lemma grows_refl m : grows m m.
Proof. split; [done|]. eauto. Qed.

Lemma grows_trans m1 m2 m3 : grows m1 m2 → grows m2 m3 → grows m1 m3.
Proof.
  intros [Hi1 H1] [Hi2 H2]. split; [congruence|]. intros id b Hb.
  destruct (H1 id b Hb) as (b2 & Hb2 & ? & ? & ?). destruct (H2 id b2 Hb2) as (b3 & Hb3 & ? & ? & ?).
  exists b3. split_and!; auto; congruence.
Qed.

Lemma applyUpdate_content now o b :
  bType (applyUpdate now o b) = default (bType b) (oType o) ∧
  bParentID (applyUpdate now o b) = default (bParentID b) (oParentID o) ∧
  bEphemeral (applyUpdate now o b) = bEphemeral b ∧
  bMetadata (applyUpdate now o b) = oMetadata o ∪ bMetadata b.
Proof.
  destruct o as [ot os oty op od opa oa ol orl om]. unfold applyUpdate.
  cbn [oTitle oStatus oType oPriority oDescription oParentID oAssignee oLabels oRemoveLabels oMetadata].
  destruct (isOwnershipTransition _ _ _); destruct ot, os, oty, op, od, opa, oa; cbn; auto 10.
Qed.

(** The metadata part of the update: exactly the two routing keys. *)
Lemma activationUpdate_meta b k :
  oMetadata (activationUpdate b) !! k =
  let meta := bMetadata b in
  let want key from := (meta.[from] != "") && (meta.[key] != meta.[from]) in
  if decide (k = ExecutionRoutedToMetadataKey) then
    if want ExecutionRoutedToMetadataKey DeferredExecutionRoutedToMetadataKey
    then Some meta.[DeferredExecutionRoutedToMetadataKey] else None
  else if decide (k = RoutedToMetadataKey) then
    if want RoutedToMetadataKey DeferredRoutedToMetadataKey then Some meta.[DeferredRoutedToMetadataKey] else None
  else None.
Proof.
  cbv zeta. unfold activationUpdate. cbn [oMetadata].
  destruct ((_ != "") && ((bMetadata b).[ExecutionRoutedToMetadataKey] != _)),
    ((_ != "") && ((bMetadata b).[RoutedToMetadataKey] != _));
    (destruct (decide (k = ExecutionRoutedToMetadataKey)) as [->|H1];
     [|destruct (decide (k = RoutedToMetadataKey)) as [->|H2]]);
    by rewrite ?lookup_insert_eq, ?lookup_insert_ne, ?lookup_singleton_eq, ?lookup_singleton_ne, ?lookup_empty by done.
Qed.

Lemma pick_deferred (x d : string) : d ≠ "" → default x (if (d != "") && (x != d) then Some d else None) = d.
Proof.
  intros Hd. rewrite bool_decide_eq_false_2 by done. cbn. by destruct (bool_decide_reflect (x = d)).
Qed.

(** The update brings every deferred field into force. *)
Lemma activation_activated now b : activated (applyUpdate now (activationUpdate b) b).
Proof.
  destruct (applyUpdate_fields now (activationUpdate b) b) as (_ & _ & _ & _ & Ha & _).
  destruct (applyUpdate_content now (activationUpdate b) b) as (Ht & _ & _ & Hm).
  unfold activated. cbv zeta. rewrite Ha, Ht, Hm, !mget_union, !activationUpdate_meta. cbv zeta.
  repeat (rewrite decide_False by done). rewrite !decide_True by done. rewrite decide_False by done. cbn [default].
  unfold activationUpdate. cbn [oAssignee oType].
  split_and!; apply pick_deferred.
Qed.

(** One update of the activation. *)
Lemma Update_grows now id b m :
  proper m → lookupBead m id = Some b →
  (Update now id (activationUpdate b) m).1 = Ok () ∧ grows m (Update now id (activationUpdate b) m).2 ∧
  activatedIn (Update now id (activationUpdate b) m).2 id.
Proof.
  intros [Hnd _] Hb. pose proof Hb as Hb'. unfold lookupBead in Hb'. unfold Update.
  destruct (indexOfLocked m id) as [[i b']|] eqn:E; [|done]. cbn in Hb'. injection Hb' as ->. cbn [fst snd].
  set (b2 := applyUpdate now (activationUpdate b) b).
  assert (bID b2 = bID b) as Hid by apply applyUpdate_id.
  destruct (applyUpdate_content now (activationUpdate b) b) as (_ & Hp & He & _).
  assert (∀ x, lookupBead (putAt m i b2) x = if decide (x = id) then Some b2 else lookupBead m x) as Hl.
  { intros x. by apply (lookupBead_putAt m id i b). }
  split_and!; [done| |].
  - split; [by rewrite (putAt_ids m id i b)|]. intros x bx Hx. rewrite Hl. destruct (decide (x = id)) as [->|]; [|eauto].
    rewrite Hb in Hx. injection Hx as <-. exists b2. split_and!; [done..|]. intros _. apply activation_activated.
  - exists b2. rewrite Hl, decide_True by done. split; [done|apply activation_activated].
Qed.


(** Nothing to update: every deferred field is in force already. *)
Lemma noUpdate_activated b :
  let u := activationUpdate b in
  negb (is_None (oAssignee u)) || negb (is_None (oType u)) || negb (bool_decide (oMetadata u = ∅)) = false →
  activated b.
Proof.
  cbv zeta. intros H. bsplit.
  assert (∀ x d : string, is_None (if (d != "") && (x != d) then Some d else None) = true → d ≠ "" → x = d) as Hpick.
  { intros x d Hn Hd. rewrite bool_decide_eq_false_2 in Hn by done. cbn in Hn.
    by destruct (bool_decide_reflect (x = d)). }
  assert (∀ k, is_None (oMetadata (activationUpdate b) !! k) = true) as Hk.
  { intros k. match goal with H : oMetadata _ = ∅ |- _ => rewrite H end. by rewrite lookup_empty. }
  split_and!; [by apply Hpick..| |]; apply Hpick.
  - specialize (Hk RoutedToMetadataKey). rewrite activationUpdate_meta in Hk. cbv zeta in Hk.
    by rewrite decide_False, decide_True in Hk by done.
  - specialize (Hk ExecutionRoutedToMetadataKey). rewrite activationUpdate_meta in Hk. cbv zeta in Hk.
    by rewrite decide_True in Hk by done.
Qed.

Lemma grows_proper m m' : grows m m' → proper m → proper m'.
Proof. intros [Hi _] [? ?]. split; by rewrite Hi. Qed.

(** Every bead afterwards comes from one before, with the same parent. *)
Lemma grows_back m m' b' :
  proper m → grows m m' → b' ∈ msBeads m' →
  ∃ b, b ∈ msBeads m ∧ bID b = bID b' ∧ bParentID b = bParentID b' ∧ bEphemeral b = bEphemeral b'.
Proof.
  intros [Hnd Hne] [Hi Hg] Hb'. assert (bID b' ∈ bID <$> msBeads m) as Hin by (rewrite <-Hi; by apply list_elem_of_fmap_2).
  apply list_elem_of_fmap in Hin as (b & Hid & Hb). exists b. split; [done|].
  destruct (Hg (bID b) b) as (b2 & Hb2 & Hp & He & _); [by apply lookupBead_Some|].
  assert (lookupBead m' (bID b') = Some b') as Hl by (apply lookupBead_Some; [by rewrite Hi|done]).
  rewrite Hid, Hb2 in Hl. injection Hl as ->. by split_and!.
Qed.

Lemma grows_forest rank m m' : proper m → grows m m' → forest rank m → forest rank m'.
Proof.
  intros Hp Hg Hf b' Hb' Hne. destruct (grows_back m m' b' Hp Hg Hb') as (b & Hb & <- & Hpar & _).
  rewrite <-Hpar in *. by apply Hf.
Qed.

Lemma grows_below m m' id x : proper m → grows m m' → below m id x → below m' id x.
Proof.
  intros [Hnd Hne] [Hi Hg]. induction 1 as [id|id b x Hb Hpar He _ IH]; [constructor|].
  destruct (Hg (bID b) b) as (b2 & Hb2 & Hp2 & He2 & _); [by apply lookupBead_Some|].
  apply lookupBead_Some in Hb2 as [Hin Hid]; [|by rewrite Hi].
  econstructor; [exact Hin|congruence|congruence|by rewrite Hid].
Qed.

Lemma grows_activatedIn m m' id : grows m m' → activatedIn m id → activatedIn m' id.
Proof. intros [_ Hg] (b & Hb & Ha). destruct (Hg id b Hb) as (b' & Hb' & _ & _ & Hact). exists b'. auto. Qed.

(** What an activation of a subtree guarantees. *)
Definition activates (id : string) (m : MemStore) (r : option (option error * Adapter)) : Prop :=
  ∃ a', r = Some (None, a') ∧ grows m (aStore a') ∧ ∀ x, below m id x → activatedIn (aStore a') x.

Lemma activateEach_ok (act : string → Adapter → option (option error * Adapter)) rank n l a :
  (∀ id a, proper (aStore a) → forest rank (aStore a) → is_Some (lookupBead (aStore a) id) → (rank id < n)%nat →
     activates id (aStore a) (act id a)) →
  proper (aStore a) → forest rank (aStore a) →
  (∀ c, c ∈ l → is_Some (lookupBead (aStore a) (bID c)) ∧ (rank (bID c) < n)%nat) →
  ∃ a', activateEach act l a = Some (None, a') ∧ grows (aStore a) (aStore a') ∧
        ∀ c x, c ∈ l → below (aStore a) (bID c) x → activatedIn (aStore a') x.
Proof.
  intros Hact. revert a. induction l as [|c l IH]; intros a Hp Hf Hc; cbn.
  { exists a. split_and!; [done|apply grows_refl|set_solver]. }
  destruct (Hc c) as [Hc1 Hc2]; [left|]. destruct (Hact (bID c) a Hp Hf Hc1 Hc2) as (a1 & -> & Hg1 & Hb1).
  destruct (IH a1) as (a2 & -> & Hg2 & Hb2).
  - by eapply grows_proper.
  - by eapply grows_forest.
  - intros c' Hc'. destruct (Hc c') as [[b Hb] Hr]; [by right|]. split; [|done].
    destruct Hg1 as [_ Hg1]. destruct (Hg1 _ _ Hb) as (b' & Hb' & _). by exists b'.
  - exists a2. split_and!; [done|by eapply grows_trans|]. intros c' x [->|Hin]%elem_of_cons Hx.
    + eapply grows_activatedIn; [exact Hg2|by apply Hb1].
    + apply (Hb2 c'); [done|by eapply grows_below].
Qed.

(** The children activation lists. *)
Lemma allChildren_elem m id :
  id ≠ "" → ∃ cs, MemStore.Children m id [IncludeClosed] = Ok cs ∧
    ∀ c, c ∈ cs ↔ c ∈ msBeads m ∧ bParentID c = id ∧ bEphemeral c = false.
Proof.
  intros Hid. unfold MemStore.Children. set (q := mkListQuery _ _ _ _ _ _ _ _ _ _ _ _ _ _ _ _ _ _ _).
  assert (∃ cs, ListBeads m q = Ok cs) as [cs Hcs].
  { unfold ListBeads. subst q. unfold HasFilter. cbn. rewrite (bool_decide_eq_false_2 (id = "")) by done. cbn. by eexists. }
  exists cs. split; [done|]. intros c. rewrite (ListBeads_elem _ _ _ _ Hcs) by reflexivity.
  assert (Matches q c = negb (bEphemeral c) && (bParentID c == id)) as ->.
  { unfold Matches, matchesTier. subst q. cbn. destruct (bEphemeral c); [done|]. cbn.
    rewrite (bool_decide_eq_false_2 (id = "")) by done. cbn. by destruct (bParentID c == id). }
  rewrite andb_true_iff, negb_true_iff, bool_decide_eq_true. tauto.
Qed.

Lemma activate_ok rank fuel id a :
  proper (aStore a) → forest rank (aStore a) → is_Some (lookupBead (aStore a) id) → (rank id < fuel)%nat →
  activates id (aStore a) (activateDeferredAssignees clock fuel id a).
Proof.
  revert id a. induction fuel as [|n IH]; intros id a Hp Hf [b Hb] Hr; [lia|]. cbn [activateDeferredAssignees].
  rewrite Get_lookup, Hb.
  assert (id ≠ "") as Hid.
  { intros ->. destruct Hp as [Hnd Hne]. apply Hne. apply lookupBead_Some in Hb as [Hin <-]; [|done].
    by apply list_elem_of_fmap_2. }
  assert (∃ a1, (if negb (is_None (oAssignee (activationUpdate b))) || negb (is_None (oType (activationUpdate b))) ||
      negb (bool_decide (oMetadata (activationUpdate b) = ∅))
      then mutate clock (λ now, Update now id (activationUpdate b)) a else (Ok (), a)) = (Ok (), a1) ∧
      grows (aStore a) (aStore a1) ∧ activatedIn (aStore a1) id) as (a1 & -> & Hg1 & Ha1).
  { destruct (negb _ || _ || _) eqn:Eu.
    - unfold mutate. destruct (Update_grows (clock (aTick a)) id b (aStore a) Hp Hb) as (Hok & Hg & Ha).
      destruct (Update _ _ _ _) as [r m1]. cbn in *. subst r. by eexists.
    - exists a. split_and!; [done|apply grows_refl|]. exists b. split; [done|]. by apply noUpdate_activated. }
  destruct (allChildren_elem (aStore a1) id Hid) as (cs & -> & Hcs).
  pose proof (grows_proper _ _ Hg1 Hp) as Hp1. pose proof (grows_forest rank _ _ Hp Hg1 Hf) as Hf1.
  destruct (activateEach_ok (activateDeferredAssignees clock n) rank n cs a1) as (a2 & -> & Hg2 & Hb2); [auto..| |].
  { intros c (Hc & Hpar & _)%Hcs. split; [exists c; apply lookupBead_Some; [apply Hp1|done]|].
    specialize (Hf1 c Hc). rewrite Hpar in Hf1. specialize (Hf1 Hid). lia. }
  exists a2. split_and!; [done|by eapply grows_trans|]. intros x Hx.
  apply (grows_below _ _ _ _ Hp Hg1) in Hx. destruct Hx as [id|id c x Hc Hpar He Hx].
  - by eapply grows_activatedIn.
  - apply (Hb2 c x); [|done]. by apply Hcs.
Qed.

(** Activating a wisp terminates and reaches the whole wisp: when parent
    links form no cycle (some rank decreases along them, at most the number of
    beads) and the wisp exists, [ActivateWisp] returns without error, and
    every bead of the wisp's subtree has its deferred assignee, type and
    routing in force afterwards, while no bead is added, dropped or
    reparented. *)
Theorem activation_complete rank id a :
  wf (aStore a) → forest rank (aStore a) → is_Some (lookupBead (aStore a) id) →
  (rank id ≤ length (msBeads (aStore a)))%nat →
  ∃ a', ActivateWisp clock id a = Some (None, a') ∧ grows (aStore a) (aStore a') ∧
        ∀ x, below (aStore a) id x → activatedIn (aStore a') x.
Proof.
  intros Hwf Hf Hid Hr. apply (activate_ok rank); [|done..|unfold activationFuel; lia].
  split; [apply Hwf|]. intros (b & Hb & Hin)%list_elem_of_fmap.
  pose proof (wf_issued _ Hwf) as Hiss. rewrite Forall_forall in Hiss. destruct (Hiss b Hin) as (n & _ & Hn).
  unfold gcID in Hn. rewrite Hn in Hb. done.
Qed.

End activation.

(** ** Pouring is idempotent per key *)

Section pouring.
Context (clock : nat → Z) (isGraphV2Formula : string → res error bool).
Context (cook : Z → string → gmap string string → string → string → bool → MemStore → res error string * MemStore).

(** What the adapter relies on of [molecule.Cook]: a successful call returns
    the ID of a new root bead, open and not ephemeral, with the parent and the
    idempotency key asked for; it is the only bead of the new store with that
    key that was not in the old one. *)
Definition cookContract : Prop :=
  ∀ now formula vars parent key deferred m rootID m',
    cook now formula vars parent key deferred m = (Ok rootID, m') →
    (∃ b, b ∈ msBeads m' ∧ bID b = rootID ∧ bStatus b = "open" ∧ bEphemeral b = false ∧ bParentID b = parent ∧
          (bMetadata b).["idempotency_key"] = key) ∧
    (∀ b, b ∈ msBeads m' → (bMetadata b).["idempotency_key"] = key → bID b = rootID ∨ b ∈ msBeads m).

Lemma childrenQuery_ok m parent : parent ≠ "" → ∃ bs, ListBeads m (childrenQuery parent) = Ok bs.
Proof.
  intros Hp. unfold ListBeads, HasFilter. cbn. rewrite (bool_decide_eq_false_2 (parent = "")) by done. by eexists.
Qed.

Lemma childrenQuery_matches parent b :
  parent ≠ "" → bStatus b = "open" → bEphemeral b = false → bParentID b = parent →
  Matches (childrenQuery parent) b = true.
Proof.
  intros Hne Hs He Hp. unfold Matches, matchesTier. cbn. rewrite Hs, He, Hp. cbn.
  rewrite (bool_decide_eq_false_2 (parent = "")) by done. by rewrite (bool_decide_eq_true_2 (parent = parent)).
Qed.

Lemma findKey_false key bs b :
  findKey key bs = ("", false) → key ≠ "" → b ∈ bs → (bMetadata b).["idempotency_key"] ≠ key.
Proof.
  unfold findKey. destruct (List.find _ bs) as [b'|] eqn:E; [done|]. intros _ Hne Hin Hk.
  pose proof (find_none _ _ E b) as Hf. rewrite <-list_elem_of_In in Hf. specialize (Hf Hin). cbn in Hf.
  apply andb_false_iff in Hf as [Hf|Hf]; bsplit; [|done].
  rewrite Hf, mget_empty in Hk. congruence.
Qed.

Lemma findKey_cases key bs : (∃ id, findKey key bs = (id, true)) ∨ findKey key bs = ("", false).
Proof. unfold findKey. destruct (List.find _ bs); eauto. Qed.

(** The lookup of a key whose parent is known. *)
Lemma FindByIdempotencyKey_children key a parent :
  extractParentIDFromKey key = parent → parent ≠ "" →
  ∃ bs, ListBeads (aStore a) (childrenQuery parent) = Ok bs ∧ FindByIdempotencyKey key a = (findKey key bs, None).
Proof.
  intros He Hne. destruct (childrenQuery_ok (aStore a) parent Hne) as [bs Hbs]. exists bs. split; [done|].
  unfold FindByIdempotencyKey. by rewrite He, bool_decide_eq_false_2, Hbs by done.
Qed.

(** Pouring is idempotent per key: with a formula compiler that keeps its
    contract, once a pour under a loop's key has succeeded, pouring under that
    key again, as a retry after a crash does, returns the same wisp, cooks
    nothing and leaves the store as it is, whatever formula, variables and
    mode the retry asks for. *)
Theorem pour_idempotent parent key formula vars ep d a id a' formula' vars' ep' d' :
  cookContract → extractParentIDFromKey key = parent → parent ≠ "" → key ≠ "" →
  pourWisp clock isGraphV2Formula cook parent formula key vars ep d a = ((id, None), a') →
  pourWisp clock isGraphV2Formula cook parent formula' key vars' ep' d' a' = ((id, None), a').
Proof.
  intros Hcook Hpar Hne Hkey Hpour. unfold pourWisp in Hpour.
  destruct (FindByIdempotencyKey_children key a parent Hpar Hne) as (bs & Hbs & Hfind). rewrite Hfind in Hpour.
  assert (FindByIdempotencyKey key a' = (id, true, None)) as Hagain; [|unfold pourWisp; by rewrite Hagain].
  destruct (findKey_cases key bs) as [[id0 Hf]|Hf]; rewrite Hf in Hpour; [by simplify_eq; rewrite Hfind, Hf|].
  destruct (isGraphV2Formula formula) as [[]|]; [done| |done].
  destruct (cook _ formula _ parent key d (aStore a)) as [[rid|e] m'] eqn:Ec; [|done]. simplify_eq.
  destruct (Hcook _ _ _ _ _ _ _ _ _ Ec) as [(b & Hb & Hid & Hs & He & Hp & Hk) Honly].
  destruct (FindByIdempotencyKey_children key (mkAdapter m' (aIndex a) (S (aTick a))) _ eq_refl Hne) as (bs' & Hbs' & ->).
  cbn [aStore] in Hbs'. destruct (findKey_cases key bs') as [[id1 Hf']|Hf'].
  - rewrite Hf'. apply findKey_true in Hf' as (b1 & Hb1 & <- & Hk1).
    apply (ListBeads_elem _ _ _ _ Hbs') in Hb1 as [Hb1 Hm1]; [|done].
    destruct (Honly b1 Hb1 Hk1) as [->|Hold]; [done|].
    destruct (findKey_false key bs b1 Hf Hkey); [|done]. by apply (ListBeads_elem _ _ _ _ Hbs).
  - destruct (findKey_false key bs' b Hf' Hkey); [|done]. apply (ListBeads_elem _ _ _ _ Hbs'); [done|].
    split; [done|]. by apply childrenQuery_matches.
Qed.
End pouring.

(** ** The parent of a key *)

Lemma Index_noColon id s : noChar ":"%char id = true → Index (id +:+ ":iter:" +:+ s) ":iter:" = Some (String.length id).
Proof.
  induction id as [|c id IH]; intros Hc.
  - rewrite string_app_nil_l. change (Index (":iter:" +:+ s) ":iter:") with
      (if String.prefix ":iter:" (":iter:" +:+ s) then Some O
       else match Index ("iter:" +:+ s) ":iter:" with Some i => Some (S i) | None => None end).
    by rewrite prefix_app.
  - cbn in Hc. apply andb_true_iff in Hc as [Hc Hid]. rewrite string_app_cons. cbn [Index String.length].
    rewrite IH by done. assert (String.prefix ":iter:" (String c (id +:+ ":iter:" +:+ s)) = false) as ->; [|done].
    cbn -[ascii_dec]. destruct (ascii_dec ":" c) as [<-|]; [by vm_compute in Hc|done].
Qed.

(** The adapter recovers the loop from a key the handlers built: for a bead
    ID without a colon, the parent extracted from the idempotency key of any
    iteration is that bead. *)
Theorem key_parent_roundtrip id n : noChar ":"%char id = true → extractParentIDFromKey (IdempotencyKey id n) = id.
Proof.
  intros Hid. unfold extractParentIDFromKey, IdempotencyKey, HasPrefix. rewrite prefix_app. cbn [negb].
  change 9%nat with (String.length "converge:"). by rewrite sdrop_app, Index_noColon, stake_app.
Qed.

Lemma key_parent_roundtrip_witness : extractParentIDFromKey (IdempotencyKey "gc-12" 3) = "gc-12".
Proof. apply (key_parent_roundtrip "gc-12" 3). reflexivity. Defined.
