(* ===== verification/ConvIndex.v ===== *)
(** * ConvIndex: the adapter's index of live loops is a faithful cache

    [convergenceStoreAdapter] keeps an index (bead ID to target agent) so that
    counting the live loops of an agent needs no scan.  The index is exact when
    it holds, for each ID, what the stored bead says ([entryOf]); building it
    establishes that, every adapter call the handlers make keeps it, and with
    an exact index the count is the one a full scan gives. *)

From S2P Require Import Prelude GoBase GoText Beads MemStore MemStoreProps ConvMeta Prog ConvStore ConvAdapter ConvAdapterProps.

Local Open Scope Z_scope.

(** The index entry a bead should have. *)
Definition entryOf (b : Bead) : option string :=
  if Matches convergenceQuery b && isLive b then Some (bMetadata b).[FieldTarget] else None.

Definition indexExact (m : MemStore) (idx : gmap string string) : Prop :=
  ∀ id, idx !! id = lookupBead m id ≫= entryOf.

Lemma convergenceQuery_spec b :
  Matches convergenceQuery b = negb (bEphemeral b) && (bStatus b != "closed") && (bType b == "convergence").
Proof.
  unfold Matches, matchesTier. cbn. destruct (bEphemeral b); [done|]. cbn. destruct (bStatus b == "closed"); [done|].
  cbn. by destruct (bType b == "convergence").
Qed.

(** ** Counting *)

Section count.
Context (m : MemStore) (idx : gmap string string).
Context (Hnd : NoDup (bID <$> msBeads m)) (Hidx : indexExact m idx).

Definition liveBeads : list Bead := List.filter isLive (List.filter (Matches convergenceQuery) (msBeads m)).

Lemma liveBeads_elem b : b ∈ liveBeads ↔ b ∈ msBeads m ∧ entryOf b = Some (bMetadata b).[FieldTarget].
Proof.
  unfold liveBeads, entryOf. rewrite list_elem_of_In, !filter_In, <-list_elem_of_In.
  destruct (Matches convergenceQuery b), (isLive b); naive_solver.
Qed.

Lemma index_permutation : map_to_list idx ≡ₚ map (λ b, (bID b, (bMetadata b).[FieldTarget])) liveBeads.
Proof.
  apply NoDup_Permutation; [apply NoDup_map_to_list| |].
  - apply (NoDup_fmap_1 fst). rewrite <-list_fmap_compose. apply NoDup_filter_bID. by apply NoDup_filter_bID.
  - intros [id t]. rewrite elem_of_map_to_list, Hidx. setoid_rewrite list_elem_of_fmap. split.
    + intros (b & Hb & He)%bind_Some. apply lookupBead_Some in Hb as [Hin Hid]; [|done]. exists b.
      assert (t = (bMetadata b).[FieldTarget]) as ->.
      { unfold entryOf in He. by destruct (_ && _); simplify_eq. }
      split; [by rewrite Hid|]. by apply liveBeads_elem.
    + intros (b & [= -> ->] & [Hin He]%liveBeads_elem).
      assert (lookupBead m (bID b) = Some b) as -> by (by apply lookupBead_Some). done.
Qed.

Lemma filter_map_length {A B} (f : A → B) (P : B → bool) l :
  length (List.filter P (map f l)) = length (List.filter (λ x, P (f x)) l).
Proof. induction l as [|x l IH]; cbn; [done|]. destruct (P (f x)); cbn; by rewrite IH. Qed.

Lemma count_permutation target :
  length (List.filter (λ kv, kv.2 == target) (map_to_list idx)) =
  length (List.filter (λ b, isLive b && ((bMetadata b).[FieldTarget] == target))
    (List.filter (Matches convergenceQuery) (msBeads m))).
Proof.
  rewrite (Permutation_length (filter_Permutation_bool _ _ _ index_permutation)), filter_map_length. cbn.
  by rewrite filter_andb.
Qed.
End count.

(** ** Building *)

Lemma foldl_index (bs : list Bead) id t :
  NoDup (bID <$> bs) →
  foldl (λ idx b, if isLive b then <[bID b:=(bMetadata b).[FieldTarget]]> idx else idx) (∅ : gmap string string) bs !! id
    = Some t ↔
  ∃ b, b ∈ bs ∧ isLive b = true ∧ bID b = id ∧ (bMetadata b).[FieldTarget] = t.
Proof.
  induction bs as [|b bs IH] using rev_ind; intros Hnd; [cbn; rewrite lookup_empty; set_solver|].
  rewrite fmap_app, NoDup_app in Hnd. destruct Hnd as (Hnd & Hfresh & _). specialize (IH Hnd).
  assert (∀ b', b' ∈ bs → bID b' ≠ bID b) as Hne.
  { intros b' Hb' He. apply (Hfresh (bID b')); [by apply list_elem_of_fmap_2|]. rewrite He. by left. }
  rewrite foldl_app. cbn. setoid_rewrite elem_of_app. setoid_rewrite list_elem_of_singleton.
  destruct (isLive b) eqn:Hlive; [destruct (decide (bID b = id)) as [<-|Hid]|].
  - rewrite lookup_insert_eq. split.
    + intros [= <-]. exists b. auto.
    + intros (b' & [Hin| ->] & _ & He & <-); [by destruct (Hne b')|done].
  - rewrite lookup_insert_ne, IH by done. split; [intros (b' & ? & ? & ? & ?); exists b'; auto|].
    intros (b' & [Hin| ->] & Hl & He & Ht); [eauto|done].
  - rewrite IH. split; [intros (b' & ? & ? & ? & ?); exists b'; auto|]. intros (b' & [Hin| ->] & Hl & He & Ht); [eauto|congruence].
Qed.

Lemma ListBeads_convergence m :
  ListBeads m convergenceQuery = Ok (List.filter (Matches convergenceQuery) (msBeads m)).
Proof. done. Qed.

Lemma populateIndex_exact a :
  NoDup (bID <$> msBeads (aStore a)) →
  ∃ idx, populateIndex a = (None, setIndex a (Some idx)) ∧ indexExact (aStore a) idx.
Proof.
  intros Hnd. unfold populateIndex. rewrite ListBeads_convergence. eexists. split; [done|]. intros id.
  apply option_eq. intros t. rewrite foldl_index by (by apply NoDup_filter_bID).
  setoid_rewrite list_elem_of_In. setoid_rewrite filter_In. setoid_rewrite <-list_elem_of_In.
  rewrite bind_Some. setoid_rewrite lookupBead_Some; [|done]. unfold entryOf. split.
  - intros (b & [Hin Hm] & Hl & Hid & Ht). exists b. rewrite Hm, Hl. cbn. by rewrite Ht.
  - intros (b & [Hin Hid] & He). exists b.
    destruct (Matches convergenceQuery b), (isLive b); cbn in He; simplify_eq; auto.
Qed.

(** ** Maintenance *)

(** The calls the handlers make on loop beads. *)
Inductive LoopOp :=
| LSetMetadata (id key value : string)
| LCloseBead (id reason : string)
| LDeleteBead (id : string)
| LCreate (title : string).

Section maintain.
Context (clock : nat → Z).

Definition loopExec (op : LoopOp) (a : Adapter) : Adapter :=
  match op with
  | LSetMetadata id k v => (SetMetadata clock id k v a).2
  | LCloseBead id r => (CloseBead clock id r a).2
  | LDeleteBead id => (DeleteBead clock id a).2
  | LCreate t => (CreateConvergenceBead clock t a).2
  end.

(** What the index relies on: state values come from the vocabulary, a live
    state is only given to a loop bead that is not closed, the target of a
    live loop does not change, and the ID counter is not exhausted. *)
Definition loopAllowed (op : LoopOp) (a : Adapter) : Prop :=
  msSeq (aStore a) < maxInt64 ∧
  match op with
  | LSetMetadata id k v =>
      (k = FieldState → v ∈ liveStates ∨ v = StateTerminated ∨ v = StateCreating) ∧
      (∀ b, lookupBead (aStore a) id = Some b →
        (k = FieldState → v ∈ liveStates → Matches convergenceQuery b = true) ∧
        (k = FieldTarget → entryOf b = None))
  | _ => True
  end.

Definition indexInv (a : Adapter) : Prop :=
  wf (aStore a) ∧ ∃ idx, aIndex a = Some idx ∧ indexExact (aStore a) idx.

(** Metadata writes other than of the state and the target leave the entry of
    a bead alone. *)
Lemma entryOf_set now b k v :
  k ≠ FieldState → k ≠ FieldTarget →
  entryOf (touch now (setMetadataMap b (<[k:=v]> (bMetadata b)))) = entryOf b.
Proof.
  intros Hs Ht. unfold entryOf, isLive. rewrite !convergenceQuery_spec. cbn [bEphemeral bStatus bType touch
    setMetadataMap setRevision setUpdatedAt bMetadata]. by rewrite !mget_insert_ne.
Qed.

(** A store call that changes the entry of at most one ID, with the index
    updated there. *)
Lemma exact_step m m' idx idx' id :
  indexExact m idx → (∀ x, x ≠ id → lookupBead m' x = lookupBead m x) → (∀ x, x ≠ id → idx' !! x = idx !! x) →
  idx' !! id = lookupBead m' id ≫= entryOf → indexExact m' idx'.
Proof.
  intros He Hm Hi Hid x. destruct (decide (x = id)) as [->|Hx]; [done|]. by rewrite Hi, Hm, He.
Qed.

(** The entry after a write of the state or of the target. *)
Lemma entryOf_setState now b v :
  entryOf (touch now (setMetadataMap b (<[FieldState:=v]> (bMetadata b)))) =
  if Matches convergenceQuery b && bool_decide (v ∈ liveStates) then Some (bMetadata b).[FieldTarget] else None.
Proof.
  unfold entryOf, isLive. rewrite !convergenceQuery_spec. cbn [bEphemeral bStatus bType touch
    setMetadataMap setRevision setUpdatedAt bMetadata]. by rewrite mget_insert_eq, mget_insert_ne.
Qed.

Lemma entryOf_setTarget now b v :
  entryOf b = None → entryOf (touch now (setMetadataMap b (<[FieldTarget:=v]> (bMetadata b)))) = None.
Proof.
  unfold entryOf, isLive. rewrite !convergenceQuery_spec. cbn [bEphemeral bStatus bType touch
    setMetadataMap setRevision setUpdatedAt bMetadata]. rewrite mget_insert_ne by done. by destruct (_ && _).
Qed.

(** The index after a successful write of the state. *)
Lemma indexState_exact now id v a b idx :
  let b' := touch now (setMetadataMap b (<[FieldState:=v]> (bMetadata b))) in
  aIndex a = Some idx → idx !! id = entryOf b → lookupBead (aStore a) id = Some b' →
  v ∈ liveStates ∨ v = StateTerminated ∨ v = StateCreating →
  (v ∈ liveStates → Matches convergenceQuery b = true) →
  let a' := (if bool_decide (v ∈ liveStates) then indexLive id idx a
             else if (v == StateTerminated) || (v == StateCreating) then (None, dropIndex id a)
             else (None, a)).2 in
  aStore a' = aStore a ∧ ∃ idx', aIndex a' = Some idx' ∧ (∀ x, x ≠ id → idx' !! x = idx !! x) ∧
    idx' !! id = entryOf b'.
Proof.
  intros b' Hidx Hid Hb' Hv Hconv. subst b'. rewrite entryOf_setState.
  destruct (bool_decide_reflect (v ∈ liveStates)) as [Hlive|Hdead].
  - rewrite (Hconv Hlive). cbn [andb]. unfold indexLive. destruct (idx !! id) as [t|] eqn:Et.
    + split; [done|]. exists idx. split_and!; [done..|]. rewrite Et. unfold entryOf in Hid.
      by destruct (_ && _); simplify_eq.
    + rewrite Get_lookup, Hb'. cbn [snd]. rewrite decide_False by (cbn; apply insert_non_empty).
      split; [done|]. eexists. split; [done|]. split; [intros x Hx; by rewrite lookup_insert_ne|].
      rewrite lookup_insert_eq. cbn. by rewrite mget_insert_ne.
  - rewrite andb_false_r. destruct Hv as [?|Hv]; [done|].
    assert ((v == StateTerminated) || (v == StateCreating) = true) as ->.
    { apply orb_true_iff. rewrite !bool_decide_eq_true. tauto. }
    cbn. rewrite Hidx. split; [done|]. eexists. split; [done|].
    split; [intros x Hx; by rewrite lookup_delete_ne|]. apply lookup_delete_eq.
Qed.

Lemma SetMetadata_inv id k v a : indexInv a → loopAllowed (LSetMetadata id k v) a → indexInv (SetMetadata clock id k v a).2.
Proof.
  intros (Hwf & idx & Hidx & Hex) (Hseq & Hst & Hb). set (now := clock (aTick a)).
  pose proof (wf_execOp now (OpSetMetadata id k v) _ Hwf Hseq) as Hwf'.
  pose proof (λ x, memstore_refines_map_lemma now (OpSetMetadata id k v) (aStore a) x Hwf Hseq) as Hl.
  cbn [execOp specOp] in Hwf', Hl. unfold SetMetadata, mutate. fold now.
  destruct (lookupBead (aStore a) id) as [b|] eqn:Eb.
  2:{ unfold MemStore.SetMetadata. unfold lookupBead in Eb. destruct (indexOfLocked (aStore a) id); [done|].
      cbn. split; [done|]. by exists idx. }
  destruct (SetMetadata_lookup now id k v _ b (wf_nodup _ Hwf) Eb) as (Hok & _ & _).
  destruct (MemStore.SetMetadata now id k v (aStore a)) as [r m']. cbn [fst snd] in *. subst r. cbn [aIndex].
  rewrite Hidx. destruct (Hb b eq_refl) as [Hconv Htgt].
  assert (lookupBead m' id = Some (touch now (setMetadataMap b (<[k:=v]> (bMetadata b))))) as Hb'.
  { by rewrite Hl, decide_True, Eb by done. }
  assert (∀ x, x ≠ id → lookupBead m' x = lookupBead (aStore a) x) as Hx.
  { intros x Hx. by rewrite Hl, decide_False by done. }
  destruct (bool_decide_reflect (k = FieldState)) as [->|Hk].
  - destruct (indexState_exact now id v (mkAdapter m' (aIndex a) (S (aTick a))) b idx) as (Hs & idx' & Hi & Hne & He);
      [done|by rewrite Hex, Eb|done|by apply Hst|by apply Hconv|].
    rewrite Hidx in *. cbn [aStore] in Hs. split; [by rewrite Hs|]. exists idx'. split; [done|]. rewrite Hs.
    apply (exact_step (aStore a) _ idx _ id); [done..|]. by rewrite Hb'.
  - split; [done|]. exists idx. split; [done|]. apply (exact_step (aStore a) _ idx _ id); [done..|].
    cbn [snd aStore]. rewrite Hb', Hex, Eb. cbn.
    destruct (decide (k = FieldTarget)) as [->|Ht]; [|by rewrite entryOf_set].
    by rewrite entryOf_setTarget, (Htgt eq_refl) by auto.
Qed.

(** A call after which the entry of [id] is gone, with the index entry dropped. *)
Lemma drop_inv id a m' tick :
  indexInv a → wf m' → (∀ x, x ≠ id → lookupBead m' x = lookupBead (aStore a) x) →
  lookupBead m' id ≫= entryOf = None → indexInv (dropIndex id (mkAdapter m' (aIndex a) tick)).
Proof.
  intros (_ & idx & Hidx & Hex) Hwf Hx Hid. unfold dropIndex. cbn. rewrite Hidx. split; [done|].
  eexists. split; [done|]. apply (exact_step (aStore a) _ idx _ id); [done..| |].
  - intros x Hne. by rewrite lookup_delete_ne.
  - rewrite lookup_delete_eq. symmetry. exact Hid.
Qed.

Lemma closeReason_write id r a :
  (mutate clock (λ now, MemStore.SetMetadata now id "close_reason" r) a).2 = (SetMetadata clock id "close_reason" r a).2.
Proof.
  unfold SetMetadata. destruct (mutate _ _ a) as [res a']. by destruct res, (aIndex a').
Qed.

Lemma SetMetadata_seq now id k v m : msSeq (MemStore.SetMetadata now id k v m).2 = msSeq m.
Proof. unfold MemStore.SetMetadata. by destruct (indexOfLocked m id) as [[]|]. Qed.

Lemma CloseBead_inv id r a : indexInv a → loopAllowed (LCloseBead id r) a → indexInv (CloseBead clock id r a).2.
Proof.
  intros Hinv [Hseq _]. unfold CloseBead. set (a1 := if r != "" then _ else a).
  assert (indexInv a1 ∧ msSeq (aStore a1) < maxInt64) as [Hinv1 Hseq1].
  { subst a1. destruct (r != ""); [|done]. split.
    - rewrite closeReason_write. apply SetMetadata_inv; [done|]. split; [done|]. split; [done|]. by intros b _.
    - unfold mutate. pose proof (SetMetadata_seq (clock (aTick a)) id "close_reason" r (aStore a)) as Hs.
      destruct (MemStore.SetMetadata _ _ _ _ _). cbn in *. lia. }
  clearbody a1. clear a Hinv Hseq. set (now := clock (aTick a1)). destruct (Hinv1) as (Hwf & _).
  pose proof (wf_execOp now (OpClose id) _ Hwf Hseq1) as Hwf'.
  pose proof (λ x, memstore_refines_map_lemma now (OpClose id) (aStore a1) x Hwf Hseq1) as Hl.
  cbn [execOp specOp] in Hwf', Hl. unfold mutate. fold now.
  destruct (lookupBead (aStore a1) id) as [b|] eqn:Eb.
  - destruct (Close_lookup now id _ b (wf_nodup _ Hwf) Eb) as (Hok & _ & _).
    destruct (Close now id (aStore a1)) as [res m']. cbn [fst snd] in *. subst res. cbn [snd].
    apply drop_inv; [done..|intros x Hx; by rewrite Hl, decide_False by done|].
    rewrite Hl, decide_True, Eb by done. cbn. unfold entryOf. rewrite convergenceQuery_spec.
    destruct (bool_decide_reflect (bStatus b = "closed")) as [->|]; cbn; by rewrite andb_false_r.
  - unfold Close. unfold lookupBead in Eb. destruct (indexOfLocked (aStore a1) id); [done|].
    destruct Hinv1 as (_ & idx & ? & ?). split; [done|]. by exists idx.
Qed.

Lemma DeleteBead_inv id a : indexInv a → loopAllowed (LDeleteBead id) a → indexInv (DeleteBead clock id a).2.
Proof.
  intros Hinv [Hseq _]. destruct Hinv as (Hwf & idx & Hidx & Hex).
  pose proof (wf_execOp 0 (OpDelete id) _ Hwf Hseq) as Hwf'.
  pose proof (λ x, memstore_refines_map_lemma 0 (OpDelete id) (aStore a) x Hwf Hseq) as Hl.
  cbn [execOp specOp] in Hwf', Hl. unfold DeleteBead, mutate.
  assert (indexInv a) as Hinv by (split; [done|by exists idx]).
  destruct (Delete id (aStore a)) as [[u|e] m'] eqn:Ed; cbn [snd fst] in *.
  - apply drop_inv; [done..|intros x Hx; by rewrite Hl, decide_False by done|].
    by rewrite Hl, decide_True by done.
  - unfold Delete in Ed. destruct (indexOfLocked (aStore a) id) as [[]|]; simplify_eq. split; [done|]. by exists idx.
Qed.

Lemma createdBead_metadata now seq b : bMetadata (createdBead now seq b) = bMetadata b.
Proof. unfold createdBead. by destruct (bType _ == ""). Qed.

Lemma created_notLive now seq t :
  isLive (createdBead now seq (setStatus (setType (setTitle zeroBead t) "convergence") "in_progress")) = false.
Proof.
  unfold isLive. rewrite createdBead_metadata. cbn [bMetadata setStatus setType setTitle zeroBead].
  by rewrite mget_empty.
Qed.

Lemma Create_inv t a : indexInv a → loopAllowed (LCreate t) a → indexInv (CreateConvergenceBead clock t a).2.
Proof.
  intros (Hwf & idx & Hidx & Hex) [Hseq _]. set (now := clock (aTick a)).
  unfold CreateConvergenceBead, mutate. fold now. set (nb := setStatus _ _).
  pose proof (wf_execOp now (OpCreate nb) _ Hwf Hseq) as Hwf'.
  pose proof (λ x, memstore_refines_map_lemma now (OpCreate nb) (aStore a) x Hwf Hseq) as Hl.
  cbn [execOp specOp] in Hwf', Hl. set (b' := createdBead _ _ nb) in *.
  destruct (Create now nb (aStore a)) as [res m'] eqn:Ec. cbn [snd aStore] in *. split; [done|]. exists idx. split; [done|].
  assert (lookupBead (aStore a) (bID b') = None) as Hfresh.
  { destruct (lookupBead (aStore a) (bID b')) as [b|] eqn:Eb; [|done].
    apply lookupBead_Some in Eb as [Hin Hid]; [|apply Hwf]. pose proof (wf_seq _ Hwf) as Hs.
    pose proof (wf_issued _ Hwf) as Hi. rewrite Forall_forall in Hi. destruct (Hi b Hin) as (n & Hn & He).
    subst b'. rewrite Create_id in Hid by lia. rewrite Hid in He. apply gcID_inj in He; unfold in_int64, minInt64 in *; lia. }
  apply (exact_step (aStore a) _ idx _ (bID b')); [done|intros x Hx; cbn [aStore]; by rewrite Hl, decide_False by done|done|].
  cbn [aStore]. rewrite Hl, decide_True, Hex, Hfresh by done. cbn [mbind option_bind]. unfold entryOf.
  subst b' nb. by rewrite created_notLive, andb_false_r.
Qed.

(** ** The count *)

(** The adapters the handlers reach after the index is built. *)
Inductive indexed : Adapter → Prop :=
| indexed_populate a : wf (aStore a) → indexed (populateIndex a).2
| indexed_step op a : indexed a → loopAllowed op a → indexed (loopExec op a).

Lemma indexed_inv a : indexed a → indexInv a.
Proof.
  induction 1 as [a Hwf|op a _ IH Hop].
  - destruct (populateIndex_exact a (wf_nodup _ Hwf)) as (idx & -> & Hex). split; [done|]. by exists idx.
  - destruct op; cbn [loopExec]; auto using SetMetadata_inv, CloseBead_inv, DeleteBead_inv, Create_inv.
Qed.

End maintain.
