(* ===== verification/ConvScenarios.v ===== *)
(** * ConvScenarios: concrete runs of the handlers over the in-memory store

    Small worlds (a loop bead, a wisp), the real adapter as the store, and a
    formula compiler that creates one bead.  The runs show that the hypotheses
    of the theorems about executions are met by the program itself. *)

From S2P Require Import Prelude GoBase GoText Beads MemStore MemStoreProps ConvMeta ConvMetaProps.
From S2P Require Import Prog ConvStore ConvHandler ConvHandlerProps ConvHandlerResults ConvManual ConvReconcile ConvManualProps.
From S2P Require Import ConvRecovery ConvAdapter ConvAdapterProps ConvIndex.

Local Open Scope Z_scope.

(** ** The parameters, instantiated *)

#[local] Instance asciiTables : UnicodeTables :=
  {| lowerTable := λ r, r; letterTable := λ _, false; digitTable := λ _, false |}.
#[local] Existing Instance noDurations.

Definition tick (n : nat) : Z := 1000 + Z.of_nat n.
Definition noTime (_ : string) : option Z := None.
Definition v1Only (_ : string) : res error bool := Ok false.

(** One open bead per wisp, with the parent and the key asked for. *)
Definition cookOne (now : Z) (formula : string) (vars : gmap string string) (parent key : string) (deferred : bool)
    (m : MemStore) : res error string * MemStore :=
  match Create now (setMetadataMap (setParentID (setTitle zeroBead formula) parent) {["idempotency_key" := key]}) m with
  | (Ok b, m') => (Ok b.(bID), m')
  | (Err e, m') => (Err (storeError e), m')
  end.

(** A script that exits with the given status. *)
Definition exits (code : Z) (_ _ : string) (_ : ConditionEnv) (_ : Z) : RunOutcome :=
  mkRunOutcome ["out"] [] false false (if code =? 0 then None else Some (ExitError code)) 5.

Definition city (code : Z) : machine storeE World := adapterMachine tick noTime v1Only cookOne (exits code).

(** ** Worlds *)

Definition loopBead (meta : gmap string string) : Bead :=
  setMetadataMap (setCreatedAt (setType (setStatus (setID zeroBead "gc-1") "open") "convergence") 10) meta.

Definition wispBead (id status : string) (n : Z) : Bead :=
  setMetadataMap (setParentID (setCreatedAt (setStatus (setID zeroBead id) status) 20) "gc-1")
    {["idempotency_key" := IdempotencyKey "gc-1" n]}.

Definition world (meta : gmap string string) (wisps : list Bead) : World :=
  mkWorld (mkAdapter (NewMemStoreFrom 9 (loopBead meta :: wisps) []) None 0) [].

Definition baseMeta : gmap string string :=
  list_to_map [(FieldState, StateActive); (FieldFormula, "f"); (FieldTarget, "a"); (FieldMaxIterations, "3");
    (FieldGateMode, GateModeCondition); (FieldGateCondition, "/gate.sh"); (FieldActiveWisp, "gc-2")].

Definition handler : Handler := mkHandler "/store" true 5.

(** An active loop whose first wisp has just closed. *)
Definition closedOne : World := world baseMeta [wispBead "gc-2" "closed" 1].

(** What a run performs. *)
Definition opsOf {A} (m : machine storeE World) (p : conv A) (w : World) : list (event storeE) := runTrace m p w.

(** The same wisp reported again after it was processed. *)
Definition processedOne : World := world (<[FieldLastProcessedWisp:="gc-2"]> baseMeta) [wispBead "gc-2" "closed" 1].

(** The gate of the wisp was evaluated before a crash. *)
Definition gatedOne : World :=
  world (<[FieldGateOutcome:=GateFail]> (<[FieldGateOutcomeWisp:="gc-2"]> baseMeta)) [wispBead "gc-2" "closed" 1].

Definition gatedMeta : gmap string string := (GetMetadata "gc-1" (wAdapter gatedOne)).1.

(** A loop that waits for an operator, one that ended without converging, and
    one that waits for its trigger. *)
Definition waitingOne : World := world (<[FieldState:=StateWaitingManual]> baseMeta) [wispBead "gc-2" "closed" 1].
Definition endedOne : World :=
  world (<[FieldState:=StateTerminated]> (<[FieldTerminalReason:=TerminalNoConvergence]> baseMeta)) [].
Definition triggeredOne : World :=
  world (<[FieldState:=StateWaitingTrigger]> (<[FieldTrigger:=TriggerEvent]> (<[FieldTriggerCondition:="/t.sh"]> baseMeta)))
    [wispBead "gc-2" "closed" 1].

Definition params : CreateParams :=
  mkCreateParams "f" "a" 3 GateModeManual "" "" "" "loop" {["k" := "v"]} "/city" "" "" "" "" "".

(** ** The theorems about executions, at these runs *)

(** The execution hypothesis of a run, split at its [n]-th operation. *)
Lemma run_at {A} (m : machine storeE World) (p : conv A) w n X (e : storeE X) x :
  opsOf m p w !! n = Some (Ev e x) →
  exec p (take n (opsOf m p w) ++ Ev e x :: drop (S n) (opsOf m p w)) (Ret (run m p w).1).
Proof. intros He. rewrite take_drop_middle by done. apply runTrace_exec. Qed.

Ltac by_run := apply run_at; vm_compute; reflexivity.

Definition wispClosed : conv (res error HandlerResult) := HandleWispClosed handler "gc-1" "gc-2".

Lemma dedup_marker_last_witness :
  Forall (λ ev, match ev with Ev e _ => afterMarker "gc-1" e end) (drop 23 (opsOf (city 1) wispClosed closedOne)).
Proof.
  apply (dedup_marker_last handler "gc-1" "gc-2" "gc-2" (take 22 (opsOf (city 1) wispClosed closedOne)) None _
    (Ret (run (city 1) wispClosed closedOne).1)).
  by_run.
Defined.

Lemma terminal_write_order_witness :
  terminalOrder "gc-1" (take 28 (opsOf (city 0) wispClosed closedOne)) _ (ConvStore.CloseBead "gc-1" CloseReasonHandlerRoot).
Proof.
  apply (terminal_write_order handler "gc-1" "gc-2" _ _ _ None (drop 29 (opsOf (city 0) wispClosed closedOne))
    (Ret (run (city 0) wispClosed closedOne).1)).
  by_run.
Defined.

Lemma first_three {A} (l : list A) a b c :
  l !! 0%nat = Some a → l !! 1%nat = Some b → l !! 2%nat = Some c → a :: b :: c :: drop 3 l = l.
Proof. destruct l as [|? [|? [|? ?]]]; intros; simplify_eq/=; done. Qed.

Definition processedMeta : gmap string string := (GetMetadata "gc-1" (wAdapter processedOne)).1.
Definition processedInfo : BeadInfo := mkBeadInfo "gc-2" "closed" "gc-1" (IdempotencyKey "gc-1" 1) 20 20.

Lemma processed_wisp_skipped_witness :
  drop 3 (opsOf (city 0) wispClosed processedOne) = [] ∧
  (Ret (run (city 0) wispClosed processedOne).1 : conv _) = Ret (Ok skipped).
Proof.
  apply (processed_wisp_skipped handler "gc-1" "gc-2" processedMeta processedInfo processedInfo 1 1);
    [vm_compute; discriminate|vm_compute; discriminate|vm_compute; reflexivity|vm_compute; reflexivity|lia|].
  replace processedMeta.[FieldLastProcessedWisp] with "gc-2" by (vm_compute; reflexivity).
  rewrite first_three; [apply runTrace_exec|reflexivity|vm_compute; reflexivity|vm_compute; reflexivity].
Defined.

Lemma gate_not_rerun_witness : isRun (ConvStore.ActivateWisp "gc-10") = false.
Proof.
  apply (gate_not_rerun handler "gc-1" "gc-2" gatedMeta (drop 1 (opsOf (city 0) wispClosed gatedOne))
    (Ret (run (city 0) wispClosed gatedOne).1) _ (ConvStore.ActivateWisp "gc-10") None).
  - vm_compute. reflexivity.
  - apply (run_at (city 0) wispClosed gatedOne 0). reflexivity.
  - apply list_elem_of_lookup_2 with (i := 4%nat). rewrite lookup_drop. vm_compute. reflexivity.
Defined.

Lemma script_runs_bounded_witness : (countRuns (opsOf (city 0) wispClosed closedOne) ≤ 24)%nat.
Proof.
  apply (script_runs_bounded handler "gc-1" "gc-2" _ (Ret (run (city 0) wispClosed closedOne).1)).
  apply runTrace_exec.
Defined.

Lemma pours_within_limit_witness :
  ∃ vars, pourWithinLimit "gc-1" (take 3 (opsOf (city 0) wispClosed closedOne)) _
    (ConvStore.PourSpeculativeWisp "gc-1" "f" (IdempotencyKey "gc-1" 2) vars "").
Proof.
  exists (ExtractVars baseMeta).
  apply (pours_within_limit handler "gc-1" "gc-2" _ _ _ ("gc-10", None) (drop 4 (opsOf (city 0) wispClosed closedOne))
    (Ret (run (city 0) wispClosed closedOne).1)).
  by_run.
Defined.

Lemma speculation_burned_witness :
  after (speculationMonitor "gc-1") ∅ (take 27 (opsOf (city 0) wispClosed closedOne)) = ∅.
Proof.
  apply (speculation_burned handler "gc-1" "gc-2" _ StateTerminated None (drop 28 (opsOf (city 0) wispClosed closedOne))
    (Ret (run (city 0) wispClosed closedOne).1)).
  by_run.
Defined.

(** A run that ends with a known value. *)
Lemma run_returns {A} (m : machine storeE World) (p : conv A) w a :
  (run m p w).1 = a → exec p (opsOf m p w) (Ret a).
Proof. intros <-. apply runTrace_exec. Qed.

Lemma result_effects_witness :
  resultEffects "gc-1" "gc-2" (opsOf (city 1) wispClosed closedOne) (mkHandlerResult ActionIterate 1 GateFail "gc-10" "").
Proof. apply (result_effects handler "gc-1" "gc-2"). apply run_returns. vm_compute. reflexivity. Defined.

Definition emptyCity : World := mkWorld (mkAdapter NewMemStore None 0) [].

Definition createLoop : conv (res error CreateResult) := CreateHandler handler map_to_list params.


Definition retryLoop : conv (res error RetryResult) := RetryHandler handler map_to_list "gc-1" 2.

Lemma retry_guard_witness :
  isRead (ConvStore.CreateConvergenceBead "Retry of gc-1") ∨
  guardedBy "gc-1" retryable (take 1 (opsOf (city 0) retryLoop endedOne)).
Proof.
  apply (retry_guard handler map_to_list "gc-1" 2 _ _ _ ("gc-10", None) (drop 2 (opsOf (city 0) retryLoop endedOne))
    (Ret (run (city 0) retryLoop endedOne).1)).
  by_run.
Defined.

Definition approveLoop : conv (res error HandlerResult) := ApproveHandler handler "gc-1" "ann".

Lemma approve_guard_order_witness :
  commandOrder handler "gc-1" TerminalApproved "operator:ann" CloseReasonManualApprove
    (λ meta, meta.[FieldState] = StateWaitingManual) (take 10 (opsOf (city 0) approveLoop waitingOne)) _
    (ConvStore.CloseBead "gc-1" CloseReasonManualApprove).
Proof.
  apply (approve_guard_order handler "gc-1" "ann" _ _ _ None (drop 11 (opsOf (city 0) approveLoop waitingOne))
    (Ret (run (city 0) approveLoop waitingOne).1)).
  by_run.
Defined.

(** A loop whose wisp is still open, stopped by an operator. *)
Definition runningOne : World := world baseMeta [wispBead "gc-2" "in_progress" 1].
Definition stopLoop : conv (res error HandlerResult) := StopHandler handler "gc-1" "ann".

Lemma stop_guard_order_witness :
  commandOrder handler "gc-1" TerminalStopped "operator:ann" CloseReasonManualStop stoppable
    (take 19 (opsOf (city 0) stopLoop runningOne)) _ (ConvStore.CloseBead "gc-1" CloseReasonManualStop).
Proof.
  apply (stop_guard_order handler "gc-1" "ann" _ _ _ None (drop 20 (opsOf (city 0) stopLoop runningOne))
    (Ret (run (city 0) stopLoop runningOne).1)).
  by_run.
Defined.

Definition triggerLoop : conv (res error HandlerResult) := HandleTrigger handler "gc-1".

Lemma trigger_guard_witness :
  triggerOrder "gc-1" (take 7 (opsOf (city 0) triggerLoop triggeredOne)) _
    (ConvStore.SetMetadata "gc-1" FieldState StateActive).
Proof.
  apply (trigger_guard handler "gc-1" _ _ _ None (drop 8 (opsOf (city 0) triggerLoop triggeredOne))
    (Ret (run (city 0) triggerLoop triggeredOne).1)).
  by_run.
Defined.

(** ** Recovery, activation and the index, at these worlds *)

Abbreviation cityRoot code := (adapter_rootStore tick noTime v1Only cookOne (exits code) "gc-1").

Definition finishLoop (reason : string) : conv (res error HandlerResult) :=
  terminate handler "gc-1" "gc-2" 1 (mkGateConfig GateModeCondition "/gate.sh" 0 "") GateManualResult reason "controller" 1 baseMeta.

Lemma terminal_crash_recovery_witness :
  let t' := runN 9 (city 0) (finishLoop TerminalApproved) closedOne in
  (rootMeta (RootStore := cityRoot 0) t' = rootMeta (RootStore := cityRoot 0) closedOne ∧
   rootClosed (RootStore := cityRoot 0) t' = rootClosed (RootStore := cityRoot 0) closedOne) ∨
  ((run (city 0) (reconcileState handler "gc-1") t').1.2 = None ∧
   terminated (city 0) "gc-1" (RootStore0 := cityRoot 0) TerminalApproved (run (city 0) (reconcileState handler "gc-1") t').2).
Proof.
  apply (terminal_crash_recovery (city 0) "gc-1" (RootStore0 := cityRoot 0) handler "gc-2" 1
    (mkGateConfig GateModeCondition "/gate.sh" 0 "") GateManualResult TerminalApproved "controller" 1 baseMeta closedOne 9).
  - split; [apply (bool_decide_unpack _); vm_compute; exact I|]. eexists. reflexivity.
  - discriminate.
  - apply (bool_decide_unpack _). vm_compute. exact I.
Defined.

Definition halfEnded : World := world (<[FieldTerminalReason:=TerminalStopped]> baseMeta) [wispBead "gc-2" "closed" 1].

Lemma reconcile_completes_terminal_witness :
  let '(r, t') := run (city 0) (reconcileState handler "gc-1") halfEnded in
  r.2 = None ∧ terminated (city 0) "gc-1" (RootStore0 := cityRoot 0) TerminalStopped t' ∧
  run (city 0) (reconcileState handler "gc-1") t' = ((ActionNoAction, None), t').
Proof.
  apply (reconcile_completes_terminal (city 0) "gc-1" (RootStore0 := cityRoot 0) handler TerminalStopped halfEnded).
  split_and!.
  - split; [apply (bool_decide_unpack _); vm_compute; exact I|]. eexists. reflexivity.
  - discriminate.
  - vm_compute. reflexivity.
  - apply (bool_decide_unpack _). vm_compute. exact I.
Defined.

Lemma reconcile_report_witness :
  let rep := (run (city 0) (ReconcileBeads handler ["gc-1"; "gc-7"]) halfEnded).1 in
  rdBeadID <$> rep.(rpDetails) = ["gc-1"; "gc-7"] ∧
  rep.(rpScanned) = 2 ∧
  rep.(rpErrors) = Z.of_nat (length (filter detailErrored rep.(rpDetails))) ∧
  rep.(rpRecovered) = Z.of_nat (length (filter detailRecovered rep.(rpDetails))) ∧
  rep.(rpErrors) + rep.(rpRecovered) ≤ rep.(rpScanned).
Proof.
  apply (reconcile_report handler ["gc-1"; "gc-7"] (opsOf (city 0) (ReconcileBeads handler ["gc-1"; "gc-7"]) halfEnded)).
  apply run_returns. reflexivity.
Defined.

(** A wisp with a step, both with a deferred assignee. *)
Definition deferredBead (id parent : string) : Bead :=
  setMetadataMap (setParentID (setStatus (setID zeroBead id) "open") parent) {[DeferredAssigneeMetadataKey := "mayor"]}.
Definition deferredWisp : Adapter :=
  mkAdapter (NewMemStoreFrom 2 [deferredBead "gc-1" ""; deferredBead "gc-2" "gc-1"] []) None 0.

Lemma deferredWisp_wf : wf (aStore deferredWisp).
Proof.
  split; [cbn; unfold maxInt64; lia|apply (bool_decide_unpack _); vm_compute; exact I|].
  repeat constructor; [exists 1|exists 2]; (split; [cbn; lia|reflexivity]).
Qed.

Lemma activation_complete_witness :
  ∃ a', ActivateWisp tick "gc-1" deferredWisp = Some (None, a') ∧ grows (aStore deferredWisp) (aStore a') ∧
        ∀ x, below (aStore deferredWisp) "gc-1" x → activatedIn (aStore a') x.
Proof.
  apply (activation_complete tick (λ id, if id == "gc-1" then 1%nat else 0%nat) "gc-1" deferredWisp).
  - exact deferredWisp_wf.
  - intros b Hb. cbn in Hb. rewrite !elem_of_cons in Hb. destruct Hb as [->|[->|Hb]]; [done|vm_compute; lia|].
    by apply not_elem_of_nil in Hb.
  - eexists. reflexivity.
  - vm_compute. lia.
Defined.

Definition indexedCity : Adapter := (populateIndex (wAdapter closedOne)).2.
Definition waitOp : LoopOp := LSetMetadata "gc-1" FieldState StateWaitingManual.

Lemma closedOne_wf : wf (aStore (wAdapter closedOne)).
Proof.
  split; [cbn; unfold maxInt64; lia|apply (bool_decide_unpack _); vm_compute; exact I|].
  repeat constructor; [exists 1|exists 2]; (split; [cbn; lia|reflexivity]).
Qed.


Lemma cookOne_contract : cookContract cookOne.
Proof.
  intros now formula vars parent key d m rid m'. unfold cookOne, Create. set (nb := createdBead _ _ _).
  intros [= <- <-]. cbn [msBeads]. subst nb. split.
  - eexists. split; [apply elem_of_app; right; by left|]. unfold createdBead.
    destruct (bType _ == ""); cbn; (split_and!; [done..|]); unfold mget; by rewrite lookup_singleton_eq.
  - intros b [Hb| ->%list_elem_of_singleton]%elem_of_app _; [by right|by left].
Qed.

Lemma pair_first {A B} (p : A * B) a : p.1 = a → p = (a, p.2).
Proof. by destruct p; cbn; intros ->. Qed.

Abbreviation poured :=
  (pourWisp tick v1Only cookOne "gc-1" "f" (IdempotencyKey "gc-1" 2) ∅ "" true (wAdapter closedOne)).

Lemma pour_idempotent_witness :
  pourWisp tick v1Only cookOne "gc-1" "g" (IdempotencyKey "gc-1" 2) ∅ "p" false poured.2 = (("gc-10", None), poured.2).
Proof.
  apply (pour_idempotent tick v1Only cookOne "gc-1" (IdempotencyKey "gc-1" 2) "f" ∅ "" true (wAdapter closedOne)
    "gc-10" poured.2); [exact cookOne_contract|vm_compute; reflexivity|discriminate|discriminate|].
  apply pair_first. vm_compute. reflexivity.
Defined.

(** A loop waiting on its trigger, its first wisp closed and processed. *)
Definition triggeredTwo : World :=
  world (<[FieldLastProcessedWisp:="gc-2"]> (<[FieldState:=StateWaitingTrigger]> (<[FieldTrigger:=TriggerEvent]>
    (<[FieldTriggerCondition:="/t.sh"]> baseMeta)))) [wispBead "gc-2" "closed" 1].

Definition afterTrigger : World :=
  (run (city 0) (let* _ := triggerLoop in perform (ConvStore.CloseBead "gc-10" "done")) triggeredTwo).2.

