(* ===== verification/Breaker.v ===== *)
(** * Breaker: the circuit breaker of the store transport

    Models [internal/resilience/breaker.go] and [registry.go].  Every method
    of a breaker runs under its mutex, so a concurrent execution is a sequence
    of calls; a call carries the clock reading and the random source it uses.
    A state-change callback is a name, and a call returns the notifications it
    delivers, each with the callback that received it. *)

From S2P Require Import Prelude GoBase.

Local Open Scope Z_scope.

(** ** Data *)

Inductive State := StateClosed | StateOpen | StateHalfOpen.

#[export] Instance State_eq_dec : EqDecision State.
Proof. solve_decision. Defined.

Definition String (s : State) : string :=
  match s with
  | StateClosed => "closed"
  | StateOpen => "open"
  | StateHalfOpen => "half-open"
  end.

Definition DefaultConsecutiveFailures : Z := 3.
Definition DefaultOpenBase : Z := Second.
Definition DefaultOpenMax : Z := 60 * Second.
Definition DefaultHalfOpenInterval : Z := 15 * Second.

Record Settings := mkSettings {
  Enabled : bool;
  ConsecutiveFailures : Z;
  OpenBase : Z;
  OpenMax : Z;
  HalfOpenInterval : Z
}.

Definition withDefaults (s : Settings) : Settings :=
  let failures := if s.(ConsecutiveFailures) <=? 0 then DefaultConsecutiveFailures else s.(ConsecutiveFailures) in
  let base := if s.(OpenBase) <=? 0 then DefaultOpenBase else s.(OpenBase) in
  let max := if s.(OpenMax) <=? 0 then DefaultOpenMax else s.(OpenMax) in
  let max := if max <? base then base else max in
  let interval := if s.(HalfOpenInterval) <=? 0 then DefaultHalfOpenInterval else s.(HalfOpenInterval) in
  mkSettings s.(Enabled) failures base max interval.

Definition DefaultSettings : Settings := withDefaults (mkSettings true 0 0 0 0).

Record Transition := mkTransition {
  tScope : string;
  tOpClass : string;
  tFrom : State;
  tTo : State;
  tFailures : Z;
  tBackoff : Z;
  tAt : Z
}.

(** The name of an installed callback, and a notification delivered to it. *)
Abbreviation callback := nat.
Abbreviation notice := (callback * Transition)%type.

Record Breaker := mkBreaker {
  scope : string;
  opClass : string;
  settings : Settings;
  onChange : option callback;
  state : State;
  failures : Z;
  trips : Z;
  deadline : Z;
  lastProbeAt : Z
}.

Definition newBreaker (sc op : string) (s : Settings) (fn : option callback) : Breaker :=
  mkBreaker sc op (withDefaults s) fn StateClosed 0 0 0 0.

Definition setState (b : Breaker) (s : State) : Breaker :=
  mkBreaker b.(scope) b.(opClass) b.(settings) b.(onChange) s b.(failures) b.(trips) b.(deadline) b.(lastProbeAt).
Definition setFailures (b : Breaker) (n : Z) : Breaker :=
  mkBreaker b.(scope) b.(opClass) b.(settings) b.(onChange) b.(state) n b.(trips) b.(deadline) b.(lastProbeAt).
Definition setTrips (b : Breaker) (n : Z) : Breaker :=
  mkBreaker b.(scope) b.(opClass) b.(settings) b.(onChange) b.(state) b.(failures) n b.(deadline) b.(lastProbeAt).
Definition setDeadline (b : Breaker) (t : Z) : Breaker :=
  mkBreaker b.(scope) b.(opClass) b.(settings) b.(onChange) b.(state) b.(failures) b.(trips) t b.(lastProbeAt).
Definition setLastProbeAt (b : Breaker) (t : Z) : Breaker :=
  mkBreaker b.(scope) b.(opClass) b.(settings) b.(onChange) b.(state) b.(failures) b.(trips) b.(deadline) t.

Definition setOnChangeForRegistry (fn : option callback) (b : Breaker) : Breaker :=
  mkBreaker b.(scope) b.(opClass) b.(settings) fn b.(state) b.(failures) b.(trips) b.(deadline) b.(lastProbeAt).

(** ** Backoff *)

(** [rand.Int64N], the random source: its contract is [intN_ok] below. *)
Definition fullJitter (int64N : Z → Z) (capDur : Z) : Z :=
  if capDur <=? 0 then 0 else wrap64 (int64N capDur + 1).

(** The doubling loop, with [n] rounds left. *)
Fixpoint capLoop (max : Z) (n : nat) (capDur : Z) : Z :=
  match n with
  | O => if max <? capDur then max else capDur
  | S n =>
      let capDur := wrap64 (capDur * 2) in
      if (max <=? capDur) || (capDur <=? 0) then max else capLoop max n capDur
  end.

Definition backoffCapLocked (b : Breaker) : Z :=
  capLoop b.(settings).(OpenMax) (Z.to_nat (b.(trips) - 1)) b.(settings).(OpenBase).

(** ** Transitions *)

Definition transitionLocked (to : State) (backoff now : Z) (b : Breaker) : Breaker * list notice :=
  if bool_decide (b.(state) = to) then (b, [])
  else (setState b to,
        match b.(onChange) with
        | None => []
        | Some fn => [(fn, mkTransition b.(scope) b.(opClass) b.(state) to b.(failures) backoff now)]
        end).

Definition openLocked (int64N : Z → Z) (now : Z) (b : Breaker) : Breaker * list notice :=
  let backoff := fullJitter int64N (backoffCapLocked b) in
  transitionLocked StateOpen backoff now (setDeadline b (now + backoff)).

(** ** Operations *)

Definition Allow (now : Z) (b : Breaker) : bool * Breaker * list notice :=
  if negb b.(settings).(Enabled) then (true, b, [])
  else match b.(state) with
       | StateOpen =>
           if now <? b.(deadline) then (false, b, [])
           else let '(b, ns) := transitionLocked StateHalfOpen 0 now b in
                (true, setLastProbeAt b now, ns)
       | StateHalfOpen =>
           if timeSub now b.(lastProbeAt) <? b.(settings).(HalfOpenInterval) then (false, b, [])
           else (true, setLastProbeAt b now, [])
       | StateClosed => (true, b, [])
       end.

Definition Available (b : Breaker) : bool :=
  if negb b.(settings).(Enabled) then true else bool_decide (b.(state) = StateClosed).

Definition ProbeDue (now : Z) (b : Breaker) : bool :=
  if negb b.(settings).(Enabled) then false
  else match b.(state) with
       | StateOpen => negb (now <? b.(deadline))
       | StateHalfOpen => b.(settings).(HalfOpenInterval) <=? timeSub now b.(lastProbeAt)
       | StateClosed => false
       end.

Definition RecordSuccess (now : Z) (b : Breaker) : Breaker * list notice :=
  if negb b.(settings).(Enabled) then (b, [])
  else
    let b := setTrips (setFailures b 0) 0 in
    if bool_decide (b.(state) ≠ StateClosed) then transitionLocked StateClosed 0 now b else (b, []).

Definition RecordFailure (int64N : Z → Z) (now : Z) (b : Breaker) : Breaker * list notice :=
  if negb b.(settings).(Enabled) then (b, [])
  else match b.(state) with
       | StateOpen => (b, [])
       | StateHalfOpen => openLocked int64N now (setTrips b (incr64 b.(trips)))
       | StateClosed =>
           let b := setFailures b (incr64 b.(failures)) in
           if b.(settings).(ConsecutiveFailures) <=? b.(failures)
           then openLocked int64N now (setTrips b 1) else (b, [])
       end.

Definition Trip (int64N : Z → Z) (now : Z) (b : Breaker) : Breaker * list notice :=
  if negb b.(settings).(Enabled) then (b, [])
  else match b.(state) with
       | StateOpen => (b, [])
       | StateHalfOpen => openLocked int64N now (setTrips b (incr64 b.(trips)))
       | StateClosed => openLocked int64N now (setTrips b 1)
       end.

(** [Breaker.State]. *)
Definition currentState (b : Breaker) : State :=
  if negb b.(settings).(Enabled) then StateClosed else b.(state).

(** ** The breaker as a transition system *)

Inductive op := OAllow | OSuccess | OFailure | OTrip | ORewire (fn : option callback).

Record call := mkCall { cOp : op; cNow : Z; cInt64N : Z → Z }.

(** What a call returns, its new state and its notifications; a method that
    returns nothing reports [true]. *)
Definition step (b : Breaker) (c : call) : bool * Breaker * list notice :=
  let unit r := (true, r.1, r.2) in
  match c.(cOp) with
  | OAllow => Allow c.(cNow) b
  | OSuccess => unit (RecordSuccess c.(cNow) b)
  | OFailure => unit (RecordFailure c.(cInt64N) c.(cNow) b)
  | OTrip => unit (Trip c.(cInt64N) c.(cNow) b)
  | ORewire fn => (true, setOnChangeForRegistry fn b, [])
  end.

Definition next (b : Breaker) (c : call) : Breaker := (step b c).1.2.
Definition notices (b : Breaker) (c : call) : list notice := (step b c).2.
Definition admitted (b : Breaker) (c : call) : bool := (step b c).1.1.

Definition calls (b : Breaker) (cs : list call) : Breaker := foldl next b cs.

(** Every notification delivered by a sequence of calls. *)
Fixpoint allNotices (b : Breaker) (cs : list call) : list notice :=
  match cs with
  | [] => []
  | c :: cs => notices b c ++ allNotices (next b c) cs
  end.

(** ** The registry *)

Abbreviation Key := (string * string)%type.

Record Registry := mkRegistry {
  rSettings : Settings;
  rOnChange : option callback;
  breakers : gmap Key Breaker
}.

Definition NewRegistry (s : Settings) : Registry := mkRegistry (withDefaults s) None ∅.

Definition SetOnStateChange (fn : option callback) (r : Registry) : Registry :=
  mkRegistry r.(rSettings) fn (setOnChangeForRegistry fn <$> r.(breakers)).

(** [Registry.Breaker]: the shared breaker of a key, created on first use. *)
Definition getBreaker (k : Key) (r : Registry) : Breaker * Registry :=
  match r.(breakers) !! k with
  | Some b => (b, r)
  | None =>
      let b := newBreaker k.1 k.2 r.(rSettings) r.(rOnChange) in
      (b, mkRegistry r.(rSettings) r.(rOnChange) (<[k := b]> r.(breakers)))
  end.

Definition States (r : Registry) : gmap Key State := currentState <$> r.(breakers).

(** A client call through the registry: fetch the breaker of the key and call
    it; the breaker is shared, so the registry sees its new state. *)
Inductive rcall := RCall (k : Key) (c : call) | RWire (fn : option callback).

Definition rnext (r : Registry) (rc : rcall) : Registry :=
  match rc with
  | RWire fn => SetOnStateChange fn r
  | RCall k c =>
      let '(b, r) := getBreaker k r in
      mkRegistry r.(rSettings) r.(rOnChange) (<[k := next b c]> r.(breakers))
  end.
