(* ===== verification/BreakerProps.v ===== *)
(** * BreakerProps: what the circuit breaker guarantees

    The backoff bound, the exact condition under which a breaker is closed,
    the spacing of probes, recovery, the notification log, and the registry as
    a family of independent breakers. *)

From S2P Require Import Prelude GoBase Breaker.

Local Open Scope Z_scope.

(** ** Settings and random source *)

(** The configured values are 64-bit integers, as their Go types have them. *)
Definition int64Settings (s : Settings) : Prop :=
  in_int64 s.(ConsecutiveFailures) ∧ in_int64 s.(OpenBase) ∧ in_int64 s.(OpenMax) ∧ in_int64 s.(HalfOpenInterval).

(** What [withDefaults] establishes. *)
Definition validSettings (s : Settings) : Prop :=
  0 < s.(ConsecutiveFailures) ≤ maxInt64 ∧ 0 < s.(OpenBase) ≤ s.(OpenMax) ∧ s.(OpenMax) ≤ maxInt64 ∧
  0 < s.(HalfOpenInterval) ≤ maxInt64.

(** The documented contract of [rand.Int64N]: a value in [0, n). *)
Definition intN_ok (f : Z → Z) : Prop := ∀ n, 0 < n → 0 ≤ f n < n.

Ltac zcase :=
  repeat match goal with
  | |- context [?a <=? ?b] => destruct (Z.leb_spec a b)
  | |- context [?a <? ?b] => destruct (Z.ltb_spec a b)
  | H : context [?a <=? ?b] |- _ => destruct (Z.leb_spec a b)
  | H : context [?a <? ?b] |- _ => destruct (Z.ltb_spec a b)
  end.

Lemma withDefaults_valid s : int64Settings s → validSettings (withDefaults s).
Proof.
  unfold int64Settings, validSettings, withDefaults, in_int64, minInt64, maxInt64,
    DefaultConsecutiveFailures, DefaultOpenBase, DefaultOpenMax, DefaultHalfOpenInterval, Second, Millisecond.
  cbn [ConsecutiveFailures OpenBase OpenMax HalfOpenInterval]. zcase; lia.
Qed.

Lemma withDefaults_idem s : withDefaults (withDefaults s) = withDefaults s.
Proof.
  unfold withDefaults, DefaultConsecutiveFailures, DefaultOpenBase, DefaultOpenMax, DefaultHalfOpenInterval, Second,
    Millisecond. cbn [Enabled ConsecutiveFailures OpenBase OpenMax HalfOpenInterval].
  zcase; first [reflexivity|lia].
Qed.

(** ** Backoff *)

Lemma capLoop_spec max n c :
  0 < c ≤ max → max ≤ maxInt64 → capLoop max n c = Z.min max (c * 2 ^ Z.of_nat n).
Proof.
  intros Hc Hm. revert c Hc. induction n as [|n IH]; intros c Hc.
  { cbn [capLoop]. change (2 ^ Z.of_nat 0) with 1. zcase; lia. }
  cbn [capLoop]. rewrite Nat2Z.inj_succ, Z.pow_succ_r by lia.
  pose proof (Z.pow_pos_nonneg 2 (Z.of_nat n)) as Hp.
  destruct (decide (c * 2 ≤ maxInt64)) as [Hs|Hs].
  - rewrite wrap64_id by (unfold in_int64, minInt64; lia).
    destruct (Z.leb_spec max (c * 2)); cbn [orb]; [nia|].
    destruct (Z.leb_spec (c * 2) 0); [lia|]. rewrite IH by lia. f_equal. lia.
  - assert (wrap64 (c * 2) = c * 2 - 2 ^ 64) as ->.
    { unfold wrap64. unfold maxInt64 in *. rewrite (Z.mod_eq _ (2 ^ 64)) by lia.
      assert ((c * 2 + 2 ^ 63) / 2 ^ 64 = 1) as -> by (symmetry; apply (Z.div_unique_pos _ _ _ (c * 2 - 2 ^ 63)); lia).
      lia. }
    unfold maxInt64 in *. zcase; cbn [orb]; try lia; nia.
Qed.

Lemma fullJitter_range f cap : intN_ok f → 0 < cap ≤ maxInt64 → 0 < fullJitter f cap ≤ cap.
Proof.
  intros Hf Hc. unfold fullJitter. zcase; [lia|]. specialize (Hf cap ltac:(lia)).
  rewrite wrap64_id by (unfold in_int64, minInt64; lia). lia.
Qed.

Lemma cap_range b : validSettings b.(settings) → 0 < backoffCapLocked b ≤ b.(settings).(OpenMax).
Proof.
  intros (_ & Hb & Hm & _). unfold backoffCapLocked. rewrite capLoop_spec by lia.
  pose proof (Z.pow_pos_nonneg 2 (Z.of_nat (Z.to_nat (trips b - 1)))). nia.
Qed.

(** ** One call at a time *)

(** What an opening does to the breaker. *)
Lemma openLocked_spec f now b :
  b.(state) ≠ StateOpen →
  (openLocked f now b).1 = setState (setDeadline b (now + fullJitter f (backoffCapLocked b))) StateOpen.
Proof. intros H. unfold openLocked, transitionLocked. by rewrite bool_decide_false. Qed.

(** Case analysis of a call on the state of an enabled breaker. *)
Ltac bcase b c He :=
  let o := fresh "o" in let t := fresh "t" in let f := fresh "f" in let Hst := fresh "Hst" in
  destruct c as [o t f]; destruct o; destruct (state b) eqn:Hst;
  unfold next, admitted, notices, step, Allow, RecordSuccess, RecordFailure, Trip, openLocked, transitionLocked in *;
  cbn [cOp cNow cInt64N] in *; rewrite ?He in *; cbn [negb] in *; rewrite ?Hst in *;
  cbn [fst snd state settings failures trips deadline lastProbeAt onChange scope opClass
       setState setFailures setTrips setDeadline setLastProbeAt setOnChangeForRegistry] in *;
  rewrite ?Hst in *; cbn [bool_decide decide_rel State_eq_dec] in *.

Lemma next_settings b c : (next b c).(settings) = b.(settings).
Proof.
  destruct (Enabled (settings b)) eqn:He.
  - bcase b c He; repeat case_match; simplify_eq/=; done.
  - destruct c as [[] ? ?]; unfold next, step, Allow, RecordSuccess, RecordFailure, Trip; cbn; by rewrite ?He.
Qed.

Lemma calls_settings b cs : (calls b cs).(settings) = b.(settings).
Proof.
  revert b. induction cs as [|c cs IH]; intros b; [done|].
  cbn. unfold calls in IH. by rewrite IH, next_settings.
Qed.

Lemma calls_snoc b cs c : calls b (cs ++ [c]) = next (calls b cs) c.
Proof. unfold calls. by rewrite foldl_app. Qed.

(** ** When a breaker is closed *)

Definition isSuccess (c : call) : bool := match c.(cOp) with OSuccess => true | _ => false end.
Definition isFailure (c : call) : bool := match c.(cOp) with OFailure => true | _ => false end.
Definition isTrip (c : call) : bool := match c.(cOp) with OTrip => true | _ => false end.
Definition isAllow (c : call) : bool := match c.(cOp) with OAllow => true | _ => false end.

(** The calls made after the last recorded success. *)
Definition sinceSuccess (cs : list call) : list call :=
  foldl (λ acc c, if isSuccess c then [] else acc ++ [c]) [] cs.

(** The failures recorded since the last success. *)
Definition recentFailures (cs : list call) : Z :=
  Z.of_nat (length (List.filter isFailure (sinceSuccess cs))).

Lemma sinceSuccess_snoc cs c :
  sinceSuccess (cs ++ [c]) = if isSuccess c then [] else sinceSuccess cs ++ [c].
Proof. unfold sinceSuccess. by rewrite foldl_app. Qed.

Lemma recentFailures_snoc cs c :
  recentFailures (cs ++ [c]) = if isSuccess c then 0 else recentFailures cs + (if isFailure c then 1 else 0).
Proof.
  unfold recentFailures. rewrite sinceSuccess_snoc. destruct (isSuccess c); [done|].
  rewrite List.filter_app, length_app. cbn. destruct (isFailure c); cbn; lia.
Qed.

Lemma tripped_snoc cs c :
  existsb isTrip (sinceSuccess (cs ++ [c])) =
  if isSuccess c then false else existsb isTrip (sinceSuccess cs) || isTrip c.
Proof.
  rewrite sinceSuccess_snoc. destruct (isSuccess c); [done|]. rewrite existsb_app. cbn. by rewrite orb_false_r.
Qed.

(** The history invariant behind the characterization. *)
Definition historyInv (cs : list call) (b : Breaker) : Prop :=
  match b.(state) with
  | StateClosed =>
      b.(failures) = recentFailures cs ∧ recentFailures cs < b.(settings).(ConsecutiveFailures) ∧
      existsb isTrip (sinceSuccess cs) = false
  | _ => b.(settings).(ConsecutiveFailures) ≤ recentFailures cs ∨ existsb isTrip (sinceSuccess cs) = true
  end.

Lemma historyInv_step cs b c :
  b.(settings).(Enabled) = true → validSettings b.(settings) → historyInv cs b → historyInv (cs ++ [c]) (next b c).
Proof.
  intros He (Hf & _) HI.
  assert (0 ≤ recentFailures cs) as Hpos by (unfold recentFailures; lia).
  unfold historyInv. rewrite recentFailures_snoc, tripped_snoc, next_settings. unfold historyInv in HI.
  bcase b c He; cbn [isSuccess isFailure isTrip cOp];
    repeat case_match; simplify_eq/=; rewrite ?orb_false_r, ?orb_true_r in *; rewrite ?Hst in *; zcase; simplify_eq/=;
    try (destruct HI as (HI1 & HI2 & HI3));
    rewrite ?incr64_succ in * by (unfold in_int64, minInt64, maxInt64 in *; lia);
    try (split_and!); try done; try lia; try (by right); try (by destruct HI; [left; lia|by right]).
Qed.

Section fresh.
Context (s : Settings) (Hs : int64Settings s) (Hen : s.(Enabled) = true).
Context (sc opc : string) (fn : option callback).

Abbreviation fresh := (newBreaker sc opc s fn).

Lemma fresh_enabled cs : (calls fresh cs).(settings).(Enabled) = true.
Proof using Hen. by rewrite calls_settings. Qed.

Lemma fresh_valid cs : validSettings (calls fresh cs).(settings).
Proof using Hs. rewrite calls_settings. by apply withDefaults_valid. Qed.

Lemma fresh_history cs : historyInv cs (calls fresh cs).
Proof using Hs Hen.
  induction cs as [|c cs IH] using rev_ind.
  - cbn. pose proof (withDefaults_valid s Hs) as (? & _). split_and!; try done. unfold recentFailures; cbn in *; lia.
  - rewrite calls_snoc. apply historyInv_step; [apply fresh_enabled|apply fresh_valid|done].
Qed.

(** A breaker that is enabled is closed exactly when, since the last
    recorded success, fewer than the configured number of failures were
    recorded and it was not tripped by hand; what was called in between, and
    when, makes no difference. *)
Theorem closed_iff cs :
  Available (calls fresh cs) = true ↔
  recentFailures cs < (withDefaults s).(ConsecutiveFailures) ∧ existsb isTrip (sinceSuccess cs) = false.
Proof using Hs Hen.
  pose proof (fresh_history cs) as HI. unfold Available, historyInv in *. rewrite fresh_enabled, calls_settings in *.
  cbn [negb]. rewrite bool_decide_eq_true. cbn [settings newBreaker] in HI.
  destruct (state (calls fresh cs)); [naive_solver|..]; (split; [done|]); intros [? Ht];
    (destruct HI as [?|Ht']; [lia|congruence]).
Qed.

(** ** Open episodes *)

(** The openings counted since the last success, along a sequence of calls. *)
Fixpoint episodes (b : Breaker) (n : Z) (cs : list call) : Z :=
  match cs with
  | [] => n
  | c :: cs =>
      let b' := next b c in
      let opens := bool_decide (b.(state) ≠ StateOpen ∧ b'.(state) = StateOpen) in
      episodes b' (if isSuccess c then 0 else if opens then n + 1 else n) cs
  end.

Lemma episodes_snoc b n cs c :
  episodes b n (cs ++ [c]) =
  if isSuccess c then 0
  else if bool_decide ((calls b cs).(state) ≠ StateOpen ∧ (next (calls b cs) c).(state) = StateOpen)
       then episodes b n cs + 1 else episodes b n cs.
Proof. revert b n. induction cs as [|c' cs IH]; intros b n; [done|]. cbn [app episodes]. by rewrite IH. Qed.

Lemma episodes_bound b n cs : 0 ≤ n → 0 ≤ episodes b n cs ≤ n + Z.of_nat (length cs).
Proof.
  revert b n. induction cs as [|c cs IH]; intros b n Hn; cbn [episodes length]; [lia|].
  case_match; [|case_match]; (etrans; [apply IH; lia|]) || (split; [apply IH; lia|]; etrans; [apply IH; lia|lia]).
Qed.

Lemma trips_episodes cs :
  Z.of_nat (length cs) < maxInt64 →
  (calls fresh cs).(trips) = episodes fresh 0 cs ∧
  ((calls fresh cs).(state) = StateClosed → (calls fresh cs).(trips) = 0).
Proof using Hen.
  induction cs as [|c cs IH] using rev_ind; [done|]. rewrite length_app. cbn [length]. intros Hl.
  destruct IH as [IH1 IH2]; [lia|]. pose proof (episodes_bound fresh 0 cs) as Hb.
  pose proof (fresh_enabled cs) as He. rewrite calls_snoc, episodes_snoc. set (b := calls fresh cs) in *.
  bcase b c He; cbn [isSuccess cOp]; repeat case_match; simplify_eq/=; rewrite ?Hst in *; bsplit;
    rewrite ?incr64_succ by (unfold in_int64, minInt64; lia);
    naive_solver lia.
Qed.
End fresh.

(** A success closes the breaker and resets its counters. *)
Lemma success_closes b c :
  b.(settings).(Enabled) = true → isSuccess c = true → (next b c).(state) = StateClosed.
Proof.
  intros He Hc. destruct c as [[] t f]; try done. unfold next, step, RecordSuccess, transitionLocked. cbn. rewrite He. cbn.
  by destruct (state b) eqn:Hst; cbn; rewrite ?Hst.
Qed.

(** An open breaker stays as it is while nothing succeeds and every admission
    request comes before its deadline. *)
Definition beforeDeadline (d : Z) (c : call) : bool :=
  negb (isSuccess c) && (negb (isAllow c) || (c.(cNow) <? d)).

Lemma open_step b c :
  b.(settings).(Enabled) = true → b.(state) = StateOpen → beforeDeadline b.(deadline) c = true →
  (next b c).(state) = StateOpen ∧ (next b c).(deadline) = b.(deadline) ∧ (isAllow c = true → admitted b c = false).
Proof.
  intros He Ho Hc. unfold beforeDeadline in Hc.
  bcase b c He; simplify_eq; cbn [isAllow isSuccess negb andb orb cOp cNow] in *; try discriminate; rewrite ?Hc; done.
Qed.

Lemma open_calls b cs :
  b.(settings).(Enabled) = true → b.(state) = StateOpen → forallb (beforeDeadline b.(deadline)) cs = true →
  (calls b cs).(state) = StateOpen ∧ (calls b cs).(deadline) = b.(deadline).
Proof.
  intros He Ho. revert b He Ho. induction cs as [|c cs IH]; intros b He Ho; [done|]. cbn [forallb].
  intros [Hc Hcs]%andb_true_iff. destruct (open_step b c) as (H1 & H2 & _); [done..|].
  destruct (IH (next b c)) as [H3 H4]; [by rewrite next_settings|done|by rewrite H2|].
  cbn. unfold calls in *. by rewrite H3, H4, H2.
Qed.

(** The opening of a breaker sets its deadline by a jittered, capped backoff. *)
Lemma opening_deadline b c :
  b.(settings).(Enabled) = true → b.(state) ≠ StateOpen → (next b c).(state) = StateOpen →
  (next b c).(deadline) = c.(cNow) + fullJitter c.(cInt64N) (backoffCapLocked (next b c)).
Proof.
  intros He Hn. bcase b c He; repeat case_match; simplify_eq/=; try done; by rewrite Hst.
Qed.

(** An open episode.  When a call opens the breaker, it draws a positive
    wait of at most [min(OpenMax, OpenBase * 2^(k-1))], [k] being the number of
    openings since the last success (this one included), with no overflow of
    the doubling; until that wait has passed every request is refused whatever
    else is called (a success aside), and the first request after it is
    admitted as the half-open probe. *)
Theorem open_episode (s : Settings) (sc opc : string) (fn : option callback) (cs : list call) (c : call)
    (rest : list call) (t : Z) (f : Z → Z) :
  int64Settings s → s.(Enabled) = true → intN_ok c.(cInt64N) → Z.of_nat (length cs) < maxInt64 - 1 →
  let b := calls (newBreaker sc opc s fn) cs in
  let st := withDefaults s in
  b.(state) ≠ StateOpen → (next b c).(state) = StateOpen →
  ∃ wait,
    0 < wait ≤ Z.min st.(OpenMax) (st.(OpenBase) * 2 ^ (episodes (newBreaker sc opc s fn) 0 (cs ++ [c]) - 1)) ∧
    (forallb (beforeDeadline (c.(cNow) + wait)) rest = true →
     let b' := calls (next b c) rest in
     (t < c.(cNow) + wait → admitted b' (mkCall OAllow t f) = false ∧ next b' (mkCall OAllow t f) = b') ∧
     (c.(cNow) + wait ≤ t → admitted b' (mkCall OAllow t f) = true ∧
        (next b' (mkCall OAllow t f)).(state) = StateHalfOpen)).
Proof.
  intros Hs Hen Hf Hl b st Hn Ho.
  pose proof (fresh_enabled s Hen sc opc fn cs) as He. fold b in He.
  pose proof (opening_deadline b c He Hn Ho) as Hd.
  destruct (trips_episodes s Hen sc opc fn (cs ++ [c])) as [Ht _]; [rewrite length_app; cbn; lia|].
  rewrite calls_snoc in Ht. fold b in Ht.
  set (k := episodes _ 0 _) in *.
  assert (1 ≤ k) as Hk.
  { unfold k. rewrite episodes_snoc. fold b. pose proof (episodes_bound (newBreaker sc opc s fn) 0 cs ltac:(lia)).
    rewrite bool_decide_true by done. destruct (isSuccess c) eqn:Hc; [|lia].
    by rewrite (success_closes b c) in Ho. }
  pose proof (withDefaults_valid s Hs) as Hv.
  assert ((next b c).(settings) = st) as Hst by (rewrite next_settings; unfold b; by rewrite calls_settings).
  exists (fullJitter c.(cInt64N) (backoffCapLocked (next b c))). split.
  - assert (backoffCapLocked (next b c) = Z.min st.(OpenMax) (st.(OpenBase) * 2 ^ (k - 1))) as ->.
    { unfold backoffCapLocked. rewrite Hst, Ht. destruct Hv as (_ & ? & ? & _). rewrite capLoop_spec by done.
      by rewrite Z2Nat.id by lia. }
    apply fullJitter_range; [done|]. destruct Hv as (_ & ? & ? & _).
    pose proof (Z.pow_pos_nonneg 2 (k - 1) ltac:(lia) ltac:(lia)). fold st in H, H0. nia.
  - intros Hr. rewrite <-Hd in Hr |- *.
    destruct (open_calls (next b c) rest) as [Ho' Hd']; [by rewrite next_settings|done|done|].
    assert (Enabled (settings (calls (next b c) rest)) = true) as He' by (by rewrite calls_settings, next_settings).
    set (b2 := calls (next b c) rest) in *. rewrite <-Hd'. clearbody b2.
    unfold admitted, next, step, Allow, transitionLocked. cbn [cOp cNow]. rewrite He', Ho'.
    cbn [negb bool_decide decide_rel State_eq_dec]. split; intros; zcase; try lia; done.
Qed.

(** ** Probes *)

(** An admitted probe leaves the breaker half-open and is remembered. *)
Lemma probe_admitted b c :
  b.(settings).(Enabled) = true → b.(state) ≠ StateClosed → c.(cOp) = OAllow → admitted b c = true →
  (next b c).(state) = StateHalfOpen ∧ (next b c).(lastProbeAt) = c.(cNow).
Proof.
  intros He Hn Ho. unfold admitted, next, step, Allow, transitionLocked. rewrite Ho, He. cbn [negb].
  destruct (state b) eqn:Hst; [done|..]; case_match; try discriminate; done.
Qed.

(** A request to a half-open breaker keeps it half-open and never moves its
    last probe back. *)
Lemma halfopen_allow b c :
  b.(settings).(Enabled) = true → b.(state) = StateHalfOpen → isAllow c = true →
  0 < b.(settings).(HalfOpenInterval) →
  (next b c).(state) = StateHalfOpen ∧ b.(lastProbeAt) ≤ (next b c).(lastProbeAt).
Proof.
  intros He Hs Hc Hi. destruct c as [[] t f]; try done. unfold next, step, Allow. cbn [cOp cNow].
  rewrite He, Hs. cbn [negb]. unfold timeSub, minInt64, maxInt64. zcase; cbn; (split; [done|lia]).
Qed.

(** While a breaker is not closed and no outcome is recorded, two admitted
    requests are at least [HalfOpenInterval] apart, however many requests are
    refused in between and whatever the clock does. *)
Theorem probe_spacing (b : Breaker) (c1 c2 : call) (mid : list call) :
  b.(settings).(Enabled) = true → validSettings b.(settings) → b.(state) ≠ StateClosed →
  c1.(cOp) = OAllow → c2.(cOp) = OAllow → forallb isAllow mid = true →
  admitted b c1 = true → admitted (calls (next b c1) mid) c2 = true →
  c1.(cNow) + b.(settings).(HalfOpenInterval) ≤ c2.(cNow).
Proof.
  intros He (_ & _ & _ & Hi) Hn H1 H2 Hm Ha Hb.
  set (ok := λ b' : Breaker, b'.(settings) = b.(settings) ∧ b'.(state) = StateHalfOpen ∧ c1.(cNow) ≤ b'.(lastProbeAt)).
  assert (∀ b' c, ok b' → isAllow c = true → ok (next b' c)) as Hstep.
  { intros b' c (Hs' & Hst & Hle) Hc. split; [by rewrite next_settings|]. rewrite <-Hs' in He, Hi.
    destruct (halfopen_allow b' c) as [-> ?]; [done..|lia|split; [done|lia]]. }
  assert (ok (next b c1)) as Hok.
  { split; [apply next_settings|]. destruct (probe_admitted b c1) as [-> ->]; [done..|]. split; [done|lia]. }
  assert (∀ b', ok b' → ok (calls b' mid)) as Hmid.
  { clear -Hstep Hm. induction mid as [|c mid IH]; intros b' Hb'; [done|]. cbn in Hm |- *.
    apply andb_true_iff in Hm as [? ?]. apply IH; [done|]. by apply Hstep. }
  destruct (Hmid _ Hok) as (Hs' & Hst & Hle). revert Hb. rewrite <-Hs' in He, Hi |- *.
  set (b2 := calls (next b c1) mid) in *.
  unfold admitted, step, Allow. rewrite H2, He, Hst. cbn [negb]. unfold timeSub, minInt64, maxInt64 in *.
  zcase; cbn; [done|lia].
Qed.

(** The read-only queries agree with admission: a request is admitted
    exactly when the breaker is available or a probe is due, and a refused
    request changes nothing and notifies nobody. *)
Theorem allow_iff (b : Breaker) (now : Z) :
  (Allow now b).1.1 = Available b || ProbeDue now b ∧
  ((Allow now b).1.1 = false → Allow now b = (false, b, [])).
Proof.
  unfold Allow, Available, ProbeDue, transitionLocked. destruct (Enabled (settings b)); cbn [negb]; [|done].
  destruct (state b) eqn:Hst; cbn [bool_decide decide_rel State_eq_dec orb]; [done|..].
  - zcase; done.
  - zcase; try done; lia.
Qed.

(** ** Recovery *)

(** Waits are bounded by the latest call made. *)
Definition waitInv (T : Z) (b : Breaker) : Prop :=
  match b.(state) with
  | StateClosed => True
  | StateOpen => b.(deadline) ≤ T + b.(settings).(OpenMax)
  | StateHalfOpen => b.(lastProbeAt) ≤ T
  end.

Lemma waitInv_open T f now b :
  validSettings b.(settings) → intN_ok f → now ≤ T → b.(state) ≠ StateOpen → waitInv T (openLocked f now b).1.
Proof.
  intros Hv Hf Ht Hn. rewrite openLocked_spec by done. unfold waitInv. cbn.
  pose proof (cap_range b Hv) as Hc. destruct Hv as (_ & _ & Hm & _).
  pose proof (fullJitter_range f (backoffCapLocked b) Hf ltac:(lia)). lia.
Qed.

Lemma waitInv_step T b c :
  validSettings b.(settings) → intN_ok c.(cInt64N) → c.(cNow) ≤ T → waitInv T b → waitInv T (next b c).
Proof.
  intros Hv Hf Ht Hw. destruct (Enabled (settings b)) eqn:He; [|revert Hw;
    destruct c as [[] ? ?]; unfold next, step, Allow, RecordSuccess, RecordFailure, Trip; cbn; rewrite ?He; done].
  destruct c as [[] t f]; unfold next, step; cbn [cOp cNow cInt64N fst snd] in *.
  - unfold Allow, transitionLocked. rewrite He. cbn [negb]. destruct (state b) eqn:Hst; cbn [bool_decide decide_rel State_eq_dec];
      [done|..]; zcase; cbn; try done; unfold waitInv; cbn; rewrite ?Hst; done.
  - pose proof (success_closes b (mkCall OSuccess t f) He eq_refl) as Hc. unfold next, step in Hc. cbn in Hc.
    unfold waitInv. by rewrite Hc.
  - unfold RecordFailure. rewrite He. cbn [negb]. destruct (state b) eqn:Hst; [|done|].
    + case_match; [apply waitInv_open; cbn; try done; by rewrite Hst|]. unfold waitInv. cbn. by rewrite Hst.
    + apply waitInv_open; cbn; try done; by rewrite Hst.
  - unfold Trip. rewrite He. cbn [negb]. destruct (state b) eqn:Hst; [|done|];
      (apply waitInv_open; cbn; try done; by rewrite Hst).
  - done.
Qed.

(** C33 A breaker never wedges: once the longest backoff and the probe interval
    have passed since the last call, whatever that history was, the next
    request is admitted, and its success makes the store available again. *)
Theorem breaker_recovers (s : Settings) (sc opc : string) (fn : option callback) (cs : list call) (T t t' : Z)
    (f : Z → Z) :
  int64Settings s → Forall (λ c, intN_ok c.(cInt64N) ∧ c.(cNow) ≤ T) cs →
  let st := withDefaults s in
  let b := calls (newBreaker sc opc s fn) cs in
  T + Z.max st.(OpenMax) st.(HalfOpenInterval) ≤ t →
  admitted b (mkCall OAllow t f) = true ∧
  Available (calls b [mkCall OAllow t f; mkCall OSuccess t' f]) = true.
Proof.
  intros Hs Hcs st b Ht.
  assert (waitInv T b) as Hw.
  { clear Ht. unfold b. clear b. induction cs as [|c cs IH] using rev_ind; [done|].
    apply Forall_app in Hcs as [Hcs [[Hf Hc] _]%Forall_cons].
    rewrite calls_snoc. apply waitInv_step; try done; [|by apply IH].
    rewrite calls_settings. by apply withDefaults_valid. }
  assert (b.(settings) = st) as Hst by (unfold b; by rewrite calls_settings).
  pose proof (withDefaults_valid s Hs) as (_ & _ & _ & Hi). fold st in Hi.
  split.
  - unfold admitted, step, Allow. cbn [cOp cNow]. destruct (Enabled (settings b)); [|done]. cbn [negb].
    unfold waitInv in Hw. rewrite Hst in Hw |- *. destruct (state b); [done|..].
    + zcase; [lia|]. by case_match.
    + unfold timeSub, minInt64, maxInt64 in *. zcase; [lia|done].
  - change (calls b _) with (next (next b (mkCall OAllow t f)) (mkCall OSuccess t' f)).
    unfold Available. rewrite !next_settings. destruct (Enabled (settings b)) eqn:He; [|done]. cbn [negb].
    rewrite success_closes; [done| |done]. by rewrite next_settings.
Qed.

(** ** Notifications *)

(** The legal state changes. *)
Definition legal (from to : State) : bool :=
  match from, to with
  | StateClosed, StateOpen | StateOpen, StateHalfOpen | StateHalfOpen, StateOpen
  | StateOpen, StateClosed | StateHalfOpen, StateClosed => true
  | _, _ => false
  end.

(** A log of transitions that leads from one state to another. *)
Fixpoint path (from : State) (ts : list Transition) (to : State) : Prop :=
  match ts with
  | [] => from = to
  | t :: ts => t.(tFrom) = from ∧ legal from t.(tTo) = true ∧ path t.(tTo) ts to
  end.

Lemma path_app from ts1 mid ts2 to : path from ts1 mid → path mid ts2 to → path from (ts1 ++ ts2) to.
Proof. revert from. induction ts1 as [|t ts1 IH]; cbn; intros from; [by intros ->|]. naive_solver. Qed.

Definition keepsCallback (c : call) : bool := match c.(cOp) with ORewire None => false | _ => true end.

Lemma path_step b c fn :
  b.(onChange) = Some fn → keepsCallback c = true →
  path b.(state) (snd <$> notices b c) (next b c).(state) ∧ is_Some (next b c).(onChange).
Proof.
  intros Hfn Hk. destruct (Enabled (settings b)) eqn:He.
  - bcase b c He; rewrite ?Hfn; repeat case_match; simplify_eq/=; rewrite ?Hfn, ?Hst; split; eauto;
      destruct fn0; eauto; discriminate.
  - destruct c as [[| | | |[]] ? ?]; unfold notices, next, step, Allow, RecordSuccess, RecordFailure, Trip; cbn;
      rewrite ?He; cbn; rewrite ?Hfn; eauto; discriminate.
Qed.

(** The delivered notifications are a faithful log: with a callback
    installed throughout, the transitions of any sequence of calls chain from
    the closed state to the current one through legal changes only, none
    missing and none repeated. *)
Theorem notices_path (s : Settings) (sc opc : string) (fn : callback) (cs : list call) :
  forallb keepsCallback cs = true →
  path StateClosed (snd <$> allNotices (newBreaker sc opc s (Some fn)) cs)
    (calls (newBreaker sc opc s (Some fn)) cs).(state).
Proof.
  assert (∀ b, is_Some b.(onChange) → forallb keepsCallback cs = true →
    path b.(state) (snd <$> allNotices b cs) (calls b cs).(state)) as Hgen.
  { induction cs as [|c cs IH]; intros b [fn' Hfn]; [done|]. cbn [forallb allNotices]. intros [Hc Hcs]%andb_true_iff.
    destruct (path_step b c fn' Hfn Hc) as [Hp Hn]. rewrite fmap_app. eapply path_app; [done|]. by apply IH. }
  intros Hk. apply (Hgen (newBreaker sc opc s (Some fn))); [by eexists|done].
Qed.

(** ** The registry *)

(** What a registry call means for the breaker of one key. *)
Definition projCall (k : Key) (rc : rcall) : option call :=
  match rc with
  | RCall k' c => if decide (k' = k) then Some c else None
  | RWire fn => Some (mkCall (ORewire fn) 0 (λ _, 0))
  end.

(** A key has a breaker once it has been used. *)
Definition used (k : Key) (rcs : list rcall) : bool :=
  existsb (λ rc, match rc with RCall k' _ => bool_decide (k' = k) | RWire _ => false end) rcs.

Lemma rnext_settings r rc : (rnext r rc).(rSettings) = r.(rSettings).
Proof. destruct rc as [k c|fn]; [|done]. unfold rnext, getBreaker. by destruct (breakers r !! k). Qed.

Lemma registry_constants s rcs :
  (foldl rnext (NewRegistry s) rcs).(rSettings) = withDefaults s.
Proof.
  induction rcs as [|rc rcs IH] using rev_ind; [done|]. rewrite foldl_app. cbn [foldl]. by rewrite rnext_settings.
Qed.

Lemma newBreaker_defaults sc opc s fn : newBreaker sc opc (withDefaults s) fn = newBreaker sc opc s fn.
Proof. unfold newBreaker. by rewrite withDefaults_idem. Qed.

(** The registry's invariant for one key. *)
Lemma registry_key s rcs k :
  let r := foldl rnext (NewRegistry s) rcs in
  let b := calls (newBreaker k.1 k.2 s None) (omap (projCall k) rcs) in
  if used k rcs then r.(breakers) !! k = Some b
  else r.(breakers) !! k = None ∧ b = newBreaker k.1 k.2 s r.(rOnChange).
Proof.
  induction rcs as [|rc rcs IH] using rev_ind; [done|]. cbn zeta in *.
  unfold used. rewrite existsb_app. fold (used k rcs). rewrite foldl_app, omap_app. cbn [foldl existsb orb].
  pose proof (registry_constants s rcs) as Hset. set (r := foldl rnext (NewRegistry s) rcs) in *.
  destruct rc as [k' c|fn]; cbn [omap list_omap projCall rnext].
  - rewrite orb_false_r. unfold getBreaker. destruct (decide (k' = k)) as [->|Hk].
    + rewrite bool_decide_true, orb_true_r by done. rewrite calls_snoc. destruct (used k rcs).
      * rewrite IH. cbn. by rewrite lookup_insert_eq.
      * destruct IH as [-> ->]. cbn. by rewrite lookup_insert_eq, Hset, newBreaker_defaults.
    + rewrite bool_decide_false, orb_false_r, app_nil_r by done.
      destruct (used k rcs); destruct (r.(breakers) !! k'); cbn; rewrite ?lookup_insert_ne by done; done.
  - rewrite orb_false_r, calls_snoc. cbn. rewrite lookup_fmap. destruct (used k rcs).
    + by rewrite IH.
    + destruct IH as [-> ->]. done.
Qed.

(** The registry is a family of independent breakers: after any sequence
    of calls and rewirings, the breaker of a key is exactly the one that would
    have received that key's calls (and every rewiring) alone, whenever it was
    created; calls to other keys, interleaved in any way, do not touch it. *)
Theorem registry_independent (s : Settings) (rcs : list rcall) (k : Key) :
  (foldl rnext (NewRegistry s) rcs).(breakers) !! k =
  if used k rcs then Some (calls (newBreaker k.1 k.2 s None) (omap (projCall k) rcs)) else None.
Proof. pose proof (registry_key s rcs k) as H. cbn zeta in H. by destruct (used k rcs); [|destruct H]. Qed.

(** ** Witnesses *)

(** A random source that draws the middle of the range. *)
Definition halfN (n : Z) : Z := n / 2.

Lemma halfN_ok : intN_ok halfN.
Proof. intros n Hn. unfold halfN. pose proof (Z.div_lt n 2). pose proof (Z.div_pos n 2). lia. Qed.

Abbreviation defaults := (mkSettings true 0 0 0 0).
Abbreviation fails t := (mkCall OFailure t halfN).
Abbreviation asks t := (mkCall OAllow t halfN).

Lemma defaults_int64 : int64Settings defaults.
Proof. repeat split; vm_compute; discriminate. Qed.

Lemma closed_iff_witness :
  Available (calls (newBreaker "city" "bd" defaults None) [fails 1; fails 2; mkCall OSuccess 3 halfN; fails 4; fails 5]) = true ↔
  2 < 3 ∧ false = false.
Proof. apply (closed_iff defaults defaults_int64 eq_refl "city" "bd" None [fails 1; fails 2; mkCall OSuccess 3 halfN; fails 4; fails 5]). Defined.

(** The second opening of an episode, after a failed probe. *)
Abbreviation probing := [fails 1; fails 2; fails 3; asks (3 * Second)].
Abbreviation half := (calls (newBreaker "city" "bd" defaults None) probing).
Abbreviation later := (calls (next half (fails (4 * Second))) [asks (4 * Second + 1)]).

Lemma open_episode_witness :
  ∃ wait,
    0 < wait ≤ Z.min (withDefaults defaults).(OpenMax) ((withDefaults defaults).(OpenBase) *
      2 ^ (episodes (newBreaker "city" "bd" defaults None) 0 (probing ++ [fails (4 * Second)]) - 1)) ∧
    (forallb (beforeDeadline (4 * Second + wait)) [asks (4 * Second + 1)] = true →
     (5 * Second < 4 * Second + wait → admitted later (asks (5 * Second)) = false ∧ next later (asks (5 * Second)) = later) ∧
     (4 * Second + wait ≤ 5 * Second → admitted later (asks (5 * Second)) = true ∧
        (next later (asks (5 * Second))).(state) = StateHalfOpen)).
Proof.
  apply (open_episode defaults "city" "bd" None probing (fails (4 * Second))
    [asks (4 * Second + 1)] (5 * Second) halfN defaults_int64 eq_refl halfN_ok);
    [vm_compute; reflexivity|vm_compute; discriminate|vm_compute; reflexivity].
Defined.

Abbreviation openThree := (calls (newBreaker "city" "bd" defaults None) [fails 1; fails 2; fails 3]).

Lemma probe_spacing_witness : 3 * Second + 15 * Second ≤ 18 * Second.
Proof.
  apply (probe_spacing openThree (asks (3 * Second)) (asks (18 * Second)) [asks (4 * Second)]);
    try (vm_compute; reflexivity); [|vm_compute; discriminate].
  rewrite calls_settings. apply withDefaults_valid, defaults_int64.
Defined.

Lemma breaker_recovers_witness :
  admitted openThree (asks (61 * Second)) = true ∧
  Available (calls openThree [asks (61 * Second); mkCall OSuccess (62 * Second) halfN]) = true.
Proof.
  apply (breaker_recovers defaults "city" "bd" None [fails 1; fails 2; fails 3] 3 (61 * Second) (62 * Second) halfN defaults_int64).
  - repeat constructor; try apply halfN_ok; cbn; lia.
  - vm_compute. discriminate.
Defined.

Lemma notices_path_witness :
  path StateClosed (snd <$> allNotices (newBreaker "city" "bd" defaults (Some 7%nat)) [fails 1; fails 2; fails 3; asks (3 * Second)])
    StateHalfOpen.
Proof. apply (notices_path defaults "city" "bd" 7%nat [fails 1; fails 2; fails 3; asks (3 * Second)] eq_refl). Defined.
