(* ===== verification/NudgeQueue.v ===== *)
(** * NudgeQueue: the deferred-nudge queue and its shadow beads

    Models [internal/nudgequeue]: the queue state and its order ([state.go]),
    session scopes ([scope.go]) and the front door that mirrors nudges into
    beads ([store.go]).

    The queue file, the shadow bead store and the clock are effects
    ([nudgeE]); a program runs against any behaviour of them, failures
    included.  A transaction holds the file lock from its load to its write,
    so transactions are atomic with respect to each other. *)

From S2P Require Import Prelude GoBase GoTime GoText Beads ConvMeta Prog.

Local Open Scope Z_scope.

(** ** Data *)

Record Reference := mkReference { refKind : string; refID : string }.

#[export] Instance Reference_eq_dec : EqDecision Reference.
Proof. solve_decision. Defined.

Record Item := mkItem {
  iID : string;
  iBeadID : string;
  iAgent : string;
  iSessionID : string;
  iContinuationEpoch : string;
  iSource : string;
  iMessage : string;
  iReference : option Reference;
  iCreatedAt : Z;
  iDeliverAfter : Z;
  iExpiresAt : Z;
  iAttempts : Z;
  iLastAttemptAt : Z;
  iLastError : string;
  iClaimedAt : Z;
  iLeaseUntil : Z;
  iDeadAt : Z
}.

#[export] Instance Item_eq_dec : EqDecision Item.
Proof. solve_decision. Defined.

(** Field assignments, grouped as the code makes them. *)
Section setters.
Variable i : Item.
Definition setBeadID v :=
  mkItem i.(iID) v i.(iAgent) i.(iSessionID) i.(iContinuationEpoch) i.(iSource) i.(iMessage) i.(iReference)
    i.(iCreatedAt) i.(iDeliverAfter) i.(iExpiresAt) i.(iAttempts) i.(iLastAttemptAt) i.(iLastError)
    i.(iClaimedAt) i.(iLeaseUntil) i.(iDeadAt).
Definition setDeliverAfter v :=
  mkItem i.(iID) i.(iBeadID) i.(iAgent) i.(iSessionID) i.(iContinuationEpoch) i.(iSource) i.(iMessage) i.(iReference)
    i.(iCreatedAt) v i.(iExpiresAt) i.(iAttempts) i.(iLastAttemptAt) i.(iLastError)
    i.(iClaimedAt) i.(iLeaseUntil) i.(iDeadAt).
Definition setAttempt attempts at_ :=
  mkItem i.(iID) i.(iBeadID) i.(iAgent) i.(iSessionID) i.(iContinuationEpoch) i.(iSource) i.(iMessage) i.(iReference)
    i.(iCreatedAt) i.(iDeliverAfter) i.(iExpiresAt) attempts at_ i.(iLastError)
    i.(iClaimedAt) i.(iLeaseUntil) i.(iDeadAt).
Definition setLastError v :=
  mkItem i.(iID) i.(iBeadID) i.(iAgent) i.(iSessionID) i.(iContinuationEpoch) i.(iSource) i.(iMessage) i.(iReference)
    i.(iCreatedAt) i.(iDeliverAfter) i.(iExpiresAt) i.(iAttempts) i.(iLastAttemptAt) v
    i.(iClaimedAt) i.(iLeaseUntil) i.(iDeadAt).
Definition setClaim claimed lease :=
  mkItem i.(iID) i.(iBeadID) i.(iAgent) i.(iSessionID) i.(iContinuationEpoch) i.(iSource) i.(iMessage) i.(iReference)
    i.(iCreatedAt) i.(iDeliverAfter) i.(iExpiresAt) i.(iAttempts) i.(iLastAttemptAt) i.(iLastError)
    claimed lease i.(iDeadAt).
Definition setDeadAt v :=
  mkItem i.(iID) i.(iBeadID) i.(iAgent) i.(iSessionID) i.(iContinuationEpoch) i.(iSource) i.(iMessage) i.(iReference)
    i.(iCreatedAt) i.(iDeliverAfter) i.(iExpiresAt) i.(iAttempts) i.(iLastAttemptAt) i.(iLastError)
    i.(iClaimedAt) i.(iLeaseUntil) v.
End setters.

Record State := mkState { Pending : list Item; InFlight : list Item; Dead : list Item }.

Definition setPending (s : State) (l : list Item) : State := mkState l s.(InFlight) s.(Dead).
Definition setInFlight (s : State) (l : list Item) : State := mkState s.(Pending) l s.(Dead).
Definition setDead (s : State) (l : list Item) : State := mkState s.(Pending) s.(InFlight) l.

(** ** Order *)

(** The comparison shared by the three buckets: two instants, then the ID. *)
Definition itemLess (k1 k2 : Item → Z) (a b : Item) : bool :=
  if negb (k1 a =? k1 b) then k1 a <? k1 b
  else if negb (k2 a =? k2 b) then k2 a <? k2 b
  else sltb a.(iID) b.(iID).

Definition itemLe (k1 k2 : Item → Z) (a b : Item) : Prop := itemLess k1 k2 b a = false.

#[export] Instance itemLe_dec k1 k2 : RelDecision (itemLe k1 k2).
Proof. intros a b. unfold itemLe. apply _. Defined.

(** [sort.SliceStable]: a merge sort keeps equal elements in order. *)
Definition SortState (s : State) : State :=
  mkState (merge_sort (itemLe iDeliverAfter iCreatedAt) s.(Pending))
    (merge_sort (itemLe iLeaseUntil iClaimedAt) s.(InFlight))
    (merge_sort (itemLe iDeadAt iCreatedAt) s.(Dead)).

(** ** Effects *)

(** An error of the bead store: whether it wraps [beads.ErrNotFound], and its
    text. *)
Record storeErr := mkStoreErr { seNotFound : bool; seText : string }.

Definition ofStore (e : storeErr) : error := StoreErr e.(seNotFound) e.(seText).

Inductive nudgeE : Type → Type :=
| Now : nudgeE Z
| QLock : nudgeE (option error) (* mkdir, open and flock *)
| QLoad : nudgeE (State * option error) (* read and decode the file *)
| QWrite (s : State) : nudgeE (option error) (* encode and rewrite the file *)
| OpenStore : nudgeE bool (* openNudgeBeadStore: whether there is a store *)
| BList (q : ListQuery) : nudgeE (list Bead * option storeErr)
| BGet (id : string) : nudgeE (Bead * option storeErr)
| BCreate (b : Bead) : nudgeE (Bead * option storeErr)
| BSetMetadata (id key value : string) : nudgeE (option storeErr)
| BSetMetadataBatch (id : string) (kvs : gmap string string) : nudgeE (option storeErr)
| BClose (id : string) : nudgeE (option storeErr)
| Ping : nudgeE unit (* wake the dispatcher *)
| Warn (id : string) (e : error) : nudgeE unit.

Abbreviation nudge A := (prog nudgeE A).

(** One effect. *)
Definition ask {X} (e : nudgeE X) : nudge X := trigger e.

(** [if err := p; err != nil { return err }; q]. *)
Definition andThen (p : nudge (option error)) (q : nudge (option error)) : nudge (option error) :=
  let* err := p in match err with Some e => Ret (Some e) | None => q end.

(** ** Transactions on the queue file *)

Definition LoadState : nudge (res error State) :=
  let* r := ask QLoad in
  match r.2 with
  | Some e => Ret (Err e)
  | None => Ret (Ok (SortState r.1))
  end.

(** [WithState]: lock, load, change, rewrite.  The callback reports a value
    besides its error; nothing is written when it fails. *)
Definition WithState {A} (zero : A) (fn : State → nudge (A * option error * State)) : nudge (A * option error) :=
  let* err := ask QLock in
  match err with
  | Some e => Ret (zero, Some e)
  | None =>
      let* r := LoadState in
      match r with
      | Err e => Ret (zero, Some e)
      | Ok st =>
          let* out := fn st in
          let '(a, err, st) := out in
          match err with
          | Some e => Ret (a, Some e)
          | None =>
              let* err := ask (QWrite st) in
              Ret (a, option_map (λ e, Wrapf "write nudge queue: %w" [] [e]) err)
          end
      end
  end.

(** ** Scopes *)

Record Scope := mkScope { scSessionID : string; scEpoch : string }.

Definition globalScope : Scope := mkScope "" "".

Section scopes.
Context `{UnicodeTables}.

Definition NewScope (mode sessionID epoch : string) : res error Scope :=
  if (mode == "") || (mode == "global") then Ok globalScope
  else if mode == "session-epoch" then
    if (TrimSpace sessionID == "") || (TrimSpace epoch == "") || (TrimSpace sessionID != sessionID) ||
       (TrimSpace epoch != epoch)
    then Err (Errorf "session-epoch nudge scope requires an exact session ID and continuation epoch" [])
    else Ok (mkScope sessionID epoch)
  else Err (Errorf "unknown nudge queue scope %q" [AStr mode]).
End scopes.

Definition Strict (s : Scope) : bool := s.(scSessionID) != "".

Definition InScope (s : Scope) (item : Item) : bool :=
  negb (Strict s) || ((item.(iSessionID) == s.(scSessionID)) && (item.(iContinuationEpoch) == s.(scEpoch))).

(** The part of a state a scope selects, and the rest. *)
Definition filterState (p : Item → bool) (s : State) : State :=
  mkState (List.filter p s.(Pending)) (List.filter p s.(InFlight)) (List.filter p s.(Dead)).

Definition itemsOf (s : State) : list Item := s.(Pending) ++ s.(InFlight) ++ s.(Dead).

Definition appState (a b : State) : State :=
  mkState (a.(Pending) ++ b.(Pending)) (a.(InFlight) ++ b.(InFlight)) (a.(Dead) ++ b.(Dead)).

Definition hasID (id : string) (l : list Item) : bool := existsb (λ i, i.(iID) == id) l.

(** [Scope.withState], on a strict scope: the callback sees its own
    generation's items only; the foreign ones are put back. *)
Definition scopedBody {A} (s : Scope) (zero : A) (enqueue : option Item)
    (fn : State → nudge (A * option error * State)) (full : State) : nudge (A * option error * State) :=
  let selected := filterState (InScope s) full in
  let foreign := itemsOf (filterState (λ i, negb (InScope s i)) full) in
  if match enqueue with Some item => hasID item.(iID) foreign | None => false end
  then Ret (zero, Some (Errorf "nudge ID %q belongs to a foreign session scope"
         (match enqueue with Some item => [AStr item.(iID)] | None => [] end)), full)
  else match List.find (λ i, hasID i.(iID) foreign) (itemsOf selected) with
  | Some i => Ret (zero, Some (Errorf "nudge ID %q crosses session scopes" [AStr i.(iID)]), full)
  | None =>
    let* out := fn selected in
    let '(a, err, selected) := out in
    match err with
    | Some e => Ret (a, Some e, full)
    | None =>
        if existsb (λ i, negb (InScope s i) || hasID i.(iID) foreign) (itemsOf selected)
        then Ret (a, Some (Errorf "nudge operation escaped session scope" []), full)
        else Ret (a, None, SortState (appState (filterState (λ i, negb (InScope s i)) full) selected))
    end
  end.

Definition scopeState {A} (s : Scope) (zero : A) (enqueue : option Item)
    (fn : State → nudge (A * option error * State)) : nudge (A * option error) :=
  if negb (Strict s) then WithState zero fn else WithState zero (scopedBody s zero enqueue fn).

Definition scopeWithState {A} (s : Scope) (zero : A) := @scopeState A s zero None.

Definition scopeEnqueue {A} (s : Scope) (zero : A) (item : Item) (fn : State → nudge (A * option error * State))
    : nudge (A * option error) :=
  if negb (InScope s item) || (Strict s && (item.(iID) == ""))
  then Ret (zero, Some (Errorf "nudge enqueue is outside the bound session scope" []))
  else scopeState s zero (Some item) fn.

(** ** The front door of the shadow beads *)

Definition nudgeBeadLabel : string := "gc:nudge".
Definition nudgeBeadType : string := "chore".
Definition NudgeLookupLimit : Z := 20.
Definition EnqueueRollbackCloseReason : string := "nudge rollback: enqueue transaction failed".

Definition isTerminalNudgeState (state : string) : bool :=
  bool_decide (state ∈ ["accepted_for_injection"; "injected"; "expired"; "failed"; "superseded"]).

Definition canonicalCloseReason (stateCode : string) : string :=
  if stateCode == "failed" then "nudge failed: queue terminalization rejected delivery"
  else if stateCode == "expired" then "nudge expired past deliver-by deadline"
  else if stateCode == "superseded" then "nudge superseded by newer queued entry"
  else if stateCode == "injected" then "nudge delivered via provider injection"
  else if stateCode == "accepted_for_injection" then "nudge accepted for hook-transport injection"
  else if 20 <=? Z.of_nat (String.length stateCode) then stateCode
  else if stateCode == "" then "nudge terminalized: unknown-state"
  else "nudge terminalized: " +:+ stateCode.

Definition formatOptionalTime (ts : Z) : string := if IsZero ts then "" else FormatRFC3339 ts.

(** Library functions the codec calls: [encoding/json] on a reference,
    [time.Parse(time.RFC3339, _)] and [strconv.Quote]. *)
Class Codec := {
  jsonMarshal : Reference → string;
  jsonUnmarshal : string → option Reference;
  parseTime : string → option Z;
  quote : string → string
}.

(** The front door: [None] is a nil store (every method is then a no-op),
    [Some s] a store bound to a scope. *)
Abbreviation front := (option Scope).

Section store.
Context `{UnicodeTables, Codec}.

Definition marshalReference (ref : option Reference) : string :=
  match ref with None => "" | Some r => jsonMarshal r end.

Definition isMissingNudgeBeadErr (e : storeErr) (beadID : string) : bool :=
  if e.(seNotFound) then true
  else
    let beadID := ToLower (TrimSpace beadID) in
    if beadID == "" then false
    else
      let msg := ToLower e.(seText) in
      Contains msg ("no issue found matching " +:+ ToLower (quote beadID)) ||
      Contains msg ("error resolving " +:+ beadID +:+ ": no issue found") ||
      Contains msg "ambiguous id" ||
      Contains msg "use more characters to disambiguate".

Definition checkScopedBead (s : Scope) (b : Bead) (nudgeID : string) : option error :=
  if Strict s && ((b.(bMetadata).["nudge_id"] != nudgeID) || (b.(bMetadata).["session_id"] != s.(scSessionID)) ||
                  (b.(bMetadata).["continuation_epoch"] != s.(scEpoch)))
  then Some (Errorf "nudge shadow %q is outside the bound session scope" [AStr b.(bID)]) else None.

Record NudgeShadow := mkShadow {
  shID : string;
  shBeadID : string;
  shOpen : bool;
  shState : string;
  shTerminalReason : string;
  shCommitBoundary : string;
  shCloseReason : string;
  shReference : option Reference;
  shAgent : string;
  shSessionID : string;
  shSource : string;
  shMessage : string;
  shDeliverAfter : Z;
  shExpiresAt : Z
}.

Definition decodeNudgeItem (b : Bead) : NudgeShadow :=
  let m := b.(bMetadata) in
  let time raw := if raw == "" then 0 else default 0 (parseTime raw) in
  mkShadow m.["nudge_id"] b.(bID) (b.(bStatus) == "open") m.["state"] m.["terminal_reason"] m.["commit_boundary"]
    m.["close_reason"]
    (if m.["reference_json"] == "" then None else jsonUnmarshal m.["reference_json"])
    m.["agent"] m.["session_id"] m.["source"] m.["message"] (time m.["deliver_after"]) (time m.["expires_at"]).

(** The selection rules of [find] over the listed beads: an open bead first,
    then (closed ones included) a terminal one, then the newest. *)
Fixpoint pickShadow (includeClosed capped : bool) (fallback : option Bead) (items : list Bead) : option Bead :=
  match items with
  | [] => if negb capped && includeClosed then fallback else None
  | item :: items =>
      if item.(bStatus) != "closed" then Some item
      else if negb includeClosed then pickShadow includeClosed capped fallback items
      else if isTerminalNudgeState item.(bMetadata).["state"] then Some item
      else pickShadow includeClosed capped
             (if negb capped then match fallback with None => Some item | _ => fallback end else fallback) items
  end.

Definition shadowQuery (nudgeID : string) (includeClosed : bool) : ListQuery :=
  mkListQuery "" "" ("nudge:" +:+ nudgeID) "" [] "" [] ∅ 0 0 (NudgeLookupLimit + 1) includeClosed false false false
    SortCreatedDesc false TierIssues None.

(** [beads.LookupLimitError]: kind, label and limit. *)
Definition lookupLimitError (nudgeID : string) : error :=
  Errorf "LookupLimitError" [AStr "nudge"; AStr ("nudge:" +:+ nudgeID); AInt NudgeLookupLimit].

Definition find (f : front) (nudgeID : string) (includeClosed : bool) : nudge (res error (option Bead)) :=
  match f with
  | None => Ret (Ok None)
  | Some _ =>
      if nudgeID == "" then Ret (Ok None)
      else
        let* r := ask (BList (shadowQuery nudgeID includeClosed)) in
        match r.2 with
        | Some e => Ret (Err (ofStore e))
        | None =>
            let capped := NudgeLookupLimit <? Z.of_nat (length r.1) in
            match pickShadow includeClosed capped None r.1 with
            | Some b => Ret (Ok (Some b))
            | None => if capped then Ret (Err (lookupLimitError nudgeID)) else Ret (Ok None)
            end
        end
  end.

Definition FindIncludingTerminal (f : front) (nudgeID : string) : nudge (res error (option NudgeShadow)) :=
  let* r := find f nudgeID true in
  Ret (match r with Err e => Err e | Ok o => Ok (decodeNudgeItem <$> o) end).

Definition Find (f : front) (nudgeID : string) : nudge (res error (option NudgeShadow)) :=
  let* r := find f nudgeID false in
  Ret (match r with Err e => Err e | Ok o => Ok (decodeNudgeItem <$> o) end).

Definition saveMeta (item : Item) : gmap string string :=
  list_to_map [("nudge_id", item.(iID)); ("agent", item.(iAgent)); ("session_id", item.(iSessionID));
    ("continuation_epoch", item.(iContinuationEpoch)); ("state", "queued"); ("source", item.(iSource));
    ("message", item.(iMessage)); ("deliver_after", FormatRFC3339 item.(iDeliverAfter));
    ("expires_at", FormatRFC3339 item.(iExpiresAt)); ("reference_json", marshalReference item.(iReference));
    ("last_attempt_at", formatOptionalTime item.(iLastAttemptAt)); ("last_error", item.(iLastError));
    ("terminal_reason", ""); ("commit_boundary", ""); ("terminal_at", "")].

Definition saveBead (item : Item) : Bead :=
  mkBead "" ("nudge:" +:+ item.(iID)) "" nudgeBeadType None 0 0 "" "" "" "" [] ""
    [nudgeBeadLabel; "agent:" +:+ item.(iAgent); "nudge:" +:+ item.(iID); "source:" +:+ item.(iSource)]
    (saveMeta item) [] false false None None 0 0.

(** [Save]: bead ID, whether it was created, error. *)
Definition Save (f : front) (item : Item) : nudge (string * bool * option error) :=
  match f with
  | None => Ret ("", false, None)
  | Some s =>
      if negb (InScope s item) then Ret ("", false, Some (Errorf "nudge save is outside the bound session scope" []))
      else
        let* err :=
          (if Strict s then
             let* r := find f item.(iID) true in
             match r with
             | Err e => Ret (Some e)
             | Ok (Some b) => Ret (checkScopedBead s b item.(iID))
             | Ok None => Ret None
             end
           else Ret None) in
        match err with
        | Some e => Ret ("", false, Some e)
        | None =>
            let* r := find f item.(iID) false in
            match r with
            | Err e => Ret ("", false, Some e)
            | Ok (Some existing) =>
                match checkScopedBead s existing item.(iID) with
                | Some e => Ret ("", false, Some e)
                | None => Ret (existing.(bID), false, None)
                end
            | Ok None =>
                let* r := ask (BCreate (saveBead item)) in
                match r.2 with
                | Some e => Ret ("", false, Some (ofStore e))
                | None => Ret (r.1.(bID), true, None)
                end
            end
        end
  end.

(** What an attempt to stamp and close one bead ends with. *)
Inductive attempt := Done | Missing | Failed (e : error).

Definition fromStore (e : storeErr) (beadID : string) : attempt :=
  if isMissingNudgeBeadErr e beadID then Missing else Failed (ofStore e).

Definition tryTerminalize (s : Scope) (item : Item) (update : gmap string string) (beadID : string) : nudge attempt :=
  if beadID == "" then Ret Missing
  else
    let* guard :=
      (if Strict s then
         let* r := ask (BGet beadID) in
         match r.2 with
         | Some e => Ret (if e.(seNotFound) then Missing else Failed (ofStore e))
         | None => Ret (match checkScopedBead s r.1 item.(iID) with Some e => Failed e | None => Done end)
         end
       else Ret Done) in
    match guard with
    | Done =>
        let* err := ask (BSetMetadataBatch beadID update) in
        match err with
        | Some e => Ret (fromStore e beadID)
        | None =>
            let* err := ask (BClose beadID) in
            match err with
            | Some e => Ret (fromStore e beadID)
            | None => Ret Done
            end
        end
    | g => Ret g
    end.

Definition terminalUpdate (item : Item) (state reason commitBoundary : string) (now : Z) : gmap string string :=
  list_to_map [("state", state); ("last_attempt_at", formatOptionalTime item.(iLastAttemptAt));
    ("last_error", item.(iLastError)); ("terminal_reason", reason); ("commit_boundary", commitBoundary);
    ("terminal_at", FormatRFC3339 now); ("close_reason", canonicalCloseReason state)].

Definition Terminalize (f : front) (item : Item) (state reason commitBoundary : string) (now : Z)
    : nudge (option error) :=
  match f with
  | None => Ret None
  | Some s =>
      if negb (InScope s item) then Ret (Some (Errorf "nudge terminalization is outside the bound session scope" []))
      else
        let update := terminalUpdate item state reason commitBoundary now in
        let* r := tryTerminalize s item update item.(iBeadID) in
        match r with
        | Done => Ret None
        | Failed e => Ret (Some e)
        | Missing =>
            let* r := find f item.(iID) true in
            match r with
            | Err e => Ret (Some e)
            | Ok None => Ret None
            | Ok (Some b) =>
                let* r := tryTerminalize s item update b.(bID) in
                Ret (match r with Failed e => Some e | _ => None end)
            end
        end
  end.

Definition RollbackEnqueue (hasStore : bool) (beadID : string) : nudge (option error) :=
  if negb hasStore || (beadID == "") then Ret None
  else
    let* e1 := ask (BSetMetadata beadID "close_reason" EnqueueRollbackCloseReason) in
    let* e2 := ask (BClose beadID) in
    Ret (match e1, e2 with
         | None, None => None
         | Some e, None | None, Some e => Some (ofStore e)
         | Some e, Some e' => Some (Wrapf "join" [] [ofStore e; ofStore e'])
         end).

Definition SweepStale (hasStore : bool) (beadID closeReason : string) (now : Z) : nudge (option error) :=
  if negb hasStore then Ret None
  else
    let update := list_to_map [("state", "gc-swept"); ("terminal_reason", "gc-swept-stale");
      ("commit_boundary", "gc-swept"); ("terminal_at", FormatRFC3339 now); ("close_reason", closeReason)] in
    let* err := ask (BSetMetadataBatch beadID update) in
    match err with
    | Some e => Ret (Some (Wrapf "nudge %s: set metadata: %w" [AStr beadID] [ofStore e]))
    | None =>
        let* err := ask (BClose beadID) in
        Ret (option_map (λ e, Wrapf "nudge %s: close: %w" [AStr beadID] [ofStore e]) err)
    end.

Definition StaleShadowsBefore (hasStore : bool) (before limit : Z) (liveExcludeIDs : list string)
    : nudge (res error (list NudgeShadow)) :=
  if negb hasStore then Ret (Ok [])
  else
    let limit := if limit <? 0 then 0 else limit in
    let* r := ask (BList (mkListQuery "" "" nudgeBeadLabel "" [] "" [] ∅ before 0 limit false false false false
      SortCreatedAsc false TierBoth None)) in
    match r.2 with
    | Some e => Ret (Err (ofStore e))
    | None => Ret (Ok (List.filter (λ sh,
        negb ((TrimSpace sh.(shID) != "") && bool_decide (TrimSpace sh.(shID) ∈ liveExcludeIDs)))
        (map decodeNudgeItem r.1)))
    end.
End store.
