(* ===== verification/NudgeOps.v ===== *)
(** * NudgeOps: the operations on the nudge queue

    Models the queue operations of [cmd/gc/cmd_nudge.go] (claim, list, enqueue,
    roll back, acknowledge, release, record a failure, and the three
    maintenance passes they start with) and the withdrawals of
    [internal/nudgequeue/waits.go] and [scope.go].

    A loop that filters a bucket in place is a recursion over the bucket with
    the kept prefix as accumulator. *)

From S2P Require Import Prelude GoBase GoTime GoText Beads ConvMeta Prog NudgeQueue.

Local Open Scope Z_scope.

Definition defaultQueuedNudgeTTL : Z := 24 * Hour.
Definition defaultQueuedNudgeClaimTTL : Z := 2 * Minute.
Definition defaultQueuedNudgeRetryDelay : Z := 15 * Second.
Definition defaultQueuedNudgeMaxAttempts : Z := 5.
Definition defaultQueuedNudgeDeadRetention : Z := 1 * Hour.
Definition nudgeEnqueueMaintenanceBudget : Z := 2 * Second.

(** ** Targets *)

(** The fields of [nudgeTarget] the queue reads; [tQualifiedName] is the
    agent's [QualifiedName()], [tMode] its configured queue scope. *)
Record nudgeTarget := mkTarget {
  tMode : string;
  tAlias : string;
  tAliasHistory : list string;
  tIdentity : string;
  tQualifiedName : string;
  tSessionID : string;
  tContinuationEpoch : string;
  tSessionName : string
}.

Definition agentKey (t : nudgeTarget) : string :=
  if t.(tAlias) != "" then t.(tAlias)
  else if t.(tSessionID) != "" then t.(tSessionID)
  else if t.(tQualifiedName) != "" then t.(tQualifiedName)
  else if t.(tIdentity) != "" then t.(tIdentity)
  else t.(tSessionName).

Definition queuedNudgeMatchesTargetFence (t : nudgeTarget) (item : Item) : bool :=
  if (item.(iSessionID) != "") && (item.(iSessionID) != t.(tSessionID)) then false
  else if (item.(iContinuationEpoch) != "") && (item.(iContinuationEpoch) != t.(tContinuationEpoch)) then false
  else true.

Definition splitQueuedNudgesForTarget (t : nudgeTarget) (items : list Item) : list Item * list Item :=
  (List.filter (queuedNudgeMatchesTargetFence t) items,
   List.filter (λ i, negb (queuedNudgeMatchesTargetFence t i)) items).

Definition newQueuedNudgeWithOptions (id agentName message source sessionID epoch : string) (ref : option Reference)
    (now : Z) : Item :=
  mkItem id "" agentName sessionID epoch source message ref now now (now + defaultQueuedNudgeTTL) 0 0 "" 0 0 0.

Definition nudgeQueueHasWork (st : State) : bool :=
  negb (is_empty st.(Pending)) || negb (is_empty st.(InFlight)) || negb (is_empty st.(Dead)).

(** [nudgeMaintenanceStore.frontForState]: open the store only when there is
    something to maintain. *)
Definition frontForState (s : Scope) (st : State) : nudge front :=
  if nudgeQueueHasWork st then let* ok := ask OpenStore in Ret (if ok then Some s else None) else Ret None.

(** [firstNudgeScope] of an optional argument is the argument or the global
    scope; the model's operations take the scope itself. *)

(** Whether an instant that is set has been reached. *)
Definition reached (t now : Z) : bool := negb (IsZero t) && negb (now <? t).

Definition noMaintenanceDeadline : nudge Z := let* t := ask Now in Ret (t + 24 * Hour).

(** [withdrawCandidate]: ID, bead ID and creation time. *)
Abbreviation candidate := (string * string * Z)%type.

(** [beadID] and [created], as the closure of an enqueue leaves them. *)
Abbreviation saved := (string * bool)%type.

Section ops.
Context `{UnicodeTables, Codec}.

Fixpoint addKeys (keys : list string) (raw : list string) : list string :=
  match raw with
  | [] => keys
  | k :: raw =>
      let k := TrimSpace k in
      if (k == "") || bool_decide (k ∈ keys) then addKeys keys raw else addKeys (keys ++ [k]) raw
  end.

Definition queueKeys (t : nudgeTarget) : list string :=
  addKeys (addKeys [] [t.(tAlias); t.(tSessionID); t.(tQualifiedName); t.(tIdentity); t.(tSessionName)])
    t.(tAliasHistory).

Definition matchesQueueAgent (t : nudgeTarget) (agent : string) : bool :=
  let agent := TrimSpace agent in
  if agent == "" then false else bool_decide (agent ∈ queueKeys t).

Definition queueScope (t : nudgeTarget) : res error Scope := NewScope t.(tMode) t.(tSessionID) t.(tContinuationEpoch).

Definition queuedNudgeClaimableForTarget (t : nudgeTarget) (item : Item) : bool :=
  if negb (matchesQueueAgent t item.(iAgent)) then false
  else if item.(iSessionID) != "" then
    if t.(tSessionID) == "" then false else item.(iSessionID) == t.(tSessionID)
  else if (item.(iContinuationEpoch) != "") && (t.(tContinuationEpoch) == "") then false
  else true.

(** ** Maintenance *)

(** An expired item as it goes to the dead bucket. *)
Definition expireItem (now : Z) (item : Item) : Item :=
  let item := setDeadAt item now in
  if item.(iLastError) == "" then setLastError item "expired" else item.

Fixpoint recoverLoop (f : front) (now deadline : Z) (items kept : list Item) (st : State) : nudge State :=
  match items with
  | [] => Ret (setInFlight st kept)
  | item :: rest =>
      let* t := ask Now in
      if deadline <? t then Ret (setInFlight st (kept ++ item :: rest))
      else if reached item.(iExpiresAt) now then
        let item := expireItem now item in
        let* _ := Terminalize f item "expired" item.(iLastError) "" now in
        recoverLoop f now deadline rest kept (setDead st (st.(Dead) ++ [item]))
      else if IsZero item.(iLeaseUntil) || negb (now <? item.(iLeaseUntil)) then
        recoverLoop f now deadline rest kept
          (setPending st (st.(Pending) ++ [setDeliverAfter (setClaim item 0 0) now]))
      else recoverLoop f now deadline rest (kept ++ [item]) st
  end.

Definition recoverExpiredInFlightNudges (f : front) (now deadline : Z) (st : State) : nudge State :=
  let* st := recoverLoop f now deadline st.(InFlight) [] st in Ret (SortState st).

Fixpoint pruneExpiredLoop (f : front) (now deadline : Z) (items kept : list Item) (st : State) : nudge State :=
  match items with
  | [] => Ret (setPending st kept)
  | item :: rest =>
      let* t := ask Now in
      if deadline <? t then Ret (setPending st (kept ++ item :: rest))
      else if reached item.(iExpiresAt) now then
        let item := expireItem now item in
        let* _ := Terminalize f item "expired" item.(iLastError) "" now in
        pruneExpiredLoop f now deadline rest kept (setDead st (st.(Dead) ++ [item]))
      else pruneExpiredLoop f now deadline rest (kept ++ [item]) st
  end.

Definition pruneExpiredQueuedNudges (f : front) (now deadline : Z) (st : State) : nudge State :=
  let* st := pruneExpiredLoop f now deadline st.(Pending) [] st in Ret (SortState st).

Definition terminalStateForDeadQueuedNudge (item : Item) : string :=
  let e := TrimSpace item.(iLastError) in
  if e == "expired" then "expired" else if e == "superseded" then "superseded" else "failed".

(** Whether the lookup shows a terminal shadow. *)
Definition isTerminalShadow (o : option NudgeShadow) : bool :=
  match o with Some sh => isTerminalNudgeState sh.(shState) | None => false end.

(** Whether the shadow of a dead item is confirmed terminal, after the repair
    of one that is not. *)
Definition confirmTerminal (f : front) (now : Z) (item : Item) : nudge bool :=
  let* r := FindIncludingTerminal f item.(iID) in
  match r with
  | Err _ => Ret false
  | Ok o =>
      if isTerminalShadow o then Ret true
      else
        let reason := if TrimSpace item.(iLastError) == "" then "failed" else TrimSpace item.(iLastError) in
        let terminalAt := if negb (IsZero item.(iDeadAt)) then item.(iDeadAt) else now in
        let* err := Terminalize f item (terminalStateForDeadQueuedNudge item) reason "" terminalAt in
        match err with
        | Some _ => Ret false
        | None =>
            let* r := FindIncludingTerminal f item.(iID) in
            Ret (match r with Err _ => false | Ok o => isTerminalShadow o end)
        end
  end.

Fixpoint pruneDeadLoop (f : front) (now deadline : Z) (items kept : list Item) : nudge (list Item) :=
  match items with
  | [] => Ret kept
  | item :: rest =>
      let* t := ask Now in
      if deadline <? t then Ret (kept ++ item :: rest)
      else if item.(iBeadID) == "" then pruneDeadLoop f now deadline rest (kept ++ [item])
      else if is_None f then pruneDeadLoop f now deadline rest (kept ++ [item])
      else
        let* ok := confirmTerminal f now item in
        if negb ok then pruneDeadLoop f now deadline rest (kept ++ [item])
        else if negb (IsZero item.(iDeadAt)) && (item.(iDeadAt) <? now - defaultQueuedNudgeDeadRetention)
        then pruneDeadLoop f now deadline rest kept
        else pruneDeadLoop f now deadline rest (kept ++ [item])
  end.

Definition pruneDeadQueuedNudges (f : front) (now deadline : Z) (st : State) : nudge State :=
  let* dead := pruneDeadLoop f now deadline st.(Dead) [] in Ret (setDead st dead).

(** The three passes every operation starts with. *)
Definition maintain (f : front) (now deadline : Z) (st : State) : nudge State :=
  let* st := recoverExpiredInFlightNudges f now deadline st in
  let* st := pruneExpiredQueuedNudges f now deadline st in
  pruneDeadQueuedNudges f now deadline st.

(** ** Claim and list *)

(** The due items that match, claimed, and the others. *)
Definition due (now : Z) (item : Item) : bool :=
  negb (negb (IsZero item.(iDeliverAfter)) && (now <? item.(iDeliverAfter))).

Fixpoint claimLoop (now : Z) (mtch : Item → bool) (items kept claimed : list Item) : list Item * list Item :=
  match items with
  | [] => (kept, claimed)
  | item :: rest =>
      if negb (mtch item) then claimLoop now mtch rest (kept ++ [item]) claimed
      else if negb (due now item) then claimLoop now mtch rest (kept ++ [item]) claimed
      else claimLoop now mtch rest kept (claimed ++ [setClaim item now (now + defaultQueuedNudgeClaimTTL)])
  end.

Definition claimBody (s : Scope) (now : Z) (mtch : Item → bool) (st : State) : nudge (list Item * option error * State) :=
  let* f := frontForState s st in
  let* deadline := noMaintenanceDeadline in
  let* st := maintain f now deadline st in
  let '(pending, claimed) := claimLoop now mtch st.(Pending) [] [] in
  Ret (claimed, None, SortState (mkState pending (st.(InFlight) ++ claimed) st.(Dead))).

Definition claimDueQueuedNudgesMatching (s : Scope) (now : Z) (mtch : Item → bool) : nudge (list Item * option error) :=
  scopeWithState s [] (claimBody s now mtch).

Definition claimDueQueuedNudgesForTarget (t : nudgeTarget) (now : Z) : nudge (list Item * option error) :=
  match queueScope t with
  | Err e => Ret ([], Some e)
  | Ok s => claimDueQueuedNudgesMatching s now (queuedNudgeClaimableForTarget t)
  end.

Definition listBody (s : Scope) (now : Z) (sel : Item → bool) (st : State) : nudge (State * option error * State) :=
  let* f := frontForState s st in
  let* deadline := noMaintenanceDeadline in
  let* st := maintain f now deadline st in
  Ret (filterState sel st, None, st).

Definition noItems : State := mkState [] [] [].

Definition listQueuedNudges (agentName : string) (now : Z) : nudge (State * option error) :=
  WithState noItems (listBody globalScope now (λ i, i.(iAgent) == agentName)).

Definition listQueuedNudgesForTarget (t : nudgeTarget) (now : Z) : nudge (State * option error) :=
  match queueScope t with
  | Err e => Ret (noItems, Some e)
  | Ok s => scopeWithState s noItems (listBody s now (λ i, matchesQueueAgent t i.(iAgent)))
  end.

(** ** Enqueue *)

Definition queuedNudgeExists (st : State) (id : string) : bool :=
  hasID id st.(Pending) || hasID id st.(InFlight) || hasID id st.(Dead).

Definition matchesSupersession (item existing : Item) : bool :=
  (existing.(iAgent) == item.(iAgent)) && (existing.(iSource) == item.(iSource)) &&
  match existing.(iReference), item.(iReference) with
  | Some r, Some r' => (r.(refKind) == r'.(refKind)) && (r.(refID) == r'.(refID))
  | _, _ => false
  end.

(** One bucket's pass: what stays, what is now dead, or the error that stopped
    it. *)
Fixpoint supersedeLoop (f : front) (item : Item) (now deadline : Z) (items kept dead : list Item)
    : nudge (res error (list Item * list Item)) :=
  match items with
  | [] => Ret (Ok (kept, dead))
  | existing :: rest =>
      let* t := ask Now in
      if deadline <? t then Ret (Ok (kept ++ existing :: rest, dead))
      else if matchesSupersession item existing then
        let existing := setLastError (setDeadAt existing now) "superseded" in
        let* err := Terminalize f existing "superseded" "superseded" "" now in
        match err with
        | Some e => Ret (Err e)
        | None => supersedeLoop f item now deadline rest kept (dead ++ [existing])
        end
      else supersedeLoop f item now deadline rest (kept ++ [existing]) dead
  end.

Definition hasReference (item : Item) : bool :=
  match item.(iReference) with Some r => r.(refID) != "" | None => false end.

Definition supersede (f : front) (item : Item) (now deadline : Z) (st : State) : nudge (res error State) :=
  if negb (hasReference item) then Ret (Ok st)
  else
    let* r := supersedeLoop f item now deadline st.(Pending) [] st.(Dead) in
    match r with
    | Err e => Ret (Err e)
    | Ok (pending, dead) =>
        let* r := supersedeLoop f item now deadline st.(InFlight) [] dead in
        match r with
        | Err e => Ret (Err e)
        | Ok (inFlight, dead) => Ret (Ok (mkState pending inFlight dead))
        end
    end.

(** The transaction of an enqueue, the shadow bead already saved. *)
Definition enqueueState (f : front) (item : Item) (st : State) : nudge (option error * State) :=
  let* now := ask Now in
  let deadline := now + nudgeEnqueueMaintenanceBudget in
  let* st := maintain f now deadline st in
  if queuedNudgeExists st item.(iID) then Ret (None, st)
  else
    let* r := supersede f item now deadline st in
    match r with
    | Err e => Ret (Some e, st)
    | Ok st => Ret (None, SortState (setPending st (st.(Pending) ++ [item])))
    end.

Definition withBeadID (item : Item) (beadID : string) : Item :=
  if beadID != "" then setBeadID item beadID else item.

(** The transaction of an enqueue in the global scope (the bead is saved before
    it) and in a strict one (the bead is saved inside it). *)
Definition enqueueBody (f : front) (item : Item) (st : State) : nudge (unit * option error * State) :=
  let* r := enqueueState f item st in Ret ((), r.1, r.2).

Definition enqueueStrictBody (f : front) (item : Item) (st : State) : nudge (saved * option error * State) :=
  let* r := Save f item in
  let '(beadID, created, err) := r in
  match err with
  | Some e => Ret ((beadID, created), Some e, st)
  | None => let* r := enqueueState f (withBeadID item beadID) st in Ret ((beadID, created), r.1, r.2)
  end.

(** The closing of the shadow bead of an enqueue that failed. *)
Definition rollbackEnqueued (hasStore : bool) (sv : saved) (e : error) : nudge (option error) :=
  if sv.2 && hasStore && (sv.1 != "") then
    let* rb := RollbackEnqueue hasStore sv.1 in
    Ret (Some (match rb with
               | None => e
               | Some rb => Wrapf "join" [] [e; Wrapf "rollback nudge bead %q: %w" [AStr sv.1] [rb]]
               end))
  else Ret (Some e).

(** [given] is whether the caller passed a store. *)
Definition enqueueQueuedNudgeWithStore (given : bool) (item : Item) (s : Scope) : nudge (option error) :=
  if negb (InScope s item) then Ret (Some (Errorf "nudge enqueue is outside the bound session scope" []))
  else
    let* hasStore := (if given then Ret true else ask OpenStore) in
    let f := if hasStore then Some s else None in
    let* r :=
      (if negb (Strict s) then
         let* r := Save f item in
         let '(beadID, created, err) := r in
         let item := withBeadID item beadID in
         match err with
         | Some e => Ret (None, Some e)
         | None =>
             let* r := scopeEnqueue s () item (enqueueBody f item) in
             Ret (Some (beadID, created), r.2)
         end
       else
         let* r := scopeEnqueue s ("", false) item (enqueueStrictBody f item) in
         Ret (Some r.1, r.2)) in
    match r with
    | (_, None) => let* _ := ask Ping in Ret None
    | (None, Some e) => Ret (Some e)
    | (Some sv, Some e) => rollbackEnqueued hasStore sv e
    end.

(** ** Rollback *)

Definition takeQueuedNudgesByID (items : list Item) (id : string) (removed : list Item) : list Item * list Item :=
  (List.filter (λ i, i.(iID) != id) items, removed ++ List.filter (λ i, i.(iID) == id) items).

(** Move the removed items to the dead bucket, terminalizing each. *)
Fixpoint buryLoop (f : front) (now : Z) (reason : string) (removed dead : list Item) : nudge (res error (list Item)) :=
  match removed with
  | [] => Ret (Ok dead)
  | queued :: rest =>
      let queued := setDeadAt (setLastError queued reason) now in
      let* err := Terminalize f queued "failed" reason "" now in
      match err with
      | Some e => Ret (Err e)
      | None => buryLoop f now reason rest (dead ++ [queued])
      end
  end.

Definition rollbackBody (f : front) (now : Z) (id reason : string) (st : State) : nudge (bool * option error * State) :=
  let '(pending, removed) := takeQueuedNudgesByID st.(Pending) id [] in
  let '(inFlight, removed) := takeQueuedNudgesByID st.(InFlight) id removed in
  let* r := buryLoop f now reason removed st.(Dead) in
  Ret (negb (is_empty removed),
       match r with Err e => Some e | Ok _ => None end,
       match r with Err _ => st | Ok dead => SortState (mkState pending inFlight dead) end).

Definition rollbackQueuedNudge (cityPath : string) (f : front) (item : Item) (reason : string) (s : Scope)
    : nudge (option error) :=
  if (cityPath == "") || (item.(iID) == "") then Ret None
  else
    let* now := ask Now in
    let* r := scopeWithState s false (rollbackBody f now item.(iID) reason) in
    match r with
    | (_, Some e) => Ret (Some e)
    | (true, None) => Ret None
    | (false, None) => Terminalize f (setLastError item reason) "failed" reason "" now
    end.

(** ** Acknowledge *)

Fixpoint terminalizeAll (f : front) (items : list Item) (outcome reason commitBoundary : string) (now : Z)
    : nudge (option error) :=
  match items with
  | [] => Ret None
  | item :: rest =>
      andThen (Terminalize f item outcome reason commitBoundary now)
        (terminalizeAll f rest outcome reason commitBoundary now)
  end.

Definition wanted (ids : list string) (item : Item) : bool := bool_decide (item.(iID) ∈ ids).
Definition unwanted (ids : list string) (item : Item) : bool := negb (wanted ids item).

Definition ackBody (s : Scope) (ids : list string) (outcome reason commitBoundary : string) (st : State)
    : nudge (unit * option error * State) :=
  let* now := ask Now in
  let* f := frontForState s st in
  let* deadline := noMaintenanceDeadline in
  let* st := maintain f now deadline st in
  let terminal := List.filter (wanted ids) st.(Pending) ++ List.filter (wanted ids) st.(InFlight) in
  let* err := terminalizeAll f terminal outcome reason commitBoundary now in
  Ret ((), err, mkState (List.filter (unwanted ids) st.(Pending)) (List.filter (unwanted ids) st.(InFlight)) st.(Dead)).

Definition ackQueuedNudgesWithOutcome (ids : list string) (outcome reason commitBoundary : string) (s : Scope)
    : nudge (option error) :=
  if is_empty ids then Ret None
  else let* r := scopeWithState s () (ackBody s ids outcome reason commitBoundary) in Ret r.2.

Definition ackQueuedNudges (ids : list string) (s : Scope) : nudge (option error) :=
  ackQueuedNudgesWithOutcome ids "injected" "" "provider-nudge-return" s.

(** ** Release *)

Definition releaseBody (s : Scope) (ids : list string) (st : State) : nudge (unit * option error * State) :=
  let* now := ask Now in
  let* f := frontForState s st in
  let* deadline := noMaintenanceDeadline in
  let* st := maintain f now deadline st in
  let released := map (λ i, setClaim i 0 0) (List.filter (wanted ids) st.(InFlight)) in
  Ret ((), None, SortState (mkState (st.(Pending) ++ released) (List.filter (unwanted ids) st.(InFlight)) st.(Dead))).

Definition releaseQueuedNudgeClaims (ids : list string) (s : Scope) : nudge (option error) :=
  if is_empty ids then Ret None
  else let* r := scopeWithState s () (releaseBody s ids) in Ret r.2.

(** ** Failure *)

(** The cause of a failed delivery: its text, and whether it is the session
    fence mismatch. *)
Record cause := mkCause { caText : string; caFence : bool }.

(** The updated item, and whether it is dead-lettered. *)
Definition failedQueuedNudge (item : Item) (c : cause) (now : Z) : Item * bool :=
  let item := setClaim (setLastError (setAttempt item (incr64 item.(iAttempts)) now) c.(caText)) 0 0 in
  if c.(caFence) then (setDeadAt item now, true)
  else if (defaultQueuedNudgeMaxAttempts <=? item.(iAttempts)) || reached item.(iExpiresAt) now
  then (setDeadAt item now, true)
  else (setDeliverAfter item (now + defaultQueuedNudgeRetryDelay), false).

(** The wanted items of a bucket after the failure: requeued ones and dead
    ones. *)
Definition failAll (c : cause) (now : Z) (items : list Item) : list Item * list Item :=
  let out := map (λ i, failedQueuedNudge i c now) items in
  (fst <$> List.filter (λ r, negb r.2) out, fst <$> List.filter (λ r, r.2) out).

Definition failureBody (f : front) (ids : list string) (c : cause) (now : Z) (st : State)
    : nudge (list Item * option error * State) :=
  let* deadline := noMaintenanceDeadline in
  let* st := maintain f now deadline st in
  let '(requeued, dead) :=
    failAll c now (List.filter (wanted ids) st.(Pending) ++ List.filter (wanted ids) st.(InFlight)) in
  Ret (dead, None, SortState (mkState (List.filter (unwanted ids) st.(Pending) ++ requeued)
    (List.filter (unwanted ids) st.(InFlight)) (st.(Dead) ++ dead))).

(** The shadow beads of dead-lettered items are marked after the transaction;
    a failure is only reported. *)
Fixpoint markDead (f : front) (now : Z) (items : list Item) : nudge unit :=
  match items with
  | [] => Ret ()
  | item :: rest =>
      let* err := Terminalize f item "failed" item.(iLastError) "" now in
      let* _ := (match err with Some e => ask (Warn item.(iID) e) | None => Ret () end) in
      markDead f now rest
  end.

Definition recordQueuedNudgeFailureDetailed (given : bool) (ids : list string) (c : cause) (now : Z) (s : Scope)
    : nudge (list Item * option error) :=
  if is_empty ids then Ret ([], None)
  else
    let* hasStore := (if given then Ret true else ask OpenStore) in
    let f := if hasStore then Some s else None in
    let* r := scopeWithState s [] (failureBody f ids c now) in
    match r with
    | (_, Some e) => Ret ([], Some e)
    | (dead, None) => let* _ := markDead f now dead in Ret (dead, None)
    end.

(** ** Withdrawal of wait nudges *)

(** In a strict scope: terminalize and drop the wanted items of each bucket. *)
Fixpoint withdrawLoop (f : front) (ids : list string) (items kept : list Item) : nudge (res error (list Item)) :=
  match items with
  | [] => Ret (Ok kept)
  | item :: rest =>
      if negb (wanted ids item) then withdrawLoop f ids rest (kept ++ [item])
      else
        let* now := ask Now in
        let* err := Terminalize f item "failed" "wait-canceled" "delivery-withdrawn" now in
        match err with
        | Some e => Ret (Err e)
        | None => withdrawLoop f ids rest kept
        end
  end.

Definition withdrawBody (f : front) (ids : list string) (st : State) : nudge (unit * option error * State) :=
  let* r := withdrawLoop f ids st.(Pending) [] in
  match r with
  | Err e => Ret ((), Some e, st)
  | Ok pending =>
      let* r := withdrawLoop f ids st.(InFlight) [] in
      match r with
      | Err e => Ret ((), Some e, st)
      | Ok inFlight => Ret ((), None, mkState pending inFlight st.(Dead))
      end
  end.

(** The strict branch of [Scope.WithdrawWaitNudges]. *)
Definition withdrawStrict (hasStore : bool) (cityPath : string) (ids : list string) (s : Scope)
    : nudge (option error) :=
  if is_empty ids || (cityPath == "") then Ret None
  else
    let f := if hasStore then Some s else None in
    let* r := scopeWithState s () (withdrawBody f (List.filter (λ id, id != "") ids)) in Ret r.2.

(** In the global scope: the candidates are read, their beads are marked one
    ID at a time, and what was marked is removed. *)
Fixpoint dedupe (seen : list string) (ids : list string) : list string :=
  match ids with
  | [] => []
  | id :: ids => if (id == "") || bool_decide (id ∈ seen) then dedupe seen ids else id :: dedupe (id :: seen) ids
  end.

Definition candidateForItem (item : Item) : candidate := (item.(iID), item.(iBeadID), item.(iCreatedAt)).

Definition queuedWaitNudgeCandidates (st : State) (id : string) : list candidate :=
  map candidateForItem (List.filter (λ i, i.(iID) == id) (st.(Pending) ++ st.(InFlight))).

Definition filterCandidateItems (items : list Item) (remove : list candidate) : list Item :=
  List.filter (λ i, negb (bool_decide (candidateForItem i ∈ remove))) items.

Definition filterItemsByID (items : list Item) (remove : list string) : list Item :=
  List.filter (unwanted remove) items.

(** A missing bead is not an error. *)
Definition tolerate (e : storeErr) : option error := if e.(seNotFound) then None else Some (ofStore e).

Definition markTerminalBead (beadID now : string) : nudge (option error) :=
  let* err := ask (BSetMetadataBatch beadID (list_to_map [("state", "failed"); ("terminal_reason", "wait-canceled");
    ("commit_boundary", "delivery-withdrawn"); ("terminal_at", now)])) in
  match err with
  | Some e => Ret (tolerate e)
  | None =>
      let* err := ask (BClose beadID) in
      Ret (match err with Some e => tolerate e | None => None end)
  end.

Definition markTerminalBeadByID (beadID now : string) : nudge (option error) :=
  if beadID == "" then Ret None
  else
    let* r := ask (BGet beadID) in
    match r.2 with
    | Some e => Ret (tolerate e)
    | None => if r.1.(bStatus) == "closed" then Ret None else markTerminalBead r.1.(bID) now
    end.

Fixpoint markBeads (items : list Bead) (now : string) : nudge (option error) :=
  match items with
  | [] => Ret None
  | item :: rest =>
      if item.(bStatus) == "closed" then markBeads rest now
      else andThen (markTerminalBead item.(bID) now) (markBeads rest now)
  end.

Definition markTerminal (nudgeID now : string) : nudge (option error) :=
  if nudgeID == "" then Ret None
  else
    let* r := ask (BList (shadowQuery nudgeID false)) in
    match r.2 with
    | Some e => Ret (Some (ofStore e))
    | None => markBeads r.1 now
    end.

Fixpoint markTerminalCandidates (nudgeID : string) (cs : list candidate) (legacy : bool) (seen : list string)
    (now : string) : nudge (option error) :=
  match cs with
  | [] => if legacy then markTerminal nudgeID now else Ret None
  | (_, beadID, _) :: cs =>
      if beadID == "" then markTerminalCandidates nudgeID cs true seen now
      else if bool_decide (beadID ∈ seen) then markTerminalCandidates nudgeID cs legacy seen now
      else andThen (markTerminalBeadByID beadID now) (markTerminalCandidates nudgeID cs legacy (beadID :: seen) now)
  end.

(** The candidates whose beads were marked, and the first error. *)
Fixpoint markIDs (st : State) (ids : list string) (now : string) (toRemove : list candidate) (first : option error)
    : nudge (list candidate * option error) :=
  match ids with
  | [] => Ret (toRemove, first)
  | id :: ids =>
      let cs := queuedWaitNudgeCandidates st id in
      if is_empty cs then markIDs st ids now toRemove first
      else
        let* err := markTerminalCandidates id cs false [] now in
        match err with
        | Some e => markIDs st ids now toRemove (match first with None => Some e | _ => first end)
        | None => markIDs st ids now (toRemove ++ cs) first
        end
  end.

Definition WithdrawWaitNudges (hasStore : bool) (cityPath : string) (ids : list string) : nudge (option error) :=
  let unique := dedupe [] ids in
  if is_empty unique || (cityPath == "") then Ret None
  else
    let* t := ask Now in
    let now := FormatRFC3339 t in
    if negb hasStore then
      let* r := WithState () (λ st, Ret ((), None,
        mkState (filterItemsByID st.(Pending) unique) (filterItemsByID st.(InFlight) unique) st.(Dead))) in
      Ret r.2
    else
      let* r := WithState noItems (λ st, Ret (st, None, st)) in
      match r with
      | (_, Some e) => Ret (Some e)
      | (st, None) =>
          let* r := markIDs st unique now [] None in
          let '(toRemove, first) := r in
          if is_empty toRemove then Ret first
          else
            let* r := WithState () (λ st, Ret ((), None,
              mkState (filterCandidateItems st.(Pending) toRemove) (filterCandidateItems st.(InFlight) toRemove)
                st.(Dead))) in
            match r.2, first with
            | Some e, Some e0 => Ret (Some (Wrapf "join" [] [e0; e]))
            | Some e, None => Ret (Some e)
            | None, _ => Ret first
            end
      end.

Definition scopeWithdrawWaitNudges (s : Scope) (hasStore : bool) (cityPath : string) (ids : list string)
    : nudge (option error) :=
  if negb (Strict s) then WithdrawWaitNudges hasStore cityPath ids else withdrawStrict hasStore cityPath ids s.
End ops.
