(* ===== verification/NudgeProps.v ===== *)
(** * NudgeProps: nothing is lost and nothing is duplicated

    The program logic of queue transactions, the specification of the
    maintenance passes, and the two invariants every operation keeps: each
    nudge is accounted for, and nudge IDs stay unique. *)

From S2P Require Import Prelude GoBase GoTime GoText Beads ConvMeta Prog NudgeQueue NudgeOps.

Local Open Scope Z_scope.

(** ** Transaction bodies *)

(** The effects that do not touch the queue file. *)
Definition quiet {X} (e : nudgeE X) : Prop :=
  match e with QLock | QLoad | QWrite _ => False | _ => True end.

(** Whatever the clock and the bead store answer, [p] leaves the queue file
    alone and returns a value in [Q]. *)
Fixpoint spec {A} (p : nudge A) (Q : A → Prop) : Prop :=
  match p with
  | Ret a => Q a
  | Vis e k => quiet e ∧ ∀ x, spec (k x) Q
  end.

Lemma spec_mono {A} (p : nudge A) (Q Q' : A → Prop) : spec p Q → (∀ a, Q a → Q' a) → spec p Q'.
Proof. intros Hp HQ. induction p as [a|X e k IH]; cbn in *; [auto|]. destruct Hp as [He Hk]. eauto. Qed.

Lemma spec_bind {A B} (p : nudge A) (f : A → nudge B) (R : A → Prop) (Q : B → Prop) :
  spec p R → (∀ a, R a → spec (f a) Q) → spec (bind p f) Q.
Proof. intros Hp Hf. induction p as [a|X e k IH]; cbn in *; [auto|]. destruct Hp as [He Hk]. eauto. Qed.

#[export] Hint Extern 0 (spec (ask _) _) => exact (conj I (λ _, I)) : gc.

(** A program that is only run for its effects on the bead store. *)
Abbreviation silent p := (spec p (λ _, True)).

Lemma spec_silent {A B} (p : nudge A) (f : A → nudge B) (Q : B → Prop) :
  silent p → (∀ a, spec (f a) Q) → spec (bind p f) Q.
Proof. intros Hp Hf. eapply spec_bind; [done|]. auto. Qed.

(** Steps through a program whose results do not matter. *)
Ltac silently :=
  repeat first
    [ done
    | solve [auto with gc]
    | apply spec_silent; [solve [auto with gc]|intros ?]
    | match goal with
      | |- context [match ?x with _ => _ end] => destruct x
      end
    | progress cbn [spec] ].

Section silent.
Context `{UnicodeTables, Codec}.

Lemma find_silent f id c : silent (find f id c).
Proof. unfold find. silently. Qed.
Hint Resolve find_silent : gc.

Lemma FindIncludingTerminal_silent f id : silent (FindIncludingTerminal f id).
Proof. unfold FindIncludingTerminal. silently. Qed.

Lemma tryTerminalize_silent s item u id : silent (tryTerminalize s item u id).
Proof.
  unfold tryTerminalize. destruct (_ == _); [done|]. apply spec_silent; [by silently|]. intros g. silently.
Qed.
Hint Resolve tryTerminalize_silent : gc.

Lemma Terminalize_silent f item st r c now : silent (Terminalize f item st r c now).
Proof. unfold Terminalize. silently. Qed.

Lemma Save_silent f item : silent (Save f item).
Proof.
  unfold Save. destruct f as [s|]; [|done]. destruct (negb _); [done|].
  apply spec_silent; [by silently|]. intros err. silently.
Qed.
End silent.

#[export] Hint Resolve find_silent FindIncludingTerminal_silent tryTerminalize_silent Terminalize_silent Save_silent : gc.

(** ** Queue files *)

(** What the queue relies on of its file: a load that succeeds returns what
    was last written, a write replaces the whole content or (on error) leaves
    it alone, and nothing else touches it.  The clock and the bead store may
    answer anything. *)
Class QueueFile {T} (h : machine nudgeE T) (file : T → State) : Prop := {
  qf_load t : (h _ QLoad t).1.2 = None → (h _ QLoad t).1.1 = file t;
  qf_write st t : (h _ (QWrite st) t).1 = None → file (h _ (QWrite st) t).2 = st;
  qf_write_err st t : (h _ (QWrite st) t).1 ≠ None → file (h _ (QWrite st) t).2 = file t;
  qf_frame X (e : nudgeE X) t : (match e with QWrite _ => False | _ => True end) → file (h _ e t).2 = file t
}.

Section file.
Context {T} (h : machine nudgeE T) (file : T → State) `{!QueueFile h file}.

Lemma run_spec {A} (p : nudge A) Q t : spec p Q → Q (run h p t).1 ∧ file (run h p t).2 = file t.
Proof using Type*.
  revert t. induction p as [a|X e k IH]; intros t Hp; cbn in *; [done|]. destruct Hp as [He Hk].
  destruct (h X e t) as [x t'] eqn:Heq. destruct (IH x t' (Hk x)) as [HQ Hf]. split; [done|].
  rewrite Hf. pose proof (qf_frame X e t) as Hfr. rewrite Heq in Hfr. apply Hfr. by destruct e.
Qed.

(** A transaction fails and leaves the file as it was, or writes what its body
    returned without error on the sorted content. *)
Lemma run_WithState_cases {A} (zero : A) fn t :
  (∀ st, silent (fn (SortState st))) →
  let r := run h (WithState zero fn) t in
  (r.1.2 ≠ None ∧ file r.2 = file t) ∨
  (r.1.2 = None ∧ ∃ t2, let out := run h (fn (SortState (file t))) t2 in
     out.1 = (r.1.1, None, file r.2)).
Proof using Type*.
  intros Hfn. unfold WithState, LoadState. cbn zeta. rewrite run_bind. cbn [run ask trigger].
  destruct (h _ QLock t) as [e t1] eqn:Hl. cbn [run]. pose proof (qf_frame _ QLock t I) as H1. rewrite Hl in H1. cbn in H1.
  destruct e as [e|]; [left; cbn; done|]. cbn [run bind]. rewrite !run_bind. cbn [run ask trigger bind].
  pose proof (qf_frame _ QLoad t1 I) as H2. pose proof (qf_load t1) as H3.
  destruct (h _ QLoad t1) as [[st e] t2] eqn:Hq. cbn [fst snd run] in *.
  destruct e as [e|]; [left; cbn; split; [done|congruence]|]. cbn [run bind]. rewrite run_bind.
  specialize (H3 eq_refl). subst st. rewrite H1 in *.
  destruct (run_spec (fn (SortState (file t))) _ t2 (Hfn _)) as [_ Hf].
  destruct (run h (fn (SortState (file t))) t2) as [[[a err] st'] t3] eqn:Hr. cbn [fst snd] in *.
  destruct err as [e|]; [left; cbn; split; [done|congruence]|]. cbn [run bind ask trigger].
  pose proof (qf_write_err st' t3) as H4. pose proof (qf_write st' t3) as H5.
  destruct (h _ (QWrite st') t3) as [[w|] t4]; cbn [run fst snd option_map] in *.
  - left. split; [done|]. rewrite H4 by done. congruence.
  - right. split; [done|]. exists t2. rewrite Hr. cbn. by rewrite H5.
Qed.

Lemma run_WithState {A} (zero : A) fn (R : State → State → Prop) (Q : A → State → State → Prop) t :
  (∀ st, spec (fn (SortState st)) (λ out, out.1.2 = None → R st out.2 ∧ Q out.1.1 st out.2)) →
  let r := run h (WithState zero fn) t in
  (r.1.2 ≠ None ∧ file r.2 = file t) ∨ (r.1.2 = None ∧ R (file t) (file r.2) ∧ Q r.1.1 (file t) (file r.2)).
Proof using Type*.
  intros Hfn r. destruct (run_WithState_cases zero fn t) as [?|(He & t2 & Ho)];
    [intros st; eapply spec_mono; [apply Hfn|auto]|by left|right]. fold r in He, Ho.
  destruct (run_spec (fn (SortState (file t))) _ t2 (Hfn (file t))) as [Hs _].
  rewrite Ho in Hs. split; [done|]. by apply Hs.
Qed.
End file.

(** ** Accounting *)

(** What identifies a nudge and never changes while it is queued. *)
Definition core (i : Item) :=
  (i.(iID), i.(iBeadID), i.(iAgent), i.(iSessionID), i.(iContinuationEpoch), i.(iSource), i.(iMessage), i.(iReference),
   i.(iCreatedAt), i.(iExpiresAt)).

Abbreviation cores l := (core <$> l).

Definition idOf (i : Item) : string := i.(iID).
Abbreviation ids l := (idOf <$> l).

Definition uniqueIDs (st : State) : Prop := NoDup (ids (itemsOf st)).

Lemma ids_cores l l' : cores l ≡ₚ cores l' → ids l ≡ₚ ids l'.
Proof.
  assert (∀ k, ids k = map (λ c, c.1.1.1.1.1.1.1.1.1) (cores k)) as Hk.
  { intros k. induction k as [|i k IH]; [done|]. cbn. by rewrite IH. }
  intros Hp. rewrite !Hk. by apply Permutation_map.
Qed.

Lemma sort_items st : itemsOf (SortState st) ≡ₚ itemsOf st.
Proof. unfold itemsOf, SortState. cbn. by rewrite !merge_sort_Permutation. Qed.

Lemma sort_buckets st :
  (SortState st).(Pending) ≡ₚ st.(Pending) ∧ (SortState st).(InFlight) ≡ₚ st.(InFlight) ∧
  (SortState st).(Dead) ≡ₚ st.(Dead).
Proof. unfold SortState. cbn. by rewrite !merge_sort_Permutation. Qed.

(** [st'] holds the nudges of [st] and the new ones, except those gone. *)
Definition accounted (gone : Item → Prop) (new : list Item) (st st' : State) : Prop :=
  ∃ removed, Forall gone removed ∧
    cores (itemsOf st) ++ cores new ≡ₚ cores (itemsOf st') ++ cores removed.

(** ** Maintenance *)

Definition leaseOver (now : Z) (i : Item) : bool := IsZero i.(iLeaseUntil) || negb (now <? i.(iLeaseUntil)).

(** An item returned to the pending bucket after its lease. *)
Definition requeue (now : Z) (i : Item) : Item := setDeliverAfter (setClaim i 0 0) now.

(** Dead for longer than the retention, with a shadow bead. *)
Definition longDead (now : Z) (i : Item) : Prop :=
  i.(iBeadID) ≠ "" ∧ i.(iDeadAt) ≠ 0 ∧ i.(iDeadAt) < now - defaultQueuedNudgeDeadRetention.

Lemma core_expire now i : core (expireItem now i) = core i.
Proof. unfold expireItem. by case_match. Qed.

Lemma dead_expire now i : iDeadAt (expireItem now i) = now.
Proof. unfold expireItem. by case_match. Qed.

(** What a pass makes of the items it goes through: some go back to pending,
    some are dead, the others stay. *)
Record swept (now : Z) (items back dead stay : list Item) : Prop := {
  sw_all : cores back ++ cores dead ++ cores stay ≡ₚ cores items;
  sw_back i : i ∈ back → ∃ j, j ∈ items ∧ i = requeue now j ∧ leaseOver now j = true;
  sw_dead i : i ∈ dead → ∃ j, j ∈ items ∧ i = expireItem now j ∧ reached j.(iExpiresAt) now = true;
  sw_stay i : i ∈ stay → i ∈ items
}.

Lemma swept_stay now items : swept now items [] [] items.
Proof. split; [done|set_solver..]. Qed.

Lemma swept_cons_dead now item items back dead stay :
  reached item.(iExpiresAt) now = true → swept now items back dead stay →
  swept now (item :: items) back (expireItem now item :: dead) stay.
Proof.
  intros Hr [H1 H2 H3 H4]. split; cbn.
  - rewrite core_expire, <-H1. by rewrite <-Permutation_middle.
  - intros i Hi. destruct (H2 i Hi) as (j & ? & ? & ?). exists j. split; [by right|done].
  - intros i [->|Hi]%elem_of_cons; [exists item; split; [by left|done]|].
    destruct (H3 i Hi) as (j & ? & ? & ?). exists j. split; [by right|done].
  - intros i Hi. right. auto.
Qed.

Lemma swept_cons_back now item items back dead stay :
  leaseOver now item = true → swept now items back dead stay →
  swept now (item :: items) (requeue now item :: back) dead stay.
Proof.
  intros Hr [H1 H2 H3 H4]. split; cbn.
  - by rewrite <-H1.
  - intros i [->|Hi]%elem_of_cons; [exists item; split; [by left|done]|].
    destruct (H2 i Hi) as (j & ? & ? & ?). exists j. split; [by right|done].
  - intros i Hi. destruct (H3 i Hi) as (j & ? & ? & ?). exists j. split; [by right|done].
  - intros i Hi. right. auto.
Qed.

Lemma swept_cons_stay now item items back dead stay :
  swept now items back dead stay → swept now (item :: items) back dead (item :: stay).
Proof.
  intros [H1 H2 H3 H4]. split; cbn.
  - rewrite <-H1. solve_Permutation.
  - intros i Hi. destruct (H2 i Hi) as (j & ? & ? & ?). exists j. split; [by right|done].
  - intros i Hi. destruct (H3 i Hi) as (j & ? & ? & ?). exists j. split; [by right|done].
  - intros i [->|Hi]%elem_of_cons; [by left|right; auto].
Qed.

Section maintenance.
Context `{UnicodeTables, Codec}.

Lemma recoverLoop_spec f now deadline items kept st :
  spec (recoverLoop f now deadline items kept st) (λ st', ∃ back dead stay, swept now items back dead stay ∧
    st' = mkState (st.(Pending) ++ back) (kept ++ stay) (st.(Dead) ++ dead)).
Proof.
  revert kept st. induction items as [|item items IH]; intros kept st; cbn [recoverLoop].
  { exists [], [], []. split; [apply swept_stay|]. by rewrite !app_nil_r. }
  apply spec_silent; [auto with gc|]. intros t. destruct (deadline <? t).
  { exists [], [], (item :: items). split; [apply swept_stay|]. by rewrite !app_nil_r. }
  destruct (reached _ _) eqn:Hr.
  { apply spec_silent; [auto with gc|]. intros _. eapply spec_mono; [apply IH|].
    intros st' (back & dead & stay & Hs & ->). exists back, (expireItem now item :: dead), stay.
    split; [by apply swept_cons_dead|]. cbn. by rewrite <-app_assoc. }
  destruct (IsZero _ || _) eqn:Hl; (eapply spec_mono; [apply IH|]); intros st' (back & dead & stay & Hs & ->).
  - exists (requeue now item :: back), dead, stay. split; [by apply swept_cons_back|]. cbn. by rewrite <-app_assoc.
  - exists back, dead, (item :: stay). split; [by apply swept_cons_stay|]. cbn. by rewrite <-app_assoc.
Qed.

Lemma pruneExpiredLoop_spec f now deadline items kept st :
  spec (pruneExpiredLoop f now deadline items kept st) (λ st', ∃ dead stay, swept now items [] dead stay ∧
    st' = mkState (kept ++ stay) st.(InFlight) (st.(Dead) ++ dead)).
Proof.
  revert kept st. induction items as [|item items IH]; intros kept st; cbn [pruneExpiredLoop].
  { exists [], []. split; [apply swept_stay|]. by rewrite !app_nil_r. }
  apply spec_silent; [auto with gc|]. intros t. destruct (deadline <? t).
  { exists [], (item :: items). split; [apply swept_stay|]. by rewrite !app_nil_r. }
  destruct (reached _ _) eqn:Hr.
  - apply spec_silent; [auto with gc|]. intros _. eapply spec_mono; [apply IH|].
    intros st' (dead & stay & Hs & ->). exists (expireItem now item :: dead), stay.
    split; [by apply swept_cons_dead|]. cbn. by rewrite <-app_assoc.
  - eapply spec_mono; [apply IH|]. intros st' (dead & stay & Hs & ->).
    exists dead, (item :: stay). split; [by apply swept_cons_stay|]. cbn. by rewrite <-app_assoc.
Qed.

Lemma confirmTerminal_silent f now item : silent (confirmTerminal f now item).
Proof. unfold confirmTerminal. silently. Qed.
Hint Resolve confirmTerminal_silent : gc.

Lemma pruneDeadLoop_spec f now deadline items kept :
  spec (pruneDeadLoop f now deadline items kept) (λ dead, ∃ stay removed, dead = kept ++ stay ∧
    items ≡ₚ stay ++ removed ∧ Forall (longDead now) removed).
Proof.
  revert kept. induction items as [|item items IH]; intros kept; cbn [pruneDeadLoop].
  { exists [], []. rewrite app_nil_r. split_and!; [done|done|constructor]. }
  assert (∀ kept, spec (pruneDeadLoop f now deadline items (kept ++ [item])) (λ dead, ∃ stay removed,
    dead = kept ++ stay ∧ item :: items ≡ₚ stay ++ removed ∧ Forall (longDead now) removed)) as Hkeep.
  { intros k. eapply spec_mono; [apply IH|]. intros dead (stay & removed & -> & Hp & Hf).
    exists (item :: stay), removed. rewrite <-app_assoc. split_and!; [done|by rewrite Hp|done]. }
  apply spec_silent; [auto with gc|]. intros t. destruct (deadline <? t).
  { exists (item :: items), []. rewrite app_nil_r. split_and!; [done|done|constructor]. }
  destruct (bool_decide (item.(iBeadID) = "")) eqn:Hb; [apply Hkeep|]. destruct (is_None f); [apply Hkeep|].
  apply spec_silent; [auto with gc|]. intros [|]; cbn [negb]; [|apply Hkeep].
  destruct (negb _ && _) eqn:Hold; [|apply Hkeep].
  eapply spec_mono; [apply IH|]. intros dead (stay & removed & -> & Hp & Hf).
  exists stay, (item :: removed). split_and!; [done|rewrite Hp; by rewrite Permutation_middle|].
  constructor; [|done]. bsplit. split_and!; [done|by apply Z.eqb_neq|by apply Z.ltb_lt].
Qed.

Lemma recover_spec f now deadline st :
  spec (recoverExpiredInFlightNudges f now deadline st) (λ st', ∃ back dead stay,
    swept now st.(InFlight) back dead stay ∧ st' = SortState (mkState (st.(Pending) ++ back) stay (st.(Dead) ++ dead))).
Proof. eapply spec_bind; [apply recoverLoop_spec|]. intros st' (back & dead & stay & Hs & ->). cbn. by exists back, dead, stay. Qed.

Lemma pruneExpired_spec f now deadline st :
  spec (pruneExpiredQueuedNudges f now deadline st) (λ st', ∃ dead stay,
    swept now st.(Pending) [] dead stay ∧ st' = SortState (mkState stay st.(InFlight) (st.(Dead) ++ dead))).
Proof. eapply spec_bind; [apply pruneExpiredLoop_spec|]. intros st' (dead & stay & Hs & ->). cbn. by exists dead, stay. Qed.

(** What the three passes do to a state. *)
Record maintained (now : Z) (st st' : State) : Prop := {
  mt_all : ∃ removed, Forall (λ i, i ∈ st.(Dead) ∧ longDead now i) removed ∧
    cores (itemsOf st) ≡ₚ cores (itemsOf st') ++ cores removed;
  mt_pending i : i ∈ st'.(Pending) →
    i ∈ st.(Pending) ∨ ∃ j, j ∈ st.(InFlight) ∧ i = requeue now j ∧ leaseOver now j = true;
  mt_inflight i : i ∈ st'.(InFlight) → i ∈ st.(InFlight)
}.

Lemma maintain_spec f now deadline st : spec (maintain f now deadline st) (maintained now st).
Proof.
  unfold maintain, pruneDeadQueuedNudges.
  eapply spec_bind; [apply recover_spec|]. intros ? (back & dead1 & stay1 & Hs1 & ->). set (st1 := SortState _).
  eapply spec_bind; [apply pruneExpired_spec|]. intros ? (dead2 & stay2 & Hs2 & ->). set (st2 := SortState _).
  eapply spec_bind; [apply pruneDeadLoop_spec|]. intros dead' (stay3 & removed & -> & Hp3 & Hold). cbn.
  destruct (sort_buckets (mkState (Pending st ++ back) stay1 (Dead st ++ dead1))) as (P1 & I1 & D1). fold st1 in P1, I1, D1.
  destruct (sort_buckets (mkState stay2 (InFlight st1) (Dead st1 ++ dead2))) as (P2 & I2 & D2). fold st2 in P2, I2, D2. clearbody st2; clearbody st1.
  cbn [Pending InFlight Dead app] in *. split; cbn [Pending InFlight Dead].
  - exists removed. split.
    + rewrite Forall_forall in Hold |- *. intros i Hi. split; [|by apply Hold].
      assert (i ∈ Dead st2) as Hi2 by (rewrite Hp3; set_solver).
      rewrite D2, D1 in Hi2. destruct (Hold i Hi) as (_ & _ & Hlt).
      assert (iDeadAt i = now → False) as Hnow.
      { unfold defaultQueuedNudgeDeadRetention, Hour, Minute, Second, Millisecond in Hlt. lia. }
      apply elem_of_app in Hi2 as [[Hi2|Hi2]%elem_of_app|Hi2]; [done|exfalso; apply Hnow..].
      * destruct (sw_dead _ _ _ _ _ Hs1 i Hi2) as (j & _ & -> & _). apply dead_expire.
      * destruct (sw_dead _ _ _ _ _ Hs2 i Hi2) as (j & _ & -> & _). apply dead_expire.
    + unfold itemsOf. cbn. rewrite !fmap_app.
      rewrite P2, I2, I1. pose proof (sw_all _ _ _ _ _ Hs1) as A1. pose proof (sw_all _ _ _ _ _ Hs2) as A2.
      cbn in A2. rewrite P1 in A2. rewrite fmap_app in A2.
      assert (cores (Dead st) ++ cores dead1 ++ cores dead2 ≡ₚ cores stay3 ++ cores removed) as A3.
      { rewrite <-!fmap_app, <-Hp3, D2, D1. by rewrite <-app_assoc. }
      transitivity ((cores (Pending st) ++ cores back) ++ (cores dead1 ++ cores stay1) ++ cores (Dead st)).
      { rewrite <-A1. solve_Permutation. }
      rewrite <-A2. transitivity (cores stay2 ++ cores stay1 ++ (cores (Dead st) ++ cores dead1 ++ cores dead2)).
      { solve_Permutation. }
      rewrite A3. solve_Permutation.
  - intros i Hi. rewrite P2 in Hi. apply (sw_stay _ _ _ _ _ Hs2) in Hi. rewrite P1 in Hi.
    apply elem_of_app in Hi as [Hi|Hi]; [by left|]. right. by apply (sw_back _ _ _ _ _ Hs1).
  - intros i Hi. rewrite I2, I1 in Hi. by apply (sw_stay _ _ _ _ _ Hs1).
Qed.
End maintenance.

(** ** What every operation keeps *)

(** The items an operation may drop: dead ones with a shadow bead, and those
    it was asked to remove. *)
Definition goneFrom (st : State) (gids : list string) (i : Item) : Prop :=
  (i ∈ st.(Dead) ∧ i.(iBeadID) ≠ "" ∧ i.(iDeadAt) ≠ 0) ∨ i.(iID) ∈ gids.

(** Nothing else is lost, only [news] may be added, and IDs stay unique. *)
Definition keeps (gids : list string) (news : list Item → Prop) (st st' : State) : Prop :=
  (∃ new, news new ∧ accounted (goneFrom st gids) new st st') ∧ (uniqueIDs st → uniqueIDs st').

Abbreviation noNews := (λ new : list Item, new = []).

Lemma unique_perm st st' : cores (itemsOf st) ≡ₚ cores (itemsOf st') → uniqueIDs st → uniqueIDs st'.
Proof. unfold uniqueIDs. intros Hp Hu. by rewrite <-(ids_cores _ _ Hp). Qed.

Lemma unique_prefix l l' k : cores l ≡ₚ cores l' ++ cores k → NoDup (ids l) → NoDup (ids l').
Proof. rewrite <-fmap_app. intros Hp. rewrite (ids_cores _ _ Hp), fmap_app, NoDup_app. by intros [? _]. Qed.

(** A step that drops wanted items only. *)
Definition drops (gids : list string) (st st' : State) : Prop :=
  ∃ removed, Forall (λ i, i.(iID) ∈ gids) removed ∧ cores (itemsOf st) ≡ₚ cores (itemsOf st') ++ cores removed.

Lemma drops_perm gids st st' : cores (itemsOf st) ≡ₚ cores (itemsOf st') → drops gids st st'.
Proof. intros Hp. exists []. split; [constructor|]. cbn. by rewrite app_nil_r. Qed.

Lemma drops_unique gids st st' : drops gids st st' → uniqueIDs st → uniqueIDs st'.
Proof. intros (removed & _ & Hp). by apply unique_prefix with removed. Qed.

Lemma maintained_gone now st st1 :
  maintained now st st1 → ∃ removed, Forall (goneFrom st []) removed ∧
    cores (itemsOf st) ≡ₚ cores (itemsOf st1) ++ cores removed.
Proof.
  intros [(removed & Hf & Hp) _ _]. exists removed. split; [|done].
  eapply Forall_impl; [exact Hf|]. intros i (? & ? & ? & _). by left.
Qed.

Lemma maintained_unique now st st1 : maintained now st st1 → uniqueIDs st → uniqueIDs st1.
Proof. intros Hm. destruct (maintained_gone _ _ _ Hm) as (removed & _ & Hp). by apply unique_prefix with removed. Qed.

Lemma goneFrom_mono st gids gids' i : gids ⊆ gids' → goneFrom st gids i → goneFrom st gids' i.
Proof. intros Hs [?|?]; [by left|right; auto]. Qed.

Lemma keeps_step gids now st st1 st2 :
  maintained now st st1 → drops gids st1 st2 → keeps gids noNews st st2.
Proof.
  intros Hm Hd. split; [|intros Hu; eapply drops_unique; [done|]; by eapply maintained_unique].
  destruct (maintained_gone _ _ _ Hm) as (r1 & Hf1 & Hp1). destruct Hd as (r2 & Hf2 & Hp2).
  exists []. split; [done|]. exists (r2 ++ r1). split.
  - apply Forall_app. split; (eapply Forall_impl; [eassumption|]).
    + intros i Hi. by right.
    + intros i. apply goneFrom_mono. set_solver.
  - cbn. rewrite app_nil_r, Hp1, Hp2, fmap_app. by rewrite app_assoc.
Qed.

Lemma keeps_drops gids st st' : drops gids st st' → keeps gids noNews st st'.
Proof.
  intros Hd. split; [|by apply (drops_unique gids)]. destruct Hd as (r & Hf & Hp). exists []. split; [done|].
  exists r. split; [|cbn; by rewrite app_nil_r]. eapply Forall_impl; [exact Hf|]. intros i Hi. by right.
Qed.

Lemma keeps_refl gids st : keeps gids noNews st st.
Proof. apply keeps_drops. by apply drops_perm. Qed.

(** The order of the loaded state does not matter. *)
Lemma keeps_sort gids news st st' : keeps gids news (SortState st) st' → keeps gids news st st'.
Proof.
  intros [(new & Hn & removed & Hf & Hp) Hu]. split.
  - exists new. split; [done|]. exists removed. split.
    + eapply Forall_impl; [exact Hf|]. intros i [(Hd & ?)|?]; [left|by right]. split; [|done].
      by rewrite (proj2 (proj2 (sort_buckets st))) in Hd.
    + by rewrite <-Hp, sort_items.
  - intros Hu0. apply Hu. eapply unique_perm; [|exact Hu0]. by rewrite sort_items.
Qed.

(** ** Scopes *)

Lemma filter_perm {A} (p : A → bool) (l : list A) :
  l ≡ₚ List.filter (λ x, negb (p x)) l ++ List.filter p l.
Proof.
  induction l as [|x l IH]; [done|]. cbn. destruct (p x); cbn; [|by rewrite <-IH].
  rewrite <-Permutation_middle. by rewrite <-IH.
Qed.

Lemma filter_state_perm p st :
  itemsOf st ≡ₚ itemsOf (filterState (λ i, negb (p i)) st) ++ itemsOf (filterState p st).
Proof.
  unfold itemsOf, filterState. cbn.
  rewrite (filter_perm p (Pending st)) at 1. rewrite (filter_perm p (InFlight st)) at 1. rewrite (filter_perm p (Dead st)) at 1.
  solve_Permutation.
Qed.

Lemma appState_perm a b : itemsOf (appState a b) ≡ₚ itemsOf a ++ itemsOf b.
Proof. unfold itemsOf, appState. cbn. solve_Permutation. Qed.

Lemma elem_of_filter_bool {A} (p : A → bool) l x : x ∈ List.filter p l ↔ x ∈ l ∧ p x = true.
Proof. rewrite !list_elem_of_In. apply List.filter_In. Qed.

Lemma hasID_false id l : hasID id l = false ↔ id ∉ ids l.
Proof.
  unfold hasID. induction l as [|i l IH]; cbn; [split; [intros _; apply not_elem_of_nil|done]|].
  rewrite orb_false_iff, IH, bool_decide_eq_false, not_elem_of_cons. unfold idOf. naive_solver.
Qed.

Lemma keeps_scoped gids news p st st1 :
  keeps gids news (filterState p st) st1 →
  Forall (λ i, i.(iID) ∉ ids (itemsOf (filterState (λ i, negb (p i)) st))) (itemsOf st1) →
  keeps gids news st (SortState (appState (filterState (λ i, negb (p i)) st) st1)).
Proof.
  intros [(new & Hn & removed & Hf & Hp) Hu] Hdis. set (fo := filterState _ st) in *. split.
  - exists new. split; [done|]. exists removed. split.
    + eapply Forall_impl; [exact Hf|]. intros i [(Hd & ?)|?]; [left|by right]. split; [|done].
      apply elem_of_filter_bool in Hd. by destruct Hd.
    + rewrite (filter_state_perm p), sort_items, appState_perm, !fmap_app. fold fo.
      rewrite <-!app_assoc. by rewrite Hp.
  - unfold uniqueIDs. rewrite sort_items, appState_perm, (filter_state_perm p st). fold fo.
    rewrite !fmap_app, !NoDup_app. intros (H1 & _ & H2). split_and!; [done| |by apply Hu].
    intros id Hid Hin. apply list_elem_of_fmap in Hin as (i & -> & Hi). rewrite Forall_forall in Hdis. by apply (Hdis i Hi).
Qed.

Lemma find_none {A} (p : A → bool) l : List.find p l = None → ∀ x, x ∈ l → p x = false.
Proof. intros Hf x Hx. apply (List.find_none _ _ Hf). by apply list_elem_of_In. Qed.

Lemma existsb_false {A} (p : A → bool) l : existsb p l = false → Forall (λ x, p x = false) l.
Proof. induction l as [|x l IH]; cbn; [constructor|]. rewrite orb_false_iff. intros [??]. constructor; auto. Qed.

(** Inside a scope, a body keeps what it keeps of its own generation. *)
Lemma scopedBody_keeps {A} s (zero : A) enq fn gids news :
  (∀ st, spec (fn st) (λ out, out.1.2 = None → keeps gids news st out.2)) →
  ∀ st, spec (scopedBody s zero enq fn st) (λ out, out.1.2 = None → keeps gids news st out.2).
Proof.
  intros Hfn st. unfold scopedBody. destruct (match enq with Some _ => _ | None => _ end); [done|].
  destruct (List.find _ _); [done|]. eapply spec_bind; [apply Hfn|]. intros [[a err] st1]. cbn [fst snd]. intros Hk.
  destruct err; [done|]. specialize (Hk eq_refl). destruct (existsb _ _) eqn:He; [done|]. cbn. intros _.
  apply keeps_scoped; [done|]. apply existsb_false in He. eapply Forall_impl; [exact He|].
  intros i [_ Hi]%orb_false_iff. by apply hasID_false.
Qed.
