(* ===== verification/NudgeSafety.v ===== *)
(** * NudgeSafety: the invariants of the queue under every operation

    Each transaction body keeps the queue ([keeps]); so does every operation,
    in any scope, against any clock and any bead store, and so do sequences of
    operations. *)

From S2P Require Import Prelude GoBase GoTime GoText Beads ConvMeta Prog NudgeQueue NudgeOps NudgeProps.

Local Open Scope Z_scope.

Section bodies.
Context `{UnicodeTables, Codec}.

(** ** Claims and lists *)

Lemma claimLoop_spec now mtch items kept claimed :
  claimLoop now mtch items kept claimed =
  (kept ++ List.filter (λ i, negb (mtch i && due now i)) items,
   claimed ++ map (λ i, setClaim i now (now + defaultQueuedNudgeClaimTTL)) (List.filter (λ i, mtch i && due now i) items)).
Proof.
  revert kept claimed. induction items as [|i items IH]; intros kept claimed; cbn; [by rewrite !app_nil_r|].
  destruct (mtch i); cbn; [destruct (due now i); cbn|]; rewrite IH, <-?app_assoc; done.
Qed.

(** Edits that keep what identifies a nudge. *)
Lemma cores_map (f : Item → Item) l : (∀ i, core (f i) = core i) → cores (map f l) = cores l.
Proof. intros Hf. induction l as [|i l IH]; cbn; [done|]. by rewrite Hf, IH. Qed.

Lemma frontForState_silent s st : silent (frontForState s st).
Proof. unfold frontForState. silently. Qed.

Lemma noMaintenanceDeadline_silent : silent noMaintenanceDeadline.
Proof. unfold noMaintenanceDeadline. silently. Qed.
Hint Resolve frontForState_silent noMaintenanceDeadline_silent : gc.

Lemma claim_perm now mtch st :
  let r := claimLoop now mtch st.(Pending) [] [] in
  cores (itemsOf st) ≡ₚ cores (itemsOf (SortState (mkState r.1 (st.(InFlight) ++ r.2) st.(Dead)))).
Proof.
  rewrite claimLoop_spec. cbn [fst snd app]. rewrite sort_items. unfold itemsOf. cbn [Pending InFlight Dead]. rewrite !fmap_app.
  rewrite (cores_map (λ i, setClaim i _ _)) by done.
  rewrite (filter_perm (λ i, mtch i && due now i) (Pending st)) at 1. rewrite fmap_app. solve_Permutation.
Qed.

Lemma claimBody_keeps s now mtch st :
  spec (claimBody s now mtch st) (λ out, out.1.2 = None → keeps [] noNews st out.2).
Proof.
  unfold claimBody. apply spec_silent; [auto with gc|]. intros f. apply spec_silent; [auto with gc|]. intros d.
  eapply spec_bind; [apply maintain_spec|]. intros st1 Hm. pose proof (claim_perm now mtch st1) as Hp.
  destruct (claimLoop now mtch (Pending st1) [] []) as [pending claimed]. cbn in *. intros _.
  eapply keeps_step; [done|]. by apply drops_perm.
Qed.

Lemma listBody_keeps s now sel st :
  spec (listBody s now sel st) (λ out, out.1.2 = None → keeps [] noNews st out.2).
Proof.
  unfold listBody. apply spec_silent; [auto with gc|]. intros f. apply spec_silent; [auto with gc|]. intros d.
  eapply spec_bind; [apply maintain_spec|]. intros st1 Hm. cbn. intros _.
  eapply keeps_step; [done|]. by apply drops_perm.
Qed.

(** ** Enqueue *)

Lemma supersedeLoop_spec f item now deadline items kept dead :
  spec (supersedeLoop f item now deadline items kept dead) (λ r,
    match r with Err _ => True | Ok (kept', dead') =>
      cores kept' ++ cores dead' ≡ₚ cores kept ++ cores items ++ cores dead end).
Proof.
  revert kept dead. induction items as [|i items IH]; intros kept dead; cbn [supersedeLoop]; [cbn; reflexivity|].
  apply spec_silent; [auto with gc|]. intros t. destruct (deadline <? t).
  { cbn. rewrite fmap_app. cbn. by rewrite <-app_assoc. }
  destruct (matchesSupersession item i).
  - apply spec_silent; [auto with gc|]. intros [e|]; [done|]. eapply spec_mono; [apply IH|].
    intros [[k d]|]; [|done]. intros ->. rewrite fmap_app. cbn.
    change (core (setLastError _ _)) with (core i). solve_Permutation.
  - eapply spec_mono; [apply IH|]. intros [[k d]|]; [|done]. intros ->. rewrite fmap_app. cbn. solve_Permutation.
Qed.

Lemma supersede_spec f item now deadline st :
  spec (supersede f item now deadline st) (λ r,
    match r with Err _ => True | Ok st' => cores (itemsOf st) ≡ₚ cores (itemsOf st') end).
Proof.
  unfold supersede. destruct (hasReference item); cbn [negb]; [|cbn; reflexivity].
  eapply spec_bind; [apply supersedeLoop_spec|]. intros [[p d]|]; [|done]. intros Hp. cbn in Hp.
  eapply spec_bind; [apply supersedeLoop_spec|]. intros [[q d']|]; [|done]. intros Hq. cbn in Hq |- *.
  unfold itemsOf. cbn. rewrite !fmap_app, Hq.
  transitivity (cores (InFlight st) ++ (cores (Pending st) ++ cores (Dead st))); [solve_Permutation|].
  rewrite <-Hp. solve_Permutation.
Qed.

Lemma exists_ids st id : queuedNudgeExists st id = false ↔ id ∉ ids (itemsOf st).
Proof.
  unfold queuedNudgeExists, itemsOf. rewrite !orb_false_iff, !hasID_false, !fmap_app, !not_elem_of_app. tauto.
Qed.

Lemma enqueueState_keeps f item st :
  spec (enqueueState f item st) (λ out, out.1 = None → keeps [] (λ new, new = [] ∨ new = [item]) st out.2).
Proof.
  unfold enqueueState. apply spec_silent; [auto with gc|]. intros now.
  eapply spec_bind; [apply maintain_spec|]. intros st1 Hm. destruct (queuedNudgeExists st1 _) eqn:Hx.
  { cbn. intros _. destruct (keeps_step [] _ _ _ _ Hm (drops_perm [] st1 st1 (reflexivity _))) as [(new & -> & Ha) Hu].
    split; [|done]. exists []. auto. }
  apply exists_ids in Hx. eapply spec_bind; [apply supersede_spec|]. intros [st2|e]; [|done]. intros Hp. cbn. intros _.
  destruct (maintained_gone _ _ _ Hm) as (removed & Hf & Hp0).
  assert (cores (itemsOf (SortState (setPending st2 (Pending st2 ++ [item])))) ≡ₚ cores (itemsOf st1) ++ [core item]) as Hq.
  { rewrite sort_items, Hp. unfold itemsOf, setPending. cbn. rewrite !fmap_app. cbn. solve_Permutation. }
  split.
  - exists [item]. split; [by right|]. exists removed. split; [done|]. rewrite Hp0, Hq. cbn. solve_Permutation.
  - intros Hu. apply (maintained_unique _ _ _ Hm) in Hu. unfold uniqueIDs.
    change [core item] with (cores [item]) in Hq. rewrite <-fmap_app in Hq. rewrite (ids_cores _ _ Hq), fmap_app.
    apply NoDup_app. split_and!; [done| |apply NoDup_singleton]. intros x Hx' ->%list_elem_of_singleton. done.
Qed.

(** ** Rollback, acknowledgement, release, failure *)

Lemma buryLoop_spec f now reason removed dead :
  spec (buryLoop f now reason removed dead) (λ r,
    match r with Err _ => True | Ok dead' => cores dead' ≡ₚ cores dead ++ cores removed end).
Proof.
  revert dead. induction removed as [|i removed IH]; intros dead; cbn [buryLoop]; [cbn; by rewrite app_nil_r|].
  apply spec_silent; [auto with gc|]. intros [e|]; [done|]. eapply spec_mono; [apply IH|].
  intros [d|]; [|done]. intros ->. rewrite fmap_app. cbn. by rewrite <-app_assoc.
Qed.

Lemma rollbackBody_keeps f now id reason st :
  spec (rollbackBody f now id reason st) (λ out, out.1.2 = None → keeps [] noNews st out.2).
Proof.
  unfold rollbackBody, takeQueuedNudgesByID. eapply spec_bind; [apply buryLoop_spec|].
  intros [dead|e]; [|done]. intros Hp. cbn in *. intros _. apply keeps_drops, drops_perm.
  rewrite sort_items. unfold itemsOf. cbn. rewrite !fmap_app in *. rewrite Hp.
  rewrite (filter_perm (λ i, i.(iID) == id) (Pending st)) at 1. rewrite (filter_perm (λ i, i.(iID) == id) (InFlight st)) at 1.
  rewrite !fmap_app. solve_Permutation.
Qed.

Lemma terminalizeAll_silent f items o r c now : silent (terminalizeAll f items o r c now).
Proof. induction items as [|i items IH]; cbn; [done|]. unfold andThen. silently. Qed.
Hint Resolve terminalizeAll_silent : gc.

Lemma wanted_forall gids l : Forall (λ i, i.(iID) ∈ gids) (List.filter (wanted gids) l).
Proof. apply Forall_forall. intros i [_ Hi]%elem_of_filter_bool. by apply bool_decide_eq_true in Hi. Qed.

(** Dropping the wanted items of the two live buckets. *)
Lemma drops_unwanted gids st :
  drops gids st (mkState (List.filter (unwanted gids) st.(Pending)) (List.filter (unwanted gids) st.(InFlight)) st.(Dead)).
Proof.
  exists (List.filter (wanted gids) st.(Pending) ++ List.filter (wanted gids) st.(InFlight)). split.
  - apply Forall_app. split; apply wanted_forall.
  - unfold itemsOf. cbn. rewrite !fmap_app.
    rewrite (filter_perm (wanted gids) (Pending st)) at 1. rewrite (filter_perm (wanted gids) (InFlight st)) at 1.
    rewrite !fmap_app. fold (unwanted gids). solve_Permutation.
Qed.

Lemma ackBody_keeps s gids o r c st :
  spec (ackBody s gids o r c st) (λ out, out.1.2 = None → keeps gids noNews st out.2).
Proof.
  unfold ackBody. apply spec_silent; [auto with gc|]. intros now. apply spec_silent; [auto with gc|]. intros f.
  apply spec_silent; [auto with gc|]. intros d. eapply spec_bind; [apply maintain_spec|]. intros st1 Hm.
  apply spec_silent; [auto with gc|]. intros err. cbn. intros _. eapply keeps_step; [done|]. apply drops_unwanted.
Qed.

Lemma releaseBody_keeps s gids st :
  spec (releaseBody s gids st) (λ out, out.1.2 = None → keeps [] noNews st out.2).
Proof.
  unfold releaseBody. apply spec_silent; [auto with gc|]. intros now. apply spec_silent; [auto with gc|]. intros f.
  apply spec_silent; [auto with gc|]. intros d. eapply spec_bind; [apply maintain_spec|]. intros st1 Hm. cbn. intros _.
  eapply keeps_step; [done|]. apply drops_perm. rewrite sort_items. unfold itemsOf. cbn. rewrite !fmap_app.
  rewrite (cores_map (λ i, setClaim i 0 0)) by done.
  rewrite (filter_perm (wanted gids) (InFlight st1)) at 1. rewrite !fmap_app. solve_Permutation.
Qed.

Lemma failed_core i c now : core (failedQueuedNudge i c now).1 = core i.
Proof. unfold failedQueuedNudge. by repeat case_match. Qed.

Lemma failAll_perm c now l : cores (failAll c now l).1 ++ cores (failAll c now l).2 ≡ₚ cores l.
Proof.
  unfold failAll. cbn. induction l as [|i l IH]; [done|]. cbn. pose proof (failed_core i c now) as Hc.
  destruct (failedQueuedNudge i c now) as [j [|]]; cbn in *; rewrite Hc, <-IH; [|done]. by rewrite <-Permutation_middle.
Qed.

Lemma failure_perm gids c now st :
  let r := failAll c now (List.filter (wanted gids) st.(Pending) ++ List.filter (wanted gids) st.(InFlight)) in
  cores (itemsOf st) ≡ₚ cores (itemsOf (SortState (mkState (List.filter (unwanted gids) st.(Pending) ++ r.1)
    (List.filter (unwanted gids) st.(InFlight)) (st.(Dead) ++ r.2)))).
Proof.
  intros r. pose proof (failAll_perm c now (List.filter (wanted gids) st.(Pending) ++ List.filter (wanted gids) st.(InFlight))) as Hp.
  fold r in Hp. rewrite fmap_app in Hp. clearbody r. rewrite sort_items. unfold itemsOf. cbn. rewrite !fmap_app.
  rewrite (filter_perm (wanted gids) (Pending st)) at 1. rewrite (filter_perm (wanted gids) (InFlight st)) at 1.
  rewrite !fmap_app. fold (unwanted gids).
  transitivity (cores (List.filter (unwanted gids) (Pending st)) ++ cores (List.filter (unwanted gids) (InFlight st)) ++
    cores (Dead st) ++ (cores (List.filter (wanted gids) (Pending st)) ++ cores (List.filter (wanted gids) (InFlight st))));
    [solve_Permutation|]. rewrite <-Hp. solve_Permutation.
Qed.

Lemma failureBody_keeps f gids c now st :
  spec (failureBody f gids c now st) (λ out, out.1.2 = None → keeps [] noNews st out.2).
Proof.
  unfold failureBody. apply spec_silent; [auto with gc|]. intros d. eapply spec_bind; [apply maintain_spec|]. intros st1 Hm.
  pose proof (failure_perm gids c now st1) as Hp. destruct (failAll _ _ _) as [requeued dead]. cbn in *. intros _.
  eapply keeps_step; [done|]. by apply drops_perm.
Qed.

(** ** Withdrawal *)

Lemma withdrawLoop_spec f gids items kept :
  spec (withdrawLoop f gids items kept) (λ r,
    match r with Err _ => True | Ok kept' => kept' = kept ++ List.filter (unwanted gids) items end).
Proof.
  revert kept. induction items as [|i items IH]; intros kept; cbn [withdrawLoop]; [cbn; by rewrite app_nil_r|].
  unfold unwanted. cbn [List.filter]. destruct (wanted gids i); cbn [negb].
  - apply spec_silent; [auto with gc|]. intros now. apply spec_silent; [auto with gc|]. intros [e|]; [done|]. apply IH.
  - eapply spec_mono; [apply IH|]. intros [k|]; [|done]. intros ->. by rewrite <-app_assoc.
Qed.

Lemma withdrawBody_keeps f gids st :
  spec (withdrawBody f gids st) (λ out, out.1.2 = None → keeps gids noNews st out.2).
Proof.
  unfold withdrawBody. eapply spec_bind; [apply withdrawLoop_spec|]. intros [p|e]; [|done]. intros ->.
  eapply spec_bind; [apply withdrawLoop_spec|]. intros [q|e]; [|done]. intros ->. cbn. intros _.
  apply keeps_drops, drops_unwanted.
Qed.
End bodies.

(** ** Programs over the queue file *)

(** Against any file, clock and bead store, [p] changes the queue as [R]
    allows. *)
Definition effect {A} (p : nudge A) (R : State → State → Prop) : Prop :=
  ∀ T (h : machine nudgeE T) (file : T → State), QueueFile h file → ∀ t, R (file t) (file (run h p t).2).

Lemma effect_silent {A} (p : nudge A) R : silent p → (∀ st, R st st) → effect p R.
Proof. intros Hp HR T h file Hf t. destruct (run_spec h file p _ t Hp) as [_ ->]. apply HR. Qed.

Lemma effect_after {A B} (p : nudge A) (f : A → nudge B) R :
  silent p → (∀ a, effect (f a) R) → effect (bind p f) R.
Proof.
  intros Hp Hf T h file Hq t. rewrite run_bind. destruct (run_spec h file p _ t Hp) as [_ He].
  destruct (run h p t) as [a t']. cbn in *. rewrite <-He. by apply Hf.
Qed.

Lemma effect_before {A B} (p : nudge A) (f : A → nudge B) R :
  effect p R → (∀ a, silent (f a)) → effect (bind p f) R.
Proof.
  intros Hp Hf T h file Hq t. rewrite run_bind. specialize (Hp T h file Hq t).
  destruct (run h p t) as [a t']. cbn in *. by destruct (run_spec h file (f a) _ t' (Hf a)) as [_ ->].
Qed.

Lemma effect_seq {A B} (p : nudge A) (f : A → nudge B) (P : A → Prop) R1 R2 (R : State → State → Prop) :
  effect p R1 → (∀ T (h : machine nudgeE T) file, QueueFile h file → ∀ t, P (run h p t).1) →
  (∀ a, P a → effect (f a) R2) → (∀ a b c, R1 a b → R2 b c → R a c) → effect (bind p f) R.
Proof.
  intros Hp HP Hf HR T h file Hq t. rewrite run_bind. specialize (Hp T h file Hq t). specialize (HP T h file Hq t).
  destruct (run h p t) as [a t']. cbn in *. eapply HR; [done|]. by apply Hf.
Qed.

Lemma effect_WithState {A} (zero : A) fn (R : State → State → Prop) :
  (∀ st, R st st) → (∀ st, spec (fn (SortState st)) (λ out, out.1.2 = None → R st out.2)) →
  effect (WithState zero fn) R.
Proof.
  intros Hr Hfn T h file Hq t.
  destruct (run_WithState h file zero fn R (λ _ _ _, True) t) as [[_ ->]|(_ & HR & _)]; [|apply Hr|done].
  intros st. eapply spec_mono; [apply Hfn|]. auto.
Qed.

Lemma keeps_refl_news gids (news : list Item → Prop) st : news [] → keeps gids news st st.
Proof. intros Hn. destruct (keeps_refl gids st) as [(new & -> & Ha) Hu]. split; [|done]. by exists []. Qed.

(** A transaction in a scope keeps what its body keeps. *)
Lemma effect_scope {A} s (zero : A) enq fn gids (news : list Item → Prop) :
  news [] → (∀ st, spec (fn st) (λ out, out.1.2 = None → keeps gids news st out.2)) →
  effect (scopeState s zero enq fn) (keeps gids news).
Proof.
  intros Hn Hfn. unfold scopeState.
  destruct (negb (Strict s)); (apply effect_WithState; [intros; by apply keeps_refl_news|]); intros st.
  - eapply spec_mono; [apply Hfn|]. intros out Ho He. by apply keeps_sort, Ho.
  - eapply spec_mono; [by apply scopedBody_keeps|]. intros out Ho He. by apply keeps_sort, Ho.
Qed.

(** ** The operations *)

Section operations.
Context `{UnicodeTables, Codec}.

(** A call of a queue operation. *)
Inductive qop :=
| QClaim (now : Z) (mtch : Item → bool)
| QList (now : Z) (sel : Item → bool)
| QEnqueue (given : bool) (item : Item)
| QRollback (cityPath : string) (f : front) (item : Item) (reason : string)
| QAck (gids : list string) (outcome reason commitBoundary : string)
| QRelease (gids : list string)
| QFail (given : bool) (gids : list string) (c : cause) (now : Z)
| QWithdraw (hasStore : bool) (cityPath : string) (gids : list string).

Definition void {A} (p : nudge A) : nudge unit := let* _ := p in Ret ().

Definition runOp (op : qop) (s : Scope) : nudge unit :=
  match op with
  | QClaim now mtch => void (claimDueQueuedNudgesMatching s now mtch)
  | QList now sel => void (scopeWithState s noItems (listBody s now sel))
  | QEnqueue given item => void (enqueueQueuedNudgeWithStore given item s)
  | QRollback cityPath f item reason => void (rollbackQueuedNudge cityPath f item reason s)
  | QAck gids o r c => void (ackQueuedNudgesWithOutcome gids o r c s)
  | QRelease gids => void (releaseQueuedNudgeClaims gids s)
  | QFail given gids c now => void (recordQueuedNudgeFailureDetailed given gids c now s)
  | QWithdraw hasStore cityPath gids => void (scopeWithdrawWaitNudges s hasStore cityPath gids)
  end.

(** The IDs an operation is asked to take out of the queue. *)
Definition removes (op : qop) : list string :=
  match op with QAck gids _ _ _ | QWithdraw _ _ gids => gids | _ => [] end.

(** The nudges an operation may put in. *)
Definition adds (op : qop) (new : list Item) : Prop :=
  new = [] ∨ match op with QEnqueue _ item => ∃ beadID, new = [withBeadID item beadID] | _ => False end.

Lemma effect_void {A} (p : nudge A) R : effect p R → effect (void p) R.
Proof. intros Hp. apply effect_before; [done|]. done. Qed.

Lemma effect_mono {A} (p : nudge A) (R R' : State → State → Prop) :
  effect p R → (∀ a b, R a b → R' a b) → effect p R'.
Proof. intros Hp HR T h file Hq t. apply HR. by apply Hp. Qed.

Lemma rollbackEnqueued_silent hs sv e : silent (rollbackEnqueued hs sv e).
Proof. unfold rollbackEnqueued, RollbackEnqueue. destruct (_ && _ && _); [|done]. silently. Qed.
Hint Resolve rollbackEnqueued_silent : gc.

Lemma keeps_news gids (news news' : list Item → Prop) st st' :
  (∀ l, news l → news' l) → keeps gids news st st' → keeps gids news' st st'.
Proof. intros Hn [(new & ? & ?) ?]. split; [|done]. exists new. auto. Qed.

Lemma markDead_silent f now items : silent (markDead f now items).
Proof. induction items as [|i items IH]; cbn; [done|]. apply spec_silent; [auto with gc|]. intros [e|]; silently. Qed.
Hint Resolve markDead_silent : gc.

(** ** Withdrawal in the global scope *)

Lemma drops_trans gids a b c : drops gids a b → drops gids b c → drops gids a c.
Proof.
  intros (r1 & F1 & P1) (r2 & F2 & P2). exists (r2 ++ r1). split; [by apply Forall_app|].
  rewrite P1, P2, fmap_app. by rewrite app_assoc.
Qed.

Lemma dedupe_elem seen l id : id ∈ dedupe seen l → id ∈ l.
Proof.
  revert seen. induction l as [|x l IH]; intros seen; cbn; [done|]. case_match; [intros ?; right; eauto|].
  intros [->|Hi]%elem_of_cons; [by left|right; eauto].
Qed.

Lemma drops_mono gids gids' a b : (∀ x, x ∈ gids → x ∈ gids') → drops gids a b → drops gids' a b.
Proof. intros Hs (r & Hf & Hp). exists r. split; [|done]. eapply Forall_impl; [exact Hf|]. auto. Qed.

Lemma drops_filter gids p st :
  (∀ i, p i = false → i.(iID) ∈ gids) →
  drops gids st (mkState (List.filter p st.(Pending)) (List.filter p st.(InFlight)) st.(Dead)).
Proof.
  intros Hp. exists (List.filter (λ i, negb (p i)) st.(Pending) ++ List.filter (λ i, negb (p i)) st.(InFlight)). split.
  - apply Forall_app. split; apply Forall_forall; intros i [_ Hi]%elem_of_filter_bool; apply Hp; by apply negb_true_iff.
  - unfold itemsOf. cbn. rewrite !fmap_app.
    rewrite (filter_perm p (Pending st)) at 1. rewrite (filter_perm p (InFlight st)) at 1. rewrite !fmap_app. solve_Permutation.
Qed.

Lemma sort_drops gids st st' : drops gids (SortState st) st' → drops gids st st'.
Proof. intros (r & Hf & Hp). exists r. split; [done|]. by rewrite <-Hp, sort_items. Qed.

Lemma markTerminalBead_silent id now : silent (markTerminalBead id now).
Proof. unfold markTerminalBead. silently. Qed.
Hint Resolve markTerminalBead_silent : gc.

Lemma markBeads_silent items now : silent (markBeads items now).
Proof. induction items as [|b items IH]; cbn [markBeads]; [done|]. destruct (_ == _); [done|]. unfold andThen. silently. Qed.
Hint Resolve markBeads_silent : gc.

Lemma markTerminalCandidates_silent id cs legacy seen now : silent (markTerminalCandidates id cs legacy seen now).
Proof.
  revert legacy seen. induction cs as [|[[x b] z] cs IH]; intros legacy seen; cbn [markTerminalCandidates].
  - destruct legacy; [|done]. unfold markTerminal. silently.
  - destruct (_ == _); [apply IH|]. destruct (bool_decide _); [apply IH|]. unfold andThen.
    apply spec_silent; [|intros [e|]; [done|apply IH]]. unfold markTerminalBeadByID. silently.
Qed.
Hint Resolve markTerminalCandidates_silent : gc.

Lemma markIDs_spec st gids now toRemove first (P : string → Prop) :
  Forall P gids → Forall (λ c : candidate, P c.1.1) toRemove →
  spec (markIDs st gids now toRemove first) (λ r, Forall (λ c : candidate, P c.1.1) r.1).
Proof.
  intros Hg. revert toRemove first. induction Hg as [|id gids Hid Hg IH]; intros toRemove first Ht; cbn [markIDs]; [done|].
  destruct (is_empty _); [by apply IH|]. apply spec_silent; [auto with gc|]. intros [e|]; [by apply IH|].
  apply IH. apply Forall_app. split; [done|]. apply Forall_forall. intros c Hc.
  unfold queuedWaitNudgeCandidates in Hc. apply list_elem_of_In, List.in_map_iff in Hc as (i & <- & Hi).
  apply List.filter_In in Hi as [_ Hi]. apply bool_decide_eq_true in Hi. cbn. by rewrite Hi.
Qed.

Lemma WithdrawWaitNudges_effect hs cp gids : effect (WithdrawWaitNudges hs cp gids) (drops gids).
Proof.
  assert (∀ st, drops gids st st) as Hr by (intros; by apply drops_perm).
  assert (Forall (λ x, x ∈ gids) (dedupe [] gids)) as Hu by (apply Forall_forall; intros x; apply dedupe_elem).
  unfold WithdrawWaitNudges. destruct (is_empty _ || _); [by apply effect_silent|].
  apply effect_after; [auto with gc|]. intros t. destruct hs; cbn [negb].
  - eapply (effect_seq _ _ (λ _, True)); [| |intros a _|by apply drops_trans]; [|done|].
    + apply effect_WithState; [done|]. intros st. cbn. intros _. by apply sort_drops.
    + destruct a as [st [e|]]; [by apply effect_silent|].
      intros T h file Hq t0. rewrite run_bind.
      destruct (run_spec h file (markIDs st (dedupe [] gids) (FormatRFC3339 t) [] None) _ t0
        (markIDs_spec st _ _ [] None (λ x, x ∈ gids) Hu (List.Forall_nil _))) as [Hm He].
      destruct (run h (markIDs _ _ _ _ _) t0) as [[toRemove first] t1]. cbn [fst snd] in *. rewrite <-He. clear He t0.
      revert T h file Hq t1. fold (effect (A := option error)).
      match goal with |- ∀ T h file Hq t1, drops gids (file t1) (file (run h ?p t1).2) => assert (effect p (drops gids)) as Hgoal end.
      { destruct (is_empty toRemove); [by apply effect_silent|].
        apply effect_before; [|intros [[] [e|]]; destruct first; done].
        apply effect_WithState; [done|]. intros st'. cbn. intros _. apply sort_drops, drops_filter.
        intros i Hi. apply negb_false_iff, bool_decide_eq_true in Hi. rewrite Forall_forall in Hm. exact (Hm _ Hi). }
      exact Hgoal.
  - apply effect_before; [|done]. apply effect_WithState; [done|]. intros st. cbn. intros _. apply sort_drops, drops_filter.
    intros i Hi. unfold unwanted, wanted in Hi. apply negb_false_iff, bool_decide_eq_true in Hi. by eapply dedupe_elem.
Qed.
(** The transaction bodies of an operation bound to a scope. *)
Inductive txBody (s : Scope) : qop → ∀ A : Type, (State → nudge (A * option error * State)) → Prop :=
| tx_claim now mtch : txBody s (QClaim now mtch) _ (claimBody s now mtch)
| tx_list now sel : txBody s (QList now sel) _ (listBody s now sel)
| tx_enqueue given item f b : txBody s (QEnqueue given item) _ (enqueueBody f (withBeadID item b))
| tx_enqueue_strict given item f : txBody s (QEnqueue given item) _ (enqueueStrictBody f item)
| tx_rollback cp f item reason now : txBody s (QRollback cp f item reason) _ (rollbackBody f now item.(iID) reason)
| tx_ack gids o r c : txBody s (QAck gids o r c) _ (ackBody s gids o r c)
| tx_release gids : txBody s (QRelease gids) _ (releaseBody s gids)
| tx_fail given gids c now f : txBody s (QFail given gids c now) _ (failureBody f gids c now)
| tx_withdraw hs cp gids f : txBody s (QWithdraw hs cp gids) _ (withdrawBody f (List.filter (λ id, id != "") gids)).

(** What holds of every transaction of an operation holds of the operation: it
    does nothing else to the queue. *)
Lemma op_rule op s (R : State → State → Prop) :
  (∀ st, R st st) →
  (∀ (A : Type) (zero : A) enq fn, txBody s op A fn → effect (scopeState s zero enq fn) R) →
  (∀ hs cp gids, op = QWithdraw hs cp gids → Strict s = false → effect (WithdrawWaitNudges hs cp gids) R) →
  effect (runOp op s) R.
Proof.
  intros Hr Htx Hw. destruct op; cbn [runOp]; apply effect_void.
  - apply Htx. constructor.
  - apply Htx. constructor.
  - unfold enqueueQueuedNudgeWithStore, scopeEnqueue. destruct (negb (InScope s item)); [by apply effect_silent|].
    apply effect_after; [destruct given; [done|auto with gc]|]. intros hs.
    apply effect_before; [|intros [[sv|] [e|]]; silently]. destruct (negb (Strict s)).
    + apply effect_after; [auto with gc|]. intros [[b created] err]. destruct err; [by apply effect_silent|].
      apply effect_before; [|done]. destruct (_ || _); [by apply effect_silent|]. apply Htx. constructor.
    + cbn zeta. apply effect_before; [|done]. destruct (_ || _); [by apply effect_silent|]. apply Htx. constructor.
  - unfold rollbackQueuedNudge. destruct (_ || _); [by apply effect_silent|].
    apply effect_after; [auto with gc|]. intros now. apply effect_before; [|intros [[] [e|]]; silently]. apply Htx. constructor.
  - unfold ackQueuedNudgesWithOutcome. destruct (is_empty _); [by apply effect_silent|].
    apply effect_before; [|done]. apply Htx. constructor.
  - unfold releaseQueuedNudgeClaims. destruct (is_empty _); [by apply effect_silent|].
    apply effect_before; [|done]. apply Htx. constructor.
  - unfold recordQueuedNudgeFailureDetailed. destruct (is_empty _); [by apply effect_silent|].
    apply effect_after; [destruct given; [done|auto with gc]|]. intros hs.
    apply effect_before; [|intros [dead [e|]]; silently]. apply Htx. constructor.
  - unfold scopeWithdrawWaitNudges. destruct (Strict s) eqn:Hs; cbn [negb]; [|by apply Hw].
    unfold withdrawStrict. destruct (is_empty _ || _); [by apply effect_silent|]. apply effect_before; [|done].
    apply Htx. constructor.
Qed.

Lemma adds_none op l : l = [] → adds op l.
Proof. by left. Qed.

Lemma enqueueState_adds given item f b st :
  spec (enqueueState f (withBeadID item b) st) (λ out, out.1 = None → keeps [] (adds (QEnqueue given item)) st out.2).
Proof.
  eapply spec_mono; [apply enqueueState_keeps|]. intros out Ho Hn. eapply keeps_news; [|by apply Ho].
  intros l [->| ->]; [by left|right; by exists b].
Qed.

(** Every transaction body keeps the queue. *)
Lemma txBody_keeps s op A fn st :
  txBody s op A fn → spec (fn st) (λ out, out.1.2 = None → keeps (removes op) (adds op) st out.2).
Proof.
  intros Htx. destruct Htx; cbn [removes].
  1,2,5,6,7,8: eapply spec_mono; [first [apply claimBody_keeps|apply listBody_keeps|apply rollbackBody_keeps|apply ackBody_keeps
    |apply releaseBody_keeps|apply failureBody_keeps]|]; intros out Ho He; eapply keeps_news; [apply adds_none|by apply Ho].
  - eapply spec_bind; [apply enqueueState_adds|]. intros [e' st'] Ho. exact Ho.
  - apply spec_silent; [auto with gc|]. intros [[b created] err]. destruct err; [done|].
    eapply spec_bind; [apply enqueueState_adds|]. intros [e' st'] Ho. exact Ho.
  - eapply spec_mono; [apply withdrawBody_keeps|]. intros out Ho He.
    destruct (Ho He) as [(new & -> & removed & Hf & Hp) Hu]. split; [|done].
    exists []. split; [by left|]. exists removed. split; [|done]. eapply Forall_impl; [exact Hf|].
    intros i. apply goneFrom_mono. intros x [Hx _]%elem_of_filter_bool. done.
Qed.

Lemma op_effect op s : effect (runOp op s) (keeps (removes op) (adds op)).
Proof.
  apply op_rule.
  - intros st. apply keeps_refl_news. by left.
  - intros A zero enq fn Htx. apply effect_scope; [by left|]. intros st. by eapply txBody_keeps.
  - intros hs cp gids -> _. eapply effect_mono; [apply WithdrawWaitNudges_effect|]. intros a b Hd.
    eapply keeps_news; [apply adds_none|by apply keeps_drops].
Qed.

(** C10 No nudge is lost.  Whatever the operation, in any scope, against any
    clock and any (failing) bead store, every nudge of the queue file is still
    in one of its three buckets afterwards with its identity, text, reference
    and expiry unchanged, except for those the operation was asked to remove
    and for dead ones that have a shadow bead; only an enqueue adds a nudge,
    its own. *)
Theorem queue_conserved {T} (h : machine nudgeE T) (file : T → State) (Hq : QueueFile h file) (op : qop) (s : Scope) (t : T) :
  ∃ new, adds op new ∧
    accounted (goneFrom (file t) (removes op)) new (file t) (file (run h (runOp op s) t).2).
Proof. by destruct (op_effect op s T h file Hq t) as [Hk _]. Qed.

(** A sequence of operations, each in its own scope. *)
Fixpoint runOps (ops : list (qop * Scope)) : nudge unit :=
  match ops with
  | [] => Ret ()
  | (op, s) :: ops => let* _ := runOp op s in runOps ops
  end.

(** Nudge IDs stay unique: from a queue in which no ID occurs twice, in the
    same bucket or across buckets, every sequence of operations leads to
    another, so a nudge is never pending and in flight, or in flight and dead,
    at the same time. *)
Theorem queue_ids_unique {T} (h : machine nudgeE T) (file : T → State) (Hq : QueueFile h file)
    (ops : list (qop * Scope)) (t : T) :
  uniqueIDs (file t) → uniqueIDs (file (run h (runOps ops) t).2).
Proof.
  revert t. induction ops as [|[op s] ops IH]; intros t Hu; [done|]. cbn [runOps]. rewrite run_bind.
  destruct (op_effect op s T h file Hq t) as [_ Hk]. destruct (run h (runOp op s) t) as [a t']. by apply IH, Hk.
Qed.
End operations.
