(* ===== verification/NudgeClaims.v ===== *)
(** * NudgeClaims: leases, retries and session scopes

    A claimed nudge is nobody else's until its lease ends, no nudge is tried
    more often than the limit, and an operation bound to a session generation
    leaves the others alone. *)

From S2P Require Import Prelude GoBase GoTime GoText Beads ConvMeta Prog NudgeQueue NudgeOps NudgeProps NudgeSafety.

Local Open Scope Z_scope.

(** ** Transactions and their results *)

(** Like [effect], with the value the program returns. *)
Definition yields {A} (p : nudge A) (R : A → State → State → Prop) : Prop :=
  ∀ T (h : machine nudgeE T) (file : T → State), QueueFile h file →
  ∀ t, R (run h p t).1 (file t) (file (run h p t).2).

(** The relation of a transaction: on success the body's, on failure none but
    that the file is unchanged (the body's value may be returned with the error
    of the write). *)
Definition orUnchanged {A} (Q : A → State → State → Prop) (r : A * option error) (st st' : State) : Prop :=
  (r.2 = None ∧ Q r.1 st st') ∨ (r.2 ≠ None ∧ st' = st).

Lemma yields_WithState {A} (zero : A) fn (Q : A → State → State → Prop) :
  (∀ st, spec (fn (SortState st)) (λ out, out.1.2 = None → Q out.1.1 st out.2)) →
  yields (WithState zero fn) (orUnchanged Q).
Proof.
  intros Hfn T h file Hq t.
  destruct (run_WithState h file zero fn (λ _ _, True) Q t) as [(He & Hf)|(He & _ & HQ)].
  - intros st. eapply spec_mono; [apply Hfn|]. auto.
  - right. done.
  - left. done.
Qed.


Lemma sort_pending st i : i ∈ (SortState st).(Pending) ↔ i ∈ st.(Pending).
Proof. by rewrite (proj1 (sort_buckets st)). Qed.
Lemma sort_inflight st i : i ∈ (SortState st).(InFlight) ↔ i ∈ st.(InFlight).
Proof. by rewrite (proj1 (proj2 (sort_buckets st))). Qed.
Lemma sort_dead st i : i ∈ (SortState st).(Dead) ↔ i ∈ st.(Dead).
Proof. by rewrite (proj2 (proj2 (sort_buckets st))). Qed.

(** What a scoped transaction does, given what its body does to the selected
    part. *)
Lemma scopedBody_spec {A} s (zero : A) enq fn (Q : A → State → State → Prop) :
  (∀ st, spec (fn st) (λ out, out.1.2 = None → Q out.1.1 st out.2)) →
  ∀ st, spec (scopedBody s zero enq fn st) (λ out, out.1.2 = None →
    ∃ sel, Q out.1.1 (filterState (InScope s) st) sel ∧
      Forall (λ i, InScope s i = true ∧ i.(iID) ∉ ids (itemsOf (filterState (λ i, negb (InScope s i)) st))) (itemsOf sel) ∧
      out.2 = SortState (appState (filterState (λ i, negb (InScope s i)) st) sel)).
Proof.
  intros Hfn st. unfold scopedBody. destruct (match enq with Some _ => _ | None => _ end); [done|].
  destruct (List.find _ _); [done|]. eapply spec_bind; [apply Hfn|]. intros [[a err] st1]. cbn [fst snd]. intros Hk.
  destruct err; [done|]. specialize (Hk eq_refl). destruct (existsb _ _) eqn:He; [done|]. cbn. intros _.
  exists st1. split_and!; [done| |done]. apply existsb_false in He. eapply Forall_impl; [exact He|].
  intros i [Hi1 Hi2]%orb_false_iff. split; [by apply negb_false_iff|]. by apply hasID_false.
Qed.

(** ** Leases *)

(** Until [L], the nudge [id] is not pending, and if it is in flight its lease
    runs at least to [L]. *)
Definition held (id : string) (L : Z) (st : State) : Prop :=
  id ∉ ids st.(Pending) ∧ ∀ i, i ∈ st.(InFlight) → i.(iID) = id → L ≤ i.(iLeaseUntil).

Lemma in_ids i (l : list Item) : i ∈ l → i.(iID) ∈ ids l.
Proof. intros Hi. apply list_elem_of_fmap. by exists i. Qed.

Lemma ids_elem id (l : list Item) : id ∈ ids l ↔ ∃ i, i ∈ l ∧ i.(iID) = id.
Proof. rewrite list_elem_of_fmap. unfold idOf. naive_solver. Qed.

Lemma unique_same (l : list Item) i j : NoDup (ids l) → i ∈ l → j ∈ l → i.(iID) = j.(iID) → i = j.
Proof.
  intros Hn Hi Hj He. apply list_elem_of_lookup_1 in Hi as [a Ha]. apply list_elem_of_lookup_1 in Hj as [b Hb].
  assert (a = b) as ->; [|congruence]. eapply NoDup_lookup; [exact Hn| |].
  - rewrite list_lookup_fmap, Ha. done.
  - rewrite list_lookup_fmap, Hb. cbn. unfold idOf. by rewrite He.
Qed.

Section leases.
Context `{UnicodeTables, Codec}.

(** What a claim returns, on the state it reads and the one it writes. *)
Record claimRel (now : Z) (claimed : list Item) (st st' : State) : Prop := {
  cr_leased : uniqueIDs st → ∀ c, c ∈ claimed → held c.(iID) (now + defaultQueuedNudgeClaimTTL) st';
  cr_held id L : held id L st → 0 < L → now < L → held id L st' ∧ id ∉ ids claimed;
  cr_inflight c : c ∈ claimed → c ∈ st'.(InFlight)
}.

Lemma claimRel_body now mtch st st1 :
  maintained now st st1 →
  let r := claimLoop now mtch st1.(Pending) [] [] in
  claimRel now r.2 st (SortState (mkState r.1 (st1.(InFlight) ++ r.2) st1.(Dead))).
Proof.
  intros Hm. rewrite claimLoop_spec. cbn [fst snd app].
  set (claim := λ i, setClaim i now (now + defaultQueuedNudgeClaimTTL)).
  set (sel := λ i, mtch i && due now i). fold claim.
  assert (∀ c, c ∈ map claim (List.filter sel (Pending st1)) → ∃ p, p ∈ Pending st1 ∧ sel p = true ∧ c = claim p) as Hc.
  { intros c Hc. apply list_elem_of_In, List.in_map_iff in Hc as (p & <- & Hp). apply List.filter_In in Hp as [Hp Hs].
    exists p. split_and!; [by apply list_elem_of_In|done|done]. }
  split.
  - intros Hu c (p & Hp & Hs & ->)%Hc. apply (maintained_unique _ _ _ Hm) in Hu. unfold uniqueIDs, itemsOf in Hu.
    rewrite !fmap_app, !NoDup_app in Hu. destruct Hu as (Hu1 & Hu2 & _). split.
    + rewrite ids_elem. setoid_rewrite sort_pending. cbn. intros (q & Hq & He).
      apply elem_of_filter_bool in Hq as [Hq Hn]. assert (q = p) as -> by (by eapply unique_same).
      unfold sel in Hs. by rewrite Hs in Hn.
    + intros i Hi. rewrite sort_inflight in Hi. cbn in Hi. intros He. apply elem_of_app in Hi as [Hi|(q & _ & _ & ->)%Hc]; [|cbn; lia].
      exfalso. apply (Hu2 i.(iID)); [rewrite He; by apply (in_ids p)|]. apply elem_of_app. left. by apply in_ids.
  - intros id L [Hp Hi] HL Hnow.
    assert (id ∉ ids (Pending st1)) as Hp1.
    { rewrite ids_elem. intros (p & [Hp2|(j & Hj & -> & Hover)]%(mt_pending _ _ _ Hm) & He).
      - apply Hp. rewrite <-He. by apply in_ids.
      - specialize (Hi j Hj He). unfold leaseOver, IsZero in Hover. apply orb_true_iff in Hover as [Hz|Hz].
        + apply Z.eqb_eq in Hz. lia.
        + apply negb_true_iff, Z.ltb_ge in Hz. lia. }
    assert (id ∉ ids (map claim (List.filter sel (Pending st1)))) as Hcl.
    { rewrite ids_elem. intros (c & (p & Hp2 & _ & ->)%Hc & He). apply Hp1. rewrite <-He. by apply (in_ids p). }
    split; [|done]. split.
    + rewrite ids_elem. setoid_rewrite sort_pending. cbn. intros (q & Hq & He). apply elem_of_filter_bool in Hq as [Hq _].
      apply Hp1. rewrite <-He. by apply in_ids.
    + intros i Hin. rewrite sort_inflight in Hin. cbn in Hin. intros He. apply elem_of_app in Hin as [Hin|Hin].
      * apply Hi; [|done]. by apply (mt_inflight _ _ _ Hm).
      * exfalso. apply Hcl. rewrite <-He. by apply in_ids.
  - intros c Hcc. apply sort_inflight. cbn. apply elem_of_app. by right.
Qed.

Lemma claimBody_rel s now mtch st :
  spec (claimBody s now mtch st) (λ out, out.1.2 = None → claimRel now out.1.1 st out.2).
Proof.
  unfold claimBody. apply spec_silent; [auto using frontForState_silent|]. intros f.
  apply spec_silent; [auto using noMaintenanceDeadline_silent|]. intros d.
  eapply spec_bind; [apply maintain_spec|]. intros st1 Hm. pose proof (claimRel_body now mtch st st1 Hm) as Hr.
  destruct (claimLoop now mtch (Pending st1) [] []) as [pending claimed]. cbn in *. done.
Qed.

Lemma held_sub id L p st : held id L st → held id L (filterState p st).
Proof.
  intros [Hp Hi]. split.
  - rewrite ids_elem. intros (q & [Hq _]%elem_of_filter_bool & He). apply Hp. rewrite <-He. by apply in_ids.
  - intros i [Hin _]%elem_of_filter_bool. by apply Hi.
Qed.

Lemma held_app id L a b : held id L a → held id L b → held id L (SortState (appState a b)).
Proof.
  intros [Ha Hia] [Hb Hib]. split.
  - rewrite ids_elem. setoid_rewrite sort_pending. cbn. intros (q & [Hq|Hq]%elem_of_app & He); [apply Ha|apply Hb];
      rewrite <-He; by apply in_ids.
  - intros i Hi. rewrite sort_inflight in Hi. cbn in Hi. apply elem_of_app in Hi as [Hi|Hi]; auto.
Qed.

Lemma unique_sub p st : uniqueIDs st → uniqueIDs (filterState p st).
Proof. unfold uniqueIDs. rewrite (filter_state_perm p st), fmap_app, NoDup_app. tauto. Qed.

(** A nudge absent from a state is held there for ever. *)
Lemma held_absent id L st : id ∉ ids (itemsOf st) → held id L st.
Proof.
  unfold itemsOf. rewrite !fmap_app, !not_elem_of_app. intros (H1 & H2 & _). split; [done|].
  intros i Hi He. exfalso. apply H2. rewrite <-He. by apply in_ids.
Qed.

Lemma claimRel_scoped now s claimed st sel :
  claimRel now claimed (filterState (InScope s) st) sel →
  Forall (λ i, InScope s i = true ∧ i.(iID) ∉ ids (itemsOf (filterState (λ i, negb (InScope s i)) st))) (itemsOf sel) →
  claimRel now claimed st (SortState (appState (filterState (λ i, negb (InScope s i)) st) sel)).
Proof.
  intros [H1 H2 H3] Hf. rewrite Forall_forall in Hf. split.
  - intros Hu c Hc. apply held_app; [|apply H1; [by apply unique_sub|done]].
    apply held_absent. apply (Hf c). unfold itemsOf. rewrite !elem_of_app. right. left. by apply H3.
  - intros id L Hh HL Hn. destruct (H2 id L (held_sub _ _ _ _ Hh) HL Hn) as [Hs Hc]. split; [|done].
    apply held_app; [by apply held_sub|done].
  - intros c Hc. apply sort_inflight. cbn. apply elem_of_app. right. by apply H3.
Qed.

(** The order of the loaded state does not matter. *)
Lemma claimRel_sort now claimed st st' : claimRel now claimed (SortState st) st' → claimRel now claimed st st'.
Proof.
  intros [H1 H2 H3]. split; [| |done].
  - intros Hu. apply H1. unfold uniqueIDs. by rewrite sort_items.
  - intros id L [Hp Hi]. apply H2. split.
    + rewrite ids_elem. setoid_rewrite sort_pending. by rewrite <-ids_elem.
    + intros i. rewrite sort_inflight. apply Hi.
Qed.

Lemma claim_yields s now mtch :
  yields (claimDueQueuedNudgesMatching s now mtch) (orUnchanged (claimRel now)).
Proof.
  unfold claimDueQueuedNudgesMatching, scopeWithState, scopeState.
  destruct (negb (Strict s)); apply yields_WithState; intros st.
  - eapply spec_mono; [apply claimBody_rel|]. intros out Ho He. by apply claimRel_sort, Ho.
  - eapply spec_mono; [apply scopedBody_spec; apply claimBody_rel|]. intros out Ho He. destruct (Ho He) as (sel & Hr & Hf & ->).
    by apply claimRel_sort, claimRel_scoped.
Qed.

(** A sequence of claims, by whomever, and all they return without error. *)
Fixpoint claimMany (cs : list (Scope * Z * (Item → bool))) : nudge (list Item) :=
  match cs with
  | [] => Ret []
  | (s, now, mtch) :: cs =>
      let* r := claimDueQueuedNudgesMatching s now mtch in
      let* l := claimMany cs in
      Ret ((match r.2 with None => r.1 | Some _ => [] end) ++ l)
  end.

Lemma claimMany_held {T} (h : machine nudgeE T) file `{!QueueFile h file} cs id L t :
  Forall (λ c, c.1.2 < L) cs → 0 < L → held id L (file t) → id ∉ ids (run h (claimMany cs) t).1.
Proof.
  intros Hcs HL. revert t. induction Hcs as [|[[s now] mtch] cs Hn Hcs IH]; intros t Hh; [apply not_elem_of_nil|].
  cbn [claimMany]. rewrite run_bind. pose proof (claim_yields s now mtch T h file _ t) as Hy.
  destruct (run h (claimDueQueuedNudgesMatching s now mtch) t) as [[claimed err] t1]. cbn [fst snd] in *.
  rewrite run_bind. destruct (run h (claimMany cs) t1) as [l t2] eqn:Hr. cbn [run fst snd].
  assert (held id L (file t1) ∧ id ∉ ids (match err with None => claimed | Some _ => [] end)) as [Hh1 Hc].
  { unfold orUnchanged in Hy. cbn [fst snd] in Hy. destruct Hy as [[-> Hrel]|[He ->]]; [by apply (cr_held _ _ _ _ Hrel)|]. destruct err; [|done].
    split; [done|apply not_elem_of_nil]. }
  rewrite fmap_app, not_elem_of_app. split; [done|]. specialize (IH t1 Hh1). by rewrite Hr in IH.
Qed.

(** C32 A claimed nudge belongs to its claimant for the length of its lease:
    no claim made before the lease ends, for any target and in any scope,
    returns it again, whatever happened to the bead store in between. *)
Theorem claim_exclusive {T} (h : machine nudgeE T) (file : T → State) (Hq : QueueFile h file)
    (s : Scope) (now : Z) (mtch : Item → bool) (cs : list (Scope * Z * (Item → bool))) (t : T) (i : Item) :
  uniqueIDs (file t) → 0 ≤ now → Forall (λ c, c.1.2 < now + defaultQueuedNudgeClaimTTL) cs →
  let r := run h (claimDueQueuedNudgesMatching s now mtch) t in
  r.1.2 = None → i ∈ r.1.1 → i.(iID) ∉ ids (run h (claimMany cs) r.2).1.
Proof.
  intros Hu Hnow Hcs r Hr Hi. pose proof (claim_yields s now mtch T h file Hq t) as [[_ Hrel]|[He _]]; [|done].
  fold r in Hrel. eapply claimMany_held; [exact Hq|exact Hcs| |].
  - unfold defaultQueuedNudgeClaimTTL, Minute, Second, Millisecond. lia.
  - by apply (cr_leased _ _ _ _ Hrel).
Qed.
End leases.

(** ** Session scopes *)

Definition foreignOf (s : Scope) (st : State) : State := filterState (λ i, negb (InScope s i)) st.

(** The items of other generations are where they were. *)
Definition isolates (s : Scope) (st st' : State) : Prop :=
  (foreignOf s st').(Pending) ≡ₚ (foreignOf s st).(Pending) ∧
  (foreignOf s st').(InFlight) ≡ₚ (foreignOf s st).(InFlight) ∧
  (foreignOf s st').(Dead) ≡ₚ (foreignOf s st).(Dead).

Lemma filter_bool_perm {A} (p : A → bool) l k : l ≡ₚ k → List.filter p l ≡ₚ List.filter p k.
Proof.
  induction 1 as [|x l k _ IH|x y l|l k m _ IH1 _ IH2]; cbn; [done| | |by etrans].
  - destruct (p x); [by apply Permutation_skip|done].
  - destruct (p x), (p y); try done. apply perm_swap.
Qed.

Lemma filter_idem {A} (p : A → bool) l : List.filter p (List.filter p l) = List.filter p l.
Proof. induction l as [|x l IH]; cbn; [done|]. destruct (p x) eqn:Hp; cbn; rewrite ?Hp, ?IH; done. Qed.

Lemma filter_none {A} (p : A → bool) l : Forall (λ x, p x = false) l → List.filter p l = [].
Proof. induction 1 as [|x l Hx _ IH]; cbn; [done|]. by rewrite Hx. Qed.

Lemma foreign_bucket s (l sel b : list Item) :
  l ≡ₚ List.filter (λ i, negb (InScope s i)) b ++ sel → Forall (λ i, InScope s i = true) sel →
  List.filter (λ i, negb (InScope s i)) l ≡ₚ List.filter (λ i, negb (InScope s i)) b.
Proof.
  intros Hp Hs. rewrite (filter_bool_perm _ _ _ Hp), List.filter_app, filter_idem, (filter_none _ sel), app_nil_r; [done|].
  eapply Forall_impl; [exact Hs|]. intros i Hi. cbn. by rewrite Hi.
Qed.

Lemma isolates_refl s st : isolates s st st.
Proof. done. Qed.

Lemma isolates_sort s st st' : isolates s (SortState st) st' → isolates s st st'.
Proof.
  intros (H1 & H2 & H3). destruct (sort_buckets st) as (P & I & D).
  unfold isolates, foreignOf, filterState in *. cbn [Pending InFlight Dead] in *.
  rewrite (filter_bool_perm _ _ _ P) in H1. rewrite (filter_bool_perm _ _ _ I) in H2. by rewrite (filter_bool_perm _ _ _ D) in H3.
Qed.

Lemma scope_isolates {A} s (zero : A) enq fn :
  Strict s = true → (∀ st, silent (fn st)) → effect (scopeState s zero enq fn) (isolates s).
Proof.
  intros Hs Hfn. unfold scopeState. rewrite Hs. cbn [negb]. apply effect_WithState; [apply isolates_refl|]. intros st.
  eapply spec_mono; [apply (scopedBody_spec s zero enq fn (λ _ _ _, True))|].
  { intros st0. eapply spec_mono; [apply Hfn|]. auto. }
  intros out Ho He. destruct (Ho He) as (sel & _ & Hf & ->). apply isolates_sort.
  set (fo := filterState _ _) in *. destruct (sort_buckets (appState fo sel)) as (P & I & D).
  unfold itemsOf in Hf. rewrite !Forall_app in Hf. destruct Hf as (F1 & F2 & F3).
  assert (∀ l, Forall (λ i, InScope s i = true ∧ i.(iID) ∉ ids (itemsOf fo)) l → Forall (λ i, InScope s i = true) l) as Hw.
  { intros l Hl. eapply Forall_impl; [exact Hl|]. by intros i [? _]. }
  split_and!; [apply (foreign_bucket s _ (Pending sel))|apply (foreign_bucket s _ (InFlight sel))|
    apply (foreign_bucket s _ (Dead sel))]; auto.
Qed.

Lemma spec_weaken {A} (p : nudge A) Q : spec p Q → silent p.
Proof. intros Hp. eapply spec_mono; [done|]. auto. Qed.

Section scopes.
Context `{UnicodeTables, Codec}.

(** An operation bound to a session generation leaves every nudge of the
    other generations (and the unfenced ones) where it was, in its bucket and
    with every field unchanged. *)
Theorem scope_isolation {T} (h : machine nudgeE T) (file : T → State) (Hq : QueueFile h file) (op : qop) (s : Scope) (t : T) :
  Strict s = true → isolates s (file t) (file (run h (runOp op s) t).2).
Proof.
  intros Hs. assert (effect (runOp op s) (isolates s)) as He; [|by apply He].
  apply op_rule; [apply isolates_refl| |congruence].
  intros A zero enq fn Htx. apply scope_isolates; [done|]. intros st. by eapply spec_weaken, txBody_keeps.
Qed.
End scopes.
