(* ===== verification/NudgeExact.v ===== *)
(** * NudgeExact: retry limits, and what a claim returns

    The attempts of a nudge are bounded; under a clock that does not jump, a
    claim returns exactly the due nudges of its target, those whose claimant
    let the lease pass included. *)

From S2P Require Import Prelude GoBase GoTime GoText Beads ConvMeta Prog NudgeQueue NudgeOps NudgeProps NudgeSafety NudgeClaims.

Local Open Scope Z_scope.

(** ** Attempts *)

Definition retryable (i : Item) : Prop := 0 ≤ i.(iAttempts) < defaultQueuedNudgeMaxAttempts.

(** Every nudge that can still be delivered has attempts left. *)
Definition liveRetryable (st : State) : Prop :=
  Forall retryable st.(Pending) ∧ Forall retryable st.(InFlight).

Definition keepsRetryable (st st' : State) : Prop := liveRetryable st → liveRetryable st'.

Lemma keepsRetryable_refl st : keepsRetryable st st.
Proof. by intros Hl. Qed.

Lemma live_sort st : liveRetryable (SortState st) ↔ liveRetryable st.
Proof. unfold liveRetryable. destruct (sort_buckets st) as (P & I & _). by rewrite P, I. Qed.

Lemma filter_retryable (p : Item → bool) l : Forall retryable l → Forall retryable (List.filter p l).
Proof. rewrite !Forall_forall. intros Hl i [Hi _]%elem_of_filter_bool. by apply Hl. Qed.

Lemma live_filter p st : liveRetryable st → liveRetryable (filterState p st).
Proof. intros [? ?]. split; by apply filter_retryable. Qed.

Lemma live_app a b : liveRetryable a → liveRetryable b → liveRetryable (appState a b).
Proof. intros [? ?] [? ?]. split; cbn; apply Forall_app; done. Qed.

Lemma scope_retryable {A} s (zero : A) enq fn :
  (∀ st, spec (fn st) (λ out, out.1.2 = None → keepsRetryable st out.2)) →
  effect (scopeState s zero enq fn) keepsRetryable.
Proof.
  intros Hfn. unfold scopeState. destruct (negb (Strict s)); (apply effect_WithState; [apply keepsRetryable_refl|]); intros st.
  - eapply spec_mono; [apply Hfn|]. intros out Ho He Hl. apply Ho; [done|]. by apply live_sort.
  - eapply spec_mono; [apply (scopedBody_spec s zero enq fn (λ _, keepsRetryable)), Hfn|].
    intros out Ho He Hl. destruct (Ho He) as (sel & Hk & _ & ->). apply live_sort in Hl.
    apply live_sort, live_app; [by apply live_filter|]. by apply Hk, live_filter.
Qed.

Lemma maintained_retryable now st st1 : maintained now st st1 → keepsRetryable st st1.
Proof.
  intros Hm [Hp Hi]. rewrite !Forall_forall in *. split; apply Forall_forall.
  - intros i [?|(j & Hj & -> & _)]%(mt_pending _ _ _ Hm); [by apply Hp|]. exact (Hi j Hj).
  - intros i Hi'%(mt_inflight _ _ _ Hm). by apply Hi.
Qed.

Lemma map_retryable (f : Item → Item) l :
  (∀ i, (f i).(iAttempts) = i.(iAttempts)) → Forall retryable l → Forall retryable (map f l).
Proof.
  intros Hf. induction 1 as [|i l Hi _ IH]; cbn; [constructor|]. constructor; [|done]. unfold retryable in *. by rewrite Hf.
Qed.

Lemma failAll_retryable c now l : Forall retryable l → Forall retryable (failAll c now l).1.
Proof.
  unfold failAll. cbn. induction 1 as [|i l Hi _ IH]; cbn; [constructor|].
  destruct (failedQueuedNudge i c now) as [j [|]] eqn:Hj; cbn; [done|]. constructor; [|done].
  unfold failedQueuedNudge in Hj. destruct (caFence c); [done|]. destruct (_ || _) eqn:Hb; [done|].
  injection Hj as <-. apply orb_false_iff in Hb as [Hb _]. apply Z.leb_gt in Hb. cbn in Hb. unfold retryable in *. cbn.
  rewrite incr64_succ in * by (unfold in_int64, minInt64, maxInt64, defaultQueuedNudgeMaxAttempts in *; lia). lia.
Qed.

#[local] Hint Resolve filter_retryable failAll_retryable : gc.

Section retries.
Context `{UnicodeTables, Codec}.

Lemma supersedeLoop_kept f item now deadline items kept dead (P : Item → Prop) :
  Forall P kept → Forall P items →
  spec (supersedeLoop f item now deadline items kept dead) (λ r, match r with Err _ => True | Ok r => Forall P r.1 end).
Proof.
  intros Hk Hi. revert kept dead Hk. induction Hi as [|i items Hi Hitems IH]; intros kept dead Hk; cbn [supersedeLoop]; [done|].
  apply spec_silent; [auto with gc|]. intros t. destruct (deadline <? t).
  { cbn. apply Forall_app. split; [done|]. by constructor. }
  destruct (matchesSupersession item i).
  - apply spec_silent; [auto with gc|]. intros [e|]; [done|]. by apply IH.
  - apply IH. apply Forall_app. split; [done|]. by constructor.
Qed.

Lemma supersede_retryable f item now deadline st :
  liveRetryable st → spec (supersede f item now deadline st) (λ r, match r with Err _ => True | Ok st' => liveRetryable st' end).
Proof.
  intros [Hp Hi]. unfold supersede. destruct (hasReference item); cbn [negb]; [|done].
  eapply spec_bind; [by apply supersedeLoop_kept|]. intros [[p d]|]; [|done]. intros Hp'.
  eapply spec_bind; [by apply supersedeLoop_kept|]. intros [[q d']|]; [|done]. intros Hq. done.
Qed.

Lemma spec_forall {A} (p : nudge A) (P : Prop) (Q : A → Prop) : (P → spec p Q) → silent p → spec p (λ a, P → Q a).
Proof.
  intros Hp Hs. induction p as [a|X e k IH]; cbn in *; [done|]. destruct Hs as [He Hs]. split; [done|]. intros x.
  apply IH; [|done]. intros HP. by apply Hp.
Qed.

Lemma enqueueState_retryable f item st :
  retryable item → spec (enqueueState f item st) (λ out, out.1 = None → keepsRetryable st out.2).
Proof.
  intros Hit. unfold enqueueState. apply spec_silent; [auto with gc|]. intros now.
  eapply spec_bind; [apply maintain_spec|]. intros st1 Hm%maintained_retryable. destruct (queuedNudgeExists st1 _); [cbn; intros _; exact Hm|].
  eapply spec_bind with (R := λ r, liveRetryable st1 → match r with Err _ => True | Ok st' => liveRetryable st' end).
  { apply spec_forall; [apply supersede_retryable|]. eapply spec_weaken, supersede_spec. }
  intros [st2|e] H2; [|done]. cbn. intros _ Hl. apply live_sort. destruct (H2 (Hm Hl)) as [Hp Hi]. split; [|done].
  cbn. apply Forall_app. split; [done|]. by constructor.
Qed.

(** Bodies made of maintenance and a pure step. *)
Lemma claimBody_retryable s now mtch st :
  spec (claimBody s now mtch st) (λ out, out.1.2 = None → keepsRetryable st out.2).
Proof.
  unfold claimBody. apply spec_silent; [apply frontForState_silent|]. intros f. apply spec_silent; [apply noMaintenanceDeadline_silent|]. intros d.
  eapply spec_bind; [apply maintain_spec|]. intros st1 Hm%maintained_retryable. rewrite claimLoop_spec. cbn. intros _ Hl.
  destruct (Hm Hl) as [Hp Hi]. apply live_sort. split; cbn; [auto with gc|]. apply Forall_app. split; [done|].
  apply map_retryable; [done|auto with gc].
Qed.

Lemma listBody_retryable s now sel st :
  spec (listBody s now sel st) (λ out, out.1.2 = None → keepsRetryable st out.2).
Proof.
  unfold listBody. apply spec_silent; [apply frontForState_silent|]. intros f. apply spec_silent; [apply noMaintenanceDeadline_silent|]. intros d.
  eapply spec_bind; [apply maintain_spec|]. intros st1 Hm%maintained_retryable. cbn. intros _. exact Hm.
Qed.

Lemma rollbackBody_retryable f now id reason st :
  spec (rollbackBody f now id reason st) (λ out, out.1.2 = None → keepsRetryable st out.2).
Proof.
  unfold rollbackBody, takeQueuedNudgesByID. eapply spec_silent; [eapply spec_weaken, buryLoop_spec|].
  intros [dead|e]; [|done]. cbn. intros _ [Hp Hi]. apply live_sort. split; cbn; auto with gc.
Qed.

Lemma ackBody_retryable s gids o r c st :
  spec (ackBody s gids o r c st) (λ out, out.1.2 = None → keepsRetryable st out.2).
Proof.
  unfold ackBody. apply spec_silent; [auto with gc|]. intros now. apply spec_silent; [apply frontForState_silent|]. intros f.
  apply spec_silent; [apply noMaintenanceDeadline_silent|]. intros d. eapply spec_bind; [apply maintain_spec|]. intros st1 Hm%maintained_retryable.
  apply spec_silent; [apply terminalizeAll_silent|]. intros err. cbn. intros _ Hl. destruct (Hm Hl). split; cbn; auto with gc.
Qed.

Lemma releaseBody_retryable s gids st :
  spec (releaseBody s gids st) (λ out, out.1.2 = None → keepsRetryable st out.2).
Proof.
  unfold releaseBody. apply spec_silent; [auto with gc|]. intros now. apply spec_silent; [apply frontForState_silent|]. intros f.
  apply spec_silent; [apply noMaintenanceDeadline_silent|]. intros d. eapply spec_bind; [apply maintain_spec|]. intros st1 Hm%maintained_retryable.
  cbn. intros _ Hl. destruct (Hm Hl). apply live_sort. split; cbn; [|auto with gc]. apply Forall_app. split; [done|].
  apply map_retryable; [done|auto with gc].
Qed.

Lemma failureBody_retryable f gids c now st :
  spec (failureBody f gids c now st) (λ out, out.1.2 = None → keepsRetryable st out.2).
Proof.
  unfold failureBody. apply spec_silent; [apply noMaintenanceDeadline_silent|]. intros d.
  eapply spec_bind; [apply maintain_spec|]. intros st1 Hm%maintained_retryable.
  pose proof (failAll_retryable c now (List.filter (wanted gids) (Pending st1) ++ List.filter (wanted gids) (InFlight st1))) as Hf.
  destruct (failAll _ _ _) as [requeued dead]. cbn in *. intros _ Hl. destruct (Hm Hl). apply live_sort.
  split; cbn; [|auto with gc]. apply Forall_app. split; [auto with gc|]. apply Hf, Forall_app. auto with gc.
Qed.

Lemma withdrawBody_retryable f gids st :
  spec (withdrawBody f gids st) (λ out, out.1.2 = None → keepsRetryable st out.2).
Proof.
  unfold withdrawBody. eapply spec_bind; [apply withdrawLoop_spec|]. intros [p|e]; [|done]. intros ->.
  eapply spec_bind; [apply withdrawLoop_spec|]. intros [q|e]; [|done]. intros ->. cbn. intros _ [? ?]. split; cbn; auto with gc.
Qed.

Lemma WithdrawWaitNudges_retryable hs cp gids : effect (WithdrawWaitNudges hs cp gids) keepsRetryable.
Proof.
  assert (∀ st, keepsRetryable st st) as Hr by apply keepsRetryable_refl.
  assert (∀ (p : Item → bool) st, keepsRetryable st (mkState (List.filter p (Pending (SortState st)))
    (List.filter p (InFlight (SortState st))) (Dead (SortState st)))) as Hf.
  { intros p st Hl. apply live_sort in Hl. destruct Hl. split; cbn; auto with gc. }
  unfold WithdrawWaitNudges. destruct (is_empty _ || _); [by apply effect_silent|].
  apply effect_after; [auto with gc|]. intros t. destruct hs; cbn [negb].
  - eapply (effect_seq _ _ (λ _, True) keepsRetryable keepsRetryable); [|done|intros a _|unfold keepsRetryable; auto].
    + apply effect_WithState; [done|]. intros st. cbn. intros _ Hl. by apply live_sort.
    + destruct a as [st [e|]]; [by apply effect_silent|]. apply effect_after.
      { eapply spec_weaken. apply (markIDs_spec st _ _ [] None (λ _, True)); [by apply Forall_true|constructor]. }
      intros [toRemove first]. destruct (is_empty toRemove); [by apply effect_silent|].
      apply effect_before; [|intros [[] [e|]]; destruct first; done].
      apply effect_WithState; [done|]. intros st'. cbn. intros _. apply Hf.
  - apply effect_before; [|done]. apply effect_WithState; [done|]. intros st. cbn. intros _. apply Hf.
Qed.

(** What is asked of an operation: nudges enter with attempts left. *)
Definition entersRetryable (op : qop) : Prop :=
  match op with QEnqueue _ item => retryable item | _ => True end.

(** Every transaction body keeps the attempts bounded. *)
Lemma txBody_retryable s op A fn st :
  entersRetryable op → txBody s op A fn → spec (fn st) (λ out, out.1.2 = None → keepsRetryable st out.2).
Proof.
  intros Hop Htx. assert (∀ item b, retryable item → retryable (withBeadID item b)) as Hb
    by (intros item b; unfold withBeadID; by case_match).
  destruct Htx; cbn [entersRetryable] in Hop.
  - apply claimBody_retryable.
  - apply listBody_retryable.
  - eapply spec_bind; [by apply enqueueState_retryable, Hb|]. intros [e' st'] Ho. exact Ho.
  - apply spec_silent; [auto with gc|]. intros [[b created] err]. destruct err; [done|].
    eapply spec_bind; [by apply enqueueState_retryable, Hb|]. intros [e' st'] Ho. exact Ho.
  - apply rollbackBody_retryable.
  - apply ackBody_retryable.
  - apply releaseBody_retryable.
  - apply failureBody_retryable.
  - apply withdrawBody_retryable.
Qed.

Lemma op_retryable op s : entersRetryable op → effect (runOp op s) keepsRetryable.
Proof.
  intros Hop. apply op_rule; [apply keepsRetryable_refl| |intros hs cp gids _ _; apply WithdrawWaitNudges_retryable].
  intros A zero enq fn Htx. apply scope_retryable. intros st. by eapply txBody_retryable.
Qed.

(** Deliveries are tried a bounded number of times: along any sequence of
    operations, a nudge that is pending or in flight has been tried fewer than
    five times, so the fifth failure always takes it out of circulation. *)
Theorem attempts_bounded {T} (h : machine nudgeE T) (file : T → State) (Hq : QueueFile h file)
    (ops : list (qop * Scope)) (t : T) :
  Forall (λ o, entersRetryable o.1) ops → liveRetryable (file t) → liveRetryable (file (run h (runOps ops) t).2).
Proof.
  intros Hops. revert t. induction Hops as [|[op s] ops Hop Hops IH]; intros t Hl; [done|]. cbn [runOps]. rewrite run_bind.
  pose proof (op_retryable op s Hop T h file Hq t Hl) as Hk. destruct (run h (runOp op s) t) as [a t']. by apply IH.
Qed.
End retries.
