(* ===== verification/NudgeDelivery.v ===== *)
(** * NudgeDelivery: what a claim returns, and queues over the in-memory store

    Under a clock that stays within a day, the maintenance passes run to their
    end and a claim is exact.  The second part runs the operations against a
    concrete file and the in-memory bead store. *)

From S2P Require Import Prelude GoBase GoTime GoText Beads MemStore ConvMeta Prog.
From S2P Require Import NudgeQueue NudgeOps NudgeProps NudgeSafety NudgeClaims NudgeExact.

Local Open Scope Z_scope.

(** ** Programs under a bounded clock *)

(** The answers considered: clock readings in [C], anything else. *)
Definition answer (C : Z → Prop) {X} (e : nudgeE X) : X → Prop :=
  match e in nudgeE X return X → Prop with Now => C | _ => λ _, True end.

Fixpoint cspec (C : Z → Prop) {A} (p : nudge A) (Q : A → Prop) : Prop :=
  match p with
  | Ret a => Q a
  | Vis e k => quiet e ∧ ∀ x, answer C e x → cspec C (k x) Q
  end.

Lemma cspec_bind C {A B} (p : nudge A) (f : A → nudge B) (R : A → Prop) (Q : B → Prop) :
  cspec C p R → (∀ a, R a → cspec C (f a) Q) → cspec C (bind p f) Q.
Proof. intros Hp Hf. induction p as [a|X e k IH]; cbn in *; [auto|]. destruct Hp as [He Hk]. eauto. Qed.

Lemma cspec_mono C {A} (p : nudge A) (Q Q' : A → Prop) : cspec C p Q → (∀ a, Q a → Q' a) → cspec C p Q'.
Proof. intros Hp HQ. induction p as [a|X e k IH]; cbn in *; [auto|]. destruct Hp as [He Hk]. eauto. Qed.

Lemma cspec_spec C {A} (p : nudge A) Q : spec p Q → cspec C p Q.
Proof. intros Hp. induction p as [a|X e k IH]; cbn in *; [done|]. destruct Hp as [He Hk]. eauto. Qed.

Lemma cspec_silent C {A B} (p : nudge A) (f : A → nudge B) (Q : B → Prop) :
  silent p → (∀ a, cspec C (f a) Q) → cspec C (bind p f) Q.
Proof. intros Hp Hf. eapply cspec_bind; [by apply cspec_spec|]. auto. Qed.

Lemma cspec_now C {B} (f : Z → nudge B) (Q : B → Prop) :
  (∀ t, C t → cspec C (f t) Q) → cspec C (bind (ask Now) f) Q.
Proof. intros Hf. split; [done|]. exact Hf. Qed.

Lemma run_cspec C {T} (h : machine nudgeE T) {A} (p : nudge A) Q t :
  (∀ t, C (h _ Now t).1) → cspec C p Q → Q (run h p t).1.
Proof.
  intros HC. revert t. induction p as [a|X e k IH]; intros t Hp; cbn in *; [done|]. destruct Hp as [He Hk].
  destruct (h X e t) as [x t'] eqn:Heq. apply IH, Hk. specialize (HC t).
  destruct e; cbn; try done. by rewrite Heq in HC.
Qed.

Section exact.
Context `{UnicodeTables, Codec}.
Context (lo : Z) (C : Z → Prop) (HC : ∀ t, C t → lo ≤ t ≤ lo + 24 * Hour).

(** ** Maintenance to the end *)

Definition expired (now : Z) (i : Item) : bool := reached i.(iExpiresAt) now.

Lemma recoverLoop_exact f now deadline items kept st :
  lo + 24 * Hour ≤ deadline →
  cspec C (recoverLoop f now deadline items kept st) (λ st',
    (∀ i, i ∈ st'.(Pending) ↔ i ∈ st.(Pending) ∨
       ∃ j, j ∈ items ∧ expired now j = false ∧ leaseOver now j = true ∧ i = requeue now j)).
Proof using HC.
  intros Hd. revert kept st. induction items as [|item items IH]; intros kept st; cbn [recoverLoop]; [set_solver|].
  apply cspec_now. intros t Ht. destruct (Z.ltb_spec deadline t); [specialize (HC t Ht); lia|].
  fold (expired now item). destruct (expired now item) eqn:Hx.
  { apply cspec_silent; [auto with gc|]. intros _. eapply cspec_mono; [apply IH|]. intros st' Hst i. rewrite (Hst i). cbn.
    split; intros [?|(j & Hj & ?)]; [by left|right; exists j; set_solver|by left|right].
    exists j. apply elem_of_cons in Hj as [->|Hj]; [naive_solver congruence|done]. }
  fold (leaseOver now item). destruct (leaseOver now item) eqn:Hl; (eapply cspec_mono; [apply IH|]); intros st' Hst i; rewrite (Hst i); cbn.
  - rewrite elem_of_app, list_elem_of_singleton. split.
    + intros [[?| ->]|(j & Hj & ?)]; [by left|right; exists item; set_solver|right; exists j; set_solver].
    + intros [?|(j & [->|Hj]%elem_of_cons & ? & ? & ->)]; [by left; left|by left; right|right; exists j; done].
  - split; intros [?|(j & Hj & ?)]; [by left|right; exists j; set_solver|by left|right].
    exists j. apply elem_of_cons in Hj as [->|Hj]; [naive_solver congruence|done].
Qed.

Lemma pruneExpiredLoop_exact f now deadline items kept st :
  lo + 24 * Hour ≤ deadline →
  cspec C (pruneExpiredLoop f now deadline items kept st) (λ st',
    ∀ i, i ∈ st'.(Pending) ↔ i ∈ kept ∨ i ∈ items ∧ expired now i = false).
Proof using HC.
  intros Hd. revert kept st. induction items as [|item items IH]; intros kept st; cbn [pruneExpiredLoop]; [set_solver|].
  apply cspec_now. intros t Ht. destruct (Z.ltb_spec deadline t); [specialize (HC t Ht); lia|].
  fold (expired now item). destruct (expired now item) eqn:Hx.
  - apply cspec_silent; [auto with gc|]. intros _. eapply cspec_mono; [apply IH|]. intros st' Hst i. rewrite (Hst i).
    rewrite elem_of_cons. split; [naive_solver|]. intros [?|[[->|?] ?]]; [by left|congruence|by right].
  - eapply cspec_mono; [apply IH|]. intros st' Hst i. rewrite (Hst i), elem_of_app, list_elem_of_singleton, elem_of_cons.
    naive_solver.
Qed.

Lemma noDeadline_exact : cspec C noMaintenanceDeadline (λ d, lo + 24 * Hour ≤ d).
Proof using HC. apply cspec_now. intros t Ht. cbn in *. specialize (HC t Ht). lia. Qed.

(** The pending nudges after maintenance: those that were, and those whose
    lease is over, less the expired ones. *)
Definition deliverable (now : Z) (st : State) (i : Item) : Prop :=
  expired now i = false ∧
  (i ∈ st.(Pending) ∨ ∃ j, j ∈ st.(InFlight) ∧ leaseOver now j = true ∧ i = requeue now j).

Lemma maintain_exact f now deadline st :
  lo + 24 * Hour ≤ deadline →
  cspec C (maintain f now deadline st) (λ st', ∀ i, i ∈ st'.(Pending) ↔ deliverable now st i).
Proof using HC.
  intros Hd. unfold maintain, recoverExpiredInFlightNudges, pruneExpiredQueuedNudges, pruneDeadQueuedNudges.
  eapply cspec_bind with (R := λ st1, ∀ i, i ∈ st1.(Pending) ↔ i ∈ st.(Pending) ∨
       ∃ j, j ∈ st.(InFlight) ∧ expired now j = false ∧ leaseOver now j = true ∧ i = requeue now j).
  { eapply cspec_bind; [by apply recoverLoop_exact|]. intros st1 H1 i. cbn. fold (SortState st1).
    rewrite merge_sort_Permutation. apply H1. }
  intros st1 H1. eapply cspec_bind with (R := λ st2, ∀ i, i ∈ st2.(Pending) ↔ i ∈ st1.(Pending) ∧ expired now i = false).
  { eapply cspec_bind; [by apply pruneExpiredLoop_exact|]. intros st2 H2 i. cbn. rewrite merge_sort_Permutation, (H2 i). set_solver. }
  intros st2 H2. eapply cspec_silent; [eapply spec_weaken, pruneDeadLoop_spec|]. intros dead i. cbn. rewrite (H2 i), (H1 i).
  unfold deliverable. split.
  - intros [[?|(j & ? & ? & ? & ->)] ?]; (split; [done|]); [by left|right; by exists j].
  - intros [Hx [?|(j & ? & ? & ->)]]; (split; [|done]); [by left|right; by exists j].
Qed.

(** What a claim returns: the deliverable nudges that match and are due, each
    with its new lease. *)
Definition claimable (now : Z) (mtch : Item → bool) (st : State) (c : Item) : Prop :=
  ∃ i, deliverable now st i ∧ mtch i = true ∧ due now i = true ∧ c = setClaim i now (now + defaultQueuedNudgeClaimTTL).

Lemma claimBody_exact s now mtch st :
  cspec C (claimBody s now mtch st) (λ out, ∀ c, c ∈ out.1.1 ↔ claimable now mtch st c).
Proof using HC.
  unfold claimBody. apply cspec_silent; [apply frontForState_silent|]. intros f.
  eapply cspec_bind; [apply noDeadline_exact|]. intros d Hd.
  eapply cspec_bind; [by apply maintain_exact|]. intros st1 Hp. rewrite claimLoop_spec. intros c. cbn [fst snd app].
  unfold claimable. rewrite list_elem_of_In, List.in_map_iff. split.
  - intros (i & <- & [Hi Hs]%List.filter_In). apply andb_true_iff in Hs as [Hm Hdue]. exists i.
    split_and!; [|done|done|done]. by apply Hp, list_elem_of_In.
  - intros (i & Hi & Hm & Hdue & ->). exists i. split; [done|]. apply List.filter_In. rewrite Hm, Hdue. split; [|done].
    by apply list_elem_of_In, Hp.
Qed.
End exact.

Lemma scopedBody_exact C {A} s (zero : A) enq fn (Q : A → State → Prop) st :
  (∀ st, cspec C (fn st) (λ out, Q out.1.1 st)) →
  cspec C (scopedBody s zero enq fn st) (λ out, out.1.2 = None → Q out.1.1 (filterState (InScope s) st)).
Proof.
  intros Hfn. unfold scopedBody. destruct (match enq with Some _ => _ | None => _ end); [done|].
  destruct (List.find _ _); [done|]. eapply cspec_bind; [apply Hfn|]. intros [[a err] st1]. cbn [fst snd]. intros HQ.
  destruct err; [done|]. destruct (existsb _ _); cbn; [discriminate|]. intros _. exact HQ.
Qed.

Lemma filter_all {A} (p : A → bool) l : (∀ x, p x = true) → List.filter p l = l.
Proof. intros Hp. induction l as [|x l IH]; cbn; [done|]. by rewrite Hp, IH. Qed.

Lemma deliverable_sort p now st i :
  deliverable now (filterState p (SortState st)) i ↔ deliverable now (filterState p st) i.
Proof.
  unfold deliverable, filterState. cbn [Pending InFlight].
  setoid_rewrite elem_of_filter_bool. setoid_rewrite sort_pending. setoid_rewrite sort_inflight. done.
Qed.

Section claims.
Context `{UnicodeTables, Codec}.

(** Under a clock that stays within a day, a claim that succeeds returns
    exactly the nudges of its scope that match and are due and not expired:
    the pending ones, and the in-flight ones whose claimant let the lease run
    out, so a crashed claimant delays a nudge by at most its lease. *)
Theorem claim_exact {T} (h : machine nudgeE T) (file : T → State) (Hq : QueueFile h file) (lo : Z)
    (s : Scope) (now : Z) (mtch : Item → bool) (t : T) :
  (∀ t, lo ≤ (h _ Now t).1 ≤ lo + 24 * Hour) →
  let r := run h (claimDueQueuedNudgesMatching s now mtch) t in
  r.1.2 = None → ∀ c, c ∈ r.1.1 ↔ claimable now mtch (filterState (InScope s) (file t)) c.
Proof.
  intros Hclk r Hok c. set (C := λ t, lo ≤ t ≤ lo + 24 * Hour).
  assert (∀ st, cspec C (claimBody s now mtch st) (λ out, ∀ c, c ∈ out.1.1 ↔ claimable now mtch st c)) as Hbody.
  { intros st. by apply (claimBody_exact lo). }
  assert (∃ (body : State → nudge (list Item * option error * State)) t2, (∀ st, cspec C (body st) (λ out, out.1.2 = None → ∀ c, c ∈ out.1.1 ↔ claimable now mtch (filterState (InScope s) st) c)) ∧
    (run h (body (SortState (file t))) t2).1 = (r.1.1, None, file r.2)) as (body & t2 & Hspec & Hrun).
  { revert Hok. unfold r, claimDueQueuedNudgesMatching, scopeWithState, scopeState.
    destruct (Strict s) eqn:Hs; cbn [negb]; intros Hok.
    - exists (scopedBody s [] None (claimBody s now mtch)).
      destruct (run_WithState_cases h file [] (scopedBody s [] None (claimBody s now mtch)) t) as [[? _]|(_ & t2 & Ho)]; [|done|].
      { intros st. eapply spec_weaken, scopedBody_keeps. intros st'. apply claimBody_keeps. }
      exists t2. split; [|done]. intros st.
      by apply (scopedBody_exact C s [] None _ (λ l st, ∀ c, c ∈ l ↔ claimable now mtch st c)).
    - exists (claimBody s now mtch).
      destruct (run_WithState_cases h file [] (claimBody s now mtch) t) as [[? _]|(_ & t2 & Ho)]; [|done|].
      { intros st. eapply spec_weaken, claimBody_keeps. }
      exists t2. split; [|done]. intros st. eapply cspec_mono; [apply Hbody|]. intros out Ho' _ c'. rewrite (Ho' c').
      unfold filterState, InScope. rewrite Hs. cbn [negb orb]. rewrite !filter_all by done. by destruct st. }
  pose proof (run_cspec C h _ _ t2 Hclk (Hspec (SortState (file t)))) as Hc. rewrite Hrun in Hc. cbn in Hc.
  rewrite (Hc eq_refl c). unfold claimable. by setoid_rewrite deliverable_sort.
Qed.
End claims.

(** ** Close reasons *)

(** Every close reason the front door stamps has at least the twenty
    characters the close validator asks for, whatever the state code. *)
Theorem close_reason_floor (stateCode : string) : 20 ≤ Z.of_nat (String.length (canonicalCloseReason stateCode)).
Proof.
  unfold canonicalCloseReason. repeat case_match; try (vm_compute; discriminate).
  - by apply Z.leb_le.
  - rewrite length_string_app. cbn [String.length]. lia.
Qed.

(** ** A queue over the in-memory store *)

Record QWorld := mkQWorld { qFile : State; qStore : MemStore }.

Definition nudgeErr (e : StoreError) : storeErr :=
  match e with
  | ErrNotFound context id => mkStoreErr true (context +:+ " " +:+ id)
  | _ => mkStoreErr false "store error"
  end.

Definition answerOf {A B} (zero : B) (f : A → B) (r : res StoreError A) : B * option storeErr :=
  match r with Ok a => (f a, None) | Err e => (zero, Some (nudgeErr e)) end.

(** The effects, with the clock stopped at [clock] and a store at hand. *)
Definition cityQueue (clock : Z) : machine nudgeE QWorld := λ X e,
  match e in nudgeE X return QWorld → X * QWorld with
  | Now => λ w, (clock, w)
  | QLock => λ w, (None, w)
  | QLoad => λ w, ((w.(qFile), None), w)
  | QWrite st => λ w, (None, mkQWorld st w.(qStore))
  | OpenStore => λ w, (true, w)
  | BList q => λ w, (answerOf [] id (ListBeads w.(qStore) q), w)
  | BGet i => λ w, (answerOf zeroBead id (Get w.(qStore) i), w)
  | BCreate b => λ w, let '(r, m) := Create clock b w.(qStore) in (answerOf zeroBead id r, mkQWorld w.(qFile) m)
  | BSetMetadata i k v => λ w,
      let '(r, m) := SetMetadata clock i k v w.(qStore) in ((answerOf () id r).2, mkQWorld w.(qFile) m)
  | BSetMetadataBatch i kvs => λ w,
      let '(r, m) := SetMetadataBatch clock i kvs w.(qStore) in ((answerOf () id r).2, mkQWorld w.(qFile) m)
  | BClose i => λ w, let '(r, m) := Close clock i w.(qStore) in ((answerOf () id r).2, mkQWorld w.(qFile) m)
  | Ping => λ w, ((), w)
  | Warn _ _ => λ w, ((), w)
  end.

#[export] Instance cityQueue_file clock : QueueFile (cityQueue clock) qFile.
Proof.
  split; intros *; cbn; try done. destruct e; cbn; try done.
  - by destruct (SetMetadata _ _ _ _ _).
  - by destruct (SetMetadataBatch _ _ _ _).
  - by destruct (Close _ _ _).
Qed.

#[local] Instance plainTables : UnicodeTables :=
  {| lowerTable := λ r, r; letterTable := λ _, false; digitTable := λ _, false |}.
#[local] Instance plainCodec : Codec :=
  {| jsonMarshal := refID; jsonUnmarshal := λ s, Some (mkReference "bead" s); parseTime := λ _, None; quote := λ s, s |}.

(** Two nudges for the mayor: one pending, one whose claimant went away. *)
Definition t0 : Z := 1000 * Hour.
Definition mayorNudge (id : string) : Item := newQueuedNudgeWithOptions id "mayor" "wake" "mail" "" "" None (t0 - Minute).
Definition twoNudges : QWorld :=
  mkQWorld (mkState [mayorNudge "n1"] [setClaim (mayorNudge "n2") (t0 - 3 * Minute) (t0 - Minute)] []) NewMemStore.

Definition toMayor (i : Item) : bool := i.(iAgent) == "mayor".
Abbreviation claimNow := (claimDueQueuedNudgesMatching globalScope t0 toMayor).

Lemma two_unique : uniqueIDs (qFile twoNudges).
Proof. unfold uniqueIDs. cbn. repeat constructor; set_solver. Qed.

Lemma queue_conserved_witness :
  ∃ new, adds (QEnqueue true (mayorNudge "n3")) new ∧
    accounted (goneFrom (qFile twoNudges) []) new (qFile twoNudges)
      (qFile (run (cityQueue t0) (runOp (QEnqueue true (mayorNudge "n3")) globalScope) twoNudges).2).
Proof. exact (queue_conserved (cityQueue t0) qFile _ (QEnqueue true (mayorNudge "n3")) globalScope twoNudges). Defined.

Lemma queue_ids_unique_witness :
  uniqueIDs (qFile (run (cityQueue t0)
    (runOps [(QClaim t0 toMayor, globalScope); (QEnqueue true (mayorNudge "n3"), globalScope)]) twoNudges).2).
Proof. apply (queue_ids_unique (cityQueue t0) qFile _ _ twoNudges two_unique). Defined.

(** Both nudges are claimed, and not claimed again a minute later. *)
Lemma claim_exclusive_witness :
  idOf (setClaim (mayorNudge "n1") t0 (t0 + 2 * Minute)) ∉
  ids (run (cityQueue t0) (claimMany [(globalScope, t0 + Minute, toMayor)]) (run (cityQueue t0) claimNow twoNudges).2).1.
Proof.
  apply (claim_exclusive (cityQueue t0) qFile _ globalScope t0 toMayor [(globalScope, t0 + Minute, toMayor)] twoNudges).
  - exact two_unique.
  - vm_compute. discriminate.
  - repeat constructor.
  - vm_compute. reflexivity.
  - apply list_elem_of_lookup_2 with 0%nat. vm_compute. reflexivity.
Defined.

(** A scoped claim that takes its own nudge and leaves the others alone. *)
Definition fencedNudge : Item := newQueuedNudgeWithOptions "n9" "mayor" "wake" "mail" "s1" "e1" None (t0 - Minute).
Definition fencedWorld : QWorld :=
  mkQWorld (mkState [mayorNudge "n1"; fencedNudge] [setClaim (mayorNudge "n2") (t0 - 3 * Minute) (t0 - Minute)] []) NewMemStore.

Lemma scope_isolation_witness :
  isolates (mkScope "s1" "e1") (qFile fencedWorld)
    (qFile (run (cityQueue t0) (runOp (QClaim t0 toMayor) (mkScope "s1" "e1")) fencedWorld).2).
Proof. apply (scope_isolation (cityQueue t0) qFile _ (QClaim t0 toMayor) (mkScope "s1" "e1") fencedWorld). reflexivity. Defined.

Lemma attempts_bounded_witness :
  liveRetryable (qFile (run (cityQueue t0)
    (runOps [(QFail true ["n1"] (mkCause "offline" false) t0, globalScope); (QEnqueue true (mayorNudge "n3"), globalScope)])
    twoNudges).2).
Proof.
  apply (attempts_bounded (cityQueue t0) qFile _ _ twoNudges).
  - repeat constructor; vm_compute; discriminate.
  - split; repeat constructor; vm_compute; discriminate.
Defined.

Lemma claim_exact_witness :
  setClaim (mayorNudge "n1") t0 (t0 + 2 * Minute) ∈ (run (cityQueue t0) claimNow twoNudges).1.1 ↔
  claimable t0 toMayor (filterState (InScope globalScope) (qFile twoNudges)) (setClaim (mayorNudge "n1") t0 (t0 + 2 * Minute)).
Proof.
  apply (claim_exact (cityQueue t0) qFile _ t0 globalScope t0 toMayor twoNudges).
  - intros w. vm_compute. split; discriminate.
  - vm_compute. reflexivity.
Defined.
