(* ===== verification/SessionState.v ===== *)
(** * SessionState: session states, commands and metadata patches

    Models [internal/session]: the command table of [state_machine.go], the
    states of [manager.go], the sleep reasons ([sleep_reason.go]) and the
    metadata patches of [lifecycle_transition.go].  A patch is a finite map; an
    empty value clears a key, because an absent key reads as the empty string.
    Where the code replaces a zero time by the current one, [clk] is the
    reading of the clock. *)

From S2P Require Import Prelude GoBase GoText GoTime.

Local Open Scope Z_scope.

(** ** States *)

Abbreviation State := string (only parsing).

Definition StateActive : State := "active".
Definition StateAsleep : State := "asleep".
Definition StateSuspended : State := "suspended".
Definition StateStartPending : State := "start-pending".
Definition StateCreating : State := "creating".
Definition StateFailedCreate : State := "failed-create".
Definition StateDraining : State := "draining".
Definition StateDrained : State := "drained".
Definition StateAwake : State := "awake".
Definition StateArchived : State := "archived".
Definition StateQuarantined : State := "quarantined".
Definition StateClosed : State := "closed".
Definition StateNone : State := "".
Definition anyState : State := "*".

Definition normalizeInfoState (state : State) : State :=
  if state == "awake" then StateActive else if state == "drained" then StateAsleep else state.

Definition canonicalLifecycleState (rawState : State) : State :=
  if (rawState == StateNone) || (rawState == StateAwake) then StateActive else rawState.

(** ** Commands *)

Abbreviation TransitionCommand := string (only parsing).

Definition CmdCreate : TransitionCommand := "create".
Definition CmdReady : TransitionCommand := "ready".
Definition CmdSuspend : TransitionCommand := "suspend".
Definition CmdWake : TransitionCommand := "wake".
Definition CmdSleep : TransitionCommand := "sleep".
Definition CmdQuarantine : TransitionCommand := "quarantine".
Definition CmdDrain : TransitionCommand := "drain".
Definition CmdArchive : TransitionCommand := "archive".
Definition CmdClose : TransitionCommand := "close".

(** The table, as the association list of the Go map literal. *)
Definition transitions : list (TransitionCommand * list (State * State)) :=
  [ (CmdCreate, [(StateNone, StateStartPending)]);
    (CmdReady, [(StateCreating, StateActive)]);
    (CmdSuspend, [(StateActive, StateSuspended); (StateAsleep, StateSuspended); (StateQuarantined, StateSuspended)]);
    (CmdWake, [(StateAsleep, StateActive); (StateSuspended, StateActive); (StateQuarantined, StateActive); (StateArchived, StateActive)]);
    (CmdSleep, [(StateActive, StateAsleep)]);
    (CmdQuarantine, [(StateActive, StateQuarantined); (StateAsleep, StateQuarantined)]);
    (CmdDrain, [(StateActive, StateDraining)]);
    (CmdArchive, [(StateActive, StateArchived); (StateAsleep, StateArchived); (StateSuspended, StateArchived);
                  (StateQuarantined, StateArchived); (StateDraining, StateArchived)]);
    (CmdClose, [(anyState, StateClosed)]) ].

(** Lookup in an association list whose keys are distinct. *)
Fixpoint assoc {A} (k : string) (l : list (string * A)) : option A :=
  match l with
  | [] => None
  | (k', v) :: l => if k == k' then Some v else assoc k l
  end.

Inductive TransitionError :=
| UnknownCommand (cmd : TransitionCommand)
| IllegalTransition (from : State) (cmd : TransitionCommand).

#[export] Instance TransitionError_eq_dec : EqDecision TransitionError.
Proof. solve_decision. Defined.

Definition Transition (from : State) (cmd : TransitionCommand) : res TransitionError State :=
  match assoc cmd transitions with
  | None => Err (UnknownCommand cmd)
  | Some table =>
      match assoc from table with
      | Some to => Ok to
      | None =>
          match (if from != StateNone then assoc anyState table else None) with
          | Some to => Ok to
          | None => Err (IllegalTransition from cmd)
          end
      end
  end.

(** [AllowedCommands]: [order] is the order in which the range over the map
    visits the table, which Go leaves open; the result is sorted. *)
Definition accepts (from : State) (entry : TransitionCommand * list (State * State)) : bool :=
  match assoc from entry.2 with
  | Some _ => true
  | None => (from != StateNone) && bool_decide (is_Some (assoc anyState entry.2))
  end.

Definition cmdLe (a b : TransitionCommand) : Prop := sltb b a = false.

#[export] Instance cmdLe_dec : RelDecision cmdLe.
Proof. intros a b. unfold cmdLe. apply _. Defined.

Definition AllowedCommands (order : list (TransitionCommand * list (State * State))) (from : State) : list TransitionCommand :=
  merge_sort cmdLe (fst <$> filter (λ entry, accepts from entry = true) order).

(** ** Sleep reasons *)

Definition SleepReasonIdle : string := "idle".
Definition SleepReasonIdleTimeout : string := "idle-timeout".
Definition SleepReasonNoWakeReason : string := "no-wake-reason".
Definition SleepReasonConfigDrift : string := "config-drift".
Definition SleepReasonDrained : string := "drained".
Definition SleepReasonCityStop : string := "city-stop".
Definition SleepReasonUserHold : string := "user-hold".
Definition SleepReasonWaitHold : string := "wait-hold".
Definition SleepReasonRateLimit : string := "rate_limit".
Definition SleepReasonFailedCreate : string := "failed-create".
Definition SleepReasonProviderTerminalError : string := "provider-terminal-error".
Definition SleepReasonRuntimeMissing : string := "runtime-missing".
Definition SleepReasonQuarantine : string := "quarantine".
Definition SleepReasonContextChurn : string := "context-churn".
Definition SleepReasonMaxSessionAge : string := "max-session-age".
Definition SleepReasonAssignedWorkExhausted : string := "assigned-work-exhausted".

Definition oneOf (s : string) (l : list string) : bool := existsb (λ x, s == x) l.

Definition IsDeliberateSleepReason (reason : string) : bool :=
  oneOf (TrimSpace reason)
    [SleepReasonIdle; SleepReasonIdleTimeout; SleepReasonNoWakeReason; SleepReasonConfigDrift; SleepReasonDrained;
     SleepReasonCityStop; SleepReasonUserHold; SleepReasonWaitHold; SleepReasonRateLimit; SleepReasonFailedCreate;
     SleepReasonProviderTerminalError].

(** ** Patches *)

Abbreviation MetadataPatch := (gmap string string) (only parsing).

(** A map literal; its keys are distinct. *)
Definition literal (l : list (string * string)) : MetadataPatch := list_to_map l.

(** [p[k] = ""] for each of [ks]. *)
Definition clearKeys (ks : list string) (p : MetadataPatch) : MetadataPatch := foldl (λ p k, <[k := ""]> p) p ks.

(** [MetadataPatch.Apply]: the entries of the patch win. *)
Definition Apply (p : MetadataPatch) (meta : gmap string string) : gmap string string := p ∪ meta.

Definition PrimedAtMetadataKey : string := "primed_at".
Definition PrimingAttemptedAtMetadataKey : string := "priming_attempted_at".
Definition PromptHashMetadataKey : string := "prompt_hash".
Definition primingResetKeys : list string :=
  [PrimedAtMetadataKey; PrimingAttemptedAtMetadataKey; PromptHashMetadataKey].
Definition startupDialogVerifiedKey : string := "startup_dialog_verified".
Definition CurrentBeadIDKey : string := "currently_processing_bead_id".
Definition ResetCommittedAtKey : string := "reset_committed_at".
Definition CanonicalInstanceNameMetadata : string := "canonical_instance_name".
Definition CanonicalPoolSlotMetadata : string := "canonical_pool_slot".

Definition clearPrimingMarkers (p : MetadataPatch) : MetadataPatch := clearKeys primingResetKeys p.

Definition freshWakeConversationResetKeys : list string :=
  ["session_key"; "started_config_hash"; "started_live_hash"; "live_hash"; startupDialogVerifiedKey;
   PrimedAtMetadataKey; PrimingAttemptedAtMetadataKey; PromptHashMetadataKey].

Definition applyFreshWakeConversationReset (p : MetadataPatch) : MetadataPatch :=
  clearPrimingMarkers (clearKeys ["started_config_hash"; "started_live_hash"; "live_hash"; startupDialogVerifiedKey] p).

Definition freeCanonicalIdentityMetadata (p : MetadataPatch) : MetadataPatch :=
  clearKeys [CanonicalInstanceNameMetadata; CanonicalPoolSlotMetadata] p.

Definition orNow (clk now : Z) : Z := if IsZero now then clk else now.

Definition pendingCreateStartedAt (clk now : Z) : string := FormatRFC3339 (orNow clk now).

Definition awakeIntervalStartedAt (clk now : Z) : string := FormatRFC3339Nano (orNow clk now).

Definition RequestExplicitWakePatch (clk : Z) (reason : string) (now : Z) : MetadataPatch :=
  literal [("wake_request", reason); ("wake_requested_at", FormatRFC3339 (orNow clk now))].

Definition RequestWakePatch (clk : Z) (reason : string) (now : Z) : MetadataPatch :=
  literal
    [("state", StateStartPending); ("state_reason", reason); ("pending_create_claim", "true");
     ("pending_create_started_at", pendingCreateStartedAt clk now); ("held_until", ""); ("quarantined_until", "");
     ("sleep_reason", ""); ("wait_hold", ""); ("sleep_intent", ""); ("wake_attempts", "0"); ("churn_count", "0")].

Record PreWakePatchInput := mkPreWakePatchInput {
  pwGeneration : Z;
  pwInstanceToken : string;
  pwContinuationEpoch : Z;
  pwNow : Z;
  pwSleepReason : string;
  pwFreshWake : bool
}.

Definition PreWakePatch (clk : Z) (input : PreWakePatchInput) : MetadataPatch :=
  let patch := literal
    [("instance_token", input.(pwInstanceToken)); ("continuation_epoch", Itoa input.(pwContinuationEpoch));
     ("continuation_reset_pending", ""); ("detached_at", ""); ("state", StateCreating);
     ("pending_create_started_at", pendingCreateStartedAt clk input.(pwNow));
     ("last_woke_at", FormatRFC3339 input.(pwNow)); ("sleep_reason", input.(pwSleepReason)); ("sleep_intent", "");
     ("generation", Itoa input.(pwGeneration)); ("wake_request", ""); ("wake_requested_at", "")] in
  if input.(pwFreshWake) then applyFreshWakeConversationReset (<["session_key" := ""]> patch) else patch.

Definition ContinuationResetWakePatch (clk now : Z) : MetadataPatch :=
  let patch := RequestWakePatch clk "continuation-reset" now in
  <["continuation_reset_pending" := "true"]> (applyFreshWakeConversationReset (<["session_key" := ""]> patch)).

Definition ClearWakeBlockersPatch (state : State) (sleepReason : string) : MetadataPatch :=
  let patch := literal
    [("held_until", ""); ("quarantined_until", ""); ("wait_hold", ""); ("sleep_intent", "");
     ("wake_attempts", "0"); ("churn_count", "0")] in
  let patch := if oneOf state [StateSuspended; StateDrained] then <["state" := StateAsleep]> patch else patch in
  if oneOf sleepReason [SleepReasonUserHold; SleepReasonWaitHold; SleepReasonQuarantine; SleepReasonContextChurn;
                        SleepReasonRateLimit; SleepReasonDrained]
  then <["sleep_reason" := ""]> patch else patch.

Definition ClearExpiredHoldPatch (sleepReason : string) : MetadataPatch :=
  let patch := literal [("held_until", "")] in
  if sleepReason == SleepReasonUserHold then <["sleep_reason" := ""]> patch else patch.

Definition ClearExpiredQuarantinePatch (sleepReason : string) : MetadataPatch :=
  let patch := literal [("quarantined_until", ""); ("wake_attempts", "0"); ("churn_count", "0")] in
  if oneOf sleepReason [SleepReasonQuarantine; SleepReasonContextChurn; SleepReasonRateLimit]
  then <["sleep_reason" := ""]> patch else patch.

Definition ConfirmStartedPatch (clk now : Z) : MetadataPatch :=
  literal
    [("state", StateActive); ("state_reason", "creation_complete"); ("creation_complete_at", FormatRFC3339 now);
     ("awake_started_at", awakeIntervalStartedAt clk now); ("pending_create_claim", "");
     ("pending_create_started_at", ""); ("sleep_reason", "")].

Record CommitStartedPatchInput := mkCommitStartedPatchInput {
  csCoreHash : string;
  csLiveHash : string;
  csProvisionHash : string;
  csLaunchHash : string;
  csCoreBreakdown : string;
  csConfirmState : bool;
  csClearSleepReason : bool;
  csClearPendingCreateClaim : bool;
  csStartsAwakeInterval : bool;
  csNow : Z;
  csPrimedAt : Z;
  csPromptHash : string
}.

Definition CommitStartedPatch (clk : Z) (input : CommitStartedPatchInput) : MetadataPatch :=
  let patch := literal
    [("started_config_hash", input.(csCoreHash)); ("live_hash", input.(csLiveHash));
     ("started_live_hash", input.(csLiveHash)); ("started_provision_hash", input.(csProvisionHash));
     ("started_launch_hash", input.(csLaunchHash)); ("continuation_reset_pending", ""); (ResetCommittedAtKey, "")] in
  let patch := if input.(csCoreBreakdown) != "" then <["core_hash_breakdown" := input.(csCoreBreakdown)]> patch else patch in
  let patch := if input.(csConfirmState)
    then <["pending_create_started_at" := ""]> (<["state_reason" := "creation_complete"]> (<["state" := StateActive]> patch))
    else patch in
  let patch := if negb (IsZero input.(csNow)) then <["creation_complete_at" := FormatRFC3339 input.(csNow)]> patch else patch in
  let patch := if input.(csClearSleepReason) then <["sleep_reason" := ""]> patch else patch in
  let patch := if input.(csClearPendingCreateClaim)
    then <["pending_create_started_at" := ""]> (<["pending_create_claim" := ""]> patch) else patch in
  let patch := if input.(csStartsAwakeInterval)
    then <["awake_started_at" := awakeIntervalStartedAt clk input.(csNow)]> patch else patch in
  if negb (IsZero input.(csPrimedAt)) && (input.(csPromptHash) != "")
  then <[PromptHashMetadataKey := input.(csPromptHash)]> (<[PrimedAtMetadataKey := FormatRFC3339 input.(csPrimedAt)]> patch)
  else patch.

Definition BeginDrainPatch (now : Z) (reason : string) : MetadataPatch :=
  literal [("state", StateDraining); ("state_reason", reason); ("drain_at", FormatRFC3339 now)].

Definition DrainAckStopPendingReason : string := "drain-ack-stop-pending".

Definition DrainAckStopPendingPatch (now : Z) : MetadataPatch :=
  clearKeys ["pending_create_claim"; "pending_create_started_at"] (BeginDrainPatch now DrainAckStopPendingReason).

Definition SleepPatch (now : Z) (reason : string) : MetadataPatch :=
  literal
    [("state", StateAsleep); ("state_reason", ""); ("sleep_reason", reason); ("last_woke_at", "");
     ("pending_create_claim", ""); ("pending_create_started_at", ""); ("sleep_intent", "");
     ("slept_at", FormatRFC3339 now)].

(** The fresh-wake tail shared by the two drain completions. *)
Definition freshWakeTail (freshWake : bool) (patch : MetadataPatch) : MetadataPatch :=
  if freshWake
  then <["continuation_reset_pending" := "true"]> (applyFreshWakeConversationReset (<["session_key" := ""]> patch))
  else patch.

Definition AcknowledgeDrainPatch (freshWake : bool) : MetadataPatch :=
  freshWakeTail freshWake (literal
    [("state", StateDrained); ("state_reason", ""); ("last_woke_at", ""); ("pending_create_claim", "");
     ("pending_create_started_at", "")]).

Definition CompleteDrainPatch (now : Z) (reason : string) (freshWake : bool) : MetadataPatch :=
  freshWakeTail freshWake (<["state_reason" := ""]> (SleepPatch now reason)).

Definition RestartRequestPatch (clk : Z) (sessionKey : string) (now : Z) : MetadataPatch :=
  let patch := clearPrimingMarkers (literal
    [("restart_requested", ""); ("started_config_hash", ""); ("continuation_reset_pending", "true");
     (ResetCommittedAtKey, FormatRFC3339 (orNow clk now)); ("last_woke_at", ""); ("pending_create_claim", "");
     ("pending_create_started_at", "")]) in
  if sessionKey != "" then <["session_key" := sessionKey]> patch else patch.

Definition ConfigDriftResetPatch (clk : Z) (nextState : State) (sessionKey : string) (now : Z) : MetadataPatch :=
  let patch := applyFreshWakeConversationReset (literal
    [("state", nextState); ("last_woke_at", ""); ("restart_requested", ""); ("continuation_reset_pending", "true");
     ("pending_create_claim", ""); ("pending_create_started_at", "")]) in
  let patch := if (nextState == StateCreating) || (nextState == StateStartPending)
    then <["pending_create_started_at" := pendingCreateStartedAt clk now]> (<["pending_create_claim" := "true"]> patch)
    else patch in
  if sessionKey != "" then <["session_key" := sessionKey]> patch else patch.

Definition boolString (b : bool) : string := if b then "true" else "false".

Definition ArchivePatch (now : Z) (reason : string) (continuityEligible : bool) : MetadataPatch :=
  literal
    [("state", StateArchived); ("state_reason", reason); ("archived_at", FormatRFC3339 now);
     ("continuity_eligible", boolString continuityEligible); ("pending_create_claim", "");
     ("pending_create_started_at", "")].

Definition CanonicalCloseReason (stateCode : string) : string :=
  match assoc stateCode
    [("", "session terminated: unknown state");
     ("gc_swept", "session swept: no assigned work in any rig");
     ("orphaned", "session orphaned: configured agent removed");
     ("drained", "session drained: pool slot retired by reconciler");
     ("failed-create", "session create failed: aborted before creation_complete");
     ("stale-session", "session stale: no liveness signal beyond threshold");
     ("duplicate", "session retired: duplicate of canonical bead");
     ("duplicate-repair", "session retired: duplicate-repair canonicalization");
     ("reconfigured", "session reconfigured: superseded by new agent config");
     ("suspended", "session suspended: agent disabled in city config")] with
  | Some r => r
  | None =>
      if 20 <=? Z.of_nat (String.length stateCode) then stateCode
      else "session terminated: " +:+ stateCode
  end.

Definition ClosePatch (now : Z) (stateCode : string) : MetadataPatch :=
  let ts := FormatRFC3339 now in
  literal [("state", stateCode); ("close_reason", CanonicalCloseReason stateCode); ("closed_at", ts); ("synced_at", ts)].

Definition RetireNamedSessionPatch (now : Z) (reason identity : string) : MetadataPatch :=
  let patch := clearKeys ["alias"; "session_name"; "session_name_explicit"] (ArchivePatch now reason false) in
  let patch := <["synced_at" := FormatRFC3339 now]> (freeCanonicalIdentityMetadata patch) in
  let patch := clearKeys ["held_until"; "quarantined_until"; "wait_hold"; "sleep_intent"; "sleep_reason"] patch in
  if identity != "" then <["retired_named_identity" := identity]> patch else patch.

Definition QuarantinePatch (until cycle : Z) : MetadataPatch :=
  literal
    [("state", StateQuarantined); ("state_reason", "crash-loop"); ("quarantined_until", FormatRFC3339 until);
     ("quarantine_cycle", Itoa cycle); ("last_woke_at", "")].

Definition ReactivatePatch (continuityEligible : bool) : MetadataPatch :=
  literal
    [("state", StateAsleep); ("state_reason", "reactivated"); ("pending_create_claim", "");
     ("pending_create_started_at", ""); ("continuity_eligible", boolString continuityEligible);
     ("quarantined_until", ""); ("crash_count", "0"); ("archived_at", "")].
