(* ===== verification/SessionExits.v ===== *)
(** * SessionExits: deciders for dead sessions and lifecycle timers

    Models [internal/session/lifecycle_exits.go] and [lifecycle_timers.go]: pure
    ladders over facts the reconciler gathers.  An expensive fact starts out
    unknown; a ladder that needs it asks for it, and the caller fills it in and
    decides again ([runExit], [runTimer]). *)

From S2P Require Import Prelude GoBase GoText GoTime SessionState.

Local Open Scope Z_scope.

(** ** Exits *)

Inductive ScreenFact := ScreenUnknown | ScreenRateLimit | ScreenOther.

Inductive ExitOutcome :=
| ExitNone | ExitGatherScreen | ExitRateLimitQuarantine | ExitRapidCrash | ExitChurn | ExitProductiveDeath.

Record ExitFacts := mkExitFacts {
  xfAlive : bool;
  xfSubprocessProvider : bool;
  xfDrainPending : bool;
  xfPendingCreateClaim : bool;
  xfPendingCreateStartInFlight : bool;
  xfSleepReason : string;
  xfLastWokeAt : string;
  xfNow : Z;
  xfStabilityThreshold : Z;
  xfProductivityThreshold : Z;
  xfScreenAvailable : bool;
  xfScreen : ScreenFact
}.

Definition parseWakeStamp (raw : string) : option Z := if raw == "" then None else ParseRFC3339 raw.

Definition DecideSessionExit (f : ExitFacts) : ExitOutcome :=
  if f.(xfAlive) then ExitNone
  else
    let woke := parseWakeStamp f.(xfLastWokeAt) in
    let wokeValid := bool_decide (is_Some woke) in
    let elapsed := timeSub f.(xfNow) (default 0 woke) in
    let crashCandidate := negb f.(xfSubprocessProvider) && negb f.(xfDrainPending) && wokeValid &&
      negb f.(xfPendingCreateStartInFlight) in
    let rest :=
      if crashCandidate && (elapsed <? f.(xfStabilityThreshold)) then ExitRapidCrash
      else if f.(xfPendingCreateClaim) || f.(xfSubprocessProvider) || f.(xfDrainPending) ||
              IsDeliberateSleepReason f.(xfSleepReason) || negb wokeValid
      then ExitNone
      else if elapsed <? f.(xfStabilityThreshold) then ExitNone
      else if f.(xfProductivityThreshold) <=? elapsed then ExitProductiveDeath
      else ExitChurn in
    if crashCandidate && f.(xfScreenAvailable) then
      match f.(xfScreen) with
      | ScreenUnknown => ExitGatherScreen
      | ScreenRateLimit => ExitRateLimitQuarantine
      | ScreenOther => rest
      end
    else rest.

(** ** Accruals and their patches *)

Record ExitAccrual := mkExitAccrual { eaPatch : MetadataPatch; eaQuarantined : bool }.

Definition exitAccrual (counterKey : string) (next threshold : Z) (sleepReason : string) (until : Z) : ExitAccrual :=
  let count := Itoa next in
  if threshold <=? next
  then mkExitAccrual (literal [(counterKey, count); ("quarantined_until", FormatRFC3339 until); ("sleep_reason", sleepReason)]) true
  else mkExitAccrual (literal [(counterKey, count)]) false.

Definition WakeFailureAccrualPatch (priorAttempts maxAttempts until : Z) : ExitAccrual :=
  exitAccrual "wake_attempts" (incr64 priorAttempts) maxAttempts SleepReasonQuarantine until.

Definition ChurnAccrualPatch (priorCycles maxCycles until : Z) : ExitAccrual :=
  exitAccrual "churn_count" (incr64 priorCycles) maxCycles SleepReasonContextChurn until.

Definition ConversationResetPatch (clearStartedConfigHash : bool) : MetadataPatch :=
  let patch := literal [("session_key", ""); ("continuation_reset_pending", "true")] in
  if clearStartedConfigHash then clearPrimingMarkers (<["started_config_hash" := ""]> patch) else patch.

Definition RateLimitQuarantinePatch (until : Z) : MetadataPatch :=
  literal
    [("state", StateAsleep); ("quarantined_until", FormatRFC3339 until); ("sleep_reason", SleepReasonRateLimit);
     ("last_woke_at", ""); ("pending_create_claim", ""); ("pending_create_started_at", "")].

(** ** Lifecycle timers *)

Inductive PendingFact := PendingUnknown | PendingNo | PendingYes.
Inductive AssignedWorkFact := AssignedWorkUnknown | AssignedWorkNone | AssignedWorkHas.

Inductive TimerAction :=
| TimerActionNone | TimerActionGatherPending | TimerActionGatherAssignedWork | TimerActionDefer | TimerActionStop.

Record TimerFacts := mkTimerFacts {
  tfTriggered : bool;
  tfBlocker : string;
  tfPending : PendingFact;
  tfAssignedWork : AssignedWorkFact
}.

Record TimerDecision := mkTimerDecision {
  tdAction : TimerAction;
  tdTraceReason : string;
  tdTraceOutcome : string;
  tdSleepReason : string;
  tdCancelDrain : bool;
  tdSkipWakePass : bool
}.

Definition onlyAction (a : TimerAction) : TimerDecision := mkTimerDecision a "" "" "" false false.

Definition deferDecision (reason outcome : string) : TimerDecision :=
  mkTimerDecision TimerActionDefer reason outcome "" false false.

Definition DecideMaxSessionAge (f : TimerFacts) : TimerDecision :=
  if negb f.(tfTriggered) then onlyAction TimerActionNone
  else if f.(tfBlocker) != "" then deferDecision f.(tfBlocker) ("deferred_" +:+ f.(tfBlocker))
  else match f.(tfPending) with
  | PendingUnknown => onlyAction TimerActionGatherPending
  | PendingYes => deferDecision "pending" "deferred_pending"
  | PendingNo =>
      match f.(tfAssignedWork) with
      | AssignedWorkUnknown => onlyAction TimerActionGatherAssignedWork
      | AssignedWorkHas => deferDecision "assigned_work" "deferred_busy"
      | AssignedWorkNone => mkTimerDecision TimerActionStop "max_session_age" "stop" SleepReasonMaxSessionAge false false
      end
  end.

Definition DecideIdleTimeout (f : TimerFacts) : TimerDecision :=
  if negb f.(tfTriggered) then onlyAction TimerActionNone
  else if f.(tfBlocker) != "" then deferDecision f.(tfBlocker) ("deferred_" +:+ f.(tfBlocker))
  else match f.(tfPending) with
  | PendingUnknown => onlyAction TimerActionGatherPending
  | PendingYes => mkTimerDecision TimerActionDefer "pending" "deferred_pending" "" true true
  | PendingNo =>
      match f.(tfAssignedWork) with
      | AssignedWorkUnknown => onlyAction TimerActionGatherAssignedWork
      | AssignedWorkHas => deferDecision "assigned_work" "deferred_busy"
      | AssignedWorkNone => mkTimerDecision TimerActionStop "idle_timeout" "stop" SleepReasonIdleTimeout false false
      end
  end.

Definition DecideAssignedWorkExhausted : TimerDecision :=
  mkTimerDecision TimerActionStop "assigned_work_exhausted" "stop_defer_exhausted" SleepReasonAssignedWorkExhausted false false.

(** ** The gather loops of the callers *)

(** The world's answers: what a probe of the runtime and of the stores says; a
    failing query of the stores ([None]) counts as assigned work. *)
Record Probes := mkProbes { prPending : bool; prAssignedWork : option bool }.

Definition gathered (p : Probes) (a : TimerAction) (f : TimerFacts) : TimerFacts :=
  match a with
  | TimerActionGatherPending =>
      mkTimerFacts f.(tfTriggered) f.(tfBlocker) (if p.(prPending) then PendingYes else PendingNo) f.(tfAssignedWork)
  | TimerActionGatherAssignedWork =>
      mkTimerFacts f.(tfTriggered) f.(tfBlocker) f.(tfPending) (if default true p.(prAssignedWork) then AssignedWorkHas else AssignedWorkNone)
  | _ => f
  end.

(** Decide, gather what is asked for, decide again, at most [rounds] times. *)
Fixpoint runTimer (decider : TimerFacts → TimerDecision) (p : Probes) (rounds : nat) (f : TimerFacts) : TimerDecision :=
  let d := decider f in
  match rounds, d.(tdAction) with
  | S n, (TimerActionGatherPending | TimerActionGatherAssignedWork) => runTimer decider p n (gathered p d.(tdAction) f)
  | _, _ => d
  end.
