(* ===== verification/SessionInfo.v ===== *)
(** * SessionInfo: the typed session snapshot, its codec and its front door

    Models [Info] ([manager.go]), the shared key codec ([info_codec.go]), the
    fold of a patch onto a snapshot ([info_apply_patch.go]), the front door over
    a bead store ([info_store.go], [store.go], [circuit_state.go],
    [persisted_response.go]), the alias history ([alias.go]), the canonical
    identity record ([canonical_identity.go]), the assignee identities
    ([assignee_identities.go]) and the pending-create lease
    ([pending_create_lease.go]).

    [Info] has about a hundred fields that mirror one metadata value; they are
    the entries of [iText] and [iFlags], under their Go names. *)

From Stdlib Require Import Ascii.
From S2P Require Import Prelude GoBase GoText GoTime Beads MemStore SessionState.

Local Open Scope Z_scope.

(** ** strings *)

(** [strings.Split s c] for a one-byte separator. *)
Fixpoint Split (c : ascii) (s : string) : list string :=
  match s with
  | EmptyString => [""]
  | String a r =>
      if Ascii.eqb a c then "" :: Split c r
      else match Split c r with
           | [] => [String a ""]
           | x :: l => String a x :: l
           end
  end.

(** [strings.ReplaceAll s c new] for a one-byte pattern. *)
Fixpoint ReplaceAll (c : ascii) (new s : string) : string :=
  match s with
  | EmptyString => ""
  | String a r => (if Ascii.eqb a c then new else String a "") +:+ ReplaceAll c new r
  end.

Definition isTrue (v : string) : bool := TrimSpace v == "true".

(** ** The snapshot *)

Record Info := mkInfo {
  iID : string;
  iType : string;
  iTitle : string;
  iLabels : list string;
  iCreatedAt : Z;
  iClosed : bool;
  iAttached : bool;
  iLastActive : Z;
  iState : State;
  iSessionName : string;
  iTransport : string;
  iAliasHistory : list string;
  iWakeAttempts : Z;
  iLastNudgeDeliveredAt : Z;
  iFlags : gmap string bool;
  iText : gmap string string
}.

(** The fields that mirror a metadata value, by their Go names. *)
Definition text (i : Info) (field : string) : string := i.(iText).[field].
Definition flag (i : Info) (field : string) : bool := default false (i.(iFlags) !! field).

(** Field assignments. *)
Definition setClosed (i : Info) (v : bool) : Info :=
  mkInfo i.(iID) i.(iType) i.(iTitle) i.(iLabels) i.(iCreatedAt) v i.(iAttached) i.(iLastActive) i.(iState)
    i.(iSessionName) i.(iTransport) i.(iAliasHistory) i.(iWakeAttempts) i.(iLastNudgeDeliveredAt) i.(iFlags) i.(iText).
Definition setInfoState (i : Info) (v : State) : Info :=
  mkInfo i.(iID) i.(iType) i.(iTitle) i.(iLabels) i.(iCreatedAt) i.(iClosed) i.(iAttached) i.(iLastActive) v
    i.(iSessionName) i.(iTransport) i.(iAliasHistory) i.(iWakeAttempts) i.(iLastNudgeDeliveredAt) i.(iFlags) i.(iText).
Definition setSessionName (i : Info) (v : string) : Info :=
  mkInfo i.(iID) i.(iType) i.(iTitle) i.(iLabels) i.(iCreatedAt) i.(iClosed) i.(iAttached) i.(iLastActive) i.(iState)
    v i.(iTransport) i.(iAliasHistory) i.(iWakeAttempts) i.(iLastNudgeDeliveredAt) i.(iFlags) i.(iText).
Definition setTransportField (i : Info) (v : string) : Info :=
  mkInfo i.(iID) i.(iType) i.(iTitle) i.(iLabels) i.(iCreatedAt) i.(iClosed) i.(iAttached) i.(iLastActive) i.(iState)
    i.(iSessionName) v i.(iAliasHistory) i.(iWakeAttempts) i.(iLastNudgeDeliveredAt) i.(iFlags) i.(iText).
Definition setAliasHistory (i : Info) (v : list string) : Info :=
  mkInfo i.(iID) i.(iType) i.(iTitle) i.(iLabels) i.(iCreatedAt) i.(iClosed) i.(iAttached) i.(iLastActive) i.(iState)
    i.(iSessionName) i.(iTransport) v i.(iWakeAttempts) i.(iLastNudgeDeliveredAt) i.(iFlags) i.(iText).
Definition setWakeAttempts (i : Info) (v : Z) : Info :=
  mkInfo i.(iID) i.(iType) i.(iTitle) i.(iLabels) i.(iCreatedAt) i.(iClosed) i.(iAttached) i.(iLastActive) i.(iState)
    i.(iSessionName) i.(iTransport) i.(iAliasHistory) v i.(iLastNudgeDeliveredAt) i.(iFlags) i.(iText).
Definition setLastNudge (i : Info) (v : Z) : Info :=
  mkInfo i.(iID) i.(iType) i.(iTitle) i.(iLabels) i.(iCreatedAt) i.(iClosed) i.(iAttached) i.(iLastActive) i.(iState)
    i.(iSessionName) i.(iTransport) i.(iAliasHistory) i.(iWakeAttempts) v i.(iFlags) i.(iText).
Definition setFlag (i : Info) (field : string) (v : bool) : Info :=
  mkInfo i.(iID) i.(iType) i.(iTitle) i.(iLabels) i.(iCreatedAt) i.(iClosed) i.(iAttached) i.(iLastActive) i.(iState)
    i.(iSessionName) i.(iTransport) i.(iAliasHistory) i.(iWakeAttempts) i.(iLastNudgeDeliveredAt) (<[field := v]> i.(iFlags)) i.(iText).
Definition setText (i : Info) (field v : string) : Info :=
  mkInfo i.(iID) i.(iType) i.(iTitle) i.(iLabels) i.(iCreatedAt) i.(iClosed) i.(iAttached) i.(iLastActive) i.(iState)
    i.(iSessionName) i.(iTransport) i.(iAliasHistory) i.(iWakeAttempts) i.(iLastNudgeDeliveredAt) i.(iFlags) (<[field := v]> i.(iText)).

(** ** Helpers of the codec *)

Definition sessionNameFor (beadID : string) : string := "s-" +:+ ReplaceAll "/" "--" beadID.

Definition normalizeTransport (provider transport : string) : string :=
  if transport != "" then transport else if provider == "acp" then "acp" else "".

(** The loop of [normalizeAliasList]; what was kept is what [seen] holds. *)
Fixpoint normalizeAliasLoop (values : list string) (exclude : string) (seen : list string) : list string :=
  match values with
  | [] => []
  | value :: values =>
      let value := TrimSpace value in
      if (value == "") || (value == exclude) || bool_decide (value ∈ seen)
      then normalizeAliasLoop values exclude seen
      else value :: normalizeAliasLoop values exclude (value :: seen)
  end.

Definition normalizeAliasList (values : list string) (exclude : string) : list string :=
  normalizeAliasLoop values (TrimSpace exclude) [].

(** ** The codec *)

(** How the value of one key becomes fields of the snapshot. *)
Inductive setter :=
| Text (field : string)                 (* the value verbatim *)
| Flag (field : string)                 (* whether the trimmed value is "true" *)
| FlagText (field raw : string)         (* both *)
| SetSessionName | SetInfoState | SetProvider | SetTransport
| SetAliasHistory | SetWakeAttempts | SetLastNudge.

#[export] Instance setter_eq_dec : EqDecision setter.
Proof. solve_decision. Defined.

Definition parseNudgeTime (v : string) : Z :=
  let raw := TrimSpace v in
  if raw != "" then default 0 (ParseRFC3339 raw) else 0.

Definition set (s : setter) (i : Info) (v : string) : Info :=
  match s with
  | Text field => setText i field v
  | Flag field => setFlag i field (isTrue v)
  | FlagText field raw => setText (setFlag i field (isTrue v)) raw v
  | SetSessionName =>
      let i := setText i "SessionNameMetadata" v in
      setSessionName i (if v == "" then sessionNameFor i.(iID) else v)
  | SetInfoState =>
      let i := setText i "MetadataState" v in
      setInfoState i (if i.(iClosed) then "" else normalizeInfoState v)
  | SetProvider =>
      let i := setText i "Provider" v in
      setTransportField i (normalizeTransport v (text i "TransportMetadata"))
  | SetTransport =>
      let i := setText i "TransportMetadata" v in
      setTransportField i (normalizeTransport (text i "Provider") v)
  | SetAliasHistory => setAliasHistory i (normalizeAliasList (Split "," v) "")
  | SetWakeAttempts => setWakeAttempts (setText i "WakeAttemptsMetadata" v) (default 0 (Atoi v))
  | SetLastNudge => setLastNudge i (parseNudgeTime v)
  end.

Definition NamedSessionMetadataKey : string := "configured_named_session".
Definition NamedSessionIdentityMetadata : string := "configured_named_identity".
Definition NamedSessionModeMetadata : string := "configured_named_mode".
Definition aliasHistoryMetadataKey : string := "alias_history".
Definition SessionCircuitStateMetadataKey : string := "session_circuit_state".
Definition MetadataLastNudgeDeliveredAt : string := "last_nudge_delivered_at".

Definition infoKeyCodec : list (string * setter) :=
  [ ("template", Text "Template"); ("alias", Text "Alias"); ("agent_name", Text "AgentName");
    ("command", Text "Command"); ("work_dir", Text "WorkDir"); ("session_key", Text "SessionKey");
    ("resume_flag", Text "ResumeFlag"); ("resume_style", Text "ResumeStyle");
    ("resume_command", Text "ResumeCommand"); ("continuation_epoch", Text "ContinuationEpoch");
    ("sleep_reason", Text "SleepReason"); ("session_name", SetSessionName); ("state", SetInfoState);
    ("provider", SetProvider); ("transport", SetTransport);
    (NamedSessionIdentityMetadata, Text "ConfiguredNamedIdentity");
    (NamedSessionMetadataKey, Flag "ConfiguredNamedSession"); (NamedSessionModeMetadata, Text "ConfiguredNamedMode");
    ("common_name", Text "CommonName"); ("pool_slot", Text "PoolSlot"); ("pool_managed", Flag "PoolManaged");
    ("session_origin", Text "SessionOrigin");
    ("dependency_only", FlagText "DependencyOnly" "DependencyOnlyMetadata");
    ("manual_session", FlagText "ManualSession" "ManualSessionMetadata");
    ("pool_alias_conflict", Text "PoolAliasConflict"); ("pool_alias_conflict_count", Text "PoolAliasConflictCount");
    ("pool_alias_conflict_at", Text "PoolAliasConflictAt");
    (CanonicalInstanceNameMetadata, Text "CanonicalInstanceNameMetadata");
    (CanonicalPoolSlotMetadata, Text "CanonicalPoolSlotMetadata"); (PrimedAtMetadataKey, Text "PrimedAtMetadata");
    (PrimingAttemptedAtMetadataKey, Text "PrimingAttemptedAtMetadata");
    (PromptHashMetadataKey, Text "PromptHashMetadata"); ("mcp_identity", Text "MCPIdentity");
    ("mcp_servers_snapshot", Text "MCPServersSnapshot"); ("provider_terminal_error", Text "ProviderTerminalError");
    ("session_health", Text "HealthState"); ("session_health_reason", Text "HealthReason");
    ("session_drainable", Flag "Drainable"); ("gc.trigger_bead_id", Text "TriggerBeadID");
    ("gc.trigger_bead_store_ref", Text "TriggerBeadStoreRef"); ("gc.brain_parent_sid", Text "BrainParentSID");
    ("gc.pack", Text "Pack"); ("gc.pack_workspace", Text "PackWorkspace"); ("gc.work_dir", Text "WorkDirCanonical");
    ("worker_dir", Text "WorkerDir");
    ("pending_create_claim", FlagText "PendingCreateClaim" "PendingCreateClaimMetadata");
    ("pending_create_started_at", Text "PendingCreateStartedAt"); ("quarantined_until", Text "QuarantinedUntil");
    (aliasHistoryMetadataKey, SetAliasHistory); ("continuity_eligible", Text "ContinuityEligible");
    ("last_woke_at", Text "LastWokeAt"); ("awake_started_at", Text "AwakeStartedAt");
    ("usage_compute_emitted_at", Text "UsageComputeEmittedAt"); ("state_reason", Text "StateReason");
    ("creation_complete_at", Text "CreationCompleteAt");
    ("continuation_reset_pending", Text "ContinuationResetPending");
    (SessionCircuitStateMetadataKey, Text "SessionCircuitState"); (ResetCommittedAtKey, Text "ResetCommittedAt");
    ("generation", Text "Generation"); ("started_config_hash", Text "StartedConfigHash");
    ("pin_awake", Text "PinAwake"); ("held_until", Text "HeldUntil"); ("wait_hold", Text "WaitHold");
    ("churn_count", Text "ChurnCount"); ("wake_mode", Text "WakeMode"); ("sleep_intent", Text "SleepIntent");
    ("instance_token", Text "InstanceToken"); ("detached_at", Text "DetachedAt");
    (CurrentBeadIDKey, Text "CurrentlyProcessingBeadID"); ("core_hash_breakdown", Text "CoreHashBreakdown");
    ("started_provision_hash", Text "StartedProvisionHash"); ("started_launch_hash", Text "StartedLaunchHash");
    ("started_live_hash", Text "StartedLiveHash"); ("live_hash", Text "LiveHash");
    ("startup_dialog_verified", Text "StartupDialogVerified");
    ("config_drift_deferred_at", Text "ConfigDriftDeferredAt");
    ("config_drift_deferred_key", Text "ConfigDriftDeferredKey");
    ("attached_config_drift_deferred_at", Text "AttachedConfigDriftDeferredAt");
    ("attached_config_drift_deferred_key", Text "AttachedConfigDriftDeferredKey");
    ("stranded_event_emitted_at", Text "StrandedEventEmittedAt");
    ("unknown_state_first_seen", Text "UnknownStateFirstSeen"); ("unknown_state_value", Text "UnknownStateValue");
    ("unknown_state_escalated_at", Text "UnknownStateEscalatedAt");
    ("session_name_explicit", Text "SessionNameExplicit"); ("wake_request", Text "WakeRequest");
    ("restart_requested", Text "RestartRequested"); ("session_id_flag", Text "SessionIDFlag");
    ("template_overrides", Text "TemplateOverrides"); ("provider_kind", Text "ProviderKind");
    ("builtin_ancestor", Text "BuiltinAncestor"); ("sleep_policy_fingerprint", Text "SleepPolicyFingerprint");
    ("requested_sleep_after_idle", Text "RequestedSleepAfterIdle");
    ("effective_sleep_after_idle", Text "EffectiveSleepAfterIdle");
    ("sleep_policy_source", Text "SleepPolicySource"); ("sleep_capability", Text "SleepCapability");
    ("sleep_policy_adjustment_reason", Text "SleepPolicyAdjustmentReason");
    ("config_wake_suppressed", Text "ConfigWakeSuppressedMetadata"); ("wake_attempts", SetWakeAttempts);
    (MetadataLastNudgeDeliveredAt, SetLastNudge) ].
Definition project (meta : gmap string string) (i : Info) (codec : list (string * setter)) : Info :=
  foldl (λ i ks, set ks.2 i meta.[ks.1]) i codec.

Definition infoFromPersistedBead (b : Bead) : Info :=
  project b.(bMetadata)
    (mkInfo b.(bID) b.(bType) b.(bTitle) b.(bLabels) b.(bCreatedAt) (b.(bStatus) == "closed")
       false 0 "" "" "" [] 0 0 ∅ ∅)
    infoKeyCodec.

(** One iteration of [Info.ApplyPatch]; the index of the codec by key. *)
Definition foldKey (codec : list (string * setter)) (i : Info) (kv : string * string) : Info :=
  match assoc kv.1 codec with
  | Some s => set s i kv.2
  | None => i
  end.

(** [Info.ApplyPatch] with the patch visited in the given order. *)
Definition foldPatch (order : list (string * string)) (i : Info) : Info := foldl (foldKey infoKeyCodec) i order.

Definition infoApplyPatch (i : Info) (patch : MetadataPatch) : Info := foldPatch (map_to_list patch) i.

Definition MarkClosed (i : Info) : Info := setInfoState (setClosed i true) "".

(** ** Aliases and identities *)

Definition AliasHistory (metadata : gmap string string) : list string :=
  if bool_decide (metadata = ∅) then []
  else normalizeAliasList (Split "," metadata.[aliasHistoryMetadataKey]) "".

Definition updatedAlias (current : string) (history : list string) (nextAlias : string) : MetadataPatch :=
  let currentAlias := TrimSpace current in
  let history := if (currentAlias != "") && (currentAlias != nextAlias) then currentAlias :: history else history in
  literal [("alias", TrimSpace nextAlias);
           (aliasHistoryMetadataKey, String.concat "," (normalizeAliasList history nextAlias))].

Definition UpdatedAliasMetadata (metadata : gmap string string) (nextAlias : string) : MetadataPatch :=
  updatedAlias metadata.["alias"] (AliasHistory metadata) nextAlias.

Definition UpdatedAliasMetadataFromInfo (info : Info) (nextAlias : string) : MetadataPatch :=
  updatedAlias (text info "Alias") info.(iAliasHistory) nextAlias.

Record CanonicalIdentity := mkCanonicalIdentity {
  ciName : string;
  ciPoolSlot : Z;
  ciPresent : bool
}.

Definition parseCanonicalSlot (raw : string) : Z :=
  let v := TrimSpace raw in
  if v != "" then match Atoi v with Some n => if 0 <? n then n else 0 | None => 0 end else 0.

Definition canonicalIdentityFrom (rawName rawSlot : string) : CanonicalIdentity :=
  let name := TrimSpace rawName in
  if name == "" then mkCanonicalIdentity "" 0 false
  else mkCanonicalIdentity name (parseCanonicalSlot rawSlot) true.

Definition CanonicalIdentityFromMetadata (meta : gmap string string) : CanonicalIdentity :=
  canonicalIdentityFrom meta.[CanonicalInstanceNameMetadata] meta.[CanonicalPoolSlotMetadata].

Definition InfoCanonicalIdentity (i : Info) : CanonicalIdentity :=
  canonicalIdentityFrom (text i "CanonicalInstanceNameMetadata") (text i "CanonicalPoolSlotMetadata").

Definition nonBlank (s : string) : list string :=
  let s := TrimSpace s in if s != "" then [s] else [].

Definition AssigneeIdentities (i : Info) : list string :=
  nonBlank i.(iID) ++ nonBlank (text i "SessionNameMetadata") ++ nonBlank (text i "ConfiguredNamedIdentity") ++
  nonBlank (text i "Alias") ++ (i.(iAliasHistory) ≫= nonBlank).

Definition AssigneeIdentifier (i : Info) : string :=
  match (nonBlank (text i "SessionNameMetadata") ++ nonBlank (text i "Alias") ++ nonBlank (text i "ConfiguredNamedIdentity"))%list with
  | v :: _ => v
  | [] => i.(iID)
  end.

(** ** The pending-create lease *)

Record PendingCreateLease := mkLease {
  plClosed : bool;
  plInstanceToken : string;
  plGeneration : string;
  plClaim : bool;
  plState : State
}.

Definition LeaseFromInfo (i : Info) : PendingCreateLease :=
  mkLease i.(iClosed) (TrimSpace (text i "InstanceToken")) (TrimSpace (text i "Generation"))
    (flag i "PendingCreateClaim") (TrimSpace (text i "MetadataState")).

Inductive LeaseCommitVerdict := LeaseCommit | LeaseDiscardStopRuntime.

Definition StateConfirmsPendingStart (s : State) : bool :=
  oneOf s [""; StateStartPending; StateCreating; StateAsleep; StateDrained].

Definition SameIdentity (l current : PendingCreateLease) : bool :=
  if l.(plInstanceToken) != "" then current.(plInstanceToken) == l.(plInstanceToken)
  else if l.(plGeneration) == "" then true
  else current.(plGeneration) == l.(plGeneration).

Definition CommitVerdict (l current : PendingCreateLease) : LeaseCommitVerdict :=
  if current.(plClosed) then LeaseDiscardStopRuntime
  else if negb (SameIdentity l current) then LeaseDiscardStopRuntime
  else if (current.(plState) == StateAwake) || (current.(plState) == StateActive) then LeaseCommit
  else if l.(plClaim) && negb current.(plClaim) then LeaseDiscardStopRuntime
  else if StateConfirmsPendingStart current.(plState) then LeaseCommit
  else LeaseDiscardStopRuntime.

(** ** The front door

    [now] is the clock of the store, [at_] the instant a caller passes and [clk]
    the clock reading that replaces a zero one. *)

Definition BeadType : string := "session".
Definition LabelSession : string := "gc:session".

Definition IsSessionBeadOrRepairable (b : Bead) : bool :=
  (b.(bType) == BeadType) || ((b.(bType) == "") && bool_decide (LabelSession ∈ b.(bLabels))).

Inductive SessionError :=
| LoadingSession (id : string) (e : StoreError)
| ErrSessionNotFound (id : string)
| ListingSessions (e : StoreError)
| ClosingSession (id : string) (e : StoreError)
| BareStore (e : StoreError).

Definition bare {A} (r : res StoreError A * MemStore) : res SessionError A * MemStore :=
  (match r.1 with Ok a => Ok a | Err e => Err (BareStore e) end, r.2).

Definition validatedBead (m : MemStore) (id : string) : res SessionError Bead :=
  match MemStore.Get m id with
  | Err e => Err (LoadingSession id e)
  | Ok b => if (TrimSpace b.(bID) == "") || negb (IsSessionBeadOrRepairable b) then Err (ErrSessionNotFound id) else Ok b
  end.

Definition Get (m : MemStore) (id : string) : res SessionError Info :=
  match validatedBead m id with Err e => Err e | Ok b => Ok (infoFromPersistedBead b) end.

Definition GetPersistedResponse (m : MemStore) (id : string) : res SessionError (Info * (string * gmap string string)) :=
  match validatedBead m id with
  | Err e => Err e
  | Ok b => Ok (infoFromPersistedBead b, (b.(bStatus), b.(bMetadata)))
  end.

Definition stateFilterMatches (open closed : bool) (state : State) (sf : string) : bool :=
  if (sf == "closed") && closed then true
  else if (sf == "open") && open then true
  else negb closed && (sf == state).

Definition matchesFilters (open closed : bool) (state : State) (template stateFilter templateFilter : string) : bool :=
  (if (stateFilter != "") && (stateFilter != "all") then existsb (stateFilterMatches open closed state) (Split "," stateFilter)
   else if stateFilter == "" then negb closed else true) &&
  negb ((templateFilter != "") && (template != templateFilter)).

Definition sessionMatchesFilters (b : Bead) (stateFilter templateFilter : string) : bool :=
  matchesFilters (b.(bStatus) == "open") (b.(bStatus) == "closed") (normalizeInfoState b.(bMetadata).["state"])
    b.(bMetadata).["template"] stateFilter templateFilter.

Definition sessionMatchesFiltersInfo (i : Info) (stateFilter templateFilter : string) : bool :=
  matchesFilters (negb i.(iClosed)) i.(iClosed) (normalizeInfoState (text i "MetadataState"))
    (text i "Template") stateFilter templateFilter.

Definition sessionQuery : ListQuery :=
  mkListQuery "" "" LabelSession "" [] "" [] ∅ 0 0 0 true false false false SortCreatedDesc false TierIssues None.

Definition List (m : MemStore) (stateFilter templateFilter : string) : res SessionError (list Info) :=
  match ListBeads m sessionQuery with
  | Err e => Err (ListingSessions e)
  | Ok all => Ok (infoFromPersistedBead <$>
      filter (λ b, IsSessionBeadOrRepairable b && sessionMatchesFilters b stateFilter templateFilter = true) all)
  end.

Definition ListByMetadataInfos (m : MemStore) (filters : gmap string string) (limit : Z) : res SessionError (list Info) :=
  match ListByMetadata m filters limit [] with
  | Err e => Err (BareStore e)
  | Ok found => Ok (infoFromPersistedBead <$> found)
  end.

Definition ListLabeledSessionInfosUnfiltered (m : MemStore) : res SessionError (list Info) :=
  match ListByLabel m LabelSession 0 [] with
  | Err e => Err (BareStore e)
  | Ok labeled => Ok (infoFromPersistedBead <$> filter (λ b, b.(bStatus) ≠ "closed") labeled)
  end.

Definition ApplyPatch (now : Z) (id : string) (patch : MetadataPatch) (m : MemStore) : res SessionError unit * MemStore :=
  if bool_decide (patch = ∅) then (Ok tt, m) else bare (SetMetadataBatch now id patch m).

Definition ApplyPatchInfo (now : Z) (info : Info) (patch : MetadataPatch) (m : MemStore) : (Info * option SessionError) * MemStore :=
  if bool_decide (patch = ∅) then ((info, None), m)
  else match ApplyPatch now info.(iID) patch m with
       | (Err e, m') => ((info, Some e), m')
       | (Ok _, m') => ((infoApplyPatch info patch, None), m')
       end.

Definition metadataOpts (meta : gmap string string) : UpdateOpts := mkUpdateOpts None None None None None None None [] [] meta.

Definition UpdateMetadataInfo (now : Z) (info : Info) (patch : MetadataPatch) (m : MemStore) : (Info * option SessionError) * MemStore :=
  if bool_decide (patch = ∅) then ((info, None), m)
  else match Update now info.(iID) (metadataOpts patch) m with
       | (Err e, m') => ((info, Some (BareStore e)), m')
       | (Ok _, m') => ((infoApplyPatch info patch, None), m')
       end.

Definition SetState (now : Z) (id : string) (state : State) (reason : string) (m : MemStore) :=
  ApplyPatch now id (literal [("state", state); ("state_reason", reason)]) m.

Definition Sleep (now : Z) (id reason : string) (at_ : Z) (m : MemStore) := ApplyPatch now id (SleepPatch at_ reason) m.

Definition BeginDrainAckStopPending (now : Z) (id : string) (at_ : Z) (m : MemStore) :=
  ApplyPatch now id (DrainAckStopPendingPatch at_) m.

Definition RequestRestart (clk now : Z) (id sessionKey : string) (at_ : Z) (m : MemStore) :=
  ApplyPatch now id (RestartRequestPatch clk sessionKey at_) m.

Definition ResetConfigDrift (clk now : Z) (id : string) (next : State) (sessionKey : string) (at_ : Z) (m : MemStore) :=
  ApplyPatch now id (ConfigDriftResetPatch clk next sessionKey at_) m.

Definition SetWaitHold (now : Z) (id : string) (on : bool) (reason : string) (m : MemStore) :=
  let v := if on then reason else "" in
  ApplyPatch now id (literal [("wait_hold", v); ("sleep_intent", v)]) m.

Definition SetMarker (now : Z) (id key value : string) (m : MemStore) : res SessionError unit * MemStore :=
  bare (SetMetadata now id key value m).

Definition RecordCurrentBead (now : Z) (id beadID : string) (m : MemStore) := SetMarker now id CurrentBeadIDKey beadID m.

Definition CloseWithoutReason (now : Z) (id : string) (m : MemStore) : res SessionError unit * MemStore :=
  bare (MemStore.Close now id m).

Definition GetState (m : MemStore) (id : string) : res SessionError (State * bool) :=
  match Get m id with Err e => Err e | Ok i => Ok (i.(iState), i.(iClosed)) end.

Definition Close (now : Z) (id stateCode : string) (at_ : Z) (m : MemStore) : res SessionError bool * MemStore :=
  match Get m id with
  | Err e => (Err e, m)
  | Ok info =>
      if info.(iClosed) then (Ok false, m)
      else match ApplyPatch now id (ClosePatch at_ stateCode) m with
           | (Err e, m) => (Err e, m)
           | (Ok _, m) =>
               match MemStore.Close now id m with
               | (Err e, m) => (Err (ClosingSession id e), m)
               | (Ok _, m) => (Ok true, m)
               end
           end
  end.

Definition SetStatusOpen (now : Z) (id : string) (m : MemStore) : res SessionError unit * MemStore :=
  bare (Update now id (mkUpdateOpts None (Some "open") None None None None None [] [] ∅) m).

Definition RepairType (now : Z) (id : string) (m : MemStore) : res SessionError unit * MemStore :=
  bare (Update now id (mkUpdateOpts None None (Some BeadType) None None None None [] [] ∅) m).
