(* ===== verification/SessionInfoProps.v ===== *)
(** * SessionInfoProps: the snapshot stays what the store would say

    The codec's setters overwrite themselves and commute with each other, so a
    patch folded onto a snapshot, in any order, is the projection of the
    patched bead; and a caller that folds every write it makes through the front
    door holds, at any time, what a fresh read would return. *)

From Stdlib Require Import Ascii.
From S2P Require Import Prelude GoBase GoText GoTime Beads MemStore MemStoreProps SessionState SessionInfo.

Local Open Scope Z_scope.

(** ** Setters *)

(** The fields a setter reads or writes, by their Go names. *)
Definition fields (s : setter) : list string :=
  match s with
  | Text f | Flag f => [f]
  | FlagText f r => [f; r]
  | SetSessionName => ["SessionNameMetadata"; "SessionName"]
  | SetInfoState => ["MetadataState"; "State"]
  | SetProvider | SetTransport => ["Provider"; "TransportMetadata"; "Transport"]
  | SetAliasHistory => ["AliasHistory"]
  | SetWakeAttempts => ["WakeAttemptsMetadata"; "WakeAttempts"]
  | SetLastNudge => ["LastNudgeDeliveredAt"]
  end.

(** The text field and the flag field a setter writes. *)
Definition textField (s : setter) : option string :=
  match s with
  | Text f | FlagText _ f => Some f
  | Flag _ | SetAliasHistory | SetLastNudge => None
  | SetSessionName => Some "SessionNameMetadata"
  | SetInfoState => Some "MetadataState"
  | SetProvider => Some "Provider"
  | SetTransport => Some "TransportMetadata"
  | SetWakeAttempts => Some "WakeAttemptsMetadata"
  end.

Definition flagField (s : setter) : option string :=
  match s with Flag f | FlagText f _ => Some f | _ => None end.

Definition insertAt {A} (o : option string) (a : A) (m : gmap string A) : gmap string A :=
  match o with Some k => <[k := a]> m | None => m end.

Lemma set_text s i v : iText (set s i v) = insertAt (textField s) v (iText i).
Proof. by destruct s. Qed.

Lemma set_flags s i v : iFlags (set s i v) = insertAt (flagField s) (isTrue v) (iFlags i).
Proof. by destruct s. Qed.

(** The part no setter writes. *)
Definition prologue (i : Info) := (iID i, iType i, iTitle i, iLabels i, iCreatedAt i, iClosed i, iAttached i, iLastActive i).

Lemma set_prologue s i v : prologue (set s i v) = prologue i.
Proof. by destruct s. Qed.

Lemma set_session_name s i v :
  iSessionName (set s i v) = if decide (s = SetSessionName) then (if v == "" then sessionNameFor (iID i) else v) else iSessionName i.
Proof. by destruct s. Qed.

Lemma set_state s i v :
  iState (set s i v) = if decide (s = SetInfoState) then (if iClosed i then "" else normalizeInfoState v) else iState i.
Proof. by destruct s. Qed.

Lemma set_alias_history s i v :
  iAliasHistory (set s i v) = if decide (s = SetAliasHistory) then normalizeAliasList (Split "," v) "" else iAliasHistory i.
Proof. by destruct s. Qed.

Lemma set_wake_attempts s i v :
  iWakeAttempts (set s i v) = if decide (s = SetWakeAttempts) then default 0 (Atoi v) else iWakeAttempts i.
Proof. by destruct s. Qed.

Lemma set_last_nudge s i v :
  iLastNudgeDeliveredAt (set s i v) = if decide (s = SetLastNudge) then parseNudgeTime v else iLastNudgeDeliveredAt i.
Proof. by destruct s. Qed.

Lemma set_transport s i v :
  iTransport (set s i v) =
    if decide (s = SetProvider) then normalizeTransport v (iText i).["TransportMetadata"]
    else if decide (s = SetTransport) then normalizeTransport (iText i).["Provider"] v
    else iTransport i.
Proof.
  destruct s; try reflexivity; unfold set, text; cbn [decide iTransport setTransportField setText iText];
    by rewrite mget_insert_ne.
Qed.

Lemma info_ext i j :
  prologue i = prologue j → iState i = iState j → iSessionName i = iSessionName j → iTransport i = iTransport j →
  iAliasHistory i = iAliasHistory j → iWakeAttempts i = iWakeAttempts j →
  iLastNudgeDeliveredAt i = iLastNudgeDeliveredAt j → iFlags i = iFlags j → iText i = iText j → i = j.
Proof. destruct i, j. unfold prologue. cbn. intros; simplify_eq. done. Qed.

Ltac by_fields :=
  apply info_ext; rewrite ?set_prologue, ?set_state, ?set_session_name, ?set_alias_history, ?set_wake_attempts,
    ?set_last_nudge, ?set_flags, ?set_text; try done.

Lemma set_id s i v : iID (set s i v) = iID i.
Proof. by destruct s. Qed.

Lemma set_closed s i v : iClosed (set s i v) = iClosed i.
Proof. by destruct s. Qed.

(** The second value wins. *)
Lemma set_set s i v w : set s (set s i v) w = set s i w.
Proof.
  by_fields; rewrite ?set_id, ?set_closed; try (by case_decide).
  - rewrite !set_transport, set_text. repeat case_decide; try done; subst s; cbn [textField insertAt];
      by rewrite mget_insert_ne.
  - destruct (flagField s); [apply insert_insert_eq|done].
  - destruct (textField s); [apply insert_insert_eq|done].
Qed.

(** Different fields, or the provider and the transport, which settle on the
    same derived transport. *)
Definition independent (s1 s2 : setter) : bool :=
  match s1, s2 with
  | SetProvider, SetTransport | SetTransport, SetProvider => true
  | _, _ => forallb (λ f, forallb (λ g, f != g) (fields s2)) (fields s1)
  end.

Lemma independent_sym s1 s2 : independent s1 s2 = true → independent s2 s1 = true.
Proof.
  assert (∀ l1 l2 : list string, forallb (λ f, forallb (λ g, f != g) l2) l1 = true → forallb (λ f, forallb (λ g, f != g) l1) l2 = true) as Hs.
  { intros l1 l2. rewrite !forallb_forall. intros H g Hg. rewrite forallb_forall. intros f Hf.
    specialize (H f Hf). rewrite forallb_forall in H. specialize (H g Hg). bsplit.
    apply negb_true_iff, bool_decide_eq_false. congruence. }
  destruct s1, s2; try apply Hs; done.
Qed.

Lemma fields_ne s1 s2 f g :
  forallb (λ f, forallb (λ g, f != g) (fields s2)) (fields s1) = true → In f (fields s1) → In g (fields s2) → f ≠ g.
Proof.
  rewrite forallb_forall. intros H Hf Hg. specialize (H f Hf). rewrite forallb_forall in H.
  specialize (H g Hg). by bsplit.
Qed.

Lemma textField_In s f : textField s = Some f → In f (fields s).
Proof. destruct s; intros [= <-]; cbn; tauto. Qed.

Lemma flagField_In s f : flagField s = Some f → In f (fields s).
Proof. destruct s; intros [= <-]; cbn; tauto. Qed.

Lemma independent_cases s1 s2 :
  independent s1 s2 = true →
  (s1 = SetProvider ∧ s2 = SetTransport) ∨ (s1 = SetTransport ∧ s2 = SetProvider) ∨
  ∀ f g, In f (fields s1) → In g (fields s2) → f ≠ g.
Proof.
  intros Hi. destruct s1, s2; try (by left); try (by right; left); right; right; intros f g; by apply fields_ne.
Qed.

(** Independent setters do not clash on a field, nor on what the transport is
    derived from. *)
Lemma independent_text s1 s2 f : independent s1 s2 = true → textField s1 = Some f → textField s2 ≠ Some f.
Proof.
  intros Hi H1 H2. destruct (independent_cases s1 s2 Hi) as [[-> ->]|[[-> ->]|Hd]]; [cbn in *; congruence..|].
  by apply (Hd f f); [apply textField_In..|].
Qed.

Lemma independent_flag s1 s2 f : independent s1 s2 = true → flagField s1 = Some f → flagField s2 ≠ Some f.
Proof.
  intros Hi H1 H2. destruct (independent_cases s1 s2 Hi) as [[-> ->]|[[-> ->]|Hd]]; [done..|].
  by apply (Hd f f); [apply flagField_In..|].
Qed.

Lemma fields_nonempty s : ∃ f, In f (fields s).
Proof. destruct s; eexists; left; done. Qed.

Lemma independent_ne s1 s2 : independent s1 s2 = true → s1 ≠ s2.
Proof.
  intros Hi ->. destruct (independent_cases s2 s2 Hi) as [[-> ?]|[[-> ?]|Hd]]; [done..|].
  destruct (fields_nonempty s2) as [f Hf]. by apply (Hd f f).
Qed.

Lemma insertAt_comm {A} o1 o2 (a b : A) m :
  (∀ f, o1 = Some f → o2 ≠ Some f) → insertAt o1 a (insertAt o2 b m) = insertAt o2 b (insertAt o1 a m).
Proof.
  intros H. destruct o1 as [f|], o2 as [g|]; try done. apply insert_insert_ne. intros ->. by eapply H.
Qed.

(** The derived transport does not depend on the order. *)
Lemma transport_comm s1 s2 i v w :
  independent s1 s2 = true → iTransport (set s1 (set s2 i w) v) = iTransport (set s2 (set s1 i v) w).
Proof.
  intros Hi. rewrite !set_transport, !set_text.
  assert (∀ s s' f a, independent s s' = true → (s' = SetProvider ∨ s' = SetTransport) → s ≠ SetProvider → s ≠ SetTransport →
    In f ["Provider"; "TransportMetadata"] → (insertAt (textField s) a (iText i)).[f] = (iText i).[f]) as Hread.
  { intros s s' f a His Hs' Hp Ht Hf. destruct (textField s) as [g|] eqn:Eg; [|done]. cbn. apply mget_insert_ne.
    destruct (independent_cases s s' His) as [[-> _]|[[-> _]|Hd]]; [done..|].
    apply Hd; [by apply textField_In|]. destruct Hs' as [-> | ->]; cbn in *; tauto. }
  pose proof (independent_ne s1 s2 Hi) as Hne. pose proof (independent_sym s1 s2 Hi) as Hi'.
  repeat case_decide; subst; try done; cbn [textField insertAt]; autorewrite with gc; try done;
    (erewrite Hread; [done|..]; first [eassumption | by left | by right | done | cbn; tauto]).
Qed.

Lemma set_comm s1 s2 i v w :
  independent s1 s2 = true → set s1 (set s2 i w) v = set s2 (set s1 i v) w.
Proof.
  intros Hi. pose proof (independent_ne s1 s2 Hi) as Hne.
  by_fields; rewrite ?set_id, ?set_closed; try (repeat case_decide; congruence).
  - by apply transport_comm.
  - apply insertAt_comm. intros f. by apply independent_flag.
  - apply insertAt_comm. intros f. by apply independent_text.
Qed.

(** ** Projections *)

Definition disjointFrom (s : setter) (codec : list (string * setter)) : Prop :=
  Forall (λ ks, independent s ks.2 = true) codec.

Lemma set_project s meta i codec v :
  disjointFrom s codec → set s (project meta i codec) v = project meta (set s i v) codec.
Proof.
  intros Hd. revert i. induction Hd as [|[k s'] codec Hs Hd IH]; intros i; [done|].
  change (set s (project meta (set s' i meta.[k]) codec) v = project meta (set s' (set s i v) meta.[k]) codec).
  by rewrite IH, set_comm.
Qed.

Lemma project_ext meta meta' i codec :
  Forall (λ ks, meta.[ks.1] = meta'.[ks.1]) codec → project meta i codec = project meta' i codec.
Proof.
  intros H. revert i. induction H as [|[k s] codec Hk H IH]; intros i; [done|].
  cbn in *. rewrite Hk. apply IH.
Qed.

Lemma project_app meta i c1 c2 : project meta i (c1 ++ c2) = project meta (project meta i c1) c2.
Proof. apply foldl_app. Qed.

Lemma assoc_split {A} k (l : list (string * A)) a :
  assoc k l = Some a → ∃ l1 l2, l = l1 ++ (k, a) :: l2 ∧ (k ∉ l1.*1).
Proof.
  induction l as [|[k' b] l IH]; [done|]. cbn. case_bool_decide as E.
  - intros [= ->]. subst k'. exists [], l. split; [done|]. apply not_elem_of_nil.
  - intros H. destruct (IH H) as (l1 & l2 & -> & Hn). exists ((k', b) :: l1), l2. split; [done|].
    cbn. by apply not_elem_of_cons.
Qed.

Lemma assoc_None {A} k (l : list (string * A)) : assoc k l = None → k ∉ l.*1.
Proof.
  induction l as [|[k' b] l IH]; [intros _; apply not_elem_of_nil|]. cbn. case_bool_decide; [done|].
  intros Hn. apply not_elem_of_cons. auto.
Qed.

(** The keys of a codec are distinct, and its setters write different fields. *)
Fixpoint codecOK (codec : list (string * setter)) : Prop :=
  match codec with
  | [] => True
  | (k, s) :: rest => (k ∉ rest.*1) ∧ disjointFrom s rest ∧ codecOK rest
  end.

Lemma codecOK_app c1 k s c2 : codecOK (c1 ++ (k, s) :: c2) → (k ∉ c2.*1) ∧ disjointFrom s c2.
Proof. induction c1 as [|[k' s'] c1 IH]; cbn; [tauto|]. intros (_ & _ & H). by apply IH. Qed.

(** Setting one key of the projection is projecting the changed metadata. *)
Lemma project_insert meta i codec k s v :
  codecOK codec → assoc k codec = Some s → set s (project meta i codec) v = project (<[k:=v]> meta) i codec.
Proof.
  intros Hok Hk. destruct (assoc_split k codec s Hk) as (c1 & c2 & -> & Hn1).
  destruct (codecOK_app _ _ _ _ Hok) as [Hn2 Hd]. rewrite !project_app.
  assert (∀ c j, k ∉ c.*1 → project (<[k:=v]> meta) j c = project meta j c) as Hext.
  { intros c j Hn. apply project_ext, Forall_forall. intros [k' s'] Hin. apply mget_insert_ne. cbn. intros ->.
    apply Hn. apply list_elem_of_fmap. by exists (k', s'). }
  rewrite (Hext c1) by done.
  change (set s (project meta (set s (project meta i c1) meta.[k]) c2) v =
    project (<[k:=v]> meta) (set s (project meta i c1) (<[k:=v]> meta).[k]) c2).
  rewrite (Hext c2) by done. rewrite set_project by done. by rewrite set_set, mget_insert_eq.
Qed.

Lemma foldKeys_project codec meta i order :
  codecOK codec → NoDup order.*1 →
  foldl (foldKey codec) (project meta i codec) order = project (list_to_map order ∪ meta) i codec.
Proof.
  intros Hok. revert meta. induction order as [|[k v] order IH]; intros meta Hnd.
  { cbn. by rewrite map_empty_union. }
  apply NoDup_cons in Hnd as [Hk Hnd]. cbn [foldl].
  assert (foldKey codec (project meta i codec) (k, v) = project (<[k:=v]> meta) i codec) as ->.
  { unfold foldKey. cbn [fst snd]. destruct (assoc k codec) as [s|] eqn:E; [by apply project_insert|].
    apply project_ext, Forall_forall. intros [k' s'] Hin. symmetry. apply mget_insert_ne. cbn. intros ->.
    apply assoc_None in E. apply E, list_elem_of_fmap. by exists (k', s'). }
  rewrite IH by done. f_equal. cbn.
  rewrite <-insert_union_l, insert_union_r; [done|]. by apply not_elem_of_list_to_map_1.
Qed.

(** The codec of the program. *)
Definition codecOKb (codec : list (string * setter)) : bool :=
  (fix go c := match c with
   | [] => true
   | (k, s) :: rest => forallb (λ ks, (k != ks.1) && independent s ks.2) rest && go rest
   end) codec.

Lemma codecOKb_sound codec : codecOKb codec = true → codecOK codec.
Proof.
  induction codec as [|[k s] rest IH]; [done|]. cbn. intros H. apply andb_true_iff in H as [H Hr].
  rewrite forallb_forall in H. split_and!; [| |by apply IH].
  - intros Hin. apply list_elem_of_fmap in Hin as ([k' s'] & -> & Hin). apply list_elem_of_In in Hin.
    specialize (H _ Hin). by bsplit.
  - apply Forall_forall. intros ks Hin. apply list_elem_of_In in Hin. specialize (H _ Hin). by bsplit.
Qed.

Lemma infoKeyCodec_OK : codecOK infoKeyCodec.
Proof. apply codecOKb_sound. vm_compute. reflexivity. Qed.

(** Folding a patch onto the projection of a bead, in any order. *)
Lemma fold_reprojects b (patch : MetadataPatch) order :
  order ≡ₚ map_to_list patch →
  foldPatch order (infoFromPersistedBead b) = infoFromPersistedBead (setMetadataMap b (patch ∪ bMetadata b)).
Proof.
  intros Hp. unfold foldPatch, infoFromPersistedBead.
  assert (NoDup order.*1) as Hnd by (rewrite Hp; apply NoDup_fst_map_to_list).
  rewrite foldKeys_project by (exact infoKeyCodec_OK || done).
  assert ((list_to_map order : gmap string string) = patch) as ->; [|done].
  rewrite (list_to_map_proper order (map_to_list patch)) by done. apply list_to_map_to_list.
Qed.

(** Closing commutes with every setter: the stored state of a closed bead is
    blank whatever its metadata say. *)
Lemma MarkClosed_set s i v : MarkClosed (set s i v) = set s (MarkClosed i) v.
Proof.
  destruct s; try reflexivity.
Qed.

Lemma MarkClosed_project meta i codec : MarkClosed (project meta i codec) = project meta (MarkClosed i) codec.
Proof.
  revert i. induction codec as [|[k s] codec IH]; intros i; [done|].
  change (MarkClosed (project meta (set s i meta.[k]) codec) = project meta (set s (MarkClosed i) meta.[k]) codec).
  by rewrite IH, MarkClosed_set.
Qed.

Lemma info_fields b b' :
  bID b = bID b' → bType b = bType b' → bTitle b = bTitle b' → bLabels b = bLabels b' → bCreatedAt b = bCreatedAt b' →
  bStatus b = bStatus b' → bMetadata b = bMetadata b' → infoFromPersistedBead b = infoFromPersistedBead b'.
Proof. unfold infoFromPersistedBead. by intros -> -> -> -> -> -> ->. Qed.

Lemma MarkClosed_info b : MarkClosed (infoFromPersistedBead b) = infoFromPersistedBead (setStatus b "closed").
Proof. unfold infoFromPersistedBead. by rewrite MarkClosed_project. Qed.

Lemma info_touch now b : infoFromPersistedBead (touch now b) = infoFromPersistedBead b.
Proof. by apply info_fields. Qed.

(** ** The store behind the snapshot *)

(** Replacing the bead found under an ID. *)
Lemma indexOf_putAt m id i b b' :
  indexOfLocked m id = Some (i, b) → bID b' = id → indexOfLocked (putAt m i b') id = Some (i, b').
Proof.
  unfold indexOfLocked. intros Hi Hb'. apply list_find_Some in Hi as (Hl & Hid & Hbefore).
  apply list_find_Some. cbn. split; [apply list_lookup_insert_eq; by eapply lookup_lt_Some|]. split; [done|].
  intros j y Hj Hlt. rewrite list_lookup_insert_ne in Hj by lia. by eapply Hbefore.
Qed.

(** The session bead stored under [id], and its projection. *)
Definition stored (m : MemStore) (id : string) (b : Bead) : Prop :=
  (∃ i, indexOfLocked m id = Some (i, b)) ∧ TrimSpace id ≠ "" ∧ IsSessionBeadOrRepairable b = true.

Lemma Get_stored m id info : Get m id = Ok info ↔ ∃ b, stored m id b ∧ info = infoFromPersistedBead b.
Proof.
  unfold Get, validatedBead, MemStore.Get, stored. generalize infoFromPersistedBead as proj. intros proj.
  destruct (indexOfLocked m id) as [[i b]|] eqn:E.
  - assert (bID b = id) as <- by by apply indexOf_lookup in E as [_ ?].
    destruct (decide (TrimSpace (bID b) = "")) as [Hd|Hd].
    { rewrite bool_decide_true by done. split; [done|]. by intros (b' & (_ & ? & _) & _). }
    rewrite bool_decide_false by done. destruct (IsSessionBeadOrRepairable b) eqn:Es; cbn.
    + split; [intros [= <-]; eauto 10|]. intros (b' & ((i' & [= -> ->]) & _) & ->). done.
    + split; [done|]. intros (b' & ((i' & [= -> ->]) & _ & ?) & _). congruence.
  - split; [done|]. intros (b' & ((i' & ?) & _) & _). done.
Qed.

Lemma stored_id m id b : stored m id b → bID b = id.
Proof. intros ((i & Hi) & _). by apply indexOf_lookup in Hi as [_ ?]. Qed.

Lemma stored_put m id b b' i :
  stored m id b → indexOfLocked m id = Some (i, b) → bID b' = bID b → bType b' = bType b → bLabels b' = bLabels b →
  stored (putAt m i b') id b'.
Proof.
  intros Hs Hi Hid Ht Hl. pose proof (stored_id _ _ _ Hs) as Hid'. destruct Hs as (_ & Hne & His).
  split; [exists i; apply (indexOf_putAt m id i b b'); congruence|]. split; [done|].
  unfold IsSessionBeadOrRepairable in *. by rewrite Ht, Hl.
Qed.

(** What the store does with a batch of metadata, a single key, and a close. *)
Lemma batch_stored now id (p : MetadataPatch) m b :
  p ≠ ∅ → stored m id b →
  let r := SetMetadataBatch now id p m in
  r.1 = Ok tt ∧ stored r.2 id (touch now (setMetadataMap b (p ∪ bMetadata b))).
Proof.
  intros Hp Hs. destruct (proj1 Hs) as [i Hi]. unfold SetMetadataBatch. rewrite decide_False by done. rewrite Hi.
  split; [done|]. by apply (stored_put m id b).
Qed.

Lemma update_stored now id (p : MetadataPatch) m b :
  stored m id b →
  let r := Update now id (metadataOpts p) m in
  r.1 = Ok tt ∧ ∃ b', stored r.2 id b' ∧ infoFromPersistedBead b' = infoFromPersistedBead (setMetadataMap b (p ∪ bMetadata b)).
Proof.
  intros Hs. destruct (proj1 Hs) as [i Hi]. unfold Update. rewrite Hi.
  split; [done|]. exists (applyUpdate now (metadataOpts p) b).
  assert (List.filter (λ l, negb (bool_decide (l ∈ @nil string))) (bLabels b ++ []) = bLabels b) as Hlab.
  { rewrite app_nil_r. induction (bLabels b) as [|l ls IH]; [done|]. cbn.
    rewrite bool_decide_false by apply not_elem_of_nil. cbn. by rewrite IH. }
  split; [by apply (stored_put m id b)|]. by apply info_fields.
Qed.

Lemma marker_stored now id k v m b :
  stored m id b →
  let r := SetMetadata now id k v m in
  r.1 = Ok tt ∧ stored r.2 id (touch now (setMetadataMap b (<[k:=v]> (bMetadata b)))).
Proof.
  intros Hs. destruct (proj1 Hs) as [i Hi]. unfold SetMetadata. rewrite Hi.
  split; [done|]. by apply (stored_put m id b).
Qed.

Lemma close_stored now id m b :
  stored m id b → bStatus b ≠ "closed" →
  let r := MemStore.Close now id m in r.1 = Ok tt ∧ stored r.2 id (touch now (setStatus b "closed")).
Proof.
  intros Hs Hc. destruct (proj1 Hs) as [i Hi]. unfold MemStore.Close. rewrite Hi, bool_decide_false by done.
  split; [done|]. by apply (stored_put m id b).
Qed.

(** ** Writers that keep a snapshot *)

(** The writes of a client of the front door that holds a snapshot. *)
Inductive write :=
| WPatch (p : MetadataPatch)
| WUpdate (p : MetadataPatch)
| WMarker (key value : string)
| WClose (stateCode : string) (at_ : Z).

(** A write and the fold that goes with it: on an error the snapshot stays. *)
Definition writeFold (now : Z) (id : string) (w : write) (st : MemStore * Info) : MemStore * Info :=
  let '(m, info) := st in
  match w with
  | WPatch p => let r := ApplyPatchInfo now info p m in (r.2, r.1.1)
  | WUpdate p => let r := UpdateMetadataInfo now info p m in (r.2, r.1.1)
  | WMarker k v =>
      match SetMarker now id k v m with
      | (Ok _, m) => (m, infoApplyPatch info (literal [(k, v)]))
      | (Err _, m) => (m, info)
      end
  | WClose code at_ =>
      match Close now id code at_ m with
      | (Ok true, m) => (m, MarkClosed (infoApplyPatch info (ClosePatch at_ code)))
      | (_, m) => (m, info)
      end
  end.

Fixpoint writeAll (now : nat → Z) (id : string) (ws : list write) (st : MemStore * Info) : MemStore * Info :=
  match ws with
  | [] => st
  | w :: ws => writeAll (λ n, now (S n)) id ws (writeFold (now O) id w st)
  end.

Lemma infoApplyPatch_info b (p : MetadataPatch) :
  infoApplyPatch (infoFromPersistedBead b) p = infoFromPersistedBead (setMetadataMap b (p ∪ bMetadata b)).
Proof. unfold infoApplyPatch. by apply fold_reprojects. Qed.

Lemma project_prologue meta i codec : prologue (project meta i codec) = prologue i.
Proof.
  revert i. induction codec as [|[k s] codec IH]; intros i; [done|].
  change (prologue (project meta (set s i meta.[k]) codec) = prologue i). by rewrite IH, set_prologue.
Qed.

Lemma info_prologue b :
  prologue (infoFromPersistedBead b) =
    (bID b, bType b, bTitle b, bLabels b, bCreatedAt b, bStatus b == "closed", false, 0).
Proof. unfold infoFromPersistedBead. by rewrite project_prologue. Qed.

Lemma info_id b : iID (infoFromPersistedBead b) = bID b.
Proof. pose proof (info_prologue b) as H. unfold prologue in H. congruence. Qed.

Lemma info_closed b : iClosed (infoFromPersistedBead b) = (bStatus b == "closed").
Proof. pose proof (info_prologue b) as H. unfold prologue in H. congruence. Qed.

Lemma literal_one k v (m : gmap string string) : (literal [(k, v)] : MetadataPatch) ∪ m = <[k:=v]> m.
Proof.
  change ((<[k:=v]> ∅ : gmap string string) ∪ m = <[k:=v]> m). by rewrite <-insert_union_l, map_empty_union.
Qed.

(** The write and the read agree: the snapshot is the stored session's. *)
Definition coherent (id : string) (st : MemStore * Info) : Prop :=
  ∃ b, stored st.1 id b ∧ st.2 = infoFromPersistedBead b.

Lemma coherent_touch id m now b info :
  stored m id (touch now b) → info = infoFromPersistedBead b → coherent id (m, info).
Proof. intros Hs ->. exists (touch now b). by rewrite info_touch. Qed.

Lemma patch_coherent now id p st : coherent id st → coherent id (writeFold now id (WPatch p) st).
Proof.
  destruct st as [m info]. intros (b & Hs & Hinfo). cbn [fst snd] in Hs, Hinfo. subst info. cbn [writeFold].
  unfold ApplyPatchInfo, ApplyPatch. rewrite info_id, (stored_id _ _ _ Hs). case_bool_decide as Hp; [by exists b|].
  destruct (batch_stored now id p m b Hp Hs) as [Hr Hs']. unfold bare.
  destruct (SetMetadataBatch now id p m) as [r m']. cbn [fst snd] in *. subst r. cbn [fst snd].
  by apply (coherent_touch id m' now (setMetadataMap b (p ∪ bMetadata b))), infoApplyPatch_info.
Qed.

Lemma update_coherent now id p st : coherent id st → coherent id (writeFold now id (WUpdate p) st).
Proof.
  destruct st as [m info]. intros (b & Hs & Hinfo). cbn [fst snd] in Hs, Hinfo. subst info. cbn [writeFold].
  unfold UpdateMetadataInfo. rewrite info_id, (stored_id _ _ _ Hs). case_bool_decide as Hp; [by exists b|].
  destruct (update_stored now id p m b Hs) as (Hr & b' & Hs' & Hi).
  destruct (Update now id (metadataOpts p) m) as [r m']. cbn [fst snd] in *. subst r. cbn [fst snd].
  exists b'. split; [done|]. cbn [snd]. by rewrite infoApplyPatch_info.
Qed.

Lemma marker_coherent now id k v st : coherent id st → coherent id (writeFold now id (WMarker k v) st).
Proof.
  destruct st as [m info]. intros (b & Hs & Hinfo). cbn [fst snd] in Hs, Hinfo. subst info. cbn [writeFold].
  unfold SetMarker, bare. destruct (marker_stored now id k v m b Hs) as [Hr Hs'].
  destruct (SetMetadata now id k v m) as [r m']. cbn [fst snd] in *. subst r. cbn [fst snd].
  apply (coherent_touch id m' now (setMetadataMap b (<[k:=v]> (bMetadata b)))); [done|].
  by rewrite infoApplyPatch_info, literal_one.
Qed.

Lemma ClosePatch_nonempty at_ code : ClosePatch at_ code ≠ ∅.
Proof. unfold ClosePatch, literal. cbn. apply insert_non_empty. Qed.

Lemma close_coherent now id code at_ st : coherent id st → coherent id (writeFold now id (WClose code at_) st).
Proof.
  destruct st as [m info]. intros (b & Hs & Hinfo). cbn [fst snd] in Hs, Hinfo. subst info. cbn [writeFold].
  unfold Close. rewrite (proj2 (Get_stored m id (infoFromPersistedBead b))) by eauto. rewrite info_closed.
  case_bool_decide as Hc; [by exists b|]. unfold ApplyPatch.
  rewrite bool_decide_false by apply ClosePatch_nonempty. set (p := ClosePatch at_ code).
  destruct (batch_stored now id p m b) as [Hr Hs']; [apply ClosePatch_nonempty|done|]. unfold bare.
  destruct (SetMetadataBatch now id p m) as [r m']. cbn [fst snd] in *. subst r.
  destruct (close_stored now id m' _ Hs') as [Hr2 Hs2]; [done|].
  destruct (MemStore.Close now id m') as [r m'']. cbn [fst snd] in *. subst r.
  apply (coherent_touch id m'' now (setStatus (touch now (setMetadataMap b (p ∪ bMetadata b))) "closed")); [done|].
  rewrite infoApplyPatch_info, MarkClosed_info. by apply info_fields.
Qed.

Lemma write_coherent now id w st : coherent id st → coherent id (writeFold now id w st).
Proof. destruct w; [apply patch_coherent|apply update_coherent|apply marker_coherent|apply close_coherent]. Qed.

(** C16 The snapshot never drifts.  A client that read a session once and from
    then on folds every write it makes through the front door (batches, single
    updates, markers, the terminal close) onto its snapshot holds, after any
    number of writes, exactly what reading the session again would return. *)
Theorem snapshot_coherent now id ws m info :
  Get m id = Ok info →
  let st := writeAll now id ws (m, info) in Get st.1 id = Ok st.2.
Proof.
  intros Hg st. apply Get_stored. change (coherent id st). apply Get_stored in Hg. unfold st. clear st.
  assert (coherent id (m, info)) as Hc by done. clear Hg. revert now m info Hc.
  induction ws as [|w ws IH]; intros now m info Hc; [done|]. cbn [writeAll].
  pose proof (write_coherent (now O) id w _ Hc) as Hw. destruct (writeFold (now O) id w (m, info)) as [m' i']. by apply IH.
Qed.

(** A patch folded onto a snapshot is a re-projection of the patched bead,
    whatever the order in which the keys of the patch are visited. *)
Theorem fold_is_reprojection b (patch : MetadataPatch) order :
  order ≡ₚ map_to_list patch →
  foldPatch order (infoFromPersistedBead b) = infoFromPersistedBead (setMetadataMap b (Apply patch (bMetadata b))).
Proof. apply fold_reprojects. Qed.
