(* ===== verification/SessionView.v ===== *)
(** * SessionView: the lifecycle projection

    Models [internal/session/lifecycle_projection.go]: what stored metadata and
    observed facts mean for a session.  The projections are strings in the
    source and here; a base state may be any stored text.  [clk] is the clock
    reading that replaces a zero [Now].  A nil metadata map is the empty map:
    the display reason of both is empty ([display_empty]). *)

From S2P Require Import Prelude GoBase GoText GoTime Beads SessionState SessionInfo.

Local Open Scope Z_scope.

Abbreviation BaseState := string (only parsing).
Definition BaseStateNone : BaseState := "".
Definition BaseStateCreating : BaseState := "creating".
Definition BaseStateStartPending : BaseState := "start-pending".
Definition BaseStateActive : BaseState := "active".
Definition BaseStateAsleep : BaseState := "asleep".
Definition BaseStateSuspended : BaseState := "suspended".
Definition BaseStateFailedCreate : BaseState := "failed-create".
Definition BaseStateDraining : BaseState := "draining".
Definition BaseStateDrained : BaseState := "drained".
Definition BaseStateArchived : BaseState := "archived".
Definition BaseStateOrphaned : BaseState := "orphaned".
Definition BaseStateClosed : BaseState := "closed".
Definition BaseStateClosing : BaseState := "closing".
Definition BaseStateQuarantined : BaseState := "quarantined".
Definition BaseStateStopped : BaseState := "stopped".

Inductive DesiredState := DesiredStateUndesired | DesiredStateAsleep | DesiredStateRunning | DesiredStateBlocked.

Inductive RuntimeProjection :=
| RuntimeProjectionUnknown | RuntimeProjectionAlive | RuntimeProjectionMissing
| RuntimeProjectionFreshCreating | RuntimeProjectionStaleCreating | RuntimeProjectionStartRequested.

Inductive IdentityProjection :=
| IdentityNone | IdentityConcrete | IdentityCanonical | IdentityHistorical
| IdentityReservedUnmaterialized | IdentityConflict.

Abbreviation LifecycleBlocker := string (only parsing).
Definition BlockerHeld : LifecycleBlocker := "held".
Definition BlockerQuarantined : LifecycleBlocker := "quarantined".
Definition BlockerMissingConfig : LifecycleBlocker := "missing-config".
Definition BlockerIdentityConflict : LifecycleBlocker := "identity-conflict".
Definition BlockerDuplicateCanonical : LifecycleBlocker := "duplicate-canonical".

Abbreviation WakeCause := string (only parsing).
Definition WakeCausePendingCreate : WakeCause := "pending-create".
Definition WakeCausePinned : WakeCause := "pin".
Definition WakeCauseAttached : WakeCause := "attached".
Definition WakeCausePending : WakeCause := "pending".
Definition WakeCauseNamedAlways : WakeCause := "named-always".
Definition WakeCauseWork : WakeCause := "work".
Definition WakeCauseScaleDemand : WakeCause := "scale-demand".
Definition WakeCauseExplicit : WakeCause := "explicit".

Record RuntimeFacts := mkRuntimeFacts { rfObserved : bool; rfAlive : bool; rfAttached : bool; rfPending : bool }.

Record NamedIdentityInput := mkNamedIdentityInput {
  niIdentity : string;
  niConfigured : bool;
  niHasCanonicalBead : bool;
  niConflict : bool;
  niDuplicateCanonical : bool
}.

(** The facts that do not come from the stored metadata. *)
Record ExternalFacts := mkExternalFacts {
  efRuntime : RuntimeFacts;
  efNamedIdentity : NamedIdentityInput;
  efWakeCauses : list WakeCause;
  efPreserveIdentity : bool;
  efConfigMissing : bool;
  efCreatedAt : Z;
  efStaleCreatingAfter : Z;
  efNow : Z
}.

Definition noFacts : ExternalFacts :=
  mkExternalFacts (mkRuntimeFacts false false false false) (mkNamedIdentityInput "" false false false false) [] false false 0 0 0.

Definition factsAt (now : Z) : ExternalFacts :=
  mkExternalFacts (mkRuntimeFacts false false false false) (mkNamedIdentityInput "" false false false false) [] false false 0 0 now.

Record LifecycleInput := mkLifecycleInput {
  liStatus : string;
  liStoredState : string;
  liSleepReason : string;
  liContinuityEligible : string;
  liConfiguredNamedIdentity : string;
  liHeldUntil : string;
  liQuarantinedUntil : string;
  liPendingCreateClaim : bool;
  liLastWokeAt : string;
  liSessionKey : string;
  liStartedConfigHash : string;
  liPendingCreateStartedAt : string;
  liPinAwake : string;
  liWakeRequest : string;
  liFacts : ExternalFacts
}.

Definition LifecycleInputFromMetadata (status : string) (meta : gmap string string) (facts : ExternalFacts) : LifecycleInput :=
  mkLifecycleInput status meta.["state"] meta.["sleep_reason"] meta.["continuity_eligible"]
    meta.[NamedSessionIdentityMetadata] meta.["held_until"] meta.["quarantined_until"]
    (isTrue meta.["pending_create_claim"]) meta.["last_woke_at"] meta.["session_key"]
    meta.["started_config_hash"] meta.["pending_create_started_at"] meta.["pin_awake"] meta.["wake_request"] facts.

Definition LifecycleInputFromInfo (info : Info) (facts : ExternalFacts) : LifecycleInput :=
  mkLifecycleInput (if info.(iClosed) then "closed" else "") (text info "MetadataState") (text info "SleepReason")
    (text info "ContinuityEligible") (text info "ConfiguredNamedIdentity") (text info "HeldUntil")
    (text info "QuarantinedUntil") (flag info "PendingCreateClaim") (text info "LastWokeAt") (text info "SessionKey")
    (text info "StartedConfigHash") (text info "PendingCreateStartedAt") (text info "PinAwake") (text info "WakeRequest") facts.

Record LifecycleView := mkLifecycleView {
  lvBaseState : BaseState;
  lvCompatState : State;
  lvStoredState : string;
  lvDesiredState : DesiredState;
  lvRuntimeProjection : RuntimeProjection;
  lvIdentity : IdentityProjection;
  lvNamedIdentity : string;
  lvBlockers : list LifecycleBlocker;
  lvWakeCauses : list WakeCause;
  lvHeldUntil : Z;
  lvQuarantinedUntil : Z;
  lvContinuityEligible : bool;
  lvTerminal : bool;
  lvCountsAgainstCap : bool;
  lvRuntimeAlive : bool;
  lvRuntimeAttached : bool;
  lvReconciledState : State;
  lvResetContinuation : bool
}.

Definition HasBlocker (v : LifecycleView) (blocker : LifecycleBlocker) : bool := oneOf blocker v.(lvBlockers).
Definition HasWakeCause (v : LifecycleView) (cause : WakeCause) : bool := oneOf cause v.(lvWakeCauses).

(** [appendUniqueBlocker] and [appendUniqueWakeCause]. *)
Definition appendUnique (l : list string) (x : string) : list string :=
  if x == "" then l else if oneOf x l then l else l ++ [x].

Definition projectBaseState (status storedState sleepReason : string) : BaseState :=
  if TrimSpace status == "closed" then BaseStateClosed
  else
    let s := TrimSpace storedState in
    if s == "" then BaseStateNone
    else if s == StateStartPending then BaseStateStartPending
    else if s == StateCreating then BaseStateCreating
    else if (s == StateActive) || (s == StateAwake) then BaseStateActive
    else if s == StateAsleep then (if sleepReason == "drained" then BaseStateDrained else BaseStateAsleep)
    else if s == StateSuspended then BaseStateSuspended
    else if s == StateFailedCreate then BaseStateFailedCreate
    else if s == StateDraining then BaseStateDraining
    else if s == "drained" then BaseStateDrained
    else if s == StateArchived then BaseStateArchived
    else if s == "orphaned" then BaseStateOrphaned
    else if s == "closed" then BaseStateClosed
    else if s == "closing" then BaseStateClosing
    else if s == StateQuarantined then BaseStateQuarantined
    else if s == "stopped" then BaseStateStopped
    else s.

Definition compatStateForBase (base : BaseState) : State :=
  if base == BaseStateStartPending then StateStartPending
  else if base == BaseStateCreating then StateCreating
  else if base == BaseStateActive then StateActive
  else if oneOf base [BaseStateAsleep; BaseStateDrained; BaseStateStopped] then StateAsleep
  else if base == BaseStateSuspended then StateSuspended
  else if base == BaseStateFailedCreate then StateFailedCreate
  else if base == BaseStateDraining then StateDraining
  else if base == BaseStateArchived then StateArchived
  else if base == BaseStateQuarantined then StateQuarantined
  else if base == BaseStateClosed then "closed"
  else if base == BaseStateClosing then "closing"
  else if base == BaseStateOrphaned then "orphaned"
  else base.

Definition isTerminal (base : BaseState) : bool := (base == BaseStateClosed) || (base == BaseStateClosing).

Definition projectContinuityEligibility (base : BaseState) (raw : string) : bool :=
  if (base == BaseStateNone) || (base == BaseStateClosed) || (base == BaseStateClosing) then false
  else if raw == "false" then false
  else if base == BaseStateArchived then raw == "true"
  else true.

Definition projectIdentity (input : LifecycleInput) (namedIdentity : string) (base : BaseState) (continuityEligible : bool)
    : IdentityProjection :=
  let ni := input.(liFacts).(efNamedIdentity) in
  let hasBead := base != BaseStateNone in
  if (namedIdentity != "") && hasBead then (if continuityEligible then IdentityCanonical else IdentityHistorical)
  else if ni.(niConfigured) && ni.(niConflict) && negb ni.(niHasCanonicalBead) then IdentityConflict
  else if ni.(niConfigured) && negb ni.(niHasCanonicalBead) then IdentityReservedUnmaterialized
  else if hasBead then IdentityConcrete
  else IdentityNone.

(** A stored deadline: the zero time when it is absent, malformed or zero. *)
Definition deadline (raw : string) : Z := default 0 (ParseRFC3339 (TrimSpace raw)).

(** Append a blocker while its condition holds. *)
Definition blockIf (c : bool) (b : LifecycleBlocker) (l : list LifecycleBlocker) : list LifecycleBlocker :=
  if c then appendUnique l b else l.

Definition isConflict (i : IdentityProjection) : bool := match i with IdentityConflict => true | _ => false end.

Definition projectBlockers (input : LifecycleInput) (now : Z) (base : BaseState) (identity : IdentityProjection)
    : list LifecycleBlocker * Z * Z :=
  let ni := input.(liFacts).(efNamedIdentity) in
  let l := blockIf (input.(liFacts).(efConfigMissing) || (base == BaseStateOrphaned)) BlockerMissingConfig [] in
  let l := blockIf (isConflict identity || (ni.(niConfigured) && ni.(niConflict))) BlockerIdentityConflict l in
  let l := blockIf ni.(niDuplicateCanonical) BlockerDuplicateCanonical l in
  let heldUntil := deadline input.(liHeldUntil) in
  let l := blockIf (negb (IsZero heldUntil) && (now <? heldUntil)) BlockerHeld l in
  let quarantinedUntil := deadline input.(liQuarantinedUntil) in
  let l := blockIf (negb (IsZero quarantinedUntil) && (now <? quarantinedUntil)) BlockerQuarantined l in
  (l, heldUntil, quarantinedUntil).

Definition creatingStateIsStale (clk : Z) (input : LifecycleInput) : bool :=
  let f := input.(liFacts) in
  if f.(efStaleCreatingAfter) <=? 0 then false
  else
    let now := orNow clk f.(efNow) in
    let v := TrimSpace input.(liPendingCreateStartedAt) in
    let parsed := if v != "" then default 0 (ParseRFC3339 v) else 0 in
    let startedAt := if IsZero parsed then f.(efCreatedAt) else parsed in
    if IsZero startedAt then true
    else negb (now <? startedAt + f.(efStaleCreatingAfter)).

Definition shouldResetContinuation (base : BaseState) (input : LifecycleInput) (sleepReason : string) : bool :=
  if (TrimSpace input.(liSessionKey) == "") && (TrimSpace input.(liStartedConfigHash) == "") then false
  else if oneOf (TrimSpace sleepReason)
    [SleepReasonIdle; SleepReasonIdleTimeout; SleepReasonNoWakeReason; SleepReasonConfigDrift; SleepReasonDrained;
     SleepReasonCityStop; SleepReasonUserHold; SleepReasonWaitHold; SleepReasonRateLimit; SleepReasonRuntimeMissing]
  then false
  else (base == BaseStateActive) || (base == BaseStateCreating).

Definition projectRuntimeProjection (clk : Z) (input : LifecycleInput) (base : BaseState) (compat : State)
    (sleepReason : string) (wakeCauses : list WakeCause) : RuntimeProjection * State * bool :=
  let rt := input.(liFacts).(efRuntime) in
  if negb rt.(rfObserved) then (RuntimeProjectionUnknown, compat, false)
  else if rt.(rfAlive) then (RuntimeProjectionAlive, StateAwake, false)
  else if (base == BaseStateNone) || (base == BaseStateClosed) || (base == BaseStateClosing)
  then (RuntimeProjectionMissing, compat, false)
  else if base == BaseStateStartPending then (RuntimeProjectionStartRequested, StateStartPending, false)
  else if base == BaseStateCreating then
    if input.(liPendingCreateClaim) && (TrimSpace input.(liLastWokeAt) == "")
    then (RuntimeProjectionStartRequested, StateStartPending, false)
    else if negb (creatingStateIsStale clk input)
    then (if oneOf WakeCausePendingCreate wakeCauses then RuntimeProjectionStartRequested else RuntimeProjectionFreshCreating,
          StateCreating, false)
    else (RuntimeProjectionStaleCreating, StateAsleep, shouldResetContinuation base input sleepReason)
  else if base == BaseStateFailedCreate then (RuntimeProjectionMissing, StateFailedCreate, false)
  else if oneOf WakeCausePendingCreate wakeCauses then (RuntimeProjectionStartRequested, StateStartPending, false)
  else (RuntimeProjectionMissing, StateAsleep, shouldResetContinuation base input sleepReason).

Definition projectWakeCauses (input : LifecycleInput) : list WakeCause :=
  let rt := input.(liFacts).(efRuntime) in
  let add (c : bool) (cause : WakeCause) (l : list WakeCause) := if c then appendUnique l cause else l in
  let l := foldl appendUnique [] input.(liFacts).(efWakeCauses) in
  let l := add input.(liPendingCreateClaim) WakeCausePendingCreate l in
  let l := add (TrimSpace input.(liWakeRequest) == WakeCauseExplicit) WakeCauseExplicit l in
  let l := add (TrimSpace input.(liPinAwake) == "true") WakeCausePinned l in
  let l := add rt.(rfAttached) WakeCauseAttached l in
  add rt.(rfPending) WakeCausePending l.

Definition projectDesiredState (input : LifecycleInput) (terminal : bool) (blockers : list LifecycleBlocker)
    (wakeCauses : list WakeCause) : DesiredState :=
  if terminal then DesiredStateUndesired
  else match wakeCauses with
  | _ :: _ => match blockers with _ :: _ => DesiredStateBlocked | [] => DesiredStateRunning end
  | [] => if input.(liFacts).(efPreserveIdentity) then DesiredStateAsleep else DesiredStateUndesired
  end.

Definition countsAgainstCapacity (base : BaseState) : bool :=
  oneOf base [BaseStateStartPending; BaseStateCreating; BaseStateActive; BaseStateDraining; BaseStateQuarantined].

Definition ProjectLifecycle (clk : Z) (input : LifecycleInput) : LifecycleView :=
  let f := input.(liFacts) in
  let now := orNow clk f.(efNow) in
  let storedState := TrimSpace input.(liStoredState) in
  let sleepReason := TrimSpace input.(liSleepReason) in
  let baseState := projectBaseState input.(liStatus) storedState sleepReason in
  let compatState := compatStateForBase baseState in
  let terminal := isTerminal baseState in
  let continuityEligible := projectContinuityEligibility baseState (TrimSpace input.(liContinuityEligible)) in
  let named := TrimSpace f.(efNamedIdentity).(niIdentity) in
  let namedIdentity := if named == "" then TrimSpace input.(liConfiguredNamedIdentity) else named in
  let identity := projectIdentity input namedIdentity baseState continuityEligible in
  let wakeCauses := projectWakeCauses input in
  let '(runtimeProjection, reconciledState, resetContinuation) :=
    projectRuntimeProjection clk input baseState compatState sleepReason wakeCauses in
  let '(blockers, heldUntil, quarantinedUntil) := projectBlockers input now baseState identity in
  mkLifecycleView baseState compatState storedState (projectDesiredState input terminal blockers wakeCauses)
    runtimeProjection identity namedIdentity blockers wakeCauses heldUntil quarantinedUntil continuityEligible
    terminal (countsAgainstCapacity baseState) f.(efRuntime).(rfAlive) f.(efRuntime).(rfAttached) reconciledState
    resetContinuation.

(** ** Display reasons *)

Definition LifecycleReasonResetPending : string := "reset-pending".
Definition LifecycleReasonCircuitOpen : string := "circuit-open".
Definition SessionCircuitStateOpen : string := "CIRCUIT_OPEN".

(** The view hides its reason: terminal, or archived for good. *)
Definition noReason (view : LifecycleView) : bool :=
  view.(lvTerminal) || ((view.(lvBaseState) == BaseStateArchived) && negb view.(lvContinuityEligible)).

(** [lifecycleDisplayReasonFromView]: the values it reads from the metadata are
    arguments, because its twin reads them from a snapshot. *)
Definition displayReason (view : LifecycleView) (circuitState sleepReason quarantinedUntil heldUntil waitHold : string) : string :=
  if noReason view then ""
  else if TrimSpace circuitState == SessionCircuitStateOpen then LifecycleReasonCircuitOpen
  else
    let raw := TrimSpace sleepReason in
    let staleTimedQuarantine :=
      oneOf raw [SleepReasonQuarantine; SleepReasonContextChurn; SleepReasonRateLimit] &&
      (TrimSpace quarantinedUntil != "") && negb (HasBlocker view BlockerQuarantined) in
    let staleTimedHold :=
      (raw == SleepReasonUserHold) && (TrimSpace heldUntil != "") && negb (HasBlocker view BlockerHeld) in
    if (raw != "") && negb staleTimedQuarantine && negb staleTimedHold then raw
    else if HasBlocker view BlockerQuarantined then SleepReasonQuarantine
    else if TrimSpace waitHold != "" then SleepReasonWaitHold
    else if HasBlocker view BlockerHeld then SleepReasonUserHold
    else "".

Definition lifecycleDisplayReasonFromView (view : LifecycleView) (meta : gmap string string) : string :=
  displayReason view meta.[SessionCircuitStateMetadataKey] meta.["sleep_reason"] meta.["quarantined_until"]
    meta.["held_until"] meta.["wait_hold"].

Definition lifecycleDisplayReasonFromViewInfo (view : LifecycleView) (info : Info) : string :=
  displayReason view (text info "SessionCircuitState") (text info "SleepReason") (text info "QuarantinedUntil")
    (text info "HeldUntil") (text info "WaitHold").

(** [lifecycleResetPendingReasonVisible]; [isRunning] is [None] for a nil
    function. *)
Definition resetPendingVisible (view : LifecycleView) (restartRequested continuationResetPending name fallback : string)
    (isRunning : option (string → bool)) : bool :=
  if noReason view then false
  else match isRunning with
  | None => false
  | Some running =>
      if (TrimSpace restartRequested != "true") && (TrimSpace continuationResetPending != "true") then false
      else
        let sessionName := if TrimSpace name == "" then TrimSpace fallback else TrimSpace name in
        (sessionName != "") && running sessionName
  end.

Definition lifecycleResetPendingReasonVisible (view : LifecycleView) (meta : gmap string string) (sessionName : string)
    (isRunning : option (string → bool)) : bool :=
  resetPendingVisible view meta.["restart_requested"] meta.["continuation_reset_pending"] sessionName meta.["session_name"] isRunning.

Definition lifecycleResetPendingReasonVisibleInfo (view : LifecycleView) (info : Info) (isRunning : option (string → bool)) : bool :=
  resetPendingVisible view (text info "RestartRequested") (text info "ContinuationResetPending") info.(iSessionName)
    (text info "SessionNameMetadata") isRunning.

Definition LifecycleDisplayReason (clk : Z) (status : string) (meta : gmap string string) (now : Z) : string :=
  lifecycleDisplayReasonFromView (ProjectLifecycle clk (LifecycleInputFromMetadata status meta (factsAt now))) meta.

Definition LifecycleDisplayReasonWithLiveness (clk : Z) (status : string) (meta : gmap string string) (now : Z)
    (sessionName : string) (isRunning : option (string → bool)) : string :=
  let view := ProjectLifecycle clk (LifecycleInputFromMetadata status meta (factsAt now)) in
  if lifecycleResetPendingReasonVisible view meta sessionName isRunning then LifecycleReasonResetPending
  else lifecycleDisplayReasonFromView view meta.

Definition LifecycleDisplayReasonWithLivenessInfo (clk : Z) (info : Info) (now : Z) (isRunning : option (string → bool)) : string :=
  let view := ProjectLifecycle clk (LifecycleInputFromInfo info (factsAt now)) in
  if lifecycleResetPendingReasonVisibleInfo view info isRunning then LifecycleReasonResetPending
  else lifecycleDisplayReasonFromViewInfo view info.

(** ** Conflicts and released identities *)

(** The state that rejects an explicit wake, if any. *)
Definition lifecycleWakeConflictState (view : LifecycleView) : option string :=
  if view.(lvBaseState) == BaseStateClosed then Some BaseStateClosed
  else if view.(lvBaseState) == BaseStateClosing
  then Some (if view.(lvStoredState) != "" then view.(lvStoredState) else view.(lvBaseState))
  else if view.(lvBaseState) == BaseStateArchived
  then (if negb view.(lvContinuityEligible) then Some BaseStateArchived else None)
  else None.

Definition LifecycleWakeConflictState (clk : Z) (status : string) (meta : gmap string string) : option string :=
  lifecycleWakeConflictState (ProjectLifecycle clk (LifecycleInputFromMetadata status meta noFacts)).

Definition LifecycleIdentifiersReleased (meta : gmap string string) : bool :=
  (TrimSpace meta.["alias"] == "") && (TrimSpace meta.["session_name"] == "") && (TrimSpace meta.["session_name_explicit"] == "").

Definition LifecycleIdentityReleased (clk : Z) (status : string) (meta : gmap string string) : bool :=
  negb (ProjectLifecycle clk (LifecycleInputFromMetadata status meta noFacts)).(lvContinuityEligible) &&
  LifecycleIdentifiersReleased meta.

Definition LifecycleIdentifiersReleasedInfo (info : Info) : bool :=
  (TrimSpace (text info "Alias") == "") && (TrimSpace (text info "SessionNameMetadata") == "") &&
  (TrimSpace (text info "SessionNameExplicit") == "").

Definition LifecycleIdentityReleasedInfo (clk : Z) (info : Info) : bool :=
  negb (ProjectLifecycle clk (LifecycleInputFromInfo info noFacts)).(lvContinuityEligible) &&
  LifecycleIdentifiersReleasedInfo info.
