(* ===== verification/SessionViewProps.v ===== *)
(** * SessionViewProps: what the lifecycle projection guarantees

    When a session is wanted running, what a quarantine window does, what a
    wake and a retirement leave behind, and that the projection of a snapshot is
    the projection of the bead it was made from. *)

From Stdlib Require Import Ascii.
From S2P Require Import Prelude GoBase GoText GoTime GoTimeProps Beads MemStore SessionState SessionExits SessionInfo SessionInfoProps SessionView.

Local Open Scope Z_scope.

(** ** Reading patched metadata *)

Lemma Apply_get (p meta : gmap string string) k : (Apply p meta).[k] = match p !! k with Some v => v | None => meta.[k] end.
Proof. unfold Apply, mget. rewrite lookup_union. by destruct (p !! k), (meta !! k). Qed.

Lemma lookup_literal l k : literal l !! k = assoc k l.
Proof.
  unfold literal. induction l as [|[k' v] l IH]; cbn; [apply lookup_empty|].
  case_bool_decide as E; [subst; apply lookup_insert_eq|]. by rewrite lookup_insert_ne by done.
Qed.

Lemma lookup_clearKeys ks p k : clearKeys ks p !! k = if bool_decide (k ∈ ks) then Some "" else p !! k.
Proof.
  unfold clearKeys. revert p. induction ks as [|k' ks IH]; intros p; cbn [foldl].
  - by rewrite bool_decide_false by apply not_elem_of_nil.
  - rewrite IH. destruct (decide (k ∈ ks)).
    + rewrite !bool_decide_true by (try apply list_elem_of_further; done). done.
    + rewrite (bool_decide_false (k ∈ ks)) by done. destruct (decide (k = k')) as [->|].
      * rewrite bool_decide_true by apply list_elem_of_here. apply lookup_insert_eq.
      * rewrite bool_decide_false by (by apply not_elem_of_cons). by apply lookup_insert_ne.
Qed.

(** Membership of a closed key in a closed list of keys. *)
Ltac key_in :=
  repeat match goal with
  | |- context [bool_decide (?k ∈ ?ks)] =>
      let v := eval vm_compute in (bool_decide (k ∈ ks)) in
      match v with true => rewrite (bool_decide_true (k ∈ ks)) by (apply bool_decide_eq_true; vm_compute; reflexivity)
                 | false => rewrite (bool_decide_false (k ∈ ks)) by (apply bool_decide_eq_false; vm_compute; reflexivity) end
  end.

(** Evaluate a read of patched metadata at a closed key. *)
Ltac patch_get :=
  rewrite ?Apply_get;
  repeat first
    [ rewrite lookup_insert_eq | rewrite lookup_insert_ne by done | rewrite lookup_literal
    | rewrite lookup_clearKeys; key_in ];
  cbn [assoc]; repeat (case_bool_decide; [discriminate || idtac|]); try done.

(** ** The view of a snapshot *)

Lemma project_untouched {A} (P : Info → A) meta i codec :
  Forall (λ ks, ∀ j v, P (set ks.2 j v) = P j) codec → P (project meta i codec) = P i.
Proof.
  intros H. revert i. induction H as [|[k s] codec Hs H IH]; intros i; [done|].
  change (P (project meta (set s i meta.[k]) codec) = P i). by rewrite IH, Hs.
Qed.

(** A text or flag field of a projection, from the key that sets it. *)
Lemma project_field {A} (P : Info → A) (Q : string → A) meta i codec k s :
  codecOK codec → assoc k codec = Some s → (∀ j v, P (set s j v) = Q v) →
  (∀ s' j v, independent s s' = true → P (set s' j v) = P j) →
  P (project meta i codec) = Q meta.[k].
Proof.
  intros Hok Hk Hset Hind. destruct (assoc_split k codec s Hk) as (c1 & c2 & -> & _).
  destruct (codecOK_app _ _ _ _ Hok) as [_ Hd]. rewrite project_app.
  change (P (project meta (set s (project meta i c1) meta.[k]) c2) = Q meta.[k]).
  rewrite project_untouched, Hset; [done|]. eapply Forall_impl; [exact Hd|]. intros ks Hks j v. by apply Hind.
Qed.

Lemma info_text b k s f :
  assoc k infoKeyCodec = Some s → textField s = Some f → text (infoFromPersistedBead b) f = (bMetadata b).[k].
Proof.
  intros Hk Hf. unfold infoFromPersistedBead. apply (project_field (λ i, text i f) id _ _ _ _ s); [apply infoKeyCodec_OK|done|..].
  - intros j v. unfold text. rewrite set_text, Hf. apply mget_insert_eq.
  - intros s' j v Hi. unfold text. rewrite set_text. destruct (textField s') as [g|] eqn:E; [|done]. cbn.
    apply mget_insert_ne. intros ->. by apply (independent_text s s' f).
Qed.

Lemma info_flag b k s f :
  assoc k infoKeyCodec = Some s → flagField s = Some f → flag (infoFromPersistedBead b) f = isTrue (bMetadata b).[k].
Proof.
  intros Hk Hf. unfold infoFromPersistedBead. apply (project_field (λ i, flag i f) isTrue _ _ _ _ s); [apply infoKeyCodec_OK|done|..].
  - intros j v. unfold flag. rewrite set_flags, Hf. cbn. by rewrite lookup_insert_eq.
  - intros s' j v Hi. unfold flag. rewrite set_flags. destruct (flagField s') as [g|] eqn:E; [|done]. cbn.
    rewrite lookup_insert_ne; [done|]. intros ->. by apply (independent_flag s s' f).
Qed.

(** The key and the setter behind a text or a flag field. *)
Definition textKey (f : string) : option (string * setter) :=
  find (λ ks, bool_decide (textField ks.2 = Some f)) infoKeyCodec.
Definition flagKey (f : string) : option (string * setter) :=
  find (λ ks, bool_decide (flagField ks.2 = Some f)) infoKeyCodec.

(** Replace the fields of a snapshot by the metadata they mirror. *)
Ltac snapshot_reads :=
  repeat match goal with
  | |- context [text (infoFromPersistedBead ?b) ?f] =>
      let r := eval vm_compute in (textKey f) in
      match r with Some (?k, ?s) => rewrite (info_text b k s f) by reflexivity end
  | |- context [flag (infoFromPersistedBead ?b) ?f] =>
      let r := eval vm_compute in (flagKey f) in
      match r with Some (?k, ?s) => rewrite (info_flag b k s f) by reflexivity end
  end.

Definition withStatus (status : string) (i : LifecycleInput) : LifecycleInput :=
  mkLifecycleInput status i.(liStoredState) i.(liSleepReason) i.(liContinuityEligible) i.(liConfiguredNamedIdentity)
    i.(liHeldUntil) i.(liQuarantinedUntil) i.(liPendingCreateClaim) i.(liLastWokeAt) i.(liSessionKey)
    i.(liStartedConfigHash) i.(liPendingCreateStartedAt) i.(liPinAwake) i.(liWakeRequest) i.(liFacts).

(** The status matters only by being closed. *)
Lemma view_status clk s1 s2 i :
  (TrimSpace s1 == "closed") = (TrimSpace s2 == "closed") →
  ProjectLifecycle clk (withStatus s1 i) = ProjectLifecycle clk (withStatus s2 i).
Proof.
  intros Hs. unfold ProjectLifecycle. cbn [withStatus liStatus liStoredState liSleepReason].
  replace (projectBaseState s1) with (projectBaseState s2); [reflexivity|].
  unfold projectBaseState. by rewrite Hs.
Qed.

(** A status that is closed up to surrounding white space is closed. *)
Definition plainStatus (b : Bead) : Prop := TrimSpace (bStatus b) = "closed" → bStatus b = "closed".

Lemma input_snapshot b facts :
  LifecycleInputFromInfo (infoFromPersistedBead b) facts =
  withStatus (if bStatus b == "closed" then "closed" else "") (LifecycleInputFromMetadata (bStatus b) (bMetadata b) facts).
Proof.
  unfold LifecycleInputFromInfo. rewrite info_closed. by snapshot_reads.
Qed.

Lemma view_snapshot clk b facts :
  plainStatus b →
  ProjectLifecycle clk (LifecycleInputFromInfo (infoFromPersistedBead b) facts) =
  ProjectLifecycle clk (LifecycleInputFromMetadata (bStatus b) (bMetadata b) facts).
Proof.
  intros Hp. rewrite input_snapshot. set (i := LifecycleInputFromMetadata _ _ _).
  change i with (withStatus (bStatus b) i) at 2. apply view_status.
  destruct (decide (bStatus b = "closed")) as [E|E].
  - by rewrite (bool_decide_true (bStatus b = "closed")), E by done.
  - rewrite (bool_decide_false (bStatus b = "closed")) by done.
    rewrite (bool_decide_false (TrimSpace (bStatus b) = "closed")); [done|]. auto.
Qed.

(** The two readings of a session agree: the display reason and the released
    identity computed from a snapshot are the ones computed from the raw bead
    the snapshot was projected from, as are all the other projected facts. *)
Theorem snapshot_view_agrees clk b facts now isRunning :
  plainStatus b →
  let info := infoFromPersistedBead b in
  ProjectLifecycle clk (LifecycleInputFromInfo info facts) =
    ProjectLifecycle clk (LifecycleInputFromMetadata (bStatus b) (bMetadata b) facts) ∧
  LifecycleDisplayReasonWithLivenessInfo clk info now isRunning =
    LifecycleDisplayReasonWithLiveness clk (bStatus b) (bMetadata b) now (iSessionName info) isRunning ∧
  LifecycleIdentityReleasedInfo clk info = LifecycleIdentityReleased clk (bStatus b) (bMetadata b).
Proof.
  intros Hp info. split; [by apply view_snapshot|]. unfold info.
  unfold LifecycleDisplayReasonWithLivenessInfo, LifecycleDisplayReasonWithLiveness, LifecycleIdentityReleasedInfo,
    LifecycleIdentityReleased. rewrite !view_snapshot by done.
  unfold lifecycleResetPendingReasonVisibleInfo, lifecycleDisplayReasonFromViewInfo, LifecycleIdentifiersReleasedInfo.
  snapshot_reads. done.
Qed.

(** ** Blockers and wake causes *)

Lemma oneOf_app x l y : oneOf x (l ++ [y]) = oneOf x l || (x == y).
Proof. unfold oneOf. rewrite existsb_app. cbn. by rewrite orb_false_r. Qed.

Lemma oneOf_appendUnique x l y : y ≠ "" → oneOf x (appendUnique l y) = oneOf x l || (x == y).
Proof.
  intros Hy. unfold appendUnique. rewrite bool_decide_false by done. destruct (oneOf y l) eqn:E; [|apply oneOf_app].
  case_bool_decide as Hx; [subst; by rewrite E|]. by rewrite orb_false_r.
Qed.

Lemma appendUnique_nonempty l y : y ≠ "" → appendUnique l y ≠ [].
Proof.
  intros Hy. unfold appendUnique. rewrite bool_decide_false by done. destruct (oneOf y l) eqn:E; [by destruct l|].
  by destruct l.
Qed.

Lemma oneOf_blockIf x c y l : y ≠ "" → oneOf x (blockIf c y l) = oneOf x l || (c && (x == y)).
Proof. intros Hy. unfold blockIf. destruct c; [by apply oneOf_appendUnique|]. by rewrite orb_false_r. Qed.

Lemma blockIf_nil c y l : y ≠ "" → blockIf c y l = [] ↔ c = false ∧ l = [].
Proof. intros Hy. unfold blockIf. destruct c; [|tauto]. split; [by intros ?%appendUnique_nonempty|by intros []]. Qed.

Ltac open_view :=
  unfold ProjectLifecycle; destruct (projectRuntimeProjection _ _ _ _ _ _) as [[??]?], (projectBlockers _ _ _ _) as [[??]?] eqn:?.

Section view.
Context (clk : Z) (i : LifecycleInput).
Abbreviation v := (ProjectLifecycle clk i).

(** The instant the view is taken at. *)
Definition viewTime : Z := orNow clk i.(liFacts).(efNow).

Lemma view_base : lvBaseState v = projectBaseState i.(liStatus) (TrimSpace i.(liStoredState)) (TrimSpace i.(liSleepReason)).
Proof. by open_view. Qed.

Lemma view_terminal : lvTerminal v = isTerminal (lvBaseState v).
Proof. by open_view. Qed.

Lemma view_continuity : lvContinuityEligible v = projectContinuityEligibility (lvBaseState v) (TrimSpace i.(liContinuityEligible)).
Proof. by open_view. Qed.

Lemma view_stored : lvStoredState v = TrimSpace i.(liStoredState).
Proof. by open_view. Qed.

Lemma view_blockers : lvBlockers v = (projectBlockers i viewTime (lvBaseState v) (lvIdentity v)).1.1.
Proof. by open_view. Qed.

Lemma view_causes : lvWakeCauses v = projectWakeCauses i.
Proof. by open_view. Qed.

Lemma view_desired : lvDesiredState v = projectDesiredState i (lvTerminal v) (lvBlockers v) (lvWakeCauses v).
Proof. by open_view. Qed.

(** A stored deadline is still ahead. *)
Definition pendingDeadline (raw : string) : bool := negb (IsZero (deadline raw)) && (viewTime <? deadline raw).

Lemma view_held : HasBlocker v BlockerHeld = pendingDeadline i.(liHeldUntil).
Proof.
  unfold HasBlocker. rewrite view_blockers. unfold projectBlockers. cbn [fst]. rewrite !oneOf_blockIf by done.
  cbn [oneOf existsb]. rewrite !(bool_decide_false (BlockerHeld = _)) by done.
  rewrite !andb_false_r. cbn [orb]. by rewrite bool_decide_true, andb_true_r, orb_false_r by done.
Qed.

Lemma view_quarantined : HasBlocker v BlockerQuarantined = pendingDeadline i.(liQuarantinedUntil).
Proof.
  unfold HasBlocker. rewrite view_blockers. unfold projectBlockers. cbn [fst]. rewrite !oneOf_blockIf by done.
  cbn [oneOf existsb]. rewrite !(bool_decide_false (BlockerQuarantined = _)) by done.
  rewrite !andb_false_r. cbn [orb]. by rewrite bool_decide_true, andb_true_r by done.
Qed.

(** Configuration and identity let the session run. *)
Definition identityClear : Prop :=
  efConfigMissing i.(liFacts) = false ∧ lvBaseState v ≠ BaseStateOrphaned ∧ lvIdentity v ≠ IdentityConflict ∧
  (niConfigured (efNamedIdentity i.(liFacts)) = true → niConflict (efNamedIdentity i.(liFacts)) = false) ∧
  niDuplicateCanonical (efNamedIdentity i.(liFacts)) = false.

Lemma view_unblocked :
  lvBlockers v = [] ↔ identityClear ∧ pendingDeadline i.(liHeldUntil) = false ∧ pendingDeadline i.(liQuarantinedUntil) = false.
Proof.
  rewrite view_blockers. unfold projectBlockers. cbn [fst]. rewrite !blockIf_nil by done. unfold identityClear, pendingDeadline.
  rewrite !orb_false_iff, bool_decide_eq_false, andb_false_iff.
  destruct (lvIdentity v), (niConfigured _), (niConflict _); cbn; intuition congruence.
Qed.
End view.

(** A session without metadata has no display reason. *)
Lemma display_empty clk status now : LifecycleDisplayReason clk status ∅ now = "".
Proof.
  unfold LifecycleDisplayReason, lifecycleDisplayReasonFromView, displayReason.
  set (w := ProjectLifecycle _ _). destruct (noReason w); [done|]. rewrite !mget_empty. unfold w.
  by rewrite view_quarantined, view_held.
Qed.

(** Something wants the session running. *)
Definition wanted (i : LifecycleInput) : Prop :=
  (∃ c, c ∈ efWakeCauses i.(liFacts) ∧ c ≠ "") ∨ i.(liPendingCreateClaim) = true ∨
  TrimSpace i.(liWakeRequest) = WakeCauseExplicit ∨ TrimSpace i.(liPinAwake) = "true" ∨
  rfAttached (efRuntime i.(liFacts)) = true ∨ rfPending (efRuntime i.(liFacts)) = true.

Lemma foldl_appendUnique l acc :
  foldl appendUnique acc l = [] ↔ acc = [] ∧ ∀ c, c ∈ l → c = "".
Proof.
  revert acc. induction l as [|c l IH]; intros acc; cbn [foldl]; [set_solver|]. rewrite IH.
  destruct (decide (c = "")) as [->|Hc].
  - change (appendUnique acc "") with acc. set_solver.
  - split; [by intros [?%appendUnique_nonempty _]|]. intros [-> H]. exfalso. apply Hc, H. apply list_elem_of_here.
Qed.

Lemma view_wanted i : projectWakeCauses i ≠ [] ↔ wanted i.
Proof.
  unfold projectWakeCauses, wanted.
  assert (∀ (c : bool) x l, x ≠ "" → (if c then appendUnique l x else l) ≠ [] ↔ c = true ∨ l ≠ []) as Hadd.
  { intros [] x l Hx; [|intuition congruence]. split; [by left|]. intros _. by apply appendUnique_nonempty. }
  rewrite !Hadd by done. rewrite !bool_decide_eq_true.
  assert (foldl appendUnique [] (efWakeCauses (liFacts i)) ≠ [] ↔ ∃ c, c ∈ efWakeCauses (liFacts i) ∧ c ≠ "") as ->; [|tauto].
  rewrite foldl_appendUnique. split; [|naive_solver].
  intros Hn. induction (efWakeCauses (liFacts i)) as [|c l IH]; [exfalso; apply Hn; split; [done|set_solver]|].
  destruct (decide (c = "")) as [->|]; [|exists c; set_solver].
  destruct IH as (c & ? & ?); [|exists c; set_solver]. intros [_ H]. apply Hn. split; [done|]. set_solver.
Qed.

Lemma desired_running_lemma clk i :
  let v := ProjectLifecycle clk i in
  lvDesiredState v = DesiredStateRunning ↔
  lvTerminal v = false ∧ wanted i ∧ identityClear clk i ∧
  pendingDeadline clk i i.(liHeldUntil) = false ∧ pendingDeadline clk i i.(liQuarantinedUntil) = false.
Proof.
  cbv zeta. rewrite view_desired. unfold projectDesiredState. rewrite view_causes, <-view_wanted, <-(view_unblocked clk i).
  destruct (lvTerminal _), (projectWakeCauses i), (lvBlockers _); try destruct (efPreserveIdentity _);
    (split; [intros H; try discriminate H; auto | intros (? & ? & ?); congruence || done]).
Qed.

(** A session is wanted running exactly when it is not terminal, something
    asks for it (an external cause, a create claim, an explicit wake request, a
    pin, an attachment or a pending interaction), its configuration and identity
    are in order, and neither its hold nor its quarantine is still ahead. *)
Theorem desired_running_iff clk i :
  let v := ProjectLifecycle clk i in
  lvDesiredState v = DesiredStateRunning ↔
  lvTerminal v = false ∧ wanted i ∧ identityClear clk i ∧
  pendingDeadline clk i i.(liHeldUntil) = false ∧ pendingDeadline clk i i.(liQuarantinedUntil) = false.
Proof. exact (desired_running_lemma clk i). Qed.

(** ** Windows, wakes and retirements *)

Lemma deadline_format t : civilRange t → deadline (FormatRFC3339 t) = t - t mod Second.
Proof. intros Ht. unfold deadline. by rewrite Trim_Format, Parse_Format. Qed.

Lemma deadline_empty : deadline "" = 0.
Proof. reflexivity. Qed.

Lemma format_pending clk i t :
  civilRange t → Second ≤ t →
  pendingDeadline clk i (FormatRFC3339 t) = (viewTime clk i <? t - t mod Second).
Proof.
  intros Ht Hs. unfold pendingDeadline. rewrite deadline_format by done.
  assert (t - t mod Second ≠ 0) as Hne by (unfold Second, Millisecond in *; divs).
  unfold IsZero. by rewrite (proj2 (Z.eqb_neq _ _)).
Qed.

(** The patches that set a quarantine window until [until]. *)
Inductive quarantinesUntil (until : Z) : MetadataPatch → Prop :=
| byCrashLoop cycle : quarantinesUntil until (QuarantinePatch until cycle)
| byRateLimit : quarantinesUntil until (RateLimitQuarantinePatch until)
| byWakeFailures prior max :
    max ≤ incr64 prior → quarantinesUntil until (eaPatch (WakeFailureAccrualPatch prior max until))
| byChurn prior max :
    max ≤ incr64 prior → quarantinesUntil until (eaPatch (ChurnAccrualPatch prior max until)).

Lemma quarantinesUntil_key until p : quarantinesUntil until p → p !! "quarantined_until" = Some (FormatRFC3339 until).
Proof.
  intros [cycle| |prior max Hm|prior max Hm]; unfold QuarantinePatch, RateLimitQuarantinePatch, WakeFailureAccrualPatch,
    ChurnAccrualPatch, exitAccrual; rewrite ?(proj2 (Z.leb_le _ _)) by done; cbn [eaPatch]; by rewrite lookup_literal.
Qed.

(** A quarantine is a window: whichever path wrote it, the session is blocked
    and not wanted running until the second the deadline falls in, and from that
    second on the quarantine no longer blocks. *)
Theorem quarantine_window clk status meta facts until p :
  quarantinesUntil until p → civilRange until → Second ≤ until → efNow facts ≠ 0 →
  let v := ProjectLifecycle clk (LifecycleInputFromMetadata status (Apply p meta) facts) in
  if efNow facts <? until - until mod Second
  then HasBlocker v BlockerQuarantined = true ∧ lvDesiredState v ≠ DesiredStateRunning
  else HasBlocker v BlockerQuarantined = false.
Proof.
  intros Hp Hc Hs Hn v. set (i := LifecycleInputFromMetadata status (Apply p meta) facts) in *.
  assert (liQuarantinedUntil i = FormatRFC3339 until) as Hq.
  { cbn. by rewrite Apply_get, (quarantinesUntil_key until p). }
  assert (pendingDeadline clk i (liQuarantinedUntil i) = (efNow facts <? until - until mod Second)) as Hpd.
  { rewrite Hq, format_pending by done. unfold viewTime, orNow, IsZero. cbn. by rewrite (proj2 (Z.eqb_neq _ _)). }
  pose proof (view_quarantined clk i) as Hv. rewrite Hpd in Hv.
  destruct (efNow facts <? until - until mod Second); [|done]. split; [done|].
  unfold v. rewrite desired_running_lemma, Hpd. by intros (_ & _ & _ & _ & ?).
Qed.

(** A wake request: the create claim of the controller, or an explicit request
    with the blockers cleared. *)
Inductive wakes (clk : Z) : MetadataPatch → Prop :=
| byClaim reason now : wakes clk (RequestWakePatch clk reason now)
| byReset now : wakes clk (ContinuationResetWakePatch clk now)
| byRequest now state reason :
    wakes clk (Apply (ClearWakeBlockersPatch state reason) (RequestExplicitWakePatch clk WakeCauseExplicit now)).

Lemma wakes_keys clk p :
  wakes clk p →
  p !! "held_until" = Some "" ∧ p !! "quarantined_until" = Some "" ∧
  (p !! "pending_create_claim" = Some "true" ∨ p !! "wake_request" = Some WakeCauseExplicit).
Proof.
  intros [reason now|now|now state reason].
  - unfold RequestWakePatch. split_and!; [..|left]; by rewrite lookup_literal.
  - unfold ContinuationResetWakePatch, applyFreshWakeConversationReset, clearPrimingMarkers, RequestWakePatch.
    split_and!; [..|left]; rewrite lookup_insert_ne, !lookup_clearKeys by done; key_in;
      rewrite lookup_insert_ne by done; by rewrite lookup_literal.
  - unfold Apply, ClearWakeBlockersPatch, RequestExplicitWakePatch.
    assert (∀ (p q : gmap string string) k v, p !! k = Some v → (p ∪ q) !! k = Some v) as Hl.
    { intros p0 q k v Hk. by apply lookup_union_Some_l. }
    assert (∀ k v, k ≠ "state" → k ≠ "sleep_reason" → literal [("held_until", ""); ("quarantined_until", "");
      ("wait_hold", ""); ("sleep_intent", ""); ("wake_attempts", "0"); ("churn_count", "0")] !! k = v →
      ClearWakeBlockersPatch state reason !! k = v) as Hc.
    { intros k v Hk1 Hk2 Hv. unfold ClearWakeBlockersPatch.
      destruct (oneOf reason _), (oneOf state _); rewrite ?lookup_insert_ne by done; done. }
    split_and!; [apply Hl, Hc; [done|done|by rewrite lookup_literal]..|right].
    rewrite lookup_union_r; [by rewrite lookup_literal|]. apply Hc; [done|done|by rewrite lookup_literal].
Qed.

(** A wake request is honoured: once it is stored, a session that is not
    closed and whose configuration and identity are in order is wanted running,
    whatever hold, quarantine or sleep its metadata recorded before. *)
Theorem wake_request_runs clk status meta facts p :
  wakes clk p →
  let i := LifecycleInputFromMetadata status (Apply p meta) facts in
  let v := ProjectLifecycle clk i in
  lvTerminal v = false → identityClear clk i → lvDesiredState v = DesiredStateRunning.
Proof.
  intros Hw i v Ht Hid. destruct (wakes_keys clk p Hw) as (Hh & Hq & Hc).
  apply desired_running_lemma. split; [done|]. split; [|split; [done|]].
  - assert (liPendingCreateClaim i = true ∨ liWakeRequest i = WakeCauseExplicit) as [Hc'|Hc']; unfold wanted.
    + cbn [i LifecycleInputFromMetadata liPendingCreateClaim liWakeRequest].
      destruct Hc as [Hc|Hc]; [left|right]; by rewrite Apply_get, Hc.
    + right; by left.
    + do 2 right; left. by rewrite Hc'.
  - unfold pendingDeadline, i, LifecycleInputFromMetadata. cbn [liHeldUntil liQuarantinedUntil].
    by rewrite (Apply_get p meta "held_until"), (Apply_get p meta "quarantined_until"), Hh, Hq.
Qed.

(** What retiring a named session leaves in the metadata. *)
Lemma retire_get now reason identity meta k :
  In k ["state"; "continuity_eligible"; "alias"; "session_name"; "session_name_explicit"; "held_until";
    "quarantined_until"; CanonicalInstanceNameMetadata; CanonicalPoolSlotMetadata] →
  (Apply (RetireNamedSessionPatch now reason identity) meta).[k] =
    if k == "state" then StateArchived else if k == "continuity_eligible" then "false" else "".
Proof.
  intros Hk. unfold RetireNamedSessionPatch, freeCanonicalIdentityMetadata, ArchivePatch. rewrite Apply_get.
  assert (k ≠ "retired_named_identity") as Hne by (intros ->; cbn in Hk; intuition discriminate).
  assert (∀ (b : bool) (x y : gmap string string), (if b then x else y) !! k = if b then x !! k else y !! k) as Hif by by intros [].
  rewrite Hif, lookup_insert_ne by done.
  repeat destruct Hk as [<-|Hk]; try done;
    rewrite lookup_clearKeys; key_in; rewrite ?lookup_insert_ne, ?lookup_clearKeys by done; key_in;
    rewrite ?lookup_clearKeys; key_in; rewrite ?lookup_literal; by destruct (identity != "").
Qed.

(** Retiring a named session releases it: the retired bead is archived and
    not eligible for continuity, so an explicit wake is refused, and its alias,
    its session names and its canonical identity record are free. *)
Theorem retire_releases clk status meta now reason identity :
  TrimSpace status ≠ "closed" →
  let m := Apply (RetireNamedSessionPatch now reason identity) meta in
  LifecycleIdentityReleased clk status m = true ∧
  LifecycleWakeConflictState clk status m = Some BaseStateArchived ∧
  ciPresent (CanonicalIdentityFromMetadata m) = false.
Proof.
  intros Hst m. set (i := LifecycleInputFromMetadata status m noFacts).
  assert (lvBaseState (ProjectLifecycle clk i) = BaseStateArchived) as Hb.
  { rewrite view_base. cbn [i LifecycleInputFromMetadata liStatus liStoredState].
    unfold m. rewrite (retire_get _ _ _ _ "state") by (cbn; tauto).
    unfold projectBaseState. by rewrite bool_decide_false by done. }
  assert (lvContinuityEligible (ProjectLifecycle clk i) = false) as Hc.
  { rewrite view_continuity, Hb. cbn [i LifecycleInputFromMetadata liContinuityEligible].
    unfold m. by rewrite (retire_get _ _ _ _ "continuity_eligible") by (cbn; tauto). }
  split_and!.
  - unfold LifecycleIdentityReleased, LifecycleIdentifiersReleased. fold i. rewrite Hc. unfold m.
    by rewrite !retire_get by (cbn; tauto).
  - unfold LifecycleWakeConflictState, lifecycleWakeConflictState. fold i. by rewrite Hb, Hc.
  - unfold CanonicalIdentityFromMetadata. unfold m. by rewrite !retire_get by (cbn; tauto).
Qed.
