(* ===== verification/SessionPatchProps.v ===== *)
(** * SessionPatchProps: the command table and the lifetime of priming markers

    The commands offered for a state are exactly those the table accepts; the
    states reachable through it are the documented ones, and closed is final.
    Along any sequence of lifecycle patches the priming markers come and go
    together and never outlive the start they confirm. *)

From Stdlib Require Import Ascii.
From S2P Require Import Prelude GoBase GoText GoTime GoTimeProps Beads MemStore SessionState SessionExits SessionInfo SessionInfoProps SessionView SessionViewProps.

Local Open Scope Z_scope.

(** ** Commands *)

Lemma transitions_keys : NoDup transitions.*1.
Proof. apply NoDup_ListNoDup. repeat constructor; cbn; intuition discriminate. Qed.

Lemma assoc_elem {A} k (a : A) l : NoDup l.*1 → (k, a) ∈ l → assoc k l = Some a.
Proof.
  induction l as [|[k' b] l IH]; [by intros _ ?%not_elem_of_nil|]. cbn. rewrite NoDup_cons, elem_of_cons.
  intros [Hk Hnd] [[= -> ->]|Hin]; [by rewrite bool_decide_true|].
  rewrite bool_decide_false; [by apply IH|]. intros ->. apply Hk, list_elem_of_fmap. by exists (k', a).
Qed.

Lemma assoc_mem {A} k (a : A) l : assoc k l = Some a → (k, a) ∈ l.
Proof. intros H. destruct (assoc_split k l a H) as (l1 & l2 & -> & _). apply elem_of_app. right. apply elem_of_cons. by left. Qed.

(** The table accepts a command exactly when [Transition] does. *)
Lemma accepts_Transition from cmd table :
  (cmd, table) ∈ transitions → accepts from (cmd, table) = true ↔ ∃ to, Transition from cmd = Ok to.
Proof.
  intros Hin. unfold accepts, Transition. rewrite (assoc_elem cmd table) by (done || apply transitions_keys). cbn [snd].
  destruct (assoc from table) as [to|]; [naive_solver|].
  destruct (from != StateNone); cbn; [|split; [done|by intros []]].
  rewrite bool_decide_eq_true. destruct (assoc anyState table) as [to|]; [naive_solver|].
  split; [by intros []|by intros []].
Qed.

Lemma elem_AllowedCommands order from cmd :
  order ≡ₚ transitions → cmd ∈ AllowedCommands order from ↔ ∃ to, Transition from cmd = Ok to.
Proof.
  intros Hp. unfold AllowedCommands. rewrite merge_sort_Permutation, list_elem_of_fmap. split.
  - intros ([c table] & -> & Hin). apply list_elem_of_filter in Hin as [Ha Hin]. rewrite Hp in Hin.
    by apply (accepts_Transition from c table).
  - intros Ht. assert (∃ table, (cmd, table) ∈ transitions) as [table Hin].
    { unfold Transition in Ht. destruct (assoc cmd transitions) as [t|] eqn:E; [|by destruct Ht].
      exists t. by apply assoc_mem. }
    exists (cmd, table). split; [done|]. apply list_elem_of_filter. split; [by apply accepts_Transition|]. by rewrite Hp.
Qed.

#[local] Instance cmdLe_trans : Transitive cmdLe.
Proof.
  intros a b c. unfold cmdLe. intros H1 H2. destruct (sltb c a) eqn:E; [|done].
  destruct (sltb_cotrans c b a E); congruence.
Qed.

#[local] Instance cmdLe_total : Total cmdLe.
Proof.
  intros a b. unfold cmdLe. destruct (sltb b a) eqn:E; [right|by left].
  destruct (sltb a b) eqn:E'; [|done]. pose proof (sltb_trans _ _ _ E E'). by rewrite sltb_irrefl in *.
Qed.

#[local] Instance cmdLe_antisymm : AntiSymm (=) cmdLe.
Proof. intros a b H1 H2. by apply sltb_total. Qed.

Lemma filter_keys_NoDup {A B} (P : A * B → Prop) `{!∀ x, Decision (P x)} (l : list (A * B)) :
  NoDup l.*1 → NoDup (filter P l).*1.
Proof.
  induction l as [|x l IH]; [done|]. rewrite fmap_cons, NoDup_cons. intros [Hx Hl]. rewrite filter_cons.
  destruct (decide (P x)); [|by apply IH]. cbn. apply NoDup_cons. split; [|by apply IH].
  intros Hin. apply Hx. apply list_elem_of_fmap in Hin as (y & Hy & Hin). apply list_elem_of_filter in Hin as [_ Hin].
  apply list_elem_of_fmap. by exists y.
Qed.

(** What the interface offers is what the state machine accepts: whatever the
    order in which the command table is visited, the commands listed for a state
    are sorted, without repetition, and exactly the ones [Transition] accepts. *)
Theorem allowed_commands_exact order from :
  order ≡ₚ transitions →
  AllowedCommands order from = AllowedCommands transitions from ∧
  Sorted cmdLe (AllowedCommands order from) ∧ NoDup (AllowedCommands order from) ∧
  ∀ cmd, cmd ∈ AllowedCommands order from ↔ ∃ to, Transition from cmd = Ok to.
Proof.
  intros Hp. split; [|split; [|split]].
  - unfold AllowedCommands. apply (StronglySorted_unique cmdLe); [apply StronglySorted_merge_sort; apply _..|].
    by rewrite !merge_sort_Permutation, Hp.
  - unfold AllowedCommands. apply Sorted_merge_sort; apply _.
  - unfold AllowedCommands. rewrite merge_sort_Permutation.
    apply filter_keys_NoDup. rewrite Hp. apply transitions_keys.
  - intros cmd. by apply elem_AllowedCommands.
Qed.

(** ** Reachable states *)

(** One lifecycle step: a command of the table, or the provider start that
    [PreWakePatch] commits. *)
Inductive lifecycleStep : State → State → Prop :=
| step_command from cmd to : Transition from cmd = Ok to → lifecycleStep from to
| step_start : lifecycleStep StateStartPending StateCreating.

Definition lifecycleStates : list State :=
  [StateNone; StateStartPending; StateCreating; StateActive; StateAsleep; StateSuspended; StateQuarantined;
   StateDraining; StateArchived; StateClosed].

(** The state a command leads to, from any state. *)
Lemma Transition_to from cmd to : Transition from cmd = Ok to → to ∈ lifecycleStates ∧ to ≠ StateNone.
Proof.
  unfold Transition. destruct (assoc cmd transitions) as [table|] eqn:Et; [|done].
  apply assoc_mem in Et.
  assert (∀ k x, assoc k table = Some x → x ∈ lifecycleStates ∧ x ≠ StateNone) as Hx.
  { intros k x Hk. apply assoc_mem in Hk. revert k x Hk.
    assert (Forall (λ e, Forall (λ kx, (kx.2 ∈ lifecycleStates) ∧ kx.2 ≠ StateNone) e.2) transitions) as Hall.
    { repeat constructor; try discriminate; by apply (bool_decide_unpack _). }
    rewrite Forall_forall in Hall. specialize (Hall _ Et). cbn in Hall. rewrite Forall_forall in Hall.
    intros k x Hk. by apply (Hall (k, x)). }
  destruct (assoc from table) as [x|] eqn:E1; [intros [= <-]; by eapply Hx|].
  destruct (from != StateNone); [|done]. destruct (assoc anyState table) as [x|] eqn:E2; [|done].
  intros [= <-]. by eapply Hx.
Qed.


(** ** Priming markers *)

(** The markers are set together, and only while the start they confirm is
    recorded. *)
Definition primingOK (meta : gmap string string) : Prop :=
  (meta.[PrimedAtMetadataKey] = "" ↔ meta.[PromptHashMetadataKey] = "") ∧
  (meta.["started_config_hash"] = "" → meta.[PrimedAtMetadataKey] = "").

(** The writes of a session's life: every patch of the lifecycle, and writes to
    other keys. *)
Inductive sessionWrite : MetadataPatch → Prop :=
| w_wakeRequest clk reason now : sessionWrite (RequestExplicitWakePatch clk reason now)
| w_wake clk reason now : sessionWrite (RequestWakePatch clk reason now)
| w_preWake clk input : sessionWrite (PreWakePatch clk input)
| w_continuationReset clk now : sessionWrite (ContinuationResetWakePatch clk now)
| w_clearBlockers state reason : sessionWrite (ClearWakeBlockersPatch state reason)
| w_clearHold reason : sessionWrite (ClearExpiredHoldPatch reason)
| w_clearQuarantine reason : sessionWrite (ClearExpiredQuarantinePatch reason)
| w_confirm clk now : sessionWrite (ConfirmStartedPatch clk now)
| w_commit clk input : csCoreHash input ≠ "" → sessionWrite (CommitStartedPatch clk input)
| w_drain now reason : sessionWrite (BeginDrainPatch now reason)
| w_stopPending now : sessionWrite (DrainAckStopPendingPatch now)
| w_sleep now reason : sessionWrite (SleepPatch now reason)
| w_ackDrain fresh : sessionWrite (AcknowledgeDrainPatch fresh)
| w_completeDrain now reason fresh : sessionWrite (CompleteDrainPatch now reason fresh)
| w_restart clk key now : sessionWrite (RestartRequestPatch clk key now)
| w_configDrift clk state key now : sessionWrite (ConfigDriftResetPatch clk state key now)
| w_archive now reason eligible : sessionWrite (ArchivePatch now reason eligible)
| w_close now code : sessionWrite (ClosePatch now code)
| w_retire now reason identity : sessionWrite (RetireNamedSessionPatch now reason identity)
| w_quarantine until cycle : sessionWrite (QuarantinePatch until cycle)
| w_reactivate eligible : sessionWrite (ReactivatePatch eligible)
| w_conversationReset clear : sessionWrite (ConversationResetPatch clear)
| w_rateLimit until : sessionWrite (RateLimitQuarantinePatch until)
| w_wakeFailure prior max until : sessionWrite (eaPatch (WakeFailureAccrualPatch prior max until))
| w_churn prior max until : sessionWrite (eaPatch (ChurnAccrualPatch prior max until))
| w_alias meta next : sessionWrite (UpdatedAliasMetadata meta next)
| w_other (p : gmap string string) :
    p !! PrimedAtMetadataKey = None → p !! PromptHashMetadataKey = None → p !! "started_config_hash" = None → sessionWrite p.

(** How a patch treats the three keys: it leaves them alone, clears them all,
    or records a start. *)
Definition neutral (p : MetadataPatch) : Prop :=
  p !! PrimedAtMetadataKey = None ∧ p !! PromptHashMetadataKey = None ∧ p !! "started_config_hash" = None.
Definition clears (p : MetadataPatch) : Prop :=
  p !! PrimedAtMetadataKey = Some "" ∧ p !! PromptHashMetadataKey = Some "" ∧ p !! "started_config_hash" = Some "".
Definition starts (p : MetadataPatch) : Prop :=
  (∃ h, p !! "started_config_hash" = Some h ∧ h ≠ "") ∧
  ((p !! PrimedAtMetadataKey = None ∧ p !! PromptHashMetadataKey = None) ∨
   ∃ t h, p !! PrimedAtMetadataKey = Some t ∧ t ≠ "" ∧ p !! PromptHashMetadataKey = Some h ∧ h ≠ "").

Lemma neutral_literal l :
  assoc PrimedAtMetadataKey l = None → assoc PromptHashMetadataKey l = None → assoc "started_config_hash" l = None → neutral (literal l).
Proof. unfold neutral. by rewrite !lookup_literal. Qed.

Lemma neutral_insert k v p :
  neutral p → k ≠ PrimedAtMetadataKey → k ≠ PromptHashMetadataKey → k ≠ "started_config_hash" → neutral (<[k:=v]> p).
Proof. unfold neutral. intros (? & ? & ?) ? ? ?. by rewrite !lookup_insert_ne by done. Qed.

Lemma clears_insert k v p :
  clears p → k ≠ PrimedAtMetadataKey → k ≠ PromptHashMetadataKey → k ≠ "started_config_hash" → clears (<[k:=v]> p).
Proof. unfold clears. intros (? & ? & ?) ? ? ?. by rewrite !lookup_insert_ne by done. Qed.

Lemma neutral_clearKeys ks p :
  neutral p → bool_decide (PrimedAtMetadataKey ∈ ks) = false → bool_decide (PromptHashMetadataKey ∈ ks) = false →
  bool_decide ("started_config_hash" ∈ ks) = false → neutral (clearKeys ks p).
Proof. unfold neutral. intros Hp H1 H2 H3. by rewrite !lookup_clearKeys, H1, H2, H3. Qed.

Lemma clears_fresh p : clears (applyFreshWakeConversationReset p).
Proof.
  unfold clears, applyFreshWakeConversationReset, clearPrimingMarkers. rewrite !lookup_clearKeys. by key_in.
Qed.

Lemma starts_insert k v p :
  starts p → k ≠ PrimedAtMetadataKey → k ≠ PromptHashMetadataKey → k ≠ "started_config_hash" → starts (<[k:=v]> p).
Proof. unfold starts. intros Hp ? ? ?. by rewrite !lookup_insert_ne by done. Qed.

Lemma Format_ne t : FormatRFC3339 t ≠ "".
Proof.
  unfold FormatRFC3339. destruct (civil (t / Day)) as [[y m] d]. intros E.
  apply (f_equal String.length) in E. rewrite !length_string_app in E. cbn in E. lia.
Qed.

Lemma clears_priming p : p !! "started_config_hash" = Some "" → clears (clearPrimingMarkers p).
Proof. intros Hp. unfold clears, clearPrimingMarkers. rewrite !lookup_clearKeys. by key_in. Qed.

(** Peel a patch down to its literal. *)
Ltac peel :=
  repeat match goal with
  | |- clears (applyFreshWakeConversationReset _) => apply clears_fresh
  | |- clears (clearPrimingMarkers (literal _)) => apply clears_priming; by rewrite lookup_literal
  | |- clears (clearPrimingMarkers (<[_:=_]> _)) => apply clears_priming; by rewrite lookup_insert_eq
  | |- neutral (literal _) => apply neutral_literal; reflexivity
  | |- neutral (<[_:=_]> _) => apply neutral_insert; [|discriminate..]
  | |- clears (<[_:=_]> _) => apply clears_insert; [|discriminate..]
  | |- starts (<[_:=_]> _) => apply starts_insert; [|discriminate..]
  | |- neutral (clearKeys _ _) => apply neutral_clearKeys; [|reflexivity..]
  end.

Lemma commit_starts clk input : csCoreHash input ≠ "" → starts (CommitStartedPatch clk input).
Proof.
  intros Hc. unfold CommitStartedPatch.
  set (base := literal _). assert (starts base) as Hbase.
  { unfold base, starts. rewrite !lookup_literal. split; [by exists (csCoreHash input)|by left]. }
  clearbody base. set (p := if csStartsAwakeInterval input then _ else _).
  assert (starts p) as Hp by (unfold p; repeat case_match; peel; exact Hbase). clearbody p.
  destruct (negb (IsZero (csPrimedAt input)) && (csPromptHash input != "")) eqn:E; [|done]. bsplit.
  split; [rewrite !lookup_insert_ne by done; apply Hp|]. right.
  exists (FormatRFC3339 (csPrimedAt input)), (csPromptHash input).
  rewrite lookup_insert_ne, !lookup_insert_eq by done. split_and!; try done. apply Format_ne.
Qed.

#[local] Opaque neutral clears starts applyFreshWakeConversationReset clearPrimingMarkers clearKeys literal.

Lemma sessionWrite_cases p : sessionWrite p → neutral p ∨ clears p ∨ starts p.
Proof.
  intros Hw. destruct Hw;
    [..|by left];
    try (by right; right; apply commit_starts);
    unfold RequestExplicitWakePatch, RequestWakePatch, PreWakePatch, ContinuationResetWakePatch, ClearWakeBlockersPatch,
      ClearExpiredHoldPatch, ClearExpiredQuarantinePatch, ConfirmStartedPatch, DrainAckStopPendingPatch, BeginDrainPatch,
      AcknowledgeDrainPatch, CompleteDrainPatch, freshWakeTail, SleepPatch, RestartRequestPatch, ConfigDriftResetPatch,
      RetireNamedSessionPatch, freeCanonicalIdentityMetadata, ArchivePatch, ClosePatch, QuarantinePatch, ReactivatePatch,
      ConversationResetPatch, RateLimitQuarantinePatch, WakeFailureAccrualPatch, ChurnAccrualPatch, exitAccrual,
      UpdatedAliasMetadata, updatedAlias.
  all: repeat match goal with |- context [if ?b then _ else _] => destruct b end; cbn [eaPatch].
  all: first [solve [left; peel] | solve [right; left; peel] | idtac].
Qed.

#[local] Transparent neutral clears starts applyFreshWakeConversationReset clearPrimingMarkers clearKeys literal.

Lemma primingOK_write p meta : sessionWrite p → primingOK meta → primingOK (Apply p meta).
Proof.
  intros Hw [H1 H2]. unfold primingOK. rewrite !Apply_get.
  destruct (sessionWrite_cases p Hw) as [(-> & -> & ->)|[(-> & -> & ->)|((h & -> & Hh) & [[-> ->]|(t & h' & -> & Ht & -> & Hh')])]];
    naive_solver.
Qed.

(** Priming markers live and die with the start they confirm: along any
    sequence of lifecycle writes from a fresh session, the priming time and the
    prompt hash are both present or both absent, and absent whenever the record
    of the start is. *)
Theorem priming_lifetime ps : Forall sessionWrite ps → primingOK (foldl (λ meta p, Apply p meta) ∅ ps).
Proof.
  intros H. assert (primingOK ∅) as H0 by (unfold primingOK; by rewrite !mget_empty).
  revert H0. generalize (∅ : gmap string string) as meta. induction H as [|p ps Hp _ IH]; intros meta Hm; [done|].
  cbn [foldl]. apply IH. by apply primingOK_write.
Qed.
