(* ===== verification/SessionTimers.v ===== *)
(** * SessionTimers: idle timeout, maximum age and the defer backstop

    Models the three trackers of [cmd/gc] ([idle_tracker.go],
    [max_session_age_tracker.go], [assigned_work_defer_tracker.go]) and the two
    timer passes of the reconciler that consult them ([session_reconciler.go]).
    A tracker is configured per session name and per template.  The timer passes
    gather the facts their ladders ask for; the answers of the runtime and of
    the stores are the [Probes]. *)

From S2P Require Import Prelude GoBase GoText GoTime SessionState SessionExits SessionInfo.

Local Open Scope Z_scope.

(** ** Shared lookups *)

(** A registration per session name, else the one of the template unless the
    session is exempt. *)
Definition registered {A} (byName byTemplate : gmap string A) (exempt : gset string) (name template : string) : option A :=
  match byName !! name with
  | Some v => Some v
  | None => if negb (bool_decide (name ∈ exempt)) && (template != "") then byTemplate !! template else None
  end.

(** A positive value is stored, any other removes the entry. *)
Definition setPositive (m : gmap string Z) (k : string) (v : Z) : gmap string Z :=
  if v <=? 0 then delete k m else <[k := v]> m.

(** ** Idle tracker *)

Record IdleTracker := mkIdleTracker {
  itTimeouts : gmap string Z;
  itTemplateTimeouts : gmap string Z;
  itExemptions : gset string
}.

Definition newIdleTracker : IdleTracker := mkIdleTracker ∅ ∅ ∅.

Definition setTimeout (name : string) (timeout : Z) (m : IdleTracker) : IdleTracker :=
  mkIdleTracker (setPositive m.(itTimeouts) name timeout) m.(itTemplateTimeouts) m.(itExemptions).

Definition setTimeoutForTemplate (template : string) (timeout : Z) (m : IdleTracker) : IdleTracker :=
  if template == "" then m
  else mkIdleTracker m.(itTimeouts) (setPositive m.(itTemplateTimeouts) template timeout) m.(itExemptions).

Definition exemptIdle (name : string) (m : IdleTracker) : IdleTracker :=
  if name == "" then m else mkIdleTracker m.(itTimeouts) m.(itTemplateTimeouts) ({[name]} ∪ m.(itExemptions)).

(** [lastActivity] is the provider's answer, [None] for an error. *)
Definition checkIdle (m : IdleTracker) (name template : string) (lastActivity : option Z) (now : Z) : bool :=
  match registered m.(itTimeouts) m.(itTemplateTimeouts) m.(itExemptions) name template with
  | None => false
  | Some timeout =>
      if timeout <=? 0 then false
      else match lastActivity with
      | None => false
      | Some t => if IsZero t then false else timeout <? timeSub now t
      end
  end.

(** ** Maximum session age *)

Record maxSessionAgeConfig := mkMaxAge { maMaxAge : Z; maJitter : Z }.

Record MaxAgeTracker := mkMaxAgeTracker {
  atConfigs : gmap string maxSessionAgeConfig;
  atTemplateConfigs : gmap string maxSessionAgeConfig;
  atOffsets : gmap string Z;
  atExemptions : gset string
}.

Definition newMaxSessionAgeTracker : MaxAgeTracker := mkMaxAgeTracker ∅ ∅ ∅ ∅.

(** [roll] is the draw of the random source, [rng.Int63n(jitter)]. *)
Definition setConfig (roll : Z → Z) (name : string) (maxAge jitter : Z) (m : MaxAgeTracker) : MaxAgeTracker :=
  if name == "" then m
  else if maxAge <=? 0
  then mkMaxAgeTracker (delete name m.(atConfigs)) m.(atTemplateConfigs) (delete name m.(atOffsets)) m.(atExemptions)
  else
    let offset := if 0 <? jitter then roll jitter else 0 in
    mkMaxAgeTracker (<[name := mkMaxAge maxAge jitter]> m.(atConfigs)) m.(atTemplateConfigs)
      (<[name := offset]> m.(atOffsets)) m.(atExemptions).

Definition setConfigForTemplate (template : string) (maxAge jitter : Z) (m : MaxAgeTracker) : MaxAgeTracker :=
  if template == "" then m
  else if maxAge <=? 0
  then mkMaxAgeTracker m.(atConfigs) (delete template m.(atTemplateConfigs)) m.(atOffsets) m.(atExemptions)
  else mkMaxAgeTracker m.(atConfigs) (<[template := mkMaxAge maxAge jitter]> m.(atTemplateConfigs)) m.(atOffsets) m.(atExemptions).

Definition exemptMaxAge (name : string) (m : MaxAgeTracker) : MaxAgeTracker :=
  if name == "" then m
  else mkMaxAgeTracker m.(atConfigs) m.(atTemplateConfigs) m.(atOffsets) ({[name]} ∪ m.(atExemptions)).

(** FNV-1a on 64 bits, of [hash/fnv]. *)
Definition fnvOffset64 : Z := 14695981039346656037.
Definition fnvPrime64 : Z := 1099511628211.

Fixpoint fnv64a (h : Z) (s : string) : Z :=
  match s with
  | EmptyString => h
  | String c r => fnv64a ((Z.lxor h (bval c) * fnvPrime64) mod 2 ^ 64) r
  end.

Definition zeroByte : string := String (bchr 0) "".

Definition deterministicMaxSessionAgeOffset (template name : string) (creationCompleteAt jitter : Z) : Z :=
  if jitter <=? 0 then 0
  else
    let h := fnv64a fnvOffset64 template in
    let h := fnv64a h zeroByte in
    let h := fnv64a h name in
    let h := fnv64a h zeroByte in
    let h := fnv64a h (FormatRFC3339Nano creationCompleteAt) in
    wrap64 (h mod jitter).

Definition configFor (m : MaxAgeTracker) (name template : string) (creationCompleteAt : Z) : option (maxSessionAgeConfig * Z) :=
  match m.(atConfigs) !! name with
  | Some cfg => Some (cfg, default 0 (m.(atOffsets) !! name))
  | None =>
      if bool_decide (name ∈ m.(atExemptions)) || (template == "") then None
      else match m.(atTemplateConfigs) !! template with
      | None => None
      | Some cfg => Some (cfg, deterministicMaxSessionAgeOffset template name creationCompleteAt cfg.(maJitter))
      end
  end.

Definition shouldRestart (m : MaxAgeTracker) (name template : string) (creationCompleteAt now : Z) : bool :=
  if (name == "") || IsZero creationCompleteAt || IsZero now then false
  else match configFor m name template creationCompleteAt with
  | None => false
  | Some (cfg, offset) =>
      if cfg.(maMaxAge) <=? 0 then false
      else wrap64 (cfg.(maMaxAge) + offset) <=? timeSub now creationCompleteAt
  end.

(** ** The defer backstop *)

Definition defaultAssignedWorkDeferLimit : Z := 3.

Record assignedWorkDeferState := mkDeferState { dsAnchor : string; dsCount : Z }.

Record DeferTracker := mkDeferTracker {
  dtLimits : gmap string Z;
  dtTemplateLimits : gmap string Z;
  dtExemptions : gset string;
  dtState : gmap string assignedWorkDeferState
}.

Definition newAssignedWorkDeferTracker : DeferTracker := mkDeferTracker ∅ ∅ ∅ ∅.

Definition setLimit (name : string) (limit : Z) (m : DeferTracker) : DeferTracker :=
  mkDeferTracker (setPositive m.(dtLimits) name limit) m.(dtTemplateLimits) m.(dtExemptions) m.(dtState).

Definition setLimitForTemplate (template : string) (limit : Z) (m : DeferTracker) : DeferTracker :=
  if template == "" then m
  else mkDeferTracker m.(dtLimits) (setPositive m.(dtTemplateLimits) template limit) m.(dtExemptions) m.(dtState).

Definition exemptDefer (name : string) (m : DeferTracker) : DeferTracker :=
  if name == "" then m
  else mkDeferTracker m.(dtLimits) m.(dtTemplateLimits) ({[name]} ∪ m.(dtExemptions)) m.(dtState).

Definition limitFor (m : DeferTracker) (name template : string) : Z :=
  default defaultAssignedWorkDeferLimit (registered m.(dtLimits) m.(dtTemplateLimits) m.(dtExemptions) name template).

Definition recordDefer (name template anchor : string) (m : DeferTracker) : bool * DeferTracker :=
  let st := default (mkDeferState "" 0) (m.(dtState) !! name) in
  let st := if st.(dsAnchor) != anchor then mkDeferState anchor 0 else st in
  let st := mkDeferState st.(dsAnchor) (incr64 st.(dsCount)) in
  let m := mkDeferTracker m.(dtLimits) m.(dtTemplateLimits) m.(dtExemptions) (<[name := st]> m.(dtState)) in
  (limitFor m name template <? st.(dsCount), m).

Definition resetDefer (name : string) (m : DeferTracker) : DeferTracker :=
  mkDeferTracker m.(dtLimits) m.(dtTemplateLimits) m.(dtExemptions) (delete name m.(dtState)).

(** ** The timer passes *)

Definition metadataTimeInFuture (raw : string) (now : Z) : bool :=
  if raw == "" then false
  else match ParseRFC3339 raw with
  | None => false
  | Some t => negb (IsZero t) && (now <? t)
  end.

Definition lifecycleTimerBlockerInfo (info : Info) (now : Z) : string :=
  if metadataTimeInFuture (text info "HeldUntil") now then "user_hold"
  else if metadataTimeInFuture (text info "QuarantinedUntil") now then "quarantine"
  else "".

Definition parseRFC3339Metadata (v : string) : option Z :=
  let v := TrimSpace v in
  if v == "" then None
  else match ParseRFC3339 v with
  | None => None
  | Some t => if IsZero t then None else Some t
  end.

(** The facts before any gathering. *)
Definition timerFacts (triggered : bool) (info : Info) (now : Z) : TimerFacts :=
  mkTimerFacts triggered (if triggered then lifecycleTimerBlockerInfo info now else "") PendingUnknown AssignedWorkUnknown.

(** The decision of the maximum-age pass; [rounds] bounds its gather loop. *)
Definition maxAgeDecision (tr : MaxAgeTracker) (info : Info) (name template : string) (p : Probes) (now : Z) (rounds : nat) : TimerDecision :=
  let triggered :=
    match parseRFC3339Metadata (text info "CreationCompleteAt") with
    | None => false
    | Some at_ => shouldRestart tr name template at_ now
    end in
  runTimer DecideMaxSessionAge p rounds (timerFacts triggered info now).

(** The decision of the idle pass: the ladder, then the defer backstop, which is
    absent when its tracker is nil. *)
Definition idleDecision (it : IdleTracker) (info : Info) (name template : string) (lastActivity : option Z) (p : Probes) (now : Z)
    (rounds : nat) (dt : option DeferTracker) : TimerDecision * option DeferTracker :=
  let triggered := checkIdle it name template lastActivity now in
  let dec := runTimer DecideIdleTimeout p rounds (timerFacts triggered info now) in
  match dt with
  | None => (dec, None)
  | Some m =>
      match dec.(tdAction) with
      | TimerActionDefer =>
          if dec.(tdTraceReason) == "assigned_work" then
            let '(exhausted, m) := recordDefer name template (TrimSpace (text info "CurrentlyProcessingBeadID")) m in
            (if exhausted then DecideAssignedWorkExhausted else dec, Some m)
          else (dec, Some (resetDefer name m))
      | _ => (dec, Some (resetDefer name m))
      end
  end.
