(* ===== verification/SessionTimersProps.v ===== *)
(** * SessionTimersProps: what the lifecycle timers may stop

    The gather loops end after at most two rounds; a timer stops a session only
    when nothing protects it, or when the defer backstop has seen the same
    anchor too often in a row. *)

From S2P Require Import Prelude GoBase GoText GoTime SessionState SessionExits SessionInfo SessionTimers.

Local Open Scope Z_scope.

(** ** The ladders *)

(** Both ladders, told apart by what they do on a pending interaction and by
    the reason of a stop. *)
Inductive ladder : (TimerFacts → TimerDecision) → Prop :=
| maxAgeLadder : ladder DecideMaxSessionAge
| idleLadder : ladder DecideIdleTimeout.

(** Nothing protects the session: no blocker, no pending interaction and no
    assigned work, known for certain. *)
Definition unprotected (info : Info) (p : Probes) (now : Z) : Prop :=
  lifecycleTimerBlockerInfo info now = "" ∧ prPending p = false ∧ prAssignedWork p = Some false.

(** The only protection is the assigned work. *)
Definition workOnly (info : Info) (p : Probes) (now : Z) : Prop :=
  lifecycleTimerBlockerInfo info now = "" ∧ prPending p = false ∧ prAssignedWork p ≠ Some false.

Lemma runTimer_result D p n triggered info now :
  ladder D →
  let d := runTimer D p (S (S n)) (timerFacts triggered info now) in
  d = (if negb triggered then onlyAction TimerActionNone
       else if lifecycleTimerBlockerInfo info now != "" then D (timerFacts true info now)
       else D (mkTimerFacts true "" (if prPending p then PendingYes else PendingNo)
                 (if default true (prAssignedWork p) then AssignedWorkHas else AssignedWorkNone))).
Proof.
  intros [] d; unfold d, timerFacts; (destruct triggered; [|done]); cbn [negb runTimer].
  all: destruct (decide (lifecycleTimerBlockerInfo info now = "")) as [Hb|Hb];
    [rewrite Hb; by destruct p as [[] [[]|]], n|].
  all: unfold DecideMaxSessionAge, DecideIdleTimeout; cbn; rewrite bool_decide_false by done; by destruct n.
Qed.

Lemma ladder_action D p n triggered info now :
  ladder D →
  let d := runTimer D p (S (S n)) (timerFacts triggered info now) in
  (tdAction d = TimerActionNone ↔ triggered = false) ∧
  (tdAction d = TimerActionStop ↔ triggered = true ∧ unprotected info p now) ∧
  (tdAction d = TimerActionDefer ↔ triggered = true ∧ ¬ unprotected info p now) ∧
  (tdAction d = TimerActionDefer ∧ tdTraceReason d = "assigned_work" ↔ triggered = true ∧ workOnly info p now).
Proof.
  intros HD d. unfold d. rewrite runTimer_result by done. unfold unprotected, workOnly.
  destruct triggered; [|cbn; intuition discriminate]. cbn [negb].
  destruct (decide (lifecycleTimerBlockerInfo info now = "")) as [Hb|Hb].
  - rewrite Hb. clear Hb. destruct HD, p as [[] [[]|]]; cbn; change ("" != "") with false; cbn; intuition congruence.
  - rewrite bool_decide_false by done. cbn [negb].
    assert (lifecycleTimerBlockerInfo info now ≠ "assigned_work") as Hw
      by (unfold lifecycleTimerBlockerInfo; by repeat case_match).
    destruct HD; unfold DecideMaxSessionAge, DecideIdleTimeout; cbn; rewrite bool_decide_false by done; cbn; intuition congruence.
Qed.

(** A session has reached its maximum age. *)
Definition aged (tr : MaxAgeTracker) (info : Info) (name template : string) (now : Z) : bool :=
  match parseRFC3339Metadata (text info "CreationCompleteAt") with
  | None => false
  | Some at_ => shouldRestart tr name template at_ now
  end.

(** The maximum-age timer decides within two gather rounds, and stops a
    session exactly when it is old enough and neither a hold, a quarantine, a
    pending interaction nor assigned work protects it; a failing work query
    protects it too. *)
Theorem max_age_stops_exactly tr info name template p now n :
  let d := maxAgeDecision tr info name template p now (S (S n)) in
  (tdAction d = TimerActionNone ↔ aged tr info name template now = false) ∧
  (tdAction d = TimerActionStop ↔ aged tr info name template now = true ∧ unprotected info p now) ∧
  (tdAction d = TimerActionDefer ↔ aged tr info name template now = true ∧ ¬ unprotected info p now).
Proof.
  destruct (ladder_action _ p n (aged tr info name template now) info now maxAgeLadder) as (? & ? & ? & _). done.
Qed.

(** ** The backstop *)

(** One idle pass over one session. *)
Record IdleTick := mkIdleTick {
  tkName : string;
  tkTemplate : string;
  tkInfo : Info;
  tkLastActivity : option Z;
  tkProbes : Probes;
  tkNow : Z
}.

Section Backstop.
Context (it : IdleTracker) (rounds : nat).

Definition ladderDecision (t : IdleTick) : TimerDecision :=
  runTimer DecideIdleTimeout (tkProbes t) (S (S rounds))
    (timerFacts (checkIdle it (tkName t) (tkTemplate t) (tkLastActivity t) (tkNow t)) (tkInfo t) (tkNow t)).

Definition passTick (t : IdleTick) (m : DeferTracker) : TimerDecision * DeferTracker :=
  let '(d, m') := idleDecision it (tkInfo t) (tkName t) (tkTemplate t) (tkLastActivity t) (tkProbes t) (tkNow t)
    (S (S rounds)) (Some m) in
  (d, default m m').

Definition anchorOf (t : IdleTick) : string := TrimSpace (text (tkInfo t) "CurrentlyProcessingBeadID").

(** The ladder defers this tick for assigned work. *)
Definition defersForWork (t : IdleTick) : bool :=
  match tdAction (ladderDecision t) with
  | TimerActionDefer => tdTraceReason (ladderDecision t) == "assigned_work"
  | _ => false
  end.

(** The number of passes over [name], most recent first, that deferred in a
    row for assigned work on [anchor]. *)
Fixpoint streak (name anchor : string) (recent : list IdleTick) : Z :=
  match recent with
  | [] => 0
  | t :: older =>
      if tkName t != name then streak name anchor older
      else if defersForWork t && (anchorOf t == anchor) then 1 + streak name anchor older
      else 0
  end.

Lemma passTick_eq t m :
  passTick t m =
    if defersForWork t then
      let '(exhausted, m) := recordDefer (tkName t) (tkTemplate t) (anchorOf t) m in
      (if exhausted then DecideAssignedWorkExhausted else ladderDecision t, m)
    else (ladderDecision t, resetDefer (tkName t) m).
Proof.
  unfold passTick, idleDecision, defersForWork. fold (ladderDecision t). fold (anchorOf t).
  destruct (tdAction (ladderDecision t)); try done. by case_bool_decide.
Qed.

Lemma defersForWork_true t :
  defersForWork t = true ↔ tdAction (ladderDecision t) = TimerActionDefer ∧ tdTraceReason (ladderDecision t) = "assigned_work".
Proof.
  unfold defersForWork. generalize (ladderDecision t). intros d.
  destruct (tdAction d); try (by split; [|intros []]). rewrite bool_decide_eq_true. by split; [|intros []].
Qed.

Lemma streak_nonneg name anchor l : 0 ≤ streak name anchor l ≤ Z.of_nat (length l).
Proof. induction l as [|t l IH]; cbn; [done|]. repeat case_match; lia. Qed.

(** What the tracker remembers of a history, most recent pass first. *)
Definition remembers (m0 m : DeferTracker) (recent : list IdleTick) : Prop :=
  dtLimits m = dtLimits m0 ∧ dtTemplateLimits m = dtTemplateLimits m0 ∧ dtExemptions m = dtExemptions m0 ∧
  ∀ name anchor, let st := default (mkDeferState "" 0) (dtState m !! name) in
    (if dsAnchor st == anchor then dsCount st else 0) = streak name anchor recent.

Lemma recordDefer_count m0 m recent name template anchor :
  remembers m0 m recent → Z.of_nat (length recent) < maxInt64 →
  let st := mkDeferState anchor (1 + streak name anchor recent) in
  recordDefer name template anchor m =
    (limitFor m0 name template <? 1 + streak name anchor recent,
     mkDeferTracker (dtLimits m) (dtTemplateLimits m) (dtExemptions m) (<[name := st]> (dtState m))).
Proof.
  intros Hm Hlen st. destruct Hm as (H1 & H2 & H3 & H4). specialize (H4 name anchor). cbn in H4.
  assert (∀ z, z = streak name anchor recent → incr64 z = 1 + streak name anchor recent) as Hi.
  { intros z ->. pose proof (streak_nonneg name anchor recent). unfold incr64. rewrite wrap64_id; [lia|].
    unfold in_int64, minInt64, maxInt64 in *. lia. }
  unfold recordDefer. set (st0 := default _ _) in *. revert H4. case_bool_decide as E; intros H4; cbn [negb dsAnchor dsCount].
  - rewrite E, (Hi _ H4). f_equal. unfold limitFor. cbn. by rewrite H1, H2, H3.
  - rewrite (Hi 0) by done. f_equal. unfold limitFor. cbn. by rewrite H1, H2, H3.
Qed.

Lemma remembers_pass m0 m recent t :
  remembers m0 m recent → Z.of_nat (length recent) < maxInt64 → remembers m0 (passTick t m).2 (t :: recent).
Proof.
  intros Hm Hlen. rewrite passTick_eq. pose proof Hm as (H1 & H2 & H3 & H4).
  destruct (defersForWork t) eqn:Ed.
  - rewrite (recordDefer_count m0 m recent) by done. cbn. split_and!; try done. intros name anchor. cbn [dtState streak].
    destruct (decide (tkName t = name)) as [<-|Hn].
    + rewrite lookup_insert_eq, (bool_decide_true (tkName t = tkName t)) by done. cbn [default from_option id dsAnchor dsCount negb andb]. rewrite Ed.
      case_bool_decide as Ea; [by rewrite Ea|done].
    + rewrite lookup_insert_ne, (bool_decide_false (tkName t = name)) by done. apply H4.
  - cbn [snd]. unfold resetDefer. split_and!; try done. intros name anchor. cbn [dtState streak].
    destruct (decide (tkName t = name)) as [<-|Hn].
    + rewrite lookup_delete_eq, (bool_decide_true (tkName t = tkName t)) by done. cbn [negb default from_option id dsAnchor dsCount]. rewrite Ed. cbn. by case_bool_decide.
    + rewrite lookup_delete_ne, (bool_decide_false (tkName t = name)) by done. apply H4.
Qed.

Lemma remembers_history m0 ticks :
  dtState m0 = ∅ → Z.of_nat (length ticks) < maxInt64 →
  remembers m0 (foldl (λ m t, (passTick t m).2) m0 ticks) (rev ticks).
Proof.
  intros H0. induction ticks as [|t ticks IH] using rev_ind; intros Hlen.
  - split_and!; try done. intros name anchor. cbn [foldl]. rewrite H0, lookup_empty. cbn. by case_bool_decide.
  - rewrite foldl_app, rev_unit. cbn [foldl]. rewrite length_app in Hlen. cbn in Hlen.
    apply remembers_pass; [apply IH; lia|rewrite length_rev; lia].
Qed.

(** The idle timer stops exactly what it should: after any history of
    passes, a session is stopped when it has been idle too long and either
    nothing protects it, or assigned work is its only protection and has
    deferred the stop on the same anchor bead more often in a row than the
    limit of the session allows; a hold, a quarantine or a pending interaction
    always protects it. *)
Theorem idle_stops_exactly m0 ticks t :
  dtState m0 = ∅ → Z.of_nat (length ticks) < maxInt64 →
  let m := foldl (λ m t, (passTick t m).2) m0 ticks in
  tdAction (passTick t m).1 = TimerActionStop ↔
  checkIdle it (tkName t) (tkTemplate t) (tkLastActivity t) (tkNow t) = true ∧
  (unprotected (tkInfo t) (tkProbes t) (tkNow t) ∨
   workOnly (tkInfo t) (tkProbes t) (tkNow t) ∧
   limitFor m0 (tkName t) (tkTemplate t) < 1 + streak (tkName t) (anchorOf t) (rev ticks)).
Proof.
  intros H0 Hlen m. pose proof (remembers_history m0 ticks H0 Hlen) as Hm. fold m in Hm. rewrite passTick_eq.
  destruct (ladder_action _ (tkProbes t) rounds (checkIdle it (tkName t) (tkTemplate t) (tkLastActivity t) (tkNow t))
    (tkInfo t) (tkNow t) idleLadder) as (_ & Hs & _ & Hw). fold (ladderDecision t) in Hs, Hw.
  pose proof (defersForWork_true t) as Hd.
  rewrite Hw in Hd. destruct (defersForWork t).
  - rewrite (recordDefer_count m0 m (rev ticks) _ _ _ Hm) by (rewrite length_rev; lia). cbn [fst].
    destruct (proj1 Hd eq_refl) as [Ht Hp].
    destruct (Z.ltb_spec (limitFor m0 (tkName t) (tkTemplate t)) (1 + streak (tkName t) (anchorOf t) (rev ticks))); cbn.
    { split; [intros _; split; [done|by right]|done]. }
    rewrite Hs. split; [by intros [? ?]; split; [|left]|]. intros (_ & [?|[_ ?]]); [done|lia].
  - cbn [fst]. rewrite Hs. split; [by intros [? ?]; split; [|left]|]. intros (Ht & [?|[Hp _]]); [done|].
    discriminate (proj2 Hd (conj Ht Hp)).
Qed.
End Backstop.
