(* ===== verification/SessionReconcile.v ===== *)
(** * SessionReconcile: accounting for dead sessions and healing stored state

    Models the per-session pass of the reconciler ([cmd/gc/session_reconcile.go]
    and the segment of [cmd/gc/session_reconciler.go] that calls it): expired
    holds, provider screens, the pending-create leases, the heal of advisory
    state, crash and churn counters.

    The code writes through the session front door, whose answers it must not
    trust: it is a program over [FrontOp], any call of which may fail.  A pass
    reads the clock as [now] (one reading: time stands still within a pass); the
    clock, the front door and the store are present, as in the controller. *)

From Stdlib Require Import Ascii.
From S2P Require Import Prelude GoBase GoText GoTime Beads MemStore Prog SessionState SessionExits SessionInfo SessionView SessionTimers.

Local Open Scope Z_scope.

(** ** Provider screens *)

Definition newline : ascii := bchr 10.

Section screens.
Context `{UnicodeTables}.

Definition lineContainsAll (content : string) (subs : list string) : bool :=
  existsb (λ line, forallb (Contains line) subs) (Split newline content).

(** The windows of at most [maxSpan] lines, one per starting line. *)
Fixpoint windows (maxSpan : nat) (lines : list string) : list (list string) :=
  match lines with
  | [] => []
  | _ :: rest => take maxSpan lines :: windows maxSpan rest
  end.

Definition linesContainAllWithin (content : string) (maxSpan : Z) (subs : list string) : bool :=
  if (maxSpan <? 1) || bool_decide (subs = []) then false
  else existsb (λ window, forallb (Contains (String.concat (String newline "") window)) subs)
         (windows (Z.to_nat maxSpan) (Split newline content)).

Definition spendLimitModalWindowLines : Z := 6.

Definition containsClaudeSpendLimitModal (content : string) : bool :=
  linesContainAllWithin content spendLimitModalWindowLines
    ["Usage credit balance"; "Adjust monthly spend limit"; "Wait for limit to reset"].

Definition ContainsProviderRateLimitScreen (content : string) : bool :=
  if Contains content "Usage limit reached" || Contains content "You've hit your limit" ||
     Contains content "/rate-limit-options" then true
  else if containsClaudeSpendLimitModal content then true
  else Contains (ToLower content) "rate limit" && Contains content "Keep trying" && Contains content "Stop".

Definition ProviderTerminalErrorReason (content : string) : string :=
  let lower := ToLower content in
  if Contains lower "model_not_found" then "model_not_found"
  else if lineContainsAll lower ["model"; "not found"] then "model_not_found"
  else if Contains lower "insufficient_quota" then "quota_exceeded"
  else if Contains lower "quota_exceeded" then "quota_exceeded"
  else if Contains lower "quota exceeded" && negb (Contains lower "disk quota") then "quota_exceeded"
  else "".
End screens.

(** ** The front door *)

Inductive FrontOp : Type → Type :=
| OpApply (id : string) (patch : MetadataPatch) : FrontOp (option SessionError)
| OpMarker (id key value : string) : FrontOp (option SessionError).

Definition frontApply (id : string) (patch : MetadataPatch) : prog FrontOp (option SessionError) :=
  if bool_decide (patch = ∅) then Ret None else trigger (OpApply id patch).

Definition frontApplyInfo (info : Info) (patch : MetadataPatch) : prog FrontOp (Info * option SessionError) :=
  if bool_decide (patch = ∅) then Ret (info, None)
  else let* err := frontApply info.(iID) patch in
       match err with
       | Some e => Ret (info, Some e)
       | None => Ret (infoApplyPatch info patch, None)
       end.

Definition frontMarker (id key value : string) : prog FrontOp (option SessionError) := trigger (OpMarker id key value).

(** The front door over the in-memory store. *)
Definition answerOf {A} (r : res SessionError A * MemStore) : option SessionError * MemStore :=
  (match r.1 with Ok _ => None | Err e => Some e end, r.2).

Definition memFront (now : Z) : machine FrontOp MemStore := λ X e,
  match e in FrontOp X return MemStore → X * MemStore with
  | OpApply id patch => λ m, answerOf (ApplyPatch now id patch m)
  | OpMarker id key value => λ m, answerOf (SetMarker now id key value m)
  end.

(** ** Thresholds *)

Definition stabilityThreshold : Z := 30 * Second.
Definition churnProductivityThreshold : Z := 5 * Minute.
Definition defaultQuarantineDuration : Z := 5 * Minute.
Definition defaultRateLimitQuarantineDuration : Z := 30 * Minute.
Definition defaultMaxWakeAttempts : Z := 5.
Definition defaultMaxChurnCycles : Z := 3.
Definition staleCreatingStateTimeout : Z := Minute.
Definition pendingCreateNeverStartedTimeout : Z := 10 * Minute.
Definition staleKeyDetectDelay : Z := 2 * Second.

(** The first result of [strconv.Atoi]: clamped when out of range, zero when
    malformed. *)
Definition AtoiValue (s : string) : Z :=
  let clamp (z : Z) := Z.max minInt64 (Z.min maxInt64 z) in
  match s with
  | String "-" r => match parseDigits r with Some n => clamp (- n) | None => 0 end
  | String "+" r => match parseDigits r with Some n => clamp n | None => 0 end
  | _ => match parseDigits s with Some n => clamp n | None => 0 end
  end.

(** ** Expired timers *)

Definition expired (raw : string) (now : Z) : bool :=
  if raw == "" then false
  else let t := default 0 (ParseRFC3339 raw) in negb (IsZero t) && (t <? now).

Definition foldOnSuccess (info : Info) (batch : MetadataPatch) : prog FrontOp Info :=
  let* err := frontApply info.(iID) batch in
  Ret (match err with None => infoApplyPatch info batch | Some _ => info end).

Definition healExpiredTimersInfo (info : Info) (now : Z) : prog FrontOp Info :=
  let* info := (if expired (text info "HeldUntil") now
                then foldOnSuccess info (ClearExpiredHoldPatch (text info "SleepReason")) else Ret info) in
  if expired (text info "QuarantinedUntil") now
  then foldOnSuccess info (ClearExpiredQuarantinePatch (text info "SleepReason"))
  else Ret info.

(** ** Pending-create leases *)

Definition pendingCreateAttemptStaleInfo (i : Info) (now : Z) : bool :=
  match parseRFC3339Metadata (text i "PendingCreateStartedAt") with
  | Some started => negb (now <? started + staleCreatingStateTimeout)
  | None => if IsZero i.(iCreatedAt) then true else negb (now <? i.(iCreatedAt) + staleCreatingStateTimeout)
  end.

Definition staleCreatingStateInfo (i : Info) (now : Z) : bool :=
  if TrimSpace (text i "MetadataState") != StateCreating then false else pendingCreateAttemptStaleInfo i now.

Definition sessionStartRequestedInfo (i : Info) (now : Z) : bool :=
  if TrimSpace (text i "MetadataState") == StateStartPending then true
  else if flag i "PendingCreateClaim" then true
  else if TrimSpace (text i "MetadataState") != "creating" then false
  else negb (staleCreatingStateInfo i now).

Definition pendingCreateStartInFlightInfo (i : Info) (now startupTimeout : Z) : bool :=
  if negb (flag i "PendingCreateClaim") && (TrimSpace (text i "MetadataState") != StateCreating) then false
  else
    let lastWoke := TrimSpace (text i "LastWokeAt") in
    if lastWoke == "" then false
    else match ParseRFC3339 lastWoke with
    | None => false
    | Some started =>
        let startupTimeout := if startupTimeout <=? 0 then Minute else startupTimeout in
        now <? started + wrap64 (wrap64 (startupTimeout + staleKeyDetectDelay) + 5 * Second)
    end.

Definition pendingCreateQueuedOrCreatingState (state : string) : bool :=
  oneOf (TrimSpace state) [StateStartPending; StateCreating].

Definition pendingCreateRollbackState (state : string) : bool :=
  if pendingCreateQueuedOrCreatingState state then true else TrimSpace state == StateAsleep.

Definition pendingCreateNeverStartedLeaseExpiredInfo (i : Info) (now : Z) : bool :=
  if negb (flag i "PendingCreateClaim") then false
  else if TrimSpace (text i "LastWokeAt") != "" then false
  else
    let anchor := default i.(iCreatedAt) (parseRFC3339Metadata (text i "PendingCreateStartedAt")) in
    if IsZero anchor then true else anchor + pendingCreateNeverStartedTimeout <? now.

Definition pendingCreateNeverStartedExpiredInfo (i : Info) (now : Z) : bool :=
  if negb (flag i "PendingCreateClaim") then false
  else if negb (pendingCreateRollbackState (text i "MetadataState")) then false
  else pendingCreateNeverStartedLeaseExpiredInfo i now.

Definition pendingCreateLeaseActiveInfo (i : Info) (now startupTimeout : Z) : bool :=
  if negb (flag i "PendingCreateClaim") then false
  else if pendingCreateStartInFlightInfo i now startupTimeout then true
  else if TrimSpace (text i "LastWokeAt") == "" then negb (pendingCreateNeverStartedLeaseExpiredInfo i now)
  else negb (pendingCreateAttemptStaleInfo i now).

Definition pendingCreateLeaseExpiredForRollbackInfo (i : Info) (now startupTimeout : Z) : bool :=
  if negb (flag i "PendingCreateClaim") then false
  else
    let state := TrimSpace (text i "MetadataState") in
    if negb (pendingCreateRollbackState state) then false
    else if pendingCreateStartInFlightInfo i now startupTimeout then false
    else if state == StateAsleep then
      if TrimSpace (text i "LastWokeAt") == "" then pendingCreateNeverStartedExpiredInfo i now
      else pendingCreateAttemptStaleInfo i now
    else if TrimSpace (text i "LastWokeAt") == "" then pendingCreateNeverStartedExpiredInfo i now
    else pendingCreateAttemptStaleInfo i now.

(** ** Healing advisory state *)

Definition clearPendingCreateLeaseInfo (pendingClaim : bool) (batch : MetadataPatch) : MetadataPatch :=
  if negb pendingClaim then batch
  else <["pending_create_started_at" := ""]> (<["pending_create_claim" := ""]> batch).

Definition namedSessionModeInfo (i : Info) : string := TrimSpace (text i "ConfiguredNamedMode").

Definition healFacts (info : Info) (alive : bool) (now : Z) : ExternalFacts :=
  mkExternalFacts (mkRuntimeFacts true alive false false) (mkNamedIdentityInput "" false false false false) [] false false
    info.(iCreatedAt) staleCreatingStateTimeout now.

(** The end of the heal: the batch for a chosen target. *)
Definition healTail (info : Info) (view : LifecycleView) (target : State) (rollback : bool) (batch : MetadataPatch) : MetadataPatch :=
  let state := TrimSpace (text info "MetadataState") in
  let noReason := TrimSpace (text info "SleepReason") == "" in
  if target == "" then ∅
  else
    let reset := lvResetContinuation view || rollback in
    let batch :=
      if text info "MetadataState" != target then
        let batch := <["state" := target]> batch in
        if (target == StateAsleep) && reset && noReason
        then <["sleep_reason" := SleepReasonRuntimeMissing]> batch else batch
      else batch in
    if target == StateAsleep then
      let batch := if noReason && (state == "failed-create") then <["sleep_reason" := SleepReasonFailedCreate]> batch else batch in
      if reset && (negb (flag info "ConfiguredNamedSession") || (namedSessionModeInfo info != "always"))
      then
        <[PromptHashMetadataKey := ""]> (<[PrimingAttemptedAtMetadataKey := ""]> (<[PrimedAtMetadataKey := ""]>
          (<["continuation_reset_pending" := "true"]> (<["started_config_hash" := ""]> (<["session_key" := ""]> batch)))))
      else batch
    else batch.

(** The empty batch stands for nil. *)
Definition healStatePatchWithRollbackInfo (info : Info) (alive : bool) (now startupTimeout : Z) (rollbackAvailable : bool) : MetadataPatch :=
  let view := ProjectLifecycle now (LifecycleInputFromInfo info (healFacts info alive now)) in
  let state := TrimSpace (text info "MetadataState") in
  let noReason := TrimSpace (text info "SleepReason") == "" in
  let claim := flag info "PendingCreateClaim" in
  if negb alive && (lvBaseState view == BaseStateDrained) then
    let batch := if state != StateAsleep then <["state" := StateAsleep]> ∅ else ∅ in
    if noReason then <["sleep_reason" := SleepReasonDrained]> batch else batch
  else
    let target := lvReconciledState view in
    let target :=
      if (target == "") && (lvBaseState view == BaseStateNone) then
        if alive then StateAwake
        else if sessionStartRequestedInfo info now then StateStartPending else StateAsleep
      else target in
    let failedCreate := negb alive && (state == "failed-create") in
    if failedCreate && claim && pendingCreateLeaseActiveInfo info now 0 then ∅
    else
      let '(target, batch) :=
        if failedCreate then (StateAsleep, clearPendingCreateLeaseInfo claim ∅) else (target, ∅) in
      let '(target, batch, rollback) :=
        if negb alive && (state == "creating") && claim then
          if negb (pendingCreateLeaseExpiredForRollbackInfo info now startupTimeout) || negb rollbackAvailable
          then (if target == StateAsleep then StateCreating else target, batch, false)
          else (StateAsleep, clearPendingCreateLeaseInfo claim batch, true)
        else (target, batch, false) in
      healTail info view target rollback batch.

Definition healStateWithRollbackInfo (info : Info) (alive : bool) (now startupTimeout : Z) (rollbackAvailable : bool)
    : prog FrontOp (MetadataPatch * option SessionError) :=
  if info.(iClosed) then Ret (∅, None)
  else
    let batch := healStatePatchWithRollbackInfo info alive now startupTimeout rollbackAvailable in
    if bool_decide (batch = ∅) then Ret (∅, None)
    else let* err := frontApply info.(iID) batch in
         match err with
         | Some e => Ret (∅, Some e)
         | None => Ret (batch, None)
         end.

(** ** Exits *)

(** What the configuration says about a session's provider. *)
Record ExitConfig := mkExitConfig { ecStartupTimeout : Z; ecProvider : string }.

(** [dt] holds the sessions with a drain in progress. *)
Definition sessionExitFactsInfo (info : Info) (cfg : option ExitConfig) (alive : bool) (dt : gset string) (now : Z) : ExitFacts :=
  let startupTimeout := match cfg with Some c => c.(ecStartupTimeout) | None => 0 end in
  let subprocess := match cfg with Some c => c.(ecProvider) == "subprocess" | None => false end in
  mkExitFacts alive subprocess (bool_decide (info.(iID) ∈ dt)) (flag info "PendingCreateClaim")
    (pendingCreateStartInFlightInfo info now startupTimeout) (text info "SleepReason") (text info "LastWokeAt") now
    stabilityThreshold churnProductivityThreshold false ScreenUnknown.

Definition clearLastWokeAt (info : Info) : prog FrontOp Info :=
  let* _ := frontMarker info.(iID) "last_woke_at" "" in
  Ret (infoApplyPatch info (literal [("last_woke_at", "")])).

Definition recordRateLimitQuarantine (info : Info) (now : Z) : prog FrontOp (Info * option SessionError) :=
  let* r := frontApplyInfo info (RateLimitQuarantinePatch (now + defaultRateLimitQuarantineDuration)) in
  match r with
  | (_, Some e) => Ret (info, Some e)
  | (next, None) => Ret (next, None)
  end.

Definition terminalErrorPatch (reason : string) (now : Z) : MetadataPatch :=
  literal
    [("state", StateAsleep); ("sleep_reason", SleepReasonProviderTerminalError); ("last_woke_at", "");
     ("pending_create_claim", ""); ("pending_create_started_at", ""); ("session_health", "unhealthy");
     ("session_health_reason", reason); ("session_drainable", "true"); ("provider_terminal_error", reason);
     ("provider_terminal_error_at", FormatRFC3339 now)].

Definition markProviderTerminalError (info : Info) (now : Z) (reason : string) : prog FrontOp (Info * option SessionError) :=
  let reason := TrimSpace reason in
  if reason == "" then Ret (info, None) else frontApplyInfo info (terminalErrorPatch reason now).

Definition sessionHasProviderTerminalErrorInfo (info : Info) : bool :=
  if TrimSpace (text info "ProviderTerminalError") != "" then true
  else (TrimSpace (text info "HealthState") == "unhealthy") && flag info "Drainable" && (TrimSpace (text info "HealthReason") != "").

Definition withScreen (f : ExitFacts) (available : bool) (s : ScreenFact) : ExitFacts :=
  mkExitFacts f.(xfAlive) f.(xfSubprocessProvider) f.(xfDrainPending) f.(xfPendingCreateClaim) f.(xfPendingCreateStartInFlight)
    f.(xfSleepReason) f.(xfLastWokeAt) f.(xfNow) f.(xfStabilityThreshold) f.(xfProductivityThreshold) available s.

Section exits.
Context `{UnicodeTables}.

(** The gather loop: [inl reason] is a terminal provider error, [inr] the
    decision on the gathered facts. *)
Fixpoint gatherScreen (rounds : nat) (peek : option string) (f : ExitFacts) : string + ExitOutcome :=
  match rounds, DecideSessionExit f with
  | S n, ExitGatherScreen =>
      match peek with
      | None => gatherScreen n peek (withScreen f true ScreenOther)
      | Some content =>
          let reason := ProviderTerminalErrorReason content in
          if reason != "" then inl reason
          else gatherScreen n peek (withScreen f true (if ContainsProviderRateLimitScreen content then ScreenRateLimit else ScreenOther))
      end
  | _, dec => inr dec
  end.

(** [peek]: absent for a nil function, else its answer ([None] for an error). *)
Definition checkRateLimitStability (info : Info) (cfg : option ExitConfig) (alive : bool) (dt : gset string) (now : Z)
    (peek : option (option string)) : prog FrontOp (Info * bool * option SessionError) :=
  let facts := withScreen (sessionExitFactsInfo info cfg alive dt now) (bool_decide (is_Some peek)) ScreenUnknown in
  match gatherScreen 2 (default None peek) facts with
  | inl reason =>
      let* r := markProviderTerminalError info now reason in
      match r with
      | (_, Some e) => Ret (info, false, Some e)
      | (next, None) => Ret (next, true, None)
      end
  | inr ExitRateLimitQuarantine =>
      let* r := recordRateLimitQuarantine info now in
      match r with
      | (_, Some e) => Ret (info, false, Some e)
      | (next, None) => Ret (next, true, None)
      end
  | inr _ => Ret (info, false, None)
  end.

(** The write of an accrual: the batch when it quarantines, else the counter
    alone; [counter] is its key. *)
Definition recordAccrual (info : Info) (counter : string) (accrual : ExitAccrual) : prog FrontOp Info :=
  if accrual.(eaQuarantined) then
    let* r := frontApplyInfo info accrual.(eaPatch) in
    match r with
    | (_, Some _) => Ret info
    | (next, None) => Ret next
    end
  else
    let next := accrual.(eaPatch).[counter] in
    let* _ := frontMarker info.(iID) counter next in
    Ret (infoApplyPatch info (literal [(counter, next)])).

(** A best-effort write with an unconditional fold. *)
Definition applyBestEffort (info : Info) (patch : MetadataPatch) : prog FrontOp Info :=
  let* _ := frontApply info.(iID) patch in Ret (infoApplyPatch info patch).

Definition recordWakeFailure (info : Info) (now : Z) : prog FrontOp Info :=
  let attempts := AtoiValue (text info "WakeAttemptsMetadata") in
  let* info := (if (text info "SessionKey" != "") || (text info "StartedConfigHash" != "")
                then applyBestEffort info (ConversationResetPatch true) else Ret info) in
  recordAccrual info "wake_attempts" (WakeFailureAccrualPatch attempts defaultMaxWakeAttempts (now + defaultQuarantineDuration)).

Definition checkStability (info : Info) (cfg : option ExitConfig) (alive : bool) (dt : gset string) (now : Z)
    (peek : option (option string)) : prog FrontOp (Info * bool) :=
  let* r := checkRateLimitStability info cfg alive dt now peek in
  match r with
  | (next, true, _) | (next, _, Some _) => Ret (next, true)
  | (_, false, None) =>
      match DecideSessionExit (sessionExitFactsInfo info cfg alive dt now) with
      | ExitRapidCrash =>
          let* info := recordWakeFailure info now in
          let* info := clearLastWokeAt info in
          Ret (info, true)
      | _ => Ret (info, false)
      end
  end.

Definition clearWakeFailures (info : Info) : prog FrontOp Info :=
  let attempts := text info "WakeAttemptsMetadata" in
  let batch := if (attempts != "") && (attempts != "0") then <["wake_attempts" := "0"]> ∅ else ∅ in
  let batch := if text info "QuarantinedUntil" != "" then <["quarantined_until" := ""]> batch else batch in
  if bool_decide (batch = ∅) then Ret info
  else let* r := frontApplyInfo info batch in
       match r with
       | (_, Some _) => Ret info
       | (next, None) => Ret next
       end.

Definition recordChurn (info : Info) (now : Z) : prog FrontOp Info :=
  let count := AtoiValue (text info "ChurnCount") in
  let* info := (if text info "SessionKey" != "" then applyBestEffort info (ConversationResetPatch false) else Ret info) in
  recordAccrual info "churn_count" (ChurnAccrualPatch count defaultMaxChurnCycles (now + defaultQuarantineDuration)).

Definition clearChurn (info : Info) : prog FrontOp Info :=
  if (text info "ChurnCount" == "") || (text info "ChurnCount" == "0") then Ret info
  else let* _ := frontMarker info.(iID) "churn_count" "0" in
       Ret (infoApplyPatch info (literal [("churn_count", "0")])).

Definition checkChurn (info : Info) (cfg : option ExitConfig) (alive : bool) (dt : gset string) (now : Z) : prog FrontOp (Info * bool) :=
  match DecideSessionExit (sessionExitFactsInfo info cfg alive dt now) with
  | ExitChurn =>
      let* info := recordChurn info now in
      let* info := clearLastWokeAt info in
      Ret (info, true)
  | ExitProductiveDeath => let* info := clearChurn info in Ret (info, false)
  | _ => Ret (info, false)
  end.

Definition aliveFor (info : Info) (now threshold : Z) : bool :=
  let lastWoke := text info "LastWokeAt" in
  if lastWoke == "" then false
  else match ParseRFC3339 lastWoke with
  | None => false
  | Some t => threshold <=? timeSub now t
  end.

Definition productiveLongEnoughInfo (info : Info) (now : Z) : bool := aliveFor info now churnProductivityThreshold.
Definition stableLongEnoughInfo (info : Info) (now : Z) : bool := aliveFor info now stabilityThreshold.

Definition sessionWakeAttemptsInfo (i : Info) : Z := AtoiValue (text i "WakeAttemptsMetadata").

Definition sessionIsQuarantinedInfo (i : Info) (now : Z) : bool :=
  let q := text i "QuarantinedUntil" in
  if q == "" then false
  else match ParseRFC3339 q with
  | None => false
  | Some t => now <? t
  end.

(** ** Idle-stop recovery and detachment *)

Definition recoverPendingIdleSleepInfo (info : Info) (running : bool) (now : Z) : prog FrontOp bool :=
  if running || (text info "SleepIntent" != "idle-stop-pending") then Ret false
  else
    let batch := SleepPatch now SleepReasonIdle in
    let fingerprint := text info "SleepPolicyFingerprint" in
    let batch := if fingerprint != "" then <["sleep_policy_fingerprint" := fingerprint]> batch else batch in
    let* err := frontApply info.(iID) batch in
    Ret (match err with Some _ => false | None => true end).

(** [tracked]: the sleep policy is enabled and interactive, the runtime alive and
    able to sleep; [attached] is the provider's answer, [None] for an error.
    The empty patch stands for nil. *)
Definition markDetached (info : Info) (value : string) : prog FrontOp MetadataPatch :=
  let* err := frontMarker info.(iID) "detached_at" value in
  Ret (match err with Some _ => ∅ | None => literal [("detached_at", value)] end).

Definition reconcileDetachedAtInfo (info : Info) (tracked : bool) (attached : option bool) (now : Z) : prog FrontOp MetadataPatch :=
  if negb tracked then
    if text info "DetachedAt" != "" then markDetached info "" else Ret ∅
  else if text info "SessionNameMetadata" == "" then Ret ∅
  else match attached with
  | Some true => if text info "DetachedAt" != "" then markDetached info "" else Ret ∅
  | _ => if text info "DetachedAt" == "" then markDetached info (FormatRFC3339 now) else Ret ∅
  end.

(** ** The exit segment of the pass *)

(** The observations of one session at one tick. *)
Record Observation := mkObservation {
  obAlive : bool;
  obRunning : bool;
  obPeek : option (option string);
  obTracked : bool → bool;
  obAttached : option bool;
  obNow : Z
}.

(** From the provider screen to the counters; the last result says that the
    tick is done with the session. *)
Definition exitSegment (info : Info) (cfg : option ExitConfig) (dt : gset string) (o : Observation) : prog FrontOp (Info * bool) :=
  let alive := o.(obAlive) in
  let now := o.(obNow) in
  let startupTimeout := match cfg with Some c => c.(ecStartupTimeout) | None => 0 end in
  let* r := checkRateLimitStability info cfg alive dt now o.(obPeek) in
  match r with
  | (next, true, _) | (next, _, Some _) => Ret (next, true)
  | (_, false, None) =>
      let* h := healStateWithRollbackInfo info alive now startupTimeout true in
      match h with
      | (_, Some _) => Ret (info, true)
      | (healBatch, None) =>
          let info := infoApplyPatch info healBatch in
          let* recovered := recoverPendingIdleSleepInfo info o.(obRunning) now in
          let alive := if recovered : bool then false else alive in
          let info := if recovered then infoApplyPatch info (SleepPatch now SleepReasonIdle) else info in
          let* detached := reconcileDetachedAtInfo info (o.(obTracked) alive) o.(obAttached) now in
          let info := infoApplyPatch info detached in
          let* s := checkStability info cfg alive dt now None in
          match s with
          | (stabInfo, true) => Ret (stabInfo, true)
          | (_, false) =>
              let* c := checkChurn info cfg alive dt now in
              match c with
              | (churnInfo, true) => Ret (churnInfo, true)
              | (info, false) =>
                  let* info := (if alive && stableLongEnoughInfo info now then clearWakeFailures info else Ret info) in
                  let* info := (if alive && productiveLongEnoughInfo info now then clearChurn info else Ret info) in
                  Ret (info, false)
              end
          end
      end
  end.
End exits.
