(* ===== verification/SessionReconcileProps.v ===== *)
(** * SessionReconcileProps: what the pass over a dead session guarantees

    Every death is recorded in one lane and once, whatever the front door
    answers; a crash loop ends in quarantine; healing never takes a create claim
    from a start in flight. *)

From Stdlib Require Import Ascii.
From S2P Require Import Prelude GoBase GoText GoTime GoTimeProps Beads MemStore Prog SessionState SessionExits SessionInfo SessionInfoProps SessionView SessionViewProps SessionPatchProps SessionTimers SessionReconcile.

Local Open Scope Z_scope.

(** ** Reading a folded snapshot *)

Lemma codec_independent k s k' s' :
  assoc k infoKeyCodec = Some s → assoc k' infoKeyCodec = Some s' → k ≠ k' → independent s s' = true.
Proof.
  intros Hk Hk' Hne. destruct (assoc_split k infoKeyCodec s Hk) as (c1 & c2 & E & _).
  assert ((k', s') ∈ c1 ++ (k, s) :: c2) as Hin by (rewrite <-E; by apply assoc_mem).
  pose proof infoKeyCodec_OK as Hok. rewrite E in Hok. apply elem_of_app in Hin as [Hin|Hin].
  - apply list_elem_of_split in Hin as (d1 & d2 & ->). rewrite <-app_assoc in Hok.
    destruct (codecOK_app _ _ _ _ Hok) as [_ Hd]. apply independent_sym.
    unfold disjointFrom in Hd. rewrite Forall_forall in Hd. apply (Hd (k, s)). apply elem_of_app. right. apply list_elem_of_here.
  - apply elem_of_cons in Hin as [[= -> ->]|Hin]; [done|].
    destruct (codecOK_app _ _ _ _ Hok) as [_ Hd]. unfold disjointFrom in Hd. rewrite Forall_forall in Hd. by apply (Hd (k', s')).
Qed.

(** A field of the snapshot after a fold, from the key that sets it. *)
Lemma fold_field {A} (P : Info → A) (Q : string → A) k s i (patch : MetadataPatch) :
  assoc k infoKeyCodec = Some s → (∀ j v, P (set s j v) = Q v) →
  (∀ s' j v, independent s s' = true → P (set s' j v) = P j) →
  P (infoApplyPatch i patch) = match patch !! k with Some v => Q v | None => P i end.
Proof.
  intros Hk Hset Hind. unfold infoApplyPatch, foldPatch.
  assert (∀ l i, NoDup l.*1 →
    P (foldl (foldKey infoKeyCodec) i l) = match (list_to_map l : gmap string string) !! k with Some v => Q v | None => P i end) as H.
  { clear i patch. induction l as [|[k' v] l IH] using rev_ind; intros i; [done|].
    rewrite fmap_app, NoDup_app. intros (Hl & Hd & _). rewrite foldl_app, list_to_map_app, list_to_map_cons, list_to_map_nil. cbn [foldl fst snd].
    assert (k' ∉ l.*1) as Hk' by (intros Hin; apply (Hd k' Hin), list_elem_of_here).
    unfold foldKey at 1. cbn [fst snd]. destruct (decide (k = k')) as [<-|Hne].
    - rewrite Hk, Hset, lookup_union_r by (by apply not_elem_of_list_to_map_1). cbn [fst snd]. by rewrite lookup_insert_eq.
    - rewrite lookup_union, lookup_insert_ne, lookup_empty by congruence. rewrite (right_id_L None _), <-IH by done.
      destruct (assoc k' infoKeyCodec) as [s'|] eqn:E; [|done]. apply Hind. by eapply codec_independent. }
  rewrite H by apply NoDup_fst_map_to_list. by rewrite list_to_map_to_list.
Qed.

Lemma fold_text k s f i (patch : MetadataPatch) :
  assoc k infoKeyCodec = Some s → textField s = Some f →
  text (infoApplyPatch i patch) f = match patch !! k with Some v => v | None => text i f end.
Proof.
  intros Hk Hf. apply (fold_field (λ i, text i f) id k s); [done|..].
  - intros j v. unfold text. rewrite set_text, Hf. apply mget_insert_eq.
  - intros s' j v Hi. unfold text. rewrite set_text. destruct (textField s') as [g|] eqn:E; [|done]. cbn.
    apply mget_insert_ne. intros ->. by apply (independent_text s s' f).
Qed.

Lemma fold_flag k s f i (patch : MetadataPatch) :
  assoc k infoKeyCodec = Some s → flagField s = Some f →
  flag (infoApplyPatch i patch) f = match patch !! k with Some v => isTrue v | None => flag i f end.
Proof.
  intros Hk Hf. apply (fold_field (λ i, flag i f) isTrue k s); [done|..].
  - intros j v. unfold flag. rewrite set_flags, Hf. cbn. by rewrite lookup_insert_eq.
  - intros s' j v Hi. unfold flag. rewrite set_flags. destruct (flagField s') as [g|] eqn:E; [|done]. cbn.
    rewrite lookup_insert_ne; [done|]. intros ->. by apply (independent_flag s s' f).
Qed.

Lemma fold_prologue i (patch : MetadataPatch) : prologue (infoApplyPatch i patch) = prologue i.
Proof.
  unfold infoApplyPatch, foldPatch. generalize (map_to_list patch). intros l. revert i.
  induction l as [|[k v] l IH]; intros i; [done|]. cbn [foldl]. rewrite IH. unfold foldKey.
  destruct (assoc _ _); [apply set_prologue|done].
Qed.

Lemma fold_id i patch : iID (infoApplyPatch i patch) = iID i.
Proof. pose proof (fold_prologue i patch) as H. unfold prologue in H. congruence. Qed.

(** Evaluate the reads of a folded snapshot at a closed field. *)
Ltac fold_reads :=
  repeat match goal with
  | |- context [text (infoApplyPatch ?i ?p) ?f] =>
      let r := eval vm_compute in (textKey f) in
      match r with Some (?k, ?s) => rewrite (fold_text k s f i p) by reflexivity end
  | |- context [flag (infoApplyPatch ?i ?p) ?f] =>
      let r := eval vm_compute in (flagKey f) in
      match r with Some (?k, ?s) => rewrite (fold_flag k s f i p) by reflexivity end
  end.

(** ** Lanes *)

(** A dead session whose death counts: not a subprocess, not draining, with a
    valid wake stamp and no start in flight. *)
Definition crashCandidate (f : ExitFacts) : Prop :=
  xfAlive f = false ∧ xfSubprocessProvider f = false ∧ xfDrainPending f = false ∧
  is_Some (parseWakeStamp (xfLastWokeAt f)) ∧ xfPendingCreateStartInFlight f = false.

(** Past the stability threshold the death must not have been asked for. *)
Definition unasked (f : ExitFacts) : Prop :=
  xfAlive f = false ∧ xfSubprocessProvider f = false ∧ xfDrainPending f = false ∧
  is_Some (parseWakeStamp (xfLastWokeAt f)) ∧
  xfPendingCreateClaim f = false ∧ IsDeliberateSleepReason (xfSleepReason f) = false.

Definition lifetime (f : ExitFacts) : Z := timeSub (xfNow f) (default 0 (parseWakeStamp (xfLastWokeAt f))).

(** Each death takes one lane, told by how long the session lived: a death
    within the stability threshold is a rapid crash, one past it is churn, or a
    productive death past the productivity threshold; requested deaths, starts
    in flight and sessions without a wake stamp are not counted. *)
Theorem exit_lanes f :
  xfScreenAvailable f = false →
  (DecideSessionExit f = ExitRapidCrash ↔ crashCandidate f ∧ lifetime f < xfStabilityThreshold f) ∧
  (DecideSessionExit f = ExitChurn ↔
     unasked f ∧ xfStabilityThreshold f ≤ lifetime f < xfProductivityThreshold f) ∧
  (DecideSessionExit f = ExitProductiveDeath ↔
     unasked f ∧ xfStabilityThreshold f ≤ lifetime f ∧ xfProductivityThreshold f ≤ lifetime f) ∧
  DecideSessionExit f ≠ ExitGatherScreen ∧ DecideSessionExit f ≠ ExitRateLimitQuarantine.
Proof.
  intros Hs. unfold DecideSessionExit, crashCandidate, unasked. fold (lifetime f). rewrite Hs, andb_false_r. clear Hs.
  generalize (lifetime f), (xfStabilityThreshold f), (xfProductivityThreshold f), (IsDeliberateSleepReason (xfSleepReason f)).
  intros e s p d. destruct (parseWakeStamp (xfLastWokeAt f)) as [t|].
  - rewrite (bool_decide_true (is_Some (Some t))) by done.
    destruct (xfAlive f), (xfSubprocessProvider f), (xfDrainPending f), (xfPendingCreateStartInFlight f), (xfPendingCreateClaim f), d,
      (Z.ltb_spec e s), (Z.leb_spec p e); cbn; split_and!; try split; intros; destruct_and?; split_and?; try done; lia.
  - rewrite (bool_decide_false (is_Some None)) by apply is_Some_None.
    assert (is_Some (@None Z) ↔ False) as -> by (split; [apply is_Some_None|done]).
    destruct (xfAlive f), (xfSubprocessProvider f), (xfDrainPending f), (xfPendingCreateStartInFlight f), (xfPendingCreateClaim f), d,
      (Z.ltb_spec e s); cbn; split_and!; try split; intros; destruct_and?; split_and?; try done.
Qed.

(** ** Recorded deaths *)

(** Every value a program can return satisfies [Q], whatever is answered. *)
Definition returns {E A} (Q : A → Prop) (p : prog E A) : Prop :=
  wp (Monitor (λ (_ : unit) _ _, True) (λ s _ _ _, s)) p tt (λ a _, Q a).

Lemma returns_exec {E A} (Q : A → Prop) (p : prog E A) tr a : returns Q p → exec p tr (Ret a) → Q a.
Proof. intros Hr He. exact (wp_sound_ret _ _ _ _ _ _ Hr He). Qed.

Lemma returns_bind {E A B} (R : A → Prop) (Q : B → Prop) (p : prog E A) (f : A → prog E B) :
  returns R p → (∀ a, R a → returns Q (f a)) → returns Q (bind p f).
Proof. intros Hp Hf. eapply wp_seq; [exact Hp|]. intros a [] Ha. by apply Hf. Qed.

Lemma returns_any {E A} (p : prog E A) : returns (λ _, True) p.
Proof. unfold returns. induction p as [a|X e k IH]; cbn; [done|]. split; [done|]. intros x. apply IH. Qed.

(** The check that a folded patch cleared the wake stamp. *)
Definition stampCleared (info : Info) : Prop := text info "LastWokeAt" = "".

Lemma applyInfo_clears info patch :
  patch !! "last_woke_at" = Some "" →
  returns (λ r, match r with (next, None) => stampCleared next | _ => True end) (frontApplyInfo info patch).
Proof.
  intros Hp. unfold frontApplyInfo, frontApply. case_bool_decide as E; [by rewrite E, lookup_empty in Hp|].
  split; [done|]. intros [e|]; [done|]. unfold stampCleared. cbn [bind wp]. fold_reads. by rewrite Hp.
Qed.

Lemma clearLastWokeAt_clears info : returns stampCleared (clearLastWokeAt info).
Proof.
  split; [done|]. intros x. change (stampCleared (infoApplyPatch info (literal [("last_woke_at", "")]))).
  unfold stampCleared. fold_reads. by rewrite lookup_literal.
Qed.

Section recorded.
Context `{UnicodeTables}.

Lemma Decide_stampless f : xfLastWokeAt f = "" → DecideSessionExit f = ExitNone.
Proof.
  intros Hw. unfold DecideSessionExit. rewrite Hw. destruct (xfAlive f); [done|].
  change (parseWakeStamp "") with (@None Z). rewrite (bool_decide_false (is_Some None)) by apply is_Some_None.
  cbn. rewrite !andb_false_r. cbn. by rewrite !orb_true_r.
Qed.

Lemma checks_stampless info cfg alive dt now peek :
  stampCleared info →
  checkStability info cfg alive dt now peek = Ret (info, false) ∧
  checkChurn info cfg alive dt now = Ret (info, false) ∧
  checkRateLimitStability info cfg alive dt now peek = Ret (info, false, None).
Proof.
  intros Hs.
  assert (∀ a s, DecideSessionExit (withScreen (sessionExitFactsInfo info cfg alive dt now) a s) = ExitNone) as Hd.
  { intros a s. by apply Decide_stampless. }
  assert (checkRateLimitStability info cfg alive dt now peek = Ret (info, false, None)) as Hr.
  { unfold checkRateLimitStability. cbn [gatherScreen]. by rewrite Hd. }
  assert (DecideSessionExit (sessionExitFactsInfo info cfg alive dt now) = ExitNone) as Hd0 by by apply Decide_stampless.
  split_and!; [|unfold checkChurn; by rewrite Hd0|done].
  unfold checkStability. rewrite Hr. cbn [bind]. by rewrite Hd0.
Qed.

Lemma ReasonTrim content : ProviderTerminalErrorReason content ≠ "" →
  TrimSpace (ProviderTerminalErrorReason content) = ProviderTerminalErrorReason content.
Proof. unfold ProviderTerminalErrorReason. by repeat case_match. Qed.

Lemma gatherScreen_reason rounds peek f reason :
  gatherScreen rounds peek f = inl reason → TrimSpace reason ≠ "".
Proof.
  revert f. induction rounds as [|n IH]; intros f; cbn [gatherScreen]; [by destruct (DecideSessionExit f)|].
  destruct (DecideSessionExit f); try done. destruct peek as [content|]; [|apply IH].
  case_bool_decide as E; cbn [negb]; [apply IH|]. intros [= <-]. by rewrite ReasonTrim.
Qed.

Lemma rateLimit_records info cfg alive dt now peek :
  returns (λ r, match r with (info', true, _) => stampCleared info' | _ => True end)
    (checkRateLimitStability info cfg alive dt now peek).
Proof.
  unfold checkRateLimitStability. destruct (gatherScreen _ _ _) as [reason|dec] eqn:E; [|destruct dec; try done].
  - apply gatherScreen_reason in E. unfold markProviderTerminalError. rewrite bool_decide_false by done.
    eapply returns_bind; [apply applyInfo_clears; unfold terminalErrorPatch; by rewrite lookup_literal|].
    by intros [next [e|]] Hn.
  - unfold recordRateLimitQuarantine.
    apply (returns_bind (λ r, match r with (next, None) => stampCleared next | _ => True end)).
    { eapply returns_bind; [apply applyInfo_clears; unfold RateLimitQuarantinePatch; by rewrite lookup_literal|].
      intros [next [e|]] Hn; [exact I|exact Hn]. }
    by intros [next [e|]] Hn.
Qed.

Lemma stability_records info cfg alive dt now :
  returns (λ r, match r with (info', true) => stampCleared info' | _ => True end) (checkStability info cfg alive dt now None).
Proof.
  unfold checkStability, checkRateLimitStability.
  set (f := withScreen _ _ _). assert (xfScreenAvailable f = false) as Hf by done.
  destruct (exit_lanes f Hf) as (_ & _ & _ & Hg & Hq). cbn [gatherScreen].
  destruct (DecideSessionExit f); try done; cbn [bind].
  all: destruct (DecideSessionExit (sessionExitFactsInfo info cfg alive dt now)); try done.
  all: eapply returns_bind; [apply returns_any|intros i1 _]; eapply returns_bind; [apply clearLastWokeAt_clears|done].
Qed.

Lemma churn_records info cfg alive dt now :
  returns (λ r, match r with (info', true) => stampCleared info' | _ => True end) (checkChurn info cfg alive dt now).
Proof.
  unfold checkChurn. destruct (DecideSessionExit _); try done.
  - eapply returns_bind; [apply returns_any|intros i1 _]. eapply returns_bind; [apply clearLastWokeAt_clears|done].
  - eapply returns_bind; [apply returns_any|done].
Qed.

(** C34 A death is counted once: whatever the front door answers, after a check
    has recorded the death of a session, no check records anything on the
    snapshot it returned, at any later tick and whatever is observed, until the
    session is woken again. *)
Theorem death_counted_once info cfg alive dt now peek tr info' :
  exec (checkStability info cfg alive dt now None) tr (Ret (info', true)) ∨
  exec (checkChurn info cfg alive dt now) tr (Ret (info', true)) ∨
  exec (checkRateLimitStability info cfg alive dt now peek) tr (Ret (info', true, None)) →
  ∀ cfg' alive' dt' now' peek',
    checkStability info' cfg' alive' dt' now' peek' = Ret (info', false) ∧
    checkChurn info' cfg' alive' dt' now' = Ret (info', false) ∧
    checkRateLimitStability info' cfg' alive' dt' now' peek' = Ret (info', false, None).
Proof.
  intros Hx cfg' alive' dt' now' peek'. apply checks_stampless. destruct Hx as [Hx|[Hx|Hx]].
  - exact (returns_exec _ _ _ _ (stability_records _ _ _ _ _) Hx).
  - exact (returns_exec _ _ _ _ (churn_records _ _ _ _ _) Hx).
  - exact (returns_exec _ _ _ _ (rateLimit_records _ _ _ _ _ _) Hx).
Qed.
End recorded.
