(* ===== verification/SessionPassProps.v ===== *)
(** * SessionPassProps: the pass over a working store

    With the in-memory store behind the front door, the exit segment of the pass
    keeps the snapshot equal to what is stored, and a crash loop reaches
    quarantine after exactly the allowed number of attempts. *)

From Stdlib Require Import Ascii.
From S2P Require Import Prelude GoBase GoText GoTime GoTimeProps Beads MemStore Prog SessionState SessionExits SessionInfo SessionInfoProps SessionView SessionViewProps SessionPatchProps SessionTimers SessionReconcile SessionReconcileProps.

Local Open Scope Z_scope.

(** ** Running against the store *)

(** [Q] holds of what [p] returns and of the store it leaves. *)
Definition pass {A} (now : Z) (p : prog FrontOp A) (m : MemStore) (Q : A → MemStore → Prop) : Prop :=
  Q (run (memFront now) p m).1 (run (memFront now) p m).2.

Lemma pass_bind {A B} now (p : prog FrontOp A) (f : A → prog FrontOp B) m Q :
  pass now p m (λ a m', pass now (f a) m' Q) → pass now (bind p f) m Q.
Proof. unfold pass. rewrite run_bind. by destruct (run (memFront now) p m) as [a m']. Qed.

Lemma pass_mono {A} now (p : prog FrontOp A) m (R Q : A → MemStore → Prop) :
  pass now p m R → (∀ a m', R a m' → Q a m') → pass now p m Q.
Proof. unfold pass. auto. Qed.

Lemma coherent_id id m info : coherent id (m, info) → iID info = id.
Proof. intros (b & Hs & Hi). cbn [fst snd] in Hs, Hi. subst info. rewrite info_id. by apply (stored_id m). Qed.

Lemma fold_empty info : infoApplyPatch info ∅ = info.
Proof. unfold infoApplyPatch, foldPatch. by rewrite map_to_list_empty. Qed.

(** A batch succeeds, and the snapshot folds it. *)
Lemma pass_apply now id info p m (Q : option SessionError → MemStore → Prop) :
  coherent id (m, info) → (∀ m', coherent id (m', infoApplyPatch info p) → Q None m') →
  pass now (frontApply (iID info) p) m Q.
Proof.
  intros Hc HQ. pose proof (coherent_id _ _ _ Hc) as Hid. unfold pass, frontApply.
  case_bool_decide as E; [apply HQ; by rewrite E, fold_empty|]. rewrite Hid.
  destruct Hc as (b & Hs & Hi). cbn [fst snd] in Hs, Hi. subst info.
  destruct (batch_stored now id p m b E Hs) as [Hr Hs']. cbn [run trigger memFront]. unfold ApplyPatch.
  rewrite bool_decide_false by done. unfold bare, answerOf.
  destruct (SetMetadataBatch now id p m) as [r m']. cbn [fst snd] in *. subst r. apply HQ.
  by apply (coherent_touch id m' now (setMetadataMap b (p ∪ bMetadata b))), infoApplyPatch_info.
Qed.

Lemma pass_marker now id info k v m (Q : option SessionError → MemStore → Prop) :
  coherent id (m, info) → (∀ m', coherent id (m', infoApplyPatch info (literal [(k, v)])) → Q None m') →
  pass now (frontMarker (iID info) k v) m Q.
Proof.
  intros Hc HQ. pose proof (coherent_id _ _ _ Hc) as Hid. unfold pass, frontMarker. rewrite Hid.
  destruct Hc as (b & Hs & Hi). cbn [fst snd] in Hs, Hi. subst info.
  destruct (marker_stored now id k v m b Hs) as [Hr Hs']. cbn [run trigger memFront]. unfold SetMarker, bare, answerOf.
  destruct (SetMetadata now id k v m) as [r m']. cbn [fst snd] in *. subst r. apply HQ.
  apply (coherent_touch id m' now (setMetadataMap b (<[k:=v]> (bMetadata b)))); [done|].
  by rewrite infoApplyPatch_info, literal_one.
Qed.

Lemma pass_applyInfo now id info p m (Q : Info * option SessionError → MemStore → Prop) :
  coherent id (m, info) → (∀ m', coherent id (m', infoApplyPatch info p) → Q (infoApplyPatch info p, None) m') →
  pass now (frontApplyInfo info p) m Q.
Proof.
  intros Hc HQ. unfold frontApplyInfo. case_bool_decide as E; [subst p; rewrite fold_empty in HQ; by apply HQ|].
  apply pass_bind, (pass_apply now id); [done|]. intros m' Hm'. by apply HQ.
Qed.

Lemma pass_clearLastWokeAt now id info m (Q : Info → MemStore → Prop) :
  coherent id (m, info) →
  (∀ m', coherent id (m', infoApplyPatch info (literal [("last_woke_at", "")])) →
     Q (infoApplyPatch info (literal [("last_woke_at", "")])) m') →
  pass now (clearLastWokeAt info) m Q.
Proof. intros Hc HQ. apply pass_bind, (pass_marker now id); [done|]. intros m' Hm'. by apply HQ. Qed.

(** What an accrual leaves on the snapshot. *)
Definition accrued (info : Info) (counter : string) (a : ExitAccrual) : Info :=
  infoApplyPatch info (if eaQuarantined a then eaPatch a else literal [(counter, (eaPatch a).[counter])]).

Lemma pass_recordAccrual now id info counter a m (Q : Info → MemStore → Prop) :
  coherent id (m, info) → (∀ m', coherent id (m', accrued info counter a) → Q (accrued info counter a) m') →
  pass now (recordAccrual info counter a) m Q.
Proof.
  intros Hc HQ. unfold recordAccrual, accrued in *. destruct (eaQuarantined a).
  - apply pass_bind, (pass_applyInfo now id); [done|]. intros m' Hm'. by apply HQ.
  - apply pass_bind, (pass_marker now id); [done|]. intros m' Hm'. by apply HQ.
Qed.

Lemma pass_bestEffort now id info p m (Q : Info → MemStore → Prop) :
  coherent id (m, info) → (∀ m', coherent id (m', infoApplyPatch info p) → Q (infoApplyPatch info p) m') →
  pass now (applyBestEffort info p) m Q.
Proof. intros Hc HQ. apply pass_bind, (pass_apply now id); [done|]. intros m' Hm'. by apply HQ. Qed.

(** The conversation reset before a crash is counted. *)
Definition resetForCrash (info : Info) : Info :=
  if (text info "SessionKey" != "") || (text info "StartedConfigHash" != "")
  then infoApplyPatch info (ConversationResetPatch true) else info.

Definition wakeFailure (info : Info) (now : Z) : Info :=
  accrued (resetForCrash info) "wake_attempts"
    (WakeFailureAccrualPatch (AtoiValue (text info "WakeAttemptsMetadata")) defaultMaxWakeAttempts (now + defaultQuarantineDuration)).

Lemma pass_recordWakeFailure t id info now m (Q : Info → MemStore → Prop) :
  coherent id (m, info) → (∀ m', coherent id (m', wakeFailure info now) → Q (wakeFailure info now) m') →
  pass t (recordWakeFailure info now) m Q.
Proof.
  intros Hc HQ. unfold recordWakeFailure, wakeFailure, resetForCrash in *. apply pass_bind.
  destruct ((text info "SessionKey" != "") || (text info "StartedConfigHash" != "")).
  - apply (pass_bestEffort t id); [done|]. intros m' Hm'. by apply (pass_recordAccrual t id).
  - by apply (pass_recordAccrual t id).
Qed.

(** ** The segment keeps the snapshot *)

Section coherence.
Context `{UnicodeTables} (t : Z) (id : string).

Lemma rateLimit_coherent info cfg alive dt now peek m :
  coherent id (m, info) →
  pass t (checkRateLimitStability info cfg alive dt now peek) m
    (λ r m', coherent id (m', r.1.1) ∧ r.2 = None ∧ (r.1.2 = false → r.1.1 = info)).
Proof.
  intros Hc. unfold checkRateLimitStability. destruct (gatherScreen _ _ _) as [reason|dec] eqn:E; [|destruct dec; try done].
  - apply gatherScreen_reason in E. unfold markProviderTerminalError. rewrite bool_decide_false by done.
    apply pass_bind, (pass_applyInfo t id); [done|]. intros m' Hm'. done.
  - unfold recordRateLimitQuarantine. apply pass_bind, pass_bind, (pass_applyInfo t id); [done|]. intros m' Hm'. done.
Qed.

Lemma stability_coherent info cfg alive dt now m :
  coherent id (m, info) →
  pass t (checkStability info cfg alive dt now None) m (λ r m', coherent id (m', r.1) ∧ (r.2 = false → r.1 = info)).
Proof.
  intros Hc. unfold checkStability. apply pass_bind. eapply pass_mono; [by apply rateLimit_coherent|].
  intros [[next handled] err] m1 (Hm1 & He & Hn). cbn [fst snd] in *. subst err. destruct handled; [done|]. rewrite Hn in Hm1 by done.
  destruct (DecideSessionExit _); try done.
  apply pass_bind, (pass_recordWakeFailure t id); [done|]. intros m2 Hm2.
  apply pass_bind, (pass_clearLastWokeAt t id); [done|]. intros m3 Hm3. done.
Qed.

Lemma clearChurn_coherent info m :
  coherent id (m, info) → pass t (clearChurn info) m (λ i m', coherent id (m', i)).
Proof.
  intros Hc. unfold clearChurn. destruct ((text info "ChurnCount" == "") || (text info "ChurnCount" == "0")); [done|].
  apply pass_bind, (pass_marker t id); [done|]. intros m' Hm'. done.
Qed.

Lemma clearWakeFailures_coherent info m :
  coherent id (m, info) → pass t (clearWakeFailures info) m (λ i m', coherent id (m', i)).
Proof.
  intros Hc. unfold clearWakeFailures. set (batch := if text info "QuarantinedUntil" != "" then _ else _). clearbody batch.
  case_bool_decide; [done|]. apply pass_bind, (pass_applyInfo t id); [done|]. intros m' Hm'. done.
Qed.

Lemma recordChurn_coherent info now m :
  coherent id (m, info) → pass t (recordChurn info now) m (λ i m', coherent id (m', i)).
Proof.
  intros Hc. unfold recordChurn. apply pass_bind. destruct (text info "SessionKey" != "").
  - apply (pass_bestEffort t id); [done|]. intros m' Hm'. by apply (pass_recordAccrual t id).
  - by apply (pass_recordAccrual t id).
Qed.

Lemma churn_coherent info cfg alive dt now m :
  coherent id (m, info) →
  pass t (checkChurn info cfg alive dt now) m (λ r m', coherent id (m', r.1)).
Proof.
  intros Hc. unfold checkChurn. destruct (DecideSessionExit _); try done.
  - apply pass_bind. eapply pass_mono; [by apply recordChurn_coherent|]. intros i1 m1 H1.
    apply pass_bind, (pass_clearLastWokeAt t id); [done|]. intros m2 H2. done.
  - apply pass_bind. eapply pass_mono; [by apply clearChurn_coherent|]. done.
Qed.

Lemma heal_coherent info alive now timeout rollback m :
  coherent id (m, info) →
  pass t (healStateWithRollbackInfo info alive now timeout rollback) m
    (λ r m', r.2 = None ∧ coherent id (m', infoApplyPatch info r.1)).
Proof.
  intros Hc. unfold healStateWithRollbackInfo. destruct (iClosed info); [by unfold pass; cbn [run fst snd]; rewrite fold_empty|].
  generalize (healStatePatchWithRollbackInfo info alive now timeout rollback). intros batch.
  case_bool_decide; [by unfold pass; cbn [run fst snd]; rewrite fold_empty|].
  apply pass_bind, (pass_apply t id); [done|]. intros m' Hm'. done.
Qed.

Lemma info_ext_meta b (meta meta' : gmap string string) :
  (∀ k, meta.[k] = meta'.[k]) → infoFromPersistedBead (setMetadataMap b meta) = infoFromPersistedBead (setMetadataMap b meta').
Proof. intros Hm. unfold infoFromPersistedBead. apply project_ext, Forall_forall. intros ks _. apply Hm. Qed.

(** Writing the value a key already has changes nothing. *)
Lemma fold_same m info k s f (patch : MetadataPatch) :
  coherent id (m, info) → assoc k infoKeyCodec = Some s → textField s = Some f → patch !! k = None →
  infoApplyPatch info (<[k := text info f]> patch) = infoApplyPatch info patch.
Proof.
  intros (b & Hs & Hi) Hk Hf Hp. cbn [snd] in Hi. subst info. rewrite (info_text b k s f), !infoApplyPatch_info by done.
  apply info_ext_meta. intros k'. change ((Apply (<[k:=(bMetadata b).[k]]> patch) (bMetadata b)).[k'] = (Apply patch (bMetadata b)).[k']).
  rewrite !Apply_get. destruct (decide (k' = k)) as [->|Hne]; [by rewrite lookup_insert_eq, Hp|by rewrite lookup_insert_ne].
Qed.

Lemma idle_coherent info running now m :
  coherent id (m, info) →
  pass t (recoverPendingIdleSleepInfo info running now) m
    (λ r m', coherent id (m', if r then infoApplyPatch info (SleepPatch now SleepReasonIdle) else info)).
Proof.
  intros Hc. unfold recoverPendingIdleSleepInfo. destruct (running || _); [done|].
  assert (infoApplyPatch info (if text info "SleepPolicyFingerprint" != ""
    then <["sleep_policy_fingerprint" := text info "SleepPolicyFingerprint"]> (SleepPatch now SleepReasonIdle)
    else SleepPatch now SleepReasonIdle) = infoApplyPatch info (SleepPatch now SleepReasonIdle)) as Hsame.
  { destruct (text info "SleepPolicyFingerprint" != ""); [|done].
    apply (fold_same m info "sleep_policy_fingerprint" (Text "SleepPolicyFingerprint")); [done|reflexivity|done|].
    unfold SleepPatch. by rewrite lookup_literal. }
  apply pass_bind, (pass_apply t id); [done|]. intros m' Hm'. rewrite Hsame in Hm'. done.
Qed.

Lemma detached_coherent info tracked attached now m :
  coherent id (m, info) →
  pass t (reconcileDetachedAtInfo info tracked attached now) m (λ p m', coherent id (m', infoApplyPatch info p)).
Proof.
  intros Hc.
  assert (∀ v, pass t (markDetached info v) m (λ p m', coherent id (m', infoApplyPatch info p))) as Hmark.
  { intros v. apply pass_bind, (pass_marker t id); [done|]. intros m' Hm'. done. }
  assert (pass t (Ret ∅) m (λ p m', coherent id (m', infoApplyPatch info p))) as Hret
    by (unfold pass; cbn [run fst snd]; rewrite fold_empty; exact Hc).
  unfold reconcileDetachedAtInfo.
  repeat match goal with |- context [if ?b then _ else _] => destruct b | |- context [match ?x with _ => _ end] => destruct x end;
    first [exact Hret | apply Hmark].
Qed.

(** The pass works on the truth: with a working store, the snapshot the exit
    segment of the pass returns is exactly what reading the session again would
    give, whichever of its lanes it took and however many writes it made. *)
Theorem exit_segment_coherent info cfg dt o m :
  Get m id = Ok info →
  let r := run (memFront t) (exitSegment info cfg dt o) m in Get r.2 id = Ok r.1.1.
Proof.
  intros Hg. apply Get_stored in Hg. assert (coherent id (m, info)) as Hc by done. clear Hg.
  cut (pass t (exitSegment info cfg dt o) m (λ r m', coherent id (m', r.1))).
  { intros Hp. apply Get_stored. exact Hp. }
  unfold exitSegment. apply pass_bind. eapply pass_mono; [by apply rateLimit_coherent|].
  intros [[next handled] err] m1 (Hm1 & He & Hn). cbn [fst snd] in *. subst err. destruct handled; [done|]. rewrite Hn in Hm1 by done.
  apply pass_bind. eapply pass_mono; [by apply heal_coherent|]. intros [batch err] m2 [He Hm2]. cbn [fst snd] in *. subst err.
  apply pass_bind. eapply pass_mono; [by apply idle_coherent|]. intros recovered m3 Hm3. cbn beta in Hm3.
  apply pass_bind. eapply pass_mono; [by apply detached_coherent|]. intros detached m4 Hm4. cbn beta in Hm4.
  set (alive := if recovered then false else obAlive o) in *. clearbody alive.
  set (i4 := infoApplyPatch _ detached) in *. clearbody i4.
  apply pass_bind. eapply pass_mono; [by apply stability_coherent|]. intros [i5 stab] m5 [Hm5 Hs]. cbn [fst snd] in *.
  destruct stab; [done|]. rewrite Hs in Hm5 by done.
  apply pass_bind. eapply pass_mono; [by apply churn_coherent|]. intros [i6 churn] m6 Hm6. cbn [fst snd] in *.
  destruct churn; [done|]. apply pass_bind.
  apply (pass_mono _ _ _ (λ i m', coherent id (m', i))).
  { destruct (alive && _); [by apply clearWakeFailures_coherent|done]. }
  intros i7 m7 Hm7. apply pass_bind. apply (pass_mono _ _ _ (λ i m', coherent id (m', i))); [|done].
  destruct (alive && _); [by apply clearChurn_coherent|done].
Qed.
End coherence.

(** ** Crash loops *)

Lemma AtoiValue_Atoi s z : Atoi s = Some z → AtoiValue s = z.
Proof.
  assert (∀ z z' : Z, (if decide (in_int64 z) then Some z else None) = Some z' → Z.max minInt64 (Z.min maxInt64 z) = z') as Hc.
  { intros z1 z2. case_decide as E; [|done]. intros [= ->]. unfold in_int64 in E. lia. }
  unfold Atoi, AtoiValue. destruct s as [|[[] [] [] [] [] [] [] []] r]; destruct (parseDigits _); done || apply Hc.
Qed.

(** One wake that ends in a rapid crash: the start is recorded and confirmed,
    and a tick finds the session dead within the stability threshold. *)
Record CrashCycle := mkCrashCycle {
  ccWake : PreWakePatchInput;
  ccConfirmed : Z;
  ccFound : Z
}.

Definition rapid (c : CrashCycle) : Prop :=
  let woke := pwNow (ccWake c) in
  civilRange woke ∧ civilRange (ccFound c + defaultQuarantineDuration) ∧ woke ≤ ccFound c ∧
  ccFound c < woke - woke mod Second + stabilityThreshold.

(** What the cycle leaves on a snapshot. *)
Definition woken (clk : Z) (info : Info) (c : CrashCycle) : Info :=
  infoApplyPatch (infoApplyPatch info (PreWakePatch clk (ccWake c))) (ConfirmStartedPatch clk (ccConfirmed c)).

Lemma PreWake_lookup clk input k :
  In k ["wake_attempts"; "quarantined_until"] → PreWakePatch clk input !! k = None.
Proof.
  intros Hk. unfold PreWakePatch. destruct Hk as [<-|[<-|[]]]; destruct (pwFreshWake input);
    unfold applyFreshWakeConversationReset, clearPrimingMarkers; rewrite ?lookup_clearKeys; key_in;
    rewrite ?lookup_insert_ne by done; by rewrite lookup_literal.
Qed.

Lemma PreWake_stamp clk input : PreWakePatch clk input !! "last_woke_at" = Some (FormatRFC3339 (pwNow input)).
Proof.
  unfold PreWakePatch. destruct (pwFreshWake input);
    unfold applyFreshWakeConversationReset, clearPrimingMarkers; rewrite ?lookup_clearKeys; key_in;
    rewrite ?lookup_insert_ne by done; by rewrite lookup_literal.
Qed.

Section crash.
Context `{UnicodeTables} (t clk : Z) (id : string) (cfg : option ExitConfig) (dt : gset string).

Definition notExempt : Prop := id ∉ dt ∧ match cfg with Some c => ecProvider c ≠ "subprocess" | None => True end.

Definition crashCycle (st : MemStore * Info) (c : CrashCycle) : MemStore * Info :=
  let st := writeFold t id (WPatch (PreWakePatch clk (ccWake c))) st in
  let '(m, info) := writeFold t id (WPatch (ConfirmStartedPatch clk (ccConfirmed c))) st in
  let r := run (memFront t) (checkStability info cfg false dt (ccFound c) None) m in
  (r.2, r.1.1).

Lemma patch_folds p st :
  coherent id st → ∃ m', writeFold t id (WPatch p) st = (m', infoApplyPatch st.2 p).
Proof.
  intros Hc. destruct st as [m info]. cbn [writeFold snd]. unfold ApplyPatchInfo.
  case_bool_decide as E; [exists m; cbn [fst snd]; by rewrite E, fold_empty|].
  assert (pass t (frontApply (iID info) p) m (λ r m', r = None)) as Hp by by apply (pass_apply t id).
  unfold pass, frontApply in Hp. rewrite bool_decide_false in Hp by done. cbn [run trigger memFront] in Hp. unfold answerOf in Hp.
  destruct (ApplyPatch t (iID info) p m) as [[u|e] m']; [|done]. by exists m'.
Qed.

Lemma woken_rapid info c :
  iID info = id → notExempt → rapid c →
  DecideSessionExit (sessionExitFactsInfo (woken clk info c) cfg false dt (ccFound c)) = ExitRapidCrash.
Proof.
  intros Hid [Hdt Hcfg] (Hw & _ & Hle & Hlt). apply exit_lanes; [done|].
  assert (text (woken clk info c) "LastWokeAt" = FormatRFC3339 (pwNow (ccWake c))) as Hs.
  { unfold woken. fold_reads. unfold ConfirmStartedPatch. rewrite lookup_literal. cbn [assoc]. patch_get.
    by rewrite PreWake_stamp. }
  unfold crashCandidate, lifetime, sessionExitFactsInfo. cbn [xfAlive xfSubprocessProvider xfDrainPending xfLastWokeAt
    xfPendingCreateStartInFlight xfNow xfStabilityThreshold].
  assert (parseWakeStamp (text (woken clk info c) "LastWokeAt") = Some (pwNow (ccWake c) - pwNow (ccWake c) mod Second)) as Hp.
  { rewrite Hs. unfold parseWakeStamp. rewrite bool_decide_false by by apply Format_nonempty. by apply Parse_Format. }
  rewrite Hp. match goal with |- context [default 0 (Some ?x)] => change (default 0 (Some x)) with x end.
  split_and!; [reflexivity| | |by eexists| |].
  - destruct cfg as [c0|]; [|reflexivity]. by apply bool_decide_eq_false.
  - apply bool_decide_eq_false. unfold woken. by rewrite !fold_id, Hid.
  - unfold pendingCreateStartInFlightInfo.
    assert (flag (woken clk info c) "PendingCreateClaim" = false) as ->.
    { unfold woken. fold_reads. unfold ConfirmStartedPatch. by rewrite lookup_literal. }
    assert (text (woken clk info c) "MetadataState" = StateActive) as ->.
    { unfold woken. fold_reads. unfold ConfirmStartedPatch. by rewrite lookup_literal. }
    reflexivity.
  - unfold timeSub, stabilityThreshold, minInt64, maxInt64, Second, Millisecond in *.
    pose proof (Z.mod_pos_bound (pwNow (ccWake c)) 1000000000). lia.
Qed.

Definition crashed (info : Info) (c : CrashCycle) : Info :=
  infoApplyPatch (wakeFailure (woken clk info c) (ccFound c)) (literal [("last_woke_at", "")]).

Lemma crashCycle_result st c :
  coherent id st → notExempt → rapid c → coherent id (crashCycle st c) ∧ (crashCycle st c).2 = crashed st.2 c.
Proof.
  intros Hc Hex Hr. unfold crashCycle.
  destruct (patch_folds (PreWakePatch clk (ccWake c)) st Hc) as [m1 E1].
  pose proof (patch_coherent t id (PreWakePatch clk (ccWake c)) st Hc) as Hc1. rewrite E1 in *.
  destruct (patch_folds (ConfirmStartedPatch clk (ccConfirmed c)) _ Hc1) as [m2 E2].
  pose proof (patch_coherent t id (ConfirmStartedPatch clk (ccConfirmed c)) _ Hc1) as Hc2. rewrite E2 in *. cbn [snd] in *.
  fold (woken clk st.2 c) in *.
  assert (iID st.2 = id) as Hid by (destruct st; by eapply coherent_id).
  change (pass t (checkStability (woken clk st.2 c) cfg false dt (ccFound c) None) m2
    (λ r m', coherent id (m', r.1) ∧ r.1 = crashed st.2 c)).
  pose proof (woken_rapid st.2 c Hid Hex Hr) as Hd.
  assert (checkRateLimitStability (woken clk st.2 c) cfg false dt (ccFound c) None = Ret (woken clk st.2 c, false, None)) as Hrl.
  { unfold checkRateLimitStability. rewrite (bool_decide_false (is_Some None)) by apply is_Some_None. cbn [gatherScreen].
    change (withScreen ?f false ScreenUnknown) with f. by rewrite Hd. }
  unfold checkStability. rewrite Hrl. cbn [bind]. rewrite Hd.
  apply pass_bind, (pass_recordWakeFailure t id); [done|]. intros m3 Hm3.
  apply pass_bind, (pass_clearLastWokeAt t id); [done|]. intros m4 Hm4. split; [exact Hm4|reflexivity].
Qed.

(** The patches of a cycle that do not touch the counters. *)
Lemma reset_lookup k : In k ["wake_attempts"; "quarantined_until"] → ConversationResetPatch true !! k = None.
Proof.
  unfold ConversationResetPatch, clearPrimingMarkers. intros [<-|[<-|[]]]; rewrite lookup_clearKeys; key_in;
    rewrite lookup_insert_ne by done; by rewrite lookup_literal.
Qed.

Lemma resetForCrash_text info k s f :
  In k ["wake_attempts"; "quarantined_until"] → assoc k infoKeyCodec = Some s → textField s = Some f →
  text (resetForCrash info) f = text info f.
Proof.
  intros Hk Hs Hf. unfold resetForCrash. destruct (_ || _); [|done].
  by rewrite (fold_text k s f), (reset_lookup k).
Qed.

Lemma woken_text info c k s f :
  In k ["wake_attempts"; "quarantined_until"] → assoc k infoKeyCodec = Some s → textField s = Some f →
  text (woken clk info c) f = text info f.
Proof.
  intros Hk Hs Hf. unfold woken. rewrite !(fold_text k s f), (PreWake_lookup clk _ k) by done.
  unfold ConfirmStartedPatch. rewrite lookup_literal. by destruct Hk as [<-|[<-|[]]].
Qed.

(** The counter goes up by one; at the limit the session is quarantined. *)
Lemma crashed_counts info c n :
  AtoiValue (text info "WakeAttemptsMetadata") = n → 0 ≤ n < maxInt64 →
  AtoiValue (text (crashed info c) "WakeAttemptsMetadata") = n + 1 ∧
  text (crashed info c) "QuarantinedUntil" =
    (if defaultMaxWakeAttempts <=? n + 1 then FormatRFC3339 (ccFound c + defaultQuarantineDuration) else text info "QuarantinedUntil") ∧
  (defaultMaxWakeAttempts ≤ n + 1 → text (crashed info c) "SleepReason" = SleepReasonQuarantine).
Proof.
  intros Hn Hb. unfold crashed, wakeFailure, accrued.
  rewrite (woken_text info c "wake_attempts" SetWakeAttempts "WakeAttemptsMetadata"), Hn by (done || cbn; tauto).
  unfold WakeFailureAccrualPatch, exitAccrual. rewrite incr64_succ by (unfold in_int64, minInt64; lia).
  assert (AtoiValue (Itoa (n + 1)) = n + 1) as Ha by (apply AtoiValue_Atoi, Atoi_Itoa; unfold in_int64, minInt64; lia).
  fold_reads. rewrite !lookup_literal. cbn [assoc]. repeat (case_bool_decide; [discriminate|]).
  destruct (Z.leb_spec defaultMaxWakeAttempts (n + 1)); cbn [eaQuarantined eaPatch]; rewrite ?lookup_literal; split_and!.
  - exact Ha.
  - reflexivity.
  - reflexivity.
  - exact Ha.
  - rewrite (resetForCrash_text _ "quarantined_until" (Text "QuarantinedUntil")) by (done || cbn; tauto).
    apply (woken_text info c "quarantined_until" (Text "QuarantinedUntil")); [cbn; tauto|reflexivity|done].
  - lia.
Qed.

End crash.

(** ** Healing and leases *)

(** The heal gives up the create claim of a dead session: its failed create has
    no live lease, or its lease has run out and rollback is possible. *)
Definition givesUpClaim (info : Info) (alive : bool) (now startupTimeout : Z) (rollback : bool) : bool :=
  let state := TrimSpace (text info "MetadataState") in
  negb alive && flag info "PendingCreateClaim" &&
  (((state == "failed-create") && negb (pendingCreateLeaseActiveInfo info now 0)) ||
   ((state == "creating") && pendingCreateLeaseExpiredForRollbackInfo info now startupTimeout && rollback)).

Lemma not_drained info alive now state :
  TrimSpace (text info "MetadataState") = state → state = "failed-create" ∨ state = "creating" →
  (lvBaseState (ProjectLifecycle now (LifecycleInputFromInfo info (healFacts info alive now))) == BaseStateDrained) = false.
Proof.
  intros Hs Hst. rewrite view_base. cbn [LifecycleInputFromInfo liStatus liStoredState liSleepReason]. rewrite Hs.
  apply bool_decide_eq_false. unfold projectBaseState. case_bool_decide; [done|]. by destruct Hst as [->| ->].
Qed.

(** Lookups through a stack of insertions and optional insertions. *)
Ltac heal_lookup :=
  repeat match goal with
  | |- context [<[?k:=_]> _ !! ?k] => rewrite lookup_insert_eq
  | |- context [<[_:=_]> _ !! _] => rewrite lookup_insert_ne by discriminate
  | |- context [(if ?b then _ else _) !! _] => destruct b
  end.

Lemma healTail_lease info view target rollback batch k :
  In k ["pending_create_claim"; "pending_create_started_at"] →
  healTail info view target rollback batch !! k = if target == "" then None else batch !! k.
Proof.
  intros [<-|[<-|[]]]; unfold healTail; cbv zeta; (destruct (target == ""); [apply lookup_empty|]); heal_lookup; done.
Qed.

Lemma healTail_state info view target rollback batch :
  healTail info view target rollback batch !! "state" =
    if target == "" then None else if text info "MetadataState" != target then Some target else batch !! "state".
Proof.
  unfold healTail; cbv zeta. destruct (target == ""); [apply lookup_empty|].
  destruct (text info "MetadataState" != target); heal_lookup; done.
Qed.

Ltac red_heal := lazy beta iota zeta delta [andb orb negb].

Definition healView (info : Info) (alive : bool) (now : Z) : LifecycleView :=
  ProjectLifecycle now (LifecycleInputFromInfo info (healFacts info alive now)).

(** The batch for a dead session with a claim that is creating. *)
Lemma heal_creating info now timeout rollback :
  TrimSpace (text info "MetadataState") = "creating" → flag info "PendingCreateClaim" = true →
  let gone := pendingCreateLeaseExpiredForRollbackInfo info now timeout && rollback in
  if gone
  then healStatePatchWithRollbackInfo info false now timeout rollback =
         healTail info (healView info false now) StateAsleep true (clearPendingCreateLeaseInfo true ∅)
  else ∃ target, target ≠ StateAsleep ∧
       healStatePatchWithRollbackInfo info false now timeout rollback = healTail info (healView info false now) target false ∅.
Proof.
  intros Hs Hc. unfold healStatePatchWithRollbackInfo. fold (healView info false now).
  pose proof (not_drained info false now _ Hs (or_intror eq_refl)) as Hnd. fold (healView info false now) in Hnd.
  rewrite Hnd, Hs, Hc. change ("creating" == "failed-create") with false. change ("creating" == "creating") with true.
  set (target := if (_ == "") && _ then _ else _). clearbody target.
  destruct (pendingCreateLeaseExpiredForRollbackInfo info now timeout), rollback; red_heal; [reflexivity|..].
  all: destruct (decide (target = StateAsleep)) as [->|Ht];
    [exists StateCreating; split; [done|reflexivity]|exists target; split; [done|]].
  all: by rewrite (bool_decide_false (target = StateAsleep)).
Qed.

Lemma heal_failed info now timeout rollback :
  TrimSpace (text info "MetadataState") = "failed-create" → flag info "PendingCreateClaim" = true →
  healStatePatchWithRollbackInfo info false now timeout rollback =
    if pendingCreateLeaseActiveInfo info now 0 then ∅
    else healTail info (healView info false now) StateAsleep false (clearPendingCreateLeaseInfo true ∅).
Proof.
  intros Hs Hc. unfold healStatePatchWithRollbackInfo. fold (healView info false now).
  pose proof (not_drained info false now _ Hs (or_introl eq_refl)) as Hnd. fold (healView info false now) in Hnd.
  rewrite Hnd, Hs, Hc. change ("failed-create" == "failed-create") with true. change ("failed-create" == "creating") with false.
  red_heal. by destruct (pendingCreateLeaseActiveInfo info now 0).
Qed.

(** Any other session keeps its lease. *)
Lemma heal_other info alive now timeout rollback k :
  In k ["pending_create_claim"; "pending_create_started_at"] →
  alive = true ∨ flag info "PendingCreateClaim" = false ∨
    (TrimSpace (text info "MetadataState") ≠ "creating" ∧ TrimSpace (text info "MetadataState") ≠ "failed-create") →
  healStatePatchWithRollbackInfo info alive now timeout rollback !! k = None.
Proof.
  intros Hk Hc. unfold healStatePatchWithRollbackInfo. fold (healView info alive now).
  assert (∀ view target rb, healTail info view target rb ∅ !! k = None) as Htail.
  { intros. rewrite healTail_lease by done. by case_match. }
  destruct (negb alive && _).
  { destruct Hk as [<-|[<-|[]]]; repeat case_match; heal_lookup; done. }
  set (target := if (_ == "") && _ then _ else _). clearbody target.
  set (claim := flag info "PendingCreateClaim") in *. set (state := TrimSpace _) in *. clearbody claim state.
  destruct Hc as [->|[->|[H1 H2]]].
  - red_heal. apply Htail.
  - unfold clearPendingCreateLeaseInfo. rewrite andb_false_r. red_heal.
    destruct alive; [apply Htail|]. destruct (state == "failed-create"), (state == "creating"); apply Htail.
  - rewrite (bool_decide_false (state = "failed-create")), (bool_decide_false (state = "creating")) by done.
    rewrite !andb_false_r. red_heal. apply Htail.
Qed.

(** Healing respects the start lease: it gives up the create claim of a
    session exactly when the session is dead and its failed create has no live
    lease, or its lease has run out and rollback is possible; the claim, its
    time stamp and the state (to asleep) then move in one batch, and while a
    dead session is still creating under its lease it is never put to sleep. *)
Theorem heal_respects_lease info alive now timeout rollback :
  let batch := healStatePatchWithRollbackInfo info alive now timeout rollback in
  let gives := givesUpClaim info alive now timeout rollback in
  batch !! "pending_create_claim" = (if gives then Some "" else None) ∧
  batch !! "pending_create_started_at" = (if gives then Some "" else None) ∧
  (gives = true → batch !! "state" = Some StateAsleep) ∧
  (alive = false → TrimSpace (text info "MetadataState") = "creating" → flag info "PendingCreateClaim" = true →
   gives = false → batch !! "state" ≠ Some StateAsleep).
Proof.
  intros batch gives. unfold batch, gives, givesUpClaim. clear batch gives.
  destruct alive; cbn [negb andb].
  { rewrite !heal_other by (cbn; auto). split_and!; try done. }
  destruct (flag info "PendingCreateClaim") eqn:Hc; cbn [andb].
  2:{ rewrite !heal_other by (cbn; auto). split_and!; try done. }
  assert (∀ v rb, TrimSpace (text info "MetadataState") ≠ StateAsleep →
    healTail info v StateAsleep rb (clearPendingCreateLeaseInfo true ∅) !! "pending_create_claim" = Some "" ∧
    healTail info v StateAsleep rb (clearPendingCreateLeaseInfo true ∅) !! "pending_create_started_at" = Some "" ∧
    healTail info v StateAsleep rb (clearPendingCreateLeaseInfo true ∅) !! "state" = Some StateAsleep) as Hgive.
  { intros v rb Hs. rewrite !healTail_lease by (cbn; auto). rewrite healTail_state. split_and!; [done..|].
    rewrite (bool_decide_false (text info "MetadataState" = StateAsleep)); [done|].
    intros E. apply Hs. by rewrite E. }
  destruct (decide (TrimSpace (text info "MetadataState") = "creating")) as [Hs|Hs];
    [|destruct (decide (TrimSpace (text info "MetadataState") = "failed-create")) as [Hf|Hf]].
  - pose proof (heal_creating info now timeout rollback Hs Hc) as Hh. cbv zeta in Hh. rewrite Hs in *.
    change ("creating" == "failed-create") with false. change ("creating" == "creating") with true. cbn [andb orb].
    destruct (pendingCreateLeaseExpiredForRollbackInfo info now timeout && rollback).
    + rewrite Hh. destruct (Hgive (healView info false now) true) as (-> & -> & ->); [done|]. split_and!; done.
    + destruct Hh as (target & Ht & ->). rewrite !healTail_lease by (cbn; auto). rewrite healTail_state.
      split_and!; [by case_match..|done|]. intros _ _ _ _. repeat case_match; rewrite ?lookup_empty; congruence.
  - rewrite (heal_failed info now timeout rollback Hf Hc). rewrite Hf in *.
    change ("failed-create" == "failed-create") with true. change ("failed-create" == "creating") with false. cbn [andb orb].
    destruct (pendingCreateLeaseActiveInfo info now 0); cbn [negb orb]; [split_and!; done|].
    destruct (Hgive (healView info false now) false) as (-> & -> & ->); [done|]. split_and!; done.
  - rewrite !heal_other by (cbn; auto). rewrite !bool_decide_false by done. split_and!; try done.
Qed.
