(* ===== verification/SessionScenarios.v ===== *)
(** * SessionScenarios: concrete sessions that meet the hypotheses

    One stored session and a few ticks of its life.  Each scenario applies a
    theorem about sessions at a concrete input. *)

From S2P Require Import Prelude GoBase GoText GoTime GoTimeProps Beads MemStore Prog.
From S2P Require Import SessionState SessionExits SessionInfo SessionInfoProps SessionView SessionViewProps SessionPatchProps.
From S2P Require Import SessionTimers SessionTimersProps SessionReconcile SessionReconcileProps SessionPassProps.

Local Open Scope Z_scope.

#[local] Instance sessionTables : UnicodeTables :=
  {| lowerTable := λ r, r; letterTable := λ _, false; digitTable := λ _, false |}.

(** ** A session *)

(** 1 January 2026. *)
Definition newYear : Z := 739616 * Day.

Example newYear_text : FormatRFC3339 newYear = "2026-01-01T00:00:00Z".
Proof. vm_compute. reflexivity. Qed.

Definition sessionMeta : gmap string string :=
  list_to_map [("state", StateActive); ("session_name", "mayor"); ("template", "mayor"); ("session_key", "k1")].

Definition mayor : Bead :=
  setMetadataMap (setLabels (setCreatedAt (setType (setStatus (setID zeroBead "gc-7") "open") BeadType) newYear) [LabelSession]) sessionMeta.

Definition cityStore : MemStore := NewMemStoreFrom 9 [mayor] [].

Definition mayorInfo : Info := infoFromPersistedBead mayor.

Lemma mayor_stored : Get cityStore "gc-7" = Ok mayorInfo.
Proof. apply Get_stored. exists mayor. split; [|reflexivity]. split; [by exists O|]. split; [done|reflexivity]. Qed.

(** ** Snapshots *)

Lemma snapshot_coherent_witness :
  let st := writeAll (λ n, newYear + Z.of_nat n) "gc-7" [WMarker "pin_awake" "true"; WPatch (SleepPatch newYear "idle"); WClose "drained" newYear] (cityStore, mayorInfo) in
  Get st.1 "gc-7" = Ok st.2.
Proof. exact (snapshot_coherent _ _ _ _ _ mayor_stored). Defined.

Lemma snapshot_view_agrees_witness :
  LifecycleIdentityReleasedInfo newYear mayorInfo = LifecycleIdentityReleased newYear "open" sessionMeta.
Proof. apply (snapshot_view_agrees newYear mayor noFacts newYear None). by intros. Defined.

Lemma quarantine_window_witness :
  HasBlocker (ProjectLifecycle newYear (LifecycleInputFromMetadata "open"
    (Apply (QuarantinePatch (newYear + Minute) 1) sessionMeta) (factsAt newYear))) BlockerQuarantined = true.
Proof.
  refine (proj1 (quarantine_window newYear "open" sessionMeta (factsAt newYear) (newYear + Minute) _ _ _ _ _)).
  - constructor.
  - vm_compute. split; congruence.
  - vm_compute. congruence.
  - done.
Defined.

Lemma wake_request_runs_witness :
  lvDesiredState (ProjectLifecycle newYear (LifecycleInputFromMetadata "open"
    (Apply (RequestWakePatch newYear "work" newYear) sessionMeta) (factsAt newYear))) = DesiredStateRunning.
Proof.
  apply (wake_request_runs newYear "open" sessionMeta (factsAt newYear)).
  - constructor.
  - vm_compute. reflexivity.
  - vm_compute. repeat split; congruence.
Defined.

Lemma retire_releases_witness :
  LifecycleIdentityReleased newYear "open" (Apply (RetireNamedSessionPatch newYear "removed" "mayor") sessionMeta) = true.
Proof. apply (retire_releases newYear "open" sessionMeta newYear "removed" "mayor"). done. Defined.

(** ** Commands and priming *)

Lemma allowed_commands_exact_witness :
  AllowedCommands (rev transitions) StateDraining = [CmdArchive; CmdClose].
Proof.
  destruct (allowed_commands_exact (rev transitions) StateDraining) as [H _].
  - symmetry. apply Permutation_rev.
  - rewrite H. vm_compute. reflexivity.
Defined.

Definition started : CommitStartedPatchInput :=
  mkCommitStartedPatchInput "h" "l" "p" "q" "" true true true true newYear newYear "prompt".

Lemma priming_lifetime_witness :
  primingOK (foldl (λ meta p, Apply p meta) ∅ [CommitStartedPatch newYear started; RestartRequestPatch newYear "" newYear]).
Proof. apply priming_lifetime. constructor; [by apply w_commit|]. constructor; [apply w_restart|constructor]. Defined.

(** ** Timers *)

Definition busy : IdleTick :=
  mkIdleTick "mayor" "mayor" mayorInfo (Some (newYear - Hour)) (mkProbes false (Some true)) newYear.

Lemma idle_stops_exactly_witness :
  let it := setTimeout "mayor" Minute newIdleTracker in
  let m := foldl (λ m t, (passTick it 0 t m).2) newAssignedWorkDeferTracker [busy; busy; busy] in
  tdAction (passTick it 0 busy m).1 = TimerActionStop.
Proof.
  apply (idle_stops_exactly (setTimeout "mayor" Minute newIdleTracker) 0 newAssignedWorkDeferTracker [busy; busy; busy] busy).
  - reflexivity.
  - vm_compute. reflexivity.
  - split; [vm_compute; reflexivity|]. right. split; [|vm_compute; reflexivity].
    vm_compute. repeat split; congruence.
Defined.

(** ** Deaths *)

Lemma exit_lanes_witness :
  DecideSessionExit (mkExitFacts false false false false false "" (FormatRFC3339 newYear) (newYear + Minute)
    stabilityThreshold churnProductivityThreshold false ScreenUnknown) = ExitChurn.
Proof.
  apply exit_lanes; [reflexivity|]. vm_compute. repeat split; try congruence. by eexists.
Defined.

Definition wakeAt (t : Z) : CrashCycle :=
  mkCrashCycle (mkPreWakePatchInput 1 "tok" 1 t "" false) t (t + 5 * Second).

Definition deadMayor : Info := infoApplyPatch mayorInfo (literal [("last_woke_at", FormatRFC3339 newYear)]).

Definition deathPass : prog FrontOp (Info * bool) := checkStability deadMayor None false ∅ (newYear + 5 * Second) None.

Lemma death_recorded : (run (memFront newYear) deathPass cityStore).1.2 = true.
Proof. vm_compute. reflexivity. Qed.

Lemma death_counted_once_witness :
  let info' := (run (memFront newYear) deathPass cityStore).1.1 in
  checkChurn info' None false ∅ (newYear + Minute) = Ret (info', false).
Proof.
  refine (proj1 (proj2 (death_counted_once deadMayor None false ∅ (newYear + 5 * Second) None
    (runTrace (memFront newYear) deathPass cityStore) _ _ None false ∅ (newYear + Minute) None))).
  left. rewrite <-death_recorded, <-surjective_pairing. apply runTrace_exec.
Defined.

Definition ticked : Observation := mkObservation false false (Some (Some "Usage limit reached")) (λ _, false) None (newYear + Minute).

Lemma exit_segment_coherent_witness :
  let r := run (memFront newYear) (exitSegment mayorInfo None ∅ ticked) cityStore in Get r.2 "gc-7" = Ok r.1.1.
Proof. exact (exit_segment_coherent newYear "gc-7" mayorInfo None ∅ ticked cityStore mayor_stored). Defined.

(** Five wakes, a minute apart, each found dead after five seconds. *)
Definition fiveCrashes : list CrashCycle := (λ n, wakeAt (newYear + n * Minute)) <$> [1; 2; 3; 4; 5].

