(* ===== verification/AwakeSet.v ===== *)
(** * AwakeSet: which sessions should be awake

    Models [cmd/gc/compute_awake_set.go]: a pure function from the configured
    agents and named sessions, the session beads, the assigned work and the
    demand signals to one decision per session name.  A Go map that is only
    looked up is a finite map or set; the two maps the code ranges over
    ([ScaleCheckCounts], [WorkSet]) are also given in the order of the visit,
    which Go leaves open.  [sort.Slice] by bead ID is a merge sort: IDs are
    distinct. *)

From Stdlib Require Import Ascii.
From S2P Require Import Prelude GoBase GoText SessionState.

Local Open Scope Z_scope.

Definition defaultOnDemandIdleTimeout : Z := 5 * Minute.

(** ** Data *)

Record AwakeAgent := mkAwakeAgent {
  aaQualifiedName : string;
  aaDependsOn : list string;
  aaSuspended : bool;
  aaSleepAfterIdle : Z;
  aaMinActiveSessions : Z
}.

Record AwakeNamedSession := mkAwakeNamedSession {
  nsIdentity : string;
  nsTemplate : string;
  nsMode : string;
  nsRuntimeName : string
}.

Record AwakeSessionBead := mkAwakeSessionBead {
  sbID : string;
  sbSessionName : string;
  sbTemplate : string;
  sbState : string;
  sbSleepReason : string;
  sbManualSession : bool;
  sbPendingCreate : bool;
  sbExplicitWake : bool;
  sbDependencyOnly : bool;
  sbNamedIdentity : string;
  sbConfiguredNamedSession : bool;
  sbPinned : bool;
  sbDrained : bool;
  sbWaitHold : bool;
  sbHeldUntil : Z;
  sbQuarantinedUntil : Z;
  sbIdleSince : Z;
  sbCreatedAt : Z;
  sbRestartRequested : bool;
  sbContinuationResetPending : bool;
  sbCurrentlyProcessingBeadID : string
}.

Record AwakeWorkBead := mkAwakeWorkBead {
  wbID : string;
  wbAssignee : string;
  wbStatus : string;
  wbReady : bool
}.

Record AwakeInput := mkAwakeInput {
  aiAgents : list AwakeAgent;
  aiNamedSessions : list AwakeNamedSession;
  aiSessionBeads : list AwakeSessionBead;
  aiWorkBeads : list AwakeWorkBead;
  aiScaleCheckCounts : gmap string Z;
  aiNamedSessionDemand : gset string;
  aiNamedSessionRoutedDemand : gset string;
  aiNamedSessionWorkQ : gset string;
  aiWorkSet : gmap string bool;
  aiRunningSessions : gset string;
  aiAttachedSessions : gset string;
  aiPendingSessions : gset string;
  aiReadyWaitSet : gset string;
  aiChatIdleTimeout : Z;
  aiManualGracePeriod : Z;
  aiNow : Z
}.

Record AwakeDecision := mkAwakeDecision {
  adShouldWake : bool;
  adReason : string;
  adHasAssignedWork : bool;
  adAssignedWorkBeadID : string;
  adRequiresFreshCycle : bool
}.

Abbreviation Desired := (gmap string string) (only parsing).

Definition member (s : string) (m : gset string) : bool := bool_decide (s ∈ m).

(** ** Agents *)

Definition awakeAgentBaseName (name : string) : string :=
  match LastIndex name "/" with
  | Some idx => sdrop (S idx) name
  | None => name
  end.

(** The three tables: agents by qualified name, by base name, and the base
    names that several agents share. *)
Record AgentTables := mkAgentTables {
  atByName : gmap string AwakeAgent;
  atByBase : gmap string AwakeAgent;
  atDuplicate : gset string
}.

Definition addAgent (t : AgentTables) (a : AwakeAgent) : AgentTables :=
  let byName := <[a.(aaQualifiedName) := a]> t.(atByName) in
  let base := awakeAgentBaseName a.(aaQualifiedName) in
  let other := match t.(atByBase) !! base with Some e => e.(aaQualifiedName) != a.(aaQualifiedName) | None => false end in
  if other then mkAgentTables byName t.(atByBase) ({[base]} ∪ t.(atDuplicate))
  else if negb (member base t.(atDuplicate)) then mkAgentTables byName (<[base := a]> t.(atByBase)) t.(atDuplicate)
  else mkAgentTables byName t.(atByBase) t.(atDuplicate).

Definition agentTables (agents : list AwakeAgent) : AgentTables := foldl addAgent (mkAgentTables ∅ ∅ ∅) agents.

Definition lookupAgent (t : AgentTables) (name : string) : option AwakeAgent :=
  match t.(atByName) !! name with
  | Some a => Some a
  | None =>
      let base := awakeAgentBaseName name in
      if member base t.(atDuplicate) then None else t.(atByBase) !! base
  end.

Definition suspended (a : option AwakeAgent) : bool := match a with Some a => a.(aaSuspended) | None => false end.
Definition runnable (a : option AwakeAgent) : bool := match a with Some a => negb a.(aaSuspended) | None => false end.

(** ** Named sessions *)

Definition findNamedSessionName (beads : list AwakeSessionBead) (identity : string) : string :=
  match find (λ b, b.(sbNamedIdentity) == identity) beads with
  | Some b => b.(sbSessionName)
  | None => ""
  end.

Definition findBeadBySessionName (beads : list AwakeSessionBead) (name : string) : option AwakeSessionBead :=
  find (λ b, b.(sbSessionName) == name) beads.

Definition resolveNamedSessionBeadName (beads : list AwakeSessionBead) (ns : AwakeNamedSession) : string :=
  let sn := findNamedSessionName beads ns.(nsIdentity) in
  if sn != "" then sn
  else if ns.(nsRuntimeName) == "" then ""
  else match findBeadBySessionName beads ns.(nsRuntimeName) with
  | None => ""
  | Some bead =>
      if negb bead.(sbConfiguredNamedSession) then ""
      else if (ns.(nsTemplate) != "") && (bead.(sbTemplate) != ns.(nsTemplate)) then ""
      else if (bead.(sbNamedIdentity) != "") && (bead.(sbNamedIdentity) != ns.(nsIdentity)) then ""
      else bead.(sbSessionName)
  end.

Definition isNamedSessionTemplate (named : list AwakeNamedSession) (template : string) : bool :=
  existsb (λ ns, ns.(nsTemplate) == template) named.

Definition namedSessionMatches (named : list AwakeNamedSession) (bead : AwakeSessionBead) (mode : string) : bool :=
  existsb (λ ns,
    if ns.(nsMode) != mode then false
    else if (bead.(sbNamedIdentity) != "") && (ns.(nsIdentity) == bead.(sbNamedIdentity)) then true
    else (bead.(sbNamedIdentity) == "") && bead.(sbConfiguredNamedSession) && (ns.(nsRuntimeName) != "") &&
         (ns.(nsRuntimeName) == bead.(sbSessionName)) && ((ns.(nsTemplate) == "") || (ns.(nsTemplate) == bead.(sbTemplate)))) named.

Definition isOnDemandSession (named : list AwakeNamedSession) (bead : AwakeSessionBead) : bool :=
  namedSessionMatches named bead "on_demand".

Definition isAlwaysNamedSession (named : list AwakeNamedSession) (bead : AwakeSessionBead) : bool :=
  namedSessionMatches named bead "always".

(** ** Assigned work *)

Definition workBeadHasAwakeDemand (wb : AwakeWorkBead) : bool :=
  if wb.(wbStatus) == "in_progress" then true
  else if wb.(wbStatus) == "open" then wb.(wbReady)
  else false.

Definition sessionAssigneeMatches (named : list AwakeNamedSession) (bead : AwakeSessionBead) (assignee : string) : bool :=
  if assignee == "" then false
  else if (assignee == bead.(sbID)) || (assignee == bead.(sbSessionName)) then true
  else if bead.(sbNamedIdentity) != "" then assignee == bead.(sbNamedIdentity)
  else if negb bead.(sbConfiguredNamedSession) then false
  else existsb (λ ns,
    if (ns.(nsRuntimeName) == "") || (ns.(nsRuntimeName) != bead.(sbSessionName)) then false
    else if (ns.(nsTemplate) != "") && (ns.(nsTemplate) != bead.(sbTemplate)) then false
    else assignee == ns.(nsIdentity)) named.

(** A work bead that keeps the session awake. *)
Definition keepsAwake (named : list AwakeNamedSession) (bead : AwakeSessionBead) (wb : AwakeWorkBead) : bool :=
  let assignee := TrimSpace wb.(wbAssignee) in
  if (assignee == "") || negb (workBeadHasAwakeDemand wb) then false
  else sessionAssigneeMatches named bead assignee.

Definition sessionHasAssignedWork (work : list AwakeWorkBead) (named : list AwakeNamedSession) (bead : AwakeSessionBead) : bool :=
  existsb (keepsAwake named bead) work.

(** ** Pool candidates *)

Definition isCreatingCandidateState (state : string) : bool := oneOf state [StateStartPending; StateCreating].

Definition poolBead (b : AwakeSessionBead) : bool :=
  (b.(sbNamedIdentity) == "") && negb b.(sbConfiguredNamedSession) && negb b.(sbManualSession) && negb b.(sbDrained) &&
  negb b.(sbDependencyOnly).

Definition collectActiveBeads (beads : list AwakeSessionBead) (template : string) : list AwakeSessionBead :=
  List.filter (λ b, (b.(sbTemplate) == template) && (b.(sbState) == "active") && poolBead b) beads.

Definition collectCreatingBeads (beads : list AwakeSessionBead) (template : string) : list AwakeSessionBead :=
  List.filter (λ b, (b.(sbTemplate) == template) && isCreatingCandidateState b.(sbState) && poolBead b) beads.

Definition countAssignedScaleSlots (beads : list AwakeSessionBead) (work : list AwakeWorkBead) (named : list AwakeNamedSession)
    (template : string) : Z :=
  Z.of_nat (length (List.filter (λ b,
    if (b.(sbTemplate) != template) || (b.(sbState) == "closed") then false
    else if (b.(sbNamedIdentity) != "") || b.(sbConfiguredNamedSession) || b.(sbManualSession) then false
    else sessionHasAssignedWork work named b) beads)).

Definition isMinActivePoolBead (b : AwakeSessionBead) (template : string) : bool :=
  (b.(sbTemplate) == template) && (b.(sbNamedIdentity) == "") && negb b.(sbConfiguredNamedSession) &&
  negb b.(sbManualSession) && negb b.(sbDrained) && negb b.(sbDependencyOnly) && (b.(sbState) != "closed").

(** A deadline still ahead. *)
Definition ahead (deadline now : Z) : bool := negb (IsZero deadline) && (now <? deadline).

Definition minActiveHardBlocked (b : AwakeSessionBead) (now : Z) : bool :=
  b.(sbWaitHold) || ahead b.(sbHeldUntil) now || ahead b.(sbQuarantinedUntil) now.

Definition coversMin (desired : Desired) (template : string) (now : Z) (b : AwakeSessionBead) : bool :=
  if negb (isMinActivePoolBead b template) then false
  else if minActiveHardBlocked b now then false
  else if b.(sbState) == "asleep" then bool_decide (is_Some (desired !! b.(sbSessionName)))
  else (b.(sbState) == "active") || (b.(sbState) == "creating").

Definition countMinActiveCovered (beads : list AwakeSessionBead) (desired : Desired) (template : string) (now : Z) : Z :=
  Z.of_nat (length (List.filter (coversMin desired template now) beads)).

Definition idLe (a b : AwakeSessionBead) : Prop := sltb b.(sbID) a.(sbID) = false.

#[export] Instance idLe_dec : RelDecision idLe.
Proof. intros a b. unfold idLe. apply _. Defined.

Definition cityStopPoolBeads (beads : list AwakeSessionBead) (template : string) : list AwakeSessionBead :=
  merge_sort idLe (List.filter (λ b,
    isMinActivePoolBead b template && (b.(sbState) == "asleep") && (b.(sbSleepReason) == SleepReasonCityStop)) beads).

Definition inManualGracePeriod (bead : AwakeSessionBead) (gracePeriod now : Z) : bool :=
  bead.(sbManualSession) && (0 <? gracePeriod) && negb (IsZero bead.(sbCreatedAt)) && (timeSub now bead.(sbCreatedAt) <? gracePeriod).

(** ** The passes over the demand *)

Definition pendingCreatePass (beads : list AwakeSessionBead) (desired : Desired) : Desired :=
  foldl (λ d b, if negb b.(sbPendingCreate) then d else <[b.(sbSessionName) := "pending-create"]> d) desired beads.

Definition explicitWakePass (t : AgentTables) (beads : list AwakeSessionBead) (desired : Desired) : Desired :=
  foldl (λ d b,
    if negb b.(sbExplicitWake) || (b.(sbState) == "closed") || b.(sbDependencyOnly) then d
    else if runnable (t.(atByName) !! b.(sbTemplate)) then <[b.(sbSessionName) := "explicit-wake"]> d else d) desired beads.

(** The wake reason of an on-demand named session, empty without demand. *)
Definition onDemandReason (input : AwakeInput) (identity : string) : string :=
  if member identity input.(aiNamedSessionDemand) then "named-demand"
  else if member identity input.(aiNamedSessionRoutedDemand) then "routed-demand"
  else if member identity input.(aiNamedSessionWorkQ) then "work-query"
  else "".

Definition namedSessionStep (t : AgentTables) (input : AwakeInput) (d : Desired) (ns : AwakeNamedSession) : Desired :=
  let beads := input.(aiSessionBeads) in
  if suspended (lookupAgent t ns.(nsIdentity)) then d
  else if ns.(nsMode) == "always" then
    let sn := resolveNamedSessionBeadName beads ns in
    if sn != "" then
      match findBeadBySessionName beads sn with
      | Some bead => if negb bead.(sbDependencyOnly) then <[sn := "named-always"]> d else d
      | None => d
      end
    else <[ns.(nsIdentity) := "named-always"]> d
  else if ns.(nsMode) == "on_demand" then
    let reason := onDemandReason input ns.(nsIdentity) in
    if reason == "" then d
    else if suspended (t.(atByName) !! ns.(nsTemplate)) then d
    else
      let sn := resolveNamedSessionBeadName beads ns in
      if sn != "" then
        match findBeadBySessionName beads sn with
        | Some bead =>
            if negb bead.(sbDependencyOnly) && negb bead.(sbDrained) && (bead.(sbState) != "closed") then <[sn := reason]> d else d
        | None => d
        end
      else <[ns.(nsIdentity) := reason]> d
  else d.

Definition namedSessionPass (t : AgentTables) (input : AwakeInput) (desired : Desired) : Desired :=
  foldl (namedSessionStep t input) desired input.(aiNamedSessions).

(** Fill slots from the candidates until [count] are filled. *)
Fixpoint fillSlots (busy : AwakeSessionBead → bool) (reason : string) (count : Z) (beads : list AwakeSessionBead)
    (filled : Z) (d : Desired) : Z * Desired :=
  match beads with
  | [] => (filled, d)
  | b :: beads =>
      if count <=? filled then (filled, d)
      else if busy b then fillSlots busy reason count beads filled d
      else fillSlots busy reason count beads (filled + 1) (<[b.(sbSessionName) := reason]> d)
  end.

Definition scaleStep (t : AgentTables) (input : AwakeInput) (d : Desired) (entry : string * Z) : Desired :=
  let '(template, count) := entry in
  let beads := input.(aiSessionBeads) in
  if count <=? 0 then d
  else if negb (runnable (lookupAgent t template)) then d
  else
    let busy := sessionHasAssignedWork input.(aiWorkBeads) input.(aiNamedSessions) in
    let filled := countAssignedScaleSlots beads input.(aiWorkBeads) input.(aiNamedSessions) template in
    let '(filled, d) := fillSlots busy "scaled:demand" count (collectActiveBeads beads template) filled d in
    (fillSlots busy "scaled:creating" count (collectCreatingBeads beads template) filled d).2.

Definition scalePass (t : AgentTables) (input : AwakeInput) (order : list (string * Z)) (desired : Desired) : Desired :=
  foldl (scaleStep t input) desired order.

Definition workSetStep (t : AgentTables) (input : AwakeInput) (d : Desired) (entry : string * bool) : Desired :=
  let '(template, hasWork) := entry in
  let beads := input.(aiSessionBeads) in
  if negb hasWork then d
  else if 0 <? default 0 (input.(aiScaleCheckCounts) !! template) then d
  else if negb (runnable (lookupAgent t template)) then d
  else if isNamedSessionTemplate input.(aiNamedSessions) template then d
  else match collectActiveBeads beads template with
  | b :: _ => <[b.(sbSessionName) := "work-query"]> d
  | [] =>
      match collectCreatingBeads beads template with
      | b :: _ => <[b.(sbSessionName) := "work-query"]> d
      | [] => d
      end
  end.

Definition workSetPass (t : AgentTables) (input : AwakeInput) (order : list (string * bool)) (desired : Desired) : Desired :=
  foldl (workSetStep t input) desired order.

Definition manualPass (t : AgentTables) (beads : list AwakeSessionBead) (desired : Desired) : Desired :=
  foldl (λ d b,
    if negb b.(sbManualSession) || (b.(sbState) == "closed") || b.(sbDrained) then d
    else if bool_decide (is_Some (t.(atByName) !! b.(sbTemplate))) then <[b.(sbSessionName) := "manual"]> d else d) desired beads.

(** The work bead that anchors a session: the one it last processed when it is
    among the matches, else the first match with an ID. *)
Fixpoint anchorLoop (named : list AwakeNamedSession) (bead : AwakeSessionBead) (work : list AwakeWorkBead)
    (matchedAny : bool) (fallback : string) : option string :=
  match work with
  | [] => if matchedAny then Some fallback else None
  | wb :: work =>
      if negb (keepsAwake named bead wb) then anchorLoop named bead work matchedAny fallback
      else if (bead.(sbCurrentlyProcessingBeadID) != "") && (wb.(wbID) == bead.(sbCurrentlyProcessingBeadID)) then Some wb.(wbID)
      else anchorLoop named bead work true (if fallback == "" then wb.(wbID) else fallback)
  end.

Definition assignedStep (t : AgentTables) (input : AwakeInput) (st : Desired * gmap string string) (bead : AwakeSessionBead)
    : Desired * gmap string string :=
  if bead.(sbState) == "closed" then st
  else if suspended (lookupAgent t bead.(sbTemplate)) then st
  else match anchorLoop input.(aiNamedSessions) bead input.(aiWorkBeads) false "" with
  | None => st
  | Some anchor => (<[bead.(sbSessionName) := "assigned-work"]> st.1, <[bead.(sbSessionName) := anchor]> st.2)
  end.

Definition assignedPass (t : AgentTables) (input : AwakeInput) (desired : Desired) : Desired * gmap string string :=
  foldl (assignedStep t input) (desired, ∅) input.(aiSessionBeads).

Fixpoint reviveLoop (now min : Z) (candidates : list AwakeSessionBead) (covered : Z) (d : Desired) : Desired :=
  match candidates with
  | [] => d
  | b :: candidates =>
      if min <=? covered then d
      else if bool_decide (is_Some (d !! b.(sbSessionName))) then reviveLoop now min candidates covered d
      else if minActiveHardBlocked b now then reviveLoop now min candidates covered d
      else reviveLoop now min candidates (covered + 1) (<[b.(sbSessionName) := "min-active"]> d)
  end.

Definition minActiveStep (input : AwakeInput) (d : Desired) (agent : AwakeAgent) : Desired :=
  if agent.(aaSuspended) || (agent.(aaMinActiveSessions) <=? 0) then d
  else
    let template := agent.(aaQualifiedName) in
    let covered := countMinActiveCovered input.(aiSessionBeads) d template input.(aiNow) in
    if agent.(aaMinActiveSessions) <=? covered then d
    else reviveLoop input.(aiNow) agent.(aaMinActiveSessions) (cityStopPoolBeads input.(aiSessionBeads) template) covered d.

Definition minActivePass (input : AwakeInput) (desired : Desired) : Desired :=
  foldl (minActiveStep input) desired input.(aiAgents).

Definition resetPass (beads : list AwakeSessionBead) (desired : Desired) : Desired :=
  foldl (λ d b,
    if negb b.(sbContinuationResetPending) || b.(sbRestartRequested) || b.(sbWaitHold) then d
    else if oneOf d.[b.(sbSessionName)] ["pending-create"; "explicit-wake"] then d
    else <[b.(sbSessionName) := "reset-pending"]> d) desired beads.

(** ** The decision for one session *)

Definition wake (dec : AwakeDecision) (should : bool) (reason : string) : AwakeDecision :=
  mkAwakeDecision should reason dec.(adHasAssignedWork) dec.(adAssignedWorkBeadID) dec.(adRequiresFreshCycle).

Definition idleTimeout (t : AgentTables) (input : AwakeInput) (bead : AwakeSessionBead) : Z :=
  let byAgent := match lookupAgent t bead.(sbTemplate) with Some a => a.(aaSleepAfterIdle) | None => 0 end in
  if bead.(sbManualSession) && (0 <? input.(aiChatIdleTimeout)) then input.(aiChatIdleTimeout)
  else if 0 <? byAgent then byAgent
  else if isOnDemandSession input.(aiNamedSessions) bead then defaultOnDemandIdleTimeout
  else 0.

Definition idleExempt (input : AwakeInput) (desired : Desired) (bead : AwakeSessionBead) : bool :=
  let name := bead.(sbSessionName) in
  member name input.(aiAttachedSessions) || member name input.(aiPendingSessions) || bead.(sbPinned) ||
  IsZero bead.(sbIdleSince) || isAlwaysNamedSession input.(aiNamedSessions) bead ||
  oneOf desired.[name] ["assigned-work"; "min-active"; "reset-pending"; "named-demand"; "routed-demand"; "work-query"] ||
  inManualGracePeriod bead input.(aiManualGracePeriod) input.(aiNow).

(** The steps of the decision, in order. *)
Definition seedDecision (anchors : gmap string string) (bead : AwakeSessionBead) : AwakeDecision :=
  match anchors !! bead.(sbSessionName) with
  | Some anchor =>
      mkAwakeDecision false "" true anchor
        ((bead.(sbCurrentlyProcessingBeadID) != "") && (anchor != bead.(sbCurrentlyProcessingBeadID)))
  | None => mkAwakeDecision false "" false "" false
  end.

Definition demandStep (desired : Desired) (bead : AwakeSessionBead) (dec : AwakeDecision) : AwakeDecision :=
  match desired !! bead.(sbSessionName) with
  | Some reason =>
      if negb bead.(sbWaitHold) || bead.(sbPendingCreate) || bead.(sbExplicitWake) then wake dec true reason else dec
  | None => dec
  end.

Definition attachedStep (input : AwakeInput) (bead : AwakeSessionBead) (dec : AwakeDecision) : AwakeDecision :=
  if member bead.(sbSessionName) input.(aiAttachedSessions) && negb bead.(sbWaitHold) then wake dec true "attached" else dec.

Definition pendingStep (input : AwakeInput) (bead : AwakeSessionBead) (dec : AwakeDecision) : AwakeDecision :=
  if member bead.(sbSessionName) input.(aiPendingSessions) && negb bead.(sbWaitHold) then wake dec true "pending" else dec.

Definition readyWaitStep (input : AwakeInput) (bead : AwakeSessionBead) (dec : AwakeDecision) : AwakeDecision :=
  if member bead.(sbID) input.(aiReadyWaitSet) then wake dec true "wait-ready" else dec.

Definition onDemandStep (input : AwakeInput) (bead : AwakeSessionBead) (dec : AwakeDecision) : AwakeDecision :=
  if negb dec.(adShouldWake) && (negb bead.(sbDrained) && negb bead.(sbWaitHold) && (bead.(sbSleepReason) != SleepReasonIdleTimeout) &&
     member bead.(sbSessionName) input.(aiRunningSessions) && isOnDemandSession input.(aiNamedSessions) bead)
  then wake dec true "on-demand:running" else dec.

Definition pinStep (t : AgentTables) (bead : AwakeSessionBead) (dec : AwakeDecision) : AwakeDecision :=
  let pinBlocked := (bead.(sbState) == "suspended") || (bead.(sbState) == "closed") || bead.(sbDrained) in
  if negb dec.(adShouldWake) && (bead.(sbPinned) && negb pinBlocked && negb bead.(sbDependencyOnly) && negb bead.(sbWaitHold) &&
     runnable (lookupAgent t bead.(sbTemplate)))
  then wake dec true "pin" else dec.

Definition idleStep (t : AgentTables) (input : AwakeInput) (desired : Desired) (bead : AwakeSessionBead) (dec : AwakeDecision) : AwakeDecision :=
  if dec.(adShouldWake) && negb (idleExempt input desired bead) then
    let timeout := idleTimeout t input bead in
    if (0 <? timeout) && (timeout <=? timeSub input.(aiNow) bead.(sbIdleSince)) then wake dec false "idle-sleep" else dec
  else dec.

Definition heldStep (input : AwakeInput) (bead : AwakeSessionBead) (dec : AwakeDecision) : AwakeDecision :=
  if ahead bead.(sbHeldUntil) input.(aiNow) then wake dec false "held" else dec.

Definition quarantinedStep (input : AwakeInput) (bead : AwakeSessionBead) (dec : AwakeDecision) : AwakeDecision :=
  if ahead bead.(sbQuarantinedUntil) input.(aiNow) then wake dec false "quarantined" else dec.

Definition decideAwake (t : AgentTables) (input : AwakeInput) (desired anchors : Desired) (bead : AwakeSessionBead) : AwakeDecision :=
  let dec := seedDecision anchors bead in
  let dec := demandStep desired bead dec in
  let dec := attachedStep input bead dec in
  let dec := pendingStep input bead dec in
  let dec := readyWaitStep input bead dec in
  let dec := onDemandStep input bead dec in
  let dec := pinStep t bead dec in
  let dec := idleStep t input desired bead dec in
  let dec := heldStep input bead dec in
  quarantinedStep input bead dec.

(** ** The whole function *)

(** The desired set and the anchors, from the passes in order. *)
Definition desiredSet (input : AwakeInput) (scaleOrder : list (string * Z)) (workOrder : list (string * bool)) : Desired * gmap string string :=
  let t := agentTables input.(aiAgents) in
  let beads := input.(aiSessionBeads) in
  let desired := pendingCreatePass beads ∅ in
  let desired := explicitWakePass t beads desired in
  let desired := namedSessionPass t input desired in
  let desired := scalePass t input scaleOrder desired in
  let desired := workSetPass t input workOrder desired in
  let desired := manualPass t beads desired in
  let '(desired, anchors) := assignedPass t input desired in
  let desired := minActivePass input desired in
  (resetPass beads desired, anchors).

Definition ComputeAwakeSet (input : AwakeInput) (scaleOrder : list (string * Z)) (workOrder : list (string * bool)) : gmap string AwakeDecision :=
  let t := agentTables input.(aiAgents) in
  let '(desired, anchors) := desiredSet input scaleOrder workOrder in
  foldl (λ result bead, <[bead.(sbSessionName) := decideAwake t input desired anchors bead]> result) ∅ input.(aiSessionBeads).
