(* ===== verification/AwakeSetProps.v ===== *)
(** * AwakeSetProps: what the awake set guarantees

    Holds, quarantines and waits win over every wake cause; a session with work
    to do is awake on the right bead; demand is filled exactly as far as there
    are sessions; the result does not depend on the order in which Go visits its
    maps. *)

From Stdlib Require Import Ascii.
From S2P Require Import Prelude GoBase GoText SessionState AwakeSet.

Local Open Scope Z_scope.

(** ** Folds that write one key per element *)

Lemma foldl_insert_notin {A B} (f : gmap string B → A → gmap string B) (key : A → string) l m k :
  (∀ m a, a ∈ l → key a ≠ k → f m a !! k = m !! k) → k ∉ (key <$> l) → foldl f m l !! k = m !! k.
Proof.
  revert m. induction l as [|a l IH]; intros m Hf Hk; [done|]. cbn. rewrite fmap_cons, not_elem_of_cons in Hk. destruct Hk as [Ha Hl].
  rewrite IH; [apply Hf; [apply list_elem_of_here|congruence]| |done].
  intros m' b Hb. apply Hf. by apply list_elem_of_further.
Qed.

(** The last word on a key belongs to the one element that has it. *)
Lemma foldl_insert_at {A B} (f : gmap string B → A → gmap string B) (key : A → string) l1 a l2 m :
  (∀ m b k, b ∈ l1 ++ a :: l2 → key b ≠ k → f m b !! k = m !! k) → NoDup (key <$> (l1 ++ a :: l2)) →
  ∃ m', m' !! key a = m !! key a ∧ foldl f m (l1 ++ a :: l2) !! key a = f m' a !! key a.
Proof.
  intros Hf Hnd. rewrite fmap_app, fmap_cons in Hnd. apply NoDup_app in Hnd as (_ & Hd & Hnd). apply NoDup_cons in Hnd as [Ha _].
  exists (foldl f m l1). split.
  - apply (foldl_insert_notin f key); [intros m' b Hb; apply Hf; apply elem_of_app; by left|].
    intros Hin. apply (Hd _ Hin), list_elem_of_here.
  - rewrite foldl_app. cbn. apply (foldl_insert_notin f key); [|done].
    intros m' b Hb. apply Hf. apply elem_of_app. right. by apply list_elem_of_further.
Qed.

(** ** Filling slots *)

Definition mark (reason : string) (l : list AwakeSessionBead) (d : gmap string string) : gmap string string :=
  foldl (λ d b, <[sbSessionName b := reason]> d) d l.

Lemma mark_lookup reason l d k :
  mark reason l d !! k = if bool_decide (k ∈ sbSessionName <$> l) then Some reason else d !! k.
Proof.
  unfold mark. revert d. induction l as [|b l IH]; intros d; cbn [foldl].
  { by rewrite bool_decide_false by apply not_elem_of_nil. }
  rewrite IH, fmap_cons. destruct (decide (k ∈ sbSessionName <$> l)) as [Hk|Hk].
  - rewrite !bool_decide_true by (try apply list_elem_of_further; done). done.
  - rewrite (bool_decide_false (k ∈ sbSessionName <$> l)) by done. destruct (decide (k = sbSessionName b)) as [->|Hne].
    + rewrite bool_decide_true by apply list_elem_of_here. apply lookup_insert_eq.
    + rewrite bool_decide_false by (by apply not_elem_of_cons). by apply lookup_insert_ne.
Qed.

Definition freeOf (busy : AwakeSessionBead → bool) (l : list AwakeSessionBead) : list AwakeSessionBead := List.filter (λ b, negb (busy b)) l.

(** The loop marks the first free candidates there is room for. *)
Lemma fillSlots_eq busy reason count l filled d :
  fillSlots busy reason count l filled d =
    let chosen := take (Z.to_nat (count - filled)) (freeOf busy l) in
    (filled + Z.of_nat (length chosen), mark reason chosen d).
Proof.
  revert filled d. induction l as [|b l IH]; intros filled d; cbn [fillSlots freeOf List.filter].
  { rewrite take_nil. cbn. by rewrite Z.add_0_r. }
  destruct (Z.leb_spec count filled) as [Hle|Hlt].
  - replace (Z.to_nat (count - filled)) with O by lia. cbn. by rewrite Z.add_0_r.
  - destruct (busy b); cbn [negb]; [apply IH|]. rewrite IH.
    replace (Z.to_nat (count - filled)) with (S (Z.to_nat (count - (filled + 1)))) by lia. cbv zeta. fold (freeOf busy l).
    cbn [take length]. apply f_equal2; [lia|done].
Qed.

(** ** The decision *)

Section awake.
Context (input : AwakeInput) (scaleOrder : list (string * Z)) (workOrder : list (string * bool)).
Let t := agentTables (aiAgents input).
Let beads := aiSessionBeads input.
Context (Hnames : NoDup (sbSessionName <$> beads)).

Lemma awake_lookup bead :
  bead ∈ beads →
  let st := desiredSet input scaleOrder workOrder in
  ComputeAwakeSet input scaleOrder workOrder !! sbSessionName bead = Some (decideAwake t input st.1 st.2 bead).
Proof.
  intros Hb st. unfold ComputeAwakeSet. fold st. destruct st as [desired anchors]. cbn [fst snd].
  apply list_elem_of_split in Hb as (l1 & l2 & E). fold beads t. rewrite E in *.
  destruct (foldl_insert_at (λ r b, <[sbSessionName b := decideAwake t input desired anchors b]> r) sbSessionName l1 bead l2 ∅)
    as (m' & _ & ->); [|done|apply lookup_insert_eq].
  intros m b k _ Hk. by apply lookup_insert_ne.
Qed.

(** What wakes a session before idling and blockers are considered. *)
Definition wakeCause (desired : gmap string string) (bead : AwakeSessionBead) : bool :=
  let name := sbSessionName bead in
  (bool_decide (is_Some (desired !! name)) && (negb (sbWaitHold bead) || sbPendingCreate bead || sbExplicitWake bead)) ||
  (member name (aiAttachedSessions input) && negb (sbWaitHold bead)) ||
  (member name (aiPendingSessions input) && negb (sbWaitHold bead)) ||
  member (sbID bead) (aiReadyWaitSet input) ||
  (negb (sbDrained bead) && negb (sbWaitHold bead) && (sbSleepReason bead != SleepReasonIdleTimeout) &&
   member name (aiRunningSessions input) && isOnDemandSession (aiNamedSessions input) bead) ||
  (sbPinned bead && negb ((sbState bead == "suspended") || (sbState bead == "closed") || sbDrained bead) &&
   negb (sbDependencyOnly bead) && negb (sbWaitHold bead) && runnable (lookupAgent t (sbTemplate bead))).

Definition idledOut (desired : gmap string string) (bead : AwakeSessionBead) : bool :=
  negb (idleExempt input desired bead) && ((0 <? idleTimeout t input bead) &&
  (idleTimeout t input bead <=? timeSub (aiNow input) (sbIdleSince bead))).

Lemma decide_should desired anchors bead :
  adShouldWake (decideAwake t input desired anchors bead) =
    wakeCause desired bead && negb (idledOut desired bead) &&
    negb (ahead (sbHeldUntil bead) (aiNow input)) && negb (ahead (sbQuarantinedUntil bead) (aiNow input)).
Proof.
  assert (∀ c d r, adShouldWake (if c : bool then wake d true r else d) = adShouldWake d || c) as Hor
    by (intros []; intros; by rewrite ?orb_true_r, ?orb_false_r).
  assert (∀ c d r, adShouldWake (if c : bool then wake d false r else d) = adShouldWake d && negb c) as Hoff
    by (intros []; intros; by rewrite ?andb_true_r, ?andb_false_r).
  assert (∀ c d r, adShouldWake (if negb (adShouldWake d) && c then wake d true r else d) = adShouldWake d || c) as Hnew
    by (intros c d r; rewrite Hor; by destruct (adShouldWake d), c).
  unfold decideAwake, quarantinedStep, heldStep. rewrite !Hoff. f_equal. f_equal.
  unfold idleStep. set (d := pinStep _ _ _).
  assert (adShouldWake d = wakeCause desired bead) as Hd.
  { unfold d, pinStep. cbv zeta. rewrite Hnew. unfold onDemandStep. rewrite Hnew. unfold readyWaitStep, pendingStep, attachedStep.
    rewrite !Hor. unfold wakeCause. cbv zeta. do 5 f_equal. unfold demandStep, seedDecision.
    destruct (desired !! sbSessionName bead) as [r|].
    - rewrite Hor, (bool_decide_true (is_Some (Some r))) by done. by destruct (anchors !! sbSessionName bead).
    - rewrite (bool_decide_false (is_Some None)) by apply is_Some_None. by destruct (anchors !! sbSessionName bead). }
  unfold idledOut. cbv zeta. rewrite <-Hd. destruct (idleExempt input desired bead); cbn [negb andb].
  - by rewrite andb_false_r, andb_true_r.
  - rewrite andb_true_r. destruct (adShouldWake d) eqn:E; [|done]. rewrite Hoff. by rewrite E.
Qed.
(** The other results come from the anchor. *)
Lemma decide_rest desired anchors bead :
  let dec := decideAwake t input desired anchors bead in
  let anchor := anchors !! sbSessionName bead in
  adHasAssignedWork dec = bool_decide (is_Some anchor) ∧ adAssignedWorkBeadID dec = default "" anchor ∧
  adRequiresFreshCycle dec =
    match anchor with
    | Some a => (sbCurrentlyProcessingBeadID bead != "") && (a != sbCurrentlyProcessingBeadID bead)
    | None => false
    end.
Proof.
  intros dec anchor. set (rest := λ d, (adHasAssignedWork d, adAssignedWorkBeadID d, adRequiresFreshCycle d)).
  assert (∀ (c : bool) d s r, rest (if c then wake d s r else d) = rest d) as Hif by by intros [].
  assert (rest dec = rest (seedDecision anchors bead)) as Hr.
  { unfold dec, decideAwake, quarantinedStep, heldStep, idleStep. cbv zeta. rewrite !Hif.
    match goal with |- rest (if ?c then if ?c' then wake ?d ?s ?r else _ else _) = _ =>
      transitivity (rest d); [by destruct c; [apply Hif|]|] end.
    unfold pinStep, onDemandStep, readyWaitStep, pendingStep, attachedStep. cbv zeta. rewrite !Hif.
    unfold demandStep. destruct (desired !! sbSessionName bead); [apply Hif|done]. }
  unfold rest, seedDecision in Hr. fold anchor in Hr. injection Hr as -> -> ->.
  destruct anchor as [a|]; [by rewrite (bool_decide_true (is_Some (Some a)))|].
  by rewrite (bool_decide_false (is_Some None)) by apply is_Some_None.
Qed.

(** C7 Blockers win over every cause: a session that should be awake is neither
    held nor quarantined, and when it is parked on a wait, either the wait is
    over, or it still needs its first launch, or its wake was asked for. *)
Theorem blockers_win bead dec :
  bead ∈ beads → ComputeAwakeSet input scaleOrder workOrder !! sbSessionName bead = Some dec → adShouldWake dec = true →
  ahead (sbHeldUntil bead) (aiNow input) = false ∧ ahead (sbQuarantinedUntil bead) (aiNow input) = false ∧
  (sbWaitHold bead = true → sbID bead ∈ aiReadyWaitSet input ∨ sbPendingCreate bead = true ∨ sbExplicitWake bead = true).
Proof.
  intros Hb. rewrite awake_lookup by done. intros [= <-]. rewrite decide_should, !andb_true_iff, !negb_true_iff.
  intros (((Hc & _) & Hh) & Hq). split_and!; [done..|]. intros Hw. unfold wakeCause, member in Hc. cbv zeta in Hc. rewrite Hw in Hc.
  rewrite !orb_true_iff, !andb_true_iff, !orb_true_iff, !negb_true_iff, !bool_decide_eq_true in Hc.
  destruct_or! Hc; destruct_and? Hc; try done; auto. destruct_or?; auto; done.
Qed.

(** ** Assigned work *)

Lemma anchorLoop_none named bead work m fb :
  anchorLoop named bead work m fb = None ↔ m = false ∧ sessionHasAssignedWork work named bead = false.
Proof.
  revert m fb. induction work as [|wb work IH]; intros m fb; cbn; [destruct m; naive_solver|].
  destruct (keepsAwake named bead wb); cbn [negb orb]; [|apply IH].
  destruct (_ && _); [split; [done|by intros []]|]. rewrite IH. naive_solver.
Qed.

Lemma anchorLoop_some named bead work m fb a :
  anchorLoop named bead work m fb = Some a → m = false ∧ fb = "" ∨ m = true ∧ (∃ wb, keepsAwake named bead wb = true ∧ wbID wb = fb) →
  (∃ wb, wb ∈ work ∧ keepsAwake named bead wb = true ∧ wbID wb = a) ∨ (m = true ∧ a = fb).
Proof.
  revert m fb. induction work as [|wb work IH]; intros m fb; cbn [anchorLoop]; [destruct m; naive_solver|].
  destruct (keepsAwake named bead wb) eqn:Ek; cbn [negb].
  - destruct (_ && _).
    { intros [= <-] _. left. exists wb. split; [apply list_elem_of_here|done]. }
    intros Ha Hm. set (fb' := if fb == "" then wbID wb else fb) in *.
    destruct (IH true fb' Ha) as [(wb' & Hin & Hk & Hid)|[_ Hfb]].
    + right. split; [done|]. unfold fb'. case_bool_decide; [eauto|]. destruct Hm as [[_ ?]|[_ ?]]; [done|done].
    + left. exists wb'. split; [by apply list_elem_of_further|done].
    + unfold fb' in Hfb. revert Hfb. case_bool_decide as E; intros ->.
      * left. exists wb. split; [apply list_elem_of_here|done].
      * right. split; [|done]. by destruct Hm as [[_ ?]|[? _]].
  - intros Ha Hm. destruct (IH m fb Ha Hm) as [(wb' & Hin & Hk & Hid)|?]; [|by right].
    left. exists wb'. split; [by apply list_elem_of_further|done].
Qed.

Lemma anchorLoop_recorded named bead work m fb wb :
  sbCurrentlyProcessingBeadID bead ≠ "" → wb ∈ work → keepsAwake named bead wb = true → wbID wb = sbCurrentlyProcessingBeadID bead →
  anchorLoop named bead work m fb = Some (sbCurrentlyProcessingBeadID bead).
Proof.
  intros Hr Hin Hk Hid. revert m fb. induction work as [|w work IH]; intros m fb; [by apply not_elem_of_nil in Hin|].
  cbn [anchorLoop]. apply elem_of_cons in Hin as [<-|Hin].
  - rewrite Hk, Hid. cbn [negb]. by rewrite (bool_decide_false (_ = "")), (bool_decide_true (_ = _)).
  - destruct (keepsAwake named bead w); cbn [negb]; [|by apply IH].
    destruct (sbCurrentlyProcessingBeadID bead != ""); [|by apply IH]. cbn [andb].
    case_bool_decide as E; [by rewrite E|by apply IH].
Qed.

(** The two maps of the assigned pass, apart. *)
Lemma assignedPass_split desired :
  assignedPass t input desired =
    (foldl (λ d b, (assignedStep t input (d, ∅) b).1) desired beads, foldl (λ m b, (assignedStep t input (∅, m) b).2) ∅ beads).
Proof.
  unfold assignedPass. fold beads. clear Hnames.
  assert (∀ l d m, foldl (assignedStep t input) (d, m) l =
    (foldl (λ d b, (assignedStep t input (d, ∅) b).1) d l, foldl (λ m b, (assignedStep t input (∅, m) b).2) m l)) as H; [|apply H].
  induction l as [|b l IH]; intros d m; [done|]. cbn [foldl].
  replace (assignedStep t input (d, m) b) with ((assignedStep t input (d, ∅) b).1, (assignedStep t input (∅, m) b).2); [apply IH|].
  unfold assignedStep. repeat case_match; done.
Qed.

Definition hasWork (bead : AwakeSessionBead) : Prop :=
  sbState bead ≠ "closed" ∧ suspended (lookupAgent t (sbTemplate bead)) = false ∧
  sessionHasAssignedWork (aiWorkBeads input) (aiNamedSessions input) bead = true.

Lemma assignedPass_has bead desired :
  bead ∈ beads → hasWork bead →
  (assignedPass t input desired).1 !! sbSessionName bead = Some "assigned-work" ∧
  (assignedPass t input desired).2 !! sbSessionName bead = anchorLoop (aiNamedSessions input) bead (aiWorkBeads input) false "".
Proof.
  intros Hb (Hc & Hs & Hw). rewrite assignedPass_split. cbn [fst snd].
  destruct (anchorLoop (aiNamedSessions input) bead (aiWorkBeads input) false "") as [a|] eqn:Ea.
  2:{ apply anchorLoop_none in Ea as [_ ?]. congruence. }
  apply list_elem_of_split in Hb as (l1 & l2 & E). rewrite E in *. split.
  - destruct (foldl_insert_at (λ d b, (assignedStep t input (d, ∅) b).1) sbSessionName l1 bead l2 desired) as (m' & _ & ->); [|done|].
    { intros m b k _ Hk. unfold assignedStep. repeat case_match; try done. by apply lookup_insert_ne. }
    unfold assignedStep. rewrite bool_decide_false, Hs, Ea by done. apply lookup_insert_eq.
  - destruct (foldl_insert_at (λ m b, (assignedStep t input (∅, m) b).2) sbSessionName l1 bead l2 ∅) as (m' & _ & ->); [|done|].
    { intros m b k _ Hk. unfold assignedStep. repeat case_match; try done. by apply lookup_insert_ne. }
    unfold assignedStep. rewrite bool_decide_false, Hs, Ea by done. apply lookup_insert_eq.
Qed.

(** The minimum pass only adds. *)
Lemma reviveLoop_keeps now min l covered (d : gmap string string) k v : d !! k = Some v → reviveLoop now min l covered d !! k = Some v.
Proof.
  revert covered d. induction l as [|b l IH]; intros covered d Hd; cbn [reviveLoop]; [done|].
  destruct (min <=? covered); [done|]. case_bool_decide as E; [by apply IH|].
  destruct (minActiveHardBlocked b now); apply IH; [done|].
  rewrite lookup_insert_ne; [done|]. intros Hk. apply E. rewrite Hk, Hd. by eexists.
Qed.

Lemma minActivePass_keeps (d : gmap string string) k v : d !! k = Some v → minActivePass input d !! k = Some v.
Proof.
  unfold minActivePass. revert d. induction (aiAgents input) as [|a l IH]; intros d Hd; [done|]. cbn [foldl]. apply IH.
  unfold minActiveStep. repeat case_match; try done. by apply reviveLoop_keeps.
Qed.

Lemma resetPass_at bead (d : gmap string string) v :
  bead ∈ beads → d !! sbSessionName bead = Some v →
  resetPass beads d !! sbSessionName bead = Some v ∨ resetPass beads d !! sbSessionName bead = Some "reset-pending".
Proof.
  intros Hb Hd. apply list_elem_of_split in Hb as (l1 & l2 & E). unfold resetPass. rewrite E in *.
  match goal with |- context [foldl ?f d _] => destruct (foldl_insert_at f sbSessionName l1 bead l2 d) as (m' & Hm' & ->) end; [|done|].
  { intros m b k _ Hk. repeat case_match; try done. by apply lookup_insert_ne. }
  rewrite Hd in Hm'. repeat case_match; auto. right. apply lookup_insert_eq.
Qed.

Lemma desired_assigned bead :
  bead ∈ beads → hasWork bead →
  let st := desiredSet input scaleOrder workOrder in
  (st.1 !! sbSessionName bead = Some "assigned-work" ∨ st.1 !! sbSessionName bead = Some "reset-pending") ∧
  st.2 !! sbSessionName bead = anchorLoop (aiNamedSessions input) bead (aiWorkBeads input) false "".
Proof.
  intros Hb Hw st. unfold st, desiredSet. fold t beads. set (d0 := manualPass t beads _).
  destruct (assignedPass_has bead d0 Hb Hw) as [H1 H2]. destruct (assignedPass t input d0) as [d a]. cbn [fst snd] in *.
  split; [|done]. apply resetPass_at; [done|]. by apply minActivePass_keeps.
Qed.

(** C8 Work keeps a session awake: an open session of an agent that is not
    suspended, with assigned work in progress or ready, is awake unless it is
    held, quarantined or parked on a wait; no idle timeout applies to it.  It is
    anchored on a work bead of its own, and on the one it was processing when
    that one is still among them, without a fresh cycle. *)
Theorem assigned_work_awake bead wb :
  bead ∈ beads → sbState bead ≠ "closed" → suspended (lookupAgent t (sbTemplate bead)) = false →
  wb ∈ aiWorkBeads input → keepsAwake (aiNamedSessions input) bead wb = true →
  sbWaitHold bead = false → ahead (sbHeldUntil bead) (aiNow input) = false → ahead (sbQuarantinedUntil bead) (aiNow input) = false →
  ∃ dec, ComputeAwakeSet input scaleOrder workOrder !! sbSessionName bead = Some dec ∧
    adShouldWake dec = true ∧ adHasAssignedWork dec = true ∧
    (∃ wb', wb' ∈ aiWorkBeads input ∧ keepsAwake (aiNamedSessions input) bead wb' = true ∧ adAssignedWorkBeadID dec = wbID wb') ∧
    (wbID wb = sbCurrentlyProcessingBeadID bead → wbID wb ≠ "" →
     adAssignedWorkBeadID dec = wbID wb ∧ adRequiresFreshCycle dec = false).
Proof.
  intros Hb Hc Hs Hin Hk Hw Hh Hq.
  assert (hasWork bead) as Hhas.
  { split_and!; [done..|]. apply existsb_exists. exists wb. split; [by apply list_elem_of_In|done]. }
  destruct (desired_assigned bead Hb Hhas) as [Hd Ha]. rewrite awake_lookup by done.
  destruct (desiredSet input scaleOrder workOrder) as [desired anchors]. cbn [fst snd] in *.
  exists (decideAwake t input desired anchors bead). split; [done|]. split.
  { rewrite decide_should, Hh, Hq. cbn [negb]. rewrite !andb_true_r. unfold wakeCause, idledOut, idleExempt. rewrite Hw. cbn [negb orb].
    assert (is_Some (desired !! sbSessionName bead)) as Hsome by (destruct Hd as [-> | ->]; done).
    rewrite (bool_decide_true _ Hsome). cbn [andb orb].
    assert (oneOf desired.[sbSessionName bead] ["assigned-work"; "min-active"; "reset-pending"; "named-demand"; "routed-demand"; "work-query"] = true) as ->
      by (unfold mget; by destruct Hd as [-> | ->]).
    by rewrite !orb_true_r. }
  destruct (decide_rest desired anchors bead) as (-> & -> & ->). rewrite Ha.
  destruct (anchorLoop (aiNamedSessions input) bead (aiWorkBeads input) false "") as [a|] eqn:E.
  2:{ apply anchorLoop_none in E as [_ E]. destruct Hhas as (_ & _ & ?). congruence. }
  split; [done|]. split.
  - destruct (anchorLoop_some _ _ _ _ _ _ E) as [(wb' & ? & ? & <-)|[? _]]; [by left|by exists wb'|done].
  - intros Hr Hne. rewrite Hr in Hne. pose proof (anchorLoop_recorded _ bead _ false "" wb Hne Hin Hk Hr) as E2.
    rewrite E in E2. injection E2 as ->. rewrite Hr. split; [done|].
    by rewrite (bool_decide_true (sbCurrentlyProcessingBeadID bead = sbCurrentlyProcessingBeadID bead)), andb_false_r.
Qed.
(** ** Demand *)

Definition busy : AwakeSessionBead → bool := sessionHasAssignedWork (aiWorkBeads input) (aiNamedSessions input).

Definition freeActive (template : string) := freeOf busy (collectActiveBeads beads template).
Definition freeCreating (template : string) := freeOf busy (collectCreatingBeads beads template).

(** Slots taken by sessions that have work. *)
Definition assignedSlots (template : string) : Z := countAssignedScaleSlots beads (aiWorkBeads input) (aiNamedSessions input) template.

Definition room (template : string) (count : Z) : nat := Z.to_nat (count - assignedSlots template).

Lemma scaleStep_eq d template count :
  scaleStep t input d (template, count) =
    if (count <=? 0) || negb (runnable (lookupAgent t template)) then d
    else mark "scaled:creating" (take (room template count - length (freeActive template)) (freeCreating template))
           (mark "scaled:demand" (take (room template count) (freeActive template)) d).
Proof.
  unfold scaleStep. destruct (count <=? 0); [done|]. destruct (runnable _); [|done]. cbn [negb orb].
  cbv zeta. rewrite fillSlots_eq. cbv beta iota zeta. rewrite fillSlots_eq. cbv beta iota zeta.
  fold beads busy (assignedSlots template) (freeActive template) (freeCreating template). cbn [snd].
  rewrite length_take. unfold room. do 2 f_equal. lia.
Qed.

Lemma scaleStep_lookup d e k :
  scaleStep t input d e !! k = match scaleStep t input ∅ e !! k with Some v => Some v | None => d !! k end.
Proof.
  destruct e as [template count]. rewrite !scaleStep_eq. destruct (_ || _); [by rewrite lookup_empty|].
  rewrite !mark_lookup, lookup_empty. by repeat case_bool_decide.
Qed.

Lemma freeOf_In f l b : b ∈ freeOf f l → b ∈ l ∧ f b = false.
Proof. unfold freeOf. rewrite !list_elem_of_In, filter_In, negb_true_iff. done. Qed.

Lemma collectActive_In template b : b ∈ collectActiveBeads beads template → b ∈ beads ∧ sbTemplate b = template ∧ sbState b = "active".
Proof. unfold collectActiveBeads. rewrite !list_elem_of_In, filter_In. intros [? H]. by bsplit. Qed.

Lemma collectCreating_In template b :
  b ∈ collectCreatingBeads beads template → b ∈ beads ∧ sbTemplate b = template ∧ isCreatingCandidateState (sbState b) = true.
Proof. unfold collectCreatingBeads. rewrite !list_elem_of_In, filter_In. intros [? H]. by bsplit. Qed.

(** A step only touches sessions of its template. *)
Definition ofTemplate (template k : string) : Prop := ∃ b, b ∈ beads ∧ sbSessionName b = k ∧ sbTemplate b = template.

Lemma scaleStep_touches e k v : scaleStep t input ∅ e !! k = Some v → ofTemplate e.1 k.
Proof.
  destruct e as [template count]. rewrite scaleStep_eq. destruct (_ || _); [by rewrite lookup_empty|].
  rewrite !mark_lookup, lookup_empty. cbn [fst].
  assert (∀ n l, k ∈ sbSessionName <$> take n l → ∃ b, b ∈ l ∧ sbSessionName b = k) as Htake.
  { intros n l Hin. apply list_elem_of_fmap in Hin as (b & -> & Hin). exists b. split; [|done]. by eapply elem_of_take in Hin as (? & ?%list_elem_of_lookup_2 & _). }
  case_bool_decide as H1; [intros _|case_bool_decide as H2; [intros _|done]].
  - apply Htake in H1 as (b & (Hb & _)%freeOf_In & <-). apply collectCreating_In in Hb as (? & ? & _). by exists b.
  - apply Htake in H2 as (b & (Hb & _)%freeOf_In & <-). apply collectActive_In in Hb as (? & ? & _). by exists b.
Qed.

Lemma workSetStep_cases d e :
  workSetStep t input d e = d ∨ ∃ b, b ∈ beads ∧ sbTemplate b = e.1 ∧ workSetStep t input d e = <[sbSessionName b := "work-query"]> d.
Proof.
  destruct e as [template hasWork]. unfold workSetStep. cbn [fst]. fold beads.
  destruct (negb hasWork); [by left|]. destruct (0 <? _); [by left|]. destruct (negb (runnable _)); [by left|].
  destruct (isNamedSessionTemplate _ _); [by left|].
  destruct (collectActiveBeads beads template) as [|b l] eqn:Ea.
  - destruct (collectCreatingBeads beads template) as [|b l] eqn:Ec; [by left|]. right. exists b.
    destruct (collectCreating_In template b) as (? & ? & _); [rewrite Ec; apply list_elem_of_here|done].
  - right. exists b. destruct (collectActive_In template b) as (? & ? & _); [rewrite Ea; apply list_elem_of_here|done].
Qed.
Lemma workSetStep_lookup d e k :
  workSetStep t input d e !! k = match workSetStep t input ∅ e !! k with Some v => Some v | None => d !! k end.
Proof.
  destruct e as [template hasWork]. unfold workSetStep.
  repeat match goal with |- context [if ?b then _ else _] => destruct b; [by rewrite lookup_empty|] end.
  assert (∀ (b : AwakeSessionBead) (l : list AwakeSessionBead),
    <[sbSessionName b := "work-query"]> d !! k =
      match (<[sbSessionName b := "work-query"]> ∅ : gmap string string) !! k with Some v => Some v | None => d !! k end) as Hi.
  { intros b _. destruct (decide (sbSessionName b = k)) as [<-|Hne]; [by rewrite !lookup_insert_eq|].
    by rewrite !lookup_insert_ne, lookup_empty by done. }
  destruct (collectActiveBeads _ _); [destruct (collectCreatingBeads _ _); [by rewrite lookup_empty|]|]; by apply Hi.
Qed.

(** Demand is met and not exceeded: for a template whose agent may run, the
    sessions that have work and the ones the scale step wakes fill the demanded
    count exactly, or every free session of the template is awake; the sessions
    chosen are free ones, the running before the ones being created, and no
    other session is touched. *)
Theorem scale_demand_met d template count :
  0 < count → runnable (lookupAgent t template) = true →
  let free := freeActive template ++ freeCreating template in
  let chosen := take (room template count) free in
  let d' := scaleStep t input d (template, count) in
  (∀ b, b ∈ chosen → b ∈ beads ∧ sbTemplate b = template ∧ busy b = false ∧
     (d' !! sbSessionName b = Some "scaled:demand" ∨ d' !! sbSessionName b = Some "scaled:creating")) ∧
  (∀ k, k ∉ sbSessionName <$> chosen → d' !! k = d !! k) ∧
  assignedSlots template + Z.of_nat (length chosen) =
    Z.max (assignedSlots template) (Z.min count (assignedSlots template + Z.of_nat (length free))).
Proof.
  intros Hc Hr free chosen d'.
  assert (chosen = take (room template count) (freeActive template) ++
    take (room template count - length (freeActive template)) (freeCreating template)) as Ech by apply take_app.
  assert (d' = mark "scaled:creating" (take (room template count - length (freeActive template)) (freeCreating template))
    (mark "scaled:demand" (take (room template count) (freeActive template)) d)) as ->.
  { unfold d'. rewrite scaleStep_eq, Hr. destruct (Z.leb_spec count 0); [lia|done]. }
  split_and!.
  - intros b Hb. assert (b ∈ free) as Hin by (apply elem_of_take in Hb as (? & ?%list_elem_of_lookup_2 & _); done).
    assert (b ∈ beads ∧ sbTemplate b = template ∧ busy b = false) as (? & ? & ?).
    { unfold free in Hin. apply elem_of_app in Hin as [[Hin ?]%freeOf_In|[Hin ?]%freeOf_In].
      - by apply collectActive_In in Hin as (? & ? & _).
      - by apply collectCreating_In in Hin as (? & ? & _). }
    split_and!; [done..|]. rewrite !mark_lookup. rewrite Ech in Hb. apply elem_of_app in Hb as [Hb|Hb].
    + case_bool_decide; [by right|]. left. rewrite bool_decide_true; [done|]. apply list_elem_of_fmap. by exists b.
    + right. rewrite bool_decide_true; [done|]. apply list_elem_of_fmap. by exists b.
  - intros k Hk. rewrite Ech, fmap_app, not_elem_of_app in Hk. destruct Hk as [H1 H2].
    by rewrite !mark_lookup, !bool_decide_false by done.
  - unfold chosen. rewrite length_take. unfold room. lia.
Qed.

(** ** The floor of a pool *)

Let covered := countMinActiveCovered beads.

Lemma covered_insert b reason (d : gmap string string) template now :
  b ∈ beads → isMinActivePoolBead b template = true → minActiveHardBlocked b now = false → sbState b = "asleep" →
  d !! sbSessionName b = None →
  covered (<[sbSessionName b := reason]> d) template now = covered d template now + 1.
Proof.
  intros (l1 & l2 & E)%list_elem_of_split Hp Hh Hs Hd. unfold covered, countMinActiveCovered.
  assert (∀ l, sbSessionName b ∉ sbSessionName <$> l →
    List.filter (coversMin (<[sbSessionName b := reason]> d) template now) l = List.filter (coversMin d template now) l) as Hf.
  { induction l as [|x l IH]; [done|]. rewrite fmap_cons, not_elem_of_cons. intros [Hne Hl]. cbn [List.filter].
    rewrite IH by done. unfold coversMin. by rewrite lookup_insert_ne by done. }
  rewrite E in Hnames |- *. rewrite fmap_app, fmap_cons, NoDup_app, NoDup_cons in Hnames. destruct Hnames as (_ & H1 & H2 & _).
  rewrite !List.filter_app, !length_app. cbn [List.filter]. rewrite !Hf; [|done|].
  - assert (∀ d' : gmap string string, coversMin d' template now b = bool_decide (is_Some (d' !! sbSessionName b))) as Hc
      by (intros d'; unfold coversMin; by rewrite Hp, Hh, Hs).
    rewrite !Hc, lookup_insert_eq, Hd, bool_decide_true, bool_decide_false by (done || apply is_Some_None). cbn [length]. lia.
  - intros Hin. apply (H1 _ Hin). apply list_elem_of_here.
Qed.

(** The sessions the floor may bring back: put to sleep by a city stop, not yet
    wanted, and not blocked. *)
Definition revivable (d : gmap string string) (now : Z) (l : list AwakeSessionBead) : list AwakeSessionBead :=
  List.filter (λ b, negb (bool_decide (is_Some (d !! sbSessionName b))) && negb (minActiveHardBlocked b now)) l.

Lemma revivable_insert b reason d now l :
  sbSessionName b ∉ sbSessionName <$> l → revivable (<[sbSessionName b := reason]> d) now l = revivable d now l.
Proof.
  intros Hb. induction l as [|x l IH]; [done|]. rewrite fmap_cons, not_elem_of_cons in Hb. destruct Hb as [Hne Hl].
  cbn [revivable List.filter]. rewrite lookup_insert_ne by done. fold (revivable d now l). by rewrite <-(IH Hl).
Qed.

Lemma reviveLoop_covers min template now l d :
  NoDup (sbSessionName <$> l) → (∀ b, b ∈ l → b ∈ beads ∧ isMinActivePoolBead b template = true ∧ sbState b = "asleep") →
  covered (reviveLoop now min l (covered d template now) d) template now =
    Z.max (covered d template now) (Z.min min (covered d template now + Z.of_nat (length (revivable d now l)))).
Proof.
  revert d. induction l as [|b l IH]; intros d Hnd Hl; cbn [reviveLoop revivable List.filter]; [cbn; lia|].
  fold (revivable d now l). rewrite fmap_cons, NoDup_cons in Hnd. destruct Hnd as [Hb Hnd].
  assert (∀ x, x ∈ l → x ∈ beads ∧ isMinActivePoolBead x template = true ∧ sbState x = "asleep") as Hl' by (intros x Hx; apply Hl; by right).
  destruct (Z.leb_spec min (covered d template now)) as [Hle|Hlt]; [lia|].
  case_bool_decide as Hd; cbn [negb andb]; [by apply IH|].
  destruct (minActiveHardBlocked b now) eqn:Hh; cbn [negb]; [by apply IH|].
  destruct (Hl b) as (Hin & Hp & Hs); [by left|]. apply eq_None_not_Some in Hd.
  rewrite <-(covered_insert b "min-active") by done. rewrite IH by done. rewrite covered_insert, revivable_insert by done. cbn [length]. lia.
Qed.

Lemma cityStop_In template b :
  b ∈ cityStopPoolBeads beads template → b ∈ beads ∧ isMinActivePoolBead b template = true ∧ sbState b = "asleep".
Proof.
  unfold cityStopPoolBeads. rewrite (merge_sort_Permutation idLe), list_elem_of_In, filter_In, !andb_true_iff, <-list_elem_of_In, !bool_decide_eq_true. tauto.
Qed.

Lemma NoDup_map_filter {A B} (f : A → B) p l : NoDup (f <$> l) → NoDup (f <$> List.filter p l).
Proof.
  intros H. eapply sublist_NoDup; [exact H|]. apply fmap_sublist. induction l; cbn; [constructor|].
  rewrite fmap_cons, NoDup_cons in H. destruct (p a); constructor; tauto.
Qed.

(** The floor of a pool: after an agent's turn the sessions that cover its
    minimum number the minimum, or all the sessions a city stop put to sleep
    and nothing blocks are back; a pool already above its floor is left as it
    is. *)
Theorem min_active_met d agent :
  aaSuspended agent = false → 0 < aaMinActiveSessions agent →
  let template := aaQualifiedName agent in
  let asleep := revivable d (aiNow input) (cityStopPoolBeads beads template) in
  covered (minActiveStep input d agent) template (aiNow input) =
    Z.max (covered d template (aiNow input)) (Z.min (aaMinActiveSessions agent) (covered d template (aiNow input) + Z.of_nat (length asleep))).
Proof.
  intros Hs Hm template asleep. unfold minActiveStep. rewrite Hs, (proj2 (Z.leb_gt _ _) Hm). cbn [orb]. cbv zeta.
  fold template beads. fold (covered d template (aiNow input)).
  destruct (Z.leb_spec (aaMinActiveSessions agent) (covered d template (aiNow input))) as [Hle|Hlt]; [lia|].
  apply reviveLoop_covers; [|apply cityStop_In].
  unfold cityStopPoolBeads. rewrite (merge_sort_Permutation idLe). by apply NoDup_map_filter.
Qed.

(** ** Order of visits *)

Lemma same_session b1 b2 : b1 ∈ beads → b2 ∈ beads → sbSessionName b2 = sbSessionName b1 → b1 = b2.
Proof.
  intros [i Hi]%list_elem_of_lookup [j Hj]%list_elem_of_lookup E.
  assert (i = j) as ->; [|congruence].
  apply (NoDup_lookup _ i j (sbSessionName b1) Hnames); rewrite list_lookup_fmap; [by rewrite Hi|by rewrite Hj, <-E].
Qed.

(** Steps that write fixed entries, each for sessions of its own template,
    commute. *)
Lemma order_free {A} (f : gmap string string → string * A → gmap string string) l1 l2 d :
  (∀ d e k, f d e !! k = match f ∅ e !! k with Some v => Some v | None => d !! k end) →
  (∀ e k v, f ∅ e !! k = Some v → ofTemplate e.1 k) →
  NoDup l1.*1 → l1 ≡ₚ l2 → foldl f d l1 = foldl f d l2.
Proof.
  intros Hf Ht Hnd Hp.
  assert (∀ d e1 e2, e1.1 ≠ e2.1 → f (f d e1) e2 = f (f d e2) e1) as Hcomm.
  { intros d0 e1 e2 Hne. apply map_eq. intros k. rewrite (Hf (f d0 e1)), (Hf d0 e1), (Hf (f d0 e2)), (Hf d0 e2).
    destruct (f ∅ e1 !! k) as [v1|] eqn:E1, (f ∅ e2 !! k) as [v2|] eqn:E2; try done. exfalso.
    apply Ht in E1 as (b1 & Hb1 & <- & H1). apply Ht in E2 as (b2 & Hb2 & E & H2). apply Hne. rewrite <-H1, <-H2. f_equal.
    by eapply same_session. }
  revert d Hnd. induction Hp as [|x l1 l2 Hp IH|x y l|l1 l2 l3 H12 IH1 H23 IH2]; intros d Hnd; [done|..].
  - cbn [foldl]. apply IH. rewrite fmap_cons, NoDup_cons in Hnd. tauto.
  - cbn [foldl]. rewrite (Hcomm d y x); [done|]. rewrite !fmap_cons, !NoDup_cons, elem_of_cons in Hnd. naive_solver.
  - rewrite IH1 by done. apply IH2. by rewrite <-H12.
Qed.
End awake.

(** The awake set is well defined: Go visits the demand maps in an order of
    its own, and the result is the same for every order, because sessions have
    distinct names. *)
Theorem awake_order_independent input so so' wo wo' :
  NoDup (sbSessionName <$> aiSessionBeads input) →
  so ≡ₚ map_to_list (aiScaleCheckCounts input) → so' ≡ₚ map_to_list (aiScaleCheckCounts input) →
  wo ≡ₚ map_to_list (aiWorkSet input) → wo' ≡ₚ map_to_list (aiWorkSet input) →
  ComputeAwakeSet input so wo = ComputeAwakeSet input so' wo'.
Proof.
  intros Hn Hs Hs' Hw Hw'.
  assert (∀ d, scalePass (agentTables (aiAgents input)) input so d = scalePass (agentTables (aiAgents input)) input so' d) as Hscale.
  { intros d. apply (order_free input); [done|apply scaleStep_lookup|apply scaleStep_touches| |by rewrite Hs, Hs'].
    rewrite Hs. apply NoDup_fst_map_to_list. }
  assert (∀ d, workSetPass (agentTables (aiAgents input)) input wo d = workSetPass (agentTables (aiAgents input)) input wo' d) as Hwork.
  { intros d. apply (order_free input); [done| | | |by rewrite Hw, Hw'].
    - intros d' e k. apply workSetStep_lookup.
    - intros e k v He. destruct (workSetStep_cases input ∅ e) as [E|(b & Hb & Ht & E)]; rewrite E in He; [by rewrite lookup_empty in He|].
      apply lookup_insert_Some in He as [[<- _]|[_ He]]; [by exists b|by rewrite lookup_empty in He].
    - rewrite Hw. apply NoDup_fst_map_to_list. }
  unfold ComputeAwakeSet, desiredSet. by rewrite Hscale, Hwork.
Qed.
