(* ===== verification/AwakeScenarios.v ===== *)
(** * AwakeScenarios: concrete cities that meet the hypotheses on the awake set

    One agent, three pool sessions, one of them with work. *)

From S2P Require Import Prelude GoBase GoText SessionState AwakeSet AwakeSetProps.

Local Open Scope Z_scope.

Definition coder : AwakeAgent := mkAwakeAgent "rig/coder" [] false 0 2.

Definition poolSession (id name state : string) (waitHold : bool) : AwakeSessionBead :=
  mkAwakeSessionBead id name "rig/coder" state "" false false false false "" false false false waitHold 0 0 0 0 false false "".

Definition coder1 := poolSession "gc-1" "coder-1" "active" false.
Definition coder2 := poolSession "gc-2" "coder-2" "active" false.
Definition coder3 := poolSession "gc-3" "coder-3" "creating" false.
Definition parked := poolSession "gc-4" "coder-4" "active" true.

Definition task : AwakeWorkBead := mkAwakeWorkBead "gc-50" "coder-1" "in_progress" false.

Definition rigCity : AwakeInput :=
  mkAwakeInput [coder] [] [coder1; coder2; coder3; parked] [task] {["rig/coder" := 2]} ∅ ∅ ∅ ∅ ∅ {["coder-2"]} ∅ {["gc-4"]} 0 0 100.

Definition rigScale : list (string * Z) := [("rig/coder", 2)].

Lemma rig_names : NoDup (sbSessionName <$> aiSessionBeads rigCity).
Proof. apply (bool_decide_unpack _). vm_compute. exact I. Qed.

Lemma blockers_win_witness :
  sbID parked ∈ aiReadyWaitSet rigCity ∨ sbPendingCreate parked = true ∨ sbExplicitWake parked = true.
Proof.
  refine (proj2 (proj2 (blockers_win rigCity rigScale [] rig_names parked (mkAwakeDecision true "wait-ready" false "" false) _ _ _)) _).
  - apply (list_elem_of_lookup_2 _ 3). reflexivity.
  - vm_compute. reflexivity.
  - reflexivity.
  - reflexivity.
Defined.

Lemma assigned_work_awake_witness :
  ∃ dec, ComputeAwakeSet rigCity rigScale [] !! "coder-1" = Some dec ∧ adShouldWake dec = true.
Proof.
  destruct (assigned_work_awake rigCity rigScale [] rig_names coder1 task) as (dec & H1 & H2 & _).
  - apply list_elem_of_here.
  - discriminate.
  - vm_compute. reflexivity.
  - apply list_elem_of_here.
  - vm_compute. reflexivity.
  - reflexivity.
  - vm_compute. reflexivity.
  - vm_compute. reflexivity.
  - exists dec. split; assumption.
Defined.

Lemma scale_demand_met_witness :
  scaleStep (agentTables (aiAgents rigCity)) rigCity ∅ ("rig/coder", 2) !! "coder-3" = None.
Proof.
  rewrite (proj1 (proj2 (scale_demand_met rigCity ∅ "rig/coder" 2 eq_refl eq_refl)) "coder-3").
  - reflexivity.
  - apply (bool_decide_unpack _). vm_compute. exact I.
Defined.

Lemma awake_order_independent_witness :
  let city := mkAwakeInput [coder] [] [coder1] [] {["rig/coder" := 1; "a" := 2]} ∅ ∅ ∅ ∅ ∅ ∅ ∅ ∅ 0 0 100 in
  ComputeAwakeSet city [("rig/coder", 1); ("a", 2)] [] = ComputeAwakeSet city [("a", 2); ("rig/coder", 1)] [].
Proof.
  cbv zeta. apply awake_order_independent.
  - apply NoDup_singleton.
  - apply (bool_decide_unpack _). vm_compute. exact I.
  - apply (bool_decide_unpack _). vm_compute. exact I.
  - reflexivity.
  - reflexivity.
Defined.

(** A pool of two that a city stop put to sleep. *)
Definition stopped (id name : string) : AwakeSessionBead :=
  mkAwakeSessionBead id name "rig/coder" "asleep" SleepReasonCityStop false false false false "" false false false false 0 0 0 0 false false "".

Definition restarted : AwakeInput :=
  mkAwakeInput [coder] [] [stopped "gc-1" "coder-1"; stopped "gc-2" "coder-2"; stopped "gc-3" "coder-3"] [] ∅ ∅ ∅ ∅ ∅ ∅ ∅ ∅ ∅ 0 0 100.

Lemma min_active_met_witness :
  countMinActiveCovered (aiSessionBeads restarted) (minActiveStep restarted ∅ coder) "rig/coder" 100 = 2.
Proof.
  assert (NoDup (sbSessionName <$> aiSessionBeads restarted)) as Hn by (apply (bool_decide_unpack _); vm_compute; exact I).
  etransitivity; [exact (min_active_met restarted Hn ∅ coder eq_refl eq_refl)|]. vm_compute. reflexivity.
Defined.
