(* ===== verification/CreateBudget.v ===== *)
(** * CreateBudget: the shared budget of pool creates

    Models [internal/poolplan/create_budget.go].  A nil budget is [None]; a nil
    map of shares is [None] too, and a share that is not in the map reads 0.
    The two distribution loops run until a sweep gives nothing or the tokens
    are gone; they carry fuel, and [fairShares_total] shows one unit of fuel
    per token is enough.  The mutex makes every method one atomic step, so a
    concurrent run is a sequence of steps. *)

From S2P Require Import Prelude GoBase.

Local Open Scope Z_scope.

Record Demand := mkDemand {
  dTemplate : string;
  dFreshCreates : Z;
  dHasFloor : bool
}.

Record CreateBudget := mkCreateBudget {
  cbRemaining : Z;
  cbTemplateRemaining : option (gmap string Z);
  cbSpare : Z
}.

(** A read of a Go map of integers. *)
Definition share (shares : gmap string Z) (template : string) : Z := default 0 (shares !! template).

Definition give (shares : gmap string Z) (template : string) : gmap string Z :=
  <[template := share shares template + 1]> shares.

(** ** The shares *)

(** [active[(start+offset)%len(active)]] for each offset. *)
Definition rotation (active : list Demand) (start : nat) : list Demand :=
  omap (λ offset, active !! ((start + offset) mod length active)%nat) (seq 0 (length active)).

Definition elasticDemand (active : list Demand) : Z :=
  foldl (λ n d, if negb d.(dHasFloor) then wrap64 (n + d.(dFreshCreates)) else n) 0 active.

Definition elasticReserve (limit : Z) (active : list Demand) : Z :=
  let reserve := limit / 4 in
  if elasticDemand active <? reserve then elasticDemand active else reserve.

(** One token per template with a floor. *)
Fixpoint floorLoop (floorBudget : Z) (ds : list Demand) (shares : gmap string Z) (remaining floorUsed : Z)
    : gmap string Z * Z :=
  match ds with
  | [] => (shares, remaining)
  | d :: ds =>
      if floorBudget <=? floorUsed then (shares, remaining)
      else if d.(dHasFloor) then floorLoop floorBudget ds (give shares d.(dTemplate)) (remaining - 1) (floorUsed + 1)
      else floorLoop floorBudget ds shares remaining floorUsed
  end.

(** The state of a distribution: the shares, the tokens left, the tokens this
    loop gave, and whether this sweep gave one. *)
Record Dealing := mkDealing {
  dlShares : gmap string Z;
  dlRemaining : Z;
  dlGiven : Z;
  dlProgressed : bool
}.

Definition deal (s : Dealing) (d : Demand) : Dealing :=
  mkDealing (give s.(dlShares) d.(dTemplate)) (s.(dlRemaining) - 1) (s.(dlGiven) + 1) true.

(** One sweep over the rotation: [quota] is the most this loop may give, none
    for the general round-robin; [skip] are the templates it passes over. *)
Fixpoint sweep (quota : option Z) (skip : Demand → bool) (ds : list Demand) (s : Dealing) : Dealing :=
  match ds with
  | [] => s
  | d :: ds =>
      if negb (0 <? s.(dlRemaining)) || match quota with Some q => negb (s.(dlGiven) <? q) | None => false end then s
      else if skip d || (d.(dFreshCreates) <=? share s.(dlShares) d.(dTemplate)) then sweep quota skip ds s
      else sweep quota skip ds (deal s d)
  end.

Fixpoint sweeps (fuel : nat) (quota : option Z) (skip : Demand → bool) (ds : list Demand) (s : Dealing) : option Dealing :=
  if negb (0 <? s.(dlRemaining)) || match quota with Some q => negb (s.(dlGiven) <? q) | None => false end then Some s
  else match fuel with
  | O => None
  | S fuel =>
      let s' := sweep quota skip ds (mkDealing s.(dlShares) s.(dlRemaining) s.(dlGiven) false) in
      if s'.(dlProgressed) then sweeps fuel quota skip ds s' else Some s'
  end.

Definition activeDemands (demands : list Demand) : list Demand := List.filter (λ d, 0 <? d.(dFreshCreates)) demands.

Definition fairShares (demands : list Demand) (limit seed : Z) : option (option (gmap string Z) * Z) :=
  if limit <=? 0 then Some (None, 0)
  else
    let active := activeDemands demands in
    if (length active <=? 1)%nat then Some (None, 0)
    else
      let ds := rotation active (Z.to_nat (seed mod Z.of_nat (length active))) in
      let reserve := elasticReserve limit active in
      let '(shares, remaining) := floorLoop (limit - reserve) ds ∅ limit 0 in
      let fuel := Z.to_nat limit in
      s ← sweeps fuel (Some reserve) dHasFloor ds (mkDealing shares remaining 0 false);
      s ← sweeps fuel None (λ _, false) ds (mkDealing s.(dlShares) s.(dlRemaining) 0 false);
      Some (Some s.(dlShares), s.(dlRemaining)).

(** ** The budget *)

Definition NewCreateBudget (limit : Z) : option CreateBudget :=
  if limit <=? 0 then None else Some (mkCreateBudget limit None 0).

Definition ConfigureFairShare (b : option CreateBudget) (demands : list Demand) (seed : Z) : option (option CreateBudget) :=
  match b with
  | None => Some None
  | Some b =>
      st ← fairShares demands b.(cbRemaining) seed;
      Some (Some (mkCreateBudget b.(cbRemaining) st.1 st.2))
  end.

Definition TryClaim (b : option CreateBudget) (template : string) : bool * option CreateBudget :=
  match b with
  | None => (true, None)
  | Some b =>
      let r := b.(cbRemaining) in
      if r <=? 0 then (false, Some b)
      else match b.(cbTemplateRemaining) with
      | None => (true, Some (mkCreateBudget (r - 1) None b.(cbSpare)))
      | Some m =>
          if 0 <? share m template then
            (true, Some (mkCreateBudget (r - 1) (Some (<[template := share m template - 1]> m)) b.(cbSpare)))
          else if 0 <? b.(cbSpare) then (true, Some (mkCreateBudget (r - 1) (Some m) (b.(cbSpare) - 1)))
          else (false, Some b)
      end
  end.

Definition Release (b : option CreateBudget) : option CreateBudget :=
  match b with
  | None => None
  | Some b =>
      Some (mkCreateBudget (b.(cbRemaining) + 1) b.(cbTemplateRemaining)
        match b.(cbTemplateRemaining) with Some _ => b.(cbSpare) + 1 | None => b.(cbSpare) end)
  end.

(** A run of the planning cycle: claims and refunds in the order they take the
    lock, with the answers to the claims. *)
Inductive BudgetOp := OpClaim (template : string) | OpRelease.

Definition budgetStep (st : option CreateBudget * list (string * bool)) (op : BudgetOp) : option CreateBudget * list (string * bool) :=
  match op with
  | OpClaim t => let '(ok, b) := TryClaim st.1 t in (b, st.2 ++ [(t, ok)])
  | OpRelease => (Release st.1, st.2)
  end.

Definition budgetRun (b : option CreateBudget) (ops : list BudgetOp) : option CreateBudget * list (string * bool) :=
  foldl budgetStep (b, []) ops.
