(* ===== verification/CreateBudgetProps.v ===== *)
(** * CreateBudgetProps: the budget is spent exactly, shared and isolated

    The loops deal tokens one by one; [Fair] says what a position of the deal
    satisfies and [dealt] relates two positions of one loop.  The sums range
    over the active demands, whose templates are distinct. *)

From S2P Require Import Prelude GoBase CreateBudget.

Local Open Scope Z_scope.

(** ** Sums over the demands *)

Definition sumOver (p : Demand → bool) (f : Demand → Z) (ds : list Demand) : Z :=
  foldr (λ d n, (if p d then f d else 0) + n) 0 ds.

Definition anyDemand (d : Demand) : bool := true.
Definition elastic (d : Demand) : bool := negb d.(dHasFloor).

Lemma sumOver_perm p f ds ds' : ds ≡ₚ ds' → sumOver p f ds = sumOver p f ds'.
Proof. induction 1; cbn [sumOver foldr]; unfold sumOver in *; lia. Qed.

Lemma sumOver_mono p f g ds : (∀ d, d ∈ ds → f d ≤ g d) → sumOver p f ds ≤ sumOver p g ds.
Proof.
  induction ds as [|d ds IH]; intros H; [done|]. cbn [sumOver foldr]. fold (sumOver p f ds) (sumOver p g ds).
  assert (f d ≤ g d) by (apply H; by left). assert (sumOver p f ds ≤ sumOver p g ds) by (apply IH; intros x Hx; apply H; by right).
  destruct (p d); lia.
Qed.

Lemma sumOver_ext p f g ds : (∀ d, d ∈ ds → p d = true → f d = g d) → sumOver p f ds = sumOver p g ds.
Proof.
  induction ds as [|d ds IH]; intros H; [done|]. cbn [sumOver foldr]. fold (sumOver p f ds) (sumOver p g ds).
  rewrite IH by (intros x Hx; apply H; by right). destruct (p d) eqn:E; [|done]. rewrite H; [done|by left|done].
Qed.

Lemma sumOver_zero p ds : sumOver p (λ _, 0) ds = 0.
Proof. induction ds as [|d ds IH]; [done|]. cbn [sumOver foldr]. fold (sumOver p (λ _, 0) ds). rewrite IH. by destruct (p d). Qed.

Lemma sumOver_bound p f ds : (∀ d, d ∈ ds → 0 ≤ f d) → ∀ d, d ∈ ds → p d = true → f d ≤ sumOver p f ds.
Proof.
  induction ds as [|x ds IH]; intros H d Hd Hp; [by apply elem_of_nil in Hd|]. cbn [sumOver foldr]. fold (sumOver p f ds).
  assert (0 ≤ f x) by (apply H; by left).
  assert (0 ≤ sumOver p f ds) by (rewrite <-(sumOver_zero p ds); apply sumOver_mono; intros; apply H; by right).
  apply elem_of_cons in Hd as [->|Hd].
  - rewrite Hp. lia.
  - assert (f d ≤ sumOver p f ds) by (apply IH; [intros; apply H; by right|done..]). destruct (p x); lia.
Qed.

Definition total (p : Demand → bool) (shares : gmap string Z) (ds : list Demand) : Z :=
  sumOver p (λ d, share shares d.(dTemplate)) ds.

Lemma share_give shares t t' : share (give shares t) t' = share shares t' + (if bool_decide (t = t') then 1 else 0).
Proof.
  unfold give, share at 1. case_bool_decide as E; [subst; by rewrite lookup_insert_eq|].
  rewrite lookup_insert_ne by done. unfold share. lia.
Qed.

Lemma total_give p shares ds d :
  NoDup (dTemplate <$> ds) → d ∈ ds → total p (give shares d.(dTemplate)) ds = total p shares ds + (if p d then 1 else 0).
Proof.
  unfold total. induction ds as [|x ds IH]; intros Hnd Hd; [by apply elem_of_nil in Hd|].
  rewrite fmap_cons, NoDup_cons in Hnd. destruct Hnd as [Hx Hnd]. cbn [sumOver foldr].
  fold (sumOver p (λ d0, share (give shares d.(dTemplate)) d0.(dTemplate)) ds) (sumOver p (λ d0, share shares d0.(dTemplate)) ds).
  rewrite share_give. apply elem_of_cons in Hd as [->|Hd].
  - rewrite bool_decide_true by done.
    rewrite (sumOver_ext p (λ d0, share (give shares x.(dTemplate)) d0.(dTemplate)) (λ d0, share shares d0.(dTemplate)) ds); [destruct (p x); lia|].
    intros y Hy _. rewrite share_give, bool_decide_false; [lia|]. intros E. apply Hx. rewrite E. by apply list_elem_of_fmap_2.
  - rewrite IH by done. rewrite bool_decide_false; [destruct (p x); lia|].
    intros E. apply Hx. rewrite <-E. by apply list_elem_of_fmap_2.
Qed.

(** ** The rotation *)

Lemma omap_lookup_all (pre l : list Demand) : omap (λ i, (pre ++ l) !! i) (seq (length pre) (length l)) = l.
Proof.
  revert pre. induction l as [|x l IH]; intros pre; [done|]. cbn [length seq omap list_omap].
  rewrite list_lookup_middle by done. f_equal. specialize (IH (pre ++ [x])).
  rewrite length_app, <-app_assoc in IH. cbn in IH. by rewrite Nat.add_comm in IH.
Qed.

Lemma shift_mod start i n : (start < n → i < n → (start + i) mod n = if decide (start + i < n) then start + i else start + i - n)%nat.
Proof.
  intros Hs Hi. case_decide; [by apply Nat.mod_small|]. symmetry. apply (Nat.mod_unique _ _ 1); lia.
Qed.

Lemma shifted_indices start n : (start < n)%nat → (λ i, ((start + i) mod n)%nat) <$> seq 0 n ≡ₚ seq 0 n.
Proof.
  intros Hs. apply NoDup_Permutation.
  - apply NoDup_fmap_2_strong; [|apply NoDup_seq]. intros i j Hi%elem_of_seq Hj%elem_of_seq.
    rewrite !shift_mod by lia. repeat case_decide; lia.
  - apply NoDup_seq.
  - intros i. rewrite list_elem_of_fmap. setoid_rewrite elem_of_seq. split.
    + intros (j & -> & Hj). rewrite shift_mod by lia. case_decide; lia.
    + intros Hi. destruct (decide (start ≤ i)%nat).
      * exists (i - start)%nat. split; [|lia]. rewrite shift_mod by lia. case_decide; lia.
      * exists (n + i - start)%nat. split; [|lia]. rewrite shift_mod by lia. case_decide; lia.
Qed.

Lemma omap_compose_list {A B} (f : nat → A) (g : A → option B) (l : list nat) : omap (λ i, g (f i)) l = omap g (f <$> l).
Proof. induction l as [|i l IH]; [done|]. cbn. by rewrite IH. Qed.

Lemma rotation_perm active start : (start < length active)%nat → rotation active start ≡ₚ active.
Proof.
  intros Hs. unfold rotation.
  rewrite (omap_compose_list (λ offset, ((start + offset) mod length active)%nat) (λ i, active !! i)).
  rewrite (shifted_indices start (length active)) by done. by rewrite (omap_lookup_all [] active : omap (λ i, active !! i) (seq 0 (length active)) = active).
Qed.

(** ** One deal *)

Section deal.
Context (limit : Z) (ds : list Demand).
Context (Hnd : NoDup (dTemplate <$> ds)) (Hpos : ∀ d, d ∈ ds → 0 < dFreshCreates d).

(** Every token is somewhere, and no template has more than it asked for. *)
Record Fair (shares : gmap string Z) (remaining : Z) : Prop := {
  fair_total : total anyDemand shares ds + remaining = limit;
  fair_left : 0 ≤ remaining;
  fair_capped : ∀ d, d ∈ ds → 0 ≤ share shares (dTemplate d) ≤ dFreshCreates d;
  fair_only : ∀ t, t ∉ dTemplate <$> ds → share shares t = 0
}.

Record dealt (quota : option Z) (skip : Demand → bool) (s s' : Dealing) : Prop := {
  dealt_fair : Fair (dlShares s') (dlRemaining s');
  dealt_mono : ∀ t, share (dlShares s) t ≤ share (dlShares s') t;
  dealt_given : dlGiven s' - dlGiven s = dlRemaining s - dlRemaining s';
  dealt_grows : dlGiven s ≤ dlGiven s';
  dealt_target : total (λ d, negb (skip d)) (dlShares s') ds = total (λ d, negb (skip d)) (dlShares s) ds + (dlGiven s' - dlGiven s);
  dealt_quota : ∀ q, quota = Some q → dlGiven s ≤ q → dlGiven s' ≤ q
}.

Lemma dealt_refl quota skip s s' :
  Fair (dlShares s) (dlRemaining s) → dlShares s' = dlShares s → dlRemaining s' = dlRemaining s → dlGiven s' = dlGiven s → dealt quota skip s s'.
Proof. intros HF E1 E2 E3. split; rewrite ?E1, ?E2, ?E3; try done; try lia. Qed.

Lemma dealt_trans quota skip s1 s2 s3 : dealt quota skip s1 s2 → dealt quota skip s2 s3 → dealt quota skip s1 s3.
Proof.
  intros [F1 M1 G1 W1 T1 Q1] [F2 M2 G2 W2 T2 Q2]. split; [done| |lia|lia|lia|].
  - intros t. specialize (M1 t). specialize (M2 t). lia.
  - intros q Hq H. by apply Q2, Q1.
Qed.

Lemma deal_dealt quota skip s d :
  Fair (dlShares s) (dlRemaining s) → d ∈ ds → 0 < dlRemaining s → skip d = false →
  share (dlShares s) (dTemplate d) < dFreshCreates d → (∀ q, quota = Some q → dlGiven s < q) →
  dealt quota skip s (deal s d).
Proof.
  intros [T L C O] Hd Hr Hs Hf Hq. split; cbn [deal dlShares dlRemaining dlGiven]; try lia.
  - split; [rewrite total_give by done; cbn; lia|lia| |].
    2: { intros t Ht. rewrite share_give, bool_decide_false, O; [done..|]. intros <-. apply Ht. by apply list_elem_of_fmap_2. }
    intros x Hx. specialize (C x Hx). rewrite share_give.
    case_bool_decide as E; [|lia]. rewrite E in Hf.
    assert (x = d) as ->; [|lia].
    apply list_elem_of_lookup in Hd as [i Hi], Hx as [j Hj].
    assert (j = i) as ->; [|congruence]. apply (NoDup_lookup _ _ _ (dTemplate d) Hnd); rewrite list_lookup_fmap; [by rewrite Hj, E|by rewrite Hi].
  - intros t. rewrite share_give. case_bool_decide; lia.
  - rewrite total_give by done. rewrite Hs. cbn. lia.
  - intros q E _. specialize (Hq q E). lia.
Qed.

(** The loop may go on. *)
Definition more (quota : option Z) (s : Dealing) : Prop := 0 < dlRemaining s ∧ ∀ q, quota = Some q → dlGiven s < q.

Lemma stop_spec quota s :
  if negb (0 <? dlRemaining s) || match quota with Some q => negb (dlGiven s <? q) | None => false end then ¬ more quota s else more quota s.
Proof.
  unfold more. destruct (Z.ltb_spec 0 (dlRemaining s)); cbn [negb orb]; [|lia]. destruct quota as [q|]; [|done].
  destruct (Z.ltb_spec (dlGiven s) q); cbn [negb]; [by split; [|intros ? [= <-]]|]. intros [_ H']. specialize (H' q eq_refl). lia.
Qed.

(** A template with nothing more to take from this loop. *)
Definition served (skip : Demand → bool) (shares : gmap string Z) (d : Demand) : Prop :=
  skip d = true ∨ dFreshCreates d ≤ share shares (dTemplate d).

Lemma sweep_dealt quota skip l s :
  (∀ d, d ∈ l → d ∈ ds) → Fair (dlShares s) (dlRemaining s) → dealt quota skip s (sweep quota skip l s).
Proof.
  revert s. induction l as [|d l IH]; intros s Hl HF; cbn [sweep]; [by apply dealt_refl|].
  pose proof (stop_spec quota s) as Hm. destruct (negb _ || _); [by apply dealt_refl|].
  assert (∀ x, x ∈ l → x ∈ ds) as Hl' by (intros; apply Hl; by right).
  destruct (skip d) eqn:Es; cbn [orb]; [by apply IH|]. destruct (Z.leb_spec (dFreshCreates d) (share (dlShares s) (dTemplate d))); [by apply IH|].
  assert (dealt quota skip s (deal s d)) as Hd. { apply deal_dealt; try done; [apply Hl; by left|apply Hm..]. }
  eapply dealt_trans; [exact Hd|]. apply IH; [done|apply Hd].
Qed.

Lemma sweep_progress quota skip l s :
  (∀ d, d ∈ l → d ∈ ds) → Fair (dlShares s) (dlRemaining s) →
  (dlProgressed (sweep quota skip l s) = true → dlProgressed s = true ∨ dlGiven s < dlGiven (sweep quota skip l s)) ∧
  (dlProgressed (sweep quota skip l s) = false →
     sweep quota skip l s = s ∧ (¬ more quota s ∨ ∀ d, d ∈ l → served skip (dlShares s) d)).
Proof.
  revert s. induction l as [|d l IH]; intros s Hl HF; cbn [sweep].
  { split; [by left|]. intros _. split; [done|]. right. by intros d ?%elem_of_nil. }
  pose proof (stop_spec quota s) as Hm. destruct (negb _ || _); [split; [by left|]; by auto|].
  assert (∀ x, x ∈ l → x ∈ ds) as Hl' by (intros; apply Hl; by right).
  assert (∀ (P : Prop), served skip (dlShares s) d → (P ∨ ∀ d, d ∈ l → served skip (dlShares s) d) →
    P ∨ ∀ x, x ∈ d :: l → served skip (dlShares s) x) as Hserve.
  { intros P Hd [?|H]; [by left|right]. intros x [->|?]%elem_of_cons; auto. }
  destruct (skip d) eqn:Es; cbn [orb].
  { destruct (IH s Hl' HF) as [H1 H2]. split; [done|]. intros (? & ?)%H2. split; [done|]. apply Hserve; [by left|done]. }
  destruct (Z.leb_spec (dFreshCreates d) (share (dlShares s) (dTemplate d))).
  { destruct (IH s Hl' HF) as [H1 H2]. split; [done|]. intros (? & ?)%H2. split; [done|]. apply Hserve; [by right|done]. }
  assert (dealt quota skip s (deal s d)) as Hd. { apply deal_dealt; try done; [apply Hl; by left|apply Hm..]. }
  assert (dealt quota skip (deal s d) (sweep quota skip l (deal s d))) as Hd' by (apply sweep_dealt; [done|apply Hd]).
  pose proof (dealt_grows _ _ _ _ Hd'). cbn [deal dlGiven] in *. split; [intros _; right; lia|].
  intros Hp. destruct (IH (deal s d) Hl' (dealt_fair _ _ _ _ Hd)) as [_ H2]. destruct (H2 Hp) as [E _]. rewrite E in Hp. done.
Qed.

(** Enough fuel for every token: the loop ends, out of tokens or quota or with
    every template served. *)
Lemma sweeps_end fuel quota skip l s :
  (∀ d, d ∈ l → d ∈ ds) → (∀ d, d ∈ ds → d ∈ l) → Fair (dlShares s) (dlRemaining s) → dlRemaining s ≤ Z.of_nat fuel →
  ∃ s', sweeps fuel quota skip l s = Some s' ∧ dealt quota skip s s' ∧
    (¬ more quota s' ∨ ∀ d, d ∈ ds → served skip (dlShares s') d).
Proof.
  intros Hl Hl'. revert s. induction fuel as [|fuel IH]; intros s HF Hfuel; cbn [sweeps];
    pose proof (stop_spec quota s) as Hm; destruct (negb _ || _).
  1,3: exists s; split_and!; [done|by apply dealt_refl|by left].
  { destruct Hm. lia. }
  set (s0 := mkDealing (dlShares s) (dlRemaining s) (dlGiven s) false).
  assert (dealt quota skip s s0) as H0 by by apply dealt_refl.
  assert (dealt quota skip s0 (sweep quota skip l s0)) as H1 by (apply sweep_dealt; done).
  destruct (sweep_progress quota skip l s0 Hl HF) as [Hp1 Hp2]. destruct (dlProgressed _).
  - destruct (Hp1 eq_refl) as [|Hg]; [done|]. pose proof (dealt_given _ _ _ _ H1). cbn [s0 dlRemaining dlGiven] in *.
    destruct (IH (sweep quota skip l s0) (dealt_fair _ _ _ _ H1)) as (s' & E & Hd & Hend); [lia|].
    exists s'. split_and!; [done| |done]. eapply dealt_trans; [exact H0|]. by eapply dealt_trans.
  - destruct (Hp2 eq_refl) as [E Hend]. rewrite E. exists s0. split_and!; [done..|].
    destruct Hend as [?|Hend]; [by left|right]. auto.
Qed.
(** ** The floors *)

Definition floors (l : list Demand) : Z := sumOver dHasFloor (λ _, 1) l.

Lemma floors_nonneg l : 0 ≤ floors l.
Proof.
  unfold floors. induction l as [|d l IH]; [done|]. cbn [sumOver foldr]. fold (sumOver dHasFloor (λ _, 1) l). destruct (dHasFloor d); lia.
Qed.

Lemma floorLoop_fair fb l shares remaining used :
  (∀ d, d ∈ l → d ∈ ds) → NoDup (dTemplate <$> l) → (∀ d, d ∈ l → share shares (dTemplate d) = 0) →
  Fair shares remaining → used ≤ fb → fb - used ≤ remaining →
  let '(shares', remaining') := floorLoop fb l shares remaining used in
  Fair shares' remaining' ∧ total elastic shares' ds = total elastic shares ds ∧ remaining - (fb - used) ≤ remaining' ∧
  (∀ t, share shares t ≤ share shares' t) ∧
  (used + floors l ≤ fb → ∀ d, d ∈ l → dHasFloor d = true → 1 ≤ share shares' (dTemplate d)).
Proof.
  revert shares remaining used. induction l as [|d l IH]; intros shares remaining used Hl Hn Hz HF Hu Hr; cbn [floorLoop].
  { split_and!; [done|done|lia|lia|]. by intros _ d ?%elem_of_nil. }
  rewrite fmap_cons, NoDup_cons in Hn. destruct Hn as [Hd Hn]. pose proof (floors_nonneg l) as Hfl.
  assert (floors (d :: l) = (if dHasFloor d then 1 else 0) + floors l) as Efl by done. rewrite Efl.
  assert (∀ x, x ∈ l → x ∈ ds) as Hl' by (intros; apply Hl; by right).
  destruct (Z.leb_spec fb used).
  { split_and!; [done|done|lia|lia|]. intros Hf x [->|Hx]%elem_of_cons Hfx; [rewrite Hfx in Hf; lia|].
    assert (1 ≤ floors l); [|destruct (dHasFloor d); lia]. by apply (sumOver_bound dHasFloor (λ _, 1) l ltac:(lia) x). }
  destruct (dHasFloor d) eqn:Ef.
  - assert (dealt None (λ _, false) (mkDealing shares remaining 0 false) (deal (mkDealing shares remaining 0 false) d)) as Hdl.
    { apply deal_dealt; cbn [dlShares dlRemaining]; [done|apply Hl; by left|lia|done| |done]. rewrite (Hz d) by by left. apply Hpos, Hl. by left. }
    specialize (IH (give shares (dTemplate d)) (remaining - 1) (used + 1) Hl' Hn).
    destruct (floorLoop _ _ _ _ _) as [shares' remaining'] eqn:E. destruct IH as (I1 & I2 & I3 & I4 & I5).
    + intros x Hx. rewrite share_give, bool_decide_false, (Hz x); [done|by right|]. intros Ex. apply Hd. rewrite Ex. by apply list_elem_of_fmap_2.
    + apply Hdl.
    + lia.
    + lia.
    + split_and!; [done| |lia| |].
      * rewrite I2, total_give by (done || (apply Hl; by left)). unfold elastic. rewrite Ef. cbn. lia.
      * intros t. specialize (I4 t). rewrite share_give in I4. case_bool_decide; lia.
      * intros Hf x [->|Hx]%elem_of_cons Hfx; [|apply I5; [lia|done..]].
        specialize (I4 (dTemplate d)). rewrite share_give, bool_decide_true, (Hz d) in I4 by (done || by left). lia.
  - specialize (IH shares remaining used Hl' Hn). destruct (floorLoop _ _ _ _ _) as [shares' remaining'].
    destruct IH as (I1 & I2 & I3 & I4 & I5); [intros; apply Hz; by right|done..|]. split_and!; [done..|].
    intros Hf x [->|Hx]%elem_of_cons Hfx; [congruence|]. apply I5; [lia|done..].
Qed.
End deal.

(** ** The shares *)

Lemma elasticDemand_sum active :
  (∀ d, d ∈ active → 0 < dFreshCreates d) → sumOver elastic dFreshCreates active ≤ maxInt64 →
  elasticDemand active = sumOver elastic dFreshCreates active.
Proof.
  intros Hpos. unfold elasticDemand. assert (∀ n, 0 ≤ n → n + sumOver elastic dFreshCreates active ≤ maxInt64 →
    foldl (λ n d, if negb (dHasFloor d) then wrap64 (n + dFreshCreates d) else n) n active = n + sumOver elastic dFreshCreates active) as H.
  { induction active as [|d l IH]; intros n Hn Hmax; [cbn; lia|]. cbn [foldl sumOver foldr] in *. fold (sumOver elastic dFreshCreates l) in *.
    assert (0 ≤ sumOver elastic dFreshCreates l).
    { rewrite <-(sumOver_zero elastic l). apply sumOver_mono. intros x Hx. assert (0 < dFreshCreates x) by (apply Hpos; by right). lia. }
    assert (0 < dFreshCreates d) by (apply Hpos; by left). assert (elastic d = negb (dHasFloor d)) as Ee by done. rewrite Ee in *.
    destruct (dHasFloor d); cbn [negb] in *; [rewrite IH; [lia|intros; apply Hpos; by right|lia..]|].
    rewrite wrap64_id by (unfold in_int64, minInt64 in *; lia). rewrite IH; [lia|intros; apply Hpos; by right|lia..]. }
  intros Hmax. rewrite H; lia.
Qed.

Lemma served_total skip shares ds :
  (∀ d, d ∈ ds → 0 ≤ share shares (dTemplate d) ≤ dFreshCreates d) → (∀ d, d ∈ ds → served skip shares d) →
  total (λ d, negb (skip d)) shares ds = sumOver (λ d, negb (skip d)) dFreshCreates ds.
Proof.
  intros Hc Hs. apply sumOver_ext. intros d Hd Hk. apply negb_true_iff in Hk. destruct (Hs d Hd) as [?|?]; [congruence|].
  specialize (Hc d Hd). lia.
Qed.

Lemma Fair_start limit ds : 0 ≤ limit → (∀ d, d ∈ ds → 0 < dFreshCreates d) → Fair limit ds ∅ limit.
Proof.
  intros Hl Hpos. split; [|done|..].
  - unfold total. rewrite (sumOver_ext _ _ (λ _, 0)), sumOver_zero; [lia|]. intros d _ _. unfold share. by rewrite lookup_empty.
  - intros d Hd. unfold share. rewrite lookup_empty. specialize (Hpos d Hd). cbn. lia.
  - intros t _. unfold share. by rewrite lookup_empty.
Qed.

Lemma Fair_nonneg limit ds p shares remaining : Fair limit ds shares remaining → 0 ≤ total p shares ds.
Proof.
  intros HF. unfold total. rewrite <-(sumOver_zero p ds). apply sumOver_mono. intros d Hd. apply (fair_capped _ _ _ _ HF d Hd).
Qed.

(** The three loops over one rotation. *)
Lemma three_loops limit reserve ds :
  NoDup (dTemplate <$> ds) → (∀ d, d ∈ ds → 0 < dFreshCreates d) →
  0 ≤ reserve ≤ limit → reserve ≤ sumOver elastic dFreshCreates ds →
  let '(shares, remaining) := floorLoop (limit - reserve) ds ∅ limit 0 in
  ∃ s1 s2, sweeps (Z.to_nat limit) (Some reserve) dHasFloor ds (mkDealing shares remaining 0 false) = Some s1 ∧
    sweeps (Z.to_nat limit) None (λ _, false) ds (mkDealing (dlShares s1) (dlRemaining s1) 0 false) = Some s2 ∧
    Fair limit ds (dlShares s2) (dlRemaining s2) ∧
    (dlRemaining s2 = 0 ∨ total anyDemand (dlShares s2) ds = sumOver anyDemand dFreshCreates ds) ∧
    reserve ≤ total elastic (dlShares s2) ds ∧
    (floors ds ≤ limit - reserve → ∀ d, d ∈ ds → dHasFloor d = true → 1 ≤ share (dlShares s2) (dTemplate d)).
Proof.
  intros Hnd Hpos HR HE.
  assert (Fair limit ds ∅ limit) as HF by (apply Fair_start; [lia|done]).
  pose proof (floorLoop_fair limit ds Hnd Hpos (limit - reserve) ds ∅ limit 0 ltac:(done) Hnd) as Hfl.
  destruct (floorLoop _ _ _ _ _) as [shares remaining].
  destruct Hfl as (F0 & T0 & R0 & _ & FL); [intros; unfold share; by rewrite lookup_empty|done|lia|lia|].
  pose proof (fair_left _ _ _ _ F0). assert (remaining ≤ limit) as Hrem.
  { pose proof (fair_total _ _ _ _ F0). pose proof (Fair_nonneg _ _ anyDemand _ _ F0). lia. }
  destruct (sweeps_end limit ds Hnd (Z.to_nat limit) (Some reserve) dHasFloor ds (mkDealing shares remaining 0 false)
    ltac:(done) ltac:(done) F0) as (s1 & E1 & D1 & End1); [cbn; lia|].
  pose proof (dealt_given _ _ _ _ _ _ D1) as G1. pose proof (dealt_grows _ _ _ _ _ _ D1) as W1. cbn [dlGiven dlRemaining] in G1, W1.
  destruct (sweeps_end limit ds Hnd (Z.to_nat limit) None (λ _, false) ds (mkDealing (dlShares s1) (dlRemaining s1) 0 false)
    ltac:(done) ltac:(done) (dealt_fair _ _ _ _ _ _ D1)) as (s2 & E2 & D2 & End2); [cbn; lia|].
  pose proof (dealt_fair _ _ _ _ _ _ D2) as F2. exists s1, s2. split_and!; [done|done|done| | |].
  - destruct End2 as [Hm|Hs]; [left|right].
    + pose proof (fair_left _ _ _ _ F2). destruct (decide (dlRemaining s2 = 0)); [done|]. destruct Hm. split; [lia|done].
    + apply (served_total (λ _, false)); [apply (fair_capped _ _ _ _ F2)|done].
  - assert (total elastic (dlShares s1) ds ≤ total elastic (dlShares s2) ds) as Hm12.
    { apply sumOver_mono. intros d _. apply (dealt_mono _ _ _ _ _ _ D2). }
    destruct End1 as [Hm|Hs].
    + pose proof (dealt_target _ _ _ _ _ _ D1) as T1. cbn [dlShares dlGiven] in T1. fold elastic in T1.
      pose proof (Fair_nonneg _ _ elastic _ _ F0).
      pose proof (fair_left _ _ _ _ (dealt_fair _ _ _ _ _ _ D1)). destruct (decide (dlGiven s1 < reserve)); [|lia].
      destruct (decide (dlRemaining s1 = 0)); [lia|]. destruct Hm. split; [lia|]. by intros ? [= <-].
    + pose proof (served_total dHasFloor (dlShares s1) ds (fair_capped _ _ _ _ (dealt_fair _ _ _ _ _ _ D1)) Hs) as T1. fold elastic in T1. lia.
  - intros Hf d Hd Hdf. assert (1 ≤ share shares (dTemplate d)) by (apply FL; [lia|done..]).
    pose proof (dealt_mono _ _ _ _ _ _ D1 (dTemplate d)). pose proof (dealt_mono _ _ _ _ _ _ D2 (dTemplate d)). cbn [dlShares] in *. lia.
Qed.

Lemma active_pos demands d : d ∈ activeDemands demands → 0 < dFreshCreates d.
Proof. unfold activeDemands. rewrite list_elem_of_In, filter_In. intros [_ H%Z.ltb_lt]. done. Qed.

Lemma elasticReserve_min limit active :
  (∀ d, d ∈ active → 0 < dFreshCreates d) → sumOver elastic dFreshCreates active ≤ maxInt64 →
  elasticReserve limit active = Z.min (limit / 4) (sumOver elastic dFreshCreates active).
Proof.
  intros Hpos Hmax. unfold elasticReserve. rewrite elasticDemand_sum by done. cbv zeta.
  destruct (Z.ltb_spec (sumOver elastic dFreshCreates active) (limit / 4)); lia.
Qed.

Lemma fairShares_spec demands limit seed :
  let active := activeDemands demands in
  let elasticSum := sumOver elastic dFreshCreates active in
  NoDup (dTemplate <$> active) → 0 < limit → (2 ≤ length active)%nat → elasticSum ≤ maxInt64 →
  ∃ shares rest, fairShares demands limit seed = Some (Some shares, rest) ∧
    (∀ d, d ∈ active → 0 ≤ share shares (dTemplate d) ≤ dFreshCreates d) ∧
    total anyDemand shares active = Z.min limit (sumOver anyDemand dFreshCreates active) ∧
    rest = limit - total anyDemand shares active ∧
    Z.min (limit / 4) elasticSum ≤ total elastic shares active ∧
    (floors active ≤ limit - limit / 4 → ∀ d, d ∈ active → dHasFloor d = true → 1 ≤ share shares (dTemplate d)) ∧
    (∀ t, t ∉ dTemplate <$> active → share shares t = 0).
Proof.
  intros active elasticSum Hnd Hl H2 Hmax. pose proof (active_pos demands) as Hpos. fold active in Hpos.
  set (start := Z.to_nat (seed mod Z.of_nat (length active))). set (ds := rotation active start).
  assert (ds ≡ₚ active) as Hp. { apply rotation_perm. unfold start. pose proof (Z.mod_pos_bound seed (Z.of_nat (length active))). lia. }
  pose proof (elasticReserve_min limit active Hpos Hmax) as HR. fold elasticSum in HR.
  assert (0 ≤ elasticSum).
  { unfold elasticSum. rewrite <-(sumOver_zero elastic active). apply sumOver_mono. intros d Hd. specialize (Hpos d Hd). lia. }
  pose proof (Z.div_pos limit 4). pose proof (Z.div_le_upper_bound limit 4 limit).
  pose proof (three_loops limit (elasticReserve limit active) ds ltac:(by rewrite Hp)) as HT.
  unfold fairShares. destruct (Z.leb_spec limit 0); [lia|]. fold active. destruct (Nat.leb_spec (length active) 1); [lia|].
  fold start ds. cbv zeta. destruct (floorLoop _ _ _ _ _) as [shares remaining].
  destruct HT as (s1 & s2 & -> & E2 & [T L C O] & Hend & Hel & Hfl); [intros d; rewrite Hp; apply Hpos|lia|rewrite (sumOver_perm _ _ ds active Hp); lia|].
  cbn [mbind option_bind]. rewrite E2. cbn [mbind option_bind]. exists (dlShares s2), (dlRemaining s2).
  unfold total in *. rewrite !(sumOver_perm _ _ ds active Hp) in *.
  assert (sumOver anyDemand (λ d, share (dlShares s2) (dTemplate d)) active ≤ sumOver anyDemand dFreshCreates active).
  { apply sumOver_mono. intros d Hd. apply C. by rewrite Hp. }
  split_and!; [done| |lia|lia|lia| |].
  - intros d Hd. apply C. by rewrite Hp.
  - intros Hf d Hd. apply Hfl; [|by rewrite Hp]. unfold floors in *. rewrite (sumOver_perm _ _ ds active Hp). lia.
  - intros t Ht. apply O. by rewrite Hp.
Qed.

(** C12 The shares of a planning cycle, for distinct templates whose demand fits
    a machine integer: the shares exist (the loops end); none exceeds its
    template's demand; together they are the limit or the whole demand,
    whichever is smaller, and the rest is spare; pools without a floor get a
    quarter of the limit or all they ask for; and when the other three quarters
    cover the floors, every pool with a floor gets a token; no other
    template has a share. *)
Theorem fair_shares demands limit seed :
  let active := activeDemands demands in
  let elasticSum := sumOver elastic dFreshCreates active in
  NoDup (dTemplate <$> active) → 0 < limit → (2 ≤ length active)%nat → elasticSum ≤ maxInt64 →
  ∃ shares rest, fairShares demands limit seed = Some (Some shares, rest) ∧
    (∀ d, d ∈ active → 0 ≤ share shares (dTemplate d) ≤ dFreshCreates d) ∧
    total anyDemand shares active = Z.min limit (sumOver anyDemand dFreshCreates active) ∧
    rest = limit - total anyDemand shares active ∧
    Z.min (limit / 4) elasticSum ≤ total elastic shares active ∧
    (floors active ≤ limit - limit / 4 → ∀ d, d ∈ active → dHasFloor d = true → 1 ≤ share shares (dTemplate d)) ∧
    (∀ t, t ∉ dTemplate <$> active → share shares t = 0).
Proof. apply fairShares_spec. Qed.

(** ** The budget in use *)

Definition isClaim (t : string) (op : BudgetOp) : bool := match op with OpClaim t' => t' == t | OpRelease => false end.

Definition claims (t : string) (ops : list BudgetOp) : Z := Z.of_nat (length (List.filter (isClaim t) ops)).
Definition releases (ops : list BudgetOp) : Z := Z.of_nat (length (List.filter (λ op, match op with OpRelease => true | _ => false end) ops)).
Definition granted (log : list (string * bool)) : Z := Z.of_nat (length (List.filter snd log)).

Lemma budgetRun_app b ops ops' log :
  foldl budgetStep (b, log) (ops ++ ops') = foldl budgetStep (foldl budgetStep (b, log) ops) ops'.
Proof. apply foldl_app. Qed.

(** What one claim does to the tokens. *)
Lemma TryClaim_tokens b t :
  let '(ok, b') := TryClaim (Some b) t in
  ∃ c, b' = Some c ∧ cbRemaining c = cbRemaining b - (if ok then 1 else 0) ∧ (0 ≤ cbRemaining b → 0 ≤ cbRemaining c).
Proof.
  cbn [TryClaim]. destruct (Z.leb_spec (cbRemaining b) 0); [exists b; split_and!; [done|lia..]|].
  destruct (cbTemplateRemaining b) as [m|].
  - destruct (0 <? share m t); [|destruct (0 <? cbSpare b)].
    1,2: eexists; split; [reflexivity|]; cbn [cbRemaining]; lia.
    exists b. split_and!; [done|lia..].
  - eexists. split; [reflexivity|]. cbn [cbRemaining]. lia.
Qed.

Lemma granted_app l1 l2 : granted (l1 ++ l2) = granted l1 + granted l2.
Proof. unfold granted. rewrite List.filter_app, length_app. lia. Qed.

(** The limit holds over any interleaving of claims and refunds: the tokens
    left are the tokens at the start, less the claims granted, plus the
    refunds, and never negative; so without refunds no more than the limit is
    granted. *)
Theorem budget_bounded b ops :
  0 ≤ cbRemaining b →
  let '(b', log) := budgetRun (Some b) ops in
  ∃ c, b' = Some c ∧ cbRemaining c = cbRemaining b - granted log + releases ops ∧ 0 ≤ cbRemaining c.
Proof.
  intros Hb. unfold budgetRun. induction ops as [|op ops IH] using rev_ind.
  { exists b. cbn. split_and!; [done|unfold granted, releases; cbn; lia|done]. }
  rewrite budgetRun_app. destruct (foldl budgetStep (Some b, []) ops) as [b' log]. destruct IH as (c & -> & E & Hc).
  unfold releases in *. rewrite List.filter_app, length_app. destruct op as [t|]; cbn [foldl budgetStep fst snd].
  - pose proof (TryClaim_tokens c t) as HT. destruct (TryClaim (Some c) t) as [ok b']. destruct HT as (c' & -> & E' & Hc').
    exists c'. split_and!; [done| |by apply Hc']. rewrite granted_app. destruct ok; unfold granted in *; cbn in *; lia.
  - exists (mkCreateBudget (cbRemaining c + 1) (cbTemplateRemaining c) match cbTemplateRemaining c with Some _ => cbSpare c + 1 | None => cbSpare c end).
    split_and!; [done|cbn [cbRemaining List.filter length]; lia|cbn [cbRemaining]; lia].
Qed.

(** A budget whose tokens are all accounted for: reserved for the template of
    an active demand, or spare. *)
Record Accounted (ds : list Demand) (b : CreateBudget) (m : gmap string Z) : Prop := {
  acc_shares : cbTemplateRemaining b = Some m;
  acc_sum : total anyDemand m ds + cbSpare b = cbRemaining b;
  acc_spare : 0 ≤ cbSpare b;
  acc_nonneg : ∀ t, 0 ≤ share m t;
  acc_only : ∀ t, t ∉ dTemplate <$> ds → share m t = 0
}.

Lemma share_take m t t' : share (<[t := share m t - 1]> m) t' = share m t' - (if bool_decide (t = t') then 1 else 0).
Proof.
  unfold share at 1. case_bool_decide as E; [subst; by rewrite lookup_insert_eq|].
  rewrite lookup_insert_ne by done. unfold share. lia.
Qed.

Lemma total_take m ds t :
  NoDup (dTemplate <$> ds) → t ∈ dTemplate <$> ds → total anyDemand (<[t := share m t - 1]> m) ds = total anyDemand m ds - 1.
Proof.
  intros Hnd (d & -> & Hd)%list_elem_of_fmap. set (m' := <[dTemplate d := share m (dTemplate d) - 1]> m).
  assert (total anyDemand (give m' (dTemplate d)) ds = total anyDemand m ds) as <-.
  { apply sumOver_ext. intros x _ _. unfold m'. rewrite share_give, share_take. lia. }
  rewrite total_give by done. cbn. lia.
Qed.

(** A template with a share is granted; a step of another template leaves the
    share alone. *)
Lemma budgetStep_accounted ds b m log op :
  NoDup (dTemplate <$> ds) → Accounted ds b m →
  ∃ c m' log', budgetStep (Some b, log) op = (Some c, log') ∧ Accounted ds c m' ∧
    ∀ t, share m t - (if isClaim t op then 1 else 0) ≤ share m' t.
Proof.
  intros Hnd HA. destruct HA as [Em Es Hs Hn Ho] eqn:EA. clear EA. destruct op as [t|]; cbn [budgetStep TryClaim Release fst snd].
  2: { rewrite Em. do 3 eexists. split; [reflexivity|]. split; [split; cbn; try done; lia|]. intros t. cbn. lia. }
  assert (∀ t', share m t' - (if isClaim t' (OpClaim t) then 1 else 0) ≤ share m t') as Hsame by (intros t'; destruct (isClaim t' _); lia).
  destruct (cbRemaining b <=? 0); [exists b, m; eexists; done|]. rewrite Em. destruct (Z.ltb_spec 0 (share m t)) as [Hlt|Hge].
  - do 3 eexists. split; [reflexivity|]. split.
    + assert (t ∈ dTemplate <$> ds) as Ht by (apply dec_stable; intros H%Ho; lia).
      split; cbn [cbTemplateRemaining cbSpare cbRemaining]; [done|rewrite total_take by done; lia|done|..].
      * intros t'. rewrite share_take. specialize (Hn t'). case_bool_decide; subst; lia.
      * intros t' Ht'. rewrite share_take, bool_decide_false, Ho by (done || by intros ->). lia.
    + intros t'. rewrite share_take. cbn [isClaim]. case_bool_decide; lia.
  - destruct (Z.ltb_spec 0 (cbSpare b)); [|exists b, m; eexists; done]. do 3 eexists. split; [reflexivity|]. split; [|done].
    split; cbn [cbTemplateRemaining cbSpare cbRemaining]; [done|lia|lia|done|done].
Qed.

Lemma claims_snoc t ops op : claims t (ops ++ [op]) = claims t ops + (if isClaim t op then 1 else 0).
Proof. unfold claims. rewrite List.filter_app, length_app. cbn [List.filter]. destruct (isClaim t op); cbn [length]; lia. Qed.

Lemma budgetRun_accounted ds b m ops :
  NoDup (dTemplate <$> ds) → Accounted ds b m →
  ∃ c m', (budgetRun (Some b) ops).1 = Some c ∧ Accounted ds c m' ∧ ∀ t, share m t - claims t ops ≤ share m' t.
Proof.
  intros Hnd HA. unfold budgetRun. induction ops as [|op ops IH] using rev_ind.
  { exists b, m. split_and!; [done..|]. intros t. unfold claims. cbn. lia. }
  destruct IH as (c & m' & E & HA' & Hs). rewrite budgetRun_app.
  destruct (foldl budgetStep (Some b, []) ops) as [b' log]. cbn [fst] in E. subst b'.
  destruct (budgetStep_accounted ds c m' log op Hnd HA') as (c' & m'' & log' & E' & HA'' & Hs').
  cbn [foldl]. rewrite E'. exists c', m''. split_and!; [done..|]. intros t. rewrite claims_snoc. specialize (Hs t). specialize (Hs' t). lia.
Qed.

(** C11 A share is safe: after the shares are set, a template that has asked
    fewer times than its share is granted its next claim, whatever the other
    templates claimed and whoever refunded in between. *)
Theorem share_isolated demands limit seed ops t :
  let active := activeDemands demands in
  NoDup (dTemplate <$> active) → 0 < limit → (2 ≤ length active)%nat → sumOver elastic dFreshCreates active ≤ maxInt64 →
  ∃ b m, ConfigureFairShare (NewCreateBudget limit) demands seed = Some (Some b) ∧ cbTemplateRemaining b = Some m ∧
    (claims t ops < share m t → (TryClaim (budgetRun (Some b) ops).1 t).1 = true).
Proof.
  intros active Hnd Hl H2 Hmax. destruct (fairShares_spec demands limit seed Hnd Hl H2 Hmax) as (m & rest & E & Hc & Ht & Hr & _ & _ & Ho).
  exists (mkCreateBudget limit (Some m) rest), m. unfold NewCreateBudget. rewrite (proj2 (Z.leb_gt _ _) Hl). cbn [ConfigureFairShare cbRemaining].
  rewrite E. cbn [mbind option_bind fst snd]. split_and!; [done..|]. intros Hlt. fold active in Hc, Ht, Hr, Ho.
  assert (∀ t, 0 ≤ share m t) as Hn.
  { intros t'. destruct (decide (t' ∈ dTemplate <$> active)) as [(d & -> & Hd)%list_elem_of_fmap|Hd]; [by apply Hc|by rewrite Ho]. }
  destruct (budgetRun_accounted active (mkCreateBudget limit (Some m) rest) m ops Hnd) as (c & m' & -> & [Em Es Hs Hn' Ho'] & Hsh).
  { split; cbn [cbTemplateRemaining cbSpare cbRemaining]; try done; lia. }
  specialize (Hsh t). assert (t ∈ dTemplate <$> active) as (d & -> & Hd)%list_elem_of_fmap by (apply dec_stable; intros H%Ho'; lia).
  assert (share m' (dTemplate d) ≤ total anyDemand m' active) by (apply (sumOver_bound anyDemand (λ x, share m' (dTemplate x))); [intros; apply Hn'|done..]).
  cbn [TryClaim]. destruct (Z.leb_spec (cbRemaining c) 0); [lia|]. rewrite Em. destruct (Z.ltb_spec 0 (share m' (dTemplate d))); [done|lia].
Qed.

(** ** A planning cycle *)

Definition pools : list Demand := [mkDemand "warm" 9 false; mkDemand "cold" 1 true; mkDemand "idle" 0 false].

(** The share of a template in a configured budget. *)
Definition reserved (b : option (option CreateBudget)) (t : string) : Z :=
  match b with
  | Some (Some b) => match b.(cbTemplateRemaining) with Some m => share m t | None => 0 end
  | _ => 0
  end.

Lemma fair_shares_witness : ∃ shares rest, fairShares pools 5 7 = Some (Some shares, rest) ∧ 1 ≤ share shares "cold".
Proof.
  destruct (fair_shares pools 5 7) as (shares & rest & E & _ & _ & _ & _ & Hf & _).
  - apply (bool_decide_unpack _). vm_compute. exact I.
  - lia.
  - vm_compute. lia.
  - vm_compute. congruence.
  - exists shares, rest. split; [exact E|]. apply (Hf ltac:(vm_compute; congruence) (mkDemand "cold" 1 true)); [|reflexivity].
    vm_compute. right. left.
Defined.

Lemma budget_bounded_witness :
  ∃ c, (budgetRun (Some (mkCreateBudget 1 None 0)) [OpClaim "warm"; OpClaim "cold"; OpRelease; OpClaim "cold"]).1 = Some c ∧ cbRemaining c = 0.
Proof.
  destruct (budget_bounded (mkCreateBudget 1 None 0) [OpClaim "warm"; OpClaim "cold"; OpRelease; OpClaim "cold"] ltac:(cbn; lia)) as (c & E & Hr & _).
  exists c. split; [exact E|exact Hr].
Defined.

Lemma share_isolated_witness :
  ∃ b, ConfigureFairShare (NewCreateBudget 5) pools 7 = Some (Some b) ∧
    (TryClaim (budgetRun (Some b) [OpClaim "warm"; OpClaim "warm"; OpClaim "warm"; OpClaim "warm"; OpClaim "warm"]).1 "cold").1 = true.
Proof.
  destruct (share_isolated pools 5 7 [OpClaim "warm"; OpClaim "warm"; OpClaim "warm"; OpClaim "warm"; OpClaim "warm"] "cold") as (b & m & E & Em & H).
  - apply (bool_decide_unpack _). vm_compute. exact I.
  - lia.
  - vm_compute. lia.
  - vm_compute. congruence.
  - exists b. split; [exact E|]. apply H. replace (share m "cold") with 1; [vm_compute; reflexivity|].
    assert (reserved (ConfigureFairShare (NewCreateBudget 5) pools 7) "cold" = 1) as Hs by (vm_compute; reflexivity).
    rewrite E in Hs. unfold reserved in Hs. rewrite Em in Hs. symmetry. exact Hs.
Defined.
