(* ===== verification/AgentConfig.v ===== *)
(** * AgentConfig: agents, rigs and named sessions, and the identities they own

    Models what the planners read of the configuration:
    [internal/config/session_capacity.go], the identity methods of
    [internal/config/config.go] and [internal/config/named_sessions.go], the
    template resolution of [cmd/gc/session_reconcile.go] and
    [cmd/gc/session_name_lookup.go], the pool slots of [cmd/gc/session_beads.go]
    and [cmd/gc/build_desired_state.go], and the session origins of
    [cmd/gc/session_origin.go].  The records hold the fields those functions
    read.  The planners pass a configuration that is not nil and agents out of
    it, so the nil guards of these functions have no counterpart. *)

From Stdlib Require Import Ascii.
From S2P Require Import Prelude GoBase GoText Beads SessionState SessionInfo SessionReconcile.

Local Open Scope Z_scope.

(** ** Strings *)

(** [strings.HasSuffix] and [strings.TrimSuffix]. *)
Definition HasSuffix (s suffix : string) : bool :=
  (String.length suffix <=? String.length s)%nat && (sdrop (String.length s - String.length suffix) s == suffix).

Definition TrimSuffix (s suffix : string) : string :=
  if HasSuffix s suffix then stake (String.length s - String.length suffix) s else s.

(** [strings.Cut]. *)
Definition Cut (s sep : string) : string * string * bool :=
  match Index s sep with
  | Some i => (stake i s, sdrop (i + String.length sep) s, true)
  | None => (s, "", false)
  end.

(** [path.Base]. *)
Fixpoint trimSlashes (fuel : nat) (path : string) : string :=
  match fuel with
  | O => path
  | S fuel => if HasSuffix path "/" then trimSlashes fuel (TrimSuffix path "/") else path
  end.

Definition pathBase (path : string) : string :=
  if path == "" then "."
  else
    let path := trimSlashes (String.length path) path in
    let path := match LastIndex path "/" with Some i => sdrop (S i) path | None => path end in
    if path == "" then "/" else path.

(** ** Configuration *)

Record Agent := mkAgent {
  agName : string;
  agDir : string;
  agBindingName : string;
  agScope : string;
  agSuspended : bool;
  agPoolName : string;
  agNamepool : string;
  agNamepoolNames : list string;
  agScaleCheck : string;
  agMinActiveSessions : option Z;
  agMaxActiveSessions : option Z
}.

Record Rig := mkRig {
  rigName : string;
  rigMaxActiveSessions : option Z
}.

Record NamedSession := mkNamedSession {
  nmName : string;
  nmTemplate : string;
  nmDir : string;
  nmBindingName : string
}.

Record City := mkCity {
  cityMaxActiveSessions : option Z;
  cityRigs : list Rig;
  cityAgents : list Agent;
  cityNamedSessions : list NamedSession
}.

(** ** Capacity *)

Definition EffectiveMaxActiveSessions (a : Agent) : option Z := a.(agMaxActiveSessions).

Definition EffectiveMinActiveSessions (a : Agent) : Z :=
  match a.(agMinActiveSessions) with
  | Some m => if 0 <? m then m else 0
  | None => 0
  end.

Definition SupportsGenericEphemeralSessions (a : Agent) : bool :=
  match EffectiveMaxActiveSessions a with
  | Some m => negb (m =? 0)
  | None => true
  end.

Definition hasNamepool (a : Agent) : bool := (TrimSpace a.(agNamepool) != "") || (0 <? length a.(agNamepoolNames))%nat.

Definition UsesCanonicalSingletonPoolIdentity (a : Agent) : bool :=
  if hasNamepool a then false
  else match EffectiveMaxActiveSessions a with Some m => m =? 1 | None => false end.

Definition SupportsInstanceExpansion (a : Agent) : bool :=
  if hasNamepool a then true
  else match EffectiveMaxActiveSessions a with
  | None => true
  | Some m =>
      if (m <? 0) || (1 <? m) then true
      else bool_decide (is_Some a.(agMinActiveSessions)) || (TrimSpace a.(agScaleCheck) != "")
  end.

Definition SupportsExpandedSessionIdentities (a : Agent) : bool :=
  match EffectiveMaxActiveSessions a with
  | Some m => if m =? 0 then false else SupportsInstanceExpansion a && negb (UsesCanonicalSingletonPoolIdentity a)
  | None => SupportsInstanceExpansion a && negb (UsesCanonicalSingletonPoolIdentity a)
  end.

Definition HasUnlimitedSessionCapacity (a : Agent) : bool :=
  match EffectiveMaxActiveSessions a with
  | Some m => m <? 0
  | None => true
  end.

(** The agent's own cap, or the first cap of a rig of its name, or the city's. *)
Definition ResolvedMaxActiveSessions (a : Agent) (cfg : City) : option Z :=
  match EffectiveMaxActiveSessions a with
  | Some m => Some m
  | None =>
      let fromRig :=
        if a.(agDir) != "" then
          find (λ rig, (rig.(rigName) == a.(agDir)) && bool_decide (is_Some rig.(rigMaxActiveSessions))) cfg.(cityRigs)
        else None in
      match fromRig with
      | Some rig => rig.(rigMaxActiveSessions)
      | None => cfg.(cityMaxActiveSessions)
      end
  end.

(** ** Identities *)

Definition BindingQualifiedName (a : Agent) : string :=
  if a.(agBindingName) == "" then a.(agName) else a.(agBindingName) +:+ "." +:+ a.(agName).

Definition QualifiedName (a : Agent) : string :=
  let name := BindingQualifiedName a in
  if a.(agDir) == "" then name else a.(agDir) +:+ "/" +:+ name.

Definition ParseQualifiedName (identity : string) : string * string :=
  match LastIndex identity "/" with
  | Some i => (stake i identity, sdrop (S i) identity)
  | None => ("", identity)
  end.

Definition QualifiedInstanceName (a : Agent) (instanceName : string) : string :=
  let name := if a.(agBindingName) != "" then a.(agBindingName) +:+ "." +:+ instanceName else instanceName in
  if a.(agDir) == "" then name else a.(agDir) +:+ "/" +:+ name.

Definition AgentMatchesIdentity (a : Agent) (identity : string) : bool :=
  if QualifiedName a == identity then true
  else if a.(agBindingName) == "" then
    let '(dir, name) := ParseQualifiedName identity in (a.(agDir) == dir) && (a.(agName) == name)
  else false.

Definition RoutedToIdentity (a : Agent) : string := if a.(agPoolName) != "" then a.(agPoolName) else QualifiedName a.

(** Whether [target] names a slot of the pool. *)
Definition slotTarget (a : Agent) (target : string) : bool :=
  let prefix := RoutedToIdentity a +:+ "-" in
  SupportsExpandedSessionIdentities a && HasPrefix target prefix &&
  match Atoi (sdrop (String.length prefix) target) with
  | Some n =>
      (1 <=? n) &&
      (HasUnlimitedSessionCapacity a || match EffectiveMaxActiveSessions a with Some m => n <=? m | None => false end)
  | None => false
  end.

Definition NormalizePoolRouteTarget (cfg : City) (target : string) : string :=
  if target == "" then target
  else match find (λ a, slotTarget a target) cfg.(cityAgents) with
  | Some a => RoutedToIdentity a
  | None => target
  end.

Definition legacyBoundTemplateMatchesUnboundAgent (agent : Agent) (template : string) : bool :=
  if TrimSpace agent.(agBindingName) != "" then false
  else
    let '(dir, local) := ParseQualifiedName (TrimSpace template) in
    if TrimSpace dir != TrimSpace agent.(agDir) then false
    else
      let '(binding, unbound, ok) := Cut local "." in
      if negb ok || (TrimSpace binding == "") then false else TrimSpace unbound == TrimSpace agent.(agName).

Definition findAgentByTemplate (cfg : City) (template : string) : option Agent :=
  let template := TrimSpace template in
  if template == "" then None
  else match find (λ a, AgentMatchesIdentity a template) cfg.(cityAgents) with
  | Some a => Some a
  | None => find (λ a, legacyBoundTemplateMatchesUnboundAgent a template) cfg.(cityAgents)
  end.

Definition normalizeAgentTemplateIdentity (cfg : City) (template : string) : string :=
  let template := TrimSpace template in
  if template == "" then ""
  else match findAgentByTemplate cfg template with
  | Some agent => QualifiedName agent
  | None => template
  end.

Definition agentTemplateIdentitiesEquivalent (cfg : City) (a b : string) : bool :=
  let a := TrimSpace a in
  let b := TrimSpace b in
  if (a == "") || (b == "") then false
  else if a == b then true
  else normalizeAgentTemplateIdentity cfg a == normalizeAgentTemplateIdentity cfg b.

(** ** Pool slots *)

Definition resolvePoolSlot (agentName template : string) : Z :=
  if negb (HasPrefix agentName (template +:+ "-")) then 0
  else
    let suffix := sdrop (S (String.length template)) agentName in
    match Atoi suffix with
    | Some slot => slot
    | None => if HasPrefix suffix "gc-" then AtoiValue (sdrop 3 suffix) else 0
    end.

(** The index of the first pool name that is [name]. *)
Fixpoint themedSlot (a : Agent) (name : string) (names : list string) (idx : Z) : Z :=
  match names with
  | [] => 0
  | themed :: names =>
      let themed := TrimSpace themed in
      if themed == "" then themedSlot a name names (idx + 1)
      else if themed == name then idx + 1
      else if TrimSpace (QualifiedInstanceName a themed) == name then idx + 1
      else themedSlot a name names (idx + 1)
  end.

(** With [allowLocalIdentity], as every caller here passes it. *)
Fixpoint resolvePersistedPoolIdentitySlot (a : Agent) (candidates : list string) : Z :=
  match candidates with
  | [] => 0
  | name :: candidates =>
      let name := TrimSpace name in
      if name == "" then resolvePersistedPoolIdentitySlot a candidates
      else if 0 <? resolvePoolSlot name (QualifiedName a) then resolvePoolSlot name (QualifiedName a)
      else if (a.(agBindingName) != "") && (0 <? resolvePoolSlot name (BindingQualifiedName a))
        then resolvePoolSlot name (BindingQualifiedName a)
      else if (a.(agBindingName) == "") && (0 <? resolvePoolSlot name a.(agName)) then resolvePoolSlot name a.(agName)
      else
        let slot := themedSlot a name a.(agNamepoolNames) 0 in
        if negb (slot =? 0) then slot else resolvePersistedPoolIdentitySlot a candidates
  end.

Definition poolSlotHasConfiguredBound (a : Agent) : bool :=
  (0 <? length a.(agNamepoolNames))%nat || bool_decide (is_Some (EffectiveMaxActiveSessions a)).

Definition inBoundsPoolSlot (a : Agent) (slot : Z) : bool :=
  if (slot <=? 0) || negb (poolSlotHasConfiguredBound a) then false
  else if (0 <? length a.(agNamepoolNames))%nat && (Z.of_nat (length a.(agNamepoolNames)) <? slot) then false
  else match EffectiveMaxActiveSessions a with
  | Some m => negb ((0 <? m) && (m <? slot))
  | None => true
  end.

(** The one qualified name among the matches; empty when several differ. *)
Fixpoint uniqueMatch (match_ : string) (agents : list Agent) : string :=
  match agents with
  | [] => match_
  | a :: agents =>
      if (match_ != "") && (match_ != QualifiedName a) then "" else uniqueMatch (QualifiedName a) agents
  end.

Definition resolveLegacyPoolTemplate (cfg : City) (storedTemplate : string) : string :=
  let storedTemplate := TrimSpace storedTemplate in
  if storedTemplate == "" then ""
  else match findAgentByTemplate cfg storedTemplate with
  | Some agent => QualifiedName agent
  | None =>
      uniqueMatch "" (List.filter (λ a,
        SupportsInstanceExpansion a && ((ParseQualifiedName (QualifiedName a)).2 == storedTemplate)) cfg.(cityAgents))
  end.

Definition resolvedTemplateForIdentity (identity : string) (cfg : City) : string :=
  let identity := TrimSpace identity in
  if identity == "" then ""
  else match findAgentByTemplate cfg identity with
  | Some agent => QualifiedName agent
  | None =>
      let resolved := resolveLegacyPoolTemplate cfg identity in
      if resolved != "" then resolved
      else uniqueMatch "" (List.filter (λ a,
        let slot := resolvePersistedPoolIdentitySlot a [identity] in
        SupportsInstanceExpansion a && (0 <? slot) && negb (poolSlotHasConfiguredBound a && negb (inBoundsPoolSlot a slot))) cfg.(cityAgents))
  end.

(** ** Sessions *)

Definition sessionBeadAgentNameInfo (i : Info) : string :=
  if text i "AgentName" != "" then text i "AgentName"
  else match find (λ label, HasPrefix label "agent:") i.(iLabels) with
  | Some label => TrimPrefix label "agent:"
  | None => ""
  end.

Definition normalizedSessionTemplateInfo (i : Info) (cfg : City) : string :=
  let template := text i "Template" in
  let byTemplate := if template != "" then findAgentByTemplate cfg template else None in
  match byTemplate with
  | Some agent => QualifiedName agent
  | None =>
      let agentName := sessionBeadAgentNameInfo i in
      let byName := if agentName != "" then resolvedTemplateForIdentity agentName cfg else "" in
      if byName != "" then byName
      else
        let byAlias := resolvedTemplateForIdentity (TrimSpace (text i "Alias")) cfg in
        if byAlias != "" then byAlias else template
  end.

Definition isNamedSessionInfo (i : Info) : bool := flag i "ConfiguredNamedSession".

Definition isManualSessionInfo (i : Info) : bool :=
  (TrimSpace (text i "SessionOrigin") == "manual") || (text i "ManualSessionMetadata" == "true").

Definition sessionOriginInfo (i : Info) : string :=
  let origin := TrimSpace (text i "SessionOrigin") in
  if origin != "" then origin
  else if isNamedSessionInfo i then "named"
  else if isManualSessionInfo i then "manual"
  else if flag i "PoolManaged" then "ephemeral"
  else if TrimSpace (text i "PoolSlot") != "" then "ephemeral"
  else if flag i "DependencyOnly" then "ephemeral"
  else
    let template := TrimSpace (text i "Template") in
    if template != "" then
      if 0 <? resolvePoolSlot (TrimSpace (sessionBeadAgentNameInfo i)) template then "ephemeral"
      else if 0 <? resolvePoolSlot (TrimSpace (text i "SessionNameMetadata")) template then "ephemeral"
      else ""
    else "".

Definition isEphemeralSessionInfo (i : Info) : bool := sessionOriginInfo i == "ephemeral".

Definition isPoolManagedSessionInfo (i : Info) : bool :=
  isEphemeralSessionInfo i || flag i "PoolManaged" || (TrimSpace (text i "PoolSlot") != "").

Definition SanitizeQualifiedNameForSession (agentName : string) : string :=
  ReplaceAll "." "__" (ReplaceAll "/" "--" agentName).

Definition PoolSessionName (template beadID : string) : string :=
  SanitizeQualifiedNameForSession (pathBase template) +:+ "-" +:+ beadID.

Definition infoOwnsPoolSessionName (i : Info) : bool :=
  let id := TrimSpace i.(iID) in
  let sn := TrimSpace (text i "SessionNameMetadata") in
  if (id == "") || (sn == "") then false
  else
    let template := TrimSpace (text i "Template") in
    if (template != "") && (sn == PoolSessionName template id) then true else HasSuffix sn ("-" +:+ id).

Definition existingPoolSlotInfo (a : Agent) (i : Info) : Z :=
  if UsesCanonicalSingletonPoolIdentity a then 0
  else
    let stored := if text i "PoolSlot" != "" then default 0 (Atoi (TrimSpace (text i "PoolSlot"))) else 0 in
    if 0 <? stored then stored
    else
      let slot := resolvePersistedPoolIdentitySlot a [sessionBeadAgentNameInfo i; text i "Alias"] in
      if 0 <? slot then slot
      else if (TrimSpace (text i "Alias") == "") && negb (infoOwnsPoolSessionName i) then
        let slot := resolvePersistedPoolIdentitySlot a [text i "SessionNameMetadata"] in
        if 0 <? slot then slot else 0
      else 0.

Definition isEphemeralSessionInfoForAgent (i : Info) (a : Agent) : bool :=
  if isEphemeralSessionInfo i then true
  else if negb (SupportsInstanceExpansion a) then false
  else if isNamedSessionInfo i || isManualSessionInfo i then false
  else 0 <? existingPoolSlotInfo a i.

Definition isDrainedSessionInfo (i : Info) : bool :=
  let state := TrimSpace (text i "MetadataState") in
  if state == "drained" then true
  else (state == "asleep") && (TrimSpace (text i "SleepReason") == SleepReasonDrained).

Definition isFailedCreateSessionInfo (i : Info) : bool := TrimSpace (text i "MetadataState") == StateFailedCreate.

(** ** Named sessions *)

Definition IdentityName (s : NamedSession) : string :=
  let identity := if s.(nmName) == "" then s.(nmTemplate) else s.(nmName) in
  if s.(nmBindingName) != "" then s.(nmBindingName) +:+ "." +:+ identity else identity.

Definition namedQualifiedName (s : NamedSession) : string :=
  if s.(nmDir) == "" then IdentityName s else s.(nmDir) +:+ "/" +:+ IdentityName s.

Definition TemplateQualifiedName (s : NamedSession) : string :=
  let tmpl := if s.(nmBindingName) != "" then s.(nmBindingName) +:+ "." +:+ s.(nmTemplate) else s.(nmTemplate) in
  if s.(nmDir) == "" then tmpl else s.(nmDir) +:+ "/" +:+ tmpl.

Definition FindNamedSession (cfg : City) (identity : string) : option NamedSession :=
  if identity == "" then None
  else match find (λ s, namedQualifiedName s == identity) cfg.(cityNamedSessions) with
  | Some s => Some s
  | None =>
      if Contains identity "." then None
      else match List.filter (λ s,
          (s.(nmBindingName) != "") && (IdentityName s == s.(nmBindingName) +:+ "." +:+ identity)) cfg.(cityNamedSessions) with
      | [s] => Some s
      | _ => None
      end
  end.

Definition hasRigNamed (cfg : City) (name : string) : bool := existsb (λ rig, rig.(rigName) == name) cfg.(cityRigs).

Definition setDir (a : Agent) (dir : string) : Agent :=
  mkAgent a.(agName) dir a.(agBindingName) a.(agScope) a.(agSuspended) a.(agPoolName) a.(agNamepool) a.(agNamepoolNames)
    a.(agScaleCheck) a.(agMinActiveSessions) a.(agMaxActiveSessions).

Definition FindAgent (cfg : City) (identity : string) : option Agent :=
  if identity == "" then None
  else match find (λ a, QualifiedName a == identity) cfg.(cityAgents) with
  | Some a => Some a
  | None =>
      let '(dir, name) := ParseQualifiedName identity in
      if (dir == "") || (name == "") then None
      else if negb (hasRigNamed cfg dir) then None
      else match List.filter (λ a, (a.(agName) == name) && (a.(agDir) == "") && (a.(agScope) == "rig")) cfg.(cityAgents) with
      | [a] => Some (setDir a dir)
      | _ => None
      end
  end.

Definition NormalizeNamedSessionTarget (target : string) : string := TrimSuffix (TrimSpace target) "/".

(** The agent of [FindNamedSessionSpec]; the other fields of the spec are not
    read by the planner. *)
Definition namedSpecAgent (cfg : City) (identity : string) : option Agent :=
  let identity := NormalizeNamedSessionTarget identity in
  if identity == "" then None
  else match FindNamedSession cfg identity with
  | Some named => FindAgent cfg (TemplateQualifiedName named)
  | None => None
  end.

(** ** Work *)

Definition legacyWorkflowRunTarget (b : Bead) : string :=
  if TrimSpace b.(bMetadata).["gc.kind"] != "workflow" then ""
  else if TrimSpace b.(bMetadata).["gc.routed_to"] != "" then ""
  else TrimSpace b.(bMetadata).["gc.run_target"].

Definition routedToOrLegacyWorkflowTarget (b : Bead) : string :=
  let routedTo := TrimSpace b.(bMetadata).["gc.routed_to"] in
  if routedTo != "" then routedTo else legacyWorkflowRunTarget b.
