(* ===== verification/GoSort.v ===== *)
(** * GoSort: [sort.SliceStable]

    A stable sort is determined by its comparison: the result is the
    permutation in which no element is less than an earlier one and elements
    that compare equal keep their order.  Here it is an insertion sort. *)

From stdpp Require Import sorting.
From S2P Require Import Prelude.

Section stable.
Context {A : Type} (less : A → A → bool).

Fixpoint insertStable (x : A) (l : list A) : list A :=
  match l with
  | [] => [x]
  | y :: l => if less y x then y :: insertStable x l else x :: y :: l
  end.

Definition SliceStable (l : list A) : list A := foldr insertStable [] l.

Lemma insertStable_perm x l : insertStable x l ≡ₚ x :: l.
Proof.
  induction l as [|y l IH]; [done|]. cbn [insertStable]. destruct (less y x); [|done]. rewrite IH. constructor.
Qed.

Lemma SliceStable_perm l : SliceStable l ≡ₚ l.
Proof. unfold SliceStable. induction l as [|x l IH]; [done|]. cbn [foldr]. by rewrite insertStable_perm, IH. Qed.

(** No element is less than an earlier one, for a strict weak order. *)
Definition inOrder (a b : A) : Prop := less b a = false.

Context (Hasym : ∀ a b, less a b = true → less b a = false).
Context (Htrans : ∀ a b c, less b a = false → less c b = false → less c a = false).

Lemma insertStable_sorted x l : StronglySorted inOrder l → StronglySorted inOrder (insertStable x l).
Proof.
  induction 1 as [|y l Hs IH Hall]; [by repeat constructor|]. cbn [insertStable]. destruct (less y x) eqn:E.
  - constructor; [done|]. rewrite insertStable_perm. constructor; [by apply Hasym|done].
  - constructor; [by constructor|]. constructor; [done|]. eapply Forall_impl; [exact Hall|]. intros z Hz. by eapply Htrans.
Qed.

Lemma SliceStable_sorted l : StronglySorted inOrder (SliceStable l).
Proof. unfold SliceStable. induction l as [|x l IH]; [constructor|]. by apply insertStable_sorted. Qed.

(** Elements that compare equal keep their order. *)
Lemma insertStable_stable x l p :
  (∀ y, p x = true → p y = true → less y x = false) →
  List.filter p (insertStable x l) = List.filter p (x :: l).
Proof.
  intros Hp. induction l as [|y l IH]; [done|]. cbn [insertStable]. destruct (less y x) eqn:E; [|done].
  cbn [List.filter] in *. rewrite IH. destruct (p x) eqn:Ex, (p y) eqn:Ey; try done. rewrite Hp in E; done.
Qed.

Lemma SliceStable_stable l p :
  (∀ x y, p x = true → p y = true → less y x = false) → List.filter p (SliceStable l) = List.filter p l.
Proof.
  intros Hp. unfold SliceStable. induction l as [|x l IH]; [done|]. cbn [foldr]. rewrite insertStable_stable by auto.
  cbn [List.filter]. by rewrite IH.
Qed.
End stable.
