(* ===== verification/PoolDesired.v ===== *)
(** * PoolDesired: how many sessions each pool should have

    Models [cmd/gc/pool_desired_state.go]: the requests that assigned work and
    scale checks make, and the nested caps (agent, rig, workspace) they pass.
    A Go map is a finite map; a cap of a template that is not configured reads
    0, as in Go.  Trace records are not modelled: they are written, never
    read. *)

From S2P Require Import Prelude GoBase GoText GoSort Beads SessionState SessionInfo SessionReconcile AgentConfig.

Local Open Scope Z_scope.

(** ** Data *)

Record SessionRequest := mkSessionRequest {
  srTemplate : string;
  srBeadPriority : Z;
  srTier : string;
  srSessionBeadID : string;
  srWorkBeadID : string;
  srWorkBeadTitle : string;
  srWorkPack : string;
  srWorkWorkspace : string;
  srWorkStoreRef : string;
  srBrainParentSID : string;
  srFloorGuarantee : bool
}.

Record PoolDesiredState := mkPoolDesiredState {
  pdTemplate : string;
  pdRequests : list SessionRequest
}.

Record scaleCheckDemand := mkScaleCheckDemand {
  sdWorkBeadIDs : list string;
  sdTitles : gmap string string;
  sdPacks : gmap string string;
  sdWorkspaces : gmap string string;
  sdStoreRefs : gmap string string;
  sdParentSIDs : gmap string string
}.

Definition noDemand : scaleCheckDemand := mkScaleCheckDemand [] ∅ ∅ ∅ ∅ ∅.

Definition beadPriority (b : Bead) : Z := default 0 b.(bPriority).

Definition isResumeLikeTier (tier : string) : bool := oneOf tier ["resume"; "wake-known-identity"].

(** ** Caps *)

Record nestedCapLimits := mkNestedCapLimits {
  lmWorkspaceMax : Z;
  lmRigMax : gmap string Z;
  lmAgentMax : gmap string Z;
  lmAgentRig : gmap string string
}.

Record nestedCapUsage := mkNestedCapUsage {
  usAgentCount : gmap string Z;
  usRigCount : gmap string Z;
  usWorkspaceCount : Z;
  usSeenSessionBead : gset string;
  usRequests : list SessionRequest
}.

Definition tally (m : gmap string Z) (k : string) : Z := default 0 (m !! k).

Definition newNestedCapLimits (cfg : City) : nestedCapLimits :=
  mkNestedCapLimits
    (default (-1) cfg.(cityMaxActiveSessions))
    (foldl (λ m rig, <[rig.(rigName) := default (-1) rig.(rigMaxActiveSessions)]> m) ∅ cfg.(cityRigs))
    (foldl (λ m a, <[QualifiedName a := default (-1) (ResolvedMaxActiveSessions a cfg)]> m) ∅ cfg.(cityAgents))
    (foldl (λ m a, <[QualifiedName a := a.(agDir)]> m) ∅ cfg.(cityAgents)).

Definition newNestedCapUsage : nestedCapUsage := mkNestedCapUsage ∅ ∅ 0 ∅ [].

Definition isDuplicateSessionRequest (u : nestedCapUsage) (req : SessionRequest) : bool :=
  (req.(srSessionBeadID) != "") && bool_decide (req.(srSessionBeadID) ∈ u.(usSeenSessionBead)).

(** The cap that rejects a request. *)
Inductive CapReason := AgentCap | RigCap | WorkspaceCap.

Definition rigMaxOf (limits : nestedCapLimits) (rig : string) : Z := default (-1) (limits.(lmRigMax) !! rig).

Definition rejection (u : nestedCapUsage) (req : SessionRequest) (limits : nestedCapLimits) : option CapReason :=
  let template := req.(srTemplate) in
  let agentMax := tally limits.(lmAgentMax) template in
  if (0 <=? agentMax) && (agentMax <=? tally u.(usAgentCount) template) then Some AgentCap
  else
    let rig := limits.(lmAgentRig).[template] in
    if (rig != "") && (0 <=? rigMaxOf limits rig) && (rigMaxOf limits rig <=? tally u.(usRigCount) rig) then Some RigCap
    else if (0 <=? limits.(lmWorkspaceMax)) && (limits.(lmWorkspaceMax) <=? u.(usWorkspaceCount)) then Some WorkspaceCap
    else None.

Definition accept (u : nestedCapUsage) (req : SessionRequest) (limits : nestedCapLimits) : nestedCapUsage :=
  let template := req.(srTemplate) in
  let rig := limits.(lmAgentRig).[template] in
  mkNestedCapUsage
    (<[template := tally u.(usAgentCount) template + 1]> u.(usAgentCount))
    (if rig != "" then <[rig := tally u.(usRigCount) rig + 1]> u.(usRigCount) else u.(usRigCount))
    (u.(usWorkspaceCount) + 1)
    (if req.(srSessionBeadID) != "" then {[req.(srSessionBeadID)]} ∪ u.(usSeenSessionBead) else u.(usSeenSessionBead))
    (u.(usRequests) ++ [req]).

Definition canAccept (u : nestedCapUsage) (req : SessionRequest) (limits : nestedCapLimits) : bool :=
  if isDuplicateSessionRequest u req then false
  else match rejection u req limits with Some _ => false | None => true end.

(** Priority descending; resume tiers first within a priority. *)
Definition requestLess (a b : SessionRequest) : bool :=
  if negb (a.(srBeadPriority) =? b.(srBeadPriority)) then b.(srBeadPriority) <? a.(srBeadPriority)
  else if a.(srTier) != b.(srTier) then isResumeLikeTier a.(srTier) && negb (isResumeLikeTier b.(srTier))
  else false.

Definition acceptedNestedCapUsage (limits : nestedCapLimits) (requests : list SessionRequest) : nestedCapUsage :=
  foldl (λ u req, if canAccept u req limits then accept u req limits else u) newNestedCapUsage (SliceStable requestLess requests).

Definition capNewDemandCount (limits : nestedCapLimits) (u : nestedCapUsage) (agent : Agent) (demand : Z) : Z :=
  if demand <=? 0 then 0
  else
    let template := QualifiedName agent in
    let agentMax := tally limits.(lmAgentMax) template in
    let remaining := if 0 <=? agentMax then Z.min demand (agentMax - tally u.(usAgentCount) template) else demand in
    let rig := limits.(lmAgentRig).[template] in
    let remaining :=
      if (rig != "") && (0 <=? rigMaxOf limits rig) then Z.min remaining (rigMaxOf limits rig - tally u.(usRigCount) rig) else remaining in
    let remaining :=
      if 0 <=? limits.(lmWorkspaceMax) then Z.min remaining (limits.(lmWorkspaceMax) - u.(usWorkspaceCount)) else remaining in
    if remaining <? 0 then 0 else remaining.

(** ** Applying the caps *)

Abbreviation Accepted := (gmap string (list SessionRequest)) (only parsing).

Definition addRequest (accepted : Accepted) (req : SessionRequest) : Accepted :=
  <[req.(srTemplate) := default [] (accepted !! req.(srTemplate)) ++ [req]]> accepted.

Definition capStep (limits : nestedCapLimits) (st : nestedCapUsage * Accepted) (req : SessionRequest) : nestedCapUsage * Accepted :=
  if isDuplicateSessionRequest st.1 req then st
  else match rejection st.1 req limits with
  | Some _ => st
  | None => (accept st.1 req limits, addRequest st.2 req)
  end.

Definition floorRequest (template : string) : SessionRequest :=
  mkSessionRequest template 0 "new" "" "" "" "" "" "" "" true.

(** One pass of the loop adds one session, so [minSess] passes are enough. *)
Fixpoint fillMin (fuel : nat) (limits : nestedCapLimits) (template : string) (minSess : Z) (st : nestedCapUsage * Accepted)
    : nestedCapUsage * Accepted :=
  match fuel with
  | O => st
  | S fuel =>
      if tally st.1.(usAgentCount) template <? minSess then
        match rejection st.1 (floorRequest template) limits with
        | Some _ => st
        | None => fillMin fuel limits template minSess (accept st.1 (floorRequest template) limits, addRequest st.2 (floorRequest template))
        end
      else st
  end.

Definition minStep (limits : nestedCapLimits) (held : gset string) (st : nestedCapUsage * Accepted) (agent : Agent) : nestedCapUsage * Accepted :=
  if agent.(agSuspended) then st
  else
    let template := QualifiedName agent in
    let minSess := EffectiveMinActiveSessions agent in
    if bool_decide (template ∈ held) then st else fillMin (Z.to_nat minSess) limits template minSess st.

Definition applyCaps (cfg : City) (requests : list SessionRequest) (held : gset string) : nestedCapUsage * Accepted :=
  let limits := newNestedCapLimits cfg in
  let st := foldl (capStep limits) (newNestedCapUsage, ∅) (SliceStable requestLess requests) in
  foldl (minStep limits held) st cfg.(cityAgents).

Definition templateLess (a b : PoolDesiredState) : bool := sltb a.(pdTemplate) b.(pdTemplate).

Definition applyNestedCaps (cfg : City) (requests : list SessionRequest) (held : gset string) : list PoolDesiredState :=
  SliceStable templateLess ((λ e : string * list SessionRequest, mkPoolDesiredState e.1 e.2) <$> map_to_list (applyCaps cfg requests held).2).

Definition PoolDesiredCounts (states : list PoolDesiredState) : gmap string Z :=
  foldl (λ m s, <[s.(pdTemplate) := Z.of_nat (length s.(pdRequests))]> m) ∅ states.

(** ** Sessions *)

(** The tables built from the open sessions that have no terminal error. *)
Record SessionTables := mkSessionTables {
  stAssignee : gmap string string;      (* identity to session bead *)
  stTemplate : gmap string string;      (* session bead to template *)
  stNamed : gset string                 (* beads of named sessions *)
}.

Definition usableSession (sb : Info) : bool := negb sb.(iClosed) && negb (sessionHasProviderTerminalErrorInfo sb).

Definition addSession (cfg : City) (t : SessionTables) (sb : Info) : SessionTables :=
  if negb (usableSession sb) then t
  else
    let template := TrimSpace (normalizedSessionTemplateInfo sb cfg) in
    mkSessionTables
      (foldl (λ m id, <[id := sb.(iID)]> m) t.(stAssignee) (AssigneeIdentities sb))
      (if template != "" then <[sb.(iID) := template]> t.(stTemplate) else t.(stTemplate))
      (if isNamedSessionInfo sb then {[sb.(iID)]} ∪ t.(stNamed) else t.(stNamed)).

Definition sessionTables (cfg : City) (infos : list Info) : SessionTables :=
  foldl (addSession cfg) (mkSessionTables ∅ ∅ ∅) infos.

(** A session that owns the canonical alias of a singleton pool. *)
Definition holdsAlias (template : string) (sb : Info) : bool :=
  if sb.(iClosed) || isPoolManagedSessionInfo sb || isDrainedSessionInfo sb || isFailedCreateSessionInfo sb then false
  else (TrimSpace (text sb "Alias") == template) || (isNamedSessionInfo sb && (TrimSpace (text sb "Template") == template)).

Definition canonicalSingletonAliasHeldTemplates (cfg : City) (infos : list Info) : gset string :=
  foldl (λ held a,
    if a.(agSuspended) || negb (UsesCanonicalSingletonPoolIdentity a) then held
    else if existsb (holdsAlias (QualifiedName a)) infos then {[QualifiedName a]} ∪ held else held) ∅ cfg.(cityAgents).

Definition poolSessionConsumesNewDemandInfo (info : Info) : bool :=
  if flag info "PendingCreateClaim" then true
  else oneOf (TrimSpace (text info "MetadataState")) ["creating"; StateStartPending].

Definition createdLess (a b : Info) : bool :=
  if negb (a.(iCreatedAt) =? b.(iCreatedAt)) then a.(iCreatedAt) <? b.(iCreatedAt) else sltb a.(iID) b.(iID).

Definition isInFlight (cfg : City) (agent : Agent) (resumed : gset string) (sb : Info) : bool :=
  negb ((sb.(iID) == "") || sb.(iClosed)) && negb (sessionHasProviderTerminalErrorInfo sb) &&
  negb (bool_decide (sb.(iID) ∈ resumed)) &&
  (isEphemeralSessionInfoForAgent sb agent && isPoolManagedSessionInfo sb) &&
  (normalizedSessionTemplateInfo sb cfg == QualifiedName agent) && poolSessionConsumesNewDemandInfo sb.

Definition inFlightRequest (template : string) (sb : Info) : SessionRequest :=
  mkSessionRequest template 0 "new" sb.(iID) (TrimSpace (text sb "TriggerBeadID")) "" "" ""
    (TrimSpace (text sb "TriggerBeadStoreRef")) (TrimSpace (text sb "BrainParentSID")) false.

Definition poolInFlightNewRequests (cfg : City) (infos : list Info) (resumed : gset string) : Accepted :=
  foldl (λ requests a,
    if a.(agSuspended) || negb (SupportsGenericEphemeralSessions a) then requests
    else foldl addRequest requests
      (inFlightRequest (QualifiedName a) <$> List.filter (isInFlight cfg a resumed) (SliceStable createdLess infos))) ∅ cfg.(cityAgents).

(** ** Assigned work *)

Definition isConfiguredNamedSessionIdentity (cfg : City) (assignee : string) : bool :=
  let assignee := TrimSpace assignee in
  if assignee == "" then false
  else match namedSpecAgent cfg assignee with
  | Some agent => negb agent.(agSuspended)
  | None => false
  end.

Definition isKnownPoolTemplate (assignee : string) (cfg : City) : bool :=
  let assignee := TrimSpace assignee in
  if assignee == "" then false
  else existsb (λ a,
    negb (a.(agSuspended) || negb (SupportsGenericEphemeralSessions a)) &&
    agentTemplateIdentitiesEquivalent cfg assignee (QualifiedName a)) cfg.(cityAgents).

Definition workRequest (template tier sessionBeadID : string) (wb : Bead) : SessionRequest :=
  mkSessionRequest template (beadPriority wb) tier sessionBeadID wb.(bID) (TrimSpace wb.(bTitle))
    (TrimSpace wb.(bMetadata).["gc.pack"]) (TrimSpace wb.(bMetadata).["gc.pack_workspace"]) ""
    (TrimSpace wb.(bMetadata).["gc.brain_parent_sid"]) false.

(** The template a work bead is routed to, given the session its assignee
    resolves to. *)
Definition workRoute (cfg : City) (t : SessionTables) (wb : Bead) (sessionBeadID : string) : string :=
  let routedTo := routedToOrLegacyWorkflowTarget wb in
  let routedTo :=
    if (routedTo == "") && (sessionBeadID != "") then
      let byTemplate := t.(stTemplate).[sessionBeadID] in
      match byTemplate, cfg.(cityAgents) with
      | "", [a] => QualifiedName a
      | _, _ => byTemplate
      end
    else routedTo in
  normalizeAgentTemplateIdentity cfg (NormalizePoolRouteTarget cfg routedTo).

Definition resumeStep (cfg : City) (t : SessionTables) (template : string) (st : list SessionRequest * gset string) (wb : Bead)
    : list SessionRequest * gset string :=
  if negb (oneOf wb.(bStatus) ["in_progress"; "open"]) then st
  else
    let assignee := TrimSpace wb.(bAssignee) in
    if assignee == "" then st
    else
      let sessionBeadID := t.(stAssignee).[assignee] in
      let routedTo := workRoute cfg t wb sessionBeadID in
      let sessionTemplate := TrimSpace t.(stTemplate).[sessionBeadID] in
      if (sessionBeadID != "") && ((sessionTemplate != "") && (routedTo != "") &&
         negb (agentTemplateIdentitiesEquivalent cfg routedTo sessionTemplate)) then st
      else if routedTo != template then st
      else if sessionBeadID != "" then
        if bool_decide (sessionBeadID ∈ t.(stNamed)) then st
        else (st.1 ++ [workRequest template "resume" sessionBeadID wb], st.2)
      else if isConfiguredNamedSessionIdentity cfg assignee then st
      else if negb (agentTemplateIdentitiesEquivalent cfg assignee template) || negb (isKnownPoolTemplate assignee cfg) then st
      else if bool_decide (template ∈ st.2) then st
      else (st.1 ++ [workRequest template "wake-known-identity" "" wb], {[template]} ∪ st.2).

Definition resumeRequests (cfg : City) (work : list Bead) (infos : list Info) : list SessionRequest :=
  let t := sessionTables cfg infos in
  (foldl (λ st a,
    if a.(agSuspended) then st
    else if negb (SupportsGenericEphemeralSessions a) then st
    else foldl (resumeStep cfg t (QualifiedName a)) st work) ([], ∅) cfg.(cityAgents)).1.

(** ** New demand *)

(** The anonymous request for slot [j] of the demand. *)
Definition newRequest (template : string) (demand : scaleCheckDemand) (j : nat) : SessionRequest :=
  match demand.(sdWorkBeadIDs) !! j with
  | Some id =>
      let id := TrimSpace id in
      mkSessionRequest template 0 "new" "" id (TrimSpace demand.(sdTitles).[id]) (TrimSpace demand.(sdPacks).[id])
        (TrimSpace demand.(sdWorkspaces).[id]) (TrimSpace demand.(sdStoreRefs).[id]) (TrimSpace demand.(sdParentSIDs).[id]) false
  | None => mkSessionRequest template 0 "new" "" "" "" "" "" "" "" false
  end.

(** The requests of a template's new demand: sessions in flight first. *)
Definition newDemandRequests (template : string) (inFlight : list SessionRequest) (demand : scaleCheckDemand) (newCount : Z)
    : list SessionRequest :=
  let reuse := Nat.min (length inFlight) (Z.to_nat newCount) in
  take reuse inFlight ++ (newRequest template demand <$> seq reuse (Z.to_nat newCount - reuse)).

Definition newDemandStep (cfg : City) (limits : nestedCapLimits) (counts : gmap string Z) (demands : gmap string scaleCheckDemand)
    (held : gset string) (inFlight : Accepted) (st : nestedCapUsage * list SessionRequest) (agent : Agent)
    : nestedCapUsage * list SessionRequest :=
  if agent.(agSuspended) then st
  else
    let template := QualifiedName agent in
    match counts !! template with
    | None => st
    | Some scaleCount =>
        if bool_decide (template ∈ held) then st
        else
          let newCount := capNewDemandCount limits st.1 agent scaleCount in
          let reqs := newDemandRequests template (default [] (inFlight !! template)) (default noDemand (demands !! template)) newCount in
          (foldl (λ u req, accept u req limits) st.1 reqs, st.2 ++ reqs)
    end.

Definition sessionBeadIDs (requests : list SessionRequest) : gset string :=
  list_to_set (List.filter (λ id, id != "") (srSessionBeadID <$> requests)).

(** Every request, before the caps. *)
Definition allRequests (cfg : City) (work : list Bead) (infos : list Info) (counts : gmap string Z) (demands : gmap string scaleCheckDemand)
    : list SessionRequest :=
  let resume := resumeRequests cfg work infos in
  let limits := newNestedCapLimits cfg in
  let usage := acceptedNestedCapUsage limits resume in
  let held := canonicalSingletonAliasHeldTemplates cfg infos in
  let inFlight := poolInFlightNewRequests cfg infos (sessionBeadIDs resume) in
  (foldl (newDemandStep cfg limits counts demands held inFlight) (usage, resume) cfg.(cityAgents)).2.

Definition computePoolDesiredStates (cfg : City) (work : list Bead) (infos : list Info) (counts : gmap string Z)
    (demands : gmap string scaleCheckDemand) : list PoolDesiredState :=
  applyNestedCaps cfg (allRequests cfg work infos counts demands) (canonicalSingletonAliasHeldTemplates cfg infos).

Definition ComputePoolDesiredStates (cfg : City) (work : list Bead) (infos : list Info) (counts : gmap string Z) : list PoolDesiredState :=
  computePoolDesiredStates cfg work infos counts ∅.
