(* ===== verification/PoolDesiredProps.v ===== *)
(** * PoolDesiredProps: the caps hold, and capacity goes by priority

    A request is charged to three scopes: its template, the template's rig and
    the workspace.  [Tallied] says the counters of the usage count what was
    accepted; [settled] says what became of a request that was considered. *)

From S2P Require Import Prelude GoBase GoText GoSort Beads SessionState SessionInfo AgentConfig PoolDesired.

Local Open Scope Z_scope.

(** ** Scopes *)

Inductive Scope := ScAgent (template : string) | ScRig (rig : string) | ScWorkspace.

Section caps.
Context (limits : nestedCapLimits).

Definition charged (sc : Scope) (req : SessionRequest) : bool :=
  match sc with
  | ScAgent t => srTemplate req == t
  | ScRig r => (r != "") && ((lmAgentRig limits).[srTemplate req] == r)
  | ScWorkspace => true
  end.

(** A negative cap is none. *)
Definition capOf (sc : Scope) : Z :=
  match sc with
  | ScAgent t => tally (lmAgentMax limits) t
  | ScRig r => rigMaxOf limits r
  | ScWorkspace => lmWorkspaceMax limits
  end.

Definition load (reqs : list SessionRequest) (sc : Scope) : Z := Z.of_nat (length (List.filter (charged sc) reqs)).

Lemma load_snoc reqs req sc : load (reqs ++ [req]) sc = load reqs sc + (if charged sc req then 1 else 0).
Proof. unfold load. rewrite List.filter_app, length_app. cbn [List.filter]. destruct (charged sc req); cbn [length]; lia. Qed.

Lemma load_perm l1 l2 sc : l1 ≡ₚ l2 → load l1 sc = load l2 sc.
Proof.
  unfold load. induction 1; cbn [List.filter]; repeat destruct (charged sc _); cbn [length] in *; lia.
Qed.

Definition namedIDs (reqs : list SessionRequest) : list string := List.filter (λ id, id != "") (srSessionBeadID <$> reqs).

Lemma namedIDs_snoc reqs req :
  namedIDs (reqs ++ [req]) = namedIDs reqs ++ (if srSessionBeadID req == "" then [] else [srSessionBeadID req]).
Proof. unfold namedIDs. rewrite fmap_app, List.filter_app. cbn. by destruct (srSessionBeadID req == ""). Qed.

(** The requests of the states, in any order. *)
Definition gathered (acc : Accepted) : list SessionRequest := concat (snd <$> map_to_list acc).

Lemma gathered_add acc req : gathered (addRequest acc req) ≡ₚ gathered acc ++ [req].
Proof.
  unfold gathered, addRequest. destruct (acc !! srTemplate req) as [l|] eqn:E; cbn [default].
  - rewrite <-insert_delete_eq, map_to_list_insert by apply lookup_delete_eq. rewrite <-(insert_delete_id acc _ _ E) at 2.
    rewrite map_to_list_insert by apply lookup_delete_eq. cbn. rewrite <-!app_assoc. f_equiv. apply Permutation_app_comm.
  - rewrite map_to_list_insert by done. cbn. apply Permutation_cons_append.
Qed.

Record Tallied (st : nestedCapUsage * Accepted) : Prop := {
  tl_agent : ∀ t, tally (usAgentCount st.1) t = load (usRequests st.1) (ScAgent t);
  tl_rig : ∀ r, r ≠ "" → tally (usRigCount st.1) r = load (usRequests st.1) (ScRig r);
  tl_workspace : usWorkspaceCount st.1 = load (usRequests st.1) ScWorkspace;
  tl_seen : ∀ id, id ∈ usSeenSessionBead st.1 ↔ id ∈ namedIDs (usRequests st.1);
  tl_gathered : gathered st.2 ≡ₚ usRequests st.1;
  tl_states : ∀ t l, st.2 !! t = Some l → l ≠ [] ∧ ∀ req, req ∈ l → srTemplate req = t
}.

Definition taken (st : nestedCapUsage * Accepted) (req : SessionRequest) : nestedCapUsage * Accepted :=
  (accept st.1 req limits, addRequest st.2 req).

Lemma tally_insert (m : gmap string Z) k k' v : tally (<[k := v]> m) k' = if bool_decide (k = k') then v else tally m k'.
Proof.
  unfold tally. case_bool_decide; [subst; by rewrite lookup_insert_eq|by rewrite lookup_insert_ne].
Qed.

Lemma Tallied_new : Tallied (newNestedCapUsage, ∅).
Proof.
  split; cbn; try done. intros id. split; [set_solver|]. by intros ?%elem_of_nil.
Qed.

Lemma Tallied_taken st req : Tallied st → Tallied (taken st req).
Proof.
  intros [HA HR HW HS HG HT]. split; cbn [taken fst snd accept usAgentCount usRigCount usWorkspaceCount usSeenSessionBead usRequests].
  - intros t. rewrite tally_insert, load_snoc. cbn [charged]. rewrite <-HA. case_bool_decide; subst; lia.
  - intros r Hr. rewrite load_snoc, <-HR by done. cbn [charged]. rewrite (bool_decide_false (r = "")) by done. cbn [negb andb].
    destruct (decide ((lmAgentRig limits).[srTemplate req] = "")) as [E|E].
    + rewrite E, (bool_decide_true ("" = "")), (bool_decide_false ("" = r)) by done. cbn [negb]. lia.
    + rewrite (bool_decide_false (_ = "")) by done. cbn [negb]. rewrite tally_insert. case_bool_decide; subst; lia.
  - rewrite load_snoc, HW. done.
  - intros id. rewrite namedIDs_snoc, elem_of_app, <-HS. case_bool_decide as E; cbn [negb]; [set_solver|]. rewrite list_elem_of_singleton. set_solver.
  - by rewrite gathered_add, HG.
  - intros t l. unfold addRequest. rewrite lookup_insert_Some. intros [[<- <-]|[_ H]]; [|by apply HT].
    split; [by destruct (default [] _)|]. intros r [Hr| ->%list_elem_of_singleton]%elem_of_app; [|done].
    destruct (st.2 !! srTemplate req) as [l|] eqn:E; [|by apply elem_of_nil in Hr]. by apply (HT _ _ E).
Qed.

(** A scope with no room left. *)
Definition full (reqs : list SessionRequest) (sc : Scope) : Prop := 0 ≤ capOf sc ≤ load reqs sc.

Lemma rejection_spec st req :
  Tallied st →
  match rejection st.1 req limits with
  | Some _ => ∃ sc, charged sc req = true ∧ full (usRequests st.1) sc
  | None => ∀ sc, charged sc req = true → ¬ full (usRequests st.1) sc
  end.
Proof.
  intros HT. unfold rejection, full. cbv zeta. rewrite (tl_agent _ HT), (tl_workspace _ HT).
  set (rig := (lmAgentRig limits).[srTemplate req]).
  destruct ((0 <=? _) && (_ <=? _)) eqn:Ea; [exists (ScAgent (srTemplate req)); split; [by apply bool_decide_true|cbn [capOf]; lia]|].
  destruct ((rig != "") && _ && _) eqn:Er.
  { apply andb_true_iff in Er as [[Hn H1]%andb_true_iff H2]. rewrite (tl_rig _ HT) in H2 by (by apply negb_true_iff, bool_decide_eq_false in Hn).
    exists (ScRig rig). split; [cbn [charged]; rewrite Hn; by apply bool_decide_true|cbn [capOf]; lia]. }
  destruct ((0 <=? lmWorkspaceMax _) && _) eqn:Ew; [exists ScWorkspace; split; [done|cbn [capOf]; lia]|].
  intros [t|r|] Hc; cbn [charged] in Hc; cbn [capOf]; [apply bool_decide_eq_true in Hc; subst t; lia| |lia].
  apply andb_true_iff in Hc as [Hn Hc%bool_decide_eq_true]. fold rig in Hc. subst r. rewrite Hn in Er.
  rewrite (tl_rig _ HT) in Er by (by apply negb_true_iff, bool_decide_eq_false in Hn). cbn [andb] in Er. lia.
Qed.

(** ** One request *)

(** No cap is exceeded and no session is asked for twice. *)
Definition Within (reqs : list SessionRequest) : Prop :=
  (∀ sc, 0 ≤ capOf sc → load reqs sc ≤ capOf sc) ∧ NoDup (namedIDs reqs).

(** A request was accepted, or its session was, or a scope it is charged to is
    full of requests that go before it. *)
Definition settled (reqs : list SessionRequest) (req : SessionRequest) : Prop :=
  req ∈ reqs ∨ srSessionBeadID req ∈ namedIDs reqs ∨
  ∃ sc, charged sc req = true ∧ full reqs sc ∧ ∀ x, x ∈ reqs → charged sc x = true → requestLess req x = false.

(** What holds after some requests were considered. *)
Record CapState (considered : list SessionRequest) (st : nestedCapUsage * Accepted) : Prop := {
  cs_tallied : Tallied st;
  cs_within : Within (usRequests st.1);
  cs_settled : ∀ req, req ∈ considered → settled (usRequests st.1) req
}.

Lemma CapState_new : CapState [] (newNestedCapUsage, ∅).
Proof.
  split; [apply Tallied_new| |by intros ? ?%elem_of_nil].
  split; [intros sc Hsc; exact Hsc|constructor].
Qed.

Lemma settled_taken st req old :
  Tallied st → rejection st.1 req limits = None → settled (usRequests st.1) old → settled (usRequests (taken st req).1) old.
Proof.
  intros HT Hrej Hold. pose proof (rejection_spec st req HT) as Hroom. rewrite Hrej in Hroom. cbn [taken fst accept usRequests].
  destruct Hold as [H|[H|(sc & Hc & Hf & Hx)]].
  - left. apply elem_of_app. by left.
  - right. left. rewrite namedIDs_snoc. apply elem_of_app. by left.
  - right. right. exists sc. assert (charged sc req = false) as Hn.
    { destruct (charged sc req) eqn:E; [|done]. by destruct (Hroom sc E). }
    split_and!; [done| |].
    + unfold full in *. rewrite load_snoc, Hn. lia.
    + intros x [?| ->%list_elem_of_singleton]%elem_of_app; [by auto|]. by rewrite Hn.
Qed.

Lemma CapState_taken considered st req :
  CapState considered st → rejection st.1 req limits = None → isDuplicateSessionRequest st.1 req = false →
  CapState considered (taken st req).
Proof.
  intros [HT [HW HN] HS] Hrej Hdup. pose proof (rejection_spec st req HT) as Hroom. rewrite Hrej in Hroom.
  split; [by apply Tallied_taken| |].
  - split; cbn [taken fst accept usRequests].
    + intros sc Hsc. rewrite load_snoc. specialize (HW sc Hsc). destruct (charged sc req) eqn:E; [|lia].
      specialize (Hroom sc E). unfold full in Hroom. lia.
    + rewrite namedIDs_snoc. unfold isDuplicateSessionRequest in Hdup. case_bool_decide as E; [by rewrite app_nil_r|]. cbn [negb andb] in Hdup.
      apply bool_decide_eq_false in Hdup. rewrite (tl_seen _ HT) in Hdup. apply NoDup_app. split_and!; [done| |apply NoDup_singleton].
      intros id Hid ->%list_elem_of_singleton. done.
  - intros old Hold. by apply settled_taken; [..|apply HS].
Qed.

Lemma capStep_state considered st req :
  CapState considered st → (∀ x, x ∈ usRequests st.1 → requestLess req x = false) → CapState (considered ++ [req]) (capStep limits st req).
Proof.
  intros HC Hfirst. pose proof HC as [HT HW HS]. unfold capStep.
  assert (∀ reqs, settled reqs req → (∀ old, old ∈ considered → settled reqs old) → ∀ old, old ∈ considered ++ [req] → settled reqs old) as Hall.
  { intros reqs Hr Ho old [?| ->%list_elem_of_singleton]%elem_of_app; auto. }
  destruct (isDuplicateSessionRequest st.1 req) eqn:Ed.
  { split; [done..|]. apply Hall; [|done]. right. left. unfold isDuplicateSessionRequest in Ed.
    apply andb_true_iff in Ed as [_ Ed%bool_decide_eq_true]. by apply (tl_seen _ HT). }
  pose proof (rejection_spec st req HT) as Hrej. destruct (rejection st.1 req limits) eqn:Er.
  - split; [done..|]. apply Hall; [|done]. destruct Hrej as (sc & Hc & Hf). right. right. exists sc. split_and!; [done..|]. auto.
  - destruct (CapState_taken considered st req HC Er Ed) as [HT' HW' HS']. split; [done..|]. apply Hall; [|done].
    left. cbn. apply elem_of_app. right. by apply list_elem_of_singleton.
Qed.

Lemma capStep_from st req x : x ∈ usRequests (capStep limits st req).1 → x ∈ usRequests st.1 ∨ x = req.
Proof.
  unfold capStep. destruct (isDuplicateSessionRequest _ _); [by left|]. destruct (rejection _ _ _); [by left|].
  cbn. rewrite elem_of_app, list_elem_of_singleton. done.
Qed.

(** The whole pass, over requests in order. *)
Lemma capPass_state l :
  StronglySorted (inOrder requestLess) l → CapState l (foldl (capStep limits) (newNestedCapUsage, ∅) l).
Proof.
  assert (∀ l, (∀ x, x ∈ usRequests (foldl (capStep limits) (newNestedCapUsage, ∅) l).1 → x ∈ l)) as Hfrom.
  { intros l'. induction l' as [|r l' IH] using rev_ind; [by intros ? ?%elem_of_nil|]. intros x. rewrite foldl_app. cbn [foldl].
    intros [?| ->]%capStep_from; apply elem_of_app; [left; auto|right; by apply list_elem_of_singleton]. }
  induction l as [|req l IH] using rev_ind; intros Hs; [apply CapState_new|].
  rewrite foldl_app. cbn [foldl]. apply StronglySorted_app in Hs as (Hbefore & Hs & _). apply capStep_state; [by apply IH|].
  intros x Hx. apply (Hbefore x req); [by apply Hfrom|by apply list_elem_of_singleton].
Qed.

(** ** Floors *)

(** The floor of a template is met or it has no room. *)
Definition floorMet (reqs : list SessionRequest) (template : string) (minSess : Z) : Prop :=
  minSess ≤ load reqs (ScAgent template) ∨ ∃ sc, charged sc (floorRequest template) = true ∧ full reqs sc.

Lemma load_taken st req sc : load (usRequests st.1) sc ≤ load (usRequests (taken st req).1) sc.
Proof. cbn [taken fst accept usRequests]. rewrite load_snoc. destruct (charged sc req); lia. Qed.

Lemma floorMet_taken st req template minSess :
  floorMet (usRequests st.1) template minSess → floorMet (usRequests (taken st req).1) template minSess.
Proof.
  intros [H|(sc & Hc & Hf)]; [left; pose proof (load_taken st req (ScAgent template)); lia|].
  right. exists sc. split; [done|]. unfold full in *. pose proof (load_taken st req sc). lia.
Qed.

Lemma fillMin_ind (P : nestedCapUsage * Accepted → Prop) fuel template minSess st :
  (∀ st, P st → rejection st.1 (floorRequest template) limits = None → P (taken st (floorRequest template))) →
  P st → P (fillMin fuel limits template minSess st).
Proof.
  intros Hstep. revert st. induction fuel as [|fuel IH]; intros st HP; cbn [fillMin]; [done|].
  destruct (_ <? _); [|done]. destruct (rejection st.1 (floorRequest template) limits) eqn:E; [done|]. apply IH, Hstep; done.
Qed.

Lemma fillMin_state considered fuel template minSess st :
  CapState considered st → CapState considered (fillMin fuel limits template minSess st).
Proof. intros HC. apply fillMin_ind; [|done]. intros st' HC' Hr. by apply CapState_taken. Qed.

Lemma fillMin_met fuel template minSess st :
  Tallied st → minSess - load (usRequests st.1) (ScAgent template) ≤ Z.of_nat fuel →
  floorMet (usRequests (fillMin fuel limits template minSess st).1) template minSess.
Proof.
  revert st. induction fuel as [|fuel IH]; intros st HT Hfuel; cbn [fillMin]; [left; lia|].
  rewrite (tl_agent _ HT). destruct (Z.ltb_spec (load (usRequests st.1) (ScAgent template)) minSess); [|left; lia].
  pose proof (rejection_spec st (floorRequest template) HT) as Hrej. destruct (rejection st.1 (floorRequest template) limits); [by right|].
  apply (IH (taken st (floorRequest template))); [by apply Tallied_taken|]. cbn [taken fst accept usRequests]. rewrite load_snoc.
  cbn [charged floorRequest srTemplate]. rewrite bool_decide_true by done. lia.
Qed.

Lemma minStep_ind (P : nestedCapUsage * Accepted → Prop) held st agent :
  (∀ st req, P st → isDuplicateSessionRequest st.1 req = false → rejection st.1 req limits = None → P (taken st req)) →
  P st → P (minStep limits held st agent).
Proof.
  intros Hstep HP. unfold minStep. destruct (agSuspended agent); [done|]. case_bool_decide; [done|]. apply fillMin_ind; [|done]. by auto.
Qed.

Lemma minPass_met held considered agents st :
  CapState considered st →
  let st' := foldl (minStep limits held) st agents in
  CapState considered st' ∧
  ∀ a, a ∈ agents → agSuspended a = false → QualifiedName a ∉ held →
    floorMet (usRequests st'.1) (QualifiedName a) (EffectiveMinActiveSessions a).
Proof.
  intros HC. induction agents as [|a agents IH] using rev_ind; [split; [done|by intros ? ?%elem_of_nil]|].
  cbv zeta in *. rewrite foldl_app. cbn [foldl]. destruct IH as [HC' Hmet]. set (st' := foldl (minStep limits held) st agents) in *. split.
  - apply minStep_ind; [|done]. intros st'' req ? ? ?. by apply CapState_taken.
  - intros b [Hb| ->%list_elem_of_singleton]%elem_of_app Hs Hh.
    + apply (minStep_ind (λ st, floorMet (usRequests st.1) (QualifiedName b) (EffectiveMinActiveSessions b))); [|by apply Hmet].
      intros. by apply floorMet_taken.
    + unfold minStep. rewrite Hs, bool_decide_false by done. apply fillMin_met; [apply HC'|]. unfold load. lia.
Qed.
End caps.

(** ** The order of the requests *)

Lemma requestLess_spec a b :
  requestLess a b = true ↔ srBeadPriority b < srBeadPriority a ∨
    srBeadPriority a = srBeadPriority b ∧ isResumeLikeTier (srTier a) = true ∧ isResumeLikeTier (srTier b) = false.
Proof.
  unfold requestLess. destruct (Z.eqb_spec (srBeadPriority a) (srBeadPriority b)) as [E|E]; cbn [negb].
  - destruct (decide (srTier a = srTier b)) as [Et|Et].
    + rewrite bool_decide_true by done. cbn [negb]. rewrite Et. split; [done|]. intros [?|(_ & ? & ?)]; [lia|congruence].
    + rewrite bool_decide_false by done. cbn [negb]. rewrite andb_true_iff, negb_true_iff. split; [by right|]. intros [?|?]; [lia|tauto].
  - rewrite Z.ltb_lt. split; [by left|]. intros [?|[? _]]; [done|lia].
Qed.

Lemma requestLess_asym a b : requestLess a b = true → requestLess b a = false.
Proof. intros H. apply not_true_is_false. rewrite requestLess_spec in *. intuition (lia || congruence). Qed.

Lemma requestLess_trans a b c : requestLess b a = false → requestLess c b = false → requestLess c a = false.
Proof.
  intros H1 H2. apply not_true_is_false. apply not_true_iff_false in H1, H2. rewrite requestLess_spec in *. intros H3.
  destruct (isResumeLikeTier (srTier a)), (isResumeLikeTier (srTier b)), (isResumeLikeTier (srTier c)); intuition (lia || congruence).
Qed.

(** ** The planner's result *)

Lemma settled_perm limits l1 l2 req : l1 ≡ₚ l2 → settled limits l1 req → settled limits l2 req.
Proof.
  intros Hp [H|[H|(sc & Hc & Hf & Hx)]]; [left; by rewrite <-Hp|right; left|right; right].
  - unfold namedIDs in *. rewrite list_elem_of_In, filter_In, <-list_elem_of_In in *. by rewrite <-Hp.
  - exists sc. unfold full in *. rewrite <-(load_perm limits l1 l2) by done. split_and!; [done|lia..|]. intros x Hin. apply Hx. by rewrite Hp.
Qed.

Lemma namedIDs_perm l1 l2 : l1 ≡ₚ l2 → namedIDs l1 ≡ₚ namedIDs l2.
Proof.
  unfold namedIDs. induction 1; cbn [fmap list_fmap List.filter].
  - done.
  - destruct (negb _); by rewrite IHPermutation.
  - destruct (negb _), (negb _); done || constructor.
  - by etrans.
Qed.

(** The requests of all the states. *)
Definition planned (states : list PoolDesiredState) : list SessionRequest := concat (pdRequests <$> states).

Lemma planned_gathered cfg requests held :
  planned (applyNestedCaps cfg requests held) ≡ₚ gathered (applyCaps cfg requests held).2.
Proof.
  unfold planned, applyNestedCaps, gathered. rewrite SliceStable_perm, <-list_fmap_compose.
  by rewrite (list_fmap_ext (pdRequests ∘ _) snd).
Qed.

Lemma applyCaps_state cfg requests held :
  let limits := newNestedCapLimits cfg in
  CapState limits (SliceStable requestLess requests) (applyCaps cfg requests held) ∧
  ∀ a, a ∈ cityAgents cfg → agSuspended a = false → QualifiedName a ∉ held →
    floorMet limits (usRequests (applyCaps cfg requests held).1) (QualifiedName a) (EffectiveMinActiveSessions a).
Proof.
  intros limits. unfold applyCaps. apply minPass_met, capPass_state, SliceStable_sorted; [apply requestLess_asym|apply requestLess_trans].
Qed.

Lemma planned_accepted cfg requests held :
  planned (applyNestedCaps cfg requests held) ≡ₚ usRequests (applyCaps cfg requests held).1.
Proof. rewrite planned_gathered. apply tl_gathered with (limits := newNestedCapLimits cfg), applyCaps_state. Qed.

Lemma states_shape cfg requests held :
  let states := applyNestedCaps cfg requests held in
  NoDup (pdTemplate <$> states) ∧ ∀ s, s ∈ states → pdRequests s ≠ [] ∧ ∀ req, req ∈ pdRequests s → srTemplate req = pdTemplate s.
Proof.
  destruct (applyCaps_state cfg requests held) as [[HT _ _] _]. unfold applyNestedCaps. split.
  - rewrite SliceStable_perm, <-list_fmap_compose. rewrite (list_fmap_ext (pdTemplate ∘ _) fst) by done. apply NoDup_fst_map_to_list.
  - intros s Hs. rewrite SliceStable_perm in Hs. apply list_elem_of_fmap in Hs as ([t l] & -> & H%elem_of_map_to_list). by apply (tl_states _ _ HT).
Qed.

(** C5 The caps hold: over all the states the planner returns, no template, no
    rig and not the workspace is asked to run more sessions than its cap (floor
    requests included), no session is asked for twice, and the states are one
    per template, none empty, each holding its own requests. *)
Theorem caps_respected cfg requests held :
  let limits := newNestedCapLimits cfg in
  let states := applyNestedCaps cfg requests held in
  (∀ sc, 0 ≤ capOf limits sc → load limits (planned states) sc ≤ capOf limits sc) ∧
  NoDup (namedIDs (planned states)) ∧
  NoDup (pdTemplate <$> states) ∧
  ∀ s, s ∈ states → pdRequests s ≠ [] ∧ ∀ req, req ∈ pdRequests s → srTemplate req = pdTemplate s.
Proof.
  intros limits states. destruct (applyCaps_state cfg requests held) as [[HT [HW HN] HS] _].
  pose proof (planned_accepted cfg requests held) as Hp. fold states in Hp. split_and!; [| |apply states_shape..].
  - intros sc Hsc. rewrite (load_perm limits _ _ sc Hp). by apply HW.
  - by rewrite (namedIDs_perm _ _ Hp).
Qed.

(** C6 Capacity goes by priority: a request that is not in the plan asks for a
    session that is, or is charged to a template, rig or workspace that is full,
    and every request of the plan charged there has a higher priority, or the
    same and no later tier. *)
Theorem no_priority_inversion cfg requests held req :
  req ∈ requests →
  let limits := newNestedCapLimits cfg in
  let plan := planned (applyNestedCaps cfg requests held) in
  req ∈ plan ∨ srSessionBeadID req ∈ namedIDs plan ∨
  ∃ sc, charged limits sc req = true ∧ full limits plan sc ∧
    ∀ x, x ∈ plan → charged limits sc x = true →
      srBeadPriority req < srBeadPriority x ∨
      srBeadPriority req = srBeadPriority x ∧ (isResumeLikeTier (srTier req) = true → isResumeLikeTier (srTier x) = true).
Proof.
  intros Hreq limits plan. destruct (applyCaps_state cfg requests held) as [[_ _ HS] _].
  destruct (settled_perm limits _ plan req (symmetry (planned_accepted cfg requests held))) as [H|[H|(sc & Hc & Hf & Hx)]].
  - apply HS. by rewrite SliceStable_perm.
  - by left.
  - right. by left.
  - right. right. exists sc. split_and!; [done..|]. intros x Hin Hcx. specialize (Hx x Hin Hcx).
    apply not_true_iff_false in Hx. rewrite requestLess_spec in Hx.
    destruct (isResumeLikeTier (srTier req)), (isResumeLikeTier (srTier x)); intuition (lia || congruence).
Qed.

(** Floors are filled: in the plan an agent that is not suspended, and whose
    alias no other session holds, has its minimum of sessions, or a cap it is
    charged to is full. *)
Theorem pool_floor_met cfg requests held a :
  a ∈ cityAgents cfg → agSuspended a = false → QualifiedName a ∉ held →
  let limits := newNestedCapLimits cfg in
  let plan := planned (applyNestedCaps cfg requests held) in
  EffectiveMinActiveSessions a ≤ load limits plan (ScAgent (QualifiedName a)) ∨
  ∃ sc, charged limits sc (floorRequest (QualifiedName a)) = true ∧ full limits plan sc.
Proof.
  intros Ha Hs Hh limits plan. destruct (applyCaps_state cfg requests held) as [_ Hmet].
  assert (∀ sc, load limits plan sc = load limits (usRequests (applyCaps cfg requests held).1) sc) as E by (intros; apply load_perm, planned_accepted).
  unfold full. rewrite E. destruct (Hmet a Ha Hs Hh) as [H|(sc & Hc & Hf)]; [by left|right]. exists sc. by rewrite E.
Qed.

(** ** New demand *)

Lemma clamp_max x : (if x <? 0 then 0 else x) = Z.max 0 x.
Proof. destruct (Z.ltb_spec x 0); lia. Qed.

Lemma capNewDemandCount_step limits st agent req d :
  srTemplate req = QualifiedName agent → 0 ≤ d →
  capNewDemandCount limits st.1 agent (d + 1) =
    match rejection st.1 req limits with
    | Some _ => 0
    | None => 1 + capNewDemandCount limits (taken limits st req).1 agent d
    end.
Proof.
  intros Ht Hd. unfold capNewDemandCount, rejection. cbv zeta. cbn [taken fst accept usAgentCount usRigCount usWorkspaceCount]. rewrite Ht.
  set (tpl := QualifiedName agent). set (rig := (lmAgentRig limits).[tpl]). rewrite tally_insert, (bool_decide_true (tpl = tpl)) by done.
  assert (tally (if rig != "" then <[rig := tally (usRigCount st.1) rig + 1]> (usRigCount st.1) else usRigCount st.1) rig =
    tally (usRigCount st.1) rig + (if rig != "" then 1 else 0)) as ->.
  { destruct (rig != ""); [rewrite tally_insert, (bool_decide_true (rig = rig)) by done; done|lia]. }
  rewrite !clamp_max. destruct (Z.leb_spec (d + 1) 0); [lia|].
  destruct (Z.leb_spec 0 (tally (lmAgentMax limits) tpl)), (Z.leb_spec (tally (lmAgentMax limits) tpl) (tally (usAgentCount st.1) tpl));
    destruct (rig != ""); destruct (Z.leb_spec 0 (rigMaxOf limits rig)), (Z.leb_spec (rigMaxOf limits rig) (tally (usRigCount st.1) rig));
    destruct (Z.leb_spec 0 (lmWorkspaceMax limits)), (Z.leb_spec (lmWorkspaceMax limits) (usWorkspaceCount st.1)); cbn [andb];
    destruct (Z.leb_spec d 0); lia.
Qed.

(** Asking for a session again and again, as long as the caps allow. *)
Definition askTimes (limits : nestedCapLimits) (req : SessionRequest) (n : nat) (st : nestedCapUsage * gmap string (list SessionRequest))
    : nestedCapUsage * gmap string (list SessionRequest) :=
  foldl (capStep limits) st (replicate n req).

Lemma askTimes_refused limits req n st r :
  srSessionBeadID req = "" → rejection st.1 req limits = Some r → askTimes limits req n st = st.
Proof.
  intros Hid Hr. unfold askTimes. induction n as [|n IH]; [done|]. cbn [replicate foldl].
  unfold capStep at 2. unfold isDuplicateSessionRequest. rewrite Hid, Hr. cbn. exact IH.
Qed.

Lemma askTimes_count limits st agent req n :
  srTemplate req = QualifiedName agent → srSessionBeadID req = "" → Tallied limits st →
  load limits (usRequests (askTimes limits req n st).1) (ScAgent (QualifiedName agent)) =
    load limits (usRequests st.1) (ScAgent (QualifiedName agent)) + capNewDemandCount limits st.1 agent (Z.of_nat n).
Proof.
  intros Ht Hid. revert st. induction n as [|n IH]; intros st HT.
  { change (capNewDemandCount limits st.1 agent (Z.of_nat 0)) with 0. unfold askTimes. cbn [replicate foldl]. lia. }
  replace (Z.of_nat (S n)) with (Z.of_nat n + 1) by lia. rewrite (capNewDemandCount_step limits st agent req) by (done || lia).
  destruct (rejection st.1 req limits) eqn:Er.
  { rewrite (askTimes_refused limits req (S n) st c) by done. lia. }
  assert (askTimes limits req (S n) st = askTimes limits req n (taken limits st req)) as ->.
  { unfold askTimes. cbn [replicate foldl]. unfold capStep at 2, isDuplicateSessionRequest. rewrite Hid, Er. done. }
  rewrite IH by by apply Tallied_taken. cbn [taken fst accept usRequests]. rewrite load_snoc. cbn [charged]. rewrite Ht, bool_decide_true by done. lia.
Qed.

Lemma acceptedNestedCapUsage_pass limits requests :
  acceptedNestedCapUsage limits requests = (foldl (capStep limits) (newNestedCapUsage, ∅) (SliceStable requestLess requests)).1.
Proof.
  unfold acceptedNestedCapUsage. generalize (SliceStable requestLess requests). intros l.
  assert (∀ st : nestedCapUsage * gmap string (list SessionRequest),
    foldl (λ u req, if canAccept u req limits then accept u req limits else u) st.1 l = (foldl (capStep limits) st l).1) as H; [|apply (H (newNestedCapUsage, ∅))].
  induction l as [|req l IH]; intros st; [done|]. cbn [foldl]. rewrite <-IH. f_equal. unfold canAccept, capStep.
  destruct (isDuplicateSessionRequest st.1 req); [done|]. by destruct (rejection st.1 req limits).
Qed.

Lemma acceptedNestedCapUsage_state limits requests :
  CapState limits (SliceStable requestLess requests) (foldl (capStep limits) (newNestedCapUsage, ∅) (SliceStable requestLess requests)).
Proof. apply capPass_state, SliceStable_sorted; [apply requestLess_asym|apply requestLess_trans]. Qed.

(** The closed form of the room for new demand agrees with trying: after the
    resumed work is accepted, asking [demand] times for one more session of an
    agent is granted exactly [capNewDemandCount] times. *)
Theorem new_demand_room cfg resume agent req demand :
  srTemplate req = QualifiedName agent → srSessionBeadID req = "" →
  let limits := newNestedCapLimits cfg in
  let st := foldl (capStep limits) (newNestedCapUsage, ∅) (SliceStable requestLess resume) in
  let template := ScAgent (QualifiedName agent) in
  acceptedNestedCapUsage limits resume = st.1 ∧
  load limits (usRequests (askTimes limits req demand st).1) template =
    load limits (usRequests st.1) template + capNewDemandCount limits (acceptedNestedCapUsage limits resume) agent (Z.of_nat demand).
Proof.
  intros Ht Hid limits st template. rewrite acceptedNestedCapUsage_pass. split; [done|].
  apply (askTimes_count limits st agent req demand Ht Hid). apply acceptedNestedCapUsage_state.
Qed.

(** ** Assigned work *)

Lemma foldl_grows {A B C} (f : list A * C → B → list A * C) l st :
  (∀ st b x, x ∈ st.1 → x ∈ (f st b).1) → ∀ x, x ∈ st.1 → x ∈ (foldl f st l).1.
Proof. intros Hf. revert st. induction l as [|b l IH]; intros st x Hx; [done|]. cbn [foldl]. apply IH. by apply Hf. Qed.

Lemma resumeStep_grows cfg t template st wb x : x ∈ st.1 → x ∈ (resumeStep cfg t template st wb).1.
Proof.
  intros Hx. unfold resumeStep. cbv zeta. repeat match goal with |- context [if ?b then _ else _] => destruct b end; try done.
  all: cbn [fst]; apply elem_of_app; by left.
Qed.

Lemma allRequests_resume cfg work infos counts demands req :
  req ∈ resumeRequests cfg work infos → req ∈ allRequests cfg work infos counts demands.
Proof.
  intros Hreq. unfold allRequests. cbv zeta. generalize (acceptedNestedCapUsage (newNestedCapLimits cfg) (resumeRequests cfg work infos)).
  generalize (poolInFlightNewRequests cfg infos (sessionBeadIDs (resumeRequests cfg work infos))).
  intros inFlight usage. induction (cityAgents cfg) as [|a l IH] using rev_ind; [done|]. rewrite foldl_app. cbn [foldl].
  set (st := foldl _ _ l) in *. unfold newDemandStep. destruct (agSuspended a); [done|].
  destruct (counts !! QualifiedName a); [|done]. case_bool_decide; [done|]. cbn [snd]. apply elem_of_app. by left.
Qed.

(** A work bead the planner must serve with the session [id]. *)
Record servedBy (cfg : City) (infos : list Info) (a : Agent) (wb : Bead) (id : string) : Prop := {
  sv_status : bStatus wb = "in_progress" ∨ bStatus wb = "open";
  sv_assignee : TrimSpace (bAssignee wb) ≠ "";
  sv_session : (stAssignee (sessionTables cfg infos)).[TrimSpace (bAssignee wb)] = id;
  sv_id : id ≠ "";
  sv_pool : id ∉ stNamed (sessionTables cfg infos);
  sv_route : workRoute cfg (sessionTables cfg infos) wb id = QualifiedName a;
  sv_template : TrimSpace (stTemplate (sessionTables cfg infos)).[id] = "" ∨
    agentTemplateIdentitiesEquivalent cfg (QualifiedName a) (TrimSpace (stTemplate (sessionTables cfg infos)).[id]) = true
}.

Lemma servedBy_step cfg infos a wb id st :
  servedBy cfg infos a wb id →
  workRequest (QualifiedName a) "resume" id wb ∈ (resumeStep cfg (sessionTables cfg infos) (QualifiedName a) st wb).1.
Proof.
  intros [Hs Ha Hi Hne Hn Hr Ht]. unfold resumeStep. cbv zeta. rewrite Hi, Hr.
  assert (oneOf (bStatus wb) ["in_progress"; "open"] = true) as -> by by destruct Hs as [-> | ->].
  rewrite (bool_decide_false (TrimSpace (bAssignee wb) = "")), (bool_decide_false (id = "")) by done. cbn [negb andb].
  rewrite (bool_decide_true (QualifiedName a = QualifiedName a)), (bool_decide_false (id ∈ _)) by done. cbn [negb].
  destruct (_ && negb _) eqn:E.
  - exfalso. apply andb_true_iff in E as [[E1 _]%andb_true_iff E2]. apply negb_true_iff in E1, E2. apply bool_decide_eq_false in E1.
    destruct Ht as [?|Ht]; [done|congruence].
  - cbn [fst]. apply elem_of_app. right. by apply list_elem_of_singleton.
Qed.

Lemma servedBy_requested cfg work infos a wb id :
  a ∈ cityAgents cfg → agSuspended a = false → SupportsGenericEphemeralSessions a = true → wb ∈ work → servedBy cfg infos a wb id →
  workRequest (QualifiedName a) "resume" id wb ∈ resumeRequests cfg work infos.
Proof.
  intros Ha Hs Hg Hwb Hsv. unfold resumeRequests. cbv zeta. apply list_elem_of_split in Ha as (l1 & l2 & ->). rewrite foldl_app. cbn [foldl].
  apply foldl_grows.
  { intros st b x Hx. destruct (agSuspended b); [done|]. destruct (negb _); [done|]. apply foldl_grows; [|done]. intros. by apply resumeStep_grows. }
  rewrite Hs, Hg. cbn [negb]. apply list_elem_of_split in Hwb as (w1 & w2 & ->). rewrite foldl_app. cbn [foldl].
  apply foldl_grows; [intros; by apply resumeStep_grows|]. by apply servedBy_step.
Qed.

(** C14 Live work is not dropped: open or running work assigned to a live pool
    session keeps that session in the plan, unless its template, its rig or the
    workspace is full of requests that go before it; neither scale checks nor
    floors can push it out. *)
Theorem live_work_kept cfg work infos counts demands a wb id :
  a ∈ cityAgents cfg → agSuspended a = false → SupportsGenericEphemeralSessions a = true → wb ∈ work → servedBy cfg infos a wb id →
  let limits := newNestedCapLimits cfg in
  let plan := planned (computePoolDesiredStates cfg work infos counts demands) in
  id ∈ namedIDs plan ∨
  ∃ sc, charged limits sc (workRequest (QualifiedName a) "resume" id wb) = true ∧ full limits plan sc ∧
    ∀ x, x ∈ plan → charged limits sc x = true →
      beadPriority wb < srBeadPriority x ∨ beadPriority wb = srBeadPriority x ∧ isResumeLikeTier (srTier x) = true.
Proof.
  intros Ha Hs Hg Hwb Hsv limits plan. set (req := workRequest (QualifiedName a) "resume" id wb).
  assert (req ∈ allRequests cfg work infos counts demands) as Hreq by (by apply allRequests_resume, servedBy_requested).
  unfold plan, computePoolDesiredStates. set (held := canonicalSingletonAliasHeldTemplates cfg infos). set (all := allRequests _ _ _ _ _) in *.
  destruct (applyCaps_state cfg all held) as [[_ _ HS] _].
  destruct (settled_perm limits _ (planned (applyNestedCaps cfg all held)) req (symmetry (planned_accepted cfg all held))) as [H|[H|(sc & Hc & Hf & Hx)]].
  - apply HS. by rewrite SliceStable_perm.
  - left. unfold namedIDs. rewrite list_elem_of_In, filter_In, <-list_elem_of_In. split; [exact (list_elem_of_fmap_2 srSessionBeadID _ _ H)|].
    apply negb_true_iff, bool_decide_false. apply Hsv.
  - by left.
  - right. exists sc. split_and!; [done..|]. intros x Hin Hcx. specialize (Hx x Hin Hcx).
    apply not_true_iff_false in Hx. rewrite requestLess_spec in Hx. change (srBeadPriority req) with (beadPriority wb) in Hx.
    change (isResumeLikeTier (srTier req)) with true in Hx. destruct (isResumeLikeTier (srTier x)); intuition lia.
Qed.
