(* ===== verification/PoolScenarios.v ===== *)
(** * PoolScenarios: a city with one rig and its pool plan

    The rig may run two sessions; its pool asks for a floor of three, and one
    live session has work. *)

From S2P Require Import Prelude GoBase GoText GoTime GoSort Beads SessionState SessionInfo AgentConfig PoolDesired PoolDesiredProps.

Local Open Scope Z_scope.

Definition polecat : Agent := mkAgent "polecat" "gastown" "" "" false "" "" [] "" (Some 3) None.

Definition pooled : City := mkCity (Some 10) [mkRig "gastown" (Some 2)] [polecat] [].

Definition worker : Info :=
  infoFromPersistedBead
    (setMetadataMap (setLabels (setType (setStatus (setID zeroBead "gc-7") "open") BeadType) [LabelSession])
      (list_to_map [("state", "active"); ("session_name", "polecat-1"); ("template", "gastown/polecat"); ("pool_slot", "1")])).

Definition assigned (id : string) (priority : Z) : Bead :=
  mkBead id "a task" "in_progress" "task" (Some priority) 0 0 "polecat-1" "" "" "" [] "" [] {["gc.routed_to" := "gastown/polecat"]} [] false false None None 0 0.

Definition limits : nestedCapLimits := newNestedCapLimits pooled.

Example plan_counts :
  (PoolDesiredCounts (computePoolDesiredStates pooled [assigned "gc-50" 1] [worker] {["gastown/polecat" := 5]} ∅)) !! "gastown/polecat" = Some 2.
Proof. vm_compute. reflexivity. Qed.

Lemma caps_respected_witness :
  load limits (planned (applyNestedCaps pooled [floorRequest "gastown/polecat"] ∅)) (ScRig "gastown") ≤ 2.
Proof. apply (proj1 (caps_respected pooled [floorRequest "gastown/polecat"] ∅) (ScRig "gastown")). vm_compute. congruence. Defined.

Definition sessionRequest (id : string) (priority : Z) : SessionRequest :=
  mkSessionRequest "gastown/polecat" priority "resume" id "" "" "" "" "" "" false.

Definition three : list SessionRequest := [sessionRequest "gc-1" 0; sessionRequest "gc-2" 3; sessionRequest "gc-3" 2].

Lemma no_priority_inversion_witness :
  ∃ sc, charged limits sc (sessionRequest "gc-1" 0) = true ∧ full limits (planned (applyNestedCaps pooled three ∅)) sc.
Proof.
  destruct (no_priority_inversion pooled three ∅ (sessionRequest "gc-1" 0)) as [H|[H|(sc & Hc & Hf & _)]].
  - apply list_elem_of_here.
  - exfalso. apply (list_elem_of_fmap_2 srSessionBeadID) in H. revert H.
    apply (bool_decide_unpack _). vm_compute. exact I.
  - exfalso. revert H. apply (bool_decide_unpack _). vm_compute. exact I.
  - exists sc. split; [exact Hc|exact Hf].
Defined.

Lemma pool_floor_met_witness :
  ∃ sc, charged limits sc (floorRequest "gastown/polecat") = true ∧ full limits (planned (applyNestedCaps pooled [] ∅)) sc.
Proof.
  destruct (pool_floor_met pooled [] ∅ polecat) as [H|H].
  - apply list_elem_of_here.
  - reflexivity.
  - apply (bool_decide_unpack _). vm_compute. exact I.
  - exfalso. revert H. vm_compute. intros H. apply H. reflexivity.
  - exact H.
Defined.

Lemma new_demand_room_witness :
  load limits (usRequests (askTimes limits (floorRequest "gastown/polecat") 5 (newNestedCapUsage, ∅)).1) (ScAgent "gastown/polecat") = 2.
Proof.
  etransitivity; [exact (proj2 (new_demand_room pooled [] polecat (floorRequest "gastown/polecat") 5 eq_refl eq_refl))|].
  vm_compute. reflexivity.
Defined.

Lemma worker_serves : servedBy pooled [worker] polecat (assigned "gc-50" 1) "gc-7".
Proof.
  split.
  - left. reflexivity.
  - vm_compute. congruence.
  - vm_compute. reflexivity.
  - discriminate.
  - apply (bool_decide_unpack _). vm_compute. exact I.
  - vm_compute. reflexivity.
  - right. vm_compute. reflexivity.
Qed.

Lemma live_work_kept_witness :
  let plan := planned (computePoolDesiredStates pooled [assigned "gc-50" 1] [worker] {["gastown/polecat" := 5]} ∅) in
  "gc-7" ∈ namedIDs plan ∨ ∃ sc, full limits plan sc.
Proof.
  destruct (live_work_kept pooled [assigned "gc-50" 1] [worker] {["gastown/polecat" := 5]} ∅ polecat (assigned "gc-50" 1) "gc-7"
    (list_elem_of_here _ _) eq_refl eq_refl (list_elem_of_here _ _) worker_serves) as [H|(sc & _ & Hf & _)].
  - left. exact H.
  - right. exists sc. exact Hf.
Defined.
