(* ===== verification/TopoOrder.v ===== *)
(** * TopoOrder: sessions in dependency order

    Models [topoOrder], [topoOrderRows] and [reverseBeads] of
    [cmd/gc/session_reconcile.go].  The two orderings run one algorithm on
    different rows, so it is written once over the way a row names its
    template.  The depth-first search carries fuel; one unit per template
    present is enough ([topo_total]). *)

From S2P Require Import Prelude GoBase Beads SessionState SessionInfo.

Inductive Color := white | gray | black.

#[export] Instance Color_eq_dec : EqDecision Color.
Proof. solve_decision. Defined.

(** The variables the search closes over. *)
Record Search := mkSearch {
  seColor : gmap string Color;
  seOrder : list string;
  seCycle : bool
}.

Definition colorOf (s : Search) (t : string) : Color := default white (s.(seColor) !! t).
Definition paint (s : Search) (t : string) (c : Color) : Search := mkSearch (<[t := c]> s.(seColor)) s.(seOrder) s.(seCycle).

Section search.
Context (deps : gmap string (list string)) (seen : gset string).

Definition depsOf (t : string) : list string := default [] (deps !! t).

(** The loop over the dependencies; a gray one is a cycle and returns from the
    visit, which [None] records beside the state. *)
Fixpoint visitDeps (visit : string → Search → option Search) (ds : list string) (s : Search) : option (Search * bool) :=
  match ds with
  | [] => Some (s, false)
  | dep :: ds =>
      match colorOf s dep with
      | gray => Some (mkSearch s.(seColor) s.(seOrder) true, true)
      | white =>
          if bool_decide (dep ∈ seen) then s ← visit dep s; visitDeps visit ds s
          else visitDeps visit ds s
      | black => visitDeps visit ds s
      end
  end.

Fixpoint visit (fuel : nat) (t : string) (s : Search) : option Search :=
  match fuel with
  | O => None
  | S fuel =>
      if s.(seCycle) then Some s
      else
        r ← visitDeps (visit fuel) (depsOf t) (paint s t gray);
        let '(s, returned) := (r : Search * bool) in
        if returned then Some s
        else Some (mkSearch (<[t := black]> s.(seColor)) (s.(seOrder) ++ [t]) s.(seCycle))
  end.

Fixpoint visitAll (fuel : nat) (templates : list string) (s : Search) : option Search :=
  match templates with
  | [] => Some s
  | t :: templates =>
      match colorOf s t with
      | white => s ← visit fuel t s; visitAll fuel templates s
      | _ => visitAll fuel templates s
      end
  end.
End search.

Section rows.
Context {A : Type} (template : A → string).

(** The templates present, in the order of their first row. *)
Fixpoint uniqueTemplates (rows : list A) (seen : gset string) : list string :=
  match rows with
  | [] => []
  | r :: rows =>
      let t := template r in
      if bool_decide (t ∈ seen) then uniqueTemplates rows seen else t :: uniqueTemplates rows ({[t]} ∪ seen)
  end.

Definition rowsOf (rows : list A) (t : string) : list A := List.filter (λ r, template r == t) rows.

Definition topoOrderBy (rows : list A) (deps : gmap string (list string)) : option (list A) :=
  if bool_decide (deps = ∅) then Some rows
  else
    let templates := uniqueTemplates rows ∅ in
    s ← visitAll deps (list_to_set templates) (length templates) templates (mkSearch ∅ [] false);
    Some (if seCycle s then rows else concat (rowsOf rows <$> seOrder s)).
End rows.

Definition topoOrder (sessions : list Bead) (deps : gmap string (list string)) : option (list Bead) :=
  topoOrderBy (λ b, (bMetadata b).["template"]) sessions deps.

(** A row is a session's snapshot with its circuit state, which is not read. *)
Definition topoOrderRows {C} (rows : list (Info * C)) (deps : gmap string (list string)) : option (list (Info * C)) :=
  topoOrderBy (λ r, text r.1 "Template") rows deps.

Definition reverseBeads (beadSlice : list Bead) : list Bead := reverse beadSlice.
