(* ===== verification/TopoOrderProps.v ===== *)
(** * TopoOrderProps: dependencies come first, and nothing is lost

    [Sorted] search states hold a finished order in which every present
    dependency of a template is finished before it; the gray templates are the
    path the search is on, which is how a cycle is recognised. *)

From S2P Require Import Prelude GoBase Beads SessionState SessionInfo SessionInfoProps SessionViewProps TopoOrder.

Section search.
Context (deps : gmap string (list string)) (seen : gset string).

(** A dependency between templates that are present. *)
Definition edge (a b : string) : Prop := a ∈ seen ∧ b ∈ seen ∧ b ∈ depsOf deps a.

Definition cyclic : Prop := ∃ x, tc edge x x.

(** The templates not visited yet. *)
Definition unvisited (s : Search) : nat := size (filter (λ x, colorOf s x = white) seen).

(** Visited templates stay visited. *)
Definition grows (s s' : Search) : Prop := ∀ x, colorOf s x ≠ white → colorOf s' x ≠ white.

(** Every template comes after its present dependencies. *)
Definition depsFirst (order : list string) : Prop :=
  ∀ l1 x l2, order = l1 ++ x :: l2 → ∀ d, d ∈ depsOf deps x → d ∈ seen → d ∈ l1.

Record Finished (s : Search) : Prop := {
  fi_black : ∀ x, colorOf s x = black ↔ x ∈ seOrder s;
  fi_nodup : NoDup (seOrder s);
  fi_first : depsFirst (seOrder s);
  fi_seen : ∀ x, colorOf s x ≠ white → x ∈ seen
}.

(** What a search from [s] that was on no cycle leads to. *)
Definition leads (s s' : Search) (P : Search → Prop) : Prop :=
  (seCycle s' = true ∧ cyclic) ∨
  (seCycle s' = false ∧ Finished s' ∧ (∀ x, colorOf s' x = gray ↔ colorOf s x = gray) ∧ seOrder s `prefix_of` seOrder s' ∧ P s').

Lemma unvisited_mono s s' : grows s s' → (unvisited s' ≤ unvisited s)%nat.
Proof.
  intros Hg. unfold unvisited. apply subseteq_size. intros x. rewrite !elem_of_filter. intros [Hw Hx]. split; [|done].
  destruct (decide (colorOf s x = white)); [done|]. by destruct (Hg x).
Qed.

Lemma colorOf_paint s t c x : colorOf (paint s t c) x = if bool_decide (t = x) then c else colorOf s x.
Proof. unfold colorOf, paint. cbn. case_bool_decide; [subst; by rewrite lookup_insert_eq|by rewrite lookup_insert_ne]. Qed.

Lemma unvisited_paint s t : t ∈ seen → colorOf s t = white → (unvisited (paint s t gray) < unvisited s)%nat.
Proof.
  intros Ht Hw. unfold unvisited. apply subset_size. split.
  - intros x. rewrite !elem_of_filter, colorOf_paint. case_bool_decide; [by intros []|done].
  - intros H. specialize (H t). rewrite !elem_of_filter, colorOf_paint, bool_decide_true in H by done. destruct (H (conj Hw Ht)). done.
Qed.

Lemma depsFirst_snoc order t : depsFirst order → (∀ d, d ∈ depsOf deps t → d ∈ seen → d ∈ order) → depsFirst (order ++ [t]).
Proof.
  intros Ho Ht l1 x l2 E d Hd Hs. destruct l2 as [|y l2 _] using rev_ind.
  - apply app_inj_tail in E as [<- <-]. by apply Ht.
  - rewrite app_comm_cons, app_assoc in E. apply app_inj_tail in E as [E _]. by eapply Ho.
Qed.

Definition visitSpec (fuel : nat) (visit : string → Search → option Search) : Prop :=
  ∀ t s, t ∈ seen → colorOf s t = white → (unvisited s ≤ fuel)%nat →
  ∃ s', visit t s = Some s' ∧ grows s s' ∧ (seCycle s = true → s' = s) ∧
    (seCycle s = false → Finished s → (∀ g, colorOf s g = gray → rtc edge g t) → leads s s' (λ s', t ∈ seOrder s')).

Lemma visitDeps_spec fuel visit t ds s :
  visitSpec fuel visit → t ∈ seen → (∀ d, d ∈ ds → d ∈ depsOf deps t) → (unvisited s ≤ fuel)%nat →
  ∃ s' r, visitDeps seen visit ds s = Some (s', r) ∧ grows s s' ∧ (seCycle s = true → seCycle s' = true) ∧
    (seCycle s = false → Finished s → (∀ g, colorOf s g = gray → rtc edge g t) →
     leads s s' (λ s', r = false ∧ ∀ d, d ∈ ds → d ∈ seen → d ∈ seOrder s')).
Proof.
  intros Hv Ht. revert s. induction ds as [|dep ds IH]; intros s Hds Hu; cbn [visitDeps].
  { exists s, false. split; [done|]. split; [by intros x|]. split; [done|]. intros Hc HF _. right. split_and!; [done|done|done|done|done|]. by intros ? ?%elem_of_nil. }
  assert (∀ d, d ∈ ds → d ∈ depsOf deps t) as Hds' by (intros; apply Hds; by right).
  assert (dep ∈ depsOf deps t) as Hdep by (apply Hds; by left).
  assert (∀ s1 s2 r, leads s1 s2 (λ s', r = false ∧ ∀ d, d ∈ ds → d ∈ seen → d ∈ seOrder s') →
    (seCycle s2 = false → dep ∈ seen → dep ∈ seOrder s2) → leads s1 s2 (λ s', r = false ∧ ∀ d, d ∈ dep :: ds → d ∈ seen → d ∈ seOrder s')) as Hcons.
  { intros s1 s2 r [?|(Hc & HF & Hg & Hp & Hr & Hall)] Hd; [by left|right]. split_and!; try done. intros d [->|?]%elem_of_cons; auto. }
  destruct (colorOf s dep) eqn:Ec; [case_bool_decide as Hseen|..].
  - destruct (Hv dep s Hseen Ec Hu) as (s1 & -> & Hg1 & Hc1 & Hl1). cbn [mbind option_bind].
    destruct (IH s1 Hds') as (s' & r & -> & Hg' & Hc' & Hl'); [pose proof (unvisited_mono s s1 Hg1); lia|].
    exists s', r. split_and!; [done|intros x Hx; by apply Hg', Hg1|intros Hc; apply Hc'; by rewrite (Hc1 Hc)|].
    intros Hc HF Hgray. assert (edge t dep) as He by done.
    assert (∀ g, colorOf s g = gray → rtc edge g dep) as Hdepg by (intros g Hg; eapply rtc_r; [by apply Hgray|done]).
    destruct (Hl1 Hc HF Hdepg) as [[Hy Hcyc]|(Hn & HF1 & Hgr1 & Hp1 & Hin)]; [left; auto|].
    assert (∀ g, colorOf s1 g = gray → rtc edge g t) as Hgray1 by (intros g Hg; by apply Hgray, Hgr1).
    specialize (Hl' Hn HF1 Hgray1). apply Hcons; [|intros Hn' _].
    + destruct Hl' as [?|(? & ? & Hg2 & Hp2 & ? & ?)]; [by left|right]. split_and!; try done; [intros x; rewrite Hg2; apply Hgr1|by etrans].
    + destruct Hl' as [[? _]|(_ & _ & _ & Hp2 & _)]; [congruence|]. by eapply elem_of_prefix.
  - destruct (IH s Hds' Hu) as (s' & r & -> & Hg' & Hc' & Hl'). exists s', r. split_and!; [done..|]. intros Hc HF Hgray.
    apply Hcons; [by apply Hl'|done].
  - eexists _, true. split; [reflexivity|]. split; [by intros x|]. split; [done|]. intros Hc HF Hgray. left. split; [done|]. exists t.
    apply tc_rtc_r with dep; [apply tc_once; split_and!; [done| |done]; apply (fi_seen _ HF); congruence|by apply Hgray].
  - destruct (IH s Hds' Hu) as (s' & r & -> & Hg' & Hc' & Hl'). exists s', r. split_and!; [done..|]. intros Hc HF Hgray.
    assert (dep ∈ seOrder s) as Hin by (by apply (fi_black _ HF)). specialize (Hl' Hc HF Hgray). apply Hcons; [done|]. intros Hn _.
    destruct Hl' as [[? _]|(_ & _ & _ & Hp2 & _)]; [congruence|]. by eapply elem_of_prefix.
Qed.

Lemma Finished_gray s t : t ∈ seen → colorOf s t = white → Finished s → Finished (paint s t gray).
Proof.
  intros Ht Hw [HB HN HD HS]. split; [|done|done|].
  - intros x. rewrite colorOf_paint. cbn [paint seOrder]. rewrite <-HB. case_bool_decide; [subst|done]. rewrite Hw. done.
  - intros x. rewrite colorOf_paint. case_bool_decide; [by subst|apply HS].
Qed.

Definition finish (s : Search) (t : string) : Search := mkSearch (<[t := black]> (seColor s)) (seOrder s ++ [t]) (seCycle s).

Lemma colorOf_finish s t x : colorOf (finish s t) x = if bool_decide (t = x) then black else colorOf s x.
Proof. apply (colorOf_paint s t black x). Qed.

Lemma Finished_black s t :
  t ∈ seen → colorOf s t = gray → (∀ d, d ∈ depsOf deps t → d ∈ seen → d ∈ seOrder s) → Finished s → Finished (finish s t).
Proof.
  intros Ht Hg Hd [HB HN HD HS]. split; cbn [finish seOrder].
  - intros x. rewrite colorOf_finish, elem_of_app, list_elem_of_singleton, <-HB. case_bool_decide; [subst; tauto|]. intuition congruence.
  - apply NoDup_app. split_and!; [done| |apply NoDup_singleton]. intros x Hx ->%list_elem_of_singleton. apply HB in Hx. congruence.
  - by apply depsFirst_snoc.
  - intros x. rewrite colorOf_finish. case_bool_decide; [by subst|apply HS].
Qed.

Lemma visit_spec fuel : visitSpec fuel (visit deps seen fuel).
Proof.
  induction fuel as [|fuel IH]; intros t s Ht Hw Hu.
  { pose proof (unvisited_paint s t Ht Hw). lia. }
  cbn [visit]. destruct (seCycle s) eqn:Ec; [exists s; split; [done|]; split; [by intros x|]; done|].
  pose proof (unvisited_paint s t Ht Hw). destruct (visitDeps_spec fuel (visit deps seen fuel) t (depsOf deps t) (paint s t gray) IH Ht)
    as (s' & r & -> & Hg & Hc & Hl); [done|lia|]. cbn [mbind option_bind].
  assert (grows s s') as Hg1. { intros x Hx. apply Hg. rewrite colorOf_paint. by case_bool_decide. }
  assert (grows s' (finish s' t)) as Hg2. { intros x Hx. rewrite colorOf_finish. by case_bool_decide. }
  exists (if r then s' else finish s' t). split; [by destruct r|]. split; [destruct r; [done|intros x Hx; by apply Hg2, Hg1]|]. split; [done|]. intros _ HF Hgray.
  destruct Hl as [[Hy Hcyc]|(Hn & HF' & Hgr & Hp & -> & Hin)]; [done|by apply Finished_gray| |left; by destruct r|].
  { intros g. rewrite colorOf_paint. case_bool_decide; [subst; constructor|auto]. }
  assert (colorOf s' t = gray) as Hgt by (apply Hgr; by rewrite colorOf_paint, bool_decide_true).
  right. split_and!; [done|by apply Finished_black| |by apply prefix_app_r|apply elem_of_app; right; by apply list_elem_of_singleton].
  intros x. rewrite colorOf_finish. case_bool_decide; [subst; rewrite Hw; done|]. rewrite Hgr, colorOf_paint. by rewrite bool_decide_false.
Qed.

Lemma visitAll_spec fuel templates s :
  (∀ t, t ∈ templates → t ∈ seen) → (unvisited s ≤ fuel)%nat → (seCycle s = true → cyclic) →
  (seCycle s = false → Finished s ∧ ∀ x, colorOf s x ≠ gray) →
  ∃ s', visitAll deps seen fuel templates s = Some s' ∧ (seCycle s' = true → cyclic) ∧
    (seCycle s' = false → seCycle s = false ∧ Finished s' ∧ seOrder s `prefix_of` seOrder s' ∧ ∀ t, t ∈ templates → t ∈ seOrder s').
Proof.
  revert s. induction templates as [|t l IH]; intros s Hseen Hu Hcyc HF; cbn [visitAll].
  { exists s. split_and!; [done|done|]. intros Hc. destruct (HF Hc). split_and!; [done|done|done|]. by intros ? ?%elem_of_nil. }
  assert (∀ t, t ∈ l → t ∈ seen) as Hl by (intros; apply Hseen; by right).
  assert (colorOf s t ≠ white → seCycle s = false → t ∈ seOrder s) as Hblack.
  { intros Hw Hc. destruct (HF Hc) as [HFs Hng]. apply (fi_black _ HFs). specialize (Hng t). by destruct (colorOf s t). }
  destruct (colorOf s t) eqn:Et.
  2,3: destruct (IH s Hl Hu Hcyc HF) as (s' & -> & Hc' & Hok); exists s'; split_and!; [done|done|]; intros Hn;
    destruct (Hok Hn) as (Hc & HF' & Hp & Hin); split_and!; [done|done|done|]; intros x [->|?]%elem_of_cons; [|by auto];
    eapply elem_of_prefix; [by apply Hblack|done].
  destruct (visit_spec fuel t s (Hseen t (list_elem_of_here _ _)) Et Hu) as (s1 & -> & Hg1 & Hsame & Hlead). cbn [mbind option_bind].
  assert (unvisited s1 ≤ fuel)%nat as Hu1 by (pose proof (unvisited_mono s s1 Hg1); lia).
  assert ((seCycle s1 = true → cyclic) ∧ (seCycle s1 = false → seCycle s = false ∧ Finished s1 ∧ (∀ x, colorOf s1 x ≠ gray) ∧
    seOrder s `prefix_of` seOrder s1 ∧ t ∈ seOrder s1)) as [Hc1 Hok1].
  { destruct (seCycle s) eqn:Ec; [rewrite (Hsame eq_refl), Ec; split; [auto|done]|]. destruct (HF eq_refl) as [HFs Hng].
    destruct (Hlead eq_refl HFs) as [[Hy ?]|(Hn & HF1 & Hgr & Hp & Hin)]; [intros g Hg; by destruct (Hng g)|split; [done|congruence]|].
    split; [congruence|]. intros _. split_and!; try done. intros x Hx. apply (Hng x). by apply Hgr. }
  destruct (IH s1 Hl Hu1 Hc1) as (s' & -> & Hc' & Hok); [intros Hn; destruct (Hok1 Hn) as (_ & ? & ? & _); done|].
  exists s'. split_and!; [done|done|]. intros Hn. destruct (Hok Hn) as (Hn1 & HF' & Hp' & Hin'). destruct (Hok1 Hn1) as (? & _ & _ & Hp & Hin).
  split_and!; [done|done|by etrans|]. intros x [->|?]%elem_of_cons; [by eapply elem_of_prefix|auto].
Qed.

(** A finished order has no cycle: a dependency sits strictly before. *)
Lemma depsFirst_acyclic order : NoDup order → depsFirst order → (∀ x, x ∈ seen → x ∈ order) → ¬ cyclic.
Proof.
  intros HN HD Hall [x Hx].
  assert (∀ a b, tc edge a b → ∀ l1 l2, order = l1 ++ a :: l2 → b ∈ l1) as H.
  { induction 1 as [a b (_ & Hb & Hd)|a b c (Ha & Hb & Hd) _ IH]; intros l1 l2 E; [by eapply HD|].
    assert (b ∈ l1) as (k1 & k2 & ->)%list_elem_of_split by (by eapply HD). rewrite <-app_assoc in E. apply elem_of_app. left. by eapply IH. }
  assert (x ∈ order) as (l1 & l2 & E)%list_elem_of_split. { apply Hall. by inversion Hx as [?? []|??? []]. }
  specialize (H x x Hx l1 l2 E). rewrite E in HN. apply NoDup_app in HN as (_ & HN & _). apply (HN x H). by left.
Qed.
End search.

(** ** Rows *)

Section rows.
Context {A : Type} (template : A → string).

Lemma elem_of_uniqueTemplates rows seen t : t ∈ uniqueTemplates template rows seen ↔ t ∉ seen ∧ t ∈ template <$> rows.
Proof.
  revert seen. induction rows as [|r rows IH]; intros seen; cbn [uniqueTemplates fmap list_fmap].
  { rewrite elem_of_nil. tauto. }
  case_bool_decide as Hr; rewrite ?elem_of_cons, IH; [set_solver|].
  destruct (decide (t = template r)); set_solver.
Qed.

Lemma NoDup_uniqueTemplates rows seen : NoDup (uniqueTemplates template rows seen).
Proof.
  revert seen. induction rows as [|r rows IH]; intros seen; cbn [uniqueTemplates]; [constructor|].
  case_bool_decide; [done|]. constructor; [|done]. rewrite elem_of_uniqueTemplates. set_solver.
Qed.

Lemma rowsOf_app l1 l2 t : rowsOf template (l1 ++ l2) t = rowsOf template l1 t ++ rowsOf template l2 t.
Proof. apply List.filter_app. Qed.

Lemma rowsOf_other rows t t' : t ≠ t' → rowsOf template (rowsOf template rows t) t' = [].
Proof.
  intros Hne. unfold rowsOf. induction rows as [|r rows IH]; [done|]. cbn [List.filter]. case_bool_decide as E; [|done].
  cbn [List.filter]. by rewrite bool_decide_false by congruence.
Qed.

Lemma rowsOf_same rows t : rowsOf template (rowsOf template rows t) t = rowsOf template rows t.
Proof.
  unfold rowsOf. induction rows as [|r rows IH]; [done|]. cbn [List.filter]. case_bool_decide as E; [|done].
  cbn [List.filter]. rewrite bool_decide_true by done. by rewrite IH.
Qed.

Lemma rowsOf_concat rows order t :
  NoDup order → rowsOf template (concat (rowsOf template rows <$> order)) t = if bool_decide (t ∈ order) then rowsOf template rows t else [].
Proof.
  induction 1 as [|x order Hx HN IH]; [by rewrite bool_decide_false by apply not_elem_of_nil|]. cbn [fmap list_fmap concat].
  rewrite rowsOf_app, IH. destruct (decide (x = t)) as [->|Hne].
  - rewrite rowsOf_same, (bool_decide_false (t ∈ order)), (bool_decide_true (t ∈ t :: order)), app_nil_r by (done || by left). done.
  - rewrite rowsOf_other by done. cbn [app]. apply f_equal with (f := λ b : bool, if b then _ else _). apply bool_decide_ext. set_solver.
Qed.

(** Groups by template are a rearrangement of the rows. *)
Lemma concat_rowsOf_perm rows order :
  NoDup order → (∀ r, r ∈ rows → template r ∈ order) → concat (rowsOf template rows <$> order) ≡ₚ rows.
Proof.
  intros HN. revert rows. induction HN as [|x order Hx HN IH]; intros rows Hall; cbn [fmap list_fmap concat].
  { destruct rows as [|r rows]; [done|]. specialize (Hall r (list_elem_of_here _ _)). by apply elem_of_nil in Hall. }
  set (rest := List.filter (λ r, template r != x) rows).
  assert (concat (rowsOf template rows <$> order) = concat (rowsOf template rest <$> order)) as ->.
  { f_equal. apply list_fmap_ext. intros i t Hi. unfold rowsOf, rest. assert (t ≠ x) by (intros ->; apply Hx; by eapply list_elem_of_lookup_2).
    clear -H. induction rows as [|r rows IHr]; [done|]. cbn [List.filter]. rewrite IHr.
    destruct (decide (template r = t)) as [E|E].
    - rewrite (bool_decide_true (_ = t)), (bool_decide_false (_ = x)) by congruence. cbn [negb List.filter]. by rewrite bool_decide_true.
    - rewrite (bool_decide_false (_ = t)) by done. destruct (negb _); [cbn [List.filter]; by rewrite (bool_decide_false (_ = t))|done]. }
  rewrite IH.
  - unfold rowsOf, rest. clear. induction rows as [|r rows IHr]; [done|]. cbn [List.filter].
    destruct (template r == x); cbn [negb app]; [by rewrite IHr|]. rewrite <-Permutation_middle. by rewrite IHr.
  - intros r. unfold rest. rewrite list_elem_of_In, filter_In, <-list_elem_of_In, negb_true_iff, bool_decide_eq_false. intros [Hr Hne].
    apply Hall, elem_of_cons in Hr as [?|?]; done.
Qed.

(** No row is followed by a row of a template it depends on. *)
Definition dependenciesFirst (deps : gmap string (list string)) (rows : list A) : Prop :=
  StronglySorted (λ a b, template b ∉ depsOf deps (template a)) rows.

Lemma rowsOf_In rows t r : r ∈ rowsOf template rows t ↔ r ∈ rows ∧ template r = t.
Proof. unfold rowsOf. by rewrite list_elem_of_In, filter_In, <-list_elem_of_In, bool_decide_eq_true. Qed.

Lemma concat_rowsOf_sorted deps seen rows order :
  NoDup order → depsFirst deps seen order → (∀ x, x ∈ order → x ∈ seen) →
  dependenciesFirst deps (concat (rowsOf template rows <$> order)).
Proof.
  intros HN HD Hs. assert (∀ x l1 l2 y, order = l1 ++ x :: l2 → y ∈ x :: l2 → y ∉ depsOf deps x) as Hbefore.
  { intros x l1 l2 y E Hy Hd. assert (y ∈ l1) as Hl. { eapply HD; [done..|]. apply Hs. rewrite E. apply elem_of_app. by right. }
    rewrite E in HN. apply NoDup_app in HN as (_ & HN & _). by apply (HN y). }
  clear HN HD Hs. revert Hbefore. unfold dependenciesFirst. induction order as [|x order IH]; intros Hb; cbn [fmap list_fmap concat]; [constructor|].
  apply StronglySorted_app_2.
  - intros a b Ha Hin. apply rowsOf_In in Ha as [_ <-]. apply list_elem_of_In, in_concat in Hin as (l & Hl%list_elem_of_In & Hin%list_elem_of_In).
    apply list_elem_of_fmap in Hl as (y & -> & Hy). apply rowsOf_In in Hin as [_ <-]. eapply (Hb _ []); [done|]. by right.
  - assert (∀ a b, a ∈ rowsOf template rows x → b ∈ rowsOf template rows x → template b ∉ depsOf deps (template a)) as Hx.
    { intros a b [_ <-]%rowsOf_In [_ Eb]%rowsOf_In. rewrite Eb. eapply (Hb _ []); [done|]. by left. }
    induction (rowsOf template rows x) as [|a l IHl]; constructor.
    + apply IHl. intros; apply Hx; by right.
    + apply Forall_forall. intros b Hbin. apply Hx; [by left|by right].
  - apply IH. intros y l1 l2 z E. eapply (Hb y (x :: l1)). by rewrite E.
Qed.

(** The templates present. *)
Definition present (rows : list A) : gset string := list_to_set (uniqueTemplates template rows ∅).

Lemma elem_of_present rows t : t ∈ present rows ↔ t ∈ template <$> rows.
Proof. unfold present. rewrite elem_of_list_to_set, elem_of_uniqueTemplates. set_solver. Qed.

Lemma topo_run rows deps :
  ∃ out, topoOrderBy template rows deps = Some out ∧ out ≡ₚ rows ∧ (∀ t, rowsOf template out t = rowsOf template rows t) ∧
    (¬ cyclic deps (present rows) → dependenciesFirst deps out) ∧ (cyclic deps (present rows) → out = rows).
Proof.
  unfold topoOrderBy. case_bool_decide as Hd.
  { exists rows. split_and!; try done. subst deps. intros _. unfold dependenciesFirst, depsOf. clear. induction rows as [|r rows IH]; constructor; [done|].
    apply Forall_forall. intros b _. rewrite lookup_empty. apply not_elem_of_nil. }
  cbv zeta. fold (present rows). set (templates := uniqueTemplates template rows ∅).
  destruct (visitAll_spec deps (present rows) (length templates) templates (mkSearch ∅ [] false)) as (s & -> & Hc & Hok).
  - intros t. unfold present. by rewrite elem_of_list_to_set.
  - pose proof (size_list_to_set (C:=gset string) templates (NoDup_uniqueTemplates rows ∅)) as <-.
    apply subseteq_size. intros x. rewrite elem_of_filter. by intros [_ ?].
  - done.
  - intros _. split; [|done]. split; [|constructor| |done].
    + intros x. unfold colorOf. cbn. rewrite lookup_empty. split; [done|by intros ?%elem_of_nil].
    + intros l1 x l2 E. by destruct l1.
  - cbn [mbind option_bind]. eexists. split; [done|]. destruct (seCycle s) eqn:Ec.
    { split_and!; [done|done| |done]. intros Hn. destruct Hn. by apply Hc. }
    destruct (Hok eq_refl) as (_ & [HB HN HD HS] & _ & Hin).
    assert (∀ r, r ∈ rows → template r ∈ seOrder s) as Hall.
    { intros r Hr. apply Hin. apply elem_of_uniqueTemplates. split; [apply not_elem_of_empty|]. by apply list_elem_of_fmap_2. }
    assert (∀ x, x ∈ seOrder s → x ∈ present rows) as Hseen by (intros x Hx; apply HS; apply HB in Hx; congruence).
    split_and!; [by apply concat_rowsOf_perm| |by intros _; eapply concat_rowsOf_sorted|].
    + intros t. rewrite rowsOf_concat by done. case_bool_decide as Ht; [done|]. symmetry. unfold rowsOf.
      destruct (List.filter _ rows) as [|r l] eqn:E; [done|]. exfalso. apply Ht.
      assert (r ∈ rowsOf template rows t) as [Hr <-]%rowsOf_In by (unfold rowsOf; rewrite E; by left). by apply Hall.
    + intros Hcyc. destruct (depsFirst_acyclic deps (present rows) (seOrder s) HN HD); [|done].
      intros x Hx. apply Hin. by apply elem_of_list_to_set in Hx.
Qed.

(** C15 Dependency order: the ordering returns (its search ends); it keeps every
    row, and the order of the rows of one template; when the dependencies of
    the templates present have no cycle, no row is followed by a row it depends
    on; when they have one, the rows are returned as they are. *)
Theorem topo_order rows deps :
  ∃ out, topoOrderBy template rows deps = Some out ∧ out ≡ₚ rows ∧ (∀ t, rowsOf template out t = rowsOf template rows t) ∧
    (¬ cyclic deps (present rows) → dependenciesFirst deps out) ∧ (cyclic deps (present rows) → out = rows).
Proof. apply topo_run. Qed.
End rows.

(** ** The two forms agree *)

Lemma uniqueTemplates_fmap {A B} (f : A → B) (template : B → string) rows seen :
  uniqueTemplates template (f <$> rows) seen = uniqueTemplates (template ∘ f) rows seen.
Proof. revert seen. induction rows as [|r rows IH]; intros seen; cbn; [done|]. case_bool_decide; by rewrite IH. Qed.

Lemma rowsOf_fmap {A B} (f : A → B) (template : B → string) rows t :
  rowsOf template (f <$> rows) t = f <$> rowsOf (template ∘ f) rows t.
Proof.
  unfold rowsOf. induction rows as [|r rows IH]; [done|]. rewrite fmap_cons. cbn [List.filter].
  change ((template ∘ f) r) with (template (f r)). rewrite IH. by destruct (template (f r) == t).
Qed.

Lemma topoOrderBy_fmap {A B} (f : A → B) (template : B → string) (rows : list A) deps :
  topoOrderBy template (f <$> rows) deps = (λ out : list A, f <$> out) <$> topoOrderBy (template ∘ f) rows deps.
Proof.
  unfold topoOrderBy. case_bool_decide; [done|]. rewrite uniqueTemplates_fmap. destruct (visitAll _ _ _ _ _) as [s|]; [|done]. cbn.
  f_equal. destruct (seCycle s); [done|]. induction (seOrder s) as [|t l IH]; [done|]. cbn. rewrite fmap_app, rowsOf_fmap. by f_equal.
Qed.

Lemma topoOrderBy_ext {A} (t1 t2 : A → string) rows deps : (∀ r, t1 r = t2 r) → topoOrderBy t1 rows deps = topoOrderBy t2 rows deps.
Proof.
  intros E. assert (∀ seen, uniqueTemplates t1 rows seen = uniqueTemplates t2 rows seen) as Eu.
  { induction rows as [|r rows IH]; intros seen; cbn; [done|]. rewrite E. case_bool_decide; by rewrite IH. }
  assert (∀ t, rowsOf t1 rows t = rowsOf t2 rows t) as Er by (intros t; apply filter_ext; intros r; by rewrite E).
  unfold topoOrderBy. case_bool_decide; [done|]. rewrite Eu. destruct (visitAll _ _ _ _ _) as [s|]; [|done]. cbn.
  f_equal. destruct (seCycle s); [done|]. f_equal. apply list_fmap_ext. intros i t _. apply Er.
Qed.

(** The typed form orders as the raw one: ordering the snapshots of beads,
    each with its circuit state, is ordering the beads and taking the
    snapshots. *)
Theorem topo_rows_match {C} (circuit : Bead → C) (sessions : list Bead) deps :
  let row b := (infoFromPersistedBead b, circuit b) in
  topoOrderRows (row <$> sessions) deps = (λ out : list Bead, row <$> out) <$> topoOrder sessions deps.
Proof.
  intros row. unfold topoOrderRows, topoOrder. rewrite topoOrderBy_fmap.
  rewrite (topoOrderBy_ext _ (λ b, (bMetadata b).["template"])); [reflexivity|]. intros b. exact (info_text b "template" (Text "Template") "Template" eq_refl eq_refl).
Qed.

(** ** Two agents and their dependency *)

Definition chain : gmap string (list string) := {["mayor" := ["deacon"]; "deacon" := ["dolt"]]}.

Definition rowsOrdered : option (list (string * string)) :=
  topoOrderBy snd [("s1", "mayor"); ("s2", "deacon"); ("s3", "mayor"); ("s4", "witness")] chain.

Example chain_order : rowsOrdered = Some [("s2", "deacon"); ("s1", "mayor"); ("s3", "mayor"); ("s4", "witness")].
Proof. vm_compute. reflexivity. Qed.

Lemma topo_order_witness :
  dependenciesFirst snd chain [("s2", "deacon"); ("s1", "mayor"); ("s3", "mayor"); ("s4", "witness")].
Proof.
  destruct (topo_order snd [("s1", "mayor"); ("s2", "deacon"); ("s3", "mayor"); ("s4", "witness")] chain) as (out & E & _ & _ & H & _).
  assert (out = [("s2", "deacon"); ("s1", "mayor"); ("s3", "mayor"); ("s4", "witness")]) as <-.
  { injection (eq_trans (eq_sym E) chain_order). intros ->. reflexivity. }
  apply H. apply (depsFirst_acyclic chain _ ["deacon"; "mayor"; "witness"]).
  - apply (bool_decide_unpack _). vm_compute. exact I.
  - intros l1 x l2 El d Hd Hs. apply elem_of_present in Hs.
    destruct l1 as [|a [|b [|c [|e l1]]]]; cbn in El; try discriminate El; injection El; intros; subst;
      vm_compute in Hd; repeat (apply elem_of_cons in Hd as [->|Hd]); try (by apply elem_of_nil in Hd); try (by left).
    all: exfalso; revert Hs; apply (bool_decide_unpack _); vm_compute; exact I.
  - intros x Hx. apply elem_of_present in Hx. cbn in Hx. set_solver.
Defined.
