(* ===== verification/Orders.v ===== *)
(** * Orders: scheduled and triggered work, and when it is due

    Models [internal/orders]: the order data and its validation ([order.go]),
    trigger evaluation ([triggers.go]), overrides, filtering and the layering of
    scanned orders ([override.go], [filter.go], [scanner.go]), and the shared
    scan of [internal/orderdiscovery/discovery.go].

    A location is the offset of its wall clock from UTC at each instant; the
    zone database ([time.LoadLocation]), [time.ParseDuration], the check
    command, the event log and the files of an order root are parameters.
    Reasons and errors are constructors: their text is shown, not read. *)

From Stdlib Require Import Ascii.
From S2P Require Import Prelude GoBase GoText GoTime Beads SessionState SessionInfo ConvMeta.

Local Open Scope Z_scope.

(** ** Orders *)

Record Order := mkOrder {
  orName : string;
  orSkipAliases : list string;
  orDescription : string;
  orFormula : string;
  orExec : string;
  orScope : string;
  orTrigger : string;
  orInterval : string;
  orSchedule : string;
  orTZ : string;
  orCheck : string;
  orOn : string;
  orPool : string;
  orTimeout : string;
  orCheckTimeout : string;
  orEnabled : option bool;
  orIdempotent : bool;
  orEnv : gmap string string;
  orParams : gmap string bool;   (* parameter to required *)
  orSource : string;
  orFormulaLayer : string;
  orRig : string
}.

Definition ScopedName (a : Order) : string :=
  if a.(orRig) == "" then a.(orName) else a.(orName) +:+ ":rig:" +:+ a.(orRig).

Definition IsEnabled (a : Order) : bool := default true a.(orEnabled).
Definition IsExec (a : Order) : bool := a.(orExec) != "".
Definition IsCityScoped (a : Order) : bool := a.(orScope) == "city".

Definition defaultConditionCheckTimeout : Z := 10 * Second.

(** A location: the offset of the wall clock at an instant. *)
Definition Location : Type := Z → Z.

Class ZoneDatabase := { LoadLocation : string → option Location }.

Section orders.
Context `{DurationParser} `{ZoneDatabase}.

Definition TimeoutOrDefault (a : Order) : Z :=
  let byExec := if IsExec a then 300 * Second else 30 * Second in
  if a.(orTimeout) != "" then default byExec (ParseDuration a.(orTimeout)) else byExec.

Definition CheckTimeoutOrDefault (a : Order) : Z :=
  if a.(orCheckTimeout) != "" then
    match ParseDuration a.(orCheckTimeout) with
    | Some d => if 0 <? d then d else defaultConditionCheckTimeout
    | None => defaultConditionCheckTimeout
    end
  else defaultConditionCheckTimeout.

(** *** Validation *)

Inductive OrderError :=
| FormulaOrExecRequired | FormulaAndExec | EnvNeedsExec | ExecWithPool | EnvKeyRequired | EnvKeyInvalid
| ParamNameRequired | UnknownScope | InvalidTimeout | InvalidCheckTimeout | CheckTimeoutNotPositive | InvalidTZ
| IntervalRequired | InvalidInterval | ScheduleRequired | CheckRequired | OnRequired | ParamsRequired
| TriggerRequired | UnknownTrigger.

(** The first error of a list of checks. *)
Fixpoint firstError (checks : list (bool * OrderError)) : option OrderError :=
  match checks with
  | [] => None
  | (bad, e) :: checks => if (bad : bool) then Some e else firstError checks
  end.

Definition validDuration (s : string) : bool := bool_decide (is_Some (ParseDuration s)).

(** The map keys are visited in any order; which of two bad keys is reported
    is left open by Go, whether one is reported is not. *)
Definition badEnvKey (a : Order) : option OrderError :=
  let keys := (map_to_list a.(orEnv)).*1 in
  match find (λ k, (TrimSpace k == "") || Contains k "=") keys with
  | Some k => Some (if TrimSpace k == "" then EnvKeyRequired else EnvKeyInvalid)
  | None => None
  end.

Definition triggerError (a : Order) : option OrderError :=
  if a.(orTrigger) == "cooldown" then
    firstError [(a.(orInterval) == "", IntervalRequired); (negb (validDuration a.(orInterval)), InvalidInterval)]
  else if a.(orTrigger) == "cron" then firstError [(a.(orSchedule) == "", ScheduleRequired)]
  else if a.(orTrigger) == "condition" then firstError [(a.(orCheck) == "", CheckRequired)]
  else if a.(orTrigger) == "event" then firstError [(a.(orOn) == "", OnRequired)]
  else if a.(orTrigger) == "manual" then None
  else if a.(orTrigger) == "webhook" then firstError [(bool_decide (a.(orParams) = ∅), ParamsRequired)]
  else if a.(orTrigger) == "" then Some TriggerRequired
  else Some UnknownTrigger.

Definition Validate (a : Order) : option OrderError :=
  let early := firstError
    [ ((a.(orFormula) == "") && (a.(orExec) == ""), FormulaOrExecRequired);
      ((a.(orFormula) != "") && (a.(orExec) != ""), FormulaAndExec);
      (negb (bool_decide (a.(orEnv) = ∅)) && (a.(orExec) == ""), EnvNeedsExec);
      ((a.(orExec) != "") && (a.(orPool) != ""), ExecWithPool) ] in
  match early with
  | Some e => Some e
  | None =>
      match badEnvKey a with
      | Some e => Some e
      | None =>
          let later := firstError
            [ (existsb (λ k, TrimSpace k == "") (map_to_list a.(orParams)).*1, ParamNameRequired);
              (negb (oneOf a.(orScope) [""; "city"; "rig"]), UnknownScope);
              ((a.(orTimeout) != "") && negb (validDuration a.(orTimeout)), InvalidTimeout);
              ((a.(orCheckTimeout) != "") && negb (validDuration a.(orCheckTimeout)), InvalidCheckTimeout);
              ((a.(orCheckTimeout) != "") && (default 0 (ParseDuration a.(orCheckTimeout)) <=? 0), CheckTimeoutNotPositive);
              ((a.(orTZ) != "") && negb (bool_decide (is_Some (LoadLocation a.(orTZ)))), InvalidTZ) ] in
          match later with
          | Some e => Some e
          | None => triggerError a
          end
      end
  end.

(** [sort.Strings] of the required parameters with a blank value. *)
Definition MissingRequiredParams (a : Order) (vars : gmap string string) : list string :=
  merge_sort strLe (List.filter (λ name, TrimSpace vars.[name] == "")
    (List.filter snd (map_to_list a.(orParams))).*1).

Definition ValidateRequiredParams (a : Order) (vars : gmap string string) : bool :=
  match MissingRequiredParams a vars with [] => true | _ => false end.

(** ** Triggers *)

Inductive TriggerReason :=
| BadInterval | LastRunError | NeverRun | CooldownElapsed (elapsed interval : Z) | CooldownRemaining (remaining : Z)
| BadCronSchedule (fields : nat) | BadTZ | CronAlreadyRun | CronMatched | CronSpringForward | CronCaughtUp | CronNotMatched
| CheckPassed | CheckTimedOut | CheckWaitDelay | CheckFailed
| NoEventsProvider | EventReadError | NoMatchingEvents | EventsMatched (count : nat)
| ManualTrigger | WebhookTrigger | BadTrigger.

Record TriggerResult := mkTriggerResult {
  trDue : bool;
  trReason : TriggerReason;
  trLastRun : Z
}.

(** [LastRunFunc]: an error is [None]. *)
Abbreviation LastRunFunc := (string → option Z) (only parsing).

Definition checkCooldown (a : Order) (now : Z) (lastRunFn : LastRunFunc) : TriggerResult :=
  match ParseDuration a.(orInterval) with
  | None => mkTriggerResult false BadInterval 0
  | Some interval =>
      match lastRunFn (ScopedName a) with
      | None => mkTriggerResult false LastRunError 0
      | Some last =>
          if IsZero last then mkTriggerResult true NeverRun last
          else
            let elapsed := timeSub now last in
            if interval <=? elapsed then mkTriggerResult true (CooldownElapsed elapsed interval) last
            else mkTriggerResult false (CooldownRemaining (wrap64 (interval - elapsed))) last
      end
  end.

(** *** Cron *)

(** [strings.Fields]: the runs of runes that are not white space. *)
Fixpoint fieldsLoop (rs : list (Z * string)) (field : string) : list string :=
  match rs with
  | [] => if field == "" then [] else [field]
  | rb :: rs =>
      if IsSpace rb.1 then (if field == "" then fieldsLoop rs "" else field :: fieldsLoop rs "")
      else fieldsLoop rs (field +:+ rb.2)
  end.

Definition Fields (s : string) : list string := fieldsLoop (runes s) "".

Definition cronFieldMatches (field : string) (value : Z) : bool :=
  if field == "*" then true
  else existsb (λ part,
    let part := TrimSpace part in
    if HasPrefix part "*/" then
      match Atoi (TrimPrefix part "*/") with
      | Some step => (0 <? step) && (Z.rem value step =? 0)
      | None => false
      end
    else match Atoi part with
    | Some n => n =? value
    | None => false
    end) (Split "," field).

(** A wall-clock reading is the instant that reads the same in UTC. *)
Definition wall (loc : Location) (t : Z) : Z := t + loc t.

Definition clockMinute (w : Z) : Z := (w / Minute) mod 60.
Definition clockHour (w : Z) : Z := (w / Hour) mod 24.
Definition clockWeekday (w : Z) : Z := (w / Day + 1) mod 7.   (* 1 January of year 1 is a Monday *)

Record Schedule := mkSchedule { scMinute : string; scHour : string; scDom : string; scMonth : string; scDow : string }.

(** [matchesAt] on a wall-clock reading. *)
Definition matchesWall (s : Schedule) (w : Z) : bool :=
  let '(_, month, day) := civil (w / Day) in
  cronFieldMatches s.(scMinute) (clockMinute w) && cronFieldMatches s.(scHour) (clockHour w) &&
  cronFieldMatches s.(scDom) day && cronFieldMatches s.(scMonth) month && cronFieldMatches s.(scDow) (clockWeekday w).

Definition matchesAt (s : Schedule) (loc : Location) (t : Z) : bool := matchesWall s (wall loc t).

(** The text of a reading in the layout of dates and minutes. *)
Definition wallMinuteText (w : Z) : string :=
  let '(y, mo, d) := civil (w / Day) in
  pad 4 y +:+ "-" +:+ pad 2 mo +:+ "-" +:+ pad 2 d +:+ " " +:+ pad 2 (clockHour w) +:+ ":" +:+ pad 2 (clockMinute w).

Definition sameWallMinute (loc : Location) (x y : Z) : bool := wallMinuteText (wall loc x) == wallMinuteText (wall loc y).

(** [t.Truncate(time.Minute)]. *)
Definition truncateMinute (t : Z) : Z := t - t mod Minute.

(** The readings strictly between two, a minute apart. *)
Fixpoint gapLoop (fuel : nat) (s : Schedule) (w fin : Z) : bool :=
  match fuel with
  | O => false
  | S fuel => if w <? fin then matchesWall s w || gapLoop fuel s (w + Minute) fin else false
  end.

Definition matchesInWallGap (s : Schedule) (loc : Location) (prev t : Z) : bool :=
  let w := truncateMinute (wall loc prev) + Minute in
  let fin := truncateMinute (wall loc t) in
  gapLoop (Z.to_nat ((fin - w) / Minute + 1)) s w fin.

Definition maxCatchupLookback : Z := 366 * 24 * Hour.
Definition neverRunCatchupLookback : Z := 25 * Hour.

(** The scan for a missed occurrence, from [t] to [now]. *)
Fixpoint catchUp (fuel : nat) (s : Schedule) (loc : Location) (last now prev t : Z) : option TriggerReason :=
  match fuel with
  | O => None
  | S fuel =>
      if now <? t then None
      else if (loc prev <? loc t) && matchesInWallGap s loc prev t then Some CronSpringForward
      else if matchesAt s loc t && negb (sameWallMinute loc last t) then Some CronCaughtUp
      else catchUp fuel s loc last now t (t + Minute)
  end.

Definition catchUpStart (last now : Z) : Z :=
  let lookback := if IsZero last then neverRunCatchupLookback else maxCatchupLookback in
  let start := if IsZero last then truncateMinute (now - neverRunCatchupLookback) else truncateMinute last + Minute in
  let floor := truncateMinute (now - lookback) in
  if start <? floor then floor else start.

Definition cronReason (s : Schedule) (loc : Location) (last now : Z) : bool * TriggerReason :=
  if matchesAt s loc now then
    if negb (IsZero last) && sameWallMinute loc last now then (false, CronAlreadyRun) else (true, CronMatched)
  else
    let start := catchUpStart last now in
    match catchUp (Z.to_nat ((now - start) / Minute + 1)) s loc last now (start - Minute) start with
    | Some reason => (true, reason)
    | None => (false, CronNotMatched)
    end.

Definition resolveOrderLocation (a : Order) (local : Location) : option Location :=
  if a.(orTZ) == "" then Some local else LoadLocation a.(orTZ).

Definition checkCron (a : Order) (now : Z) (local : Location) (lastRunFn : LastRunFunc) : TriggerResult :=
  match Fields a.(orSchedule) with
  | [minute; hour; dom; month; dow] =>
      match resolveOrderLocation a local with
      | None => mkTriggerResult false BadTZ 0
      | Some loc =>
          match lastRunFn (ScopedName a) with
          | None => mkTriggerResult false LastRunError 0
          | Some last =>
              let '(due, reason) := cronReason (mkSchedule minute hour dom month dow) loc last now in
              mkTriggerResult due reason last
          end
      end
  | fields => mkTriggerResult false (BadCronSchedule (length fields)) 0
  end.

(** *** Conditions and events *)

(** How the check command ended, within a timeout. *)
Inductive CheckOutcome := ExitZero | DeadlineExceeded | WaitDelayExceeded | RunError.

Definition checkCondition (a : Order) (timeout : Z) (run : string → Z → CheckOutcome) : TriggerResult :=
  let timeout := if timeout <=? 0 then CheckTimeoutOrDefault a else timeout in
  match run a.(orCheck) timeout with
  | ExitZero => mkTriggerResult true CheckPassed 0
  | DeadlineExceeded => mkTriggerResult false CheckTimedOut 0
  | WaitDelayExceeded => mkTriggerResult false CheckWaitDelay 0
  | RunError => mkTriggerResult false CheckFailed 0
  end.

Definition labelOrderTracking : string := "order-tracking".

(** An event: its number, its type, and the labels its payload decodes to. *)
Record Event := mkEvent {
  evSeq : Z;
  evType : string;
  evPayloadLabels : option (list string)
}.

Definition payloadHasLabel (payload : option (list string)) (label : string) : bool :=
  match payload with
  | Some labels => bool_decide (label ∈ labels)
  | None => false
  end.

(** The provider's [List] with a type and a lower bound; [None] is an error. *)
Definition checkEvent (a : Order) (ep : option (string → Z → option (list Event))) (cursorFn : option (string → Z)) : TriggerResult :=
  match ep with
  | None => mkTriggerResult false NoEventsProvider 0
  | Some list_ =>
      let cursor := match cursorFn with Some f => f (ScopedName a) | None => 0 end in
      match list_ a.(orOn) cursor with
      | None => mkTriggerResult false EventReadError 0
      | Some matched =>
          let count := length (List.filter (λ e, negb (payloadHasLabel e.(evPayloadLabels) labelOrderTracking)) matched) in
          if (count =? 0)%nat then mkTriggerResult false NoMatchingEvents 0 else mkTriggerResult true (EventsMatched count) 0
      end
  end.

Record TriggerContext := mkTriggerContext {
  tcLastRun : string → option Z;
  tcLocal : Location;
  tcEvents : option (string → Z → option (list Event));
  tcCursor : option (string → Z);
  tcTimeout : Z;
  tcRun : string → Z → CheckOutcome
}.

Definition CheckTriggerWithOptions (a : Order) (now : Z) (c : TriggerContext) : TriggerResult :=
  if a.(orTrigger) == "cooldown" then checkCooldown a now c.(tcLastRun)
  else if a.(orTrigger) == "cron" then checkCron a now c.(tcLocal) c.(tcLastRun)
  else if a.(orTrigger) == "condition" then checkCondition a c.(tcTimeout) c.(tcRun)
  else if a.(orTrigger) == "event" then checkEvent a c.(tcEvents) c.(tcCursor)
  else if a.(orTrigger) == "manual" then mkTriggerResult false ManualTrigger 0
  else if a.(orTrigger) == "webhook" then mkTriggerResult false WebhookTrigger 0
  else mkTriggerResult false BadTrigger 0.

(** [strconv.ParseUint(s, 10, 64)]: decimal digits only, within 64 bits. *)
Definition ParseUint (s : string) : option Z :=
  match parseDigits s with
  | Some n => if n <? 2 ^ 64 then Some n else None
  | None => None
  end.

Definition MaxSeqFromLabels (labelSets : list (list string)) : Z :=
  foldl (λ maxSeq l,
    if HasPrefix l "seq:" then
      match ParseUint (sdrop 4 l) with
      | Some n => if maxSeq <? n then n else maxSeq
      | None => maxSeq
      end
    else maxSeq) 0 (concat labelSets).

(** ** Layering *)

Definition FilterEnabled (aa : list Order) : list Order := List.filter IsEnabled aa.

(** A scanned root: its orders, the findings of a legacy layout, or an error. *)
Inductive RootScan (E : Type) := RootOrders (aa : list Order) | RootLegacy | RootFailed (e : E).
#[global] Arguments RootOrders {E} aa.
#[global] Arguments RootLegacy {E}.
#[global] Arguments RootFailed {E} e.

Inductive ScanError (E : Type) := LegacyLayout | ScanFailed (e : E).
#[global] Arguments LegacyLayout {E}.
#[global] Arguments ScanFailed {E} e.

(** The orders found so far by name, the names in order of discovery, and
    whether a legacy layout was met. *)
Record Found := mkFound { fdOrders : gmap string Order; fdNames : list string; fdLegacy : bool }.

Definition addFound (f : Found) (a : Order) : Found :=
  mkFound (<[a.(orName) := a]> f.(fdOrders))
    (if bool_decide (is_Some (f.(fdOrders) !! a.(orName))) then f.(fdNames) else f.(fdNames) ++ [a.(orName)]) f.(fdLegacy).

Fixpoint scanLoop {E} (roots : list (RootScan E)) (f : Found) : res E Found :=
  match roots with
  | [] => Ok f
  | RootFailed e :: _ => Err e
  | RootLegacy :: roots => scanLoop roots (mkFound f.(fdOrders) f.(fdNames) true)
  | RootOrders aa :: roots => scanLoop roots (foldl addFound f aa)
  end.

Definition hasSkippedAlias (a : Order) (skip : list string) : bool := existsb (λ alias, bool_decide (alias ∈ skip)) a.(orSkipAliases).

Definition ScanRoots {E} (roots : list (RootScan E)) (skip : list string) : res (ScanError E) (list Order) :=
  match scanLoop roots (mkFound ∅ [] false) with
  | Err e => Err (ScanFailed e)
  | Ok f =>
      if f.(fdLegacy) then Err LegacyLayout
      else Ok (List.filter (λ a, IsEnabled a && negb (bool_decide (a.(orName) ∈ skip) || hasSkippedAlias a skip))
                 (omap (λ name, f.(fdOrders) !! name) f.(fdNames)))
  end.

(** ** Overrides *)

Definition RigWildcard : string := "*".

Record Override := mkOverride {
  ovName : string;
  ovRig : string;
  ovEnabled : option bool;
  ovTrigger : option string;
  ovInterval : option string;
  ovSchedule : option string;
  ovCheck : option string;
  ovOn : option string;
  ovPool : option string;
  ovTimeout : option string;
  ovCheckTimeout : option string;
  ovIdempotent : option bool;
  ovEnv : gmap string string
}.

Definition rigMatches (ovRig orderRig : string) : bool := (ovRig == RigWildcard) || (ovRig == orderRig).

Definition applyOverride (a : Order) (ov : Override) : Order :=
  mkOrder a.(orName) a.(orSkipAliases) a.(orDescription) a.(orFormula) a.(orExec) a.(orScope)
    (default a.(orTrigger) ov.(ovTrigger)) (default a.(orInterval) ov.(ovInterval)) (default a.(orSchedule) ov.(ovSchedule))
    a.(orTZ) (default a.(orCheck) ov.(ovCheck)) (default a.(orOn) ov.(ovOn)) (default a.(orPool) ov.(ovPool))
    (default a.(orTimeout) ov.(ovTimeout)) (default a.(orCheckTimeout) ov.(ovCheckTimeout))
    match ov.(ovEnabled) with Some b => Some b | None => a.(orEnabled) end
    (default a.(orIdempotent) ov.(ovIdempotent)) (ov.(ovEnv) ∪ a.(orEnv)) a.(orParams)
    a.(orSource) a.(orFormulaLayer) a.(orRig).

Definition targets (ov : Override) (a : Order) : bool := (a.(orName) == ov.(ovName)) && rigMatches ov.(ovRig) a.(orRig).

Inductive OverrideError := OverrideNameRequired (index : nat) | OverrideNotFound (index : nat).

(** The orders are changed in place, so an error leaves the changes of the
    overrides before it. *)
Fixpoint applyOverridesLoop (i : nat) (aa : list Order) (overrides : list Override) : list Order * option OverrideError :=
  match overrides with
  | [] => (aa, None)
  | ov :: overrides =>
      if ov.(ovName) == "" then (aa, Some (OverrideNameRequired i))
      else if existsb (targets ov) aa
        then applyOverridesLoop (S i) ((λ a, if targets ov a then applyOverride a ov else a) <$> aa) overrides
        else (aa, Some (OverrideNotFound i))
  end.

Definition ApplyOverrides (aa : list Order) (overrides : list Override) : list Order * option OverrideError :=
  applyOverridesLoop 0 aa overrides.

(** ** The shared scan *)

Definition setTZ (a : Order) (tz : string) : Order :=
  mkOrder a.(orName) a.(orSkipAliases) a.(orDescription) a.(orFormula) a.(orExec) a.(orScope) a.(orTrigger) a.(orInterval)
    a.(orSchedule) tz a.(orCheck) a.(orOn) a.(orPool) a.(orTimeout) a.(orCheckTimeout) a.(orEnabled) a.(orIdempotent)
    a.(orEnv) a.(orParams) a.(orSource) a.(orFormulaLayer) a.(orRig).

Definition setRig (a : Order) (rig : string) : Order :=
  mkOrder a.(orName) a.(orSkipAliases) a.(orDescription) a.(orFormula) a.(orExec) a.(orScope) a.(orTrigger) a.(orInterval)
    a.(orSchedule) a.(orTZ) a.(orCheck) a.(orOn) a.(orPool) a.(orTimeout) a.(orCheckTimeout) a.(orEnabled) a.(orIdempotent)
    a.(orEnv) a.(orParams) a.(orSource) a.(orFormulaLayer) rig.

Section scan.
Context {E V : Type}.

Inductive ScanAllError :=
| CityScanError (e : E) | RigScanError (rig : string) (e : E) | BadTimezone | OverrideFailed (e : OverrideError)
| OrderInvalid (e : OrderError) | OrderRejected (e : V) | HandlerError.

(** The handlers and the caller's validator: [None] is nil; a handler that
    answers [true] returned nil, and its error is otherwise the scan's. *)
Record ScanOptions := mkScanOptions {
  soOnRigScanError : option (string → E → bool);
  soOnOverrideError : option (OverrideError → bool);
  soOnValidateError : option (string → ScanAllError → bool);
  soValidateOrder : option (Order → option V)
}.

(** One order of a rig's scan: a city-scoped one is kept once by name, any
    other is stamped with its rig. *)
Definition addRigOrder (rigName : string) (st : list string * list Order * list Order) (a : Order) :
    list string * list Order * list Order :=
  let '(seen, promoted, rigOrders) := st in
  if IsCityScoped a then
    if bool_decide (a.(orName) ∈ seen) then (seen, promoted, rigOrders)
    else (a.(orName) :: seen, promoted ++ [a], rigOrders)
  else (seen, promoted, rigOrders ++ [setRig a rigName]).

(** The rigs with roots of their own, in order of name, and what the scan of
    their roots gave. *)
Fixpoint scanRigs (opts : ScanOptions) (rigs : list (string * res E (list Order)))
    (st : list string * list Order * list Order) : res ScanAllError (list string * list Order * list Order) :=
  match rigs with
  | [] => Ok st
  | (rigName, Err e) :: rigs =>
      match opts.(soOnRigScanError) with
      | None => Err (RigScanError rigName e)
      | Some handler => if handler rigName e then scanRigs opts rigs st else Err HandlerError
      end
  | (rigName, Ok aa) :: rigs => scanRigs opts rigs (foldl (addRigOrder rigName) st aa)
  end.

Definition validateOrder (opts : ScanOptions) (a : Order) : option ScanAllError :=
  match Validate a with
  | Some e => Some (OrderInvalid e)
  | None =>
      match opts.(soValidateOrder) with
      | Some extraValidate => OrderRejected <$> extraValidate a
      | None => None
      end
  end.

Fixpoint validateOrders (opts : ScanOptions) (aa : list Order) : res ScanAllError (list Order) :=
  match aa with
  | [] => Ok []
  | a :: aa =>
      match validateOrder opts a with
      | Some e =>
          match opts.(soOnValidateError) with
          | None => Err e
          | Some handler => if handler (ScopedName a) e then validateOrders opts aa else Err HandlerError
          end
      | None =>
          match validateOrders opts aa with
          | Ok valid => Ok (a :: valid)
          | Err e => Err e
          end
      end
  end.

Definition stampTZ (tz : string) (a : Order) : Order := if a.(orTZ) == "" then setTZ a tz else a.

Definition ScanAll (city : res E (list Order)) (rigs : list (string * res E (list Order))) (tz : string)
    (overrides : list Override) (opts : ScanOptions) : res ScanAllError (list Order) :=
  match city with
  | Err e => Err (CityScanError e)
  | Ok cityOrders =>
      match scanRigs opts rigs (orName <$> cityOrders, [], []) with
      | Err e => Err e
      | Ok (_, promoted, rigOrders) =>
          let all := cityOrders ++ promoted ++ rigOrders in
          if (tz != "") && negb (bool_decide (is_Some (LoadLocation tz))) then Err BadTimezone
          else
            let all := if tz != "" then stampTZ tz <$> all else all in
            let '(all, failed) := ApplyOverrides all overrides in
            match failed with
            | None => validateOrders opts all
            | Some e =>
                match opts.(soOnOverrideError) with
                | None => Err (OverrideFailed e)
                | Some handler => if handler e then validateOrders opts all else Err HandlerError
                end
            end
      end
  end.
End scan.
End orders.
