(* ===== verification/CronProps.v ===== *)
(** * CronProps: when a cron order is due

    The scan of [checkCron] in [internal/orders/triggers.go] against the
    calendar: the minutes it visits, the slots it cannot miss, and, where the
    wall clock keeps its offset, the exact condition under which it fires. *)

From Stdlib Require Import Ascii.
From S2P Require Import Prelude GoBase GoText GoTime GoTimeProps ConvMetaProps Beads SessionState SessionInfo Orders.

Local Open Scope Z_scope.

(** ** Minutes *)

Ltac units := unfold Day, Hour, Minute, Second, Millisecond in *.

(** Readings the layout prints with a year of four digits. *)
Definition wallRange (w : Z) : Prop := -306 * Day ≤ w < daysToYear10000 * Day.

Lemma wall_day w : wallRange w → -306 ≤ w / Day < daysToYear10000.
Proof. unfold wallRange, daysToYear10000. units. divs. Qed.

Lemma minute_parts w :
  w / Minute = w / Day * 1440 + clockHour w * 60 + clockMinute w ∧ 0 ≤ clockHour w ≤ 23 ∧ 0 ≤ clockMinute w ≤ 59.
Proof. unfold clockHour, clockMinute. units. divs. Qed.

(** What a reading shows depends on its minute alone. *)
Lemma minute_determines w1 w2 :
  w1 / Minute = w2 / Minute → w1 / Day = w2 / Day ∧ w1 / Hour = w2 / Hour.
Proof. units. intros. split; divs. Qed.

Lemma clock_determined w1 w2 :
  w1 / Minute = w2 / Minute →
  w1 / Day = w2 / Day ∧ clockHour w1 = clockHour w2 ∧ clockMinute w1 = clockMinute w2 ∧ clockWeekday w1 = clockWeekday w2.
Proof.
  intros E. destruct (minute_determines w1 w2 E) as [Hd Hh]. unfold clockHour, clockMinute, clockWeekday.
  by rewrite E, Hd, Hh.
Qed.

Lemma matchesWall_minute s w1 w2 : w1 / Minute = w2 / Minute → matchesWall s w1 = matchesWall s w2.
Proof. intros E. destruct (clock_determined w1 w2 E) as (Hd & Hh & Hm & Hw). unfold matchesWall. by rewrite Hd, Hh, Hm, Hw. Qed.

Lemma pad_app_inj w z1 z2 x y :
  (0 < w)%nat → 0 ≤ z1 < 10 ^ Z.of_nat w → 0 ≤ z2 < 10 ^ Z.of_nat w →
  pad w z1 +:+ x = pad w z2 +:+ y → z1 = z2 ∧ x = y.
Proof.
  intros Hw H1 H2 He. destruct (pad_spec w z1 H1 Hw) as (L1 & _ & V1), (pad_spec w z2 H2 Hw) as (L2 & _ & V2).
  apply string_app_inj_same_length in He as [Hp ->]; [|lia]. split; [|done]. by rewrite <-V1, Hp.
Qed.

Lemma pad_inj w z1 z2 :
  (0 < w)%nat → 0 ≤ z1 < 10 ^ Z.of_nat w → 0 ≤ z2 < 10 ^ Z.of_nat w → pad w z1 = pad w z2 → z1 = z2.
Proof. intros Hw H1 H2 He. apply (pad_app_inj w z1 z2 "" "" Hw H1 H2). by rewrite He. Qed.

(** The rendering of [wallMinuteLayout] tells the minutes apart. *)
Lemma wallMinuteText_inj w1 w2 :
  wallRange w1 → wallRange w2 → wallMinuteText w1 = wallMinuteText w2 → w1 / Minute = w2 / Minute.
Proof.
  intros R1%wall_day R2%wall_day. unfold wallMinuteText.
  destruct (civil (w1 / Day)) as [[y1 m1] d1] eqn:E1, (civil (w2 / Day)) as [[y2 m2] d2] eqn:E2.
  destruct (civil_spec _ _ _ _ R1 E1) as (Y1 & M1 & D1 & N1), (civil_spec _ _ _ _ R2 E2) as (Y2 & M2 & D2 & N2).
  assert (∀ m y, daysIn m y ≤ 31) as H31 by (intros; unfold daysIn; repeat case_match; lia).
  pose proof (H31 m1 y1). pose proof (H31 m2 y2).
  destruct (minute_parts w1) as (-> & Hh1 & Hm1), (minute_parts w2) as (-> & Hh2 & Hm2).
  intros He.
  apply (pad_app_inj 4) in He as [-> He%(inj (String.app "-"))]; [|lia|cbn; lia|cbn; lia].
  apply (pad_app_inj 2) in He as [-> He%(inj (String.app "-"))]; [|lia|cbn; lia|cbn; lia].
  apply (pad_app_inj 2) in He as [-> He%(inj (String.app " "))]; [|lia|cbn; lia|cbn; lia].
  apply (pad_app_inj 2) in He as [-> He%(inj (String.app ":"))]; [|lia|cbn; lia|cbn; lia].
  apply (pad_inj 2) in He as ->; [|lia|cbn; lia|cbn; lia]. by rewrite <-N1, <-N2.
Qed.

Lemma sameWallMinute_spec loc x y :
  wallRange (wall loc x) → wallRange (wall loc y) →
  sameWallMinute loc x y = bool_decide (wall loc x / Minute = wall loc y / Minute).
Proof.
  intros Hx Hy. apply bool_decide_ext. split; [by apply wallMinuteText_inj|].
  intros E. destruct (clock_determined _ _ E) as (Hd & Hh & Hm & _). unfold wallMinuteText. by rewrite Hd, Hh, Hm.
Qed.

(** ** The scans *)

Lemma gapLoop_spec s fin fuel w :
  (fin - w) / Minute + 1 ≤ Z.of_nat fuel →
  gapLoop fuel s w fin = true ↔ ∃ k, 0 ≤ k ∧ w + k * Minute < fin ∧ matchesWall s (w + k * Minute) = true.
Proof.
  revert w. induction fuel as [|fuel IH]; intros w Hf; cbn [gapLoop].
  - split; [done|]. intros (k & ? & ? & _). exfalso. units. divs.
  - destruct (Z.ltb_spec w fin) as [Hlt|Hge].
    + rewrite orb_true_iff, IH by (units; divs). split.
      * intros [Hm|(k & ? & ? & Hm)]; [exists 0|exists (k + 1)].
        -- rewrite Z.mul_0_l, Z.add_0_r. done.
        -- replace (w + (k + 1) * Minute) with (w + Minute + k * Minute) by lia. split; [lia|]. done.
      * intros (k & Hk & Hlt' & Hm). destruct (Z.eq_dec k 0) as [->|Hne].
        -- left. by rewrite Z.mul_0_l, Z.add_0_r in Hm.
        -- right. exists (k - 1). replace (w + Minute + (k - 1) * Minute) with (w + k * Minute) by lia. split; [lia|]. done.
    + split; [done|]. intros (k & ? & ? & _). units. lia.
Qed.

(** A reading skipped by the step from [prev] to [t]. *)
Definition skipped (loc : Location) (prev t w : Z) : Prop :=
  w mod Minute = 0 ∧ wall loc prev / Minute < w / Minute < wall loc t / Minute.

Lemma matchesInWallGap_spec s loc prev t :
  matchesInWallGap s loc prev t = true ↔ ∃ w, skipped loc prev t w ∧ matchesWall s w = true.
Proof.
  unfold matchesInWallGap, skipped, truncateMinute. rewrite gapLoop_spec by (units; divs). split.
  - intros (k & Hk & Hlt & Hm). eexists. split; [|exact Hm]. clear Hm. units. split; [divs|]. split; divs.
  - intros (w & (H0 & H1 & H2) & Hm). exists (w / Minute - wall loc prev / Minute - 1).
    replace (wall loc prev - _ + _ + _) with w by (units; divs). split; [lia|]. split; [|done]. clear Hm. units. divs.
Qed.

(** A minute of the scan at which the order is found due. *)
Definition servable (s : Schedule) (loc : Location) (last m : Z) : bool :=
  ((loc (m - Minute) <? loc m) && matchesInWallGap s loc (m - Minute) m) || (matchesAt s loc m && negb (sameWallMinute loc last m)).

(** The fuel [cronReason] passes reaches [now]. *)
Lemma catchUp_spec s loc last now fuel t :
  (now - t) / Minute + 1 ≤ Z.of_nat fuel →
  is_Some (catchUp fuel s loc last now (t - Minute) t) ↔
  ∃ k, 0 ≤ k ∧ t + k * Minute ≤ now ∧ servable s loc last (t + k * Minute) = true.
Proof.
  revert t. induction fuel as [|fuel IH]; intros t Hf; cbn [catchUp].
  - split; [by intros []|]. intros (k & ? & ? & _). exfalso. units. divs.
  - destruct (Z.ltb_spec now t) as [Hlt|Hge].
    { split; [by intros []|]. intros (k & ? & ? & _). units. lia. }
    assert (servable s loc last t = true ∨ servable s loc last t = false) as [Hs|Hs] by (destruct servable; auto).
    + split; [intros _; exists 0; rewrite Z.mul_0_l, Z.add_0_r; done|]. intros _. unfold servable in Hs.
      destruct (_ && matchesInWallGap _ _ _ _); [done|]. cbn [orb] in Hs. rewrite Hs. done.
    + pose proof Hs as Hs'. unfold servable in Hs'. apply orb_false_iff in Hs' as [-> ->].
      replace t with (t + Minute - Minute) at 1 by lia. rewrite IH by (units; divs). split.
      * intros (k & Hk & Hle & Hm). exists (k + 1). replace (t + (k + 1) * Minute) with (t + Minute + k * Minute) by lia.
        split; [lia|]. done.
      * intros (k & Hk & Hle & Hm). destruct (Z.eq_dec k 0) as [->|Hne].
        -- rewrite Z.mul_0_l, Z.add_0_r in Hm. congruence.
        -- exists (k - 1). replace (t + Minute + (k - 1) * Minute) with (t + k * Minute) by lia. split; [lia|]. done.
Qed.

(** The verdict as a search over the minutes from [catchUpStart] to [now]. *)
Lemma cronReason_spec s loc last now :
  (cronReason s loc last now).1 = true ↔
  if matchesAt s loc now then IsZero last = true ∨ sameWallMinute loc last now = false
  else ∃ k, 0 ≤ k ∧ catchUpStart last now + k * Minute ≤ now ∧ servable s loc last (catchUpStart last now + k * Minute) = true.
Proof.
  unfold cronReason. destruct (matchesAt s loc now).
  - destruct (IsZero last), (sameWallMinute loc last now); cbn; naive_solver.
  - rewrite <-(catchUp_spec _ _ _ _ (Z.to_nat ((now - catchUpStart last now) / Minute + 1))) by lia.
    destruct catchUp; split; naive_solver.
Qed.

(** ** No slot is missed *)

Definition lookback (last : Z) : Z := if IsZero last then neverRunCatchupLookback else maxCatchupLookback.

(** An offset that does not change within the minute of [t] and shifts the
    wall clock by whole minutes. *)
Definition wholeMinute (loc : Location) (t : Z) : Prop := loc (truncateMinute t) = loc t ∧ loc t mod Minute = 0.

(** The minute of [t] is a slot [last] did not serve: its reading is scheduled,
    or the clock jumped over a scheduled reading to reach it. *)
Definition missedSlot (s : Schedule) (loc : Location) (last t : Z) : Prop :=
  (matchesAt s loc t = true ∧ sameWallMinute loc last t = false) ∨
  (∃ w, skipped loc (truncateMinute t - Minute) (truncateMinute t) w ∧ matchesWall s w = true).

Lemma truncate_wall loc t : wholeMinute loc t → wall loc (truncateMinute t) / Minute = wall loc t / Minute.
Proof. intros [E H0]. unfold wall. rewrite E. unfold truncateMinute. units. divs. Qed.

Lemma sameWallMinute_truncate loc last t :
  wholeMinute loc t → sameWallMinute loc last (truncateMinute t) = sameWallMinute loc last t.
Proof.
  intros Hw. destruct (clock_determined _ _ (truncate_wall loc t Hw)) as (Hd & Hh & Hm & _).
  unfold sameWallMinute, wallMinuteText. by rewrite Hd, Hh, Hm.
Qed.

Lemma skipped_jump loc prev t w : t = prev + Minute → skipped loc prev t w → loc prev < loc t.
Proof. intros -> (_ & H). unfold wall in H. units. divs. Qed.

Lemma missedSlot_servable s loc last t :
  wholeMinute loc t → missedSlot s loc last t → servable s loc last (truncateMinute t) = true.
Proof.
  intros Hw [[Hm Hs]|(w & Hs & Hm)]; unfold servable; apply orb_true_iff.
  - right. unfold matchesAt. rewrite (matchesWall_minute s _ _ (truncate_wall loc t Hw)).
    unfold matchesAt in Hm. by rewrite Hm, (sameWallMinute_truncate _ _ _ Hw), Hs.
  - left. apply andb_true_iff. split.
    + apply Z.ltb_lt. eapply skipped_jump; [|exact Hs]. lia.
    + apply matchesInWallGap_spec. eauto.
Qed.

(** The scan starts at a minute no later than any slot it must find. *)
Lemma catchUpStart_spec last now t :
  (IsZero last = true ∨ truncateMinute last < truncateMinute t) → now ≤ t + lookback last →
  catchUpStart last now ≤ truncateMinute t ∧ catchUpStart last now mod Minute = 0.
Proof.
  unfold catchUpStart, lookback, truncateMinute, neverRunCatchupLookback, maxCatchupLookback. intros Ho Hl.
  destruct (IsZero last); [|destruct Ho as [|Ho]; [done|]]; units; case_match; zify; divs.
Qed.

Lemma no_missed_slot s loc last now t :
  wholeMinute loc t → missedSlot s loc last t →
  (IsZero last = true ∨ truncateMinute last < truncateMinute t) → t ≤ now ≤ t + lookback last →
  sameWallMinute loc last now = false → (cronReason s loc last now).1 = true.
Proof.
  intros Hw Hm Ho [Hle Hl] Hn. apply cronReason_spec. destruct (matchesAt s loc now); [auto|].
  destruct (catchUpStart_spec last now t Ho Hl) as [Hst H0].
  exists ((truncateMinute t - catchUpStart last now) / Minute).
  replace (catchUpStart last now + _) with (truncateMinute t).
  - split; [units; divs|]. split; [unfold truncateMinute; units; divs|]. by apply missedSlot_servable.
  - unfold truncateMinute in *. units. divs.
Qed.

(** ** A clock that keeps its offset *)

Definition fixedZone (off : Z) : Location := λ _, off.

Definition slotBetween (s : Schedule) (loc : Location) (a b : Z) : bool :=
  existsb (λ k, matchesAt s loc (k * Minute)) (seqZ (a / Minute + 1) (b / Minute - a / Minute)).

Lemma slotBetween_spec s loc a b :
  slotBetween s loc a b = true ↔ ∃ m, m mod Minute = 0 ∧ a < m ≤ b ∧ matchesAt s loc m = true.
Proof.
  unfold slotBetween. rewrite existsb_exists. split.
  - intros (k & Hk%list_elem_of_In%elem_of_seqZ & Hm). exists (k * Minute). split; [apply Z.mod_mul; done|].
    split; [|done]. clear Hm. units. divs.
  - intros (m & H0 & Hab & Hm). exists (m / Minute). replace (m / Minute * Minute) with m by (units; divs).
    split; [|done]. apply list_elem_of_In, elem_of_seqZ. clear Hm. units. divs.
Qed.

Section fixed.
Context (off : Z) (Hoff : off mod Minute = 0) (Hsmall : -Day < off < Day).

Definition instantRange (t : Z) : Prop := 0 ≤ t < (daysToYear10000 - 1) * Day.

Lemma fixed_wholeMinute t : wholeMinute (fixedZone off) t.
Proof. done. Qed.

Lemma fixed_same x y :
  instantRange x → instantRange y → sameWallMinute (fixedZone off) x y = bool_decide (x / Minute = y / Minute).
Proof.
  intros Hx Hy. rewrite sameWallMinute_spec.
  - apply bool_decide_ext. unfold wall, fixedZone. clear Hx Hy. units. divs.
  - unfold wallRange, wall, fixedZone, instantRange, daysToYear10000 in *. units. lia.
  - unfold wallRange, wall, fixedZone, instantRange, daysToYear10000 in *. units. lia.
Qed.

Lemma fixed_servable s last m :
  instantRange last → instantRange m → last / Minute < m / Minute →
  servable s (fixedZone off) last m = matchesAt s (fixedZone off) m.
Proof.
  intros Hl Hm Hlt. unfold servable. rewrite (fixed_same last m Hl Hm). rewrite bool_decide_false by lia.
  unfold fixedZone at 1 2. rewrite Z.ltb_irrefl. cbn. by rewrite andb_true_r.
Qed.

Lemma cron_due_iff_slot s last now :
  0 < last → last ≤ now ≤ last + maxCatchupLookback → instantRange now →
  (cronReason s (fixedZone off) last now).1 = slotBetween s (fixedZone off) last now.
Proof.
  intros H0 Hle Hn. apply eq_true_iff_eq. rewrite slotBetween_spec.
  assert (instantRange last) as Hl by (unfold instantRange in *; lia).
  assert (IsZero last = false) as Hz by (unfold IsZero; by apply Z.eqb_neq; lia).
  rewrite cronReason_spec, Hz. destruct (matchesAt s (fixedZone off) now) eqn:Em.
  - rewrite (fixed_same last now Hl Hn), bool_decide_eq_false. split.
    + intros [|Hne]; [done|]. exists (truncateMinute now). unfold matchesAt.
      rewrite (matchesWall_minute s _ _ (truncate_wall _ now (fixed_wholeMinute now))).
      split; [|split; [|done]]; unfold truncateMinute; clear Em; units; divs.
    + intros (m & ? & ? & _). right. units. divs.
  - split.
    + intros (k & Hk & Hkn & Hs). exists (catchUpStart last now + k * Minute).
      assert (catchUpStart last now = truncateMinute last + Minute) as E.
      { unfold catchUpStart. rewrite Hz. destruct (Z.ltb_spec (truncateMinute last + Minute) (truncateMinute (now - maxCatchupLookback))) as [Hf|];
          [|done]. exfalso. unfold truncateMinute, maxCatchupLookback in *. units. divs. }
      rewrite fixed_servable in Hs; [|done|rewrite E in *; unfold instantRange, truncateMinute in *; units; divs|
        rewrite E in *; unfold truncateMinute in *; units; divs].
      split; [|split; [|done]]; rewrite E in *; unfold truncateMinute in *; clear Hs; units; divs.
    + intros (m & Hm0 & Hm & Ha).
      destruct (catchUpStart_spec last now m) as [Hst Hs0].
      { right. unfold truncateMinute. units. divs. }
      { unfold lookback. rewrite Hz. lia. }
      assert (truncateMinute m = m) as Et by (unfold truncateMinute; lia). rewrite Et in Hst.
      exists ((m - catchUpStart last now) / Minute).
      replace (catchUpStart last now + _) with m by (units; divs).
      rewrite fixed_servable; [|done|unfold instantRange in *; lia|units; divs].
      split; [units; divs|]. split; [lia|done].
Qed.
End fixed.
