(* ===== verification/OrdersProps.v ===== *)
(** * OrdersProps: due orders, overrides and the layered scan

    A cron order misses no slot of its schedule; on a clock that keeps its
    offset, a sequence of checks fires at exactly the checks that have a slot
    behind them, and in the repeated hour of a clock set back it fires a slot
    twice.  Overrides touch the orders they name and no other field, and stay
    applied when a later one fails.  A scan keeps one order per name, the one
    of the last root that has it, and one per name and rig over the city. *)

From S2P Require Import Prelude GoBase GoText GoTime GoTimeProps Beads SessionState SessionInfo ConvMeta Orders CronProps.

Local Open Scope Z_scope.

(** ** Cron *)

Section cron.
Context `{DurationParser} `{ZoneDatabase}.

Lemma checkCron_due a now local lastRunFn minute hour dom month dow loc last :
  Fields a.(orSchedule) = [minute; hour; dom; month; dow] → resolveOrderLocation a local = Some loc →
  lastRunFn (ScopedName a) = Some last →
  (checkCron a now local lastRunFn).(trDue) = (cronReason (mkSchedule minute hour dom month dow) loc last now).1.
Proof. intros Hf Hl Hr. unfold checkCron. rewrite Hf, Hl, Hr. by destruct cronReason. Qed.

(** C21 A cron order misses no slot: when the reading of some minute since the
    last run is scheduled, or the clock jumped forward over a scheduled
    reading, and the minute lies within the lookback (a year for an order that
    has run, 25 hours for one that has not), the order is due, unless its last
    run stands in the wall-clock minute of the check. *)
Theorem cron_no_missed_slot a now local lastRunFn minute hour dom month dow loc last t :
  Fields a.(orSchedule) = [minute; hour; dom; month; dow] → resolveOrderLocation a local = Some loc →
  lastRunFn (ScopedName a) = Some last →
  wholeMinute loc t → missedSlot (mkSchedule minute hour dom month dow) loc last t →
  (IsZero last = true ∨ truncateMinute last < truncateMinute t) → t ≤ now ≤ t + lookback last →
  sameWallMinute loc last now = false →
  (checkCron a now local lastRunFn).(trDue) = true.
Proof. intros Hf Hl Hr Hw Hm Ho Ht Hn. rewrite (checkCron_due _ _ _ _ _ _ _ _ _ _ _ Hf Hl Hr). by apply (no_missed_slot _ _ _ _ t). Qed.
End cron.

(** A sequence of checks, each run recorded at the instant of its check. *)
Fixpoint cronTicks (s : Schedule) (loc : Location) (last : Z) (ticks : list Z) : list Z :=
  match ticks with
  | [] => []
  | now :: ticks => if (cronReason s loc last now).1 then now :: cronTicks s loc now ticks else cronTicks s loc last ticks
  end.

(** The checks with a slot since the check before. *)
Fixpoint slotTicks (s : Schedule) (loc : Location) (prev : Z) (ticks : list Z) : list Z :=
  match ticks with
  | [] => []
  | now :: ticks => if slotBetween s loc prev now then now :: slotTicks s loc now ticks else slotTicks s loc now ticks
  end.

Lemma slotBetween_split s loc a b c :
  a ≤ b ≤ c → slotBetween s loc a b = false → slotBetween s loc a c = slotBetween s loc b c.
Proof.
  intros Hab Hno. apply eq_true_iff_eq. rewrite !slotBetween_spec. split.
  - intros (m & H0 & Hm & Hs). exists m. split; [done|]. split; [|done].
    destruct (decide (b < m)) as [|Hnb]; [lia|]. exfalso.
    assert (slotBetween s loc a b = true) as Hy; [|congruence]. apply slotBetween_spec. exists m. split; [done|]. split; [lia|done].
  - intros (m & H0 & Hm & Hs). exists m. split; [done|]. split; [lia|done].
Qed.

Lemma ticks_lemma off s last prev ticks :
  off mod Minute = 0 → -Day < off < Day → 0 < last ≤ prev → Sorted Z.le (prev :: ticks) →
  Forall (λ t, t ≤ last + maxCatchupLookback ∧ instantRange t) ticks →
  slotBetween s (fixedZone off) last prev = false →
  cronTicks s (fixedZone off) last ticks = slotTicks s (fixedZone off) prev ticks.
Proof.
  intros Ho Hd. revert last prev. induction ticks as [|now ticks IH]; intros last prev Hlp Hsort Hall Hno; [done|].
  apply Sorted_inv in Hsort as [Hsort Hhd]. apply HdRel_inv in Hhd. apply Forall_cons in Hall as [[Hy Hr] Hall].
  cbn [cronTicks slotTicks]. rewrite (cron_due_iff_slot off Ho Hd) by (try lia; done).
  rewrite (slotBetween_split _ _ last prev now) by (try lia; done).
  destruct (slotBetween s (fixedZone off) prev now) eqn:E.
  - f_equal. apply IH; [lia|done| |].
    + eapply Forall_impl; [exact Hall|]. cbn. intros t [??]. split; [lia|done].
    + apply not_true_iff_false. rewrite slotBetween_spec. intros (m & _ & ? & _). lia.
  - apply IH; [lia|done|done|]. by rewrite (slotBetween_split _ _ last prev now) by (try lia; done).
Qed.

(** C22 On a clock that keeps its offset, for checks in order of time within a
    year of the last run, a cron order fires at exactly the checks that have a
    scheduled minute since the check before: every slot is served by the first
    check at or after it, and no slot is served twice, however many slots fall
    between two checks. *)
Theorem cron_ticks_exact off s last ticks :
  off mod Minute = 0 → -Day < off < Day → 0 < last → Sorted Z.le (last :: ticks) →
  Forall (λ t, t ≤ last + maxCatchupLookback ∧ instantRange t) ticks →
  cronTicks s (fixedZone off) last ticks = slotTicks s (fixedZone off) last ticks.
Proof.
  intros Ho Hd H0 Hs Hf. apply (ticks_lemma off s last last ticks Ho Hd); [lia|done|done|].
  apply not_true_iff_false. rewrite slotBetween_spec. intros (m & _ & ? & _). lia.
Qed.

(** *** Clocks *)

(** 2 November 2025, 06:00 UTC: New York is set back from UTC-4 to UTC-5. *)
Definition fallBack : Z := (719162 + 20394) * Day + 6 * Hour.
Definition newYork : Location := λ t, if t <? fallBack then -4 * Hour else -5 * Hour.

Example fallBack_civil : FormatRFC3339 fallBack = "2025-11-02T06:00:00Z".
Proof. reflexivity. Qed.

Definition halfHourly : Schedule := mkSchedule "0,30" "1" "*" "*" "*".

(** A check every five minutes from 00:55 to 02:05 on the wall clock. *)
Definition nightTicks : list Z := (λ k, fallBack - 65 * Minute + k * (5 * Minute)) <$> seqZ 0 27.


(** ** Overrides *)

(** The name and the rig of an order, which no override changes. *)
Definition orderKey (a : Order) : string * string := (a.(orName), a.(orRig)).

Definition applied (ov : Override) (a : Order) : Order := if targets ov a then applyOverride a ov else a.

Lemma applied_key ov a : orderKey (applied ov a) = orderKey a.
Proof. unfold applied. by destruct (targets ov a). Qed.

Lemma targets_key ov a b : orderKey a = orderKey b → targets ov a = targets ov b.
Proof. unfold orderKey, targets. by intros [= -> ->]. Qed.

(** The overrides that match some order and have a name come first, and each is
    applied to every order it targets. *)
Definition matched (aa : list Order) (ov : Override) : bool := (ov.(ovName) != "") && existsb (targets ov) aa.

Lemma matched_applied aa ov ov' : matched (applied ov <$> aa) ov' = matched aa ov'.
Proof.
  unfold matched. f_equal. induction aa as [|a aa IH]; [done|]. cbn. rewrite IH. f_equal. apply targets_key, applied_key.
Qed.

Lemma applyOverridesLoop_spec i aa overrides :
  let '(aa', failed) := applyOverridesLoop i aa overrides in
  ∃ done rest, overrides = done ++ rest ∧ aa' = (λ a, foldl (λ a ov, applied ov a) a done) <$> aa ∧
    forallb (matched aa) done = true ∧
    match failed with
    | None => rest = []
    | Some e => ∃ ov rest', rest = ov :: rest' ∧ matched aa ov = false ∧
        e = (if ov.(ovName) == "" then OverrideNameRequired (i + length done) else OverrideNotFound (i + length done))
    end.
Proof.
  revert i aa. induction overrides as [|ov overrides IH]; intros i aa; cbn [applyOverridesLoop].
  - exists [], []. cbn. rewrite list_fmap_id. done.
  - assert (aa = (λ a, foldl (λ a ov, applied ov a) a []) <$> aa) as Hid by (cbn; by rewrite list_fmap_id).
    destruct (ov.(ovName) == "") eqn:En.
    { exists [], (ov :: overrides). split; [done|]. split; [done|]. split; [done|]. exists ov, overrides.
      unfold matched. rewrite En, Nat.add_0_r. done. }
    destruct (existsb (targets ov) aa) eqn:Ex.
    + change ((λ a, if targets ov a then applyOverride a ov else a) <$> aa) with (applied ov <$> aa).
      specialize (IH (S i) (applied ov <$> aa)). destruct applyOverridesLoop as [aa' failed].
      destruct IH as (dn & rest & -> & -> & Hm & Hf). exists (ov :: dn), rest. split; [done|].
      split; [by rewrite <-list_fmap_compose|]. split.
      { cbn. apply andb_true_iff. split; [unfold matched; by rewrite En, Ex|].
        rewrite <-Hm. clear. induction dn as [|o dn IH]; [done|]. cbn. by rewrite IH, matched_applied. }
      destruct failed as [e|]; [|done]. destruct Hf as (o & rest' & -> & Hmo & He). exists o, rest'.
      rewrite matched_applied in Hmo. cbn [length]. rewrite Nat.add_succ_r. done.
    + exists [], (ov :: overrides). split; [done|]. split; [done|]. split; [done|]. exists ov, overrides.
      unfold matched. rewrite En, Ex, Nat.add_0_r. done.
Qed.

(** The override pass applies a prefix of the overrides, each to every order
    with its name and a rig it matches and to no other, in their order; it
    reports nothing exactly when the prefix is the whole list, and otherwise the
    position of the first override that has no name or no order. *)
Theorem overrides_prefix aa overrides aa' failed :
  ApplyOverrides aa overrides = (aa', failed) →
  ∃ done rest, overrides = done ++ rest ∧ aa' = (λ a, foldl (λ a ov, applied ov a) a done) <$> aa ∧
    forallb (matched aa) done = true ∧
    match failed with
    | None => rest = []
    | Some e => ∃ ov rest', rest = ov :: rest' ∧ matched aa ov = false ∧
        e = (if ov.(ovName) == "" then OverrideNameRequired (length done) else OverrideNotFound (length done))
    end.
Proof. intros E. pose proof (applyOverridesLoop_spec 0 aa overrides) as Hs. unfold ApplyOverrides in E. by rewrite E in Hs. Qed.

(** When the handler of override errors returns nil, the scan goes on with
    the orders as the overrides before the failing one left them: the earlier
    overrides of an invalid set stay applied. *)
Theorem override_failure_keeps_earlier `{DurationParser} `{ZoneDatabase} {E V} aa good bad (opts : ScanOptions (E := E) (V := V)) :
  matched aa good = true → matched aa bad = false →
  opts.(soOnOverrideError) = Some (λ _, true) →
  ScanAll (Ok aa) [] "" [good; bad] opts = validateOrders opts (applied good <$> aa).
Proof.
  intros Hg Hb Ho. unfold ScanAll. cbn [scanRigs]. rewrite app_nil_r.
  change ("" != "") with false. cbn [andb]. cbv zeta.
  pose proof (applyOverridesLoop_spec 0 aa [good; bad]) as Hs. unfold ApplyOverrides.
  destruct (applyOverridesLoop 0 aa [good; bad]) as [aa' failed]. destruct Hs as (dn & rest & Hl & -> & Hm & Hf).
  assert (∃ e, failed = Some e) as [e ->].
  { destruct failed as [e|]; [eauto|]. subst rest. rewrite app_nil_r in Hl. subst dn. cbn in Hm. rewrite Hb, andb_false_r in Hm. done. }
  rewrite Ho. destruct Hf as (ov & rest' & -> & Hov & _). destruct dn as [|o dn]; cbn in Hl; injection Hl as <- Hl'.
  - congruence.
  - destruct dn as [|o' dn]; [reflexivity|]. by destruct dn.
Qed.

(** ** The layered scan *)

Section roots.
Context {E : Type}.
Implicit Types (roots : list (RootScan E)).

(** The orders of the roots, in order. *)
Definition rootOrders roots : list Order := concat ((λ r, match r with RootOrders aa => aa | _ => [] end) <$> roots).

(** The order under a name that was found last. *)
Definition lastNamed (aa : list Order) (name : string) : option Order := last (List.filter (λ a, a.(orName) == name) aa).

Definition foundOK (aa : list Order) (f : Found) : Prop :=
  NoDup f.(fdNames) ∧ (∀ name, name ∈ f.(fdNames) ↔ is_Some (f.(fdOrders) !! name)) ∧
  ∀ name, f.(fdOrders) !! name = lastNamed aa name.

Lemma addFound_ok aa f a : foundOK aa f → foundOK (aa ++ [a]) (addFound f a).
Proof.
  intros (Hnd & Hdom & Hlast). unfold addFound. split; [|split]; cbn [fdNames fdOrders].
  - case_bool_decide as Hs; [done|]. apply NoDup_app. split; [done|]. split; [|apply NoDup_singleton].
    intros x Hx ->%list_elem_of_singleton. by apply Hs, Hdom.
  - intros name. rewrite lookup_insert_is_Some. case_bool_decide as Hs.
    + rewrite Hdom. destruct (decide (a.(orName) = name)) as [<-|]; tauto.
    + rewrite elem_of_app, list_elem_of_singleton, Hdom. destruct (decide (a.(orName) = name)) as [<-|Hne]; [tauto|].
      split; [intros [?|Hn]; [tauto|]; by rewrite Hn in Hne|tauto].
  - intros name. unfold lastNamed. rewrite List.filter_app. cbn. case_bool_decide as Hn.
    + rewrite last_snoc, Hn. apply lookup_insert_eq.
    + rewrite app_nil_r, lookup_insert_ne by done. apply Hlast.
Qed.

Lemma foldl_addFound_ok aa bb f : foundOK aa f → foundOK (aa ++ bb) (foldl addFound f bb).
Proof.
  revert aa f. induction bb as [|b bb IH]; intros aa f Hf; [by rewrite app_nil_r|].
  cbn. rewrite cons_middle, app_assoc. by apply IH, addFound_ok.
Qed.

Lemma scanLoop_ok roots aa f g : foundOK aa f → scanLoop roots f = Ok g → foundOK (aa ++ rootOrders roots) g.
Proof.
  revert aa f. induction roots as [|[bb| |e] roots IH]; intros aa f Hf; cbn [scanLoop].
  - intros [= <-]. by rewrite app_nil_r.
  - intros Hs. change (rootOrders _) with (bb ++ rootOrders roots). rewrite app_assoc. eapply IH; [|done]. by apply foldl_addFound_ok.
  - intros Hs. eapply (IH aa (mkFound f.(fdOrders) f.(fdNames) true)); [exact Hf|done].
  - done.
Qed.

Lemma scanLoop_found roots f : scanLoop roots (mkFound ∅ [] false) = Ok f → foundOK (rootOrders roots) f.
Proof.
  apply (scanLoop_ok roots []). split; [apply NoDup_nil_2|]. split; [|done].
  intros name. cbn. rewrite lookup_empty. split; [by intros ?%elem_of_nil|by intros []].
Qed.

Definition kept (skip : list string) (a : Order) : bool :=
  IsEnabled a && negb (bool_decide (a.(orName) ∈ skip) || hasSkippedAlias a skip).

Lemma omap_names f aa a : foundOK aa f → a ∈ omap (λ name, f.(fdOrders) !! name) f.(fdNames) ↔ lastNamed aa a.(orName) = Some a.
Proof.
  intros (Hnd & Hdom & Hl). rewrite list_elem_of_omap. split.
  - intros (name & _ & Hn). assert (a.(orName) = name) as <-; [|by rewrite <-Hl]. rewrite Hl in Hn. unfold lastNamed in Hn.
    apply last_Some_elem_of, list_elem_of_In, filter_In in Hn as [_ Hn]. by apply bool_decide_eq_true in Hn.
  - intros Hn. exists a.(orName). rewrite Hdom, Hl, Hn. done.
Qed.

Lemma ScanRoots_elem roots skip aa a :
  ScanRoots roots skip = Ok aa → a ∈ aa ↔ lastNamed (rootOrders roots) a.(orName) = Some a ∧ kept skip a = true.
Proof.
  unfold ScanRoots. destruct (scanLoop roots _) as [f|e] eqn:Es; [|done]. destruct f.(fdLegacy); [done|]. intros [= <-].
  rewrite list_elem_of_In, filter_In, <-list_elem_of_In, (omap_names f _ _ (scanLoop_found _ _ Es)). done.
Qed.

Lemma fmap_omap_names (g : string → option Order) (names : list string) :
  (∀ name, name ∈ names → ∃ a, g name = Some a ∧ a.(orName) = name) → orName <$> omap g names = names.
Proof.
  induction names as [|name names IH]; intros Hg; [done|].
  destruct (Hg name) as (a & Ha & Hn); [left|]. cbn. rewrite Ha. cbn. rewrite Hn, IH; [done|]. intros n Hin. apply Hg. by right.
Qed.

Lemma filter_sublist {A} (p : A → bool) (l : list A) : List.filter p l `sublist_of` l.
Proof. induction l as [|x l IH]; [constructor|]. cbn. destruct (p x); by constructor. Qed.

Lemma NoDup_names_filter (p : Order → bool) aa : NoDup (orName <$> aa) → NoDup (orName <$> List.filter p aa).
Proof. intros Hn. eapply sublist_NoDup; [exact Hn|]. apply fmap_sublist, filter_sublist. Qed.

Lemma lastNamed_name aa name a : lastNamed aa name = Some a → a.(orName) = name.
Proof. intros Hn%last_Some_elem_of%list_elem_of_In. apply filter_In in Hn as [_ Hn]. by apply bool_decide_eq_true in Hn. Qed.

Lemma ScanRoots_names roots skip aa : ScanRoots roots skip = Ok aa → NoDup (orName <$> aa).
Proof.
  unfold ScanRoots. destruct (scanLoop roots _) as [f|e] eqn:Es; [|done]. destruct f.(fdLegacy); [done|]. intros [= <-].
  destruct (scanLoop_found _ _ Es) as (Hnd & Hdom & Hl). apply NoDup_names_filter.
  rewrite fmap_omap_names; [done|]. intros name [a Ha]%Hdom. exists a. split; [done|]. rewrite Hl in Ha. by apply lastNamed_name in Ha.
Qed.
End roots.

(** The scan of layered roots keeps one order per name, the one of the last
    root that has the name, and drops exactly those that are disabled or named,
    by name or by alias, in the skip list: an order is in the result if and only
    if it is the last under its name and is kept. *)
Theorem scan_layering {E} (roots : list (RootScan E)) skip aa :
  ScanRoots roots skip = Ok aa →
  NoDup (orName <$> aa) ∧
  ∀ a, a ∈ aa ↔ lastNamed (rootOrders roots) a.(orName) = Some a ∧ kept skip a = true.
Proof. intros Hs. split; [by eapply ScanRoots_names|]. intros a. by apply ScanRoots_elem. Qed.

(** ** The city *)

Section city.
Context `{DurationParser} `{ZoneDatabase} {E V : Type}.
Implicit Types (opts : ScanOptions (E := E) (V := V)).

(** City-level orders seen so far: one per name, none with a rig. *)
Definition cityOK (seen : list string) (aa : list Order) : Prop :=
  NoDup (orName <$> aa) ∧ Forall (λ a, a.(orRig) = "" ∧ a.(orName) ∈ seen) aa.

Lemma addRigOrders_city city rigName aa seen promoted rigOrders :
  cityOK seen (city ++ promoted) → Forall (λ a, a.(orRig) = "") aa →
  let st := foldl (addRigOrder rigName) (seen, promoted, rigOrders) aa in
  cityOK st.1.1 (city ++ st.1.2).
Proof.
  revert seen promoted rigOrders. induction aa as [|a aa IH]; intros seen promoted rigOrders Hc Hr; [done|].
  apply Forall_cons in Hr as [Ha Hr]. cbn [foldl].
  destruct (addRigOrder rigName (seen, promoted, rigOrders) a) as [[seen' promoted'] rigOrders'] eqn:Ea. apply IH; [|done].
  unfold addRigOrder in Ea. destruct (IsCityScoped a); [|by injection Ea as <- <- <-].
  case_bool_decide as Hs; injection Ea as <- <- <-; [done|]. destruct Hc as [Hn Hf]. rewrite app_assoc. split.
  - rewrite fmap_app. apply NoDup_app. split; [done|]. split; [|apply NoDup_singleton].
    intros name (b & -> & Hb)%list_elem_of_fmap Hab%list_elem_of_singleton. rewrite Forall_forall in Hf.
    apply Hs. rewrite <-Hab. by apply Hf.
  - apply Forall_app. split; [|by apply Forall_singleton; split; [|left]].
    eapply Forall_impl; [exact Hf|]. cbn. intros b [??]. split; [done|]. by right.
Qed.

Lemma addRigOrders_rig rigName aa st :
  (foldl (addRigOrder rigName) st aa).2 = st.2 ++ ((λ a, setRig a rigName) <$> List.filter (λ a, negb (IsCityScoped a)) aa).
Proof.
  revert st. induction aa as [|a aa IH]; intros [[seen promoted] rigOrders]; [cbn; by rewrite app_nil_r|].
  cbn [foldl]. rewrite IH. unfold addRigOrder. cbn [List.filter]. destruct (IsCityScoped a); cbn [negb].
  - by case_bool_decide.
  - cbn. by rewrite <-app_assoc.
Qed.

(** The orders of the rigs seen so far: one per name and rig. *)
Definition rigsOK (rigs : list string) (aa : list Order) : Prop :=
  NoDup (orderKey <$> aa) ∧ Forall (λ a, a.(orRig) ∈ rigs) aa.

Lemma addRigOrders_rigsOK rigName aa st rigs :
  NoDup (orName <$> aa) → rigName ∉ rigs → rigsOK rigs st.2 →
  rigsOK (rigName :: rigs) (foldl (addRigOrder rigName) st aa).2.
Proof.
  intros Hn Hr [Hk Hf]. rewrite addRigOrders_rig. split.
  - rewrite fmap_app. apply NoDup_app. split; [done|]. split.
    + intros key (a & -> & Ha)%list_elem_of_fmap (b & Hb & Hin)%list_elem_of_fmap. rewrite Forall_forall in Hf.
      apply list_elem_of_fmap in Hin as (c & -> & _). injection Hb as _ Hb. apply Hr. rewrite <-Hb. by apply Hf.
    + apply (NoDup_names_filter (λ a, negb (IsCityScoped a))) in Hn. rewrite <-list_fmap_compose.
      apply (NoDup_fmap_1 fst). rewrite <-list_fmap_compose. exact Hn.
  - apply Forall_app. split.
    + eapply Forall_impl; [exact Hf|]. intros a ?. by right.
    + apply Forall_fmap, Forall_forall. intros a _. by left.
Qed.

Lemma scanRigs_ok opts city rigs done st st' :
  NoDup (done ++ rigs.*1) → cityOK st.1.1 (city ++ st.1.2) → rigsOK done st.2 →
  Forall (λ r, ∀ aa, r.2 = Ok aa → NoDup (orName <$> aa) ∧ Forall (λ a, a.(orRig) = "") aa) rigs →
  scanRigs opts rigs st = Ok st' → cityOK st'.1.1 (city ++ st'.1.2) ∧ rigsOK (done ++ rigs.*1) st'.2.
Proof.
  revert done st. induction rigs as [|[r [aa|e]] rigs IH]; intros dn st Hnd Hc Hr Hall; cbn [scanRigs fmap list_fmap fst].
  - intros [= <-]. rewrite app_nil_r. done.
  - apply Forall_cons in Hall as [Ha Hall]. destruct (Ha aa eq_refl) as [Hn He]. intros Hs.
    destruct (IH (dn ++ [r]) (foldl (addRigOrder r) st aa)) as [H1 H2]; [..|done| |].
    + rewrite <-app_assoc. exact Hnd.
    + destruct st as [[seen promoted] rigOrders]. by apply addRigOrders_city.
    + apply NoDup_app in Hnd as (_ & Hd & _).
      destruct (addRigOrders_rigsOK r aa st dn Hn) as [Hk Hf]; [|done|].
      { intros Hin. apply (Hd r Hin). by left. }
      split; [done|]. eapply Forall_impl; [exact Hf|]. intros a [->|?]%elem_of_cons; apply elem_of_app; [right; by left|by left].
    + done.
    + split; [done|]. rewrite <-app_assoc in H2. exact H2.
  - apply Forall_cons in Hall as [_ Hall]. destruct (soOnRigScanError opts) as [h|]; [|done]. destruct (h r e); [|done].
    intros Hs. destruct (IH dn st) as [H1 [H2 H3]]; [|done|done|done|done|].
    + apply NoDup_app in Hnd as (? & Hd & Hr'). apply NoDup_cons in Hr' as [_ ?]. apply NoDup_app.
      split; [done|]. split; [|done]. intros x Hx Hin. apply (Hd x Hx). by right.
    + split; [done|]. split; [done|]. eapply Forall_impl; [exact H3|]. intros a. rewrite !elem_of_app. intros [?|?]; [by left|right; by right].
Qed.

Lemma validateOrders_sublist opts aa aa' : validateOrders opts aa = Ok aa' → aa' `sublist_of` aa.
Proof.
  revert aa'. induction aa as [|a aa IH]; intros aa'; cbn [validateOrders]; [by intros [= <-]|].
  destruct (validateOrder opts a) as [e|].
  - destruct (soOnValidateError opts) as [h|]; [|done]. destruct (h (ScopedName a) e); [|done]. intros Hv. constructor. by apply IH.
  - destruct (validateOrders opts aa) as [valid|]; [|done]. intros [= <-]. constructor. by apply IH.
Qed.

Lemma foldl_applied_key ovs a : orderKey (foldl (λ a ov, applied ov a) a ovs) = orderKey a.
Proof. revert a. induction ovs as [|ov ovs IH]; intros a; [done|]. cbn. rewrite IH. apply applied_key. Qed.

Lemma ApplyOverrides_keys aa overrides : orderKey <$> (ApplyOverrides aa overrides).1 = orderKey <$> aa.
Proof.
  pose proof (applyOverridesLoop_spec 0 aa overrides) as Hs. unfold ApplyOverrides.
  destruct applyOverridesLoop as [aa' failed]. destruct Hs as (dn & rest & _ & -> & _). cbn [fst].
  rewrite <-list_fmap_compose. apply list_fmap_ext. intros i a _. apply foldl_applied_key.
Qed.

(** What the scan returns is a part of the orders it found, by name and rig. *)
Lemma ScanAll_keys city rigs tz overrides opts all :
  ScanAll (Ok city) rigs tz overrides opts = Ok all →
  ∃ st, scanRigs opts rigs (orName <$> city, [], []) = Ok st ∧
    orderKey <$> all `sublist_of` orderKey <$> city ++ st.1.2 ++ st.2.
Proof.
  unfold ScanAll. destruct (scanRigs opts rigs _) as [[[seen promoted] rigOrders]|e]; [|done].
  destruct (_ && _); [done|]. cbv zeta. set (found := if tz != "" then _ else _).
  assert (orderKey <$> found = orderKey <$> city ++ promoted ++ rigOrders) as Hk.
  { subst found. destruct (tz != ""); [|done]. rewrite <-list_fmap_compose. apply list_fmap_ext. intros i a _.
    cbn. unfold stampTZ. by destruct (orTZ a == ""). }
  intros Hs. exists (seen, promoted, rigOrders). split; [done|]. cbn [fst snd]. rewrite <-Hk, <-(ApplyOverrides_keys found overrides).
  destruct (ApplyOverrides found overrides) as [aa failed]. cbn [fst].
  apply fmap_sublist, (validateOrders_sublist opts).
  destruct failed as [e|]; [|done]. destruct (soOnOverrideError opts) as [h|]; [|done]. by destruct (h e).
Qed.
End city.

Lemma ScanRoots_from {E} (roots : list (RootScan E)) skip aa (P : Order → Prop) :
  ScanRoots roots skip = Ok aa → Forall P (rootOrders roots) → Forall P aa.
Proof.
  intros Hs Hf. apply Forall_forall. intros a [Ha _]%(ScanRoots_elem _ _ _ a Hs). rewrite Forall_forall in Hf. apply Hf.
  apply last_Some_elem_of, list_elem_of_In, filter_In in Ha as [Ha _]. by apply list_elem_of_In.
Qed.

(** The scan of a city registers an order at most once per name and rig:
    a city-scoped order that several rigs import is promoted once and yields to
    a city order of its name, the others are stamped with their rig, and the
    time zone, the overrides and the validation neither rename nor duplicate
    one. *)
Theorem scan_one_per_scope `{DurationParser} `{ZoneDatabase} {R V} (cityRoots : list (RootScan R)) (rigRoots : list (string * list (RootScan R)))
    skip tz overrides (opts : ScanOptions (V := V)) all :
  NoDup rigRoots.*1 → "" ∉ rigRoots.*1 →
  Forall (λ a, a.(orRig) = "") (rootOrders cityRoots) → Forall (λ r, Forall (λ a, a.(orRig) = "") (rootOrders r.2)) rigRoots →
  ScanAll (ScanRoots cityRoots skip) ((λ r, (r.1, ScanRoots r.2 skip)) <$> rigRoots) tz overrides opts = Ok all →
  NoDup (orderKey <$> all).
Proof.
  intros Hnd Hne Hcity Hrigs Hs. destruct (ScanRoots cityRoots skip) as [city|e] eqn:Ec; [|done].
  destruct (ScanAll_keys _ _ _ _ _ _ Hs) as (st & Hst & Hsub). eapply sublist_NoDup; [|exact Hsub].
  set (rigs := (λ r, (r.1, ScanRoots r.2 skip)) <$> rigRoots) in *.
  assert (rigs.*1 = rigRoots.*1) as E1 by (unfold rigs; by rewrite <-list_fmap_compose).
  destruct (scanRigs_ok opts city rigs [] (orName <$> city, [], []) st) as [[Hc1 Hc2] [Hr1 Hr2]]; [..|exact Hst|].
  - rewrite E1. exact Hnd.
  - rewrite app_nil_r. split; [by eapply ScanRoots_names|]. apply Forall_forall. intros a Ha.
    pose proof (ScanRoots_from _ _ _ _ Ec Hcity) as Hf. rewrite Forall_forall in Hf. split; [by apply Hf|by apply list_elem_of_fmap_2].
  - split; [apply NoDup_nil_2|by apply Forall_nil].
  - unfold rigs. apply Forall_fmap. eapply Forall_impl; [exact Hrigs|]. intros [r roots] Hr aa Haa. cbn in Haa. split; [by eapply ScanRoots_names|].
    by eapply ScanRoots_from.
  - cbn [app] in Hr2. rewrite E1 in Hr2. rewrite app_assoc, fmap_app. apply NoDup_app. split.
    + apply (NoDup_fmap_1 fst). by rewrite <-list_fmap_compose.
    + split; [|done]. intros key (a & -> & Ha)%list_elem_of_fmap (b & Hb & Hin)%list_elem_of_fmap. injection Hb as _ Hb.
      rewrite Forall_forall in Hc2, Hr2. apply Hne. destruct (Hc2 a Ha) as [Ea _]. rewrite <-Ea, Hb. by apply Hr2.
Qed.
