(* ===== verification/OrderStore.v ===== *)
(** * OrderStore: the runs of an order, kept as tracking beads

    Models [internal/orders/store.go], [store_reads.go] and
    [runtime_helpers.go]: an order run is a bead whose labels name the order,
    the outcome and the event cursor; its creation time is the cooldown clock,
    and while it is open it marks work in flight.

    Writes act on the bead store of [MemStore]; a multi-step operation reads
    the clock once per store call ([clock k] is the instant of its [k]-th call).
    The reads that tolerate failing tiers are over a leg: what a store answers
    to a list query, with the rows that survived an error. *)

From S2P Require Import Prelude GoBase GoText Beads MemStore Orders.

Local Open Scope Z_scope.

(** ** Labels and outcomes *)

Definition labelOrderRunPrefix : string := "order-run:".
Definition labelOrderTitlePrefix : string := "order:".
Definition labelSeqPrefix : string := "seq:".
Definition labelExec : string := "exec".
Definition labelExecFailed : string := "exec-failed".
Definition labelExecEnvFailed : string := "exec-env-failed".
Definition labelWisp : string := "wisp".
Definition labelWispFailed : string := "wisp-failed".
Definition labelWispCanceled : string := "wisp-canceled".
Definition labelTriggerEnvFail : string := "trigger-env-failed".

Inductive RunOutcome :=
| RunOutcomeNone | RunOutcomeExec | RunOutcomeExecFailed | RunOutcomeExecEnvFailed
| RunOutcomeWisp | RunOutcomeWispFailed | RunOutcomeWispCanceled | RunOutcomeTriggerEnvFailed.

#[export] Instance RunOutcome_eq_dec : EqDecision RunOutcome.
Proof. solve_decision. Defined.

Definition outcomeLabels (o : RunOutcome) : list string :=
  match o with
  | RunOutcomeExec => [labelExec]
  | RunOutcomeExecFailed => [labelExecFailed]
  | RunOutcomeExecEnvFailed => [labelExecEnvFailed]
  | RunOutcomeWisp => [labelWisp]
  | RunOutcomeWispFailed => [labelWisp; labelWispFailed]
  | RunOutcomeWispCanceled => [labelWisp; labelWispCanceled]
  | RunOutcomeTriggerEnvFailed => [labelTriggerEnvFail]
  | RunOutcomeNone => []
  end.

Definition outcomeIsExec (o : RunOutcome) : bool :=
  match o with RunOutcomeExec | RunOutcomeExecFailed | RunOutcomeExecEnvFailed => true | _ => false end.

Definition outcomeDisplay (o : RunOutcome) : string :=
  match o with
  | RunOutcomeExec | RunOutcomeWisp => "success"
  | RunOutcomeExecFailed | RunOutcomeExecEnvFailed | RunOutcomeWispFailed | RunOutcomeTriggerEnvFailed => "failed"
  | RunOutcomeWispCanceled => "canceled"
  | RunOutcomeNone => ""
  end.

Definition beadLabelsContain (labels : list string) (want : string) : bool := existsb (λ l, l == want) labels.

Definition outcomeFromLabels (labels : list string) : RunOutcome :=
  let has := beadLabelsContain labels in
  if has labelWispCanceled then RunOutcomeWispCanceled
  else if has labelWispFailed then RunOutcomeWispFailed
  else if has labelWisp then RunOutcomeWisp
  else if has labelExecEnvFailed then RunOutcomeExecEnvFailed
  else if has labelExecFailed then RunOutcomeExecFailed
  else if has labelExec then RunOutcomeExec
  else if has labelTriggerEnvFail then RunOutcomeTriggerEnvFailed
  else RunOutcomeNone.

(** ** Runs *)

Record OrderRun := mkOrderRun {
  rnID : string;
  rnScoped : string;
  rnOutcome : RunOutcome;
  rnCreatedAt : Z;
  rnUpdatedAt : Z;
  rnOpen : bool;
  rnCursor : Z
}.

Definition runState (r : OrderRun) : string :=
  let display := outcomeDisplay r.(rnOutcome) in
  if (display == "failed") || (display == "canceled") then "failed"
  else if r.(rnOpen) then "active"
  else "completed".

Definition decodeRun (scoped : string) (b : Bead) : OrderRun :=
  mkOrderRun b.(bID) scoped (outcomeFromLabels b.(bLabels)) b.(bCreatedAt) b.(bUpdatedAt)
    (b.(bStatus) != "closed") (MaxSeqFromLabels [b.(bLabels)]).

(** [strings.CutPrefix]. *)
Definition CutPrefix (s p : string) : option string := if HasPrefix s p then Some (sdrop (String.length p) s) else None.

(** The first label of the order-run family whose name, after [f], is not empty. *)
Fixpoint firstRunName (f : string → string) (labels : list string) : option string :=
  match labels with
  | [] => None
  | label :: labels =>
      match CutPrefix label labelOrderRunPrefix with
      | Some name => if f name != "" then Some (f name) else firstRunName f labels
      | None => firstRunName f labels
      end
  end.

Definition RunFromTrackingBead (b : Bead) : option OrderRun :=
  match firstRunName TrimSpace b.(bLabels) with
  | Some scoped => Some (decodeRun scoped b)
  | None => None
  end.

Definition NameFromOrderRunLabel (b : Bead) : option string := firstRunName (λ name, name) b.(bLabels).

Definition NameFromTrackingBead (b : Bead) : option string :=
  match NameFromOrderRunLabel b with
  | Some name => Some name
  | None =>
      match CutPrefix b.(bTitle) labelOrderTitlePrefix with
      | Some name => if name != "" then Some name else None
      | None => None
      end
  end.

Definition decodeTrackingRun (b : Bead) : option OrderRun :=
  match NameFromTrackingBead b with
  | Some name => Some (decodeRun name b)
  | None => None
  end.

(** The name that may be missing. *)
Definition decodeBestEffort (b : Bead) : OrderRun := decodeRun (default "" (NameFromTrackingBead b)) b.

(** ** Writes *)

Definition trackingTitle (scoped : string) : string := labelOrderTitlePrefix +:+ scoped.

Definition baseLabels (scoped : string) (outcome : RunOutcome) : list string :=
  [labelOrderRunPrefix +:+ scoped; labelOrderTracking] ++ outcomeLabels outcome.

Definition trackingBead (scoped : string) (outcome : RunOutcome) : Bead :=
  mkBead "" (trackingTitle scoped) "" "" None 0 0 "" "" "" "" [] "" (baseLabels scoped outcome) ∅ [] false true None None 0 0.

Definition CreateRun (now : Z) (scoped : string) (outcome : RunOutcome) (m : MemStore) : result OrderRun * MemStore :=
  match Create now (trackingBead scoped outcome) m with
  | (Ok created, m) => (Ok (mkOrderRun created.(bID) scoped outcome created.(bCreatedAt) 0 true 0), m)
  | (Err e, m) => (Err e, m)
  end.

Definition labelOpts (labels : list string) : UpdateOpts := mkUpdateOpts None None None None None None None labels [] ∅.

Definition SetOutcome (now : Z) (runID : string) (outcome : RunOutcome) (m : MemStore) : result unit * MemStore :=
  Update now runID (labelOpts (outcomeLabels outcome)) m.

Definition cursorLabels (scoped : string) (cursor : Z) : list string :=
  [labelOrderTitlePrefix +:+ scoped; labelSeqPrefix +:+ Itoa cursor].

Definition SetCursor (now : Z) (runID scoped : string) (cursor : Z) (m : MemStore) : result unit * MemStore :=
  Update now runID (labelOpts (cursorLabels scoped cursor)) m.

Definition MarkFailed (now : Z) (runID scoped : string) (outcome : RunOutcome) (cursor : option Z) (m : MemStore) : result unit * MemStore :=
  Update now runID (labelOpts (outcomeLabels outcome ++ match cursor with Some c => cursorLabels scoped c | None => [] end)) m.

(** The first store call reads the clock at [clock 0], the next at [clock 1]. *)
Definition CloseRun (clock : nat → Z) (runID reason : string) (m : MemStore) : result unit * MemStore :=
  if reason != "" then
    match SetMetadata (clock 0%nat) runID "close_reason" reason m with
    | (Err e, m) => (Err e, m)
    | (Ok _, m) => Close (clock 1%nat) runID m
    end
  else Close (clock 0%nat) runID m.

(** The two optional stamps of [CreateRunClosed], with the run as far as it is
    written. *)
Definition closedCursor (now : Z) (scoped : string) (cursor : option Z) (run : OrderRun) (m : MemStore) : result unit * OrderRun * MemStore :=
  match cursor with
  | None => (Ok (), run, m)
  | Some c =>
      match SetCursor now run.(rnID) scoped c m with
      | (Ok _, m) => (Ok (), mkOrderRun run.(rnID) run.(rnScoped) run.(rnOutcome) run.(rnCreatedAt) run.(rnUpdatedAt) run.(rnOpen) c, m)
      | (Err e, m) => (Err e, run, m)
      end
  end.

Definition closedOutcome (now : Z) (outcome : RunOutcome) (run : OrderRun) (m : MemStore) : result unit * OrderRun * MemStore :=
  if bool_decide (outcome = RunOutcomeNone) then (Ok (), run, m)
  else
    match SetOutcome now run.(rnID) outcome m with
    | (Ok _, m) => (Ok (), mkOrderRun run.(rnID) run.(rnScoped) outcome run.(rnCreatedAt) run.(rnUpdatedAt) run.(rnOpen) run.(rnCursor), m)
    | (Err e, m) => (Err e, run, m)
    end.

(** The run is returned with an error too: it is what was written before. *)
Definition CreateRunClosed (clock : nat → Z) (scoped : string) (outcome : RunOutcome) (cursor : option Z) (closeReason : string)
    (m : MemStore) : OrderRun * option StoreError * MemStore :=
  match Create (clock 0%nat) (trackingBead scoped RunOutcomeNone) m with
  | (Err e, m) => (mkOrderRun "" "" RunOutcomeNone 0 0 false 0, Some e, m)
  | (Ok created, m) =>
      match closedCursor (clock 1%nat) scoped cursor (mkOrderRun created.(bID) scoped RunOutcomeNone created.(bCreatedAt) 0 false 0) m with
      | (Err e, run, m) => (run, Some e, m)
      | (Ok _, run, m) =>
          match closedOutcome (clock 2%nat) outcome run m with
          | (Err e, run, m) => (run, Some e, m)
          | (Ok _, run, m) =>
              match CloseRun (λ k, clock (3 + k)%nat) created.(bID) closeReason m with
              | (Err e, m) => (run, Some e, m)
              | (Ok _, m) => (run, None, m)
              end
          end
      end
  end.

(** ** Reads *)

(** What a store answers to a list query: rows, and an error with the rows that
    survived it. *)
Definition Leg : Type := ListQuery → list Bead * option StoreError.

Definition memLeg (m : MemStore) : Leg := λ q,
  match ListBeads m q with
  | Ok rows => (rows, None)
  | Err e => ([], Some e)
  end.

(** A query by label, newest first. *)
Definition labelQuery (status label : string) (limit : Z) (includeClosed live backingLimit : bool) (tier : TierMode) : ListQuery :=
  mkListQuery status "" label "" [] "" [] ∅ 0 0 limit includeClosed false false live SortCreatedDesc backingLimit tier None.

Definition RecentRuns (leg : Leg) (scoped : string) (limit : Z) : list OrderRun * option StoreError :=
  let '(rows, err) := leg (labelQuery "" (labelOrderRunPrefix +:+ scoped) limit true false false TierBoth) in
  (decodeRun scoped <$> rows, err).

Definition ListTracking (leg : Leg) : list OrderRun * option StoreError :=
  let '(rows, err) := leg (labelQuery "" labelOrderTracking 0 false false false TierBoth) in
  (omap RunFromTrackingBead rows, err).

Definition LatestOpenRun (leg : Leg) (scoped : string) : option OrderRun * option StoreError :=
  let '(rows, err) := leg (labelQuery "" (labelOrderRunPrefix +:+ scoped) 1 false false false TierBoth) in
  (match rows with [] => None | b :: _ => Some (decodeRun scoped b) end, err).

(** The live handle of a store without handles of its own: the query is sent
    with [Live] set and both tiers. *)
Definition RecentRunsAll (leg : Leg) (limit : Z) : list OrderRun * option StoreError :=
  let '(rows, err) := leg (labelQuery "" labelOrderTracking limit true true true TierBoth) in
  (omap decodeTrackingRun rows, err).

Definition OpenRuns (leg : Leg) : list OrderRun * option StoreError :=
  let '(rows, err) := leg (labelQuery "open" labelOrderTracking 0 false true false TierBoth) in
  (omap decodeTrackingRun rows, err).

(** [ListByLabel] with both tiers. *)
Definition byTrackingLabel (leg : Leg) : list Bead * option StoreError :=
  leg (labelQuery "" labelOrderTracking 0 false false false TierBoth).

Definition StaleOpenRuns (leg : Leg) (cutoff : Z) : res StoreError (list OrderRun) :=
  match byTrackingLabel leg with
  | (_, Some e) => Err e
  | (all, None) => Ok (decodeBestEffort <$> List.filter (λ b, negb (IsZero b.(bCreatedAt) || (cutoff <? b.(bCreatedAt)))) all)
  end.

Definition OrphanedOpenRuns (leg : Leg) : res StoreError (list OrderRun) :=
  match byTrackingLabel leg with
  | (_, Some e) => Err e
  | (all, None) => Ok (decodeBestEffort <$> List.filter (λ b, negb (beadLabelsContain b.(bLabels) labelTriggerEnvFail)) all)
  end.

Definition ClosedRunsForRetention (leg : Leg) : res StoreError (list OrderRun) :=
  match leg (labelQuery "closed" labelOrderTracking 0 false true false TierBoth) with
  | (_, Some e) => Err e
  | (all, None) => Ok (decodeBestEffort <$> all)
  end.

Definition GetRun (m : MemStore) (handle : string) : result OrderRun :=
  match Get m handle with
  | Ok b => Ok (decodeBestEffort b)
  | Err e => Err e
  end.

(** *** The mixed reads

    The legs are the distinct underlying stores of the orders class and the
    graph class. *)

Fixpoint LastRunLoop (name : string) (legs : list Leg) (latest : Z) : res StoreError Z :=
  match legs with
  | [] => Ok latest
  | leg :: legs =>
      match leg (labelQuery "" (labelOrderRunPrefix +:+ name) 1 true false true TierBoth) with
      | ([], Some e) => Err e
      | ([], None) => LastRunLoop name legs latest
      | (b :: _, _) => LastRunLoop name legs (if latest <? b.(bCreatedAt) then b.(bCreatedAt) else latest)
      end
  end.

Definition LastRun (legs : list Leg) (name : string) : res StoreError Z := LastRunLoop name legs 0.

Definition Cursor (legs : list Leg) (name : string) : Z :=
  foldl (λ latest (leg : Leg),
    let rows := (leg (labelQuery "" (labelOrderRunPrefix +:+ name) 10 true false false TierBoth)).1 in
    let seq := MaxSeqFromLabels (bLabels <$> rows) in
    if latest <? seq then seq else latest) 0 legs.

(** [wisp] tells whether the subtree of an open root still holds open work;
    [None] is a nil predicate. *)
Fixpoint openWorkIn (wisp : option (Bead → res StoreError bool)) (rows : list Bead) : res StoreError bool :=
  match rows with
  | [] => Ok false
  | b :: rows =>
      if b.(bStatus) == "closed" then openWorkIn wisp rows
      else if beadLabelsContain b.(bLabels) labelOrderTracking then Ok true
      else match wisp with
      | None => openWorkIn wisp rows
      | Some f =>
          match f b with
          | Err e => Err e
          | Ok true => Ok true
          | Ok false => openWorkIn wisp rows
          end
      end
  end.

Fixpoint HasOpenWork (legs : list Leg) (scoped : string) (wisp : option (Bead → res StoreError bool)) : res StoreError bool :=
  match legs with
  | [] => Ok false
  | leg :: legs =>
      match leg (labelQuery "" (labelOrderRunPrefix +:+ scoped) 0 false true false TierBoth) with
      | (_, Some e) => Err e
      | (rows, None) =>
          match openWorkIn wisp rows with
          | Ok false => HasOpenWork legs scoped wisp
          | verdict => verdict
          end
      end
  end.

(** A federation of stores, each with its legs; an absent one is skipped. *)
Fixpoint LastRunAcrossLoop (name : string) (stores : list (option (list Leg))) (latest : Z) : res StoreError Z :=
  match stores with
  | [] => Ok latest
  | None :: stores => LastRunAcrossLoop name stores latest
  | Some legs :: stores =>
      match LastRun legs name with
      | Err e => Err e
      | Ok last => LastRunAcrossLoop name stores (if latest <? last then last else latest)
      end
  end.

Definition LastRunAcross (stores : list (option (list Leg))) (name : string) : res StoreError Z := LastRunAcrossLoop name stores 0.

Definition CursorAcross (stores : list (option (list Leg))) (name : string) : Z :=
  foldl (λ latest store,
    match store with
    | None => latest
    | Some legs => let seq := Cursor legs name in if latest <? seq then seq else latest
    end) 0 stores.

(** ** Closing in batches *)

Fixpoint uniqueLoop (seen ids : list string) : list string :=
  match ids with
  | [] => []
  | id :: ids =>
      let id := TrimSpace id in
      if (id == "") || bool_decide (id ∈ seen) then uniqueLoop seen ids else id :: uniqueLoop (id :: seen) ids
  end.

Definition uniqueNonEmptyIDs (ids : list string) : list string := uniqueLoop [] ids.

Definition closeVerifyAttempts : nat := 3.

Section close.
(** A store that closes a batch and reads a bead, whose answers may change from
    one call to the next. *)
Context {S E : Type} (closeAll : S → list string → gmap string string → (Z * option E) * S)
  (getBead : S → string → res E Bead * S) (isNotFound : E → bool).

Inductive CloseError := ClosingError (e : E) | VerifyingError (e : E) | StillOpen (ids : list string) | CanceledAfter (e : CloseError).

Fixpoint openIDs (s : S) (ids : list string) : res E (list string) * S :=
  match ids with
  | [] => (Ok [], s)
  | id :: ids =>
      match getBead s id with
      | (Err e, s) => if isNotFound e then openIDs s ids else (Err e, s)
      | (Ok b, s) =>
          match openIDs s ids with
          | (Ok rest, s) => (Ok (if b.(bStatus) != "closed" then id :: rest else rest), s)
          | (Err e, s) => (Err e, s)
          end
      end
  end.

(** One attempt: the count closed, and what is wrong with the result. *)
Definition closeAttempt (s : S) (ids : list string) (reason : string) : Z * option CloseError * S :=
  let '(n, err, s) := closeAll s ids {["close_reason" := reason]} in
  match err with
  | Some e => (n, Some (ClosingError e), s)
  | None =>
      match openIDs s ids with
      | (Err e, s) => (n, Some (VerifyingError e), s)
      | (Ok [], s) => (n, None, s)
      | (Ok still, s) => (n, Some (StillOpen still), s)
      end
  end.

(** [waits]: whether the timer ran out before the context ended, for each wait
    between two attempts. *)
Fixpoint closeLoop (attempts : nat) (waits : list bool) (ids : list string) (reason : string) (closed : Z) (s : S) :
    Z * option CloseError * S :=
  match attempts with
  | O => (closed, None, s)
  | Datatypes.S attempts =>
      let '(n, failed, s) := closeAttempt s ids reason in
      let closed := Z.min (closed + n) (Z.of_nat (length ids)) in
      match failed with
      | None => (closed, None, s)
      | Some e =>
          if bool_decide (attempts = 0%nat) then (closed, Some e, s)
          else match waits with
          | false :: _ => (closed, Some (CanceledAfter e), s)
          | true :: waits => closeLoop attempts waits ids reason closed s
          | [] => closeLoop attempts [] ids reason closed s
          end
      end
  end.

Definition CloseRuns (waits : list bool) (ids : list string) (reason : string) (s : S) : Z * option CloseError * S :=
  let ids := uniqueNonEmptyIDs ids in
  match ids with
  | [] => (0, None, s)
  | _ => closeLoop closeVerifyAttempts waits ids reason 0 s
  end.
End close.
