(* ===== verification/OrderStoreProps.v ===== *)
(** * OrderStoreProps: the cooldown clock, single flight and the run codec

    Over the bead store: the last run of an order is the newest creation time
    among the beads that carry its run label, work is in flight exactly while
    one of them is open, a recorded run reads back as it was written, and a
    batch close reports success only when a read has found nothing open. *)

From Stdlib Require Import Ascii.
From S2P Require Import Prelude GoBase GoText GoTime GoTimeProps ConvMetaProps Beads MemStore MemStoreProps MemStoreReady Orders OrderStore.

Local Open Scope Z_scope.

(** ** Queries by label *)

Lemma Matches_labelQuery label limit live back status closed b :
  label ≠ "" →
  Matches (labelQuery status label limit closed live back TierBoth) b =
  negb (if status != "" then b.(bStatus) != status else negb closed && (b.(bStatus) == "closed")) && beadHasLabel b label.
Proof.
  intros Hl. unfold Matches, labelQuery.
  cbn [qStatus qType qLabel qAssignee qAssignees qParentID qMetadata qCreatedBefore qUpdatedBefore qIncludeClosed qTierMode qSort qSeekAfter matchesTier negb].
  destruct (if status != "" then _ else _); [done|]. cbn [negb andb].
  rewrite (bool_decide_false (label = "")) by done. cbn [negb andb].
  rewrite (bool_decide_true (∅ = ∅)) by done. by destruct (beadHasLabel b label).
Qed.

Lemma memLeg_labelQuery m label limit live back status closed :
  label ≠ "" →
  memLeg m (labelQuery status label limit closed live back TierBoth) =
  (applyLimit limit (sortSlice createdDescLess (List.filter (Matches (labelQuery status label limit closed live back TierBoth)) m.(msBeads))), None).
Proof.
  intros Hl. unfold memLeg, ListBeads, HasFilter. cbn [labelQuery qStatus qType qLabel].
  rewrite (bool_decide_false (label = "")) by done. cbn [negb]. rewrite !orb_true_r. done.
Qed.

Lemma filter_labelQuery label limit live back closed bs :
  label ≠ "" →
  List.filter (Matches (labelQuery "" label limit closed live back TierBoth)) bs =
  List.filter (λ b, negb (negb closed && (b.(bStatus) == "closed")) && beadHasLabel b label) bs.
Proof. intros Hl. apply List.filter_ext. intros b. by rewrite Matches_labelQuery. Qed.

Definition runLabel (name : string) : string := labelOrderRunPrefix +:+ name.

Lemma runLabel_ne name : runLabel name ≠ "".
Proof. done. Qed.

Lemma runLabel_inj a b : runLabel a = runLabel b → a = b.
Proof. apply (inj (String.app labelOrderRunPrefix)). Qed.

(** ** The cooldown clock *)

(** What the clock reads of each bead. *)
Definition clockView (name : string) (m : MemStore) : list (bool * Z) :=
  (λ b, (beadHasLabel b (runLabel name), b.(bCreatedAt))) <$> m.(msBeads).

Definition clockMax (p : bool * Z) (acc : Z) : Z := if p.1 then Z.max p.2 acc else acc.

Definition clockOf (name : string) (m : MemStore) : Z := foldr clockMax 0 (clockView name m).

Lemma clockOf_ge name m b : b ∈ m.(msBeads) → beadHasLabel b (runLabel name) = true → b.(bCreatedAt) ≤ clockOf name m.
Proof.
  unfold clockOf, clockView. induction (msBeads m) as [|x bs IH]; [by intros ?%elem_of_nil|].
  intros [->|Hin]%elem_of_cons Hl; cbn; unfold clockMax at 1; cbn [fst snd]; [rewrite Hl; lia|]. specialize (IH Hin Hl). destruct (beadHasLabel x _); lia.
Qed.

Lemma clockOf_cases name m :
  clockOf name m = 0 ∨ ∃ b, b ∈ m.(msBeads) ∧ beadHasLabel b (runLabel name) = true ∧ clockOf name m = b.(bCreatedAt).
Proof.
  unfold clockOf, clockView. induction (msBeads m) as [|x bs IH]; [by left|]. cbn. unfold clockMax at 1 3. cbn [fst snd].
  destruct (beadHasLabel x (runLabel name)) eqn:El.
  - destruct (Z.max_spec (bCreatedAt x) (foldr clockMax 0
      ((λ b, (beadHasLabel b (runLabel name), bCreatedAt b)) <$> bs))) as [[_ ->]|[_ ->]].
    + destruct IH as [IH|(b & ? & ? & ?)]; [by left|right; exists b; split; [by right|done]].
    + right. exists x. split; [by left|done].
  - destruct IH as [IH|(b & ? & ? & ?)]; [by left|right; exists b; split; [by right|done]].
Qed.

Lemma head_newest l b : head (sortSlice createdDescLess l) = Some b → ∀ x, x ∈ l → x.(bCreatedAt) ≤ b.(bCreatedAt).
Proof.
  intros Hh x Hx. pose proof (sortSlice_sorted createdDescLess l) as Hs.
  rewrite <-(sortSlice_perm createdDescLess l) in Hx. destruct (sortSlice createdDescLess l) as [|y ys]; [done|].
  injection Hh as ->. apply StronglySorted_inv in Hs as [_ Hs]. apply elem_of_cons in Hx as [->|Hx]; [done|].
  rewrite Forall_forall in Hs. specialize (Hs x Hx). unfold notLess, createdDescLess in Hs.
  destruct (Z.eqb_spec (bCreatedAt x) (bCreatedAt b)); [lia|]. apply Z.ltb_ge in Hs. lia.
Qed.

Lemma head_applyLimit_1 {A} (l : list A) : head (applyLimit 1 l) = head l.
Proof. unfold applyLimit. destruct (_ && _); [|done]. by destruct l. Qed.

Lemma LastRunLoop_mem name m legs latest :
  0 ≤ latest → LastRunLoop name (memLeg m :: legs) latest = LastRunLoop name legs (Z.max latest (clockOf name m)).
Proof.
  intros H0. cbn [LastRunLoop]. change (labelOrderRunPrefix +:+ name) with (runLabel name).
  rewrite memLeg_labelQuery, filter_labelQuery by apply runLabel_ne. cbn [negb andb].
  set (l := List.filter _ _).
  assert (∀ b, b ∈ l ↔ b ∈ msBeads m ∧ beadHasLabel b (runLabel name) = true) as Hl.
  { intros b. unfold l. rewrite list_elem_of_In, filter_In, <-list_elem_of_In. done. }
  pose proof (head_applyLimit_1 (sortSlice createdDescLess l)) as Hh.
  destruct (applyLimit 1 _) as [|b rest].
  - assert (l = []) as Hn.
    { apply Permutation_nil_r. rewrite <-(sortSlice_perm createdDescLess l). by destruct (sortSlice _ l). }
    destruct (clockOf_cases name m) as [->|(b & Hb & Hlb & _)]; [by rewrite Z.max_l by lia|].
    exfalso. assert (b ∈ l) as Hin by (by apply Hl). rewrite Hn in Hin. by apply elem_of_nil in Hin.
  - symmetry in Hh. pose proof (head_newest l b Hh) as Hmax.
    assert (b ∈ l) as [Hb Hlb]%Hl.
    { rewrite <-(sortSlice_perm createdDescLess l). destruct (sortSlice _ l); [done|]. injection Hh as ->. by left. }
    f_equal. pose proof (clockOf_ge name m b Hb Hlb).
    destruct (clockOf_cases name m) as [E|(x & Hx & Hlx & E)].
    + destruct (Z.ltb_spec latest (bCreatedAt b)); lia.
    + assert (bCreatedAt x ≤ bCreatedAt b) by (apply Hmax, Hl; done). destruct (Z.ltb_spec latest (bCreatedAt b)); lia.
Qed.

(** The last run over a group of stores is the newest creation time under the
    run label in any of them. *)
Lemma LastRun_mem ms name : LastRun (memLeg <$> ms) name = Ok (foldl Z.max 0 (clockOf name <$> ms)).
Proof.
  unfold LastRun. assert (0 ≤ 0) as H0 by lia. revert H0. generalize 0 at 2 3 4 as latest.
  induction ms as [|m ms IH]; intros latest H0; [done|].
  cbn [fmap list_fmap]. rewrite LastRunLoop_mem by done. cbn [foldl]. apply IH. lia.
Qed.

(** ** Single flight *)

(** A bead in flight for an order: open, under its run label, and either a
    tracking bead or a root whose subtree holds work. *)
Definition inFlight (name : string) (wisp : Bead → bool) (b : Bead) : bool :=
  beadHasLabel b (runLabel name) && (b.(bStatus) != "closed") && (beadHasLabel b labelOrderTracking || wisp b).

Lemma openWorkIn_spec name wisp rows :
  Forall (λ b, beadHasLabel b (runLabel name) = true) rows →
  openWorkIn (Some (λ b, Ok (wisp b))) rows = Ok (existsb (inFlight name wisp) rows).
Proof.
  induction rows as [|b rows IH]; intros Hf; [done|]. apply Forall_cons in Hf as [Hb Hf].
  cbn [openWorkIn existsb]. unfold inFlight at 1. rewrite Hb, (IH Hf). cbn [andb].
  destruct (bStatus b == "closed"); cbn [negb andb orb]; [done|].
  change (beadLabelsContain (bLabels b) labelOrderTracking) with (beadHasLabel b labelOrderTracking).
  destruct (beadHasLabel b labelOrderTracking); [done|]. by destruct (wisp b).
Qed.

Lemma existsb_permutation {A} (f : A → bool) l l' : l ≡ₚ l' → existsb f l = existsb f l'.
Proof.
  intros Hp. apply eq_true_iff_eq. rewrite !existsb_exists. setoid_rewrite <-list_elem_of_In.
  split; intros (x & Hx & Hf); exists x; (split; [|done]); first [by rewrite <-Hp|by rewrite Hp].
Qed.

Lemma existsb_filter {A} (f g : A → bool) l : (∀ x, f x = true → g x = true) → existsb f (List.filter g l) = existsb f l.
Proof.
  intros Hfg. induction l as [|x l IH]; [done|]. cbn. destruct (g x) eqn:Eg; cbn; rewrite IH; [done|].
  destruct (f x) eqn:Ef; [|done]. rewrite (Hfg x Ef) in Eg. done.
Qed.

Lemma HasOpenWork_mem ms name wisp :
  HasOpenWork (memLeg <$> ms) name (Some (λ b, Ok (wisp b))) = Ok (existsb (λ m, existsb (inFlight name wisp) m.(msBeads)) ms).
Proof.
  induction ms as [|m ms IH]; [done|]. cbn [fmap list_fmap HasOpenWork existsb].
  change (labelOrderRunPrefix +:+ name) with (runLabel name).
  rewrite memLeg_labelQuery, filter_labelQuery by apply runLabel_ne. rewrite applyLimit_0.
  set (l := List.filter _ _). rewrite openWorkIn_spec with (name := name).
  - rewrite (existsb_permutation _ _ _ (sortSlice_perm createdDescLess l)). unfold l. rewrite existsb_filter.
    + destruct (existsb (inFlight name wisp) (msBeads m)); [done|]. exact IH.
    + intros b. unfold inFlight. destruct (beadHasLabel b (runLabel name)); [|done].
      destruct (bStatus b == "closed"); [|done]. by cbn.
  - apply Forall_forall. intros b Hb. rewrite (sortSlice_perm createdDescLess l) in Hb. unfold l in Hb.
    apply list_elem_of_In, filter_In in Hb as [_ Hb]. by apply andb_true_iff in Hb as [_ Hb].
Qed.

(** ** What the writes change *)

(** A property of beads that a write at one place keeps. *)
Lemma view_putAt {A} (π : Bead → A) m id i b b' :
  indexOfLocked m id = Some (i, b) → π b' = π b → π <$> (putAt m i b').(msBeads) = π <$> m.(msBeads).
Proof.
  intros [Hi _]%indexOf_lookup Hp. cbn [putAt setBeads msBeads]. rewrite list_fmap_insert, Hp.
  apply list_insert_id. by rewrite list_lookup_fmap, Hi.
Qed.

Lemma applyUpdate_labels now ls b :
  let b' := applyUpdate now (labelOpts ls) b in
  b'.(bLabels) = b.(bLabels) ++ ls ∧ b'.(bStatus) = b.(bStatus) ∧ b'.(bCreatedAt) = b.(bCreatedAt) ∧ b'.(bTitle) = b.(bTitle) ∧ b'.(bID) = b.(bID).
Proof.
  unfold applyUpdate, labelOpts. cbn. split; [|done]. rewrite (List.filter_ext _ (λ _, true)) by done.
  generalize (bLabels b ++ ls). intros l. induction l as [|x l IH]; [done|]. cbn. by rewrite IH.
Qed.

Lemma beadHasLabel_app b' b ls l :
  b'.(bLabels) = b.(bLabels) ++ ls → existsb (λ x, x == l) ls = false → beadHasLabel b' l = beadHasLabel b l.
Proof. intros E Hn. unfold beadHasLabel. by rewrite E, existsb_app, Hn, orb_false_r. Qed.

Lemma existsb_label_false ls l : l ∉ ls → existsb (λ x, x == l) ls = false.
Proof.
  intros Hn. apply not_true_iff_false. rewrite existsb_exists. intros (x & Hx & He). apply bool_decide_eq_true in He as ->.
  by apply Hn, list_elem_of_In.
Qed.

Lemma runLabel_cursor name scoped c : runLabel name ∉ cursorLabels scoped c.
Proof. unfold cursorLabels. intros [H|[H|H%elem_of_nil]%elem_of_cons]%elem_of_cons; done. Qed.

Lemma runLabel_outcome name o : runLabel name ∉ outcomeLabels o.
Proof. destruct o; cbn; intros H; repeat (apply elem_of_cons in H as [H|H]; [done|]); by apply elem_of_nil in H. Qed.

Lemma tracking_cursor scoped c : labelOrderTracking ∉ cursorLabels scoped c.
Proof. unfold cursorLabels. intros [H|[H|H%elem_of_nil]%elem_of_cons]%elem_of_cons; done. Qed.

Lemma tracking_outcome o : labelOrderTracking ∉ outcomeLabels o.
Proof. destruct o; cbn; intros H; repeat (apply elem_of_cons in H as [H|H]; [done|]); by apply elem_of_nil in H. Qed.

(** What the two reads look at in a bead. *)
Definition runView (name : string) (b : Bead) : bool * Z * bool * bool :=
  (beadHasLabel b (runLabel name), b.(bCreatedAt), b.(bStatus) == "closed", beadHasLabel b labelOrderTracking).

Lemma clockOf_view name m m' : runView name <$> m.(msBeads) = runView name <$> m'.(msBeads) → clockOf name m = clockOf name m'.
Proof.
  intros E. apply (f_equal (fmap (λ v : bool * Z * bool * bool, v.1.1))) in E. rewrite <-!list_fmap_compose in E.
  unfold clockOf. by rewrite (E : clockView name m = clockView name m').
Qed.

Lemma runView_labels name now ls b :
  runLabel name ∉ ls → labelOrderTracking ∉ ls → runView name (applyUpdate now (labelOpts ls) b) = runView name b.
Proof.
  intros H1 H2. destruct (applyUpdate_labels now ls b) as (El & Es & Ec & _). unfold runView. rewrite Es, Ec.
  by rewrite (beadHasLabel_app _ _ _ (runLabel name) El), (beadHasLabel_app _ _ _ labelOrderTracking El) by by apply existsb_label_false.
Qed.

Lemma Update_view name now id ls m :
  runLabel name ∉ ls → labelOrderTracking ∉ ls →
  runView name <$> (Update now id (labelOpts ls) m).2.(msBeads) = runView name <$> m.(msBeads).
Proof.
  intros H1 H2. unfold Update. destruct (indexOfLocked m id) as [[i b]|] eqn:E; [|done]. cbn [snd].
  by apply (view_putAt _ m id i b), runView_labels.
Qed.

(** ** The newest bead *)

Definition newest (m : MemStore) (bs : list Bead) (b : Bead) : Prop := m.(msBeads) = bs ++ [b] ∧ bID b ∉ bID <$> bs.

Lemma newest_index m bs b : newest m bs b → indexOfLocked m (bID b) = Some (length bs, b).
Proof.
  intros [E Hn]. unfold indexOfLocked. rewrite E. apply list_find_app_Some. right. split_and!.
  - done.
  - apply list_find_None, Forall_forall. intros x Hx Heq. apply Hn. rewrite <-Heq. by apply list_elem_of_fmap_2.
  - rewrite Nat.sub_diag. cbn. by rewrite decide_True.
Qed.

Lemma newest_put m bs b b' : newest m bs b → bID b' = bID b → newest (putAt m (length bs) b') bs b'.
Proof.
  intros [E Hn] Hid. split; [|by rewrite Hid]. cbn. rewrite E. by rewrite insert_app_r_alt, Nat.sub_diag by lia.
Qed.

Lemma newest_create now b m :
  wf m → msSeq m < maxInt64 → newest (Create now b m).2 (msBeads m) (createdBead now (incr64 (msSeq m)) b).
Proof.
  intros Hwf Hlt. split; [done|]. pose proof (wf_nodup _ (wf_create now b m Hwf Hlt)) as Hn. cbn in Hn.
  rewrite fmap_app in Hn. apply NoDup_app in Hn as (_ & Hd & _). intros Hin. apply (Hd _ Hin). by left.
Qed.

Lemma newest_update now ls m bs b :
  newest m bs b →
  ∃ m', Update now (bID b) (labelOpts ls) m = (Ok (), m') ∧ newest m' bs (applyUpdate now (labelOpts ls) b).
Proof.
  intros Hn. unfold Update. rewrite (newest_index m bs b Hn). eexists. split; [done|]. eapply newest_put; [done|]. apply applyUpdate_id.
Qed.

Lemma newest_metadata now key value m bs b :
  newest m bs b →
  ∃ m', SetMetadata now (bID b) key value m = (Ok (), m') ∧ newest m' bs (touch now (setMetadataMap b (<[key:=value]> b.(bMetadata)))).
Proof.
  intros Hn. unfold SetMetadata. rewrite (newest_index m bs b Hn). eexists. split; [done|]. by eapply newest_put.
Qed.

Lemma newest_close now m bs b :
  newest m bs b → b.(bStatus) ≠ "closed" →
  ∃ m', Close now (bID b) m = (Ok (), m') ∧ newest m' bs (touch now (setStatus b "closed")).
Proof.
  intros Hn Hs. unfold Close. rewrite (newest_index m bs b Hn). rewrite (bool_decide_false (bStatus b = "closed")) by done.
  eexists. split; [done|]. by eapply newest_put.
Qed.

(** Closing keeps what a run is read from, up to the status. *)
Lemma newest_CloseRun clock reason m bs b :
  newest m bs b → b.(bStatus) ≠ "closed" →
  ∃ m' b', CloseRun clock (bID b) reason m = (Ok (), m') ∧ newest m' bs b' ∧
    b'.(bStatus) = "closed" ∧ b'.(bLabels) = b.(bLabels) ∧ b'.(bCreatedAt) = b.(bCreatedAt) ∧ b'.(bID) = b.(bID) ∧ b'.(bTitle) = b.(bTitle).
Proof.
  intros Hn Hs. unfold CloseRun. destruct (reason != "").
  - destruct (newest_metadata (clock 0%nat) "close_reason" reason m bs b Hn) as (m1 & -> & H1).
    set (b1 := touch _ _) in H1. change (bID b) with (bID b1).
    destruct (newest_close (clock 1%nat) m1 bs b1 H1 Hs) as (m2 & -> & H2). eexists _, _. split; [done|]. split; [exact H2|]. done.
  - destruct (newest_close (clock 0%nat) m bs b Hn Hs) as (m2 & -> & H2). eexists _, _. split; [done|]. split; [exact H2|]. done.
Qed.

(** ** The codec *)

(** The labels an outcome is read from. *)
Definition outcomeWords : list string :=
  [labelWispCanceled; labelWispFailed; labelWisp; labelExecEnvFailed; labelExecFailed; labelExec; labelTriggerEnvFail].

Lemma contains_app pre ls w : w ∉ pre → beadLabelsContain (pre ++ ls) w = beadLabelsContain ls w.
Proof. intros Hn. unfold beadLabelsContain. by rewrite existsb_app, existsb_label_false. Qed.

Lemma outcome_read pre o : (∀ w, w ∈ outcomeWords → w ∉ pre) → outcomeFromLabels (pre ++ outcomeLabels o) = o.
Proof.
  intros Hp. unfold outcomeFromLabels. rewrite !contains_app by (apply Hp; unfold outcomeWords; set_solver). by destruct o.
Qed.

Lemma words_base scoped w : w ∈ outcomeWords → w ∉ [runLabel scoped; labelOrderTracking].
Proof.
  intros Hw [H|[H|H%elem_of_nil]%elem_of_cons]%elem_of_cons; [| |done]; subst w;
    repeat (apply elem_of_cons in Hw as [Hw|Hw]; [done|]); by apply elem_of_nil in Hw.
Qed.

Lemma words_cursor scoped c w : w ∈ outcomeWords → w ∉ cursorLabels scoped c.
Proof.
  intros Hw [H|[H|H%elem_of_nil]%elem_of_cons]%elem_of_cons; [| |done]; subst w;
    repeat (apply elem_of_cons in Hw as [Hw|Hw]; [done|]); by apply elem_of_nil in Hw.
Qed.

Definition uint64 (c : Z) : Prop := 0 ≤ c < 2 ^ 64.

Lemma ParseUint_Itoa c : uint64 c → ParseUint (Itoa c) = Some c.
Proof.
  intros [H0 Hc]. unfold ParseUint, Itoa. destruct (Z.ltb_spec c 0); [lia|].
  rewrite parseDigits_uint, DecimalN.Unsigned.of_to, Z2N.id by (apply to_uint_nonnil || lia).
  by destruct (Z.ltb_spec c (2 ^ 64)); [|lia].
Qed.

(** One step of the cursor scan. *)
Definition seqStep (maxSeq : Z) (l : string) : Z :=
  if HasPrefix l "seq:" then
    match ParseUint (sdrop 4 l) with
    | Some n => if maxSeq <? n then n else maxSeq
    | None => maxSeq
    end
  else maxSeq.

Lemma seqStep_seq acc c : uint64 c → seqStep acc (labelSeqPrefix +:+ Itoa c) = Z.max acc c.
Proof.
  intros Hc. unfold seqStep, HasPrefix. change labelSeqPrefix with "seq:".
  rewrite prefix_app. change 4%nat with (String.length "seq:"). rewrite sdrop_app. rewrite (ParseUint_Itoa c Hc). destruct (Z.ltb_spec acc c); lia.
Qed.

Lemma seqStep_outcome acc o : foldl seqStep acc (outcomeLabels o) = acc.
Proof. by destruct o. Qed.

Lemma MaxSeq_run scoped cursor o :
  match cursor with Some c => uint64 c | None => True end →
  MaxSeqFromLabels [[runLabel scoped; labelOrderTracking] ++ match cursor with Some c => cursorLabels scoped c | None => [] end ++ outcomeLabels o] =
  default 0 cursor.
Proof.
  intros Hc. unfold MaxSeqFromLabels. cbn [concat]. rewrite app_nil_r. change (foldl _ 0 ?l) with (foldl seqStep 0 l).
  rewrite !foldl_app. change (foldl seqStep 0 [runLabel scoped; labelOrderTracking]) with 0. rewrite seqStep_outcome.
  destruct cursor as [c|]; [|done]. cbn [cursorLabels foldl]. change (seqStep 0 (labelOrderTitlePrefix +:+ scoped)) with 0.
  rewrite seqStep_seq by done. cbn. unfold uint64 in Hc. lia.
Qed.

(** ** Recording a run *)

(** The outcome and cursor stamps an open run receives. *)
Inductive Stamp := StampOutcome (o : RunOutcome) | StampCursor (c : Z) | StampFailed (o : RunOutcome) (cursor : option Z).

Definition stampRun (runID scoped : string) (m : MemStore) (st : Z * Stamp) : MemStore :=
  match st.2 with
  | StampOutcome o => (SetOutcome st.1 runID o m).2
  | StampCursor c => (SetCursor st.1 runID scoped c m).2
  | StampFailed o cursor => (MarkFailed st.1 runID scoped o cursor m).2
  end.

Definition stampLabels (scoped : string) (st : Stamp) : list string :=
  match st with
  | StampOutcome o => outcomeLabels o
  | StampCursor c => cursorLabels scoped c
  | StampFailed o cursor => outcomeLabels o ++ match cursor with Some c => cursorLabels scoped c | None => [] end
  end.

Lemma stampRun_update runID scoped m st : stampRun runID scoped m st = (Update st.1 runID (labelOpts (stampLabels scoped st.2)) m).2.
Proof. by destruct st as [now []]. Qed.

Lemma stamp_labels_other scoped st :
  (∀ name, runLabel name ∉ stampLabels scoped st) ∧ labelOrderTracking ∉ stampLabels scoped st.
Proof.
  destruct st as [o|c|o cursor]; cbn [stampLabels].
  - split; [intros name; apply runLabel_outcome|apply tracking_outcome].
  - split; [intros name; apply runLabel_cursor|apply tracking_cursor].
  - split; [intros name|]; rewrite elem_of_app; intros [H|H].
    + by apply runLabel_outcome in H.
    + destruct cursor; [by apply runLabel_cursor in H|by apply elem_of_nil in H].
    + by apply tracking_outcome in H.
    + destruct cursor; [by apply tracking_cursor in H|by apply elem_of_nil in H].
Qed.

Lemma stamps_newest scoped sts m bs b :
  newest m bs b → b.(bStatus) = "open" →
  ∃ b', newest (foldl (stampRun (bID b) scoped) m sts) bs b' ∧ b'.(bStatus) = "open" ∧ bID b' = bID b ∧ (∀ name, runView name b' = runView name b).
Proof.
  revert m b. induction sts as [|st sts IH]; intros m b Hn Hs; [by exists b|]. cbn [foldl]. rewrite stampRun_update.
  destruct (newest_update st.1 (stampLabels scoped st.2) m bs b Hn) as (m1 & -> & H1). cbn [snd].
  destruct (applyUpdate_labels st.1 (stampLabels scoped st.2) b) as (_ & Es & _ & _ & Ei).
  destruct (IH m1 _ H1) as (b' & Hb' & Ho & Hid & Hv); [by rewrite Es|]. rewrite Ei in Hb', Hid.
  exists b'. split; [done|]. split; [done|]. split; [done|]. intros name. rewrite Hv.
  destruct (stamp_labels_other scoped st.2) as [H2 H3]. by apply runView_labels.
Qed.

Lemma clockMax_from l z : 0 ≤ z → foldr clockMax z l = Z.max (foldr clockMax 0 l) z.
Proof. intros Hz. induction l as [|[[] c] l IH]; cbn; unfold clockMax in *; cbn [fst snd]; lia. Qed.

(** The clock and the flights of a store that gained one bead. *)
Lemma clockOf_newest name m m' b :
  m'.(msBeads) = m.(msBeads) ++ [b] →
  clockOf name m' = Z.max (clockOf name m) (if beadHasLabel b (runLabel name) then b.(bCreatedAt) else 0).
Proof.
  intros E. unfold clockOf, clockView. rewrite E, fmap_app, foldr_app.
  cbn [fmap list_fmap foldr]. unfold clockMax at 2. cbn [fst snd].
  set (l := (λ b, _) <$> msBeads m).
  assert (0 ≤ foldr clockMax 0 l) by (clear; induction l as [|[[] c] l IH]; cbn; unfold clockMax in *; cbn [fst snd]; lia).
  destruct (beadHasLabel b (runLabel name)); [rewrite (clockMax_from l (Z.max _ 0)) by lia|]; lia.
Qed.

Lemma clockOf_same name m m' : m.(msBeads) = m'.(msBeads) → clockOf name m = clockOf name m'.
Proof. unfold clockOf, clockView. by intros ->. Qed.

Lemma clockOf_nonneg name m : 0 ≤ clockOf name m.
Proof. unfold clockOf. induction (clockView name m) as [|[[] z] l IH]; cbn; unfold clockMax in *; cbn [fst snd]; lia. Qed.

Lemma flights_newest name wisp m bs b :
  m.(msBeads) = bs ++ [b] → existsb (inFlight name wisp) m.(msBeads) = existsb (inFlight name wisp) bs || inFlight name wisp b.
Proof. intros ->. rewrite existsb_app. cbn. by rewrite orb_false_r. Qed.

(** The bead a run is created as. *)
Definition runBead (now seq : Z) (scoped : string) (o : RunOutcome) : Bead := createdBead now seq (trackingBead scoped o).

Lemma runBead_fields now seq scoped o :
  let b := runBead now seq scoped o in
  b.(bLabels) = baseLabels scoped o ∧ b.(bStatus) = "open" ∧ b.(bCreatedAt) = now ∧ b.(bTitle) = trackingTitle scoped.
Proof. done. Qed.

Lemma baseLabels_run name scoped o b : b.(bLabels) = baseLabels scoped o → beadHasLabel b (runLabel name) = bool_decide (name = scoped).
Proof.
  intros E. unfold beadHasLabel. rewrite E. unfold baseLabels. rewrite existsb_app, (existsb_label_false (outcomeLabels o)) by apply runLabel_outcome.
  cbn [existsb]. rewrite !orb_false_r.
  apply bool_decide_ext. split; [intros H; symmetry; by apply runLabel_inj|by intros ->].
Qed.

Lemma baseLabels_tracking scoped o b : b.(bLabels) = baseLabels scoped o → beadHasLabel b labelOrderTracking = true.
Proof. intros E. unfold beadHasLabel. rewrite E. cbn. by rewrite orb_true_r. Qed.

Lemma inFlight_view name wisp b : 
  beadHasLabel b labelOrderTracking = true → inFlight name wisp b = beadHasLabel b (runLabel name) && (b.(bStatus) != "closed").
Proof. intros Ht. unfold inFlight. by rewrite Ht, andb_true_r. Qed.

(** The clock of a group of stores, one of which gained a run. *)
Lemma clock_group name scoped now before after m m' b' :
  newest m' (msBeads m) b' → beadHasLabel b' (runLabel name) = bool_decide (name = scoped) → b'.(bCreatedAt) = now →
  foldl Z.max 0 (clockOf name <$> before ++ m' :: after) =
  if bool_decide (name = scoped) then Z.max (foldl Z.max 0 (clockOf name <$> before ++ m :: after)) now
  else foldl Z.max 0 (clockOf name <$> before ++ m :: after).
Proof.
  intros [Hm' _] Hl' Hc'. rewrite !fmap_app, !foldl_app. cbn [fmap list_fmap foldl].
  rewrite (clockOf_newest name m m' b' Hm'), Hl', Hc'. pose proof (clockOf_nonneg name m).
  generalize (foldl Z.max 0 (clockOf name <$> before)). intros z.
  case_bool_decide; [|f_equal; lia]. generalize (clockOf name <$> after). intros l.
  replace (Z.max z (Z.max (clockOf name m) now)) with (Z.max (Z.max z (clockOf name m)) now) by lia.
  generalize (Z.max z (clockOf name m)). induction l as [|y l IH]; intros w; [done|]. cbn.
  replace (Z.max (Z.max w now) y) with (Z.max (Z.max w y) now) by lia. apply IH.
Qed.

(** C23 A run is recorded once: creating it moves the order's cooldown clock to
    its creation time (never back) and puts the order in flight, in whichever
    store of the group it is written to; every outcome and cursor stamp leaves
    both as they are; closing it takes the order out of flight, unless it was in
    flight before, and leaves the clock; no other order is affected. *)
Theorem run_lifecycle now clock scoped o sts reason before after m wisp name :
  wf m → msSeq m < maxInt64 → 0 < now →
  ∃ run m0 m2,
    CreateRun now scoped o m = (Ok run, m0) ∧
    let m1 := foldl (stampRun run.(rnID) scoped) m0 sts in
    CloseRun clock run.(rnID) reason m1 = (Ok (), m2) ∧
    let read m := (HasOpenWork (memLeg <$> before ++ m :: after) name (Some (λ b, Ok (wisp b))), LastRun (memLeg <$> before ++ m :: after) name) in
    let old := foldl Z.max 0 (clockOf name <$> before ++ m :: after) in
    let moved := Ok (if bool_decide (name = scoped) then Z.max old now else old) in
    read m1 = (if bool_decide (name = scoped) then Ok true else (read m).1, moved) ∧
    read m2 = ((read m).1, moved).
Proof.
  intros Hwf Hlt Hnow. set (b := runBead now (incr64 (msSeq m)) scoped o).
  pose proof (newest_create now (trackingBead scoped o) m Hwf Hlt) as Hn. fold (runBead now (incr64 (msSeq m)) scoped o) in Hn. fold b in Hn.
  eexists (mkOrderRun b.(bID) scoped o b.(bCreatedAt) 0 true 0), (Create now (trackingBead scoped o) m).2.
  set (m0 := (Create now (trackingBead scoped o) m).2) in *. cbn [rnID].
  destruct (stamps_newest scoped sts m0 (msBeads m) b Hn eq_refl) as (b1 & H1 & Ho & Hid & Hv).
  set (m1 := foldl (stampRun (bID b) scoped) m0 sts) in *.
  destruct (newest_CloseRun clock reason m1 (msBeads m) b1 H1) as (m2 & b2 & Hc & H2 & Hst & Hlb & Hcr & _ & _); [by rewrite Ho|].
  exists m2. split; [done|]. cbv zeta. split; [by rewrite <-Hid|].
  assert (beadHasLabel b (runLabel name) = bool_decide (name = scoped)) as Hb by (by eapply baseLabels_run).
  pose proof (Hv name) as Hvn. unfold runView in Hvn. injection Hvn as E1 E2 E3 E4.
  assert (beadHasLabel b2 (runLabel name) = bool_decide (name = scoped)) as E2b by (unfold beadHasLabel in *; by rewrite Hlb, E1).
  assert (beadHasLabel b2 labelOrderTracking = true) as E4b by (unfold beadHasLabel in *; by rewrite Hlb, E4).
  rewrite !HasOpenWork_mem, !LastRun_mem. rewrite !existsb_app. cbn [existsb].
  rewrite (flights_newest name wisp m1 _ b1 (proj1 H1)), (flights_newest name wisp m2 _ b2 (proj1 H2)).
  rewrite (inFlight_view name wisp b1) by (by rewrite E4). rewrite (inFlight_view name wisp b2 E4b).
  rewrite E1, Hb, Ho, E2b, Hst. rewrite (bool_decide_false ("open" = "closed")), (bool_decide_true ("closed" = "closed")) by done.
  cbn [negb]. rewrite andb_true_r, andb_false_r, orb_false_r.
  rewrite (clock_group name scoped now before after m m1 b1 H1), (clock_group name scoped now before after m m2 b2 H2)
    by (done || (by rewrite E1) || (by rewrite E2) || (by rewrite Hcr, E2)).
  split; [|done]. f_equal. case_bool_decide; [|by rewrite orb_false_r]. by rewrite orb_true_r, orb_true_r.
Qed.

(** *** The closed run *)

Lemma newest_get m bs b : newest m bs b → Get m (bID b) = Ok b.
Proof. intros Hn. unfold Get. by rewrite (newest_index m bs b Hn). Qed.

Lemma name_read scoped b ls :
  b.(bLabels) = runLabel scoped :: ls → firstRunName (λ name, name) ls = None → b.(bTitle) = trackingTitle scoped →
  default "" (NameFromTrackingBead b) = scoped.
Proof.
  intros El Hn Et. unfold NameFromTrackingBead, NameFromOrderRunLabel. rewrite El, Et. cbn [firstRunName].
  assert (∀ p s, CutPrefix (p +:+ s) p = Some s) as Hc by (intros p s; unfold CutPrefix, HasPrefix; by rewrite prefix_app, sdrop_app).
  unfold runLabel, trackingTitle. rewrite Hc. case_bool_decide as Hs; [|done]. rewrite Hn, Hc. by rewrite Hs.
Qed.

Lemma firstRunName_other scoped cursor o :
  firstRunName (λ name, name) (labelOrderTracking :: match cursor with Some c => cursorLabels scoped c | None => [] end ++ outcomeLabels o) = None.
Proof. destruct cursor, o; reflexivity. Qed.

Lemma beadHasLabel_closed name scoped cursor o b :
  b.(bLabels) = [runLabel scoped; labelOrderTracking] ++ match cursor with Some c => cursorLabels scoped c | None => [] end ++ outcomeLabels o →
  beadHasLabel b (runLabel name) = bool_decide (name = scoped).
Proof.
  intros E. unfold beadHasLabel. rewrite E, !existsb_app, (existsb_label_false (outcomeLabels o)) by apply runLabel_outcome.
  rewrite (existsb_label_false (match cursor with Some c => _ | None => _ end))
    by (destruct cursor; [apply runLabel_cursor|apply not_elem_of_nil]).
  cbn [existsb]. rewrite !orb_false_r. apply bool_decide_ext. split; [intros H; symmetry; by apply runLabel_inj|by intros ->].
Qed.

(** The bead of a run between the steps of its creation: not closed, with the
    given labels. *)
Definition runningBead (created : Z) (scoped id : string) (labels : list string) (b : Bead) : Prop :=
  bID b = id ∧ b.(bStatus) = "open" ∧ b.(bCreatedAt) = created ∧ b.(bTitle) = trackingTitle scoped ∧ b.(bLabels) = labels.

Lemma runningBead_update now created scoped id labels ls b :
  runningBead created scoped id labels b → runningBead created scoped id (labels ++ ls) (applyUpdate now (labelOpts ls) b).
Proof.
  intros (I & S & C & T & L). destruct (applyUpdate_labels now ls b) as (El & Es & Ec & Et & Ei).
  unfold runningBead. by rewrite Ei, Es, Ec, Et, El, L.
Qed.

Definition optCursorLabels (scoped : string) (cursor : option Z) : list string :=
  match cursor with Some c => cursorLabels scoped c | None => [] end.

Lemma closedCursor_newest now created scoped id labels cursor m bs b :
  newest m bs b → runningBead created scoped id labels b →
  ∃ m' b', closedCursor now scoped cursor (mkOrderRun id scoped RunOutcomeNone created 0 false 0) m =
      (Ok (), mkOrderRun id scoped RunOutcomeNone created 0 false (default 0 cursor), m') ∧
    newest m' bs b' ∧ runningBead created scoped id (labels ++ optCursorLabels scoped cursor) b'.
Proof.
  intros Hn Hr. unfold closedCursor. destruct cursor as [c|]; cbn [optCursorLabels rnID].
  - destruct (newest_update now (cursorLabels scoped c) m bs b Hn) as (m' & Hu & Hn'). unfold SetCursor.
    rewrite (proj1 Hr) in Hu. rewrite Hu. eexists m', _. split; [done|]. split; [exact Hn'|]. by apply runningBead_update.
  - exists m, b. rewrite app_nil_r. done.
Qed.

Lemma closedOutcome_newest now created scoped id labels outcome cursor m bs b :
  newest m bs b → runningBead created scoped id labels b →
  ∃ m' b', closedOutcome now outcome (mkOrderRun id scoped RunOutcomeNone created 0 false cursor) m =
      (Ok (), mkOrderRun id scoped outcome created 0 false cursor, m') ∧
    newest m' bs b' ∧ runningBead created scoped id (labels ++ outcomeLabels outcome) b'.
Proof.
  intros Hn Hr. unfold closedOutcome. case_bool_decide as Ho.
  - subst outcome. exists m, b. cbn [outcomeLabels]. rewrite app_nil_r. done.
  - destruct (newest_update now (outcomeLabels outcome) m bs b Hn) as (m' & Hu & Hn'). unfold SetOutcome. cbn [rnID].
    rewrite (proj1 Hr) in Hu. rewrite Hu. eexists m', _. split; [done|]. split; [exact Hn'|]. by apply runningBead_update.
Qed.

(** The labels of a closed run. *)
Definition closedLabels (scoped : string) (outcome : RunOutcome) (cursor : option Z) : list string :=
  ([runLabel scoped; labelOrderTracking] ++ optCursorLabels scoped cursor) ++ outcomeLabels outcome.

(** What the creation of a closed run leaves behind. *)
Lemma CreateRunClosed_newest clock scoped outcome cursor reason m :
  wf m → msSeq m < maxInt64 →
  ∃ m' b, CreateRunClosed clock scoped outcome cursor reason m =
      (mkOrderRun b.(bID) scoped outcome (clock 0%nat) 0 false (default 0 cursor), None, m') ∧
    newest m' (msBeads m) b ∧ b.(bStatus) = "closed" ∧ b.(bCreatedAt) = clock 0%nat ∧ b.(bTitle) = trackingTitle scoped ∧
    b.(bLabels) = closedLabels scoped outcome cursor.
Proof.
  intros Hwf Hlt. unfold CreateRunClosed.
  pose proof (newest_create (clock 0%nat) (trackingBead scoped RunOutcomeNone) m Hwf Hlt) as Hn.
  set (b0 := runBead (clock 0%nat) (incr64 (msSeq m)) scoped RunOutcomeNone).
  destruct (Create (clock 0%nat) (trackingBead scoped RunOutcomeNone) m) as [r m0] eqn:Ec.
  assert (r = Ok b0) as -> by (unfold Create in Ec; injection Ec as <- _; done). cbn [snd] in Hn.
  destruct (closedCursor_newest (clock 1%nat) (clock 0%nat) scoped (bID b0) [runLabel scoped; labelOrderTracking] cursor m0 (msBeads m) b0)
    as (m1 & b1 & E1 & H1 & R1); [exact Hn|done|].
  change (bCreatedAt b0) with (clock 0%nat). rewrite E1.
  destruct (closedOutcome_newest (clock 2%nat) (clock 0%nat) scoped (bID b0) _ outcome (default 0 cursor) m1 _ b1 H1 R1)
    as (m2 & b2 & E2 & H2 & I2 & S2 & C2 & T2 & L2). rewrite E2, <-I2.
  destruct (newest_CloseRun (λ k, clock (3 + k)%nat) reason m2 _ b2 H2) as (m3 & b3 & E3 & H3 & S3 & L3 & C3 & I3 & T3); [by rewrite S2|].
  rewrite E3. exists m3, b3. rewrite I3, S3, C3, T3, L3, C2, T2, L2. done.
Qed.

Lemma closedLabels_run name scoped outcome cursor b :
  b.(bLabels) = closedLabels scoped outcome cursor → beadHasLabel b (runLabel name) = bool_decide (name = scoped).
Proof. intros E. apply (beadHasLabel_closed name scoped cursor outcome). rewrite E. unfold closedLabels. by rewrite <-app_assoc. Qed.

(** The bead of a closed run reads back as the run. *)
Lemma closedLabels_decode scoped outcome cursor b :
  match cursor with Some c => uint64 c | None => True end →
  b.(bLabels) = closedLabels scoped outcome cursor → b.(bTitle) = trackingTitle scoped → b.(bStatus) = "closed" →
  decodeBestEffort b = mkOrderRun b.(bID) scoped outcome b.(bCreatedAt) b.(bUpdatedAt) false (default 0 cursor).
Proof.
  intros Hc El Et Es. unfold decodeBestEffort.
  rewrite (name_read scoped b (labelOrderTracking :: optCursorLabels scoped cursor ++ outcomeLabels outcome));
    [|by rewrite El|apply firstRunName_other|done].
  unfold decodeRun. rewrite El, Es. unfold closedLabels. rewrite outcome_read.
  - rewrite <-app_assoc. unfold optCursorLabels. rewrite (MaxSeq_run scoped cursor outcome Hc). done.
  - intros w Hw. rewrite elem_of_app. intros [H|H]; [by apply words_base in H|].
    destruct cursor; [by apply words_cursor in H|by apply elem_of_nil in H].
Qed.

(** A manual run is recorded closed: the four writes succeed, the record read
    by its handle is the run that was returned (outcome and cursor decoded from
    the labels), the cooldown clock moves to its creation time, and no order is
    put in flight or taken out of it. *)
Theorem manual_run_recorded clock scoped outcome cursor reason before after m wisp name :
  wf m → msSeq m < maxInt64 → match cursor with Some c => uint64 c | None => True end →
  ∃ run m' updated, CreateRunClosed clock scoped outcome cursor reason m = (run, None, m') ∧
    GetRun m' run.(rnID) = Ok (mkOrderRun run.(rnID) scoped outcome (clock 0%nat) updated false (default 0 cursor)) ∧
    run = mkOrderRun run.(rnID) scoped outcome (clock 0%nat) 0 false (default 0 cursor) ∧
    HasOpenWork (memLeg <$> before ++ m' :: after) name (Some (λ b, Ok (wisp b))) =
      HasOpenWork (memLeg <$> before ++ m :: after) name (Some (λ b, Ok (wisp b))) ∧
    LastRun (memLeg <$> before ++ m' :: after) name =
      let old := foldl Z.max 0 (clockOf name <$> before ++ m :: after) in
      Ok (if bool_decide (name = scoped) then Z.max old (clock 0%nat) else old).
Proof.
  intros Hwf Hlt Hc. destruct (CreateRunClosed_newest clock scoped outcome cursor reason m Hwf Hlt) as (m' & b & -> & Hn & Es & Ec & Et & El).
  eexists _, m', b.(bUpdatedAt). split; [done|]. cbn [rnID]. split.
  { unfold GetRun. rewrite (newest_get _ _ _ Hn), (closedLabels_decode scoped outcome cursor b Hc El Et Es), Ec. done. }
  split; [done|]. rewrite !HasOpenWork_mem, LastRun_mem, !existsb_app. cbn [existsb].
  rewrite (flights_newest name wisp m' _ b (proj1 Hn)).
  assert (inFlight name wisp b = false) as Hf by (unfold inFlight; rewrite Es; by rewrite andb_false_r).
  rewrite Hf, orb_false_r. split; [done|]. by rewrite (clock_group name scoped (clock 0%nat) before after m m' b Hn (closedLabels_run _ _ _ _ _ El) Ec).
Qed.

(** An order on a cooldown is not due again before its interval is over: from
    the moment a run is created, whatever the stores of the group hold, the
    trigger stays off for every check less than an interval later. *)
Theorem cooldown_paces_runs `{ConvMeta.DurationParser} a interval now o before after m t :
  ConvMeta.ParseDuration a.(orInterval) = Some interval → interval ≤ maxInt64 →
  wf m → msSeq m < maxInt64 → 0 < now → now ≤ t < now + interval →
  let m' := (CreateRun now (ScopedName a) o m).2 in
  let lastRun name := match LastRun (memLeg <$> before ++ m' :: after) name with Ok last => Some last | Err _ => None end in
  (checkCooldown a t lastRun).(trDue) = false.
Proof.
  intros Hp Hmax Hwf Hlt Hnow Ht m' lastRun.
  pose proof (newest_create now (trackingBead (ScopedName a) o) m Hwf Hlt) as Hn.
  change (Create now (trackingBead (ScopedName a) o) m).2 with m' in Hn.
  unfold checkCooldown. rewrite Hp. unfold lastRun. rewrite LastRun_mem.
  rewrite (clock_group (ScopedName a) (ScopedName a) now before after m m' _ Hn) by (done || by eapply baseLabels_run).
  rewrite bool_decide_true by done. set (old := foldl Z.max 0 _).
  assert (IsZero (Z.max old now) = false) as -> by (unfold IsZero; apply Z.eqb_neq; lia).
  destruct (Z.leb_spec interval (timeSub t (Z.max old now))) as [Hle|]; [|done]. exfalso.
  unfold timeSub, minInt64, maxInt64 in *. lia.
Qed.

(** ** Closing in batches *)

Section closing.
Context {S E : Type} (closeAll : S → list string → gmap string string → (Z * option E) * S)
  (getBead : S → string → res E Bead * S) (isNotFound : E → bool).

(** Reading the beads in turn, each found closed or gone. *)
Inductive verified : S → list string → S → Prop :=
| verified_nil s : verified s [] s
| verified_closed s id b s1 ids s' :
    getBead s id = (Ok b, s1) → b.(bStatus) = "closed" → verified s1 ids s' → verified s (id :: ids) s'
| verified_gone s id e s1 ids s' :
    getBead s id = (Err e, s1) → isNotFound e = true → verified s1 ids s' → verified s (id :: ids) s'.

Lemma openIDs_verified s ids s' : openIDs getBead isNotFound s ids = (Ok [], s') → verified s ids s'.
Proof.
  revert s. induction ids as [|x ids IH]; intros s; cbn [openIDs]; [intros [= <-]; constructor|].
  destruct (getBead s x) as [[b|e] s1] eqn:Eg.
  - destruct (openIDs getBead isNotFound s1 ids) as [[rest|e] s2] eqn:Er; [|done]. case_bool_decide as Hs; cbn [negb]; [|done].
    intros [= -> <-]. eapply verified_closed; [done|done|by apply IH].
  - destruct (isNotFound e) eqn:En; [|done]. intros Ho. eapply verified_gone; [done|done|by apply IH].
Qed.

(** The last close went through and the reads that followed found nothing open. *)
Definition closedAndRead (ids : list string) (reason : string) (s' : S) : Prop :=
  ∃ s0 n s1, closeAll s0 ids {["close_reason" := reason]} = (n, None, s1) ∧ verified s1 ids s'.

Lemma closeAttempt_None s ids reason n s' :
  closeAttempt closeAll getBead isNotFound s ids reason = (n, None, s') → closedAndRead ids reason s'.
Proof.
  unfold closeAttempt. destruct (closeAll s ids {["close_reason" := reason]}) as [[k [e|]] s0] eqn:Ec; [done|].
  destruct (openIDs getBead isNotFound s0 ids) as [[[|x l]|e] s1] eqn:Eo; [|done..]. intros [= <- <-].
  exists s, k, s0. split; [done|]. by apply openIDs_verified.
Qed.

Lemma closeAttempt_count s ids reason :
  (∀ s ids md, 0 ≤ (closeAll s ids md).1.1) → 0 ≤ (closeAttempt closeAll getBead isNotFound s ids reason).1.1.
Proof.
  intros Hpos. unfold closeAttempt. pose proof (Hpos s ids {["close_reason" := reason]}) as Hp.
  destruct (closeAll s ids {["close_reason" := reason]}) as [[k [e|]] s0]; [done|].
  by destruct (openIDs getBead isNotFound s0 ids) as [[[|x l]|e] s1].
Qed.

Lemma closeLoop_S n waits ids reason closed s :
  closeLoop closeAll getBead isNotFound (Datatypes.S n) waits ids reason closed s =
  let '(k, failed, s) := closeAttempt closeAll getBead isNotFound s ids reason in
  let closed := Z.min (closed + k) (Z.of_nat (length ids)) in
  match failed with
  | None => (closed, None, s)
  | Some e =>
      if bool_decide (n = 0%nat) then (closed, Some e, s)
      else match waits with
      | false :: _ => (closed, Some (CanceledAfter e), s)
      | true :: waits => closeLoop closeAll getBead isNotFound n waits ids reason closed s
      | [] => closeLoop closeAll getBead isNotFound n [] ids reason closed s
      end
  end.
Proof. done. Qed.

Lemma closeLoop_spec n waits ids reason closed s closed' failed s' :
  (∀ s ids md, 0 ≤ (closeAll s ids md).1.1) → 0 ≤ closed →
  closeLoop closeAll getBead isNotFound (Datatypes.S n) waits ids reason closed s = (closed', failed, s') →
  0 ≤ closed' ≤ Z.of_nat (length ids) ∧ (failed = None → closedAndRead ids reason s').
Proof.
  intros Hpos. revert waits closed s. induction n as [|n IH]; intros waits closed s H0; rewrite closeLoop_S;
    pose proof (closeAttempt_count s ids reason Hpos) as Hk; pose proof (closeAttempt_None s ids reason) as Hn;
    destruct (closeAttempt closeAll getBead isNotFound s ids reason) as [[k [e|]] s0]; cbn [fst] in Hk.
  - intros [= <- <- <-]. split; [lia|done].
  - intros [= <- <- <-]. split; [lia|]. eauto.
  - rewrite bool_decide_false by done. destruct waits as [|[] waits]; [apply IH; lia|apply IH; lia|].
    intros [= <- <- <-]. split; [lia|done].
  - intros [= <- <- <-]. split; [lia|]. eauto.
Qed.
End closing.

(** A batch close tells the truth: however the store fails, lags or loses a
    write between the attempts, an answer without an error means that the last
    batch close went through and that the reads after it found every listed run
    closed or gone, and the count never exceeds the number of distinct runs
    asked for. *)
Theorem close_runs_verified {S E} closeAll getBead isNotFound waits ids reason (s : S) closed (failed : option (CloseError (E := E))) s' :
  (∀ s ids md, 0 ≤ (closeAll s ids md).1.1) →
  CloseRuns closeAll getBead isNotFound waits ids reason s = (closed, failed, s') →
  0 ≤ closed ≤ Z.of_nat (length (uniqueNonEmptyIDs ids)) ∧
  (failed = None → uniqueNonEmptyIDs ids ≠ [] → closedAndRead closeAll getBead isNotFound (uniqueNonEmptyIDs ids) reason s').
Proof.
  intros Hpos. unfold CloseRuns. destruct (uniqueNonEmptyIDs ids) as [|x l] eqn:Eu; [intros [= <- <- <-]; split; [lia|done]|].
  intros Hc. apply closeLoop_spec in Hc as [Hb Hf]; [|done|lia]. split; [done|]. intros Hn _. by apply Hf.
Qed.
