(* ===== verification/OrderScenarios.v ===== *)
(** * OrderScenarios: concrete orders, clocks and stores

    Inputs at which the hypotheses of the theorems on orders and their runs
    hold, with the clock of New York, an hourly and a nightly order, and an
    in-memory store. *)

From S2P Require Import Prelude GoBase GoText GoTime GoTimeProps Beads SessionState SessionInfo ConvMeta MemStore MemStoreProps.
From S2P Require Import Orders CronProps OrdersProps OrderStore OrderStoreProps.

Local Open Scope Z_scope.

#[local] Instance hourDurations : DurationParser :=
  {| ParseDuration s := if s == "1h" then Some Hour else if s == "10m" then Some (10 * Minute) else None |}.

(** An order that runs a command on a trigger. *)
Definition execOrder (name scope trigger interval schedule tz : string) : Order :=
  mkOrder name [] "" "" "gc gc" scope trigger interval schedule tz "" "" "" "" "" None false ∅ ∅ "" "" "".

Definition hourly : Order := execOrder "hourly" "" "cooldown" "1h" "" "".
Definition nightly : Order := execOrder "nightly" "" "cron" "" "30 2 * * *" "America/New_York".
Definition shared : Order := execOrder "shared" "city" "cooldown" "1h" "" "".

(** ** Cron *)

(** 9 March 2025, 07:00 UTC: the clock of New York jumps from 02:00 to 03:00. *)
Definition springForward : Z := (719162 + 20156) * Day + 7 * Hour.
Definition yearClock : Location := λ t, if t <? springForward then -5 * Hour else newYork t.

#[local] Instance yearZone : ZoneDatabase :=
  {| LoadLocation name := if name == "America/New_York" then Some yearClock else None |}.

Example springForward_civil : FormatRFC3339 springForward = "2025-03-09T07:00:00Z".
Proof. reflexivity. Qed.

(** The nightly order is due on the night whose clock has no 02:30. *)
Lemma cron_no_missed_slot_witness :
  (checkCron nightly (springForward + 2 * Minute) (λ _, 0) (λ _, Some (springForward - Day))).(trDue) = true.
Proof.
  apply (cron_no_missed_slot nightly (springForward + 2 * Minute) (λ _, 0) (λ _, Some (springForward - Day))
    "30" "2" "*" "*" "*" yearClock (springForward - Day) springForward); [reflexivity..| |right|right| |reflexivity].
  - by split.
  - exists (springForward - 5 * Hour + 30 * Minute). split; [|reflexivity]. by split.
  - done.
  - vm_compute. by split.
Defined.

(** Three slots fall between the checks of this sequence, two of them before one
    check. *)
Definition threeChecks : list Z := (λ k, springForward + k * Minute) <$> [10; 75; 80].

Lemma cron_ticks_exact_witness :
  cronTicks halfHourly (fixedZone (-6 * Hour)) (springForward - Minute) threeChecks = (λ k, springForward + k * Minute) <$> [10; 75].
Proof.
  rewrite (cron_ticks_exact (-6 * Hour) halfHourly (springForward - Minute) threeChecks); [reflexivity..|by split|done| |].
  - repeat constructor; vm_compute; try split; done.
  - repeat constructor; vm_compute; try split; done.
Defined.

(** ** Overrides and scans *)

Definition tenMinutes : Override :=
  mkOverride "hourly" "" None None (Some "10m") None None None None None None None ∅.
Definition absent : Override :=
  mkOverride "absent" "*" None None (Some "10m") None None None None None None None ∅.

Definition lenient : ScanOptions (E := ScanError string) (V := string) :=
  mkScanOptions None (Some (λ _, true)) (Some (λ _ _, true)) None.

Lemma override_failure_keeps_earlier_witness :
  ScanAll (Ok [hourly; nightly]) [] "" [tenMinutes; absent] lenient = Ok [applyOverride hourly tenMinutes; nightly].
Proof.
  rewrite (override_failure_keeps_earlier [hourly; nightly] tenMinutes absent lenient); reflexivity.
Defined.

(** The city has the nightly order, and two rigs share one that is city-scoped. *)
Lemma scan_one_per_scope_witness :
  ∃ all, ScanAll (ScanRoots [RootOrders [nightly]] ["absent"])
      ((λ r, (r.1, ScanRoots r.2 ["absent"])) <$> [("east", [RootOrders [hourly; shared]]); ("west", [RootOrders [hourly; shared]])])
      "America/New_York" [] lenient = Ok all ∧
    NoDup (orderKey <$> all) ∧ length all = 4%nat.
Proof.
  eexists. split; [vm_compute; reflexivity|]. split; [|reflexivity].
  apply (scan_one_per_scope [RootOrders [nightly]] [("east", [RootOrders [hourly; shared]]); ("west", [RootOrders [hourly; shared]])]
    ["absent"] "America/New_York" [] lenient); [| |repeat constructor|repeat constructor|vm_compute; reflexivity].
  - apply (bool_decide_unpack _). reflexivity.
  - apply (bool_decide_unpack _). reflexivity.
Defined.

(** ** Runs *)

Lemma run_lifecycle_witness :
  ∃ run m0 m2,
    CreateRun 7 "hourly" RunOutcomeExec NewMemStore = (Ok run, m0) ∧
    CloseRun (λ _, 9) run.(rnID) "done" m0 = (Ok (), m2) ∧
    HasOpenWork (memLeg <$> [m0]) "hourly" (Some (λ _, Ok false)) = Ok true ∧
    LastRun (memLeg <$> [m2]) "hourly" = Ok 7.
Proof.
  destruct (run_lifecycle 7 (λ _, 9) "hourly" RunOutcomeExec [] "done" [] [] NewMemStore (λ _, false) "hourly")
    as (run & m0 & m2 & Hc & Hx & H1 & H2); [apply wf_NewMemStore|done|done|].
  exists run, m0, m2. split; [exact Hc|]. split; [exact Hx|]. split; [exact (f_equal fst H1)|exact (f_equal snd H2)].
Defined.

Lemma manual_run_recorded_witness :
  ∃ run m', CreateRunClosed (λ k, 7 + Z.of_nat k) "nightly" RunOutcomeWisp (Some 42) "manual" NewMemStore = (run, None, m') ∧
    LastRun (memLeg <$> [m']) "nightly" = Ok 7 ∧ run.(rnCursor) = 42.
Proof.
  destruct (manual_run_recorded (λ k, 7 + Z.of_nat k) "nightly" RunOutcomeWisp (Some 42) "manual" [] [] NewMemStore (λ _, false) "nightly")
    as (run & m' & updated & Hc & _ & Hr & _ & Hl); [apply wf_NewMemStore|done|by split|].
  exists run, m'. split; [exact Hc|]. split; [exact Hl|]. rewrite Hr. done.
Defined.

Lemma cooldown_paces_runs_witness :
  let m := (CreateRun 7 "hourly" RunOutcomeExec NewMemStore).2 in
  (checkCooldown hourly (6 + Hour) (λ name, match LastRun (memLeg <$> [m]) name with Ok last => Some last | Err _ => None end)).(trDue) = false.
Proof.
  apply (cooldown_paces_runs hourly Hour 7 RunOutcomeExec [] [] NewMemStore (6 + Hour)); [done..|apply wf_NewMemStore|done|done|by split].
Defined.

(** A store that loses its first batch close: the second attempt closes the runs. *)
Definition flakyClose (k : nat) (ids : list string) (md : gmap string string) : (Z * option string) * nat :=
  ((Z.of_nat (length ids), if bool_decide (k = 0%nat) then Some "reset" else None), S k).
Definition flakyGet (k : nat) (id : string) : res string Bead * nat :=
  (if id == "gc-2" then Err "not found" else Ok (setStatus zeroBead "closed"), k).

Lemma close_runs_verified_witness :
  ∃ closed s', CloseRuns flakyClose flakyGet (λ e, e == "not found") [] ["gc-1"; " gc-2"; "gc-1"] "stale" 0%nat = (closed, None, s') ∧
    0 ≤ closed ≤ 2 ∧ s' = 2%nat.
Proof.
  eexists _, _. split; [vm_compute; reflexivity|]. split; [|reflexivity].
  apply (close_runs_verified flakyClose flakyGet (λ e, e == "not found") [] ["gc-1"; " gc-2"; "gc-1"] "stale" 0%nat 2 None 2%nat);
    [|vm_compute; reflexivity].
  intros s ids md. cbn. lia.
Defined.
