(* ===== verification/Shellquote.v ===== *)
(** * Shellquote: quoting arguments for a shell, and splitting them again

    Models [internal/shellquote/shellquote.go].  A command is a byte string;
    [Split] ranges over its runes, so an invalid byte is read as the replacement
    rune.  The round trip is stated for arguments that are the UTF-8 text of
    some runes. *)

From Stdlib Require Import Ascii.
From S2P Require Import Prelude GoBase GoText SessionInfo.

Local Open Scope Z_scope.

Definition runeQuote : Z := 39.        (* ' *)
Definition runeDouble : Z := 34.       (* a double quote *)
Definition runeBackslash : Z := 92.

(** The characters of [metacharacters], by code: blank, tab, carriage return,
    line feed, the quotes and the backslash, then the rest. *)
Definition metacharacters : list Z :=
  [32; 9; 13; 10; 34; 39; 92; 124; 38; 59; 36; 33; 40; 41; 123; 125; 91; 93; 60; 62; 63; 42; 126; 35; 96].

(** [strings.ContainsAny] with a set of ASCII characters: a test per byte. *)
Fixpoint ContainsAny (set : list Z) (s : string) : bool :=
  match s with
  | EmptyString => false
  | String c r => bool_decide (bval c ∈ set) || ContainsAny set r
  end.

Definition Quote (s : string) : string := "'" +:+ ReplaceAll "'" "'\''" s +:+ "'".

Definition joinPart (arg : string) : string :=
  if arg == "" then "''" else if ContainsAny metacharacters arg then Quote arg else arg.

Definition Join (args : list string) : string := String.concat " " (joinPart <$> args).

(** The variables of [Split]. *)
Record splitState := mkSplit {
  spArgs : list string;
  spCurrent : string;
  spSingle : bool;
  spDouble : bool;
  spEscaped : bool;
  spActive : bool
}.

Definition flush (st : splitState) : splitState :=
  if st.(spActive) || (st.(spCurrent) != "")
  then mkSplit (st.(spArgs) ++ [st.(spCurrent)]) "" st.(spSingle) st.(spDouble) st.(spEscaped) false
  else st.

(** [current.WriteRune(r); tokenActive = true], with the flags after it. *)
Definition writeRune (st : splitState) (r : Z) (single double : bool) : splitState :=
  mkSplit st.(spArgs) (st.(spCurrent) +:+ EncodeRune r) single double false true.

Definition splitStep (st : splitState) (r : Z) : splitState :=
  let '(mkSplit args current single double escaped active) := st in
  if escaped then writeRune st r single double
  else if single then
    if r =? runeQuote then mkSplit args current false double escaped active else writeRune st r single double
  else if double then
    if r =? runeDouble then mkSplit args current single false escaped active
    else if r =? runeBackslash then mkSplit args current single double true true
    else writeRune st r single double
  else
    if r =? runeQuote then mkSplit args current true double escaped true
    else if r =? runeDouble then mkSplit args current single true escaped true
    else if r =? runeBackslash then mkSplit args current single double true true
    else if bool_decide (r ∈ [32; 9; 10; 13]) then flush st
    else writeRune st r single double.

Definition splitEnd (st : splitState) : list string :=
  let st := if st.(spEscaped) then mkSplit st.(spArgs) (st.(spCurrent) +:+ "\") st.(spSingle) st.(spDouble) st.(spEscaped) st.(spActive) else st in
  (flush st).(spArgs).

Definition Split (command : string) : list string :=
  splitEnd (foldl splitStep (mkSplit [] "" false false false false) (runes command).*1).

Example split_words : Split "sh  -c 'a b' x\ y" = ["sh"; "-c"; "a b"; "x y"].
Proof. reflexivity. Qed.

Example join_words : Join ["sh"; "-c"; ""; "it's"; "a b"] = "sh -c '' 'it'\''s' 'a b'".
Proof. reflexivity. Qed.

(** ** Text *)

(** The runes a UTF-8 text is made of. *)
Definition validRune (r : Z) : bool := between 0 r 55295 || between 57344 r 1114111.

Fixpoint textOf (rs : list Z) : string :=
  match rs with [] => "" | r :: rs => EncodeRune r +:+ textOf rs end.

Definition validText (rs : list Z) : Prop := Forall (λ r, validRune r = true) rs.

Lemma bval_bchr z : 0 ≤ z < 256 → bval (bchr z) = z.
Proof. intros H. unfold bval, bchr. rewrite N_ascii_embedding by lia. lia. Qed.

(** The four shapes of an encoded rune. *)
Lemma EncodeRune_cases r :
  validRune r = true →
  (0 ≤ r < 128 ∧ EncodeRune r = bytes [r]) ∨
  (128 ≤ r < 2048 ∧ EncodeRune r = bytes [192 + r / 64; 128 + r mod 64]) ∨
  (2048 ≤ r < 65536 ∧ ¬ (55296 ≤ r ≤ 57343) ∧ EncodeRune r = bytes [224 + r / 4096; 128 + (r / 64) mod 64; 128 + r mod 64]) ∨
  (65536 ≤ r ≤ 1114111 ∧ EncodeRune r = bytes [240 + r / 262144; 128 + (r / 4096) mod 64; 128 + (r / 64) mod 64; 128 + r mod 64]).
Proof.
  unfold validRune, EncodeRune, between. intros Hv. rewrite orb_true_iff, !andb_true_iff, !Z.leb_le in Hv.
  destruct (Z.ltb_spec r 0); [lia|]. destruct (Z.ltb_spec 1114111 r); [lia|].
  assert (((55296 <=? r) && (r <=? 57343)) = false) as ->.
  { apply not_true_iff_false. rewrite andb_true_iff, !Z.leb_le. lia. }
  cbn [orb]. destruct (Z.ltb_spec r 128); [left; split; [lia|done]|right].
  destruct (Z.ltb_spec r 2048); [left; split; [lia|done]|right].
  destruct (Z.ltb_spec r 65536); [left|right]; (split; [lia|]); [split; [lia|done]|done].
Qed.

(** A byte above ASCII. *)
Definition highBytes (l : list Z) : Prop := Forall (λ z, 128 ≤ z < 256) l.

Lemma EncodeRune_bytes r :
  validRune r = true → (0 ≤ r < 128 ∧ EncodeRune r = bytes [r]) ∨ (128 ≤ r ∧ ∃ l, EncodeRune r = bytes l ∧ highBytes l ∧ l ≠ []).
Proof.
  intros [H|[[H E]|[[H [_ E]]|[H E]]]]%EncodeRune_cases; [by left|right..]; (split; [lia|]); rewrite E; eexists; (split; [done|split; [|done]]);
    repeat (apply Forall_cons; split); try apply Forall_nil; try done; Z.to_euclidean_division_equations; lia.
Qed.

(** Decide the comparisons of a goal. *)
Ltac zdecide :=
  repeat match goal with
  | |- context [?a =? ?b] => destruct (Z.eqb_spec a b); [try (exfalso; lia)|try (exfalso; lia)]
  | |- context [?a <? ?b] => destruct (Z.ltb_spec a b); [try (exfalso; lia)|try (exfalso; lia)]
  | |- context [?a <=? ?b] => destruct (Z.leb_spec a b); [try (exfalso; lia)|try (exfalso; lia)]
  end; cbn [andb negb].

(** Decoding undoes encoding, whatever follows. *)
Lemma DecodeRune_EncodeRune r s : validRune r = true → DecodeRune (EncodeRune r +:+ s) = Some (r, String.length (EncodeRune r)).
Proof.
  intros [[H E]|[[H E]|[[H [Hs E]]|[H E]]]]%EncodeRune_cases; rewrite E; cbn [bytes fold_right String.length];
    rewrite ?string_app_cons, ?string_app_nil_l; unfold DecodeRune, secondRange, cont, between.
  - rewrite bval_bchr by lia. zdecide; done.
  - assert (2 ≤ r / 64 ≤ 31 ∧ 0 ≤ r mod 64 < 64 ∧ r = r / 64 * 64 + r mod 64) as (? & ? & Er) by (Z.to_euclidean_division_equations; lia).
    rewrite !bval_bchr by lia. repeat match goal with Hh : context [r / _] |- _ => revert Hh | Hh : context [r mod _] |- _ => revert Hh end. generalize (r / 64) (r mod 64). intros q m **. zdecide. do 2 f_equal. lia.
  - assert (0 ≤ r / 4096 ≤ 15 ∧ 0 ≤ (r / 64) mod 64 < 64 ∧ 0 ≤ r mod 64 < 64 ∧ r = r / 4096 * 4096 + (r / 64) mod 64 * 64 + r mod 64 ∧
      (r / 4096 = 0 → 32 ≤ (r / 64) mod 64) ∧ (r / 4096 = 13 → (r / 64) mod 64 < 32)) as (? & ? & ? & Er & ? & ?)
      by (Z.to_euclidean_division_equations; lia).
    rewrite !bval_bchr by lia. repeat match goal with Hh : context [r / _] |- _ => revert Hh | Hh : context [r mod _] |- _ => revert Hh end. generalize (r / 4096) ((r / 64) mod 64) (r mod 64). intros q n m **. zdecide; do 2 f_equal; lia.
  - assert (0 ≤ r / 262144 ≤ 4 ∧ 0 ≤ (r / 4096) mod 64 < 64 ∧ 0 ≤ (r / 64) mod 64 < 64 ∧ 0 ≤ r mod 64 < 64 ∧
      r = r / 262144 * 262144 + (r / 4096) mod 64 * 4096 + (r / 64) mod 64 * 64 + r mod 64 ∧
      (r / 262144 = 0 → 16 ≤ (r / 4096) mod 64) ∧ (r / 262144 = 4 → (r / 4096) mod 64 < 16)) as (? & ? & ? & ? & Er & ? & ?)
      by (Z.to_euclidean_division_equations; lia).
    rewrite !bval_bchr by lia. repeat match goal with Hh : context [r / _] |- _ => revert Hh | Hh : context [r mod _] |- _ => revert Hh end. generalize (r / 262144) ((r / 4096) mod 64) ((r / 64) mod 64) (r mod 64). intros q p n m **.
    zdecide; do 2 f_equal; lia.
Qed.

Lemma EncodeRune_nonempty r : validRune r = true → (0 < String.length (EncodeRune r))%nat.
Proof. intros [[_ ->]|[_ (l & -> & _ & Hl)]]%EncodeRune_bytes; [cbn; lia|]. destruct l; [done|]. cbn. lia. Qed.

(** The runes of a text are the runes it was made of. *)
Lemma runesLoop_text rs fuel : validText rs → (String.length (textOf rs) ≤ fuel)%nat → (runesLoop fuel (textOf rs)).*1 = rs.
Proof.
  revert fuel. induction rs as [|r rs IH]; intros fuel Hv Hf; [by destruct fuel|].
  apply Forall_cons in Hv as [Hr Hv]. cbn [textOf] in *. pose proof (EncodeRune_nonempty r Hr). rewrite length_string_app in Hf.
  destruct fuel as [|fuel]; [lia|]. cbn [runesLoop]. rewrite DecodeRune_EncodeRune by done. rewrite sdrop_app.
  rewrite fmap_cons. cbn [fst]. f_equal. apply IH; [done|lia].
Qed.

Lemma runes_text rs : validText rs → (runes (textOf rs)).*1 = rs.
Proof. intros Hv. by apply runesLoop_text. Qed.

Lemma textOf_app rs rs' : textOf (rs ++ rs') = textOf rs +:+ textOf rs'.
Proof. induction rs as [|r rs IH]; [done|]. cbn. by rewrite IH, string_app_assoc. Qed.

(** ** Quoting, by runes *)

Lemma ReplaceAll_app c new a b : ReplaceAll c new (a +:+ b) = ReplaceAll c new a +:+ ReplaceAll c new b.
Proof. induction a as [|x a IH]; [done|]. rewrite string_app_cons. cbn [ReplaceAll]. by rewrite IH, string_app_assoc. Qed.

Lemma ContainsAny_app set a b : ContainsAny set (a +:+ b) = ContainsAny set a || ContainsAny set b.
Proof. induction a as [|x a IH]; [done|]. rewrite string_app_cons. cbn [ContainsAny]. by rewrite IH, orb_assoc. Qed.

Lemma ReplaceAll_high c new l : bval c < 128 → highBytes l → ReplaceAll c new (bytes l) = bytes l.
Proof.
  intros Hc. induction 1 as [|z l Hz Hl IH]; [done|]. cbn [bytes fold_right ReplaceAll]. fold (bytes l). rewrite IH.
  destruct (Ascii.eqb_spec (bchr z) c) as [<-|]; [rewrite bval_bchr in Hc; lia|done].
Qed.

Lemma ContainsAny_high set l : Forall (λ z, z < 128) set → highBytes l → ContainsAny set (bytes l) = false.
Proof.
  intros Hs. rewrite Forall_forall in Hs. induction 1 as [|z l Hz Hl IH]; [done|]. cbn [bytes fold_right ContainsAny]. fold (bytes l). rewrite IH, orb_false_r.
  apply bool_decide_false. rewrite bval_bchr by lia. intros Hin%Hs. lia.
Qed.

Lemma ascii_code c z : 0 ≤ z < 128 → Ascii.eqb (bchr z) c = (z =? bval c).
Proof.
  intros Hz. destruct (Ascii.eqb_spec (bchr z) c) as [<-|Hne]; [by rewrite bval_bchr, Z.eqb_refl by lia|].
  symmetry. apply Z.eqb_neq. intros ->. apply Hne. unfold bchr, bval. rewrite N2Z.id. apply ascii_N_embedding.
Qed.

(** The body of a quoted argument: a quote is written as the four runes that
    close the literal, write an escaped quote and open it again. *)
Definition quoteRune (r : Z) : list Z := if r =? runeQuote then [39; 92; 39; 39] else [r].

Lemma ReplaceAll_text rs : validText rs → ReplaceAll "'" "'\''" (textOf rs) = textOf (concat (quoteRune <$> rs)).
Proof.
  induction 1 as [|r rs Hr Hv IH]; [done|]. cbn [textOf fmap list_fmap concat]. rewrite ReplaceAll_app, textOf_app, IH. f_equal.
  unfold quoteRune, runeQuote. destruct (EncodeRune_bytes r Hr) as [[Hb E]|[Hb (l & E & Hl & _)]]; rewrite E.
  - cbn [bytes fold_right ReplaceAll]. rewrite ascii_code by done. change (bval "'") with 39.
    destruct (Z.eqb_spec r 39) as [->|]; [done|]. cbn [textOf]. rewrite E. done.
  - rewrite ReplaceAll_high by done. destruct (Z.eqb_spec r 39); [lia|]. cbn [textOf]. by rewrite E, string_app_nil_r.
Qed.

Lemma ContainsAny_text set rs :
  Forall (λ z, 0 ≤ z < 128) set → validText rs → ContainsAny set (textOf rs) = existsb (λ r, bool_decide (r ∈ set)) rs.
Proof.
  intros Hs. induction 1 as [|r rs Hr Hv IH]; [done|]. cbn [textOf existsb]. rewrite ContainsAny_app, IH. f_equal.
  destruct (EncodeRune_bytes r Hr) as [[Hb E]|[Hb (l & E & Hl & _)]]; rewrite E.
  - cbn [bytes fold_right ContainsAny]. by rewrite orb_false_r, bval_bchr by lia.
  - rewrite ContainsAny_high; [|eapply Forall_impl; [exact Hs|]; cbn; lia|done]. symmetry. apply bool_decide_false.
    rewrite Forall_forall in Hs. intros Hin%Hs. lia.
Qed.

Lemma textOf_empty rs : validText rs → textOf rs = "" → rs = [].
Proof.
  intros Hv He. destruct rs as [|r rs]; [done|]. apply Forall_cons in Hv as [Hr _]. pose proof (EncodeRune_nonempty r Hr) as Hn.
  cbn in He. apply (f_equal String.length) in He. rewrite length_string_app in He. cbn in He. lia.
Qed.

(** The runes [Join] writes for one argument. *)
Definition partRunes (rs : list Z) : list Z :=
  match rs with
  | [] => [39; 39]
  | _ => if existsb (λ r, bool_decide (r ∈ metacharacters)) rs then 39 :: concat (quoteRune <$> rs) ++ [39] else rs
  end.

Lemma joinPart_text rs : validText rs → joinPart (textOf rs) = textOf (partRunes rs).
Proof.
  intros Hv. unfold joinPart. case_bool_decide as He; [by rewrite (textOf_empty rs Hv He)|].
  rewrite ContainsAny_text by (done || (unfold metacharacters; repeat (apply Forall_cons; split; [lia|]); by apply Forall_nil)).
  destruct rs as [|r rs]; [done|]. unfold partRunes. destruct (existsb _ (r :: rs)); [|done].
  unfold Quote. rewrite ReplaceAll_text by done. cbn [textOf]. rewrite textOf_app. reflexivity.
Qed.

Lemma validText_part rs : validText rs → validText (partRunes rs).
Proof.
  intros Hv. unfold partRunes. destruct rs as [|r rs]; [by repeat (apply Forall_cons; split)|]. destruct (existsb _ _); [|done].
  apply Forall_cons. split; [done|]. apply Forall_app. split; [|by apply Forall_cons; split; [|apply Forall_nil]].
  revert Hv. generalize (r :: rs). induction 1 as [|x l Hx Hl IH]; [by apply Forall_nil|]. cbn. apply Forall_app. split; [|done].
  unfold quoteRune. destruct (x =? runeQuote); by repeat (apply Forall_cons; split).
Qed.

(** The runes of a joined command. *)
Fixpoint joinRunes (args : list (list Z)) : list Z :=
  match args with
  | [] => []
  | [a] => partRunes a
  | a :: args => partRunes a ++ 32 :: joinRunes args
  end.

Lemma Join_text args : Forall validText args → Join (textOf <$> args) = textOf (joinRunes args) ∧ validText (joinRunes args).
Proof.
  unfold Join. induction 1 as [|a args Ha Hall IH]; [split; [done|by apply Forall_nil]|].
  destruct args as [|b args].
  - cbn [fmap list_fmap String.concat joinRunes]. rewrite joinPart_text by done. split; [done|by apply validText_part].
  - destruct IH as [IH Hv]. change (joinRunes (a :: b :: args)) with (partRunes a ++ 32 :: joinRunes (b :: args)). rewrite textOf_app. split.
    + cbn [textOf]. rewrite <-IH. rewrite <-joinPart_text by done. reflexivity.
    + apply Forall_app. split; [by apply validText_part|]. apply Forall_cons. split; [done|exact Hv].
Qed.

(** ** Splitting what was joined *)

Lemma split_single rs A c :
  foldl splitStep (mkSplit A c true false false true) (concat (quoteRune <$> rs)) = mkSplit A (c +:+ textOf rs) true false false true.
Proof.
  revert c. induction rs as [|r rs IH]; intros c; [cbn; by rewrite string_app_nil_r|].
  cbn [fmap list_fmap concat textOf]. rewrite foldl_app, <-string_app_assoc, <-IH. f_equal.
  unfold quoteRune. destruct (Z.eqb_spec r runeQuote) as [->|Hne]; [done|].
  cbn. rewrite (proj2 (Z.eqb_neq r runeQuote)) by done. done.
Qed.

Lemma split_plain rs A c active :
  existsb (λ r, bool_decide (r ∈ metacharacters)) rs = false →
  foldl splitStep (mkSplit A c false false false active) rs =
  mkSplit A (c +:+ textOf rs) false false false (match rs with [] => active | _ => true end).
Proof.
  revert c active. induction rs as [|r rs IH]; intros c active; [cbn; by rewrite string_app_nil_r|].
  cbn [existsb foldl textOf]. intros [Hr Hrs]%orb_false_iff. apply bool_decide_eq_false in Hr.
  assert (∀ z, z ∈ metacharacters → (r =? z) = false) as Hz by (intros z Hin; apply Z.eqb_neq; by intros ->).
  unfold splitStep. rewrite !Hz by (unfold metacharacters, runeQuote, runeDouble, runeBackslash; set_solver).
  rewrite (bool_decide_false (r ∈ _)) by (intros Hin; apply Hr; unfold metacharacters; set_solver).
  fold splitStep. unfold writeRune. cbn [spArgs spCurrent]. rewrite IH by done. rewrite string_app_assoc. by destruct rs.
Qed.

Lemma split_part rs A :
  foldl splitStep (mkSplit A "" false false false false) (partRunes rs) = mkSplit A (textOf rs) false false false true.
Proof.
  unfold partRunes. destruct rs as [|r rs]; [done|]. destruct (existsb _ (r :: rs)) eqn:Em.
  - cbn [foldl]. change (splitStep _ 39) with (mkSplit A "" true false false true). rewrite foldl_app, split_single. done.
  - by rewrite split_plain.
Qed.

Lemma split_joined args A :
  splitEnd (foldl splitStep (mkSplit A "" false false false false) (joinRunes args)) = A ++ (textOf <$> args).
Proof.
  revert A. induction args as [|a args IH]; intros A; [cbn; by rewrite app_nil_r|]. destruct args as [|b args].
  - cbn [joinRunes]. by rewrite split_part.
  - change (joinRunes (a :: b :: args)) with (partRunes a ++ 32 :: joinRunes (b :: args)). rewrite foldl_app, split_part. cbn [foldl].
    change (splitStep _ 32) with (mkSplit (A ++ [textOf a]) "" false false false false). rewrite IH. by rewrite <-app_assoc.
Qed.

(** C37 Splitting undoes joining: whatever the arguments hold (blanks, quotes,
    backslashes, nothing at all), as long as they are UTF-8 text, the argument
    vector read back from the joined command is the one it was made of. *)
Theorem split_join args : Forall validText args → Split (Join (textOf <$> args)) = textOf <$> args.
Proof.
  intros Hv. destruct (Join_text args Hv) as [-> Hj]. unfold Split. rewrite runes_text by done. apply (split_joined args []).
Qed.

Lemma split_join_witness :
  Forall validText [[105; 116; 39; 115]; []; [97; 32; 8364]] ∧
  Split (Join (textOf <$> [[105; 116; 39; 115]; []; [97; 32; 8364]])) = textOf <$> [[105; 116; 39; 115]; []; [97; 32; 8364]].
Proof.
  assert (Forall validText [[105; 116; 39; 115]; []; [97; 32; 8364]]) as H by (repeat (apply Forall_cons; split; [repeat (apply Forall_cons; split; [done|]); by apply Forall_nil|]); by apply Forall_nil).
  split; [exact H|exact (split_join _ H)].
Defined.

(** Outside UTF-8 the trip loses the byte: it comes back as the replacement
    rune. *)
Example split_join_invalid : Split (Join [bytes [255]]) = [bytes [239; 191; 189]].
Proof. reflexivity. Qed.
