(* ===== verification/TaskAttempt.v ===== *)
(** * TaskAttempt: one native start per task

    Models [internal/taskattempt/attempt.go]: the opt-in record on a work bead
    that lets one session be created and one provider start be made for it.  The
    record is JSON text in one metadata key, moved by compare-and-set; the
    encoder of [encoding/json] is written out for the record, the decoder is a
    parameter ([read] re-encodes what it decoded and compares). *)

From Stdlib Require Import Ascii.
From S2P Require Import Prelude GoBase GoText Beads MemStore AgentConfig.

Local Open Scope Z_scope.

Definition NativeAttemptMetadataKey : string := "gc.native_task_attempt".

Record attemptRecord := mkAttempt {
  arSchema : string;
  arStoreRef : string;
  arBeadID : string;
  arTemplate : string;
  arLimit : Z;
  arState : string;
  arToken : string;
  arSessionID : string
}.

(** ** The encoder *)

Definition dquote : ascii := ascii_of_N 34.
Definition backslash : ascii := ascii_of_N 92.
Definition quoteText : string := String dquote "".

Definition hexDigit (n : Z) : ascii := bchr (if n <? 10 then 48 + n else 87 + n).

(** One rune of a JSON string with the bytes it was read from. *)
Definition escapeRune (rb : Z * string) : string :=
  let '(r, b) := rb in
  if r <? 128 then
    if (r =? 34) || (r =? 92) then String backslash b
    else if r =? 8 then "\b" else if r =? 12 then "\f" else if r =? 10 then "\n" else if r =? 13 then "\r" else if r =? 9 then "\t"
    else if (r <? 32) || (r =? 60) || (r =? 62) || (r =? 38)
      then "\u00" +:+ String (hexDigit (r / 16)) (String (hexDigit (r mod 16)) "")
    else b
  else if (r =? RuneError) && (String.length b =? 1)%nat then "\ufffd"
  else if (r =? 8232) || (r =? 8233) then "\u202" +:+ String (hexDigit (r mod 16)) ""
  else b.

Definition escapeString (s : string) : string := fold_right (λ rb acc, escapeRune rb +:+ acc) "" (runes s).

Definition jsonString (s : string) : string := quoteText +:+ escapeString s +:+ quoteText.
Definition jsonKey (k : string) : string := quoteText +:+ k +:+ quoteText +:+ ":".

Definition encode (r : attemptRecord) : string :=
  "{" +:+ jsonKey "schema" +:+ jsonString r.(arSchema) +:+ "," +:+ jsonKey "store_ref" +:+ jsonString r.(arStoreRef) +:+
  "," +:+ jsonKey "bead_id" +:+ jsonString r.(arBeadID) +:+ "," +:+ jsonKey "template" +:+ jsonString r.(arTemplate) +:+
  "," +:+ jsonKey "limit" +:+ Itoa r.(arLimit) +:+ "," +:+ jsonKey "state" +:+ jsonString r.(arState) +:+
  (if r.(arToken) != "" then "," +:+ jsonKey "token" +:+ jsonString r.(arToken) else "") +:+
  (if r.(arSessionID) != "" then "," +:+ jsonKey "session_id" +:+ jsonString r.(arSessionID) else "") +:+ "}".

(** [json.Unmarshal] into the record; [None] is an error. *)
Class AttemptDecoder := { unmarshal : string → option attemptRecord }.

(** ** Identity and policy *)

Definition attemptSchema : string := "gc.native-task-attempt.v1".

Definition validScope (ref id template : string) : bool :=
  let '(kind, name, ok) := Cut ref ":" in
  ok && ((kind == "city") || (kind == "rig")) && (name != "") && (TrimSpace ref == ref) && (id != "") && (TrimSpace id == id) &&
  (template != "") && (TrimSpace template == template).

(** Refusals wrap [ErrRefused]; the text after it is a constructor. *)
Inductive Refusal :=
| IncompleteIdentity | ReadFailed (e : StoreError) | BadPolicy | BadState | CASFailed (e : StoreError) | AlreadySpent
| AlreadyReserved | NotStartable.

Definition Request (ref id template : string) : res Refusal string :=
  if negb (validScope ref id template) then Err IncompleteIdentity
  else Ok (encode (mkAttempt attemptSchema ref id template 1 "requested" "" "")).

(** [hex.DecodeString] gives sixteen bytes. *)
Definition isHex (c : ascii) : bool :=
  let z := bval c in between 48 z 57 || between 97 z 102 || between 65 z 70.

Fixpoint allHex (s : string) : bool := match s with EmptyString => true | String c r => isHex c && allHex r end.

Definition isToken (s : string) : bool := allHex s && (String.length s =? 32)%nat.

Definition hexNibbles (b : Z) : string := String (hexDigit (b / 16)) (String (hexDigit (b mod 16)) "").

(** [hex.EncodeToString]. *)
Definition EncodeToString (nonce : list Z) : string := fold_right (λ b acc, hexNibbles b +:+ acc) "" nonce.

Section attempt.
Context `{AttemptDecoder}.

(** The record with its text, when the bead carries one; both outcomes of a bad
    record are errors. *)
Definition read (m : MemStore) (id ref template : string) : res Refusal (option (attemptRecord * string)) :=
  match Get m id with
  | Err e => Err (ReadFailed e)
  | Ok b =>
      match b.(bMetadata) !! NativeAttemptMetadataKey with
      | None => Ok None
      | Some raw =>
          if (4096 <? String.length raw)%nat then Err BadPolicy
          else match unmarshal raw with
          | None => Err BadPolicy
          | Some r =>
              if (encode r != raw) || (r.(arSchema) != attemptSchema) || negb (r.(arLimit) =? 1) || negb (validScope ref id template) ||
                 (r.(arStoreRef) != ref) || (r.(arBeadID) != id) || (b.(bID) != id) || (r.(arTemplate) != template)
              then Err BadPolicy
              else if r.(arState) == "requested" then
                if (r.(arToken) == "") && (r.(arSessionID) == "") then Ok (Some (r, raw)) else Err BadState
              else if (r.(arState) == "reserved") || (r.(arState) == "started") then
                if isToken r.(arToken) &&
                   (((r.(arState) == "reserved") && (r.(arSessionID) == "")) || ((r.(arState) == "started") && (r.(arSessionID) != "")))
                then Ok (Some (r, raw)) else Err BadState
              else Err BadState
          end
      end
  end.

Definition swap (now : Z) (id before : string) (after : attemptRecord) (m : MemStore) : res Refusal unit * MemStore :=
  match CompareAndSetMetadataKey now id NativeAttemptMetadataKey before (encode after) m with
  | (Err e, m) => (Err (CASFailed e), m)
  | (Ok false, m) => (Err AlreadySpent, m)
  | (Ok true, m) => (Ok (), m)
  end.

Definition reserved (r : attemptRecord) (token : string) : attemptRecord :=
  mkAttempt r.(arSchema) r.(arStoreRef) r.(arBeadID) r.(arTemplate) r.(arLimit) "reserved" token r.(arSessionID).

Definition started (r : attemptRecord) (sessionID : string) : attemptRecord :=
  mkAttempt r.(arSchema) r.(arStoreRef) r.(arBeadID) r.(arTemplate) r.(arLimit) "started" r.(arToken) sessionID.

(** Between the read and the swap: what to swap, nothing to do, or a refusal. *)
Definition reserveRead (m : MemStore) (id ref template : string) : res Refusal (option (attemptRecord * string)) :=
  match read m id ref template with
  | Err e => Err e
  | Ok None => Ok None
  | Ok (Some (r, raw)) => if r.(arState) != "requested" then Err AlreadyReserved else Ok (Some (r, raw))
  end.

(** The empty token is the answer for a task without a policy. *)
Definition Reserve (now : Z) (nonce : list Z) (id ref template : string) (m : MemStore) : res Refusal string * MemStore :=
  match reserveRead m id ref template with
  | Err e => (Err e, m)
  | Ok None => (Ok "", m)
  | Ok (Some (r, raw)) =>
      let token := EncodeToString nonce in
      match swap now id raw (reserved r token) m with
      | (Err e, m) => (Err e, m)
      | (Ok _, m) => (Ok token, m)
      end
  end.

Definition startRead (m : MemStore) (id ref template token sessionID : string) : res Refusal (option (attemptRecord * string)) :=
  match read m id ref template with
  | Err e => Err e
  | Ok None => if token == "" then Ok None else Err NotStartable
  | Ok (Some (r, raw)) =>
      if (r.(arState) != "reserved") || (token == "") || (r.(arToken) != token) || (sessionID == "") then Err NotStartable
      else Ok (Some (r, raw))
  end.

Definition Start (now : Z) (id ref template token sessionID : string) (m : MemStore) : res Refusal unit * MemStore :=
  match startRead m id ref template token sessionID with
  | Err e => (Err e, m)
  | Ok None => (Ok (), m)
  | Ok (Some (r, raw)) => swap now id raw (started r sessionID) m
  end.
End attempt.
