(* ===== verification/TaskAttemptProps.v ===== *)
(** * TaskAttemptProps: at most one native start

    The text of a record determines its state, so compare-and-set on the text is
    compare-and-set on the state; from any interleaving of readers and writers
    of one task, at most one reservation is handed out and at most one start is
    authorised. *)

From Stdlib Require Import Ascii.
From S2P Require Import Prelude GoBase GoText ConvMetaProps Beads MemStore MemStoreProps AgentConfig TaskAttempt.

Local Open Scope Z_scope.

(** ** JSON strings end where they end *)

(** The text after the closing quote of a string. *)
Fixpoint stringEnd (s : string) : string :=
  match s with
  | EmptyString => ""
  | String c r =>
      if Ascii.eqb c dquote then r
      else if Ascii.eqb c backslash then match r with String _ r' => stringEnd r' | EmptyString => "" end
      else stringEnd r
  end.

(** Bytes that neither end a string nor start an escape. *)
Fixpoint plain (s : string) : bool :=
  match s with EmptyString => true | String c r => negb (Ascii.eqb c dquote) && negb (Ascii.eqb c backslash) && plain r end.

Lemma stringEnd_plain p u : plain p = true → stringEnd (p +:+ u) = stringEnd u.
Proof.
  induction p as [|c p IH]; [done|]. cbn [plain]. intros [[H1 H2]%andb_true_iff H3]%andb_true_iff. rewrite string_app_cons. cbn [stringEnd].
  apply negb_true_iff in H1, H2. rewrite H1, H2. auto.
Qed.

Lemma stringEnd_escaped c p u : plain p = true → stringEnd (String backslash (String c p) +:+ u) = stringEnd u.
Proof. intros Hp. rewrite !string_app_cons. change (stringEnd (p +:+ u) = stringEnd u). by apply stringEnd_plain. Qed.

Lemma bval_range c : 0 ≤ bval c < 256.
Proof. unfold bval. pose proof (N_ascii_bounded c). lia. Qed.

Fixpoint allHigh (s : string) : bool := match s with EmptyString => true | String c r => (128 <=? bval c) && allHigh r end.

Lemma allHigh_plain s : allHigh s = true → plain s = true.
Proof.
  induction s as [|c s IH]; [done|]. cbn [plain allHigh]. intros [Hc Hs]%andb_true_iff. rewrite IH by done. apply Z.leb_le in Hc.
  destruct (Ascii.eqb_spec c dquote) as [->|]; [change (bval dquote) with 34 in Hc; lia|].
  destruct (Ascii.eqb_spec c backslash) as [->|]; [change (bval backslash) with 92 in Hc; lia|done].
Qed.

(** A decoded rune is one ASCII byte, an invalid byte, or high bytes only. *)
Lemma DecodeRune_bytes s r w :
  DecodeRune s = Some (r, w) →
  (∃ c t, s = String c t ∧ r = bval c ∧ r < 128 ∧ w = 1%nat) ∨ (r = RuneError ∧ w = 1%nat) ∨ (128 ≤ r ∧ allHigh (stake w s) = true).
Proof.
  destruct s as [|c0 r0]; [done|]. unfold DecodeRune, cont. destruct (secondRange (bval c0)) as [lo hi] eqn:Es.
  assert (128 ≤ lo ∧ (bval c0 = 224 → 160 ≤ lo) ∧ (bval c0 = 240 → 144 ≤ lo)) as (Hlo & H224 & H240).
  { unfold secondRange in Es. revert Es. destruct (Z.eqb_spec (bval c0) 224), (Z.eqb_spec (bval c0) 237), (Z.eqb_spec (bval c0) 240),
      (Z.eqb_spec (bval c0) 244); intros [= <- _]; lia. }
  assert (∀ z a b, between a z b = true → 128 ≤ a → (128 <=? z) = true ∧ a ≤ z) as Hb.
  { unfold between. intros z a b [Ha%Z.leb_le _]%andb_true_iff ?. split; [apply Z.leb_le|]; lia. }
  destruct (Z.ltb_spec (bval c0) 128); [intros [= <- <-]; left; by exists c0, r0|].
  destruct (between 194 (bval c0) 244) eqn:E0; cbn [negb]; [|intros [= <- <-]; auto]. apply Hb in E0 as [L0 E0]; [|lia].
  destruct r0 as [|c1 r1]; [intros [= <- <-]; auto|].
  destruct (between lo (bval c1) hi) eqn:E1; cbn [negb]; [|intros [= <- <-]; auto]. apply Hb in E1 as [L1 E1]; [|done].
  destruct (Z.ltb_spec (bval c0) 224); [intros [= <- <-]; right; right; split; [lia|]; cbn; by rewrite L0, L1|].
  destruct r1 as [|c2 r2]; [intros [= <- <-]; auto|].
  destruct (between 128 (bval c2) 191) eqn:E2; cbn [negb]; [|intros [= <- <-]; auto]. apply Hb in E2 as [L2 E2]; [|done].
  destruct (Z.ltb_spec (bval c0) 240).
  { intros [= <- <-]. right; right. split; [|cbn; by rewrite L0, L1, L2]. destruct (Z.eq_dec (bval c0) 224); lia. }
  destruct r2 as [|c3 r3]; [intros [= <- <-]; auto|].
  destruct (between 128 (bval c3) 191) eqn:E3; cbn [negb]; [|intros [= <- <-]; auto]. apply Hb in E3 as [L3 E3]; [|done].
  intros [= <- <-]. right; right. split; [|cbn; by rewrite L0, L1, L2, L3]. destruct (Z.eq_dec (bval c0) 240); lia.
Qed.

(** The shape of every entry of [runes]. *)
Definition runeShape (rb : Z * string) : Prop :=
  (∃ c, rb = (bval c, String c "") ∧ bval c < 128) ∨ (rb.1 = RuneError ∧ (String.length rb.2 ≤ 1)%nat) ∨ (128 ≤ rb.1 ∧ allHigh rb.2 = true).

Lemma stake_length n s : (String.length (stake n s) ≤ n)%nat.
Proof. revert n. induction s as [|c s IH]; intros [|n]; cbn; try lia. specialize (IH n). lia. Qed.

Lemma runesLoop_shape fuel s : Forall runeShape (runesLoop fuel s).
Proof.
  revert s. induction fuel as [|fuel IH]; intros s; cbn [runesLoop]; [by apply Forall_nil|].
  destruct (DecodeRune s) as [[r w]|] eqn:E; [|by apply Forall_nil]. apply Forall_cons. split; [|apply IH].
  apply DecodeRune_bytes in E as [(c & t & -> & -> & Hc & ->)|[[-> ->]|[Hr Hh]]].
  - left. exists c. cbn. by destruct t.
  - right; left. split; [done|]. apply stake_length.
  - right; right. done.
Qed.

Lemma hexDigit_plain n : 0 ≤ n < 16 → Ascii.eqb (hexDigit n) dquote = false ∧ Ascii.eqb (hexDigit n) backslash = false.
Proof.
  intros Hn. assert (n = 0 ∨ n = 1 ∨ n = 2 ∨ n = 3 ∨ n = 4 ∨ n = 5 ∨ n = 6 ∨ n = 7 ∨ n = 8 ∨ n = 9 ∨ n = 10 ∨ n = 11 ∨ n = 12 ∨ n = 13 ∨ n = 14 ∨ n = 15)
    as Hc by lia. repeat (destruct Hc as [->|Hc]; [done|]). by subst n.
Qed.

(** Every escaped rune is skipped whole. *)
Lemma stringEnd_rune rb u : runeShape rb → stringEnd (escapeRune rb +:+ u) = stringEnd u.
Proof.
  destruct rb as [r b]. intros Hs. unfold escapeRune. destruct Hs as [(c & [= -> ->] & Hc)|Hs]; cbn [fst snd] in *.
  - pose proof (bval_range c) as Hb. rewrite (proj2 (Z.ltb_lt _ _) Hc).
    destruct ((bval c =? 34) || (bval c =? 92)) eqn:E1; [by apply (stringEnd_escaped c "")|].
    destruct (bval c =? 8); [done|]. destruct (bval c =? 12); [done|]. destruct (bval c =? 10); [done|].
    destruct (bval c =? 13); [done|]. destruct (bval c =? 9); [done|].
    destruct ((bval c <? 32) || (bval c =? 60) || (bval c =? 62) || (bval c =? 38)).
    + destruct (hexDigit_plain (bval c / 16)) as [A1 A2]; [Z.to_euclidean_division_equations; lia|].
      destruct (hexDigit_plain (bval c mod 16)) as [B1 B2]; [Z.to_euclidean_division_equations; lia|].
      apply (stringEnd_escaped "u" (String "0" (String "0" (String (hexDigit (bval c / 16)) (String (hexDigit (bval c mod 16)) ""))))).
      cbn [plain]. by rewrite A1, A2, B1, B2.
    + apply stringEnd_plain. cbn [plain]. apply orb_false_iff in E1 as [N1 N2]. apply Z.eqb_neq in N1, N2.
      destruct (Ascii.eqb_spec c dquote) as [->|]; [done|]. by destruct (Ascii.eqb_spec c backslash) as [->|].
  - assert (128 ≤ r) as Hr by (destruct Hs as [[-> _]|[? _]]; [unfold RuneError|]; lia).
    destruct (Z.ltb_spec r 128); [lia|]. destruct ((r =? RuneError) && (String.length b =? 1)%nat) eqn:E1; [done|].
    destruct ((r =? 8232) || (r =? 8233)).
    + destruct (hexDigit_plain (r mod 16)) as [B1 B2]; [Z.to_euclidean_division_equations; lia|].
      apply (stringEnd_escaped "u" (String "2" (String "0" (String "2" (String (hexDigit (r mod 16)) ""))))). cbn [plain]. by rewrite B1, B2.
    + apply stringEnd_plain. destruct Hs as [[-> Hl]|[_ Hh]]; [|by apply allHigh_plain].
      rewrite Z.eqb_refl in E1. cbn [andb] in E1. apply Nat.eqb_neq in E1. destruct b as [|c [|]]; [done|done|]. cbn in Hl. lia.
Qed.

Lemma stringEnd_escape s u : stringEnd (escapeString s +:+ String dquote u) = u.
Proof.
  unfold escapeString, runes. pose proof (runesLoop_shape (String.length s) s) as Hs. revert Hs.
  generalize (runesLoop (String.length s) s). induction 1 as [|rb l Hr Hl IH]; [done|].
  cbn [fold_right]. rewrite string_app_assoc, stringEnd_rune by done. done.
Qed.

(** A JSON string and what follows it are determined by their text. *)
Lemma jsonString_inj a b t u : jsonString a +:+ t = jsonString b +:+ u → jsonString a = jsonString b ∧ t = u.
Proof.
  unfold jsonString, quoteText. rewrite !string_app_assoc, !string_app_cons, !string_app_nil_l. intros [= E].
  assert (t = u) as ->.
  { rewrite <-(stringEnd_escape a t), <-(stringEnd_escape b u). f_equal. exact E. }
  split; [|done]. apply string_app_inj_r in E. by rewrite E.
Qed.

(** The text of a record with the limit of one determines the text of its state. *)
Lemma encode_state r r' :
  r.(arLimit) = 1 → r'.(arLimit) = 1 → encode r = encode r' → jsonString r.(arState) = jsonString r'.(arState).
Proof.
  unfold encode. intros -> ->.
  intros E%(inj (String.app "{"))%(inj (String.app (jsonKey "schema"))).
  apply jsonString_inj in E as [_ E%(inj (String.app ","))%(inj (String.app (jsonKey "store_ref")))].
  apply jsonString_inj in E as [_ E%(inj (String.app ","))%(inj (String.app (jsonKey "bead_id")))].
  apply jsonString_inj in E as [_ E%(inj (String.app ","))%(inj (String.app (jsonKey "template")))].
  apply jsonString_inj in E as [_ E%(inj (String.app ","))%(inj (String.app (jsonKey "limit")))%(inj (String.app (Itoa 1)))].
  apply (inj (String.app ",")), (inj (String.app (jsonKey "state"))) in E. by apply jsonString_inj in E as [E _].
Qed.

(** ** Phases *)

Definition attemptStates : list string := ["requested"; "reserved"; "started"].

(** A text in one of the three states. *)
Definition phase (v st : string) : Prop := st ∈ attemptStates ∧ ∃ r, encode r = v ∧ r.(arLimit) = 1 ∧ r.(arState) = st.

Lemma phase_unique v st st' : phase v st → phase v st' → st = st'.
Proof.
  intros [Hs (r & Hr & Hl & He)] [Hs' (r' & Hr' & Hl' & He')].
  assert (jsonString st = jsonString st') as Hj by (rewrite <-He, <-He'; apply encode_state; congruence). clear -Hs Hs' Hj.
  unfold attemptStates in *. rewrite !elem_of_cons, elem_of_nil in Hs, Hs'.
  destruct Hs as [->|[->|[->|[]]]], Hs' as [->|[->|[->|[]]]]; try done; vm_compute in Hj; done.
Qed.

(** The record text of a bead. *)
Definition attemptText (m : MemStore) (id : string) : option string := b ← lookupBead m id; b.(bMetadata) !! NativeAttemptMetadataKey.

Section attempts.
Context `{AttemptDecoder}.

Lemma read_Some m id ref template r raw :
  read m id ref template = Ok (Some (r, raw)) →
  encode r = raw ∧ r.(arLimit) = 1 ∧ attemptText m id = Some raw ∧ r.(arState) ∈ attemptStates.
Proof.
  unfold read, attemptText. rewrite Get_lookup. destruct (lookupBead m id) as [b|]; [|done]. cbn [mbind option_bind].
  destruct (bMetadata b !! NativeAttemptMetadataKey) as [raw'|]; [|done]. destruct (4096 <? String.length raw')%nat; [done|].
  destruct (unmarshal raw') as [r'|]; [|done]. destruct (_ || _) eqn:E; [done|].
  repeat (apply orb_false_iff in E as [E ?]). apply negb_false_iff, bool_decide_eq_true in E.
  intros Hr. assert (r' = r ∧ raw' = raw ∧ r'.(arState) ∈ attemptStates) as (-> & -> & Hst).
  { assert (∀ c : bool, (if c then Ok (Some (r', raw')) else Err BadState) = Ok (Some (r, raw)) → r' = r ∧ raw' = raw) as Hi
      by (intros []; [by intros [= -> ->]|done]).
    unfold attemptStates. destruct (decide (arState r' = "requested")) as [K1|K1].
    - rewrite (bool_decide_true (arState r' = "requested")) in Hr by done. apply Hi in Hr as [-> ->]. rewrite K1. set_solver.
    - rewrite (bool_decide_false (arState r' = "requested")) in Hr by done.
      destruct ((arState r' == "reserved") || (arState r' == "started")) eqn:K2; [|done]. apply Hi in Hr as [-> ->].
      apply orb_true_iff in K2 as [K2%bool_decide_eq_true|K2%bool_decide_eq_true]; rewrite K2; set_solver. }
  split; [done|]. split; [|done]. match goal with Hx : negb (arLimit _ =? 1) = false |- _ => apply negb_false_iff, Z.eqb_eq in Hx; done end.
Qed.

Lemma reserveRead_Some m id ref template r raw :
  reserveRead m id ref template = Ok (Some (r, raw)) → encode r = raw ∧ r.(arLimit) = 1 ∧ r.(arState) = "requested".
Proof.
  unfold reserveRead. destruct (read m id ref template) as [[[r' raw']|]|] eqn:E; [|done..].
  case_bool_decide as Hs; cbn [negb]; [|done]. intros [= -> ->]. apply read_Some in E as (? & ? & _). done.
Qed.

Lemma startRead_Some m id ref template token session r raw :
  startRead m id ref template token session = Ok (Some (r, raw)) → encode r = raw ∧ r.(arLimit) = 1 ∧ r.(arState) = "reserved".
Proof.
  unfold startRead. destruct (read m id ref template) as [[[r' raw']|]|] eqn:E; [|by destruct (token == "")|done].
  case_bool_decide as Hs; cbn [negb orb]; [|done]. destruct (_ || _); [done|]. intros [= -> ->]. apply read_Some in E as (? & ? & _). done.
Qed.

(** A swap that succeeds found the text it expected and leaves the new one. *)
Lemma swap_Ok now id before after m m' :
  NoDup (bID <$> m.(msBeads)) → before ≠ "" → swap now id before after m = (Ok (), m') →
  attemptText m id = Some before ∧ attemptText m' id = Some (encode after) ∧ bID <$> m'.(msBeads) = bID <$> m.(msBeads).
Proof.
  intros Hnd Hne. unfold swap, CompareAndSetMetadataKey. destruct (DisableConditionalWrites m); [done|].
  destruct (indexOfLocked m id) as [[i b]|] eqn:E; [|done]. case_bool_decide as Hb; cbn [negb]; [|done]. intros [= <-].
  unfold attemptText. rewrite (lookupBead_putAt m id i b) by done. rewrite decide_True by done.
  unfold lookupBead. rewrite E. cbn [fmap option_fmap option_map snd mbind option_bind].
  split; [|split; [apply lookup_insert_eq|by apply (putAt_ids m id i b)]].
  destruct (bMetadata b !! NativeAttemptMetadataKey) as [v|] eqn:Ev; unfold mget in Hb; rewrite Ev in Hb; cbn in Hb; congruence.
Qed.

(** ** Any number of callers *)

(** A caller between its read and its swap. *)
Inductive Pending :=
| PendingReserve (r : attemptRecord) (raw token : string)
| PendingStart (r : attemptRecord) (raw session : string).

(** The store, the callers between their two steps, the tokens handed out and
    the sessions authorised to start. *)
Record AttemptSys := mkSys {
  sysStore : MemStore;
  sysPending : list Pending;
  sysReserved : list string;
  sysStarted : list string
}.

(** One step of one caller; another caller may act between any two of them, a
    caller may stop for good after its read, and anything else may happen to the
    store as long as it leaves the record of the task alone. *)
Inductive sysStep (id : string) : AttemptSys → AttemptSys → Prop :=
| step_reserve_read m ps rs ss ref template nonce r raw :
    reserveRead m id ref template = Ok (Some (r, raw)) →
    sysStep id (mkSys m ps rs ss) (mkSys m (PendingReserve r raw (EncodeToString nonce) :: ps) rs ss)
| step_start_read m ps rs ss ref template token session r raw :
    startRead m id ref template token session = Ok (Some (r, raw)) →
    sysStep id (mkSys m ps rs ss) (mkSys m (PendingStart r raw session :: ps) rs ss)
| step_reserve_swap m ps qs rs ss now r raw token out m' :
    swap now id raw (reserved r token) m = (out, m') →
    sysStep id (mkSys m (ps ++ PendingReserve r raw token :: qs) rs ss)
      (mkSys m' (ps ++ qs) (match out with Ok _ => token :: rs | Err _ => rs end) ss)
| step_start_swap m ps qs rs ss now r raw session out m' :
    swap now id raw (started r session) m = (out, m') →
    sysStep id (mkSys m (ps ++ PendingStart r raw session :: qs) rs ss)
      (mkSys m' (ps ++ qs) rs (match out with Ok _ => session :: ss | Err _ => ss end))
| step_other m m' ps rs ss :
    NoDup (bID <$> m'.(msBeads)) → attemptText m' id = attemptText m id → sysStep id (mkSys m ps rs ss) (mkSys m' ps rs ss).

Definition pendingOK (p : Pending) : Prop :=
  match p with
  | PendingReserve r raw _ => encode r = raw ∧ r.(arLimit) = 1 ∧ r.(arState) = "requested"
  | PendingStart r raw _ => encode r = raw ∧ r.(arLimit) = 1 ∧ r.(arState) = "reserved"
  end.

Record sysInv (id : string) (s : AttemptSys) : Prop := {
  inv_nodup : NoDup (bID <$> s.(sysStore).(msBeads));
  inv_pending : Forall pendingOK s.(sysPending);
  inv_reserved : (length s.(sysReserved) ≤ 1)%nat ∧
    (s.(sysReserved) ≠ [] → ∃ v, attemptText s.(sysStore) id = Some v ∧ (phase v "reserved" ∨ phase v "started"));
  inv_started : match s.(sysStarted) with
    | [] => True
    | [session] => ∃ r, r.(arLimit) = 1 ∧ attemptText s.(sysStore) id = Some (encode (started r session))
    | _ => False
    end
}.

Lemma encode_ne r : encode r ≠ "".
Proof. done. Qed.

Lemma phase_of r st : r.(arLimit) = 1 → r.(arState) = st → st ∈ attemptStates → phase (encode r) st.
Proof. intros ???. split; [done|]. eauto. Qed.

Lemma swap_Err now id before after m e m' : swap now id before after m = (Err e, m') → m' = m.
Proof.
  unfold swap, CompareAndSetMetadataKey. destruct (DisableConditionalWrites m); [by intros [= _ <-]|].
  destruct (indexOfLocked m id) as [[i b]|]; [|by intros [= _ <-]]. destruct (_ != _); [by intros [= _ <-]|done].
Qed.

Lemma started_phase r session : r.(arLimit) = 1 → phase (encode (started r session)) "started".
Proof. intros Hl. apply (phase_of (started r session)); [done|done|]. unfold attemptStates. set_solver. Qed.

Lemma sysInv_reserve id m ps rs ss r raw token now m' :
  sysInv id (mkSys m ps rs ss) → encode r = raw → r.(arLimit) = 1 → r.(arState) = "requested" →
  swap now id raw (reserved r token) m = (Ok (), m') → sysInv id (mkSys m' ps (token :: rs) ss).
Proof.
  intros [Hnd Hp [Hr1 Hr2] Hs] He Hl Hst Hsw. cbn in *.
  destruct (swap_Ok now id raw (reserved r token) m m' Hnd) as (Ht & Ht' & Hids); [rewrite <-He; apply encode_ne|done|].
  assert (phase raw "requested") as Hph by (rewrite <-He; apply phase_of; [done|done|]; unfold attemptStates; set_solver).
  assert (rs = []) as ->.
  { destruct rs as [|x rs]; [done|]. destruct (Hr2 ltac:(done)) as (v & Hv & Hc). rewrite Ht in Hv. injection Hv as <-.
    destruct Hc as [Hc|Hc]; pose proof (phase_unique _ _ _ Hph Hc); done. }
  assert (ss = []) as ->.
  { destruct ss as [|x [|]]; [done| |done]. destruct Hs as (r' & Hl' & Hv). rewrite Ht in Hv. injection Hv as Hv. rewrite Hv in Hph.
    pose proof (phase_unique _ _ _ Hph (started_phase r' x Hl')). done. }
  split; cbn; [by rewrite Hids|done| |done]. split; [lia|]. intros _. eexists. split; [exact Ht'|]. left.
  apply (phase_of (reserved r token)); [done|done|]. unfold attemptStates. set_solver.
Qed.

Lemma sysInv_start id m ps rs ss r raw session now m' :
  sysInv id (mkSys m ps rs ss) → encode r = raw → r.(arLimit) = 1 → r.(arState) = "reserved" →
  swap now id raw (started r session) m = (Ok (), m') → sysInv id (mkSys m' ps rs (session :: ss)).
Proof.
  intros [Hnd Hp [Hr1 Hr2] Hs] He Hl Hst Hsw. cbn in *.
  destruct (swap_Ok now id raw (started r session) m m' Hnd) as (Ht & Ht' & Hids); [rewrite <-He; apply encode_ne|done|].
  assert (phase raw "reserved") as Hph by (rewrite <-He; apply phase_of; [done|done|]; unfold attemptStates; set_solver).
  assert (ss = []) as ->.
  { destruct ss as [|x [|]]; [done| |done]. destruct Hs as (r' & Hl' & Hv). rewrite Ht in Hv. injection Hv as Hv. rewrite Hv in Hph.
    pose proof (phase_unique _ _ _ Hph (started_phase r' x Hl')). done. }
  split; cbn; [by rewrite Hids|done| |by exists r]. split; [done|]. intros _. eexists. split; [exact Ht'|]. right. by apply started_phase.
Qed.

Lemma sysInv_step id s s' : sysInv id s → sysStep id s s' → sysInv id s'.
Proof.
  intros Hi Hst. destruct Hst as [m ps rs ss ref template nonce r raw Hr|m ps rs ss ref template token session r raw Hr
    |m ps qs rs ss now r raw token out m' Hsw|m ps qs rs ss now r raw session out m' Hsw|m m' ps rs ss Hnd Ht].
  - apply reserveRead_Some in Hr. destruct Hi as [? Hp ? ?]. split; [done| |done|done]. by apply Forall_cons.
  - apply startRead_Some in Hr. destruct Hi as [? Hp ? ?]. split; [done| |done|done]. by apply Forall_cons.
  - pose proof (inv_pending _ _ Hi) as Hp. cbn in Hp. apply Forall_app in Hp as [Hp1 [Hp Hp2]%Forall_cons].
    assert (sysInv id (mkSys m (ps ++ qs) rs ss)) as Hi' by (destruct Hi; split; [done|by apply Forall_app|done|done]).
    destruct out as [[]|e]; [|by apply swap_Err in Hsw as ->]. destruct Hp as (? & ? & ?). by eapply sysInv_reserve.
  - pose proof (inv_pending _ _ Hi) as Hp. cbn in Hp. apply Forall_app in Hp as [Hp1 [Hp Hp2]%Forall_cons].
    assert (sysInv id (mkSys m (ps ++ qs) rs ss)) as Hi' by (destruct Hi; split; [done|by apply Forall_app|done|done]).
    destruct out as [[]|e]; [|by apply swap_Err in Hsw as ->]. destruct Hp as (? & ? & ?). by eapply sysInv_start.
  - destruct Hi as [Hn Hp Hr Hs]. split; cbn in *; [done|done| |]; by rewrite Ht.
Qed.

Definition sysInit (m : MemStore) : AttemptSys := mkSys m [] [] [].

(** C17 A task is started once: from a store with any record on the task, after
    any interleaving of the reads and swaps of any number of callers, some of
    which stop halfway, at most one reservation has been handed out and at most
    one session authorised to start, and the record then names that session. *)
Theorem native_start_once id m s :
  NoDup (bID <$> m.(msBeads)) → rtc (sysStep id) (sysInit m) s →
  (length s.(sysReserved) ≤ 1)%nat ∧ (length s.(sysStarted) ≤ 1)%nat ∧
  ∀ session, session ∈ s.(sysStarted) → ∃ r, attemptText s.(sysStore) id = Some (encode (started r session)).
Proof.
  intros Hnd Hr. assert (sysInv id s) as [_ _ [Hr1 _] Hs].
  { assert (sysInv id (sysInit m)) as Hi by (split; [done|by apply Forall_nil|split; [cbn; lia|done]|done]).
    revert Hi. induction Hr as [|s1 s2 s3 Hst _ IH]; [done|]. intros Hi. apply IH. by eapply sysInv_step. }
  split; [done|]. destruct (sysStarted s) as [|x [|]]; [| |done].
  - split; [cbn; lia|]. by intros session ?%elem_of_nil.
  - split; [cbn; lia|]. intros session ->%list_elem_of_singleton. destruct Hs as (r & _ & Hs). eauto.
Qed.

(** ** One caller *)

Lemma isHex_digit n : 0 ≤ n < 16 → isHex (hexDigit n) = true.
Proof.
  intros Hn. assert (n = 0 ∨ n = 1 ∨ n = 2 ∨ n = 3 ∨ n = 4 ∨ n = 5 ∨ n = 6 ∨ n = 7 ∨ n = 8 ∨ n = 9 ∨ n = 10 ∨ n = 11 ∨ n = 12 ∨ n = 13 ∨ n = 14 ∨ n = 15)
    as Hc by lia. repeat (destruct Hc as [->|Hc]; [done|]). by subst n.
Qed.

Lemma isToken_nonce nonce : Forall (λ z, 0 ≤ z < 256) nonce → length nonce = 16%nat → isToken (EncodeToString nonce) = true.
Proof.
  intros Hf Hl. unfold isToken.
  assert (allHex (EncodeToString nonce) = true ∧ String.length (EncodeToString nonce) = (2 * length nonce)%nat) as [-> ->]; [|by rewrite Hl].
  clear Hl. induction Hf as [|z l Hz Hf [IH1 IH2]]; [done|]. change (EncodeToString (z :: l)) with (String (hexDigit (z / 16)) (String (hexDigit (z mod 16)) (EncodeToString l))).
  cbn [allHex String.length length].
  rewrite !isHex_digit by (Z.to_euclidean_division_equations; lia). rewrite IH1, IH2. split; [done|lia].
Qed.

(** The decoder reads a record back from its text, which is within the limit. *)
Definition readable (r : attemptRecord) : Prop := unmarshal (encode r) = Some r ∧ (String.length (encode r) ≤ 4096)%nat.

Definition wellFormed (r : attemptRecord) : bool :=
  ((r.(arState) == "requested") && (r.(arToken) == "") && (r.(arSessionID) == "")) ||
  ((r.(arState) == "reserved") && isToken r.(arToken) && (r.(arSessionID) == "")) ||
  ((r.(arState) == "started") && isToken r.(arToken) && (r.(arSessionID) != "")).

Lemma read_ok m id ref template r :
  NoDup (bID <$> m.(msBeads)) → attemptText m id = Some (encode r) → readable r → wellFormed r = true → validScope ref id template = true →
  r.(arSchema) = attemptSchema → r.(arLimit) = 1 → r.(arStoreRef) = ref → r.(arBeadID) = id → r.(arTemplate) = template →
  read m id ref template = Ok (Some (r, encode r)).
Proof.
  intros Hnd Ht [Hu Hlen] Hw Hv Hsc Hl Hr Hb Htm. unfold read. rewrite Get_lookup. unfold attemptText in Ht.
  destruct (lookupBead m id) as [b|] eqn:El; [|done]. cbn [mbind option_bind] in Ht. rewrite Ht.
  apply lookupBead_Some in El as [_ Hid]; [|done].
  rewrite (proj2 (Nat.ltb_ge 4096 (String.length (encode r))) Hlen), Hu, Hsc, Hl, Hr, Hb, Htm, Hid, Hv.
  rewrite !bool_decide_true by done. cbn [negb orb]. change (1 =? 1) with true. cbn [negb orb].
  unfold wellFormed in Hw. revert Hw.
  destruct (decide (arState r = "requested")) as [->|K1]; [|rewrite (bool_decide_false (arState r = "requested")) by done].
  { rewrite (bool_decide_true ("requested" = "requested")) by done. change ("requested" == "reserved") with false. change ("requested" == "started") with false.
    cbn [andb orb]. rewrite !orb_false_r. by intros ->. }
  destruct (decide (arState r = "reserved")) as [->|K2]; [|rewrite (bool_decide_false (arState r = "reserved")) by done].
  { rewrite (bool_decide_true ("reserved" = "reserved")) by done. change ("reserved" == "started") with false. cbn [andb orb]. rewrite !orb_false_r.
    by intros ->. }
  cbn [andb orb]. destruct (decide (arState r = "started")) as [->|K3]; [|rewrite (bool_decide_false (arState r = "started")) by done; done].
  rewrite (bool_decide_true ("started" = "started")) by done. cbn [andb orb]. by intros ->.
Qed.

Lemma swap_Ok_intro now id r after m :
  NoDup (bID <$> m.(msBeads)) → attemptText m id = Some (encode r) → DisableConditionalWrites m = false →
  ∃ m', swap now id (encode r) after m = (Ok (), m') ∧ NoDup (bID <$> m'.(msBeads)) ∧ attemptText m' id = Some (encode after) ∧
    DisableConditionalWrites m' = false.
Proof.
  intros Hnd Ht Hd. assert (∃ m', swap now id (encode r) after m = (Ok (), m') ∧ DisableConditionalWrites m' = false) as (m' & Hs & Hd').
  { unfold swap, CompareAndSetMetadataKey. rewrite Hd. unfold attemptText, lookupBead in Ht.
    destruct (indexOfLocked m id) as [[i b]|]; [|done]. cbn in Ht. unfold mget. rewrite Ht. cbn [default]. rewrite bool_decide_true by done. eauto. }
  exists m'. split; [done|]. destruct (swap_Ok _ _ _ _ _ _ Hnd (encode_ne r) Hs) as (_ & ? & Hids). by rewrite Hids.
Qed.

(** The contract of one task: a requested record yields one reservation, whose
    token starts one session; every later reservation is refused, every later
    start is refused whatever its token and session, and a start with another
    token was refused before. *)
Theorem attempt_lifecycle now1 now2 nonce id ref template session m :
  let token := EncodeToString nonce in
  let requested := mkAttempt attemptSchema ref id template 1 "requested" "" "" in
  NoDup (bID <$> m.(msBeads)) → DisableConditionalWrites m = false → Request ref id template = Ok (encode requested) →
  attemptText m id = Some (encode requested) → session ≠ "" →
  Forall (λ z, 0 ≤ z < 256) nonce → length nonce = 16%nat →
  readable requested → readable (reserved requested token) → readable (started (reserved requested token) session) →
  ∃ m1 m2,
    Reserve now1 nonce id ref template m = (Ok token, m1) ∧
    (∀ now n, Reserve now n id ref template m1 = (Err AlreadyReserved, m1)) ∧
    (∀ now token' s, token' ≠ token → Start now id ref template token' s m1 = (Err NotStartable, m1)) ∧
    Start now2 id ref template token session m1 = (Ok (), m2) ∧
    (∀ now n, Reserve now n id ref template m2 = (Err AlreadyReserved, m2)) ∧
    (∀ now token' s, Start now id ref template token' s m2 = (Err NotStartable, m2)).
Proof.
  intros token requested Hnd Hd Hreq Ht Hs Hnb Hnl Hr1 Hr2 Hr3.
  assert (validScope ref id template = true) as Hv by (unfold Request in Hreq; by destruct (validScope ref id template)).
  pose proof (isToken_nonce nonce Hnb Hnl) as Htok. fold token in Htok.
  destruct (swap_Ok_intro now1 id requested (reserved requested token) m Hnd Ht Hd) as (m1 & E1 & Hnd1 & Ht1 & Hd1).
  destruct (swap_Ok_intro now2 id (reserved requested token) (started (reserved requested token) session) m1 Hnd1 Ht1 Hd1) as (m2 & E2 & Hnd2 & Ht2 & Hd2).
  pose proof (read_ok m id ref template requested Hnd Ht Hr1 eq_refl Hv eq_refl eq_refl eq_refl eq_refl eq_refl) as R0.
  assert (wellFormed (reserved requested token) = true) as W1 by (unfold wellFormed; cbn; by rewrite Htok).
  assert (wellFormed (started (reserved requested token) session) = true) as W2
    by (unfold wellFormed; cbn; by rewrite Htok, (bool_decide_false (session = "")) by done).
  pose proof (read_ok m1 id ref template _ Hnd1 Ht1 Hr2 W1 Hv eq_refl eq_refl eq_refl eq_refl eq_refl) as R1.
  pose proof (read_ok m2 id ref template _ Hnd2 Ht2 Hr3 W2 Hv eq_refl eq_refl eq_refl eq_refl eq_refl) as R2.
  assert (token ≠ "") as Hte by (intros E; rewrite E in Htok; done).
  exists m1, m2. unfold Reserve, reserveRead, Start, startRead. rewrite R0, R1, R2. fold token.
  split; [rewrite (bool_decide_true (arState requested = "requested")) by done; cbn [negb]; by rewrite E1|].
  split; [done|]. split.
  { intros now token' s Hne. cbn [arState reserved arToken]. rewrite (bool_decide_false (token = token')) by congruence.
    cbn [negb]. by rewrite orb_true_r. }
  split; [|done]. cbn [arState reserved arToken]. rewrite (bool_decide_false (token = "")), (bool_decide_true (token = token)), (bool_decide_false (session = "")) by done.
  exact E2.
Qed.
End attempts.

(** ** A task *)

Definition exToken : string := EncodeToString (replicate 16 0).
Definition exRequested : attemptRecord := mkAttempt attemptSchema "city:main" "gc-1" "worker" 1 "requested" "" "".
Definition exReserved : attemptRecord := reserved exRequested exToken.
Definition exStarted : attemptRecord := started exReserved "s-1".

(** A decoder of these three records. *)
Definition exDecoder : AttemptDecoder := {| unmarshal raw := List.find (λ r, encode r == raw) [exRequested; exReserved; exStarted] |}.

Definition exBead (r : attemptRecord) : Bead := setMetadataMap (setStatus (setID zeroBead "gc-1") "open") {[NativeAttemptMetadataKey := encode r]}.
Definition exStore : MemStore := mkMemStore [exBead exRequested] [] 1 false ∅.

Lemma exStore_nodup : NoDup (bID <$> exStore.(msBeads)).
Proof. apply NoDup_singleton. Qed.

Lemma native_start_once_witness :
  ∃ s, NoDup (bID <$> exStore.(msBeads)) ∧ rtc (sysStep (H := exDecoder) "gc-1") (sysInit exStore) s ∧ s.(sysStarted) = ["s-1"] ∧
    ((length s.(sysReserved) ≤ 1)%nat ∧ (length s.(sysStarted) ≤ 1)%nat ∧
     ∀ session, session ∈ s.(sysStarted) → ∃ r, attemptText s.(sysStore) "gc-1" = Some (encode (started r session))).
Proof.
  pose (m1 := (swap 5 "gc-1" (encode exRequested) exReserved exStore).2).
  pose (m2 := (swap 6 "gc-1" (encode exReserved) exStarted m1).2).
  assert (rtc (sysStep (H := exDecoder) "gc-1") (sysInit exStore) (mkSys m2 [] [exToken] ["s-1"])) as Hr.
  { eapply rtc_l; [eapply (step_reserve_read (H := exDecoder) "gc-1" exStore [] [] [] "city:main" "worker" (replicate 16 0) exRequested (encode exRequested)); vm_compute; reflexivity|].
    eapply rtc_l; [apply (step_reserve_swap (H := exDecoder) "gc-1" exStore [] [] [] [] 5 exRequested (encode exRequested) exToken (Ok ()) m1); vm_compute; reflexivity|].
    eapply rtc_l; [eapply (step_start_read (H := exDecoder) "gc-1" m1 [] [exToken] [] "city:main" "worker" exToken "s-1" exReserved (encode exReserved)); vm_compute; reflexivity|].
    eapply rtc_l; [apply (step_start_swap (H := exDecoder) "gc-1" m1 [] [] [exToken] [] 6 exReserved (encode exReserved) "s-1" (Ok ()) m2); vm_compute; reflexivity|].
    apply rtc_refl. }
  exists (mkSys m2 [] [exToken] ["s-1"]). split; [exact exStore_nodup|]. split; [exact Hr|]. split; [reflexivity|].
  exact (native_start_once (H := exDecoder) "gc-1" exStore _ exStore_nodup Hr).
Defined.

Lemma attempt_lifecycle_witness :
  ∃ m1 m2, Reserve (H := exDecoder) 5 (replicate 16 0) "gc-1" "city:main" "worker" exStore = (Ok exToken, m1) ∧
    Start (H := exDecoder) 6 "gc-1" "city:main" "worker" exToken "s-1" m1 = (Ok (), m2).
Proof.
  destruct (attempt_lifecycle (H := exDecoder) 5 6 (replicate 16 0) "gc-1" "city:main" "worker" "s-1" exStore) as (m1 & m2 & E1 & _ & _ & E2 & _).
  - exact exStore_nodup.
  - reflexivity.
  - vm_compute. reflexivity.
  - vm_compute. reflexivity.
  - discriminate.
  - repeat (apply Forall_cons; split; [lia|]). apply Forall_nil. done.
  - reflexivity.
  - split; [vm_compute; reflexivity|vm_compute; lia].
  - split; [vm_compute; reflexivity|vm_compute; lia].
  - split; [vm_compute; reflexivity|vm_compute; lia].
  - exists m1, m2. split; [exact E1|exact E2].
Defined.
