(* ===== verification/WorkflowScope.v ===== *)
(** * WorkflowScope: scope checks, scope aborts and the outcome of a workflow

    Models the scope machinery of [internal/dispatch/runtime.go]: a workflow is
    a graph of beads under a root; the members of a scope share a [gc.scope_ref]
    and have a body bead; a scope-check control bead follows each member.  When
    a member fails, its control aborts the scope: the open members are closed as
    skipped, blockers first, and the body is closed as failed.  When no member
    is left open, the body is closed as passed.

    The code is a program over the operations it calls on the store, so it runs
    against any store and may stop between any two of them.  Trace lines are not
    modelled. *)

From S2P Require Import Prelude GoBase GoText Beads MemStore Prog SessionState AgentConfig.

Local Open Scope Z_scope.

(** ** Vocabulary *)

Definition Namespace : string := "gc.".
Definition KindMetadataKey : string := "gc.kind".
Definition RootBeadIDMetadataKey : string := "gc.root_bead_id".
Definition RootStoreRefMetadataKey : string := "gc.root_store_ref".
Definition ScopeRefMetadataKey : string := "gc.scope_ref".
Definition ScopeRoleMetadataKey : string := "gc.scope_role".
Definition OutcomeMetadataKey : string := "gc.outcome".
Definition OnFailMetadataKey : string := "gc.on_fail".
Definition LogicalBeadIDMetadataKey : string := "gc.logical_bead_id".
Definition AttemptMetadataKey : string := "gc.attempt".
Definition StepRefMetadataKey : string := "gc.step_ref".
Definition StepIDMetadataKey : string := "gc.step_id".
Definition RalphStepIDMetadataKey : string := "gc.ralph_step_id".
Definition OutputJSONMetadataKey : string := "gc.output_json".
Definition FailureClassMetadataKey : string := "gc.failure_class".
Definition FailureReasonMetadataKey : string := "gc.failure_reason".
Definition FinalDispositionMetadataKey : string := "gc.final_disposition".
Definition MissingRootBeadIDMetadataKey : string := "gc.missing_root_bead_id".
Definition CancelRequestedMetadataKey : string := "gc.cancel_requested".
Definition ControllerErrorMetadataKey : string := "gc.controller_error".
Definition ControllerErrorClassMetadataKey : string := "gc.controller_error_class".
Definition ControllerRetryableMetadataKey : string := "gc.controller_retryable".

Definition KindScope : string := "scope".
Definition KindScopeCheck : string := "scope-check".
Definition KindSpec : string := "spec".
Definition KindWorkflowFinalize : string := "workflow-finalize".
Definition OutcomePass : string := "pass".
Definition OutcomeFail : string := "fail".
Definition OutcomeSkipped : string := "skipped".
Definition OutcomeCanceled : string := "canceled".
Definition FailureClassTransient : string := "transient".
Definition FailureClassHard : string := "hard".
Definition ScopeRoleBody : string := "body".
Definition DispositionOrphanedWorkflow : string := "orphaned_workflow".

(** ** Judging a bead *)

Definition isRetryAttemptSubject (subject : Bead) : bool :=
  if subject.(bMetadata).[LogicalBeadIDMetadataKey] == "" then false
  else oneOf subject.(bMetadata).[KindMetadataKey] ["retry-run"; "retry-eval"] ||
       (subject.(bMetadata).[AttemptMetadataKey] != "").

Definition beadOutcomeFailed (subject : Bead) : bool :=
  let outcome := TrimSpace subject.(bMetadata).[OutcomeMetadataKey] in
  if outcome == OutcomeFail then true
  else if (TrimSpace subject.(bMetadata).[OnFailMetadataKey] != "abort_scope") || isRetryAttemptSubject subject then false
  else negb (oneOf outcome [OutcomePass; OutcomeSkipped; OutcomeCanceled]).

Definition terminalAbortScopeFailure (bead : Bead) : bool :=
  if bead.(bStatus) != "closed" then false
  else if TrimSpace bead.(bMetadata).[OnFailMetadataKey] != "abort_scope" then false
  else if negb (beadOutcomeFailed bead) then false
  else if TrimSpace bead.(bMetadata).[FailureClassMetadataKey] == FailureClassTransient then false
  else negb (isRetryAttemptSubject bead).

Definition rootCanceled (root : Bead) : bool :=
  (TrimSpace root.(bMetadata).[OutcomeMetadataKey] == OutcomeCanceled) ||
  (TrimSpace root.(bMetadata).[CancelRequestedMetadataKey] != "").

Definition matchesScopeRef (bead : Bead) (scopeRef : string) : bool :=
  if scopeRef == "" then false
  else if bead.(bMetadata).[ScopeRefMetadataKey] == scopeRef then true
  else let stepRef := bead.(bMetadata).[StepRefMetadataKey] in
       (stepRef == scopeRef) || HasSuffix stepRef ("." +:+ scopeRef).

Definition findScopeBody (all : list Bead) (rootID scopeRef : string) : option Bead :=
  find (λ bead, (bead.(bMetadata).[RootBeadIDMetadataKey] == rootID) &&
                (bead.(bMetadata).[KindMetadataKey] == KindScope) && matchesScopeRef bead scopeRef) all.

Definition attemptInfixes : list string := [".run."; ".eval."; ".check."; ".iteration."; ".attempt."].

Definition stepRefOf (bead : Bead) : string :=
  let ref := TrimSpace bead.(bMetadata).[StepRefMetadataKey] in
  if ref == "" then TrimSpace bead.(bRef) else ref.

Definition isLogicalDescendant (logical candidate : Bead) : bool :=
  if (logical.(bID) == "") || (candidate.(bID) == "") || (logical.(bID) == candidate.(bID)) then false
  else if candidate.(bMetadata).[LogicalBeadIDMetadataKey] == logical.(bID) then true
  else if existsb (λ infix, HasPrefix candidate.(bID) (logical.(bID) +:+ infix)) attemptInfixes then true
  else
    let logicalRef := stepRefOf logical in
    if logicalRef == "" then false
    else if existsb (λ infix, HasPrefix (stepRefOf candidate) (logicalRef +:+ infix)) attemptInfixes then true
    else
      let logicalStepID := TrimSpace logical.(bMetadata).[StepIDMetadataKey] in
      (logicalStepID != "") && (TrimSpace candidate.(bMetadata).[RalphStepIDMetadataKey] == logicalStepID).

(** ** The snapshot of a scope *)

Record scopeSnapshot := mkScopeSnapshot {
  ssRootID : string;
  ssScopeRef : string;
  ssAll : list Bead;
  ssAllComplete : bool;
  ssMembers : list Bead;
  ssBody : Bead
}.

(** The first bead of each ID that is not in [seen]. *)
Fixpoint firstByID (seen : list string) (l : list Bead) : list Bead :=
  match l with
  | [] => []
  | b :: l => if bool_decide (b.(bID) ∈ seen) then firstByID seen l else b :: firstByID (b.(bID) :: seen) l
  end.

Definition mergeScopeSnapshotBeads (members : list Bead) (body : Bead) : list Bead :=
  let out := firstByID [] (List.filter (λ b, b.(bID) != "") members) in
  if (body.(bID) != "") && negb (bool_decide (body.(bID) ∈ bID <$> out)) then out ++ [body] else out.

(** A member that keeps its scope open. *)
Definition openMember (ignoreIDs : list string) (member : Bead) : bool :=
  if member.(bStatus) != "open" then false
  else if bool_decide (member.(bID) ∈ List.filter (λ id, id != "") ignoreIDs) then false
  else if member.(bMetadata).[KindMetadataKey] == KindSpec then false
  else negb (oneOf member.(bMetadata).[ScopeRoleMetadataKey] ["body"; "teardown"]).

Definition snapshotHasOpen (members : list Bead) (ignoreIDs : list string) : bool := existsb (openMember ignoreIDs) members.

(** [copyNonGCMetadata]. *)
Definition nonGCMetadata (md : gmap string string) : gmap string string :=
  filter (λ kv, negb ((kv.1 == "") || HasPrefix kv.1 Namespace) = true) md.

(** What the closed members leave on the body: of two members with one key, the
    later. *)
Definition memberMetadata (members : list Bead) : gmap string string :=
  foldl (λ batch member,
    if member.(bStatus) != "closed" then batch
    else if oneOf member.(bMetadata).[ScopeRoleMetadataKey] ["body"; "teardown"; "control"] then batch
    else nonGCMetadata member.(bMetadata) ∪ batch) ∅ members.

(** The loop of [resolveScopeOutputJSON]: two different outputs give none. *)
Fixpoint outputLoop (members : list Bead) (candidate : string) : string :=
  match members with
  | [] => candidate
  | bead :: members =>
      let output := bead.(bMetadata).[OutputJSONMetadataKey] in
      if output == "" then outputLoop members candidate
      else if oneOf bead.(bMetadata).[ScopeRoleMetadataKey] ["body"; "teardown"; "control"] then outputLoop members candidate
      else if candidate == "" then outputLoop members output
      else if candidate != output then "" else outputLoop members candidate
  end.

Definition resolveScopeOutputJSON (members : list Bead) (subject : Bead) : string :=
  let outputJSON := subject.(bMetadata).[OutputJSONMetadataKey] in
  if outputJSON != "" then outputJSON else outputLoop members "".

(** ** Skipping open members *)

Definition skippableMember (skipControlID : string) (member : Bead) : bool :=
  if (member.(bID) == skipControlID) || (member.(bStatus) != "open") then false
  else if member.(bMetadata).[KindMetadataKey] == KindSpec then false
  else negb (oneOf member.(bMetadata).[ScopeRoleMetadataKey] ["body"; "teardown"]).

(** A member whose attempts are beads of their own. *)
Definition logicalMember (member : Bead) : bool :=
  oneOf (TrimSpace member.(bMetadata).[KindMetadataKey]) ["retry"; "ralph"] &&
  negb (oneOf member.(bMetadata).[ScopeRoleMetadataKey] ["body"; "teardown"]).

Definition openDescendants (all : list Bead) (member : Bead) : list Bead :=
  List.filter (λ candidate, (candidate.(bStatus) == "open") && isLogicalDescendant member candidate) all.

Definition addPending (pending : gmap string Bead) (b : Bead) : gmap string Bead := <[b.(bID) := b]> pending.

Definition pendingMembers (all members : list Bead) (skipControlID : string) : gmap string Bead :=
  foldl addPending (foldl addPending ∅ (List.filter (skippableMember skipControlID) members))
    (concat (openDescendants all <$> List.filter logicalMember members)).

Definition sortedPendingIDs (pending : gmap string Bead) : list string := merge_sort strLe (map_to_list pending).*1.

Definition preserveScopeCheckForSubject (candidate : Bead) (deps : list Dep) (subjectID : string) : bool :=
  if subjectID == "" then false
  else if candidate.(bMetadata).[KindMetadataKey] != KindScopeCheck then false
  else if candidate.(bMetadata).[ScopeRoleMetadataKey] != "control" then false
  else existsb (λ dep, (dep.(DepType) == "blocks") && (dep.(DependsOnID) == subjectID)) deps.

Definition canSkipScopeMemberWithDeps (deps : list Dep) (pending : gmap string Bead) : bool :=
  forallb (λ dep, (dep.(DepType) != "blocks") || negb (bool_decide (is_Some (pending !! dep.(DependsOnID))))) deps.

(** One pass over the pending IDs: those that may be closed now.  The replayable
    scope check leaves the set during the pass. *)
Fixpoint skipPass (control : string) (depsByID : gmap string (list Dep)) (ids : list string) (pending : gmap string Bead) :
    gmap string Bead * list string :=
  match ids with
  | [] => (pending, [])
  | id :: ids =>
      let deps := default [] (depsByID !! id) in
      if preserveScopeCheckForSubject (default zeroBead (pending !! id)) deps control
      then skipPass control depsByID ids (delete id pending)
      else
        let skippable := canSkipScopeMemberWithDeps deps pending in
        let '(pending, rest) := skipPass control depsByID ids pending in
        (pending, if skippable then id :: rest else rest)
  end.

Definition scopeAbortSkippedCloseReason : string := "scope member skipped: an earlier member of the same scope failed".

Definition skipMetadata : gmap string string :=
  <[OutcomeMetadataKey := OutcomeSkipped]> {["close_reason" := scopeAbortSkippedCloseReason]}.

(** ** Programs over a store *)

Section programs.
Context {E : Type}.

(** The calls the code makes.  A live list carries the query with [Live] and
    both tiers set; a wait is [false] when the context ended first.  The check
    of an attempt's required artifacts on the file system and the recycling of a
    pooled session are calls too: the first answers with the reason of a
    failure, or the empty string. *)
Inductive graphE : Type → Type :=
| GetBead (id : string) : graphE (res E Bead)
| ListLive (q : ListQuery) : graphE (res E (list Bead))
| DownDeps (id : string) : graphE (res E (list Dep))
| DownDepsBatch (ids : list string) : graphE (res E (gmap string (list Dep)))
| UpdateBead (id : string) (opts : UpdateOpts) : graphE (res E unit)
| CloseBead (id : string) : graphE (res E unit)
| CloseBeads (ids : list string) (md : gmap string string) : graphE (res E Z)
| SetKey (id key value : string) : graphE (res E unit)
| SetKeys (id : string) (kvs : gmap string string) : graphE (res E unit)
| WaitRetry : graphE bool
| UpDeps (id : string) : graphE (res E (list Dep))
| CreateBead (b : Bead) : graphE (res E Bead)
| AddDep (issueID dependsOnID depType : string) : graphE (res E unit)
| RemoveDep (issueID dependsOnID : string) : graphE (res E unit)
| RequiredArtifacts (subject : Bead) : graphE (res E string)
| RecycleSession (subject : Bead) : graphE (res E unit).

Inductive ControlError :=
| StoreFailed (e : E) | NoBlockingDependency | MissingRootBeadID | MissingScopeRef | ScopeBodyMissing | GraphMalformed
| ContextDone | ControlPending | UnableToSkip (ids : list string) | FinalizePending
| InvalidAttempt (value : string) | InvalidMaxAttempts (value : string) | LogicalUnresolved | UnsupportedOutcome (outcome : string)
| UnsupportedRetryState (state : string) | NoRecycler | MissingAssignee | NoStepRefs.

Abbreviation io A := (prog graphE (res ControlError A)).

Definition andThen {A B} (p : io A) (f : A → io B) : io B :=
  let* r := p in match r with Ok a => f a | Err e => Ret (Err e) end.

Definition perform {A} (op : graphE (res E A)) : io A :=
  let* r := trigger op in Ret (match r with Ok a => Ok a | Err e => Err (StoreFailed e) end).
End programs.
#[global] Arguments graphE E : clear implicits.
#[global] Arguments ControlError E : clear implicits.

#[local] Notation "'let+' x := p 'in' q" := (andThen p (λ x, q))
  (at level 200, x pattern, p at level 100, q at level 200, right associativity).
Abbreviation io E A := (prog (graphE E) (res (ControlError E) A)).

Record ControlResult := mkControlResult { crProcessed : bool; crAction : string; crSkipped : Z }.

Definition noResult : ControlResult := mkControlResult false "" 0.

Section control.
(** [isNotFound] is [errors.Is(err, beads.ErrNotFound)]; [batchDeps] says whether
    the store lists the dependencies of several beads at once. *)
Context {E : Type} (isNotFound : E → bool) (batchDeps : bool).

Definition liveQuery (md : gmap string string) (includeClosed : bool) : ListQuery :=
  mkListQuery "" "" "" "" [] "" [] md 0 0 0 includeClosed false false true SortDefault false TierBoth None.

Definition scopeQuery (rootID scopeRef : string) (includeClosed : bool) : ListQuery :=
  liveQuery (<[RootBeadIDMetadataKey := rootID]> {[ScopeRefMetadataKey := scopeRef]}) includeClosed.

Definition listByWorkflowRootAndScope (rootID scopeRef : string) : io E (list Bead) :=
  perform (ListLive (scopeQuery rootID scopeRef true)).

Definition listActiveByWorkflowRootAndScope (rootID scopeRef : string) : io E (list Bead) :=
  perform (ListLive (scopeQuery rootID scopeRef false)).

Definition listByWorkflowRoot (rootID : string) : io E (list Bead) :=
  let+ all := perform (ListLive (liveQuery {[RootBeadIDMetadataKey := rootID]} true)) in
  let* root := trigger (GetBead rootID) in
  Ret match root with
      | Ok root => Ok (root :: firstByID [root.(bID)] all)
      | Err e => if isNotFound e then Ok (firstByID [] all) else Err (StoreFailed e)
      end.

Definition hasOpenScopeMembers (rootID scopeRef : string) (ignoreIDs : list string) : io E bool :=
  let+ members := listActiveByWorkflowRootAndScope rootID scopeRef in
  Ret (Ok (snapshotHasOpen members ignoreIDs)).

(** *** Closing *)

Definition statusUpdate (status : string) (md : gmap string string) : UpdateOpts :=
  mkUpdateOpts None (Some status) None None None None None [] [] md.

Definition updateMetadataAndClose (beadID : string) (md : gmap string string) : io E unit :=
  let+ _ := perform (UpdateBead beadID (statusUpdate "closed" md)) in
  let+ bead := perform (GetBead beadID) in
  if bead.(bStatus) == "closed" then Ret (Ok ()) else perform (CloseBead beadID).

Definition setOutcomeAndClose (beadID outcome : string) : io E unit :=
  updateMetadataAndClose beadID {[OutcomeMetadataKey := outcome]}.

(** *** Scope bodies *)

Definition resolveScopeBodyByRole (rootID scopeRef : string) (includeClosed : bool) : io E (option Bead) :=
  let+ matches := perform (ListLive (liveQuery
    (<[RootBeadIDMetadataKey := rootID]> (<[KindMetadataKey := KindScope]> {[ScopeRoleMetadataKey := ScopeRoleBody]})) includeClosed)) in
  Ret (Ok (find (λ bead, matchesScopeRef bead scopeRef) matches)).

Definition resolveScopeBodyOnce (rootID scopeRef : string) : io E Bead :=
  let+ open := resolveScopeBodyByRole rootID scopeRef false in
  match open with
  | Some bead => Ret (Ok bead)
  | None =>
      let+ closed := resolveScopeBodyByRole rootID scopeRef true in
      match closed with
      | Some bead => Ret (Ok bead)
      | None =>
          let+ all := listByWorkflowRoot rootID in
          Ret match findScopeBody all rootID scopeRef with
              | Some bead => Ok bead
              | None => Err ScopeBodyMissing
              end
      end
  end.

Definition scopeBodyResolveAttempts : nat := 5.

(** The attempts left after this one. *)
Fixpoint resolveScopeBodyLoop (retries : nat) (rootID scopeRef : string) : io E Bead :=
  let* r := resolveScopeBodyOnce rootID scopeRef in
  match r, retries with
  | Err ScopeBodyMissing, S retries =>
      let* fired := trigger WaitRetry in
      if (fired : bool) then resolveScopeBodyLoop retries rootID scopeRef else Ret (Err ContextDone)
  | r, _ => Ret r
  end.

Definition resolveScopeBody (rootID scopeRef : string) : io E Bead :=
  resolveScopeBodyLoop (scopeBodyResolveAttempts - 1) rootID scopeRef.

(** The caller's view of a missing body. *)
Definition scopeBodyFor (rootID scopeRef : string) : io E Bead :=
  let* r := resolveScopeBody rootID scopeRef in
  Ret match r with Err ScopeBodyMissing => Err GraphMalformed | r => r end.

Definition loadScopeSnapshotWithBody (rootID scopeRef : string) (body : Bead) : io E scopeSnapshot :=
  let+ members := listByWorkflowRootAndScope rootID scopeRef in
  Ret (Ok (mkScopeSnapshot rootID scopeRef (mergeScopeSnapshotBeads members body) false members body)).

Definition propagateScopeMemberMetadata (members : list Bead) (bodyID : string) : io E unit :=
  let batch := memberMetadata members in
  if bool_decide (batch = ∅) then Ret (Ok ()) else perform (SetKeys bodyID batch).

(** *** Aborting *)

Fixpoint downDepsLoop (ids : list string) (acc : gmap string (list Dep)) : io E (gmap string (list Dep)) :=
  match ids with
  | [] => Ret (Ok acc)
  | id :: ids => let+ deps := perform (DownDeps id) in downDepsLoop ids (<[id := deps]> acc)
  end.

Definition loadDownDepsForScopeSkip (ids : list string) : io E (gmap string (list Dep)) :=
  match ids with
  | [] => Ret (Ok ∅)
  | _ => if batchDeps then perform (DownDepsBatch ids) else downDepsLoop ids ∅
  end.

Definition skipScopeMembers (ids : list string) : io E Z := perform (CloseBeads ids skipMetadata).

(** Each round closes a bead at least, so the number of pending beads is fuel
    enough. *)
Fixpoint skipLoop (fuel : nat) (skipControlID : string) (pending : gmap string Bead) (skipped : Z) : io E Z :=
  match fuel with
  | O => Ret (Ok skipped)
  | S fuel =>
      if bool_decide (pending = ∅) then Ret (Ok skipped)
      else
        let ids := sortedPendingIDs pending in
        let+ depsByID := loadDownDepsForScopeSkip ids in
        let '(pending, skippable) := skipPass skipControlID depsByID ids pending in
        match skippable with
        | [] => Ret (if bool_decide (pending = ∅) then Ok skipped else Err (UnableToSkip ids))
        | _ =>
            let+ closed := skipScopeMembers skippable in
            skipLoop fuel skipControlID (foldr delete pending skippable) (skipped + closed)
        end
  end.

Definition skipOpenScopeMembers (s : scopeSnapshot) (skipControlID : string) : io E Z :=
  let+ all := if s.(ssAllComplete) then Ret (Ok s.(ssAll)) else listByWorkflowRoot s.(ssRootID) in
  let pending := pendingMembers all s.(ssMembers) skipControlID in
  skipLoop (size pending) skipControlID pending 0.

Definition abortScope (s : scopeSnapshot) (traceID : string) : io E Z :=
  let+ skipped := skipOpenScopeMembers s traceID in
  let+ _ := propagateScopeMemberMetadata s.(ssMembers) s.(ssBody).(bID) in
  let+ _ := setOutcomeAndClose s.(ssBody).(bID) OutcomeFail in
  Ret (Ok skipped).

Definition closeScopeAsPassed (s : scopeSnapshot) (subject : Bead) : io E unit :=
  let bodyID := s.(ssBody).(bID) in
  let+ _ := propagateScopeMemberMetadata s.(ssMembers) bodyID in
  let outputJSON := resolveScopeOutputJSON s.(ssMembers) subject in
  let+ _ := if outputJSON != "" then perform (SetKey bodyID OutputJSONMetadataKey outputJSON) else Ret (Ok ()) in
  let+ bodyAfter := perform (GetBead bodyID) in
  if bodyAfter.(bStatus) != "closed" then setOutcomeAndClose bodyID OutcomePass else Ret (Ok ()).

(** *** Scope checks *)

Definition resolveBlockingSubjectID (beadID : string) : io E string :=
  let+ deps := perform (DownDeps beadID) in
  Ret match find (λ dep, dep.(DepType) == "blocks") deps with
      | Some dep => Ok dep.(DependsOnID)
      | None => Err NoBlockingDependency
      end.

(** The scope is passed when nothing but the control is open; the control is
    closed either way. *)
Definition scopeContinue (bead subject body : Bead) (rootID scopeRef : string) : io E ControlResult :=
  let+ remainingOpen := hasOpenScopeMembers rootID scopeRef [bead.(bID)] in
  if (remainingOpen : bool) then
    let+ _ := setOutcomeAndClose bead.(bID) OutcomePass in
    Ret (Ok (mkControlResult true "continue" 0))
  else
    let+ snapshot := loadScopeSnapshotWithBody rootID scopeRef body in
    let+ _ := closeScopeAsPassed snapshot subject in
    let+ _ := setOutcomeAndClose bead.(bID) OutcomePass in
    Ret (Ok (mkControlResult true "scope-pass" 0)).

Definition processScopeCheck (bead : Bead) : io E ControlResult :=
  let rootID := bead.(bMetadata).[RootBeadIDMetadataKey] in
  let scopeRef := bead.(bMetadata).[ScopeRefMetadataKey] in
  let+ subjectID := resolveBlockingSubjectID bead.(bID) in
  let+ subject := perform (GetBead subjectID) in
  if rootID == "" then Ret (Err MissingRootBeadID)
  else if scopeRef == "" then Ret (Err MissingScopeRef)
  else
    let+ body := scopeBodyFor rootID scopeRef in
    if subject.(bStatus) != "closed" then Ret (Err ControlPending)
    else if isRetryAttemptSubject subject then scopeContinue bead subject body rootID scopeRef
    else if beadOutcomeFailed subject then
      let+ snapshot := loadScopeSnapshotWithBody rootID scopeRef body in
      let+ skipped := abortScope snapshot bead.(bID) in
      let+ _ := setOutcomeAndClose bead.(bID) OutcomePass in
      Ret (Ok (mkControlResult true "scope-fail" skipped))
    else scopeContinue bead subject body rootID scopeRef.

(** A scoped member that was closed by its worker. *)
Definition reconcileTerminalScopedMember (bead : Bead) : io E ControlResult :=
  let scopeRef := bead.(bMetadata).[ScopeRefMetadataKey] in
  let rootID := bead.(bMetadata).[RootBeadIDMetadataKey] in
  if scopeRef == "" then Ret (Ok noResult)
  else if rootID == "" then Ret (Err MissingRootBeadID)
  else
    let+ body := scopeBodyFor rootID scopeRef in
    if beadOutcomeFailed bead then
      let+ snapshot := loadScopeSnapshotWithBody rootID scopeRef body in
      let+ skipped := abortScope snapshot bead.(bID) in
      Ret (Ok (mkControlResult true "scope-fail" skipped))
    else
      let+ remainingOpen := hasOpenScopeMembers rootID scopeRef [] in
      if (remainingOpen : bool) then Ret (Ok noResult)
      else
        let+ bodyAfter := perform (GetBead body.(bID)) in
        if bodyAfter.(bStatus) == "closed" then Ret (Ok noResult)
        else
          let+ snapshot := loadScopeSnapshotWithBody rootID scopeRef body in
          let+ _ := closeScopeAsPassed snapshot bead in
          Ret (Ok (mkControlResult true "scope-pass" 0)).

Definition ReconcileClosedScopeMember (beadID : string) : io E ControlResult :=
  let+ closedBead := perform (GetBead beadID) in
  if closedBead.(bStatus) != "closed" then Ret (Ok noResult) else reconcileTerminalScopedMember closedBead.

(** *** Controls without a root *)

Definition clearControllerSpawnErrorMetadata (md : gmap string string) : gmap string string :=
  <[ControllerErrorMetadataKey := ""]> (<[ControllerErrorClassMetadataKey := ""]> (<[ControllerRetryableMetadataKey := ""]> md)).

Definition controlRootCanceledCloseReason : string := "control closed: workflow root canceled via run cancel".

Definition closeCanceledControl (bead : Bead) : io E (option ControlResult) :=
  let+ _ := updateMetadataAndClose bead.(bID) (clearControllerSpawnErrorMetadata
    (<[OutcomeMetadataKey := OutcomeCanceled]> {["close_reason" := controlRootCanceledCloseReason]})) in
  Ret (Ok (Some (mkControlResult true "canceled-workflow" 0))).

(** [None]: not handled here. *)
Definition closeOrphanedControl (bead : Bead) : io E (option ControlResult) :=
  let rootID := TrimSpace bead.(bMetadata).[RootBeadIDMetadataKey] in
  let rootStoreRef := TrimSpace bead.(bMetadata).[RootStoreRefMetadataKey] in
  if bead.(bMetadata).[KindMetadataKey] == KindWorkflowFinalize then Ret (Ok None)
  else if (rootID == "") || (rootStoreRef == "") || (rootID == bead.(bID)) then Ret (Ok None)
  else
    let* root := trigger (GetBead rootID) in
    match root with
    | Ok root => if rootCanceled root then closeCanceledControl bead else Ret (Ok None)
    | Err e =>
        if negb (isNotFound e) then Ret (Err (StoreFailed e))
        else
          let+ _ := updateMetadataAndClose bead.(bID) (clearControllerSpawnErrorMetadata
            (<[OutcomeMetadataKey := OutcomeFail]> (<[FailureClassMetadataKey := FailureClassHard]>
             (<[FailureReasonMetadataKey := "missing_workflow_root"]> (<[FinalDispositionMetadataKey := DispositionOrphanedWorkflow]>
              {[MissingRootBeadIDMetadataKey := rootID]}))))) in
          Ret (Ok (Some (mkControlResult true "orphaned-workflow" 0)))
    end.

(** *** The outcome of a workflow *)

Fixpoint blockedOutcomeLoop (deps : list Dep) (outcome : string) : io E string :=
  match deps with
  | [] => Ret (Ok outcome)
  | dep :: deps =>
      if dep.(DepType) != "blocks" then blockedOutcomeLoop deps outcome
      else
        let+ blocker := perform (GetBead dep.(DependsOnID)) in
        if blocker.(bStatus) != "closed" then Ret (Err FinalizePending)
        else blockedOutcomeLoop deps (if beadOutcomeFailed blocker then OutcomeFail else outcome)
  end.

Definition resolveBlockedOutcome (beadID : string) : io E string :=
  let+ deps := perform (DownDeps beadID) in blockedOutcomeLoop deps OutcomePass.

Definition workflowRootHasTerminalAbortScopeFailure (rootID finalizerID : string) : io E bool :=
  let+ all := listByWorkflowRoot rootID in
  Ret (Ok (existsb (λ candidate, (candidate.(bID) != finalizerID) && terminalAbortScopeFailure candidate) all)).

Definition resolveFinalizeOutcome (finalizer : Bead) : io E string :=
  let+ outcome := resolveBlockedOutcome finalizer.(bID) in
  let rootID := TrimSpace finalizer.(bMetadata).[RootBeadIDMetadataKey] in
  if (outcome == OutcomePass) && (rootID != "") then
    let+ failed := workflowRootHasTerminalAbortScopeFailure rootID finalizer.(bID) in
    Ret (Ok (if (failed : bool) then OutcomeFail else outcome))
  else Ret (Ok outcome).
End control.
