(* ===== verification/WorkflowScopeProps.v ===== *)
(** * WorkflowScopeProps: scope aborts survive crashes

    The scope machinery run against the in-memory store.  An abort closes every
    pending member, blockers first, and then the body; stopped after any store
    call and started again, it ends the same way. *)

From S2P Require Import Prelude GoBase GoText Beads MemStore MemStoreProps Prog SessionState AgentConfig WorkflowScope.

Local Open Scope Z_scope.

(** ** The in-memory store as a machine *)

Definition notFound (e : StoreError) : bool := match e with ErrNotFound _ _ => true | _ => false end.

(** The state carries the number of calls made so far, at which the clock is
    read. *)
Definition graphMem (clock : nat → Z) : machine (graphE StoreError) (MemStore * nat) := λ X op t,
  let '(m, k) := t in
  let step {A} (r : A * MemStore) : A * (MemStore * nat) := (r.1, (r.2, S k)) in
  match op in graphE _ X return X * (MemStore * nat) with
  | GetBead id => step (Get m id, m)
  | ListLive q => step (ListBeads m q, m)
  | DownDeps id => step (DepList m id "down", m)
  | DownDepsBatch ids => step (DepListBatch m ids, m)
  | UpdateBead id opts => step (Update (clock k) id opts m)
  | CloseBead id => step (Close (clock k) id m)
  | CloseBeads ids md => step (CloseAll (clock k) ids md m)
  | SetKey id key value => step (SetMetadata (clock k) id key value m)
  | SetKeys id kvs => step (SetMetadataBatch (clock k) id kvs m)
  | WaitRetry => step (true, m)
  | UpDeps id => step (DepList m id "up", m)
  | CreateBead b => step (Create (clock k) b m)
  | AddDep issueID dependsOnID depType => step (DepAdd issueID dependsOnID depType m)
  | RemoveDep issueID dependsOnID => step (DepRemove issueID dependsOnID m)
  | RequiredArtifacts _ => step (Ok "", m)
  | RecycleSession _ => step (Ok (), m)
  end.

(** ** Reading the store *)

Lemma matchesMetadata_spec b md : matchesMetadata b md = true ↔ map_Forall (λ k v, b.(bMetadata).[k] = v) md.
Proof.
  unfold matchesMetadata. rewrite forallb_forall. split.
  - intros Hm k v Hk. apply elem_of_map_to_list, list_elem_of_In, Hm in Hk. by apply bool_decide_eq_true in Hk.
  - intros Hm [k v] Hin%list_elem_of_In%elem_of_map_to_list. apply bool_decide_eq_true. by apply Hm.
Qed.

Lemma live_list m md closed :
  md ≠ ∅ →
  ListBeads m (liveQuery md closed) =
  Ok (List.filter (λ b, (closed || (b.(bStatus) != "closed")) && matchesMetadata b md) m.(msBeads)).
Proof.
  intros Hne. unfold ListBeads, HasFilter. cbn [liveQuery qMetadata qAllowScan]. rewrite (bool_decide_false (md = ∅)) by done.
  cbn. rewrite ?orb_true_r. cbn. f_equal. unfold ApplyListQuery, applyLimit. cbn.
  apply filter_ext. intros b. unfold Matches. cbn. rewrite (bool_decide_false (md = ∅)) by done. cbn.
  destruct closed, (bStatus b == "closed"), (matchesMetadata b md); done.
Qed.

(** What the programs read, as functions of the store. *)
Definition inScope (rootID scopeRef : string) (b : Bead) : bool :=
  (b.(bMetadata).[RootBeadIDMetadataKey] == rootID) && (b.(bMetadata).[ScopeRefMetadataKey] == scopeRef).

Definition scopeMembers (m : MemStore) (rootID scopeRef : string) : list Bead :=
  List.filter (inScope rootID scopeRef) m.(msBeads).

Definition underRoot (m : MemStore) (rootID : string) : list Bead :=
  List.filter (λ b, b.(bMetadata).[RootBeadIDMetadataKey] == rootID) m.(msBeads).

Definition rootBeads (m : MemStore) (rootID : string) : list Bead :=
  match lookupBead m rootID with
  | Some root => root :: firstByID [root.(bID)] (underRoot m rootID)
  | None => firstByID [] (underRoot m rootID)
  end.

Definition pendingOf (m : MemStore) (rootID scopeRef control : string) : gmap string Bead :=
  pendingMembers (rootBeads m rootID) (scopeMembers m rootID scopeRef) control.

Lemma matches_scope rootID scopeRef b :
  matchesMetadata b (<[RootBeadIDMetadataKey := rootID]> {[ScopeRefMetadataKey := scopeRef]}) = inScope rootID scopeRef b.
Proof.
  apply eq_true_iff_eq. rewrite matchesMetadata_spec, map_Forall_insert, map_Forall_singleton by (by rewrite lookup_singleton_ne).
  unfold inScope. by rewrite andb_true_iff, !bool_decide_eq_true.
Qed.

Lemma matches_root rootID b :
  matchesMetadata b {[RootBeadIDMetadataKey := rootID]} = (b.(bMetadata).[RootBeadIDMetadataKey] == rootID).
Proof. apply eq_true_iff_eq. by rewrite matchesMetadata_spec, map_Forall_singleton, bool_decide_eq_true. Qed.

Lemma elem_firstByID seen l b :
  (∀ x y, x ∈ l → y ∈ l → bID x = bID y → x = y) → b ∈ firstByID seen l ↔ b ∈ l ∧ bID b ∉ seen.
Proof.
  revert seen. induction l as [|x l IH]; intros seen Hinj; cbn [firstByID]; [set_solver|].
  assert (∀ y z, y ∈ l → z ∈ l → bID y = bID z → y = z) as Hinj' by (intros; apply Hinj; [by right|by right|done]).
  case_bool_decide as Hs; rewrite ?elem_of_cons, IH by done.
  - split; [naive_solver|]. intros [[->|?] ?]; [done|naive_solver].
  - rewrite not_elem_of_cons. split; [naive_solver|]. intros [[->|Hb] Hn]; [by left|].
    destruct (decide (bID b = bID x)) as [He|]; [|naive_solver]. left. apply Hinj; [by right|by left|done].
Qed.

Section reading.
Context (m : MemStore) (Hnd : NoDup (bID <$> m.(msBeads))).

Lemma bead_inj x y : x ∈ m.(msBeads) → y ∈ m.(msBeads) → bID x = bID y → x = y.
Proof. intros Hx Hy He. by eapply NoDup_bID_inj. Qed.

Lemma elem_scopeMembers rootID scopeRef b : b ∈ scopeMembers m rootID scopeRef ↔ lookupBead m b.(bID) = Some b ∧ inScope rootID scopeRef b = true.
Proof. unfold scopeMembers. rewrite list_elem_of_In, filter_In, <-list_elem_of_In, lookupBead_Some by done. naive_solver. Qed.

Lemma elem_rootBeads rootID b :
  b ∈ rootBeads m rootID ↔ lookupBead m b.(bID) = Some b ∧ (b.(bID) = rootID ∨ b.(bMetadata).[RootBeadIDMetadataKey] = rootID).
Proof.
  assert (∀ x, x ∈ underRoot m rootID ↔ x ∈ m.(msBeads) ∧ x.(bMetadata).[RootBeadIDMetadataKey] = rootID) as Hu.
  { intros x. unfold underRoot. by rewrite list_elem_of_In, filter_In, <-list_elem_of_In, bool_decide_eq_true. }
  assert (∀ x y, x ∈ underRoot m rootID → y ∈ underRoot m rootID → bID x = bID y → x = y) as Hinj.
  { intros x y [Hx _]%Hu [Hy _]%Hu. by apply bead_inj. }
  unfold rootBeads. rewrite lookupBead_Some by done. destruct (lookupBead m rootID) as [root|] eqn:Er.
  - apply lookupBead_Some in Er as [Hin Hid]; [|done]. rewrite elem_of_cons, elem_firstByID, Hu, list_elem_of_singleton, Hid by done. split.
    + naive_solver.
    + intros [[Hb _] Ho]. destruct (decide (bID b = rootID)) as [He|]; [|naive_solver]. left. apply bead_inj; [done|done|congruence].
  - rewrite elem_firstByID, Hu by done. split; [naive_solver|]. intros [[Hb _] [He|Hr]]; [|set_solver].
    exfalso. apply lookupBead_None in Er. apply Er. rewrite <-He. by apply list_elem_of_fmap_2.
Qed.

Lemma addPending_spec l P id b :
  Forall (λ x, lookupBead m x.(bID) = Some x) l → (∀ i x, P !! i = Some x → lookupBead m i = Some x) →
  (foldl addPending P l !! id = Some b ↔ P !! id = Some b ∨ (b ∈ l ∧ b.(bID) = id)) ∧
  (∀ i x, foldl addPending P l !! i = Some x → lookupBead m i = Some x).
Proof.
  revert P. induction l as [|x l IH]; intros P Hl HP; [split; [set_solver|done]|].
  apply Forall_cons in Hl as [Hx Hl]. cbn [foldl].
  assert (∀ i y, addPending P x !! i = Some y → lookupBead m i = Some y) as HP'.
  { intros i y. unfold addPending. rewrite lookup_insert_Some. intros [[<- <-]|[_ Hi]]; [done|by apply HP]. }
  destruct (IH (addPending P x) Hl HP') as [IH1 IH2]. split; [|done]. rewrite IH1. unfold addPending. rewrite lookup_insert_Some, elem_of_cons. split.
  - naive_solver.
  - intros [Hp|[[->|Hb] He]]; [|by left; left|by right].
    destruct (decide (bID x = id)) as [He|]; [|left; by right]. left. left. split; [done|]. apply HP in Hp. congruence.
Qed.

(** A bead an abort would skip. *)
Definition isPending (rootID scopeRef control : string) (b : Bead) : Prop :=
  (inScope rootID scopeRef b = true ∧ skippableMember control b = true) ∨
  (b.(bStatus) = "open" ∧ (b.(bID) = rootID ∨ b.(bMetadata).[RootBeadIDMetadataKey] = rootID) ∧
   ∃ member, lookupBead m member.(bID) = Some member ∧ inScope rootID scopeRef member = true ∧ logicalMember member = true ∧
     isLogicalDescendant member b = true).

Lemma pendingOf_spec rootID scopeRef control id b :
  pendingOf m rootID scopeRef control !! id = Some b ↔ lookupBead m id = Some b ∧ isPending rootID scopeRef control b.
Proof.
  unfold pendingOf, pendingMembers. set (l1 := List.filter _ _). set (l2 := concat _).
  assert (∀ x, x ∈ l1 ↔ lookupBead m x.(bID) = Some x ∧ inScope rootID scopeRef x = true ∧ skippableMember control x = true) as H1.
  { intros x. unfold l1. rewrite list_elem_of_In, filter_In, <-list_elem_of_In, elem_scopeMembers. naive_solver. }
  assert (∀ x, x ∈ l2 ↔ lookupBead m x.(bID) = Some x ∧ x.(bStatus) = "open" ∧ (x.(bID) = rootID ∨ x.(bMetadata).[RootBeadIDMetadataKey] = rootID) ∧
    ∃ member, lookupBead m member.(bID) = Some member ∧ inScope rootID scopeRef member = true ∧ logicalMember member = true ∧
     isLogicalDescendant member x = true) as H2.
  { intros x. unfold l2. rewrite list_elem_of_In, in_concat. split.
    - intros (l & (member & <- & Hm)%in_map_iff & Hx). unfold openDescendants in Hx. apply filter_In in Hm as [Hm Hlm], Hx as [Hx Hd].
      apply list_elem_of_In, elem_scopeMembers in Hm. apply list_elem_of_In, elem_rootBeads in Hx.
      apply andb_true_iff in Hd as [Ho%bool_decide_eq_true Hd]. naive_solver.
    - intros (Hx & Ho & Hr & member & Hm & Hi & Hl & Hd). exists (openDescendants (rootBeads m rootID) member). split.
      + apply in_map_iff. exists member. split; [done|]. apply filter_In. split; [|done]. apply list_elem_of_In, elem_scopeMembers. done.
      + unfold openDescendants. apply filter_In. split; [by apply list_elem_of_In, elem_rootBeads|].
        rewrite Ho, Hd. done. }
  destruct (addPending_spec l1 ∅ id b) as [Ha Hc].
  { apply Forall_forall. intros x Hx. by apply H1. } { intros i x Hi. by rewrite lookup_empty in Hi. }
  destruct (addPending_spec l2 (foldl addPending ∅ l1) id b) as [Hb _].
  { apply Forall_forall. intros x Hx. by apply H2. }
  { apply (addPending_spec l1 ∅ id b); [|by intros i x ?]. apply Forall_forall. intros x Hx. by apply H1. }
  rewrite Hb, Ha, lookup_empty, H1, H2. unfold isPending. split.
  - intros [[?|[(? & ? & ?) <-]]|[(? & ? & ? & ?) <-]]; [done|by split; [|left]|by split; [|right]].
  - intros [Hl Hp]. assert (bID b = id) as <- by (by apply lookupBead_Some in Hl as [_ Hid]).
    destruct Hp as [[? ?]|(? & ? & ?)]; [by left; right|by right].
Qed.
End reading.

(** ** One round of skipping *)

Definition depsOf (m : MemStore) (id : string) : list Dep := List.filter (λ d, d.(IssueID) == id) m.(msDeps).

Lemma skipPass_none control D ids P :
  (∀ id, id ∈ ids → preserveScopeCheckForSubject (default zeroBead (P !! id)) (default [] (D !! id)) control = false) →
  skipPass control D ids P = (P, List.filter (λ id, canSkipScopeMemberWithDeps (default [] (D !! id)) P) ids).
Proof.
  induction ids as [|id ids IH]; intros Hk; [done|]. cbn [skipPass List.filter]. rewrite Hk by left.
  rewrite IH by (intros; apply Hk; by right). done.
Qed.

Lemma canSkip_spec deps P :
  canSkipScopeMemberWithDeps deps P = true ↔ ∀ dep, dep ∈ deps → dep.(DepType) = "blocks" → P !! dep.(DependsOnID) = None.
Proof.
  unfold canSkipScopeMemberWithDeps. rewrite forallb_forall. split.
  - intros Hf dep Hd Ht. apply list_elem_of_In, Hf, orb_true_iff in Hd as [Hn|Hn].
    + rewrite Ht in Hn. done.
    + apply negb_true_iff, bool_decide_eq_false in Hn. by apply eq_None_not_Some.
  - intros Hf dep Hd%list_elem_of_In. apply orb_true_iff. destruct (decide (dep.(DepType) = "blocks")) as [Ht|Hn].
    + right. apply negb_true_iff, bool_decide_eq_false. rewrite Hf by done. by intros [].
    + left. apply negb_true_iff. by apply bool_decide_eq_false.
Qed.

Lemma elem_sortedPendingIDs (P : gmap string Bead) id : id ∈ sortedPendingIDs P ↔ is_Some (P !! id).
Proof.
  unfold sortedPendingIDs. rewrite (merge_sort_Permutation strLe), list_elem_of_fmap. split.
  - intros ([i b] & -> & Hi%elem_of_map_to_list). by exists b.
  - intros [b Hb]. exists (id, b). split; [done|]. by apply elem_of_map_to_list.
Qed.

(** A ranking of the pending beads along the edges that block. *)
Definition ranked (m : MemStore) (P : gmap string Bead) (rank : string → nat) : Prop :=
  ∀ dep, dep ∈ m.(msDeps) → dep.(DepType) = "blocks" → is_Some (P !! dep.(IssueID)) → is_Some (P !! dep.(DependsOnID)) →
    (rank dep.(DependsOnID) < rank dep.(IssueID))%nat.

Lemma least_rank (P : gmap string Bead) (rank : string → nat) :
  P ≠ ∅ → ∃ id, is_Some (P !! id) ∧ ∀ id', is_Some (P !! id') → (rank id ≤ rank id')%nat.
Proof.
  intros Hne. assert (∃ n id, is_Some (P !! id) ∧ rank id = n) as (n & Hex).
  { destruct (map_choose P Hne) as (id & b & Hb). exists (rank id), id. split; [by exists b|done]. }
  revert Hex. induction n as [n IH] using lt_wf_ind. intros (id & Hid & Hr).
  destruct (decide (map_Forall (λ id' _, (n ≤ rank id')%nat) P)) as [Hall|Hn].
  - exists id. split; [done|]. intros id' [b Hb]. rewrite Hr. by apply (Hall id' b).
  - apply map_not_Forall in Hn as (id' & b & Hb & Hlt); [|apply _]. apply (IH (rank id')); [lia|]. exists id'. split; [by exists b|done].
Qed.

(** With a ranking, some pending bead can be closed. *)
Lemma round_progress m P rank (D : gmap string (list Dep)) :
  ranked m P rank → P ≠ ∅ → (∀ id, is_Some (P !! id) → default [] (D !! id) = depsOf m id) →
  List.filter (λ id, canSkipScopeMemberWithDeps (default [] (D !! id)) P) (sortedPendingIDs P) ≠ [].
Proof.
  intros Hr Hne HD Hnil. destruct (least_rank P rank Hne) as (id & Hid & Hmin).
  assert (id ∈ List.filter (λ id, canSkipScopeMemberWithDeps (default [] (D !! id)) P) (sortedPendingIDs P)) as Hin; [|by rewrite Hnil in Hin; apply elem_of_nil in Hin].
  rewrite list_elem_of_In, filter_In, <-list_elem_of_In, elem_sortedPendingIDs. split; [done|].
  rewrite HD by done. apply canSkip_spec. intros dep Hdep Ht. apply eq_None_not_Some. intros Hs.
  unfold depsOf in Hdep. apply list_elem_of_In, filter_In in Hdep as [Hdep Hi]. apply bool_decide_eq_true in Hi. apply list_elem_of_In in Hdep.
  specialize (Hmin _ Hs). assert (rank dep.(DependsOnID) < rank dep.(IssueID))%nat; [|rewrite Hi in *; lia].
  apply Hr; [done|done|by rewrite Hi|done].
Qed.

(** ** What an abort changes *)

(** [b] differs from [b0] at most in its status, its times and counters, its
    outcome and the metadata outside the program's namespace. *)
Record framed (b0 b : Bead) : Prop := {
  fr_id : b.(bID) = b0.(bID);
  fr_ref : b.(bRef) = b0.(bRef);
  fr_meta : ∀ key, HasPrefix key Namespace = true → key ≠ OutcomeMetadataKey → b.(bMetadata).[key] = b0.(bMetadata).[key]
}.

Definition closedWith (outcome : string) (b0 b : Bead) : Prop :=
  framed b0 b ∧ b.(bStatus) = "closed" ∧ b.(bMetadata).[OutcomeMetadataKey] = outcome.

Lemma framed_refl b : framed b b.
Proof. done. Qed.

Lemma framed_trans b0 b1 b2 : framed b0 b1 → framed b1 b2 → framed b0 b2.
Proof. intros [? ? H1] [? ? H2]. split; [congruence|congruence|]. intros key Hp Hn. rewrite H2, H1 by done. done. Qed.

Lemma nonGC_lookup md key : HasPrefix key Namespace = true → nonGCMetadata md !! key = None.
Proof.
  intros Hp. apply map_lookup_filter_None. right. intros v _ Hn. cbn [fst] in Hn. rewrite Hp, orb_true_r in Hn. done.
Qed.

Lemma memberMetadata_gc members key : HasPrefix key Namespace = true → memberMetadata members !! key = None.
Proof.
  intros Hp. unfold memberMetadata.
  assert (∀ acc : gmap string string, acc !! key = None → foldl (λ batch member,
    if member.(bStatus) != "closed" then batch
    else if oneOf member.(bMetadata).[ScopeRoleMetadataKey] ["body"; "teardown"; "control"] then batch
    else nonGCMetadata member.(bMetadata) ∪ batch) acc members !! key = None) as H; [|by apply H, lookup_empty].
  induction members as [|b members IH]; intros acc Hacc; [done|]. cbn [foldl]. apply IH.
  destruct (_ != _); [done|]. destruct (oneOf _ _); [done|]. rewrite lookup_union, Hacc, nonGC_lookup by done. done.
Qed.

(** Closing, as the code and the store do it. *)
Lemma closed_update now outcome b :
  closedWith outcome b (applyUpdate now (statusUpdate "closed" {[OutcomeMetadataKey := outcome]}) b).
Proof.
  unfold applyUpdate. cbn [statusUpdate oTitle oStatus oType oPriority oDescription oParentID oAssignee oLabels oRemoveLabels oMetadata optApply].
  assert (∀ b', b'.(bMetadata) = {[OutcomeMetadataKey := outcome]} ∪ b.(bMetadata) → b'.(bID) = b.(bID) → b'.(bRef) = b.(bRef) →
    b'.(bStatus) = "closed" → closedWith outcome b b') as H.
  { intros b' Hm Hi Hr Hs. split; [split; [done|done|]|split; [done|]]; rewrite Hm.
    - intros key _ Hk. rewrite mget_union, lookup_singleton_ne by done. done.
    - by rewrite mget_union, lookup_singleton_eq. }
  destruct (isOwnershipTransition _ _ _); by apply H.
Qed.

Lemma closed_skip now ids b :
  b.(bID) ∈ ids → b.(bStatus) = "open" → closedWith OutcomeSkipped b (closeAllOne now ids skipMetadata b).2.
Proof.
  intros Hin Hs. unfold closeAllOne. rewrite (bool_decide_true (b.(bID) ∈ ids)) by done. rewrite Hs. cbn [negb orb snd].
  change ("open" == "closed") with false. split; [split; [done|done|]|split; [done|]]; cbn [snd setMetadataMap bMetadata touch setRevision setUpdatedAt setStatus].
  - intros key Hp Hn. rewrite mget_union. unfold skipMetadata. rewrite lookup_insert_ne by done.
    rewrite lookup_singleton_ne; [done|]. by intros <-.
  - rewrite mget_union. unfold skipMetadata. by rewrite lookup_insert_eq.
Qed.

Lemma framed_batch now batch b :
  (∀ key, HasPrefix key Namespace = true → batch !! key = None) → framed b (touch now (setMetadataMap b (batch ∪ b.(bMetadata)))).
Proof.
  intros Hb. split; [done|done|]. cbn [touch setRevision setUpdatedAt setMetadataMap bMetadata]. intros key Hp _. by rewrite mget_union, Hb.
Qed.

(** [m'] is [m] with one bead replaced. *)
Record stored (m : MemStore) (id : string) (b : Bead) (m' : MemStore) : Prop := {
  st_lookup : ∀ i, lookupBead m' i = if decide (i = id) then Some b else lookupBead m i;
  st_ids : bID <$> m'.(msBeads) = bID <$> m.(msBeads);
  st_deps : m'.(msDeps) = m.(msDeps);
  st_seq : m'.(msSeq) = m.(msSeq)
}.

Lemma stored_putAt m id i b b' :
  NoDup (bID <$> m.(msBeads)) → indexOfLocked m id = Some (i, b) → b'.(bID) = b.(bID) → stored m id b' (putAt m i b').
Proof. intros Hnd Hi Hb. split; [|by eapply putAt_ids|done|done]. intros j. by eapply lookupBead_putAt. Qed.

Lemma indexOf_of_lookup m id b : lookupBead m id = Some b → ∃ i, indexOfLocked m id = Some (i, b).
Proof. unfold lookupBead. intros ([i b'] & H & ->)%fmap_Some. by exists i. Qed.

Lemma Update_stored now m id opts b :
  NoDup (bID <$> m.(msBeads)) → lookupBead m id = Some b →
  ∃ m', Update now id opts m = (Ok (), m') ∧ stored m id (applyUpdate now opts b) m'.
Proof.
  intros Hnd [i Hi]%indexOf_of_lookup. unfold Update. rewrite Hi. eexists. split; [done|]. eapply stored_putAt; [done|done|apply applyUpdate_id].
Qed.

Lemma SetMetadataBatch_stored now m id kvs b :
  NoDup (bID <$> m.(msBeads)) → lookupBead m id = Some b → kvs ≠ ∅ →
  ∃ m', SetMetadataBatch now id kvs m = (Ok (), m') ∧ stored m id (touch now (setMetadataMap b (kvs ∪ b.(bMetadata)))) m'.
Proof.
  intros Hnd [i Hi]%indexOf_of_lookup Hne. unfold SetMetadataBatch. rewrite decide_False, Hi by done. eexists. split; [done|].
  by eapply stored_putAt.
Qed.

(** The stores an abort goes through: the body is framed, a pending bead is as it
    was or skipped, every other bead is as it was. *)
Section aborting.
Context (P0 : gmap string Bead) (bodyID : string).

Definition changed (id : string) (b0 b : Bead) : Prop :=
  if decide (id = bodyID) then framed b0 b ∧ (b.(bStatus) = b0.(bStatus) ∨ b.(bStatus) = "closed")
  else match P0 !! id with
       | Some _ => b = b0 ∨ closedWith OutcomeSkipped b0 b
       | None => b = b0
       end.

Record aborting (m0 m : MemStore) : Prop := {
  ab_ids : bID <$> m.(msBeads) = bID <$> m0.(msBeads);
  ab_deps : m.(msDeps) = m0.(msDeps);
  ab_beads : ∀ id b0, lookupBead m0 id = Some b0 → ∃ b, lookupBead m id = Some b ∧ changed id b0 b
}.

Lemma changed_refl id b : changed id b b.
Proof. unfold changed. case_decide; [by split; [|left]|]. destruct (P0 !! id); [by left|done]. Qed.

Lemma changed_framed id b0 b : changed id b0 b → framed b0 b.
Proof. unfold changed. case_decide; [by intros []|]. destruct (P0 !! id); [intros [->|[? _]]; done|by intros ->]. Qed.

Lemma aborting_refl m : aborting m m.
Proof. split; [done|done|]. intros id b Hb. exists b. split; [done|apply changed_refl]. Qed.

Lemma aborting_lookup m0 m id b : aborting m0 m → lookupBead m id = Some b → ∃ b0, lookupBead m0 id = Some b0 ∧ changed id b0 b.
Proof.
  intros Ha Hb. destruct (lookupBead m0 id) as [b0|] eqn:E0.
  - destruct (ab_beads _ _ Ha id b0 E0) as (b' & Hb' & Hc). exists b0. split; [done|]. congruence.
  - exfalso. apply lookupBead_None in E0. rewrite <-(ab_ids _ _ Ha), <-lookupBead_None in E0. congruence.
Qed.

Lemma aborting_nodup m0 m : aborting m0 m → NoDup (bID <$> m0.(msBeads)) → NoDup (bID <$> m.(msBeads)).
Proof. intros Ha. by rewrite (ab_ids _ _ Ha). Qed.

(** A write to the body. *)
Lemma aborting_body m0 m m' b b' :
  aborting m0 m → lookupBead m bodyID = Some b → framed b b' → (b'.(bStatus) = b.(bStatus) ∨ b'.(bStatus) = "closed") →
  stored m bodyID b' m' → aborting m0 m'.
Proof.
  intros Ha Hb Hf Hst Hs. split; [by rewrite (st_ids _ _ _ _ Hs), (ab_ids _ _ Ha)|by rewrite (st_deps _ _ _ _ Hs), (ab_deps _ _ Ha)|].
  intros id b0 H0. rewrite (st_lookup _ _ _ _ Hs). destruct (ab_beads _ _ Ha id b0 H0) as (b1 & H1 & Hc). case_decide as Hd; [|by eauto].
  subst id. exists b'. split; [done|]. assert (b1 = b) as -> by congruence. unfold changed in *. rewrite decide_True in * by done.
  destruct Hc as [Hc Hcs]. split; [by eapply framed_trans|]. destruct Hst as [->|?]; [done|by right].
Qed.

(** A batch of skips. *)
Lemma aborting_skip now m0 m ids :
  aborting m0 m → NoDup (bID <$> m0.(msBeads)) → bodyID ∉ ids →
  (∀ id, id ∈ ids → is_Some (P0 !! id) ∧ ∃ b, lookupBead m id = Some b ∧ lookupBead m0 id = Some b ∧ b.(bStatus) = "open") →
  aborting m0 (CloseAll now ids skipMetadata m).2 ∧
  (∀ id, id ∈ ids → ∃ b0 b, lookupBead m0 id = Some b0 ∧ lookupBead (CloseAll now ids skipMetadata m).2 id = Some b ∧ closedWith OutcomeSkipped b0 b) ∧
  (∀ id, id ∉ ids → lookupBead (CloseAll now ids skipMetadata m).2 id = lookupBead m id).
Proof.
  intros Ha Hnd Hbody Hids. pose proof (aborting_nodup _ _ Ha Hnd) as Hnd'. set (m' := (CloseAll now ids skipMetadata m).2).
  assert (∀ id, id ∉ ids → lookupBead m' id = lookupBead m id) as Hout.
  { intros id Hn. unfold m'. rewrite lookupBead_closeAll. destruct (lookupBead m id) as [b|] eqn:Eb; [|done]. cbn.
    apply lookupBead_Some in Eb as [_ <-]; [|done]. unfold closeAllOne. by rewrite (bool_decide_false (b.(bID) ∈ ids)). }
  assert (∀ id, id ∈ ids → ∃ b0 b, lookupBead m0 id = Some b0 ∧ lookupBead m' id = Some b ∧ closedWith OutcomeSkipped b0 b) as Hin.
  { intros id Hi. destruct (Hids id Hi) as (_ & b & Hb & H0 & Ho). exists b. eexists. split; [done|].
    unfold m'. rewrite lookupBead_closeAll, Hb. split; [done|]. apply closed_skip; [|done]. apply lookupBead_Some in Hb as [_ ->]; done. }
  split; [|done]. split.
  - unfold m', CloseAll. cbn [snd setBeads msBeads]. rewrite fmap_closeAll_ids. apply (ab_ids _ _ Ha).
  - apply (ab_deps _ _ Ha).
  - intros id b0 H0. destruct (decide (id ∈ ids)) as [Hi|Hn]; [|rewrite Hout by done; by apply (ab_beads _ _ Ha)].
    destruct (Hin id Hi) as (b0' & b & H0' & Hb & Hc). exists b. split; [done|]. assert (b0' = b0) as -> by congruence.
    unfold changed. rewrite decide_False by (by intros ->). destruct (Hids id Hi) as [[x ->] _]. by right.
Qed.
End aborting.

(** ** A scope with a failed member *)

Definition isBody (rootID scopeRef : string) (b : Bead) : Prop :=
  b.(bMetadata).[RootBeadIDMetadataKey] = rootID ∧ b.(bMetadata).[KindMetadataKey] = KindScope ∧
  b.(bMetadata).[ScopeRoleMetadataKey] = ScopeRoleBody ∧ matchesScopeRef b scopeRef = true.

Section failure.
Context (c : Bead) (subjectID bodyID : string) (rank : string → nat).

Let rootID := c.(bMetadata).[RootBeadIDMetadataKey].
Let scopeRef := c.(bMetadata).[ScopeRefMetadataKey].
Let pend (m : MemStore) := pendingOf m rootID scopeRef c.(bID).

(** The control [c] follows a member that is closed and failed; the scope has one
    body; the beads to skip do not block one another in a circle, and neither the
    control, the body nor a check of the control is among them. *)
Record scopeFailure (m : MemStore) : Prop := {
  sf_nodup : NoDup (bID <$> m.(msBeads));
  sf_control : lookupBead m c.(bID) = Some c;
  sf_root : rootID ≠ "";
  sf_ref : scopeRef ≠ "";
  sf_dep : ∃ dep, find (λ d, d.(DepType) == "blocks") (depsOf m c.(bID)) = Some dep ∧ dep.(DependsOnID) = subjectID;
  sf_subject : ∃ s, lookupBead m subjectID = Some s ∧ s.(bStatus) = "closed" ∧ isRetryAttemptSubject s = false ∧ beadOutcomeFailed s = true;
  sf_body : ∃ b, lookupBead m bodyID = Some b ∧ isBody rootID scopeRef b;
  sf_unique : ∀ id b, lookupBead m id = Some b → isBody rootID scopeRef b → id = bodyID;
  sf_apart : bodyID ≠ c.(bID) ∧ bodyID ≠ subjectID;
  sf_spared : pend m !! c.(bID) = None ∧ pend m !! bodyID = None;
  sf_checks : ∀ id b, pend m !! id = Some b → preserveScopeCheckForSubject b (depsOf m id) c.(bID) = false;
  sf_ranked : ranked m (pend m) rank
}.

Lemma framed_key b0 b key : framed b0 b → HasPrefix key Namespace = true → key ≠ OutcomeMetadataKey → b.(bMetadata).[key] = b0.(bMetadata).[key].
Proof. intros Hf. apply Hf. Qed.

Lemma framed_inScope b0 b r s : framed b0 b → inScope r s b = inScope r s b0.
Proof. intros Hf. unfold inScope. by rewrite !(framed_key _ _ _ Hf) by done. Qed.

Lemma framed_isBody b0 b r s : framed b0 b → isBody r s b ↔ isBody r s b0.
Proof. intros Hf. unfold isBody, matchesScopeRef. by rewrite !(framed_key _ _ _ Hf) by done. Qed.

Lemma framed_logical b0 b : framed b0 b → logicalMember b = logicalMember b0.
Proof. intros Hf. unfold logicalMember. by rewrite !(framed_key _ _ _ Hf) by done. Qed.

Lemma framed_descendant x0 x b0 b : framed x0 x → framed b0 b → isLogicalDescendant x b = isLogicalDescendant x0 b0.
Proof.
  intros Hx Hb. unfold isLogicalDescendant, stepRefOf.
  rewrite !(framed_key _ _ _ Hx), !(framed_key _ _ _ Hb), !(fr_id _ _ Hx), !(fr_id _ _ Hb), !(fr_ref _ _ Hx), !(fr_ref _ _ Hb) by done. done.
Qed.

Lemma open_unchanged m0 id b0 b :
  changed (pend m0) bodyID id b0 b → id ≠ bodyID → b.(bStatus) = "open" → b = b0.
Proof.
  intros Hc Hn Ho. unfold changed in Hc. rewrite decide_False in Hc by done.
  destruct (pend m0 !! id); [|done]. destruct Hc as [->|(_ & Hs & _)]; [done|congruence].
Qed.

Lemma skippable_open b : skippableMember c.(bID) b = true → b.(bStatus) = "open" ∧ b.(bMetadata).[ScopeRoleMetadataKey] ≠ ScopeRoleBody.
Proof.
  unfold skippableMember. destruct (_ == _); [done|]. destruct (bStatus b != "open") eqn:E; [done|].
  destruct (_ == KindSpec); [done|]. intros Hr. split; [by apply negb_false_iff, bool_decide_eq_true in E|]. intros Hb. by rewrite Hb in Hr.
Qed.

Lemma descendant_pending m0 m b0 b :
  aborting (pend m0) bodyID m0 m → framed b0 b → b0.(bStatus) = "open" →
  (∃ x, lookupBead m x.(bID) = Some x ∧ inScope rootID scopeRef x = true ∧ logicalMember x = true ∧ isLogicalDescendant x b = true) →
  (b.(bID) = rootID ∨ b.(bMetadata).[RootBeadIDMetadataKey] = rootID) → isPending m0 rootID scopeRef c.(bID) b0.
Proof.
  intros Ha Hfr Ho (x & Hx & Hi & Hl & Hd) Hr. destruct (aborting_lookup _ _ _ _ _ _ Ha Hx) as (x0 & Hx0 & Hcx).
  pose proof (changed_framed _ _ _ _ _ Hcx) as Hfx. right. split; [done|].
  rewrite (fr_id _ _ Hfr), (framed_key _ _ _ Hfr) in Hr by done. split; [done|]. exists x0.
  rewrite <-(framed_inScope _ _ _ _ Hfx), <-(framed_logical _ _ Hfx), <-(framed_descendant _ _ _ _ Hfx Hfr), <-(fr_id _ _ Hfx). done.
Qed.

(** On the way, fewer beads are pending and each of them is as it was. *)
Lemma pending_shrinks m0 m id b :
  scopeFailure m0 → aborting (pend m0) bodyID m0 m → pend m !! id = Some b → pend m0 !! id = Some b.
Proof.
  intros Hf Ha Hp. pose proof (sf_nodup _ Hf) as Hnd. pose proof (aborting_nodup _ _ _ _ Ha Hnd) as Hnd'.
  apply (pendingOf_spec m Hnd') in Hp as [Hl Hp]. destruct (aborting_lookup _ _ _ _ _ _ Ha Hl) as (b0 & H0 & Hc).
  pose proof (changed_framed _ _ _ _ _ Hc) as Hfr.
  destruct (decide (id = bodyID)) as [->|Hn].
  - exfalso. destruct Hp as [[_ [_ Hs]%skippable_open]|(Ho & Hr & Hx)].
    + destruct (sf_body _ Hf) as (b1 & Hb1 & (_ & _ & Hrole & _)). assert (b1 = b0) as -> by congruence.
      by rewrite <-(framed_key _ _ _ Hfr) in Hrole by done.
    + unfold changed in Hc. rewrite decide_True in Hc by done. destruct Hc as [_ [Hs|Hs]]; [|congruence].
      assert (pend m0 !! bodyID = Some b0) as Hcontra; [|by rewrite (proj2 (sf_spared _ Hf)) in Hcontra].
      apply (pendingOf_spec m0 Hnd). split; [done|]. eapply descendant_pending; [done|done|congruence|done|done].
  - apply (pendingOf_spec m0 Hnd). destruct Hp as [[Hi Hs]|(Ho & Hr & Hx)].
    + assert (b = b0) as -> by (eapply open_unchanged; [done|done|by apply skippable_open]). by split; [|left].
    + assert (b = b0) as -> by (by eapply open_unchanged). split; [done|]. by eapply descendant_pending.
Qed.

(** A pending bead that is as it was is still pending. *)
Lemma pending_kept m0 m id b :
  scopeFailure m0 → aborting (pend m0) bodyID m0 m → pend m0 !! id = Some b → lookupBead m id = Some b → pend m !! id = Some b.
Proof.
  intros Hf Ha Hp Hb. pose proof (sf_nodup _ Hf) as Hnd. apply (pendingOf_spec m0 Hnd) in Hp as [_ Hp].
  apply (pendingOf_spec m (aborting_nodup _ _ _ _ Ha Hnd)). split; [done|]. destruct Hp as [?|(Ho & Hr & x0 & Hx0 & Hi & Hl & Hd)]; [by left|].
  right. split; [done|]. split; [done|]. destruct (ab_beads _ _ _ _ Ha _ _ Hx0) as (x & Hx & Hc). pose proof (changed_framed _ _ _ _ _ Hc) as Hfx.
  exists x. rewrite (fr_id _ _ Hfx), (framed_inScope _ _ _ _ Hfx), (framed_logical _ _ Hfx), (framed_descendant _ _ _ _ Hfx (framed_refl b)). done.
Qed.

Lemma unchanged_bead m0 m id : scopeFailure m0 → aborting (pend m0) bodyID m0 m → id ≠ bodyID → pend m0 !! id = None → lookupBead m id = lookupBead m0 id.
Proof.
  intros Hf Ha Hn Hp. destruct (lookupBead m0 id) as [x0|] eqn:Ex.
  - destruct (ab_beads _ _ _ _ Ha _ _ Ex) as (x & Hx & Hcx). unfold changed in Hcx. rewrite decide_False, Hp in Hcx by done. congruence.
  - apply lookupBead_None in Ex. rewrite <-(ab_ids _ _ _ _ Ha), <-lookupBead_None in Ex. done.
Qed.

(** A crash leaves a scope that still has a failed member. *)
Lemma failure_stable m0 m : scopeFailure m0 → aborting (pend m0) bodyID m0 m → scopeFailure m.
Proof.
  intros Hf Ha. pose proof (sf_nodup _ Hf) as Hnd. destruct (sf_apart _ Hf) as [Hbc Hbs].
  assert (∀ id b0, lookupBead m0 id = Some b0 → id ≠ bodyID → b0.(bStatus) ≠ "open" ∨ pend m0 !! id = None → lookupBead m id = Some b0) as Hsame.
  { intros id b0 H0 Hn Hp. destruct (ab_beads _ _ _ _ Ha id b0 H0) as (b & Hb & Hc). unfold changed in Hc. rewrite decide_False in Hc by done.
    destruct (pend m0 !! id) as [x|] eqn:Ep; [|congruence]. destruct Hp as [Hs|]; [|done]. exfalso. apply Hs.
    apply (pendingOf_spec m0 Hnd) in Ep as [Hx Hp]. assert (x = b0) as -> by congruence.
    destruct Hp as [[_ Hk]|[Ho _]]; [by apply skippable_open|done]. }
  assert (∀ id, is_Some (pend m !! id) → is_Some (pend m0 !! id)) as Hsub.
  { intros id [b Hb]. exists b. by eapply pending_shrinks. }
  assert (∀ id, depsOf m id = depsOf m0 id) as Hdeps by (intros id; unfold depsOf; by rewrite (ab_deps _ _ _ _ Ha)).
  split.
  - by eapply aborting_nodup.
  - apply Hsame; [apply Hf|congruence|right; apply (sf_spared _ Hf)].
  - apply Hf.
  - apply Hf.
  - rewrite Hdeps. apply Hf.
  - destruct (sf_subject _ Hf) as (s & Hs & Hc & Hr & Ho). exists s. split; [|done].
    apply Hsame; [done|congruence|left; by rewrite Hc].
  - destruct (sf_body _ Hf) as (b0 & H0 & Hb). destruct (ab_beads _ _ _ _ Ha _ _ H0) as (b & Hl & Hc). exists b. split; [done|].
    by apply (framed_isBody _ _ _ _ (changed_framed _ _ _ _ _ Hc)).
  - intros id b Hl Hb. destruct (aborting_lookup _ _ _ _ _ _ Ha Hl) as (b0 & H0 & Hc). apply (sf_unique _ Hf id b0 H0).
    by apply (framed_isBody _ _ _ _ (changed_framed _ _ _ _ _ Hc)).
  - apply Hf.
  - split; apply eq_None_not_Some; intros Hs%Hsub; destruct (sf_spared _ Hf) as [H1 H2]; destruct Hs; congruence.
  - intros id b Hp. rewrite Hdeps. apply (sf_checks _ Hf id b). by eapply pending_shrinks.
  - intros dep Hd Ht Hi Ho. rewrite (ab_deps _ _ _ _ Ha) in Hd. apply (sf_ranked _ Hf); [done|done|by apply Hsub|by apply Hsub].
Qed.
End failure.

(** ** Running the programs *)

Section running.
Context (clock : nat → Z) (batchDeps : bool).

Abbreviation h := (graphMem clock).

Lemma settles_andThen {A B} I (p : io StoreError A) (f : A → io StoreError B) t Q :
  settles h I p t (λ r t', match r with Ok a => settles h I (f a) t' Q | Err e => Q (Err e) t' end) →
  settles h I (andThen p f) t Q.
Proof.
  intros Hp. apply settles_bind. eapply settles_mono; [exact Hp|]. intros [a|e] t' Ht HQ; [done|]. by split.
Qed.

Lemma settles_perform {A} I (op : graphE StoreError (res StoreError A)) t Q :
  I t → (let '(r, t') := h _ op t in I t' ∧ Q (match r with Ok a => Ok a | Err e => Err (StoreFailed e) end) t') →
  settles h I (perform op) t Q.
Proof. intros Ht Hop. split; [done|]. destruct (h _ op t) as [r t']. exact Hop. Qed.

(** A program that reads the store and returns [a]. *)
Definition reads {A} (p : io StoreError A) (m : MemStore) (a : A) : Prop :=
  ∀ (J : MemStore → Prop) k Q, J m → (∀ k', Q (Ok a) (m, k')) → settles h (λ t, J t.1) p (m, k) Q.

Lemma reads_ret {A} m (a : A) : reads (Ret (Ok a)) m a.
Proof. intros J k Q HJ HQ. by split. Qed.

Lemma reads_andThen {A B} (p : io StoreError A) (f : A → io StoreError B) m a b :
  reads p m a → reads (f a) m b → reads (andThen p f) m b.
Proof. intros Hp Hf J k Q HJ HQ. apply settles_andThen, Hp; [done|]. intros k'. by apply Hf. Qed.

Lemma settles_reads {A B} (J : MemStore → Prop) (p : io StoreError A) (f : A → io StoreError B) m k a Q :
  reads p m a → J m → (∀ k', settles h (λ t, J t.1) (f a) (m, k') Q) → settles h (λ t, J t.1) (andThen p f) (m, k) Q.
Proof. intros Hp HJ Hf. by apply settles_andThen, Hp. Qed.

Lemma reads_perform {A} (op : graphE StoreError (res StoreError A)) m a :
  (∀ k, h _ op (m, k) = (Ok a, (m, S k))) → reads (perform op) m a.
Proof. intros Hop J k Q HJ HQ. apply settles_perform; [done|]. rewrite Hop. by split. Qed.

Lemma reads_get m id b : lookupBead m id = Some b → reads (perform (GetBead id)) m b.
Proof. intros Hb. apply reads_perform. intros k. cbn. by rewrite Get_lookup, Hb. Qed.

Lemma reads_live m md closed :
  md ≠ ∅ →
  reads (perform (ListLive (liveQuery md closed))) m
    (List.filter (λ b, (closed || (b.(bStatus) != "closed")) && matchesMetadata b md) m.(msBeads)).
Proof. intros Hne. apply reads_perform. intros k. cbn [graphMem fst snd]. by rewrite live_list by done. Qed.

Lemma reads_members m rootID scopeRef : reads (listByWorkflowRootAndScope rootID scopeRef) m (scopeMembers m rootID scopeRef).
Proof.
  unfold scopeMembers. replace (List.filter _ _) with
    (List.filter (λ b, (true || (b.(bStatus) != "closed")) &&
      matchesMetadata b (<[RootBeadIDMetadataKey := rootID]> {[ScopeRefMetadataKey := scopeRef]})) m.(msBeads)).
  - apply reads_live, insert_non_empty.
  - apply filter_ext. intros b. cbn [orb andb]. apply matches_scope.
Qed.

Lemma reads_root m rootID : reads (listByWorkflowRoot notFound rootID) m (rootBeads m rootID).
Proof.
  eapply reads_andThen; [apply reads_live, map_non_empty_singleton|]. intros J k Q HJ HQ.
  replace (List.filter _ _) with (underRoot m rootID) by (apply filter_ext; intros b; cbn [orb andb]; by rewrite matches_root).
  split; [done|]. cbn [trigger bind graphMem fst snd]. split; [done|]. rewrite Get_lookup. specialize (HQ (S k)). unfold rootBeads in HQ.
  by destruct (lookupBead m rootID).
Qed.

(** *** Dependencies *)

Lemma depBatch_lookup (ids : list string) l acc id :
  id ∈ ids →
  default [] (foldl (λ acc d, if bool_decide (d.(IssueID) ∈ ids) then <[d.(IssueID) := default [] (acc !! d.(IssueID)) ++ [d]]> acc else acc)
    (acc : gmap string (list Dep)) l !! id) = default [] (acc !! id) ++ List.filter (λ d, d.(IssueID) == id) l.
Proof.
  intros Hin. revert acc. induction l as [|d l IH]; intros acc; [by rewrite app_nil_r|]. cbn [foldl List.filter]. rewrite IH.
  destruct (decide (d.(IssueID) = id)) as [He|Hn].
  - rewrite He, (bool_decide_true (id ∈ ids)), bool_decide_true, lookup_insert_eq by done. cbn. by rewrite <-app_assoc.
  - rewrite (bool_decide_false (d.(IssueID) = id)) by done. f_equal. case_bool_decide; [|done]. by rewrite lookup_insert_ne.
Qed.

Lemma reads_deps_loop m ids acc :
  ∃ D, reads (downDepsLoop ids acc) m D ∧ (∀ id, id ∈ ids → D !! id = Some (depsOf m id)) ∧ ∀ id, id ∉ ids → D !! id = acc !! id.
Proof.
  revert acc. induction ids as [|id ids IH]; intros acc.
  - exists acc. split; [apply reads_ret|]. split; [by intros id ?%elem_of_nil|done].
  - destruct (IH (<[id := depsOf m id]> acc)) as (D & HD & Hin & Hout). exists D. split; [|split].
    + eapply reads_andThen; [|exact HD]. apply reads_perform. intros k. done.
    + intros i [->|Hi]%elem_of_cons; [|by apply Hin]. destruct (decide (id ∈ ids)) as [Hd|Hd]; [by apply Hin|].
      by rewrite Hout, lookup_insert_eq by done.
    + intros i [Hi Hn]%not_elem_of_cons. by rewrite Hout, lookup_insert_ne by done.
Qed.

(** One by one or in a batch, the dependencies of a bead are the same. *)
Lemma reads_deps m ids :
  ∃ D, reads (loadDownDepsForScopeSkip batchDeps ids) m D ∧ ∀ id, id ∈ ids → default [] (D !! id) = depsOf m id.
Proof.
  destruct ids as [|i ids]; [exists ∅; split; [apply reads_ret|by intros id ?%elem_of_nil]|].
  unfold loadDownDepsForScopeSkip. destruct batchDeps.
  - eexists. split; [by apply reads_perform|]. intros id Hin. by rewrite depBatch_lookup.
  - destruct (reads_deps_loop m (i :: ids) ∅) as (D & HD & Hin & _). exists D. split; [done|]. intros id Hid. by rewrite Hin.
Qed.

(** *** Writes *)

Lemma settles_close (J : MemStore → Prop) m k id b outcome Q :
  NoDup (bID <$> m.(msBeads)) → lookupBead m id = Some b → J m →
  (∀ m' b' k', stored m id b' m' → closedWith outcome b b' → J m' ∧ Q (Ok ()) (m', k')) →
  settles h (λ t, J t.1) (setOutcomeAndClose id outcome) (m, k) Q.
Proof.
  intros Hnd Hb HJ HQ. destruct (Update_stored (clock k) m id (statusUpdate "closed" {[OutcomeMetadataKey := outcome]}) b Hnd Hb) as (m' & Hu & Hs).
  pose proof (closed_update (clock k) outcome b) as Hc.
  apply settles_andThen, settles_perform; [done|]. cbn [graphMem]. rewrite Hu. cbn [fst snd].
  destruct (HQ m' _ k Hs Hc) as [HJ' _]. split; [done|].
  eapply settles_reads; [eapply reads_get; by rewrite (st_lookup _ _ _ _ Hs), decide_True|done|]. intros k'.
  destruct Hc as (_ & Hst & _). rewrite Hst. cbn. split; [done|]. by eapply HQ; [|apply closed_update].
Qed.

Definition skippedIn (m0 m : MemStore) (id : string) : Prop :=
  ∃ b0 b, lookupBead m0 id = Some b0 ∧ lookupBead m id = Some b ∧ closedWith OutcomeSkipped b0 b.

Lemma foldr_delete_lookup (P : gmap string Bead) ids id : foldr delete P ids !! id = if decide (id ∈ ids) then None else P !! id.
Proof.
  induction ids as [|i ids IH]; [done|]. cbn [foldr]. destruct (decide (id = i)) as [->|Hn].
  - rewrite lookup_delete_eq, decide_True by left. done.
  - rewrite lookup_delete_ne, IH by done. destruct (decide (id ∈ ids)); [rewrite decide_True by (by right)|rewrite decide_False by set_solver]; done.
Qed.

Lemma foldr_delete_size (P : gmap string Bead) ids id : id ∈ ids → is_Some (P !! id) → (size (foldr delete P ids) < size P)%nat.
Proof.
  intros Hin Hs. assert (size (delete id P) < size P)%nat.
  { destruct Hs as [b Hb]. rewrite (map_size_delete_Some id P) by done. assert (size P ≠ 0)%nat; [|lia].
    intros H0%map_size_empty_inv. by rewrite H0 in Hb. }
  assert (size (foldr delete P ids) ≤ size (delete id P))%nat; [|lia]. apply map_subseteq_size, map_subseteq_spec. intros i b.
  rewrite foldr_delete_lookup. case_decide as Hd; [done|]. intros Hb. rewrite lookup_delete_ne; [done|]. by intros ->.
Qed.

Section skipping.
Context (m0 : MemStore) (P0 : gmap string Bead) (bodyID control : string) (rank : string → nat).
Context (Hnd : NoDup (bID <$> m0.(msBeads))) (Hbody : P0 !! bodyID = None).
Context (Hopen : ∀ id b, P0 !! id = Some b → lookupBead m0 id = Some b ∧ b.(bStatus) = "open").
Context (Hrank : ranked m0 P0 rank).
Context (Hchecks : ∀ id b, P0 !! id = Some b → preserveScopeCheckForSubject b (depsOf m0 id) control = false).
Context (J : MemStore → Prop) (HJ : ∀ m, aborting P0 bodyID m0 m → J m).

(** The loop ends, with every pending bead closed as skipped. *)
Lemma skipLoop_settles fuel P skipped m k Q :
  aborting P0 bodyID m0 m → (size P ≤ fuel)%nat → P ⊆ P0 → (∀ id b, P !! id = Some b → lookupBead m id = Some b) →
  (∀ id, is_Some (P0 !! id) → P !! id = None → skippedIn m0 m id) →
  (∀ n m' k', aborting P0 bodyID m0 m' → (∀ id, is_Some (P0 !! id) → skippedIn m0 m' id) → Q (Ok n) (m', k')) →
  settles h (λ t, J t.1) (skipLoop batchDeps fuel control P skipped) (m, k) Q.
Proof.
  revert P skipped m k. induction fuel as [|fuel IH]; intros P skipped m k Ha Hsz Hsub Hl Hs HQ; cbn [skipLoop].
  { split; [by apply HJ|]. apply HQ; [done|]. intros id Hid. apply Hs; [done|]. assert (P = ∅) as -> by (apply map_size_empty_inv; lia). apply lookup_empty. }
  case_bool_decide as Hne. { subst P. split; [by apply HJ|]. apply HQ; [done|]. intros id Hid. apply Hs; [done|apply lookup_empty]. }
  assert (∀ id, depsOf m id = depsOf m0 id) as Hdeps by (intros id; unfold depsOf; by rewrite (ab_deps _ _ _ _ Ha)).
  destruct (reads_deps m (sortedPendingIDs P)) as (D & HD & Hin). eapply settles_reads; [exact HD|by apply HJ|]. intros k'.
  assert (∀ id, is_Some (P !! id) → default [] (D !! id) = depsOf m0 id) as HD0.
  { intros id Hid. rewrite <-Hdeps. apply Hin. by apply elem_sortedPendingIDs. }
  rewrite skipPass_none.
  2:{ intros id [b Hb]%elem_sortedPendingIDs. rewrite HD0, Hb by eauto. apply Hchecks. by eapply lookup_weaken. }
  assert (List.filter (λ id, canSkipScopeMemberWithDeps (default [] (D !! id)) P) (sortedPendingIDs P) ≠ []) as Hprog.
  { apply (round_progress m0 P rank); [|done|done]. intros dep Hd Ht [? Hi] [? Ho]. apply Hrank; [done|done|exists x; by eapply lookup_weaken|eexists; by eapply lookup_weaken]. }
  set (ids := List.filter _ _) in *. destruct ids as [|i0 rest] eqn:Eids; [done|]. rewrite <-Eids in *. clear Hprog.
  assert (∀ id, id ∈ ids → ∃ b, P !! id = Some b) as Hids.
  { intros id Hi. unfold ids in Hi. apply list_elem_of_In, filter_In in Hi as [Hi _]. by apply list_elem_of_In, elem_sortedPendingIDs in Hi. }
  assert (bodyID ∉ ids) as Hnb. { intros (b & Hb)%Hids. eapply lookup_weaken in Hb; [|exact Hsub]. congruence. }
  destruct (aborting_skip P0 bodyID (clock k') m0 m ids Ha Hnd Hnb) as (Ha' & Hsk & Hout).
  { intros id (b & Hb)%Hids. pose proof (lookup_weaken _ _ _ _ Hb Hsub) as Hb0. destruct (Hopen id b Hb0) as [H0 Ho].
    split; [by exists b|]. exists b. split; [by apply Hl|done]. }
  apply settles_andThen, settles_perform; [by apply HJ|]. cbn [graphMem].
  destruct (CloseAll (clock k') ids skipMetadata m) as [[n|e] m'] eqn:Eca; [|by unfold CloseAll in Eca]. cbn [fst snd] in *. split; [by apply HJ|].
  apply IH; [done| | | | |done].
  - assert (size (foldr delete P ids) < size P)%nat; [|lia]. apply (foldr_delete_size P ids i0); [rewrite Eids; left|]. apply Hids. rewrite Eids. left.
  - apply map_subseteq_spec. intros id b. rewrite foldr_delete_lookup. case_decide; [done|]. intros Hb. by eapply lookup_weaken.
  - intros id b. rewrite foldr_delete_lookup. case_decide as Hd; [done|]. intros Hb. rewrite Hout by done. by apply Hl.
  - intros id Hid. rewrite foldr_delete_lookup. case_decide as Hd; [intros _; by apply Hsk|]. intros Hn.
    destruct (Hs id Hid Hn) as (b0 & b & H0 & Hb & Hc). exists b0, b. rewrite Hout by done. done.
Qed.
End skipping.

(** *** The body *)

Lemma find_unique {A} (f : A → bool) l x : x ∈ l → f x = true → (∀ y, y ∈ l → f y = true → y = x) → find f l = Some x.
Proof.
  intros Hin Hf Hu. destruct (find f l) as [y|] eqn:E.
  - apply find_some in E as [Hy Hfy]. apply list_elem_of_In in Hy. by rewrite (Hu y Hy Hfy).
  - apply list_elem_of_In in Hin. pose proof (find_none f l E x Hin). congruence.
Qed.

Lemma matches_body rootID b :
  matchesMetadata b (<[RootBeadIDMetadataKey := rootID]> (<[KindMetadataKey := KindScope]> {[ScopeRoleMetadataKey := ScopeRoleBody]})) = true ↔
  b.(bMetadata).[RootBeadIDMetadataKey] = rootID ∧ b.(bMetadata).[KindMetadataKey] = KindScope ∧ b.(bMetadata).[ScopeRoleMetadataKey] = ScopeRoleBody.
Proof.
  rewrite matchesMetadata_spec, !map_Forall_insert, map_Forall_singleton by done. done.
Qed.

Section body.
Context (m : MemStore) (rootID scopeRef bodyID : string) (b : Bead).
Context (Hnd : NoDup (bID <$> m.(msBeads))) (Hb : lookupBead m bodyID = Some b) (Hbody : isBody rootID scopeRef b).
Context (Huniq : ∀ id x, lookupBead m id = Some x → isBody rootID scopeRef x → id = bodyID).

Lemma body_unique x : x ∈ m.(msBeads) → isBody rootID scopeRef x → x = b.
Proof.
  intros Hx Hi. assert (lookupBead m x.(bID) = Some x) as Hl by (by apply lookupBead_Some).
  pose proof (Huniq _ _ Hl Hi) as He. rewrite He in Hl. congruence.
Qed.

Lemma reads_by_role closed :
  reads (resolveScopeBodyByRole rootID scopeRef closed) m (if closed || (b.(bStatus) != "closed") then Some b else None).
Proof.
  eapply reads_andThen; [apply reads_live, insert_non_empty|].
  destruct (proj1 (lookupBead_Some m bodyID b Hnd) Hb) as [Hin _]. destruct Hbody as (H1 & H2 & H3 & H4). cbn beta.
  set (l := List.filter _ _). assert (∀ x, x ∈ l → matchesScopeRef x scopeRef = true → x = b) as Hl.
  { intros x Hx Hm. unfold l in Hx. apply list_elem_of_In, filter_In in Hx as [Hx Hf]. apply list_elem_of_In in Hx.
    apply andb_true_iff in Hf as [_ (? & ? & ?)%matches_body]. by apply body_unique. }
  destruct (closed || (b.(bStatus) != "closed")) eqn:Ec.
  - rewrite (find_unique _ l b); [apply reads_ret| |done|done]. unfold l. apply list_elem_of_In, filter_In. split; [by apply list_elem_of_In|].
    rewrite Ec. by apply matches_body.
  - destruct (find _ l) as [x|] eqn:Ef; [|apply reads_ret]. exfalso. apply find_some in Ef as [Hx Hm].
    pose proof Hx as Hx'. apply list_elem_of_In in Hx'. rewrite (Hl x Hx' Hm) in Hx. unfold l in Hx. apply filter_In in Hx as [_ Hx]. by rewrite Ec in Hx.
Qed.

(** The body is found open or closed, at the first attempt. *)
Lemma reads_body : reads (scopeBodyFor notFound rootID scopeRef) m b.
Proof.
  assert (reads (resolveScopeBodyOnce notFound rootID scopeRef) m b) as Ho.
  { eapply reads_andThen; [apply reads_by_role|]. cbn [orb]. destruct (b.(bStatus) != "closed"); [apply reads_ret|].
    eapply reads_andThen; [apply reads_by_role|]. apply reads_ret. }
  intros J k Q HJ HQ. apply settles_bind. unfold resolveScopeBody, scopeBodyResolveAttempts. cbn [Nat.sub resolveScopeBodyLoop].
  apply settles_bind, Ho; [done|]. intros k'. split; [done|]. by split.
Qed.
End body.

(** ** The theorem *)

Section abort.
Context (c : Bead) (subjectID bodyID : string) (rank : string → nat) (m0 : MemStore).
Context (Hf : scopeFailure c subjectID bodyID rank m0).

Let rootID := c.(bMetadata).[RootBeadIDMetadataKey].
Let scopeRef := c.(bMetadata).[ScopeRefMetadataKey].
Let P0 := pendingOf m0 rootID scopeRef c.(bID).

(** The abort is complete: the control is closed as passed, the body as failed,
    the pending beads as skipped, and no other bead has changed. *)
Record aborted (m : MemStore) : Prop := {
  ad_deps : m.(msDeps) = m0.(msDeps);
  ad_control : ∃ b, lookupBead m c.(bID) = Some b ∧ closedWith OutcomePass c b;
  ad_body : ∃ b0 b, lookupBead m0 bodyID = Some b0 ∧ lookupBead m bodyID = Some b ∧ closedWith OutcomeFail b0 b;
  ad_pending : ∀ id, is_Some (P0 !! id) → skippedIn m0 m id;
  ad_others : ∀ id, id ≠ c.(bID) → id ≠ bodyID → P0 !! id = None → lookupBead m id = lookupBead m0 id
}.

Definition underway (m : MemStore) : Prop := aborting P0 bodyID m0 m ∨ aborted m.

Lemma pending_open id b : P0 !! id = Some b → lookupBead m0 id = Some b ∧ b.(bStatus) = "open".
Proof.
  intros [Hl Hp]%(pendingOf_spec m0 (sf_nodup _ _ _ _ _ Hf)). split; [done|].
  destruct Hp as [[_ Hs]|[Ho _]]; [by eapply skippable_open|done].
Qed.

Lemma underway_abort m : aborting P0 bodyID m0 m → underway m.
Proof. by left. Qed.

(** Everything is closed but the control. *)
Record bodyClosed (m : MemStore) : Prop := {
  bc_aborting : aborting P0 bodyID m0 m;
  bc_pending : ∀ id, is_Some (P0 !! id) → skippedIn m0 m id;
  bc_body : ∃ b0 b, lookupBead m0 bodyID = Some b0 ∧ lookupBead m bodyID = Some b ∧ closedWith OutcomeFail b0 b
}.

Lemma skippedIn_kept m m' : (∀ id, id ≠ bodyID → lookupBead m' id = lookupBead m id) →
  (∀ id, is_Some (P0 !! id) → skippedIn m0 m id) → ∀ id, is_Some (P0 !! id) → skippedIn m0 m' id.
Proof.
  intros He Hs id Hid. destruct (Hs id Hid) as (b0 & b & H0 & Hb & Hc). exists b0, b. split; [done|]. rewrite He; [done|].
  intros ->. destruct (sf_spared _ _ _ _ _ Hf) as [_ Hsb]. fold rootID scopeRef P0 in Hsb. rewrite Hsb in Hid. by destruct Hid.
Qed.

Lemma body_settles {B} m k (f : unit → io StoreError B) Q :
  aborting P0 bodyID m0 m → (∀ id, is_Some (P0 !! id) → skippedIn m0 m id) →
  (∀ m' k', bodyClosed m' → settles h (λ t, underway t.1) (f ()) (m', k') Q) →
  settles h (λ t, underway t.1) (andThen (setOutcomeAndClose bodyID OutcomeFail) f) (m, k) Q.
Proof.
  intros Ha Hs HQ. pose proof (sf_nodup _ _ _ _ _ Hf) as Hnd. destruct (sf_body _ _ _ _ _ Hf) as (b0 & H0 & _).
  destruct (ab_beads _ _ _ _ Ha _ _ H0) as (b1 & H1 & Hc1). pose proof (changed_framed _ _ _ _ _ Hc1) as Hf1.
  apply settles_andThen. eapply settles_close; [by eapply aborting_nodup|exact H1|by left|]. intros m1 b2 k1 Hst Hc2.
  assert (bodyClosed m1) as Hb.
  { split.
    - eapply aborting_body; [exact Ha|exact H1|apply Hc2|right; apply Hc2|exact Hst].
    - apply (skippedIn_kept m); [|done]. intros id Hn. by rewrite (st_lookup _ _ _ _ Hst), decide_False.
    - exists b0, b2. rewrite (st_lookup _ _ _ _ Hst), decide_True by done. split; [done|]. split; [done|].
      destruct Hc2 as (Hf2 & ?). split; [by eapply framed_trans|done]. }
  split; [left; apply Hb|]. by apply HQ.
Qed.

Lemma control_settles m k Q :
  bodyClosed m → (∀ m' k', aborted m' → Q (Ok ()) (m', k')) →
  settles h (λ t, underway t.1) (setOutcomeAndClose c.(bID) OutcomePass) (m, k) Q.
Proof.
  intros [Ha Hs (b0 & b1 & H0 & H1 & Hc1)] HQ. pose proof (sf_nodup _ _ _ _ _ Hf) as Hnd. destruct (sf_apart _ _ _ _ _ Hf) as [Hbc _].
  destruct (sf_spared _ _ _ _ _ Hf) as [Hsc _]. fold rootID scopeRef P0 in Hsc.
  assert (∀ id, id ≠ bodyID → P0 !! id = None → lookupBead m id = lookupBead m0 id) as Hsame.
  { intros id Hn Hp. by eapply unchanged_bead. }
  eapply settles_close; [by eapply aborting_nodup|rewrite Hsame by done; apply Hf|by left|]. intros m2 b3 k2 Hst Hc3.
  assert (aborted m2) as Hd.
  { split.
    - rewrite (st_deps _ _ _ _ Hst). apply (ab_deps _ _ _ _ Ha).
    - exists b3. rewrite (st_lookup _ _ _ _ Hst), decide_True by done. done.
    - exists b0, b1. rewrite (st_lookup _ _ _ _ Hst), decide_False by done. done.
    - intros id Hid. destruct (Hs id Hid) as (x0 & x & Hx0 & Hx & Hcx). exists x0, x.
      rewrite (st_lookup _ _ _ _ Hst), decide_False by (intros ->; rewrite Hsc in Hid; by destruct Hid). done.
    - intros id Hic Hib Hp. rewrite (st_lookup _ _ _ _ Hst), decide_False by done. by apply Hsame. }
  split; [by right|]. by apply HQ.
Qed.

(** The metadata of the members reaches the body. *)
Lemma propagate_settles {B} m k members (f : unit → io StoreError B) Q :
  aborting P0 bodyID m0 m →
  (∀ m' k', aborting P0 bodyID m0 m' → (∀ id, id ≠ bodyID → lookupBead m' id = lookupBead m id) → settles h (λ t, underway t.1) (f ()) (m', k') Q) →
  settles h (λ t, underway t.1) (andThen (propagateScopeMemberMetadata members bodyID) f) (m, k) Q.
Proof.
  intros Ha HQ. pose proof (sf_nodup _ _ _ _ _ Hf) as Hnd. unfold propagateScopeMemberMetadata.
  apply settles_andThen. case_bool_decide as Hne. { split; [by left|]. by apply HQ. }
  destruct (sf_body _ _ _ _ _ Hf) as (b0 & H0 & _). destruct (ab_beads _ _ _ _ Ha _ _ H0) as (b1 & H1 & _).
  destruct (SetMetadataBatch_stored (clock k) m bodyID (memberMetadata members) b1) as (m' & Hu & Hst); [by eapply aborting_nodup|done|done|].
  assert (aborting P0 bodyID m0 m') as Ha'.
  { eapply aborting_body; [exact Ha|exact H1| | |exact Hst]; [|by left]. apply framed_batch. intros key. apply memberMetadata_gc. }
  apply settles_perform; [by left|]. cbn [graphMem]. rewrite Hu. cbn [fst snd]. split; [by left|]. apply HQ; [done|].
  intros id Hn. by rewrite (st_lookup _ _ _ _ Hst), decide_False.
Qed.

Lemma process_settles k :
  settles h (λ t, underway t.1) (processScopeCheck notFound batchDeps c) (m0, k)
    (λ r t, (∃ n, r = Ok (mkControlResult true "scope-fail" n)) ∧ aborted t.1).
Proof.
  pose proof (sf_nodup _ _ _ _ _ Hf) as Hnd. pose proof (aborting_refl P0 bodyID m0) as Hr. assert (underway m0) as HJ by (by left).
  destruct (sf_dep _ _ _ _ _ Hf) as (dep & Hdep & Hto). destruct (sf_subject _ _ _ _ _ Hf) as (s & Hs & Hcl & Hra & Hfail).
  destruct (sf_body _ _ _ _ _ Hf) as (b & Hb & Hisb).
  unfold processScopeCheck. fold rootID scopeRef. eapply settles_reads; [|done|].
  { eapply reads_andThen; [by apply reads_perform|]. change (List.filter _ _) with (depsOf m0 c.(bID)). rewrite Hdep, Hto. apply reads_ret. }
  clear k. intros k. eapply settles_reads; [by apply reads_get|done|]. clear k. intros k.
  rewrite (bool_decide_false (rootID = "")), (bool_decide_false (scopeRef = "")) by apply Hf.
  eapply settles_reads; [eapply (reads_body m0 rootID scopeRef bodyID b); [done|done|done|apply Hf]|done|]. clear k. intros k.
  rewrite Hcl, Hra, Hfail. cbn [negb]. change ("closed" == "closed") with true. cbn [negb].
  eapply settles_reads; [eapply reads_andThen; [apply reads_members|apply reads_ret]|done|]. clear k. intros k.
  apply settles_andThen. unfold abortScope, skipOpenScopeMembers. cbn [ssAllComplete ssRootID ssMembers ssBody].
  replace b.(bID) with bodyID by (by apply lookupBead_Some in Hb as [_ ?]).
  apply settles_andThen. eapply settles_reads; [apply reads_root|done|]. clear k. intros k.
  change (pendingMembers _ _ _) with P0.
  eapply (skipLoop_settles m0 P0 bodyID c.(bID) rank); [done|apply Hf|apply pending_open|apply Hf|apply Hf|by left|done|done|done|apply pending_open| |].
  { intros id [x Hx] Hn. congruence. }
  clear k. intros n m1 k Ha Hsk. apply propagate_settles; [done|]. clear k. intros m2 k Ha2 Hkeep.
  apply body_settles; [done|by eapply skippedIn_kept|]. clear k. intros m3 k Hbc. split; [left; apply Hbc|].
  apply settles_andThen, control_settles; [done|]. clear k. intros m4 k Had. split; [by right|]. split; [by exists n|done].
Qed.
End abort.
End running.

(** An abort that was begun and one that was completed make an abort. *)
Lemma aborted_trans c subjectID bodyID rank m0 m1 m2 :
  scopeFailure c subjectID bodyID rank m0 →
  aborting (pendingOf m0 c.(bMetadata).[RootBeadIDMetadataKey] c.(bMetadata).[ScopeRefMetadataKey] c.(bID)) bodyID m0 m1 →
  aborted c bodyID m1 m2 → aborted c bodyID m0 m2.
Proof.
  intros Hf Ha [Hd Hc (b1 & b2 & Hb1 & Hb2 & Hcl) Hp Ho]. pose proof (sf_nodup _ _ _ _ _ Hf) as Hnd. pose proof (aborting_nodup _ _ _ _ Ha Hnd) as Hnd1.
  destruct (sf_spared _ _ _ _ _ Hf) as [Hsc Hsb].
  set (P := λ m, pendingOf m c.(bMetadata).[RootBeadIDMetadataKey] c.(bMetadata).[ScopeRefMetadataKey] c.(bID)).
  assert (∀ id b, P m1 !! id = Some b → P m0 !! id = Some b) as Hshrink by (intros; by eapply pending_shrinks).
  split.
  - rewrite Hd. apply (ab_deps _ _ _ _ Ha).
  - done.
  - destruct (aborting_lookup _ _ _ _ _ _ Ha Hb1) as (b0 & H0 & Hc0). exists b0, b2. split; [done|]. split; [done|].
    destruct Hcl as [Hfr ?]. split; [|done]. eapply framed_trans; [by eapply changed_framed|done].
  - intros id [b0 Hb0]. destruct (P m1 !! id) as [b|] eqn:E1.
    + pose proof (Hshrink _ _ E1) as Hb. destruct (Hp id) as (x1 & x & Hx1 & Hx & Hcx); [by exists b|].
      exists x1, x. split; [|done]. apply (pendingOf_spec m0 Hnd) in Hb as [Hb _]. apply (pendingOf_spec m1 Hnd1) in E1 as [E1 _]. congruence.
    + assert (id ≠ bodyID) as Hnb by (intros ->; congruence). assert (id ≠ c.(bID)) as Hnc by (intros ->; congruence).
      pose proof (proj1 (pendingOf_spec m0 Hnd _ _ _ _ _) Hb0) as [H0 _]. destruct (ab_beads _ _ _ _ Ha _ _ H0) as (b & Hb & Hcb).
      exists b0, b. split; [done|]. rewrite Ho by done. split; [done|]. unfold changed in Hcb. rewrite decide_False, Hb0 in Hcb by done.
      destruct Hcb as [->|?]; [|done]. exfalso. by rewrite (pending_kept _ _ _ _ _ _ _ _ Hf Ha Hb0 Hb : P m1 !! id = _) in E1.
  - intros id Hnc Hnb Hp0. rewrite Ho; [by eapply unchanged_bead|done|done|]. destruct (P m1 !! id) as [b|] eqn:E1; [|done].
    pose proof (Hshrink _ _ E1) as Hb. unfold P in Hb. by rewrite Hp0 in Hb.
Qed.

(** C18 A scope abort survives crashes: when a control bead follows a failed
    member, processing it, stopped after any number of store calls and processed
    again (whatever the clock reads), ends with the answer [scope-fail], the
    control closed as passed, the body closed as failed, every open member and
    open attempt of a member closed as skipped, and no other bead touched. *)
Theorem scope_abort_recovers c subjectID bodyID rank m n clock1 clock2 batch :
  scopeFailure c subjectID bodyID rank m →
  let stopped := (runN n (graphMem clock1) (processScopeCheck notFound batch c) (m, 0%nat)).1 in
  aborted c bodyID m stopped ∨
  ∃ skipped m' k, run (graphMem clock2) (processScopeCheck notFound batch c) (stopped, 0%nat) = (Ok (mkControlResult true "scope-fail" skipped), (m', k)) ∧
    aborted c bodyID m m'.
Proof.
  intros Hf stopped. pose proof (process_settles clock1 batch c subjectID bodyID rank m Hf 0) as Hs.
  destruct (settles_runN _ _ _ _ _ n Hs) as [Ha|Hd]; [right|by left]. fold stopped in Ha.
  pose proof (failure_stable _ _ _ _ _ _ Hf Ha) as Hf1.
  destruct (settles_run _ _ _ _ _ (process_settles clock2 batch c subjectID bodyID rank stopped Hf1 0)) as [[k Hr] Had].
  destruct (run (graphMem clock2) (processScopeCheck notFound batch c) (stopped, 0%nat)) as [r [m' k']]. cbn [fst snd] in Hr, Had. subst r.
  exists k, m', k'. split; [done|]. by eapply aborted_trans.
Qed.

(** ** Scopes that go on or pass *)

Lemma SetMetadata_stored now m id key value b :
  NoDup (bID <$> m.(msBeads)) → lookupBead m id = Some b →
  ∃ m', SetMetadata now id key value m = (Ok (), m') ∧ stored m id (touch now (setMetadataMap b (<[key := value]> b.(bMetadata)))) m'.
Proof.
  intros Hnd [i Hi]%indexOf_of_lookup. unfold SetMetadata. rewrite Hi. eexists. split; [done|]. by eapply stored_putAt.
Qed.

(** A sequence of writes to one bead. *)
Lemma stored_trans m id b1 m1 b2 m2 : stored m id b1 m1 → stored m1 id b2 m2 → stored m id b2 m2.
Proof.
  intros H1 H2. split.
  - intros i. rewrite (st_lookup _ _ _ _ H2). case_decide; [done|]. rewrite (st_lookup _ _ _ _ H1). by rewrite decide_False.
  - by rewrite (st_ids _ _ _ _ H2), (st_ids _ _ _ _ H1).
  - by rewrite (st_deps _ _ _ _ H2), (st_deps _ _ _ _ H1).
  - by rewrite (st_seq _ _ _ _ H2), (st_seq _ _ _ _ H1).
Qed.

Lemma stored_refl m id b : lookupBead m id = Some b → stored m id b m.
Proof. intros Hb. split; [|done|done|done]. intros i. case_decide; [by subst|done]. Qed.

Lemma stored_nodup m id b m' : stored m id b m' → NoDup (bID <$> m.(msBeads)) → NoDup (bID <$> m'.(msBeads)).
Proof. intros Hs. by rewrite (st_ids _ _ _ _ Hs). Qed.

Lemma reads_active clock m rootID scopeRef :
  reads clock (listActiveByWorkflowRootAndScope rootID scopeRef) m
    (List.filter (λ b, b.(bStatus) != "closed") (scopeMembers m rootID scopeRef)).
Proof.
  unfold scopeMembers. replace (List.filter _ (List.filter _ _)) with
    (List.filter (λ b, (false || (b.(bStatus) != "closed")) &&
      matchesMetadata b (<[RootBeadIDMetadataKey := rootID]> {[ScopeRefMetadataKey := scopeRef]})) m.(msBeads)).
  - apply reads_live, insert_non_empty.
  - induction m.(msBeads) as [|b l IH]; [done|]. cbn [List.filter]. rewrite matches_scope, IH. cbn [orb].
    destruct (inScope rootID scopeRef b); cbn [List.filter]; [|by rewrite andb_false_r]. by rewrite andb_true_r.
Qed.

Lemma active_open m rootID scopeRef ignored :
  snapshotHasOpen (List.filter (λ b, b.(bStatus) != "closed") (scopeMembers m rootID scopeRef)) ignored =
  snapshotHasOpen (scopeMembers m rootID scopeRef) ignored.
Proof.
  unfold snapshotHasOpen. induction (scopeMembers m rootID scopeRef) as [|b l IH]; [done|]. cbn [List.filter existsb].
  destruct (b.(bStatus) != "closed") eqn:E; cbn [existsb]; rewrite IH; [done|].
  apply negb_false_iff, bool_decide_eq_true in E. unfold openMember at 2. by rewrite E.
Qed.

Section passing.
Context (clock : nat → Z) (c subject body : Bead) (m : MemStore).

Let rootID := c.(bMetadata).[RootBeadIDMetadataKey].
Let scopeRef := c.(bMetadata).[ScopeRefMetadataKey].

(** The control follows a member that is closed and does not fail the scope. *)
Record scopeSound : Prop := {
  so_nodup : NoDup (bID <$> m.(msBeads));
  so_control : lookupBead m c.(bID) = Some c;
  so_root : rootID ≠ "";
  so_ref : scopeRef ≠ "";
  so_dep : ∃ dep, find (λ d, d.(DepType) == "blocks") (depsOf m c.(bID)) = Some dep ∧ dep.(DependsOnID) = subject.(bID);
  so_subject : lookupBead m subject.(bID) = Some subject ∧ subject.(bStatus) = "closed";
  so_verdict : isRetryAttemptSubject subject = true ∨ beadOutcomeFailed subject = false;
  so_body : lookupBead m body.(bID) = Some body ∧ isBody rootID scopeRef body;
  so_unique : ∀ id b, lookupBead m id = Some b → isBody rootID scopeRef b → id = body.(bID);
  so_apart : body.(bID) ≠ c.(bID)
}.
Context (Hs : scopeSound).

Abbreviation any := (λ _ : MemStore * nat, True).

(** The body after the scope has passed: the members' metadata, the output, and
    the outcome unless it was closed before. *)
Definition passedBody (members : list Bead) (b : Bead) : Prop :=
  b.(bID) = body.(bID) ∧ b.(bStatus) = "closed" ∧
  (∀ key, HasPrefix key Namespace = false → b.(bMetadata).[key] = (memberMetadata members ∪ body.(bMetadata)).[key]) ∧
  b.(bMetadata).[OutcomeMetadataKey] = (if body.(bStatus) == "closed" then body.(bMetadata).[OutcomeMetadataKey] else OutcomePass) ∧
  b.(bMetadata).[OutputJSONMetadataKey] =
    (let output := resolveScopeOutputJSON members subject in if output == "" then body.(bMetadata).[OutputJSONMetadataKey] else output).

Lemma applyUpdate_closed_meta now md b :
  (applyUpdate now (statusUpdate "closed" md) b).(bMetadata) = md ∪ b.(bMetadata).
Proof.
  unfold applyUpdate. cbn [statusUpdate oTitle oStatus oType oPriority oDescription oParentID oAssignee oLabels oRemoveLabels oMetadata optApply].
  by destruct (isOwnershipTransition _ _ _).
Qed.

(** Closing, with the metadata of the result. *)
Lemma settles_close_meta m1 k id b outcome Q :
  NoDup (bID <$> m1.(msBeads)) → lookupBead m1 id = Some b →
  (∀ m' b' k', stored m1 id b' m' → b'.(bID) = b.(bID) → b'.(bStatus) = "closed" → b'.(bMetadata) = <[OutcomeMetadataKey := outcome]> b.(bMetadata) → Q (Ok ()) (m', k')) →
  settles (graphMem clock) any (setOutcomeAndClose id outcome) (m1, k) Q.
Proof.
  intros Hnd Hb HQ. destruct (Update_stored (clock k) m1 id (statusUpdate "closed" {[OutcomeMetadataKey := outcome]}) b Hnd Hb) as (m' & Hu & Hst).
  pose proof (closed_update (clock k) outcome b) as (Hfr & Hcl & _).
  apply settles_andThen, settles_perform; [done|]. cbn [graphMem]. rewrite Hu. cbn [fst snd]. split; [done|].
  eapply (settles_reads clock (λ _, True)); [eapply reads_get; by rewrite (st_lookup _ _ _ _ Hst), decide_True|done|]. intros k'.
  rewrite Hcl. split; [done|]. eapply HQ; [done|by rewrite (fr_id _ _ Hfr)|done|]. rewrite applyUpdate_closed_meta. symmetry. apply insert_union_singleton_l.
Qed.

Lemma pass_settles k members Q :
  (∀ m' b' k', stored m body.(bID) b' m' → passedBody members b' → Q (Ok ()) (m', k')) →
  settles (graphMem clock) any (closeScopeAsPassed (mkScopeSnapshot rootID scopeRef (mergeScopeSnapshotBeads members body) false members body) subject) (m, k) Q.
Proof.
  intros HQ. destruct Hs as [Hnd _ _ _ _ _ _ [Hb _] _ _]. unfold closeScopeAsPassed. cbn [ssBody ssMembers].
  set (output := resolveScopeOutputJSON members subject). set (batch := memberMetadata members).
  apply settles_andThen.
  (* the metadata of the members *)
  assert (∀ Q', (∀ m1 b1 k1, stored m body.(bID) b1 m1 → b1.(bID) = body.(bID) → b1.(bStatus) = body.(bStatus) → b1.(bMetadata) = batch ∪ body.(bMetadata) → Q' (Ok ()) (m1, k1)) →
    settles (graphMem clock) any (propagateScopeMemberMetadata members body.(bID)) (m, k) Q') as H1.
  { intros Q' HQ'. unfold propagateScopeMemberMetadata. fold batch. case_bool_decide as Hne.
    - split; [done|]. eapply HQ'; [by apply stored_refl|done|done|]. by rewrite Hne, (left_id_L ∅ (∪)).
    - destruct (SetMetadataBatch_stored (clock k) m body.(bID) batch body Hnd Hb Hne) as (m1 & Hu & Hst).
      apply settles_perform; [done|]. cbn [graphMem]. rewrite Hu. split; [done|]. by eapply HQ'. }
  apply H1. clear H1. intros m1 b1 k1 Hst1 Hi1 Hs1 Hm1. cbn zeta.
  (* the output *)
  assert (∀ Q', (∀ m2 b2 k2, stored m body.(bID) b2 m2 → b2.(bID) = body.(bID) → b2.(bStatus) = body.(bStatus) →
      b2.(bMetadata) = (if output == "" then b1.(bMetadata) else <[OutputJSONMetadataKey := output]> b1.(bMetadata)) → Q' (Ok ()) (m2, k2)) →
    settles (graphMem clock) any (if output != "" then perform (SetKey body.(bID) OutputJSONMetadataKey output) else Ret (Ok ())) (m1, k1) Q') as H2.
  { intros Q' HQ'. destruct (output == "") eqn:Eo; cbn [negb].
    - split; [done|]. by eapply HQ'.
    - destruct (SetMetadata_stored (clock k1) m1 body.(bID) OutputJSONMetadataKey output b1) as (m2 & Hu & Hst2);
        [by eapply stored_nodup|by rewrite (st_lookup _ _ _ _ Hst1), decide_True|].
      apply settles_perform; [done|]. cbn [graphMem]. rewrite Hu. split; [done|]. eapply HQ'; [by eapply stored_trans|done|done|done]. }
  apply settles_andThen, H2. clear H2. intros m2 b2 k2 Hst2 Hi2 Hs2 Hm2.
  eapply (settles_reads clock (λ _, True)); [eapply reads_get; by rewrite (st_lookup _ _ _ _ Hst2), decide_True|done|]. clear k2. intros k2.
  assert (∀ b3, b3.(bID) = body.(bID) → b3.(bStatus) = "closed" →
    b3.(bMetadata) = (if body.(bStatus) == "closed" then b2.(bMetadata) else <[OutcomeMetadataKey := OutcomePass]> b2.(bMetadata)) → passedBody members b3) as Hpass.
  { intros b3 Hi3 Hs3 Hm3. assert (∀ key, HasPrefix key Namespace = true → (batch ∪ body.(bMetadata)).[key] = body.(bMetadata).[key]) as Hgc.
    { intros key Hp. unfold batch. by rewrite mget_union, memberMetadata_gc. }
    split; [done|]. split; [done|]. split; [|split].
    - intros key Hp. assert (key ≠ OutcomeMetadataKey) by (by intros ->). assert (key ≠ OutputJSONMetadataKey) by (by intros ->).
      rewrite Hm3. destruct (bStatus body == "closed"); rewrite ?mget_insert_ne by done; rewrite Hm2; destruct (output == ""); rewrite ?mget_insert_ne by done; by rewrite Hm1.
    - rewrite Hm3. destruct (bStatus body == "closed"); [|by rewrite mget_insert_eq]. rewrite Hm2. destruct (output == ""); rewrite ?mget_insert_ne by done; by rewrite Hm1, Hgc.
    - cbv zeta. fold output. rewrite Hm3. destruct (bStatus body == "closed"); rewrite ?mget_insert_ne by done; rewrite Hm2;
        (destruct (output == ""); [by rewrite Hm1, Hgc|by rewrite mget_insert_eq]). }
  rewrite Hs2. destruct (bStatus body == "closed") eqn:Ec; cbn [negb].
  - split; [done|]. eapply HQ; [exact Hst2|]. apply Hpass; [done|by rewrite Hs2; apply bool_decide_eq_true in Ec|done].
  - eapply settles_close_meta; [by eapply stored_nodup|by rewrite (st_lookup _ _ _ _ Hst2), decide_True|]. intros m3 b3 k3 Hst3 Hi3 Hs3 Hm3.
    eapply HQ; [by eapply stored_trans|]. apply Hpass; [congruence|done|done].
Qed.

Lemma continue_settles k (Q : res (ControlError StoreError) ControlResult → MemStore * nat → Prop) :
  let members := scopeMembers m rootID scopeRef in
  let closedControl (b : Bead) := b.(bStatus) = "closed" ∧ b.(bMetadata) = <[OutcomeMetadataKey := OutcomePass]> c.(bMetadata) in
  (snapshotHasOpen members [c.(bID)] = true →
    ∀ m' b k', stored m c.(bID) b m' → closedControl b → Q (Ok (mkControlResult true "continue" 0)) (m', k')) →
  (snapshotHasOpen members [c.(bID)] = false →
    ∀ m1 b1 m' b k', stored m body.(bID) b1 m1 → passedBody members b1 → stored m1 c.(bID) b m' → closedControl b →
    Q (Ok (mkControlResult true "scope-pass" 0)) (m', k')) →
  settles (graphMem clock) any (scopeContinue c subject body rootID scopeRef) (m, k) Q.
Proof.
  intros members closedControl Hopen Hnone. destruct Hs as [Hnd Hctl _ _ _ _ _ _ _ Hap]. unfold scopeContinue, hasOpenScopeMembers.
  eapply (settles_reads clock (λ _, True)); [eapply reads_andThen; [apply reads_active|apply reads_ret]|done|]. clear k. intros k.
  rewrite active_open. fold members. destruct (snapshotHasOpen members [bID c]).
  - apply settles_andThen. eapply settles_close_meta; [done|done|]. intros m' b k' Hst _ Hcl Hm. split; [done|]. by eapply Hopen.
  - eapply (settles_reads clock (λ _, True)); [eapply reads_andThen; [apply reads_members|apply reads_ret]|done|]. clear k. intros k. fold members.
    apply settles_andThen, pass_settles. intros m1 b1 k1 Hst1 Hp. apply settles_andThen.
    eapply settles_close_meta; [by eapply stored_nodup|rewrite (st_lookup _ _ _ _ Hst1), decide_False by done; exact Hctl|].
    intros m' b k' Hst _ Hcl Hm. split; [done|]. by eapply Hnone.
Qed.
End passing.

(** C26 The verdict of a scope check that does not fail: while another member is
    open the scope goes on and nothing but the control changes; otherwise the
    body is closed as passed, unless it was closed before, with the metadata of
    the closed members and the output of the subject or the one all members
    agree on. *)
Theorem scope_check_verdict clock batch c subject body m :
  scopeSound c subject body m →
  let members := scopeMembers m c.(bMetadata).[RootBeadIDMetadataKey] c.(bMetadata).[ScopeRefMetadataKey] in
  let remaining := snapshotHasOpen members [c.(bID)] in
  ∃ m' k, run (graphMem clock) (processScopeCheck notFound batch c) (m, 0%nat) =
      (Ok (mkControlResult true (if remaining then "continue" else "scope-pass") 0), (m', k)) ∧
    (∃ b, lookupBead m' c.(bID) = Some b ∧ b.(bStatus) = "closed" ∧ b.(bMetadata) = <[OutcomeMetadataKey := OutcomePass]> c.(bMetadata)) ∧
    (if remaining then lookupBead m' body.(bID) = Some body
     else ∃ b, lookupBead m' body.(bID) = Some b ∧ passedBody subject body members b) ∧
    ∀ id, id ≠ c.(bID) → id ≠ body.(bID) → lookupBead m' id = lookupBead m id.
Proof.
  intros Hs members remaining. pose proof Hs as [Hnd Hctl Hr Hsr (dep & Hdep & Hto) [Hsub Hcl] Hv [Hb Hisb] Hu Hap].
  set (rootID := (bMetadata c).[RootBeadIDMetadataKey]) in *. set (scopeRef := (bMetadata c).[ScopeRefMetadataKey]) in *.
  set (Q := λ (r : res (ControlError StoreError) ControlResult) (t : MemStore * nat), 
    r = Ok (mkControlResult true (if remaining then "continue" else "scope-pass") 0) ∧
    (∃ b, lookupBead t.1 c.(bID) = Some b ∧ b.(bStatus) = "closed" ∧ b.(bMetadata) = <[OutcomeMetadataKey := OutcomePass]> c.(bMetadata)) ∧
    (if remaining then lookupBead t.1 body.(bID) = Some body
     else ∃ b, lookupBead t.1 body.(bID) = Some b ∧ passedBody subject body members b) ∧
    ∀ id, id ≠ c.(bID) → id ≠ body.(bID) → lookupBead t.1 id = lookupBead m id).
  assert (∀ k, settles (graphMem clock) (λ _, True) (scopeContinue c subject body rootID scopeRef) (m, k) Q) as Hcont.
  { intros k. apply (continue_settles clock c subject body m Hs); fold rootID scopeRef members remaining.
    - intros Ho m' b k' Hst Hc. unfold Q. rewrite Ho. split; [done|]. cbn [fst]. split; [|split].
      + exists b. by rewrite (st_lookup _ _ _ _ Hst), decide_True.
      + rewrite (st_lookup _ _ _ _ Hst), decide_False by done. done.
      + intros id Hc' _. by rewrite (st_lookup _ _ _ _ Hst), decide_False.
    - intros Ho m1 b1 m' b k' Hst1 Hp Hst Hc. unfold Q. rewrite Ho. split; [done|]. cbn [fst]. split; [|split].
      + exists b. by rewrite (st_lookup _ _ _ _ Hst), decide_True.
      + exists b1. by rewrite (st_lookup _ _ _ _ Hst), decide_False, (st_lookup _ _ _ _ Hst1), decide_True.
      + intros id Hc' Hb'. by rewrite (st_lookup _ _ _ _ Hst), decide_False, (st_lookup _ _ _ _ Hst1), decide_False. }
  assert (settles (graphMem clock) (λ _, True) (processScopeCheck notFound batch c) (m, 0%nat) Q) as Hset.
  { unfold processScopeCheck. fold rootID scopeRef. eapply (settles_reads clock (λ _, True)); [|done|].
    { eapply reads_andThen; [by apply reads_perform|]. change (List.filter _ _) with (depsOf m c.(bID)). rewrite Hdep, Hto. apply reads_ret. }
    intros k. eapply (settles_reads clock (λ _, True)); [by apply reads_get|done|]. clear k. intros k.
    rewrite (bool_decide_false (rootID = "")), (bool_decide_false (scopeRef = "")) by done.
    eapply (settles_reads clock (λ _, True)); [eapply (reads_body clock m rootID scopeRef body.(bID) body); done|done|]. clear k. intros k.
    rewrite Hcl. change ("closed" == "closed") with true. cbn [negb]. destruct Hv as [->| ->]; [apply Hcont|]. destruct (isRetryAttemptSubject subject); apply Hcont. }
  apply settles_run in Hset. destruct (run (graphMem clock) _ _) as [r [m' k]]. unfold Q in Hset. cbn [fst snd] in Hset. destruct Hset as (-> & H1 & H2 & H3). by exists m', k.
Qed.

(** ** The outcome of a workflow *)

(** The beads that block the finalizer. *)
Definition blockersOf (m : MemStore) (id : string) : list (option Bead) :=
  (λ d, lookupBead m d.(DependsOnID)) <$> List.filter (λ d, d.(DepType) == "blocks") (depsOf m id).

Definition isClosed (b : option Bead) : bool := match b with Some b => b.(bStatus) == "closed" | None => false end.
Definition isFailed (b : option Bead) : bool := match b with Some b => beadOutcomeFailed b | None => false end.

Lemma blocked_loop clock m k deps outcome :
  let bs := (λ d, lookupBead m d.(DependsOnID)) <$> List.filter (λ d, d.(DepType) == "blocks") deps in
  settles (graphMem clock) (λ _, True) (blockedOutcomeLoop deps outcome) (m, k) (λ r t, t.1 = m ∧
    if forallb isClosed bs then r = Ok (if existsb isFailed bs then OutcomeFail else outcome) else ∀ o, r ≠ Ok o).
Proof.
  revert k outcome. induction deps as [|d deps IH]; intros k outcome; [by split|]. cbn [blockedOutcomeLoop List.filter].
  destruct (d.(DepType) == "blocks"); cbn [negb fmap list_fmap forallb existsb]; [|apply IH].
  apply settles_andThen, settles_perform; [done|]. cbn [graphMem fst snd]. split; [done|]. rewrite Get_lookup.
  destruct (lookupBead m (DependsOnID d)) as [b|]; [|by split]. cbn [isClosed isFailed]. destruct (b.(bStatus) == "closed"); cbn [negb andb]; [|by split].
  eapply settles_mono; [apply IH|]. cbn beta. intros r t _ [Hm Hr]. split; [done|].
  destruct (forallb isClosed _); [|done]. rewrite Hr. destruct (beadOutcomeFailed b), (existsb isFailed _); done.
Qed.

(** C25 The outcome of a workflow: the finalizer gets an answer exactly when every
    bead that blocks it is there and closed; the answer is [fail] when one of
    them failed or, with a root, when some other bead of the workflow failed for
    good in a way that aborts its scope, and [pass] otherwise; nothing is
    written. *)
Theorem finalize_outcome clock m finalizer :
  let blockers := blockersOf m finalizer.(bID) in
  let rootID := TrimSpace finalizer.(bMetadata).[RootBeadIDMetadataKey] in
  let fatal := (rootID != "") &&
    existsb (λ b, (b.(bID) != finalizer.(bID)) && terminalAbortScopeFailure b) (rootBeads m rootID) in
  let '(r, t) := run (graphMem clock) (resolveFinalizeOutcome notFound finalizer) (m, 0%nat) in
  t.1 = m ∧ if forallb isClosed blockers then r = Ok (if existsb isFailed blockers || fatal then OutcomeFail else OutcomePass) else ∀ o, r ≠ Ok o.
Proof.
  intros blockers rootID fatal.
  assert (settles (graphMem clock) (λ _, True) (resolveFinalizeOutcome notFound finalizer) (m, 0%nat) (λ r t, t.1 = m ∧
    if forallb isClosed blockers then r = Ok (if existsb isFailed blockers || fatal then OutcomeFail else OutcomePass) else ∀ o, r ≠ Ok o)) as Hs.
  { apply settles_andThen. eapply (settles_reads clock (λ _, True)); [by apply reads_perform|done|]. intros k.
    change (List.filter _ _) with (depsOf m finalizer.(bID)). eapply settles_mono; [apply blocked_loop|]. cbn beta zeta. intros r [m' k'] _ [Hm Hr]. cbn [fst] in Hm. subst m'.
    fold (blockersOf m finalizer.(bID)) in Hr. fold blockers in Hr. destruct (forallb isClosed blockers).
    2:{ destruct r as [o|e]; [by destruct (Hr o)|done]. }
    subst r. destruct (existsb isFailed blockers); [by split|]. fold rootID. unfold fatal. change (OutcomePass == OutcomePass) with true. cbn [andb orb].
    destruct (rootID != ""); [|by split]. cbn [andb]. unfold workflowRootHasTerminalAbortScopeFailure.
    eapply (settles_reads clock (λ _, True)); [eapply reads_andThen; [apply reads_root|apply reads_ret]|done|]. intros k''. by split. }
  apply settles_run in Hs. by destruct (run (graphMem clock) _ _).
Qed.
