(* ===== verification/WorkflowScenarios.v ===== *)
(** * WorkflowScenarios: concrete workflows

    A workflow with a scope of two steps and their checks, the first of which
    has failed; inputs at which the hypotheses of the theorems hold, and the
    abort that depends on how beads were numbered. *)

From S2P Require Import Prelude GoBase GoText Beads MemStore MemStoreProps Prog SessionState AgentConfig WorkflowScope WorkflowScopeProps.

Local Open Scope Z_scope.

Definition graphBead (id status : string) (md : list (string * string)) : Bead :=
  setMetadataMap (setStatus (setID zeroBead id) status) (list_to_map ((RootBeadIDMetadataKey, "gc-1") :: md)).

Definition scoped (role : string) : list (string * string) := [(ScopeRefMetadataKey, "work"); (ScopeRoleMetadataKey, role)].

Definition checkOf (id : string) : Bead := graphBead id "open" ((KindMetadataKey, KindScopeCheck) :: scoped "control").

(** The first step is closed with an outcome, the second is open; the step after
    a check waits for the check; a retried step has an open attempt. *)
Definition workflow (first second check1 check2 outcome : string) : MemStore :=
  NewMemStoreFrom 9
    [ graphBead "gc-1" "open" [];
      graphBead "gc-2" "open" [(KindMetadataKey, KindScope); (ScopeRoleMetadataKey, ScopeRoleBody); (StepRefMetadataKey, "flow.work")];
      graphBead first "closed" ((OutcomeMetadataKey, outcome) :: ("review.verdict", "rejected") :: scoped "member");
      graphBead second "open" (scoped "member");
      checkOf check1;
      checkOf check2;
      graphBead "gc-7" "closed" ((KindMetadataKey, "retry") :: (OutcomeMetadataKey, "pass") :: scoped "member");
      graphBead "gc-8" "open" [(LogicalBeadIDMetadataKey, "gc-7"); (AttemptMetadataKey, "2")] ]
    [mkDep check1 first "blocks"; mkDep second check1 "blocks"; mkDep check2 second "blocks"].

Definition failedFlow : MemStore := workflow "gc-3" "gc-4" "gc-5" "gc-6" OutcomeFail.
Definition passedFlow : MemStore := setDeps (workflow "gc-3" "gc-4" "gc-5" "gc-6" OutcomePass) [mkDep "gc-5" "gc-3" "blocks"].

(** The second check comes after the second step. *)
Definition flowRank (id : string) : nat := if id == "gc-6" then 1 else 0.

Lemma flow_beads m (Q : string → Bead → Prop) :
  NoDup (bID <$> m.(msBeads)) → Forall (λ b, Q b.(bID) b) m.(msBeads) → ∀ id b, lookupBead m id = Some b → Q id b.
Proof. intros Hnd HQ id b [Hin <-]%lookupBead_Some; [|done]. rewrite Forall_forall in HQ. by apply HQ. Qed.

Lemma scope_abort_recovers_witness :
  scopeFailure (checkOf "gc-5") "gc-3" "gc-2" flowRank failedFlow ∧
  let stopped := (runN 12 (graphMem Z.of_nat) (processScopeCheck notFound true (checkOf "gc-5")) (failedFlow, 0%nat)).1 in
  aborted (checkOf "gc-5") "gc-2" failedFlow stopped ∨
  ∃ skipped m' k, run (graphMem Z.of_nat) (processScopeCheck notFound true (checkOf "gc-5")) (stopped, 0%nat) =
      (Ok (mkControlResult true "scope-fail" skipped), (m', k)) ∧ aborted (checkOf "gc-5") "gc-2" failedFlow m'.
Proof.
  assert (NoDup (bID <$> failedFlow.(msBeads))) as Hnd by (apply (bool_decide_unpack _); vm_compute; exact I).
  assert (scopeFailure (checkOf "gc-5") "gc-3" "gc-2" flowRank failedFlow) as Hf.
  { split.
    - exact Hnd.
    - vm_compute. reflexivity.
    - done.
    - done.
    - eexists. split; vm_compute; reflexivity.
    - eexists. split; [vm_compute; reflexivity|]. split; [|split]; vm_compute; reflexivity.
    - eexists. split; [vm_compute; reflexivity|]. repeat split; vm_compute; reflexivity.
    - refine (flow_beads failedFlow (λ id b, isBody _ _ b → id = "gc-2") Hnd _).
      repeat (apply Forall_cons; split; [intros (_ & Hk & _); first [reflexivity | vm_compute in Hk; discriminate Hk]|]). by apply Forall_nil.
    - by split.
    - split; vm_compute; reflexivity.
    - apply (bool_decide_unpack (map_Forall (λ id b, preserveScopeCheckForSubject b (depsOf failedFlow id) "gc-5" = false) _)). vm_compute. exact I.
    - refine (proj1 (Forall_forall _ _) _). repeat (apply Forall_cons; split; [intros _ H1 H2; vm_compute in H1, H2 |- *; first [lia | by destruct H1 | by destruct H2]|]). by apply Forall_nil. }
  split; [exact Hf|]. exact (scope_abort_recovers (checkOf "gc-5") "gc-3" "gc-2" flowRank failedFlow 12 Z.of_nat Z.of_nat true Hf).
Defined.

Lemma scope_check_verdict_witness :
  ∃ subject body, scopeSound (checkOf "gc-5") subject body passedFlow ∧
  ∃ m' k, run (graphMem Z.of_nat) (processScopeCheck notFound true (checkOf "gc-5")) (passedFlow, 0%nat) =
    (Ok (mkControlResult true "continue" 0), (m', k)) ∧ lookupBead m' "gc-2" = lookupBead passedFlow "gc-2".
Proof.
  assert (NoDup (bID <$> passedFlow.(msBeads))) as Hnd by (apply (bool_decide_unpack _); vm_compute; exact I).
  exists (default zeroBead (lookupBead passedFlow "gc-3")), (default zeroBead (lookupBead passedFlow "gc-2")).
  assert (scopeSound (checkOf "gc-5") (default zeroBead (lookupBead passedFlow "gc-3")) (default zeroBead (lookupBead passedFlow "gc-2")) passedFlow) as Hs.
  { split.
    - exact Hnd.
    - vm_compute. reflexivity.
    - done.
    - done.
    - eexists. split; vm_compute; reflexivity.
    - split; vm_compute; reflexivity.
    - right. vm_compute. reflexivity.
    - split; [vm_compute; reflexivity|]. repeat split; vm_compute; reflexivity.
    - refine (flow_beads passedFlow (λ id b, isBody _ _ b → id = _) Hnd _).
      repeat (apply Forall_cons; split; [intros (_ & Hk & _); first [vm_compute; reflexivity | vm_compute in Hk; discriminate Hk]|]). by apply Forall_nil.
    - done. }
  split; [exact Hs|].
  destruct (scope_check_verdict Z.of_nat true (checkOf "gc-5") _ _ passedFlow Hs) as (m' & k & Hr & _ & Hb & _). exists m', k. split; [exact Hr|exact Hb].
Defined.

(** ** Numbering *)

(** The action or the error of the reconciliation of a closed step. *)
Definition reconciled (m : MemStore) (id : string) : res (ControlError StoreError) string :=
  match (run (graphMem Z.of_nat) (ReconcileClosedScopeMember notFound true id) (m, 0%nat)).1 with
  | Ok r => Ok r.(crAction)
  | Err e => Err e
  end.

(** The workflow without the retried step. *)
Definition twoSteps (second check1 : string) : MemStore :=
  let m := workflow "gc-3" second check1 "gc-6" OutcomeFail in setBeads m (take 6 m.(msBeads)).

