(* ===== verification/Drain.v ===== *)
(** * Drain: the members of a drain, their order and their reservations

    Models the member handling of [internal/dispatch/drain.go]: the order in
    which a drain takes its members, blockers first, and the exclusive
    reservation of members by a compare-and-set on their metadata, with its
    release.

    The order reads dependencies through a function that may fail (the lookup of
    the member's store and the listing); reservations are programs over the
    store calls they make. *)

From S2P Require Import Prelude GoBase GoText Beads Prog SessionState WorkflowScope.

Local Open Scope Z_scope.

Definition ExclusiveDrainReservationMetadataKey : string := "gc.exclusive_drain_reservation".
Definition DrainMemberAccessMetadataKey : string := "gc.drain_member_access".
Definition DrainMemberAccessExclusive : string := "exclusive".

Definition drainMemberAccess (bead : Bead) : string :=
  let access := TrimSpace bead.(bMetadata).[DrainMemberAccessMetadataKey] in
  if access == "" then "read" else access.

(** ** Order *)

Section order.
Context {E : Type} (memberDeps : string → res E (list Dep)).

Inductive OrderError := DepsFailed (memberID : string) (e : E) | DependencyCycle (members : list string).

Definition memberIDOf (member : Bead) : string := TrimSpace member.(bID).

(** The blockers of a member among the members, as a set: what the loop adds to
    [blockersByMember]. *)
Definition memberBlockers (ids : list string) (memberID : string) (deps : list Dep) : list string :=
  List.filter (λ id, (id != "") && (id != memberID) && bool_decide (id ∈ ids))
    ((λ d, TrimSpace d.(DependsOnID)) <$> List.filter (λ d, IsReadyBlockingDependencyType d.(DepType)) deps).

Fixpoint loadBlockers (ids : list string) (members : list Bead) (acc : gmap string (list string)) : res OrderError (gmap string (list string)) :=
  match members with
  | [] => Ok acc
  | member :: members =>
      let memberID := memberIDOf member in
      if memberID == "" then loadBlockers ids members acc
      else match memberDeps memberID with
      | Err e => Err (DepsFailed memberID e)
      | Ok deps => loadBlockers ids members (<[memberID := default [] (acc !! memberID) ++ memberBlockers ids memberID deps]> acc)
      end
  end.

(** One pass over the members: the ones emitted, added to [ordered]. *)
Definition emitStep (blockers : gmap string (list string)) (ordered : list Bead) (member : Bead) : list Bead :=
  let memberID := memberIDOf member in
  let emitted := memberIDOf <$> ordered in
  if bool_decide (memberID ∈ emitted) then ordered
  else if existsb (λ id, negb (bool_decide (id ∈ emitted))) (default [] (blockers !! memberID)) then ordered
  else ordered ++ [member].

Definition emitPass (blockers : gmap string (list string)) (members ordered : list Bead) : list Bead :=
  foldl (emitStep blockers) ordered members.

(** Each pass emits a member at least or is the last, so the number of members is
    fuel enough. *)
Fixpoint emitLoop (fuel : nat) (blockers : gmap string (list string)) (members ordered : list Bead) : res OrderError (list Bead) :=
  if (length members <=? length ordered)%nat then Ok ordered
  else
    let next := emitPass blockers members ordered in
    if (length next =? length ordered)%nat
    then Err (DependencyCycle (List.filter (λ id, (id != "") && negb (bool_decide (id ∈ memberIDOf <$> ordered))) (memberIDOf <$> members)))
    else match fuel with
    | O => Ok next
    | S fuel => emitLoop fuel blockers members next
    end.

Definition orderDrainMembersByDependencies (members : list Bead) : res OrderError (list Bead) :=
  if (length members <? 2)%nat then Ok members
  else
    match loadBlockers (List.filter (λ id, id != "") (memberIDOf <$> members)) members ∅ with
    | Err e => Err e
    | Ok blockers => emitLoop (length members) blockers members []
    end.
End order.
#[global] Arguments OrderError E : clear implicits.

(** ** Reservations *)

(** The calls on the store that owns a member; a compare-and-set may fail after
    it was committed. *)
Inductive drainE (E : Type) : Type → Type :=
| OwningStore (id : string) : drainE E (res E unit)
| GetMember (id : string) : drainE E (res E Bead)
| ResolveWriter (id : string) : drainE E (res E bool)
| CompareAndSet (id expected next : string) : drainE E (bool * option E)
| SetReservation (id value : string) : drainE E (res E unit).
#[global] Arguments OwningStore {E} id.
#[global] Arguments GetMember {E} id.
#[global] Arguments ResolveWriter {E} id.
#[global] Arguments CompareAndSet {E} id expected next.
#[global] Arguments SetReservation {E} id value.

Inductive DrainError (E : Type) :=
| ReservedBy (memberID owner : string) | ReserveFailed (e : E) | KeptLosing | ReleaseFailed (e : E).
#[global] Arguments ReservedBy {E} memberID owner.
#[global] Arguments ReserveFailed {E} e.
#[global] Arguments KeptLosing {E}.
#[global] Arguments ReleaseFailed {E} e.

Abbreviation drain E := (prog (drainE E) (option (DrainError E))).

Section reserve.
Context {E : Type} (isNotFound isPreconditionFailed : E → bool).

Definition ownerOf (member : Bead) : string := TrimSpace member.(bMetadata).[ExclusiveDrainReservationMetadataKey].

Definition claimAttempts : nat := 2.

Fixpoint claimLoop (attempts : nat) (controlID memberID : string) (lastErr : option E) : drain E :=
  match attempts with
  | O => Ret (Some match lastErr with Some e => ReserveFailed e | None => KeptLosing end)
  | S attempts =>
      let* r := trigger (CompareAndSet memberID "" controlID) in
      let '(ok, casErr) := r in
      if (ok : bool) then Ret None
      else
        let* current := trigger (GetMember memberID) in
        match current with
        | Err getErr => Ret (Some (ReserveFailed match casErr with Some e => e | None => getErr end))
        | Ok current =>
            let owner := ownerOf current in
            if owner == controlID then Ret None
            else if owner != "" then Ret (Some (ReservedBy memberID owner))
            else match casErr with
            | Some e => if isPreconditionFailed e then claimLoop attempts controlID memberID casErr else Ret (Some (ReserveFailed e))
            | None => claimLoop attempts controlID memberID casErr
            end
        end
  end.

Definition claimDrainReservationCAS (controlID memberID : string) : drain E := claimLoop claimAttempts controlID memberID None.

Definition failure (r : res E unit) (f : E → DrainError E) : option (DrainError E) :=
  match r with Ok _ => None | Err e => Some (f e) end.

Definition claimDrainReservation (controlID memberID : string) : drain E :=
  let* writer := trigger (ResolveWriter memberID) in
  match writer with
  | Err e => Ret (Some (ReserveFailed e))
  | Ok false => let* r := trigger (SetReservation memberID controlID) in Ret (failure r ReserveFailed)
  | Ok true => claimDrainReservationCAS controlID memberID
  end.

Definition reserveDrainMember (control : Bead) (memberID : string) : drain E :=
  if drainMemberAccess control != DrainMemberAccessExclusive then Ret None
  else
    let* store := trigger (OwningStore memberID) in
    match store with
    | Err e => Ret (Some (ReserveFailed e))
    | Ok _ =>
        let* current := trigger (GetMember memberID) in
        match current with
        | Err e => Ret (if isNotFound e then None else Some (ReserveFailed e))
        | Ok current =>
            let owner := ownerOf current in
            if (owner != "") && (owner != control.(bID)) then Ret (Some (ReservedBy memberID owner))
            else if owner == control.(bID) then Ret None
            else claimDrainReservation control.(bID) memberID
        end
    end.

Definition reserveDrainMembers (control : Bead) (members : list Bead) : drain E :=
  forEach members (λ member, reserveDrainMember control member.(bID)).

Definition releaseDrainReservation (controlID memberID : string) : drain E :=
  let* writer := trigger (ResolveWriter memberID) in
  match writer with
  | Err e => Ret (Some (ReleaseFailed e))
  | Ok false =>
      let* member := trigger (GetMember memberID) in
      match member with
      | Err e => Ret (if isNotFound e then None else Some (ReleaseFailed e))
      | Ok member =>
          if ownerOf member != controlID then Ret None
          else let* r := trigger (SetReservation memberID "") in Ret (failure r ReleaseFailed)
      end
  | Ok true =>
      let* r := trigger (CompareAndSet memberID controlID "") in
      let '(ok, casErr) := r in
      if (ok : bool) then Ret None
      else match casErr with
      | None => Ret None
      | Some e =>
          if isPreconditionFailed e || isNotFound e then Ret None
          else
            let* member := trigger (GetMember memberID) in
            Ret match member with
                | Ok member => if ownerOf member != controlID then None else Some (ReleaseFailed e)
                | Err getErr => if isNotFound getErr then None else Some (ReleaseFailed e)
                end
      end
  end.

(** The distinct non-empty member IDs of the manifest's rows. *)
Fixpoint releaseIDs (seen : list string) (rows : list string) : list string :=
  match rows with
  | [] => []
  | row :: rows =>
      let memberID := TrimSpace row in
      if (memberID == "") || bool_decide (memberID ∈ seen) then releaseIDs seen rows else memberID :: releaseIDs (memberID :: seen) rows
  end.

Definition releaseDrainReservations (controlID : string) (rows : list string) : drain E :=
  let controlID := TrimSpace controlID in
  if controlID == "" then Ret None
  else forEach (releaseIDs [] rows) (λ memberID,
    let* store := trigger (OwningStore memberID) in
    match store with
    | Err e => Ret (Some (ReleaseFailed e))
    | Ok _ => releaseDrainReservation controlID memberID
    end).
End reserve.
