(* ===== verification/DrainProps.v ===== *)
(** * DrainProps: drain order and exclusive reservations

    The members of a drain come out blockers first, or the beads that wait for
    one another are reported.  With a conditional writer no member is held by
    two drains, however their calls interleave and whichever of them fail. *)

From S2P Require Import Prelude GoBase GoText Beads Prog SessionState WorkflowScope Drain.

Local Open Scope Z_scope.

(** ** Order *)

Section order.
Context {E : Type} (memberDeps : string → res E (list Dep)) (members : list Bead).

Let allIDs := List.filter (λ id, id != "") (memberIDOf <$> members).

(** The members that block a member. *)
Definition blockersFor (id : string) : list string :=
  if id == "" then [] else match memberDeps id with Ok deps => memberBlockers allIDs id deps | Err _ => [] end.

(** Every member comes after its blockers. *)
Definition blockersFirst (ordered : list Bead) : Prop :=
  ∀ l1 y l2, ordered = l1 ++ y :: l2 → ∀ x, x ∈ blockersFor (memberIDOf y) → x ∈ memberIDOf <$> l1.

Lemma memberBlockers_snoc ordered y :
  blockersFirst ordered → (∀ x, x ∈ blockersFor (memberIDOf y) → x ∈ memberIDOf <$> ordered) → blockersFirst (ordered ++ [y]).
Proof.
  intros Ho Hy l1 z l2 He x Hx. destruct l2 as [|w l2] using rev_ind.
  - apply app_inj_tail in He as [-> ->]. by apply Hy.
  - rewrite app_comm_cons, app_assoc in He. apply app_inj_tail in He as [-> _]. by eapply Ho.
Qed.

Lemma loadBlockers_spec done rest acc :
  members = done ++ rest → NoDup (memberIDOf <$> members) →
  (∀ id, id ∈ memberIDOf <$> rest → id ≠ "" → ∃ deps, memberDeps id = Ok deps) →
  (∀ id, default [] (acc !! id) = if bool_decide (id ∈ memberIDOf <$> done) then blockersFor id else []) →
  ∃ B, loadBlockers memberDeps allIDs rest acc = Ok B ∧
    ∀ id, default [] (B !! id) = if bool_decide (id ∈ memberIDOf <$> members) then blockersFor id else [].
Proof.
  revert done acc. induction rest as [|y rest IH]; intros done acc He Hnd Hdeps Hacc; cbn [loadBlockers].
  { exists acc. split; [done|]. rewrite app_nil_r in He. by subst done. }
  assert (members = (done ++ [y]) ++ rest) as He' by (by rewrite <-app_assoc).
  assert (∀ id, id ∈ memberIDOf <$> rest → id ≠ "" → ∃ deps, memberDeps id = Ok deps) as Hdeps' by (intros id Hid; apply Hdeps; by right).
  assert (memberIDOf y ∉ memberIDOf <$> done) as Hnew.
  { rewrite He, fmap_app, fmap_cons in Hnd. apply NoDup_app in Hnd as (_ & Hd & _). intros Hin. apply (Hd _ Hin). left. }
  destruct (memberIDOf y == "") eqn:Ey.
  - apply bool_decide_eq_true in Ey. apply (IH (done ++ [y])); [done|done|done|]. intros id. rewrite Hacc, fmap_app.
    destruct (decide (id = "")) as [->|Hn].
    + assert (blockersFor "" = []) as -> by done. by destruct (bool_decide _), (bool_decide _).
    + assert (id ∈ (memberIDOf <$> done) ++ (memberIDOf <$> [y]) ↔ id ∈ memberIDOf <$> done) as Hiff by (rewrite elem_of_app; cbn; rewrite Ey; set_solver).
      by rewrite (bool_decide_ext _ _ Hiff).
  - apply bool_decide_eq_false in Ey. destruct (Hdeps (memberIDOf y)) as [deps Hd]; [left|done|]. rewrite Hd.
    apply (IH (done ++ [y])); [done|done|done|]. intros id. rewrite fmap_app. destruct (decide (id = memberIDOf y)) as [->|Hn].
    + rewrite lookup_insert_eq. cbn [default from_option id]. rewrite Hacc, bool_decide_false by done. rewrite bool_decide_true by set_solver.
      unfold blockersFor. rewrite (bool_decide_false (memberIDOf y = "")) by done. by rewrite Hd.
    + rewrite lookup_insert_ne, Hacc by done.
      assert (id ∈ (memberIDOf <$> done) ++ (memberIDOf <$> [y]) ↔ id ∈ memberIDOf <$> done) as Hiff by set_solver. by rewrite (bool_decide_ext _ _ Hiff).
Qed.

Section emit.
Context (B : gmap string (list string)).
Context (HB : ∀ id, id ∈ memberIDOf <$> members → default [] (B !! id) = blockersFor id).

(** What the passes keep. *)
Record emittedOK (ordered : list Bead) : Prop := {
  eo_members : ordered ⊆ members;
  eo_nodup : NoDup (memberIDOf <$> ordered);
  eo_first : blockersFirst ordered
}.

Lemma emitStep_ok ordered y :
  y ∈ members → emittedOK ordered → emittedOK (emitStep B ordered y) ∧
  (emitStep B ordered y = ordered ∨ emitStep B ordered y = ordered ++ [y]) ∧
  (emitStep B ordered y = ordered → memberIDOf y ∈ memberIDOf <$> ordered ∨ ∃ x, x ∈ blockersFor (memberIDOf y) ∧ x ∉ memberIDOf <$> ordered).
Proof.
  intros Hy Ho. unfold emitStep. case_bool_decide as Hin; [split; [done|split; [by left|by left]]|].
  rewrite HB by (by apply list_elem_of_fmap_2). destruct (existsb _ _) eqn:Ex.
  - split; [done|]. split; [by left|]. intros _. right. apply existsb_exists in Ex as (x & Hx & Hn).
    exists x. split; [by apply list_elem_of_In|]. by apply negb_true_iff, bool_decide_eq_false in Hn.
  - split; [|split; [by right|]].
    + destruct Ho as [Hm Hn Hf]. split; [by intros z [?| ->%list_elem_of_singleton]%elem_of_app; [apply Hm|]| |].
      * rewrite fmap_app. apply NoDup_app. split; [done|]. split; [|apply NoDup_singleton]. intros x Hx ->%list_elem_of_singleton. done.
      * apply memberBlockers_snoc; [done|]. intros x Hx. apply dec_stable. intros Hnx.
        assert (existsb (λ id, negb (bool_decide (id ∈ memberIDOf <$> ordered))) (blockersFor (memberIDOf y)) = true) as Ht; [|congruence].
        apply existsb_exists. exists x. split; [by apply list_elem_of_In|]. apply negb_true_iff. by apply bool_decide_eq_false.
    + intros He. apply (f_equal length) in He. rewrite length_app in He. cbn in He. lia.
Qed.

Lemma emitPass_ok l ordered :
  l ⊆ members → emittedOK ordered → emittedOK (emitPass B l ordered) ∧ (∃ ext, emitPass B l ordered = ordered ++ ext) ∧
  (length (emitPass B l ordered) = length ordered → ∀ y, y ∈ l →
    memberIDOf y ∈ memberIDOf <$> ordered ∨ ∃ x, x ∈ blockersFor (memberIDOf y) ∧ x ∉ memberIDOf <$> ordered).
Proof.
  revert ordered. induction l as [|y l IH]; intros ordered Hl Ho.
  { split; [done|]. split; [exists []; by rewrite app_nil_r|]. by intros _ y ?%elem_of_nil. }
  change (emitPass B (y :: l) ordered) with (emitPass B l (emitStep B ordered y)).
  destruct (emitStep_ok ordered y) as (Ho' & Hstep & Hstuck); [apply Hl; left|done|]. destruct (IH (emitStep B ordered y)) as (H1 & [ext Hext] & H3); [intros z Hz; apply Hl; by right|done|].
  split; [done|]. split.
  - destruct Hstep as [Hs|Hs]; rewrite Hs in Hext; rewrite Hs, Hext; [by exists ext|]. exists (y :: ext). by rewrite <-app_assoc.
  - intros Hlen. assert (emitStep B ordered y = ordered) as Heq.
    { destruct Hstep as [|Hs]; [done|]. rewrite Hext, Hs, !length_app in Hlen. cbn in Hlen. lia. }
    rewrite Heq in *. intros z [->|Hz]%elem_of_cons; [by apply Hstuck|by apply H3].
Qed.

Lemma full_perm ordered : NoDup (memberIDOf <$> members) → emittedOK ordered → (length members ≤ length ordered)%nat → ordered ≡ₚ members.
Proof.
  intros Hnd [Hm Hn _] Hlen. apply submseteq_length_Permutation; [|done]. apply NoDup_submseteq; [|done]. by apply NoDup_fmap_1 in Hn.
Qed.

Definition orderOutcome (r : res (OrderError E) (list Bead)) : Prop :=
  match r with
  | Ok ordered => ordered ≡ₚ members ∧ blockersFirst ordered
  | Err (DependencyCycle stuck) => stuck ≠ [] ∧ ∀ id, id ∈ stuck → id ∈ memberIDOf <$> members ∧ ∃ x, x ∈ blockersFor id ∧ x ∈ stuck
  | Err (DepsFailed _ _) => False
  end.

Lemma emitLoop_ok fuel ordered :
  NoDup (memberIDOf <$> members) → emittedOK ordered → (length members ≤ length ordered + fuel)%nat → orderOutcome (emitLoop fuel B members ordered).
Proof.
  intros Hnd. revert ordered. induction fuel as [|fuel IH]; intros ordered Ho Hlen; cbn [emitLoop];
    destruct (Nat.leb_spec (length members) (length ordered)) as [Hle|Hgt]; try (by split; [apply full_perm|apply Ho]); try lia.
  destruct (emitPass_ok members ordered) as (Ho' & [ext Hext] & Hstuck); [done|done|].
  destruct (Nat.eqb_spec (length (emitPass B members ordered)) (length ordered)) as [Heq|Hne].
  2:{ apply IH; [done|]. rewrite Hext, length_app in Hne |- *. lia. }
  specialize (Hstuck Heq). set (stuck := List.filter _ _).
  assert (∀ id, id ∈ stuck ↔ id ∈ memberIDOf <$> members ∧ id ≠ "" ∧ id ∉ memberIDOf <$> ordered) as Hin.
  { intros id. unfold stuck. rewrite list_elem_of_In, filter_In, <-list_elem_of_In, andb_true_iff, !negb_true_iff, !bool_decide_eq_false. done. }
  assert (∀ y, y ∈ members → memberIDOf y ∉ memberIDOf <$> ordered → memberIDOf y ∈ stuck ∧ ∃ x, x ∈ blockersFor (memberIDOf y) ∧ x ∈ stuck) as Hy.
  { intros y Hy Hn. destruct (Hstuck y Hy) as [?|(x & Hx & Hxn)]; [done|].
    assert (memberIDOf y ≠ "") as Hne by (intros He; unfold blockersFor in Hx; rewrite He in Hx; by apply elem_of_nil in Hx).
    split; [apply Hin; by split; [apply list_elem_of_fmap_2|]|]. exists x. split; [done|]. apply Hin.
    unfold blockersFor in Hx. rewrite bool_decide_false in Hx by done. destruct (memberDeps (memberIDOf y)) as [deps|]; [|by apply elem_of_nil in Hx].
    unfold memberBlockers in Hx. apply list_elem_of_In, filter_In in Hx as [_ Hx]. apply andb_true_iff in Hx as [Hx Ha]. apply andb_true_iff in Hx as [Hx _].
    apply bool_decide_eq_true in Ha. unfold allIDs in Ha. apply list_elem_of_In, filter_In in Ha as [Ha _]. apply list_elem_of_In in Ha.
    apply negb_true_iff, bool_decide_eq_false in Hx. done. }
  split.
  - intros Hnil. assert (∃ y, y ∈ members ∧ memberIDOf y ∉ memberIDOf <$> ordered) as (y & Hym & Hyn).
    { destruct (decide (Forall (λ y, memberIDOf y ∈ memberIDOf <$> ordered) members)) as [Hall|Hn].
      - exfalso. assert (length (memberIDOf <$> members) ≤ length (memberIDOf <$> ordered))%nat as Hc; [|rewrite !length_fmap in Hc; lia].
        apply submseteq_length, NoDup_submseteq; [done|]. intros id (y & -> & Hy')%list_elem_of_fmap. rewrite Forall_forall in Hall. by apply Hall.
      - apply not_Forall_Exists in Hn; [|apply _]. apply Exists_exists in Hn as (y & ? & ?). by exists y. }
    destruct (Hy y Hym Hyn) as [Hs _]. rewrite Hnil in Hs. by apply elem_of_nil in Hs.
  - intros id (Hid & Hne & Hn)%Hin. split; [done|]. apply list_elem_of_fmap in Hid as (y & -> & Hym). by apply Hy.
Qed.
End emit.

(** C24 A drain takes its members in an order that is safe: when the dependencies
    of the members can be read, the search ends; it answers with the members,
    none lost or repeated, each after the members that block it, or it reports
    members each of which waits for another of them. *)
Theorem drain_order :
  NoDup (memberIDOf <$> members) → (∀ id, id ∈ memberIDOf <$> members → id ≠ "" → ∃ deps, memberDeps id = Ok deps) →
  orderOutcome (orderDrainMembersByDependencies memberDeps members).
Proof.
  intros Hnd Hdeps. unfold orderDrainMembersByDependencies. fold allIDs. destruct (Nat.ltb_spec (length members) 2) as [Hlt|Hge].
  - split; [done|]. intros l1 y l2 He x Hx. exfalso. unfold blockersFor in Hx. destruct (memberIDOf y == "") eqn:Ey; [by apply elem_of_nil in Hx|].
    destruct (memberDeps (memberIDOf y)) as [deps|]; [|by apply elem_of_nil in Hx]. unfold memberBlockers in Hx.
    apply list_elem_of_In, filter_In in Hx as [_ Hx]. apply andb_true_iff in Hx as [Hx Ha]. apply andb_true_iff in Hx as [_ Hx].
    apply bool_decide_eq_true in Ha. apply negb_true_iff, bool_decide_eq_false in Hx. unfold allIDs in Ha.
    apply list_elem_of_In, filter_In in Ha as [Ha _]. apply list_elem_of_In in Ha. rewrite He in Ha, Hlt. rewrite length_app in Hlt. cbn in Hlt.
    destruct l1; [|cbn in Hlt; lia]. destruct l2; [|cbn in Hlt; lia]. cbn in Ha. by apply list_elem_of_singleton in Ha.
  - destruct (loadBlockers_spec [] members ∅) as (B & -> & HB); [done|done|done|intros id; by rewrite lookup_empty|].
    apply emitLoop_ok; [|done| |cbn; lia].
    + intros id Hid. rewrite HB. by rewrite bool_decide_true.
    + split; [by intros z ?%elem_of_nil|apply NoDup_nil_2|]. intros [|? ?] ? ? ?; done.
Qed.
End order.

(** ** Reservations *)

(** The reservation stored on each member that exists. *)
Abbreviation cells := (gmap string string).

Definition heldBy (d : string) (o : option string) : Prop := match o with Some s => TrimSpace s = d | None => False end.

(** The drain [d] owns the member, or the member is gone. *)
Definition owned (d id : string) (v : cells) : Prop := heldBy d (v !! id) ∨ v !! id = None.

Section reservations.
Context {E : Type} (isNotFound isPreconditionFailed : E → bool) (fenced : bool).

(** What a store may answer: reads tell the truth or fail; a compare-and-set
    that succeeds found the value it expected, and one that fails with an
    ambiguous error may have been committed; a fenced store resolves a
    conditional writer or refuses. *)
Definition answers (v : cells) {X} (e : drainE E X) : X → cells → Prop :=
  match e in drainE _ X return X → cells → Prop with
  | OwningStore _ => λ _ v', v' = v
  | GetMember id => λ r v', v' = v ∧
      match r with
      | Ok b => v !! id = Some b.(bMetadata).[ExclusiveDrainReservationMetadataKey]
      | Err e => isNotFound e = true → v !! id = None
      end
  | ResolveWriter _ => λ r v', v' = v ∧ r ≠ Ok (negb fenced)
  | CompareAndSet id expected next => λ r v',
      let committed := v !! id = Some expected ∧ v' = <[id := next]> v in
      if r.1 then committed
      else v' = v ∨ (committed ∧ ∃ e, r.2 = Some e ∧ isPreconditionFailed e = false ∧ isNotFound e = false)
  | SetReservation id value => λ r v',
      match r with
      | Ok _ => is_Some (v !! id) ∧ v' = <[id := value]> v
      | Err _ => v' = v ∨ (is_Some (v !! id) ∧ v' = <[id := value]> v)
      end
  end.

(** An ID of a bead. *)
Definition named (d : string) : Prop := d ≠ "" ∧ TrimSpace d = d.

(** A drain between two of its calls. *)
Inductive thread := Idle | Claiming (p : drain E) | Holding | Releasing (p : drain E).

Context (control : string → Bead) (members : string → list Bead).

Record system := mkSystem { sysCells : cells; sysThreads : gmap string thread }.

Definition threadOf (s : system) (d : string) : thread := default Idle (sysThreads s !! d).

(** A drain claims its members, holds them, releases them at any time it does not
    claim, and may stop anywhere; members may be deleted. *)
Inductive sysStep : system → system → Prop :=
| step_claim d s : named d → threadOf s d = Idle →
    sysStep s (mkSystem s.(sysCells) (<[d := Claiming (reserveDrainMembers isNotFound isPreconditionFailed (control d) (members d))]> s.(sysThreads)))
| step_claim_call d X (e : drainE E X) k x v' s : named d → threadOf s d = Claiming (Vis e k) → answers s.(sysCells) e x v' →
    sysStep s (mkSystem v' (<[d := Claiming (k x)]> s.(sysThreads)))
| step_claimed d s : threadOf s d = Claiming (Ret None) → sysStep s (mkSystem s.(sysCells) (<[d := Holding]> s.(sysThreads)))
| step_refused d err s : threadOf s d = Claiming (Ret (Some err)) → sysStep s (mkSystem s.(sysCells) (<[d := Idle]> s.(sysThreads)))
| step_release d s : named d → threadOf s d = Idle ∨ threadOf s d = Holding →
    sysStep s (mkSystem s.(sysCells)
      (<[d := Releasing (releaseDrainReservations isNotFound isPreconditionFailed d (bID <$> members d))]> s.(sysThreads)))
| step_release_call d X (e : drainE E X) k x v' s : named d → threadOf s d = Releasing (Vis e k) → answers s.(sysCells) e x v' →
    sysStep s (mkSystem v' (<[d := Releasing (k x)]> s.(sysThreads)))
| step_released d r s : threadOf s d = Releasing (Ret r) → sysStep s (mkSystem s.(sysCells) (<[d := Idle]> s.(sysThreads)))
| step_crash d s : sysStep s (mkSystem s.(sysCells) (<[d := Idle]> s.(sysThreads)))
| step_delete id s : sysStep s (mkSystem (delete id s.(sysCells)) s.(sysThreads)).

(** *** What a drain relies on and guarantees *)

(** The moves of the others, as [d] sees them. *)
Definition envMove (d : string) (v v' : cells) : Prop :=
  ∀ id, (heldBy d (v !! id) → owned d id v') ∧ (v !! id = None → v' !! id = None).

(** The writes of [d]. *)
Definition ownCall (d : string) {X} (e : drainE E X) : Prop :=
  match e with
  | CompareAndSet _ expected next => (expected = "" ∧ next = d) ∨ (expected = d ∧ next = "")
  | SetReservation _ _ => False
  | _ => True
  end.

Fixpoint rely {A} (d : string) (p : prog (drainE E) A) (v : cells) (Q : A → cells → Prop) : Prop :=
  match p with
  | Ret a => Q a v
  | Vis e k => ownCall d e ∧ ∀ v1, envMove d v v1 → ∀ x v2, answers v1 e x v2 → rely d (k x) v2 Q
  end.

Lemma envMove_refl d v : envMove d v v.
Proof. intros id. split; [by left|done]. Qed.

Lemma owned_env d id v v' : envMove d v v' → owned d id v → owned d id v'.
Proof. intros Hm [Ho|Hn]; [by apply Hm|right; by apply Hm]. Qed.

Lemma envMove_trans d v1 v2 v3 : envMove d v1 v2 → envMove d v2 v3 → envMove d v1 v3.
Proof.
  intros H12 H23 id. split; [|intros Hn; by apply H23, H12]. intros Ho. eapply owned_env; [exact H23|]. by apply H12.
Qed.

Lemma rely_env {A} d (p : prog (drainE E) A) v v1 Q :
  (∀ a v v', envMove d v v' → Q a v → Q a v') → envMove d v v1 → rely d p v Q → rely d p v1 Q.
Proof.
  intros HQ Hm. destruct p as [a|X e k]; cbn; [by apply HQ|]. intros [Ho Hk]. split; [done|]. intros v2 H2. apply Hk. by eapply envMove_trans.
Qed.

Lemma rely_mono {A} d (p : prog (drainE E) A) v (Q Q' : A → cells → Prop) :
  rely d p v Q → (∀ a v', Q a v' → Q' a v') → rely d p v Q'.
Proof.
  intros Hp HQ. revert v Hp. induction p as [a|X e k IH]; intros v Hp; cbn in *; [auto|].
  destruct Hp as [Ho Hk]. split; [done|]. intros v1 H1 x v2 H2. eapply IH, Hk; done.
Qed.

Lemma rely_bind {A B} d (p : prog (drainE E) A) (f : A → prog (drainE E) B) v Q :
  rely d p v (λ a v', rely d (f a) v' Q) → rely d (bind p f) v Q.
Proof.
  revert v. induction p as [a|X e k IH]; intros v Hp; cbn in *; [done|].
  destruct Hp as [Ho Hk]. split; [done|]. intros v1 H1 x v2 H2. eapply IH, Hk; done.
Qed.

(** The writes of one drain are moves of the others for any other. *)
Lemma ownCall_env {X} d d' (e : drainE E X) v x v' :
  d ≠ d' → d ≠ "" → TrimSpace d = d → TrimSpace d' = d' → d' ≠ "" → ownCall d e → answers v e x v' → envMove d' v v'.
Proof.
  intros Hne H0 Ht Ht' H0' Ho Ha. destruct e as [id|id|id|id expected next|id value]; cbn in *; [subst; apply envMove_refl|destruct Ha as [-> _]; apply envMove_refl|destruct Ha as [-> _]; apply envMove_refl| |done].
  assert (v' = v ∨ (v !! id = Some expected ∧ v' = <[id := next]> v)) as [->|[Hv ->]]; [destruct x.1; [by right|]; destruct Ha as [|[? _]]; [by left|by right]|apply envMove_refl|].
  intros i. destruct (decide (i = id)) as [->|Hi].
  - unfold owned. rewrite Hv, lookup_insert_eq. cbn. split; [|done]. intros He. exfalso. destruct Ho as [[-> _]|[-> _]]; [by apply H0'|congruence].
  - unfold owned. rewrite lookup_insert_ne by done. split; [by left|done].
Qed.

(** *** The claims *)

Section claims.
Context (d : string) (Hd : d ≠ "") (Htrim : TrimSpace d = d) (Hfenced : fenced = true).

(** What [d] owned it still owns. *)
Definition keeps (v v' : cells) : Prop := ∀ id, owned d id v → owned d id v'.

Lemma keeps_env v v1 v2 : envMove d v v1 → keeps v1 v2 → keeps v v2.
Proof. intros Hm Hk id Ho. apply Hk. by eapply owned_env. Qed.

Lemma keeps_cas id v : keeps v (<[id := d]> v).
Proof.
  intros i Ho. destruct (decide (i = id)) as [->|Hn]; unfold owned in *; [left; by rewrite lookup_insert_eq|by rewrite lookup_insert_ne].
Qed.

Lemma owned_cas id v : owned d id (<[id := d]> v).
Proof. left. by rewrite lookup_insert_eq. Qed.

Lemma claimLoop_rely n id lastErr v :
  rely d (claimLoop isPreconditionFailed n d id lastErr) v (λ r v', keeps v v' ∧ (r = None → owned d id v')).
Proof.
  revert lastErr v. induction n as [|n IH]; intros lastErr v; cbn [claimLoop]; [split; [by intros i|done]|].
  cbn [trigger bind rely]. split; [by left|]. intros v1 Hm1 [ok casErr] v2 Ha. cbn in Ha.
  assert (keeps v v2) as Hk2.
  { eapply keeps_env; [exact Hm1|]. destruct ok; [destruct Ha as [_ ->]; apply keeps_cas|].
    destruct Ha as [->|[[_ ->] _]]; [by intros i|apply keeps_cas]. }
  destruct ok. { cbn. split; [done|]. intros _. destruct Ha as [_ ->]. apply owned_cas. }
  cbn. split; [done|]. intros v3 Hm3 r v4 [-> Hr].
  assert (keeps v v3) as Hk3 by (intros i Ho; eapply owned_env; [exact Hm3|by apply Hk2]).
  destruct r as [b|e]; [|by cbn]. destruct (ownerOf b == d) eqn:E1.
  { cbn. split; [done|]. intros _. left. rewrite Hr. by apply bool_decide_eq_true in E1. }
  destruct (ownerOf b != ""); [by cbn|]. assert (rely d (claimLoop isPreconditionFailed n d id casErr) v3 (λ r v', keeps v v' ∧ (r = None → owned d id v'))) as Hrec.
  { eapply rely_mono; [apply IH|]. cbn beta. intros r v' [Hk Ho]. split; [|done]. intros i Hi. by apply Hk, Hk3. }
  destruct casErr as [e|]; [|exact Hrec]. destruct (isPreconditionFailed e); [exact Hrec|by cbn].
Qed.

Lemma reserve_rely c id v :
  c.(bID) = d → drainMemberAccess c = DrainMemberAccessExclusive →
  rely d (reserveDrainMember isNotFound isPreconditionFailed c id) v (λ r v', keeps v v' ∧ (r = None → owned d id v')).
Proof.
  intros Hc Hx. unfold reserveDrainMember. rewrite Hx, Hc. change (DrainMemberAccessExclusive != DrainMemberAccessExclusive) with false.
  cbn [trigger bind rely]. split; [done|]. intros v1 Hm1 r1 v2 Ha1. cbn in Ha1. subst v2.
  assert (keeps v v1) as Hk1 by (intros i Ho; by eapply owned_env). destruct r1 as [[]|e]; [|by cbn].
  cbn [trigger bind rely]. split; [done|]. intros v2 Hm2 r2 v3 [-> Hr].
  assert (keeps v v2) as Hk2 by (intros i Ho; eapply owned_env; [exact Hm2|by apply Hk1]).
  destruct r2 as [b|e]; [|cbn; split; [done|]; destruct (isNotFound e) eqn:En; [intros _; right; by apply Hr|done]].
  destruct ((ownerOf b != "") && (ownerOf b != d)); [by cbn|]. destruct (ownerOf b == d) eqn:E1.
  { cbn. split; [done|]. intros _. left. rewrite Hr. by apply bool_decide_eq_true in E1. }
  unfold claimDrainReservation. cbn [trigger bind rely]. split; [done|]. intros v3 Hm3 r3 v4 Ha3. cbn in Ha3. destruct Ha3 as [-> Hw].
  assert (keeps v v3) as Hk3 by (intros i Ho; eapply owned_env; [exact Hm3|by apply Hk2]).
  destruct r3 as [[]|e]; [|by rewrite Hfenced in Hw|by cbn].
  eapply rely_mono; [apply claimLoop_rely|]. cbn beta. intros r v' [Hk Ho]. split; [|done]. intros i Hi. by apply Hk, Hk3.
Qed.

Lemma reserveAll_rely c ms v :
  c.(bID) = d → drainMemberAccess c = DrainMemberAccessExclusive →
  rely d (reserveDrainMembers isNotFound isPreconditionFailed c ms) v
    (λ r v', keeps v v' ∧ (r = None → ∀ m, m ∈ ms → owned d m.(bID) v')).
Proof.
  intros Hc Hx. revert v. induction ms as [|m ms IH]; intros v.
  { cbn. split; [by intros i|]. intros _ m Hin. by apply elem_of_nil in Hin. }
  unfold reserveDrainMembers in *. cbn [forEach]. apply rely_bind. eapply rely_mono; [by apply reserve_rely|]. cbn beta. intros [err|] v1 [Hk Ho]; [by cbn|].
  eapply rely_mono; [apply IH|]. cbn beta. intros r v2 [Hk2 Ho2]. split; [intros i Hi; by apply Hk2, Hk|].
  intros Hr x [->|Hin]%elem_of_cons; [apply Hk2; by apply Ho|by apply Ho2].
Qed.

(** *** The releases *)

Lemma release_rely id v : rely d (releaseDrainReservation isNotFound isPreconditionFailed d id) v (λ _ _, True).
Proof.
  cbn [releaseDrainReservation trigger bind rely]. split; [done|]. intros v1 _ r1 v2 Ha. cbn in Ha. destruct Ha as [-> Hw].
  destruct r1 as [[]|e]; [|by rewrite Hfenced in Hw|done]. cbn [trigger bind rely]. split; [by right|]. intros v2 _ [ok casErr] v3 _.
  destruct ok; [done|]. destruct casErr as [e|]; [|done]. destruct (_ || _); [done|]. cbn. split; [done|]. by intros.
Qed.

Lemma releaseAll_rely rows v : rely d (releaseDrainReservations isNotFound isPreconditionFailed d rows) v (λ _ _, True).
Proof.
  unfold releaseDrainReservations. rewrite Htrim, bool_decide_false by done. revert v.
  induction (releaseIDs [] rows) as [|id ids IH]; intros v; [done|]. cbn [forEach trigger bind rely]. split; [done|]. intros v1 _ r1 v2 _.
  destruct r1 as [[]|e]; [|done]. apply rely_bind. eapply rely_mono; [apply release_rely|]. intros [err|] v3 _; [done|]. apply IH.
Qed.
End claims.

(** ** Exclusion *)

Hypothesis Hfenced : fenced = true.
Hypothesis Hcontrol : ∀ d, (control d).(bID) = d.
Hypothesis Haccess : ∀ d, drainMemberAccess (control d) = DrainMemberAccessExclusive.

Definition ownsAll (d : string) (v : cells) : Prop := ∀ m, m ∈ members d → owned d m.(bID) v.

Definition threadOK (d : string) (v : cells) (t : thread) : Prop :=
  match t with
  | Idle => True
  | Claiming p => rely d p v (λ r v', r = None → ownsAll d v')
  | Holding => ownsAll d v
  | Releasing p => rely d p v (λ _ _, True)
  end.

Definition systemOK (s : system) : Prop := ∀ d, named d → threadOK d s.(sysCells) (threadOf s d).

Lemma ownsAll_env d v v' : envMove d v v' → ownsAll d v → ownsAll d v'.
Proof. intros Hm Ho m Hin. by eapply owned_env; [|apply Ho]. Qed.

Lemma threadOK_env d v v' t : envMove d v v' → threadOK d v t → threadOK d v' t.
Proof.
  intros Hm. destruct t as [|p| |p]; cbn; [done| |by apply ownsAll_env|].
  - intros Hp. eapply rely_env; [|exact Hm|exact Hp]. intros a w w' Hw Ha Hn. eapply ownsAll_env; [exact Hw|by apply Ha].
  - intros Hp. by eapply rely_env.
Qed.

(** A step of [d] that leaves the cells or makes a call of its own. *)
Lemma systemOK_step s d v' t :
  systemOK s → (∀ d', d' ≠ d → named d' → envMove d' s.(sysCells) v') → (named d → threadOK d v' t) →
  systemOK (mkSystem v' (<[d := t]> s.(sysThreads))).
Proof.
  intros Hs Henv Hd d' Hn. unfold threadOf. cbn [sysCells sysThreads]. destruct (decide (d' = d)) as [->|Hne].
  - rewrite lookup_insert_eq. by apply Hd.
  - rewrite lookup_insert_ne by done. eapply threadOK_env; [by apply Henv|]. by apply Hs.
Qed.

Lemma call_step {X} s d (e : drainE E X) x v' t :
  systemOK s → named d → ownCall d e → answers s.(sysCells) e x v' → threadOK d v' t → systemOK (mkSystem v' (<[d := t]> s.(sysThreads))).
Proof.
  intros Hs [Hd Ht] Ho Ha Hok. apply systemOK_step; [done| |done]. intros d' Hne [Hd' Ht']. by eapply (ownCall_env d d').
Qed.

Lemma quiet_step s d t : systemOK s → (named d → threadOK d s.(sysCells) t) → systemOK (mkSystem s.(sysCells) (<[d := t]> s.(sysThreads))).
Proof. intros Hs Ht. apply systemOK_step; [done|intros; apply envMove_refl|done]. Qed.

Lemma systemOK_preserved s s' : systemOK s → sysStep s s' → systemOK s'.
Proof.
  intros Hs Hst. destruct Hst as [d s Hn Ht|d X e k x v' s Hn Ht Ha|d s Ht|d err s Ht|d s Hn Ht|d X e k x v' s Hn Ht Ha|d r s Ht|d s|id s].
  - apply quiet_step; [done|]. intros [Hd Htr]. cbn. eapply rely_mono; [by apply reserveAll_rely|]. cbn beta. intros r v' [_ Ho] Hr m Hin. by apply Ho.
  - pose proof (Hs d Hn) as Hok. rewrite Ht in Hok. destruct Hok as [Ho Hk]. eapply call_step; [done|done|done|done|]. cbn. eapply Hk; [apply envMove_refl|done].
  - apply quiet_step; [done|]. intros Hn. pose proof (Hs d Hn) as Hok. rewrite Ht in Hok. by apply Hok.
  - by apply quiet_step.
  - apply quiet_step; [done|]. intros [Hd Htr]. by apply releaseAll_rely.
  - pose proof (Hs d Hn) as Hok. rewrite Ht in Hok. destruct Hok as [Ho Hk]. eapply call_step; [done|done|done|done|]. cbn. eapply Hk; [apply envMove_refl|done].
  - by apply quiet_step.
  - by apply quiet_step.
  - intros d Hn. eapply threadOK_env; [|by apply Hs]. cbn [sysCells]. intros i. destruct (decide (i = id)) as [->|Hi].
    + unfold owned. rewrite lookup_delete_eq. split; [by right|done].
    + unfold owned. rewrite lookup_delete_ne by done. split; [by left|done].
Qed.
End reservations.

(** C20 Exclusive means exclusive: on a store with conditional writes, whatever
    the reservations at the start, and however the store calls of any number of
    drains interleave, fail after or before they commit, or stop with a crash,
    two drains that both hold their members share no member that still exists. *)
Theorem drain_exclusive {E} (isNotFound isPreconditionFailed : E → bool) control members v s d1 d2 m1 m2 :
  (∀ d, (control d).(bID) = d) → (∀ d, drainMemberAccess (control d) = DrainMemberAccessExclusive) →
  rtc (sysStep isNotFound isPreconditionFailed true control members) (mkSystem v ∅) s →
  named d1 → named d2 → threadOf s d1 = Holding → threadOf s d2 = Holding → d1 ≠ d2 →
  m1 ∈ members d1 → m2 ∈ members d2 → m1.(bID) = m2.(bID) → s.(sysCells) !! m1.(bID) = None.
Proof.
  intros Hc Ha Hr Hn1 Hn2 H1 H2 Hne Hm1 Hm2 He.
  assert (systemOK isNotFound isPreconditionFailed true members s) as Hs.
  { assert (systemOK isNotFound isPreconditionFailed true members (mkSystem v ∅)) as Hi by (intros d _; by cbn).
    revert Hi. induction Hr as [|s1 s2 s3 Hst _ IH]; [done|]. intros Hi. apply IH; [done..|]. by eapply systemOK_preserved. }
  pose proof (Hs d1 Hn1) as Ho1. pose proof (Hs d2 Hn2) as Ho2. rewrite H1 in Ho1. rewrite H2 in Ho2.
  specialize (Ho1 m1 Hm1). specialize (Ho2 m2 Hm2). rewrite <-He in Ho2. unfold owned, heldBy in *.
  destruct (sysCells s !! bID m1) as [r|]; [|done]. exfalso. destruct Ho1 as [<-|]; [|done]. by destruct Ho2.
Qed.
