(* ===== verification/DrainScenarios.v ===== *)
(** * DrainScenarios: two drains and one work bead

    Concrete runs of the reservation protocol and of the member order, with
    what the unconditional write leaves open. *)

From S2P Require Import Prelude GoBase GoText Beads Prog SessionState WorkflowScope Drain DrainProps.

Local Open Scope Z_scope.

(** ** Order *)

Definition workBead (id : string) : Bead := setID zeroBead id.

Definition waitsFor (id on : string) : Dep := mkDep id on "blocks".

(** Three members, listed with the last step first. *)
Definition chainDeps (id : string) : res string (list Dep) :=
  Ok (if id == "w-3" then [waitsFor "w-3" "w-2"] else if id == "w-2" then [waitsFor "w-2" "w-1"] else []).

Definition chainMembers : list Bead := [workBead "w-3"; workBead "w-2"; workBead "w-1"].

Lemma drain_order_witness :
  orderDrainMembersByDependencies chainDeps chainMembers = Ok (reverse chainMembers) ∧
  orderOutcome chainDeps chainMembers (orderDrainMembersByDependencies chainDeps chainMembers).
Proof.
  split; [reflexivity|]. apply drain_order.
  - change (NoDup ["w-3"; "w-2"; "w-1"]). apply (bool_decide_unpack _). vm_compute. exact I.
  - intros id _ _. unfold chainDeps. eexists. reflexivity.
Defined.

(** ** Reservations *)

(** The errors of the store in these runs. *)
Inductive storeErr := ErrNotFound | ErrPrecondition.

Definition isMissing (e : storeErr) : bool := match e with ErrNotFound => true | _ => false end.
Definition isStale (e : storeErr) : bool := match e with ErrPrecondition => true | _ => false end.

Definition drainControl (d : string) : Bead := setMetadataMap (setID zeroBead d) {[DrainMemberAccessMetadataKey := DrainMemberAccessExclusive]}.

(** Every drain wants the one member. *)
Definition sharedMember (d : string) : list Bead := [workBead "w-1"].

Definition memberHeldBy (owner : string) : Bead := setMetadataMap (workBead "w-1") {[ExclusiveDrainReservationMetadataKey := owner]}.

Section runs.
Context (fenced : bool).

Abbreviation moves := (sysStep isMissing isStale fenced drainControl sharedMember).

(** Two drains side by side. *)
Definition side (v : cells) (t1 t2 : thread (E := storeErr)) : system := mkSystem v (<["d-1" := t1]> (<["d-2" := t2]> ∅)).

Lemma side_put v t1 t2 t1' t2' :
  <["d-1" := t1']> (side v t1 t2).(sysThreads) = (side v t1' t2).(sysThreads) ∧ <["d-2" := t2']> (side v t1 t2).(sysThreads) = (side v t1 t2').(sysThreads).
Proof. split; cbn [side sysThreads]; [by rewrite insert_insert_eq|by rewrite insert_insert_ne, insert_insert_eq]. Qed.

(** A step that replaces one of the two. *)
Lemma side_step v v' t1 t2 t1' t2' :
  moves (side v t1 t2) (mkSystem v' (<["d-1" := t1']> (side v t1 t2).(sysThreads))) ∧ t2' = t2 ∨
  moves (side v t1 t2) (mkSystem v' (<["d-2" := t2']> (side v t1 t2).(sysThreads))) ∧ t1' = t1 →
  moves (side v t1 t2) (side v' t1' t2').
Proof. by intros [[Hm ->]|[Hm ->]]; [rewrite (proj1 (side_put _ _ _ _ t2)) in Hm|rewrite (proj2 (side_put _ _ _ t1 _)) in Hm]. Qed.

Lemma first_call {X} (e : drainE storeErr X) k x v v' t2 :
  answers isMissing isStale fenced v e x v' → moves (side v (Claiming (Vis e k)) t2) (side v' (Claiming (k x)) t2).
Proof. intros Ha. apply side_step. left. split; [|done]. by eapply (step_claim_call _ _ _ _ _ "d-1"). Qed.

Lemma second_call {X} (e : drainE storeErr X) k x v v' t1 :
  answers isMissing isStale fenced v e x v' → moves (side v t1 (Claiming (Vis e k))) (side v' t1 (Claiming (k x))).
Proof. intros Ha. apply side_step. right. split; [|done]. by eapply (step_claim_call _ _ _ _ _ "d-2"). Qed.

Lemma both_done v : rtc moves (side v (Claiming (Ret None)) (Claiming (Ret None))) (side v Holding Holding).
Proof.
  eapply rtc_l; [apply (side_step v v _ _ Holding (Claiming (Ret None))); left; split; [by apply (step_claimed _ _ _ _ _ "d-1")|done]|].
  apply rtc_once, side_step. right. split; [by apply (step_claimed _ _ _ _ _ "d-2")|done].
Qed.

Abbreviation claim d := (Claiming (reserveDrainMembers isMissing isStale (drainControl d) (sharedMember d))).

Lemma both_start v : rtc moves (mkSystem v ∅) (side v (claim "d-1") (claim "d-2")).
Proof.
  eapply rtc_l; [by apply (step_claim _ _ _ _ _ "d-2")|]. eapply rtc_l; [by apply (step_claim _ _ _ _ _ "d-1")|]. apply rtc_refl.
Qed.
End runs.

(** With conditional writes the first drain gets the member; the member is
    deleted, and the second finds nothing to reserve. *)
Lemma drain_exclusive_witness :
  ∃ s, rtc (sysStep isMissing isStale true drainControl sharedMember) (mkSystem {["w-1" := ""]} ∅) s ∧
    threadOf s "d-1" = Holding ∧ threadOf s "d-2" = Holding ∧ s.(sysCells) !! "w-1" = None.
Proof.
  assert (rtc (sysStep isMissing isStale true drainControl sharedMember) (mkSystem {["w-1" := ""]} ∅) (side ∅ Holding Holding)) as Hr.
  { etrans; [apply both_start|].
    eapply rtc_l; [apply (first_call true (OwningStore "w-1") _ (Ok tt)); reflexivity|].
    eapply rtc_l; [apply (first_call true (GetMember "w-1") _ (Ok (memberHeldBy ""))); split; reflexivity|].
    eapply rtc_l; [apply (first_call true (ResolveWriter "w-1") _ (Ok true)); split; [reflexivity|discriminate]|].
    eapply rtc_l; [apply (first_call true (CompareAndSet "w-1" "" "d-1") _ (true, None)); split; reflexivity|].
    eapply rtc_l; [apply (step_delete _ _ _ _ _ "w-1")|].
    eapply rtc_l; [apply (second_call true (OwningStore "w-1") _ (Ok tt)); reflexivity|].
    eapply rtc_l; [apply (second_call true (GetMember "w-1") _ (Err ErrNotFound)); split; [reflexivity|intros _; reflexivity]|].
    change (delete _ _) with (∅ : cells). apply both_done. }
  exists (side ∅ Holding Holding). split; [exact Hr|]. split; [reflexivity|]. split; [reflexivity|].
  apply (drain_exclusive isMissing isStale drainControl sharedMember {["w-1" := ""]} (side ∅ Holding Holding) "d-1" "d-2" (workBead "w-1") (workBead "w-1"));
    [intros d; reflexivity|intros d; reflexivity|exact Hr|split; [discriminate|reflexivity]|split; [discriminate|reflexivity]|reflexivity|reflexivity|discriminate|left|left|reflexivity].
Defined.

(** The fence is what excludes: a store without conditional writes lets two
    drains read the free member, write it one after the other, and both hold it. *)
Lemma unfenced_not_exclusive :
  rtc (sysStep isMissing isStale false drainControl sharedMember) (mkSystem {["w-1" := ""]} ∅) (side {["w-1" := "d-2"]} Holding Holding).
Proof.
  etrans; [apply both_start|].
  eapply rtc_l; [apply (first_call false (OwningStore "w-1") _ (Ok tt)); reflexivity|].
  eapply rtc_l; [apply (second_call false (OwningStore "w-1") _ (Ok tt)); reflexivity|].
  eapply rtc_l; [apply (first_call false (GetMember "w-1") _ (Ok (memberHeldBy ""))); split; reflexivity|].
  eapply rtc_l; [apply (second_call false (GetMember "w-1") _ (Ok (memberHeldBy ""))); split; reflexivity|].
  eapply rtc_l; [apply (first_call false (ResolveWriter "w-1") _ (Ok false)); split; [reflexivity|discriminate]|].
  eapply rtc_l; [apply (second_call false (ResolveWriter "w-1") _ (Ok false)); split; [reflexivity|discriminate]|].
  eapply rtc_l; [apply (first_call false (SetReservation "w-1" "d-1") _ (Ok tt)); split; [eexists; reflexivity|reflexivity]|].
  eapply rtc_l; [apply (second_call false (SetReservation "w-1" "d-2") _ (Ok tt)); split; [eexists; reflexivity|reflexivity]|].
  change (<["w-1" := "d-2"]> _) with ({["w-1" := "d-2"]} : cells). apply both_done.
Qed.
