(* ===== verification/RetryEval.v ===== *)
(** * RetryEval: judging an attempt and spawning the next one

    Models [internal/dispatch/retry.go] with the helpers it takes from
    [control.go] and [ralph.go].  A retried step is a logical bead; each attempt
    is a run bead that does the work and an eval bead that judges it.  The eval
    closes the logical bead when the attempt passed, failed for good, was
    canceled or was the last one, and otherwise creates the run and the eval of
    the next attempt.

    The code is a program over the calls it makes, which may fail or be the last
    one before a crash.  The check of required artifacts on the file system and
    the recycling of a session are calls; [json.Valid] and the text of errors
    are parameters; trace lines are not modelled. *)

From S2P Require Import Prelude GoBase GoText Beads MemStore Prog SessionState SessionReconcile AgentConfig WorkflowScope.

Local Open Scope Z_scope.

#[local] Notation "'let+' x := p 'in' q" := (andThen p (λ x, q))
  (at level 200, x pattern, p at level 100, q at level 200, right associativity).

(** ** Vocabulary *)

Definition MaxAttemptsMetadataKey : string := "gc.max_attempts".
Definition OnExhaustedMetadataKey : string := "gc.on_exhausted".
Definition ClosedByAttemptMetadataKey : string := "gc.closed_by_attempt".
Definition FailedAttemptMetadataKey : string := "gc.failed_attempt".
Definition RetryStateMetadataKey : string := "gc.retry_state".
Definition NextAttemptMetadataKey : string := "gc.next_attempt".
Definition RetryFromMetadataKey : string := "gc.retry_from".
Definition RetryCountMetadataKey : string := "gc.retry_count".
Definition LastFailureClassMetadataKey : string := "gc.last_failure_class".
Definition RetrySessionRecycledMetadataKey : string := "gc.retry_session_recycled".
Definition OutputJSONRequiredMetadataKey : string := "gc.output_json_required".
Definition ExitCodeMetadataKey : string := "gc.exit_code".
Definition StdoutMetadataKey : string := "gc.stdout".
Definition StderrMetadataKey : string := "gc.stderr".
Definition DurationMsMetadataKey : string := "gc.duration_ms".
Definition TruncatedMetadataKey : string := "gc.truncated".
Definition TerminalMetadataKey : string := "gc.terminal".
Definition FanoutStateMetadataKey : string := "gc.fanout_state".
Definition SpawnedCountMetadataKey : string := "gc.spawned_count".
Definition PartialRetryMetadataKey : string := "gc.partial_retry".
Definition ExecutionRoutedToMetadataKey : string := "gc.execution_routed_to".
Definition RoutedToMetadataKey : string := "gc.routed_to".
Definition SessionAffinityMetadataKey : string := "gc.session_affinity".
Definition ContinuationGroupMetadataKey : string := "gc.continuation_group".
Definition SessionAffinityMetadataKeys : list string := [SessionAffinityMetadataKey; ContinuationGroupMetadataKey].

Definition KindRetryRun : string := "retry-run".
Definition SpawnStateSpawning : string := "spawning".
Definition SpawnStateSpawned : string := "spawned".
Definition DispositionPass : string := "pass".
Definition DispositionHardFail : string := "hard_fail".
Definition DispositionSoftFail : string := "soft_fail".
Definition DispositionControllerError : string := "controller_error".

(** ** Classification *)

Record retryEvalResult := mkRetryEvalResult { reOutcome : string; reReason : string }.

Definition retryFailureReason (subject : Bead) : string :=
  let reason := TrimSpace subject.(bMetadata).[FailureReasonMetadataKey] in
  if reason == "" then "unspecified" else reason.

Definition classifyRetryAttempt (jsonValid : string → bool) (subject : Bead) : retryEvalResult :=
  let md := subject.(bMetadata) in
  let outcome := TrimSpace md.[OutcomeMetadataKey] in
  let class := TrimSpace md.[FailureClassMetadataKey] in
  if outcome == OutcomePass then
    if (class != "") || (TrimSpace md.[FailureReasonMetadataKey] != "") then mkRetryEvalResult "transient" "pass_with_failure_metadata"
    else if TrimSpace md.[OutputJSONRequiredMetadataKey] == "true" then
      let rawOutput := TrimSpace md.[OutputJSONMetadataKey] in
      if rawOutput == "" then mkRetryEvalResult "transient" "missing_required_output_json"
      else if negb (jsonValid rawOutput) then mkRetryEvalResult "transient" "invalid_required_output_json"
      else mkRetryEvalResult "pass" ""
    else mkRetryEvalResult "pass" ""
  else if outcome == OutcomeFail then
    if class == FailureClassTransient then mkRetryEvalResult "transient" (retryFailureReason subject)
    else if (class == FailureClassHard) || (class == "") then mkRetryEvalResult "hard" (retryFailureReason subject)
    else mkRetryEvalResult "transient" "unknown_failure_class"
  else if outcome == OutcomeCanceled then mkRetryEvalResult "canceled" ""
  else if outcome == "" then mkRetryEvalResult "transient" "missing_outcome"
  else mkRetryEvalResult "transient" "invalid_outcome_value".

(** What the verdict leaves on the eval bead. *)
Definition evalMetadata (result : retryEvalResult) : gmap string string :=
  let mk outcome class :=
    <[OutcomeMetadataKey := outcome]> (<[FailureClassMetadataKey := class]> {[FailureReasonMetadataKey := result.(reReason)]}) in
  if result.(reOutcome) == "pass" then mk OutcomePass ""
  else if result.(reOutcome) == "canceled" then mk OutcomeCanceled ""
  else if result.(reOutcome) == "transient" then mk OutcomeFail FailureClassTransient
  else mk OutcomeFail FailureClassHard.

(** ** Step references *)

Definition stepRefForRetryBead (bead : Bead) : string :=
  let ref := TrimSpace bead.(bMetadata).[StepRefMetadataKey] in
  if ref != "" then ref else TrimSpace bead.(bRef).

(** The last [.kind.n] of the reference, when it ends a segment, with the number
    replaced. *)
Definition rewriteAttemptSegment (ref kind : string) (oldAttempt nextAttempt : Z) : option string :=
  let needle := "." +:+ kind +:+ "." +:+ Itoa oldAttempt in
  match LastIndex ref needle with
  | None => None
  | Some index =>
      let rest := sdrop (index + String.length needle) ref in
      if (rest != "") && negb (HasPrefix rest ".") then None
      else Some (stake index ref +:+ ("." +:+ kind +:+ "." +:+ Itoa nextAttempt) +:+ rest)
  end.

Definition rewriteRetryAttemptRef (ref : string) (oldAttempt nextAttempt : Z) : string :=
  if (ref == "") || (oldAttempt <? 1) || (nextAttempt <? 1) then ref
  else match rewriteAttemptSegment ref "run" oldAttempt nextAttempt with
  | Some rewritten => rewritten
  | None => match rewriteAttemptSegment ref "eval" oldAttempt nextAttempt with Some rewritten => rewritten | None => ref end
  end.

Definition trimAttemptStepRefSuffix (stepRef suffix : string) : option string :=
  if (suffix == "") || negb (HasSuffix stepRef suffix) then None else Some (TrimSuffix stepRef suffix).

Definition trimAttemptStepRefForKind (stepRef kind attempt : string) : option string :=
  if attempt == "" then None
  else if bool_decide (kind ∈ ["run"; "scope"; "retry-run"]) then trimAttemptStepRefSuffix stepRef (".run." +:+ attempt)
  else if kind == "check" then trimAttemptStepRefSuffix stepRef (".check." +:+ attempt)
  else if kind == "retry-eval" then trimAttemptStepRefSuffix stepRef (".eval." +:+ attempt)
  else None.

Definition trimRightmostAttemptStepRef (stepRef : string) : option string :=
  let later best prefix :=
    match LastIndex stepRef prefix with
    | Some idx => if best <? Z.of_nat idx then Z.of_nat idx else best
    | None => best
    end in
  let best := foldl later (-1) [".run."; ".check."; ".eval."; ".iteration."; ".attempt."] in
  if best <=? 0 then None else Some (stake (Z.to_nat best) stepRef).

Definition logicalStepRefForAttemptBead (bead : Bead) : string :=
  let stepRef := stepRefForRetryBead bead in
  if stepRef == "" then ""
  else
    let kind := TrimSpace bead.(bMetadata).[KindMetadataKey] in
    let normalized := if kind == KindScopeCheck then TrimSuffix stepRef "-scope-check" else stepRef in
    match trimAttemptStepRefForKind normalized kind (TrimSpace bead.(bMetadata).[AttemptMetadataKey]) with
    | Some trimmed => trimmed
    | None =>
        match trimRightmostAttemptStepRef normalized with
        | Some trimmed => trimmed
        | None => if (kind == KindScopeCheck) && (normalized != stepRef) then normalized else ""
        end
    end.

Definition scopeCheckControlledStepRef (bead : Bead) : string :=
  if TrimSpace bead.(bMetadata).[KindMetadataKey] != KindScopeCheck then ""
  else
    let stepRef := stepRefForRetryBead bead in
    if (stepRef == "") || negb (HasSuffix stepRef "-scope-check") then "" else TrimSuffix stepRef "-scope-check".

(** ** The beads of the next attempt *)

Definition retryEphemera : list string :=
  [OutcomeMetadataKey; ExitCodeMetadataKey; StdoutMetadataKey; StderrMetadataKey; OutputJSONMetadataKey; DurationMsMetadataKey;
   TruncatedMetadataKey; TerminalMetadataKey; FailedAttemptMetadataKey; FanoutStateMetadataKey; SpawnedCountMetadataKey;
   RetryStateMetadataKey; NextAttemptMetadataKey; PartialRetryMetadataKey; FailureClassMetadataKey; FailureReasonMetadataKey;
   FinalDispositionMetadataKey; ClosedByAttemptMetadataKey; LastFailureClassMetadataKey; RetrySessionRecycledMetadataKey;
   "review.verdict"; "design_review.verdict"; "code_review.verdict"].

Definition clearRetryEphemera (md : gmap string string) : gmap string string := foldl (λ md key, delete key md) md retryEphemera.

Definition clearSessionAffinityMetadata (md : gmap string string) : gmap string string :=
  foldl (λ md key, delete key md) md SessionAffinityMetadataKeys.

Definition removeAttemptPoolLabels (labels : list string) : list string := List.filter (λ label, negb (HasPrefix label "pool:")) labels.

Definition hasRigNamed (cfg : City) (name : string) : bool := existsb (λ rig, rig.(rigName) == name) cfg.(cityRigs).

(** The agent of an identity, an agent of rig scope standing for the one of each
    rig; the copy with its directory set is the agent itself here, since only
    its capacity is read. *)
Definition FindAgent (cfg : option City) (identity : string) : option Agent :=
  match cfg with
  | None => None
  | Some cfg =>
      if identity == "" then None
      else match find (λ a, QualifiedName a == identity) cfg.(cityAgents) with
      | Some a => Some a
      | None =>
          let '(dir, name) := ParseQualifiedName identity in
          if (dir == "") || (name == "") || negb (hasRigNamed cfg dir) then None
          else match List.filter (λ a, (a.(agName) == name) && (a.(agDir) == "") && (a.(agScope) == "rig")) cfg.(cityAgents) with
          | [a] => Some a
          | _ => None
          end
      end
  end.

Definition isAttemptMultiSessionTarget (cfg : option City) (target : string) : bool :=
  if TrimSpace target == "" then false
  else match FindAgent cfg target with Some a => SupportsInstanceExpansion a | None => false end.

Definition routedAttemptTarget (bead : Bead) : string :=
  let target := TrimSpace bead.(bMetadata).[ExecutionRoutedToMetadataKey] in
  if target != "" then target else TrimSpace bead.(bMetadata).[RoutedToMetadataKey].

Definition beadUsesMetadataPoolRouteWithConfig (cfg : option City) (bead : Bead) : bool :=
  if isAttemptMultiSessionTarget cfg (routedAttemptTarget bead) then true
  else existsb (λ label, HasPrefix label "pool:") bead.(bLabels).

Definition retryPreservedAssigneeWithConfig (cfg : option City) (bead : Bead) : string :=
  if bead.(bAssignee) == "" then "" else if beadUsesMetadataPoolRouteWithConfig cfg bead then "" else bead.(bAssignee).

(** The keys of an attempt's lineage; the metadata written is never nil, since
    the previous bead has an attempt number. *)
Definition lineage (prev : Bead) (logicalID stepRef : string) (attempt : Z) (md : gmap string string) : gmap string string :=
  <[LogicalBeadIDMetadataKey := logicalID]> (<[StepRefMetadataKey := stepRef]> (<[RetryFromMetadataKey := prev.(bID)]>
    (<[AttemptMetadataKey := Itoa attempt]> md))).

Definition clonedBead (prev : Bead) (assignee stepRef : string) (md : gmap string string) : Bead :=
  mkBead "" prev.(bTitle) "" prev.(bType) None 0 0 assignee prev.(bFrom) prev.(bParentID) stepRef [] prev.(bDescription)
    (removeAttemptPoolLabels prev.(bLabels)) md [] false false None None 0 0.

Definition retryAttemptBead (cfg : option City) (prev : Bead) (logicalID stepRef : string) (attempt : Z) : Bead :=
  let md := clearRetryEphemera prev.(bMetadata) in
  let assignee := retryPreservedAssigneeWithConfig cfg prev in
  let md := if assignee == "" then clearSessionAffinityMetadata md else md in
  clonedBead prev assignee stepRef (lineage prev logicalID stepRef attempt md).

Definition retryEvalBead (prev : Bead) (logicalID stepRef : string) (attempt : Z) : Bead :=
  clonedBead prev "" stepRef (lineage prev logicalID stepRef attempt (clearSessionAffinityMetadata (clearRetryEphemera prev.(bMetadata)))).

(** ** Programs *)

Section retry.
(** [cfg] is the route configuration, absent when it could not be loaded;
    [hasRecycler] says whether the caller gave a callback to recycle sessions.
    [errorText] is the text of an error and [typedTransient] what its type tells:
    a deadline, a transient boundary, lost conditional writes. *)
Context `{UnicodeTables} {E : Type} (isNotFound : E → bool) (batchDeps : bool) (jsonValid : string → bool).
Context (cfg : option City) (hasRecycler : bool) (errorText : ControlError E → string) (typedTransient : ControlError E → bool).

(** *** Errors at the spawn boundary *)

Definition isTransientWorkQueryFailure (msg : string) : bool :=
  Contains msg "running work query" &&
  existsb (Contains msg) ["signal: killed"; "signal: terminated"; "exit status 137"; "exit status 143"; "timed out after"].

Definition transientNeedles : list string :=
  ["i/o timeout"; "context deadline exceeded"; "invalid connection"; "connection refused"; "connection reset by peer"; "broken pipe";
   "bad connection"; "server has gone away"; "too many connections"; "lock wait timeout"; "deadlock found"; "database is locked";
   "database table is locked"; "sqlite_busy"; "dolt circuit breaker is open"; "server appears down, failing fast"; "dolt server unreachable"].

Definition IsTransientControllerError (err : ControlError E) : bool :=
  if typedTransient err then true
  else
    let msg := ToLower (errorText err) in
    isTransientWorkQueryFailure msg || existsb (Contains msg) transientNeedles.

Definition spawnErrorMetadata (err : ControlError E) (class retryable : string) : gmap string string :=
  <[ControllerErrorMetadataKey := errorText err]> (<[ControllerErrorClassMetadataKey := class]> {[ControllerRetryableMetadataKey := retryable]}).

(** [true]: the error may go away, and the control stays open. *)
Definition markControllerSpawnError (beadID : string) (err : ControlError E) : prog (graphE E) bool :=
  if IsTransientControllerError err then
    let* _ := trigger (SetKeys beadID (spawnErrorMetadata err FailureClassTransient "true")) in
    Ret true
  else
    let* _ := trigger (SetKeys beadID (<[FinalDispositionMetadataKey := DispositionControllerError]> (spawnErrorMetadata err FailureClassHard ""))) in
    let* _ := setOutcomeAndClose beadID OutcomeFail in
    let* _ := ReconcileClosedScopeMember isNotFound batchDeps beadID in
    Ret false.

(** An error at the boundary leaves the control pending or is returned. *)
Definition atSpawnBoundary {A} (beadID : string) (p : io E A) : io E A :=
  let* r := p in
  match r with
  | Ok a => Ret (Ok a)
  | Err err =>
      let* pending := markControllerSpawnError beadID err in
      Ret (Err (if (pending : bool) then ControlPending else err))
  end.

(** *** The logical bead and the subject *)

Definition isLogicalKind (bead : Bead) : bool := bool_decide (bead.(bMetadata).[KindMetadataKey] ∈ ["ralph"; "retry"]).

(** The first blocked bead that is a retried step; beads that cannot be read are
    passed over. *)
Fixpoint logicalAmongBlocked (deps : list Dep) : prog (graphE E) string :=
  match deps with
  | [] => Ret ""
  | dep :: deps =>
      if dep.(DepType) != "blocks" then logicalAmongBlocked deps
      else
        let* candidate := trigger (GetBead dep.(IssueID)) in
        match candidate with
        | Ok candidate => if isLogicalKind candidate then Ret candidate.(bID) else logicalAmongBlocked deps
        | Err _ => logicalAmongBlocked deps
        end
  end.

Definition logicalByRef (all : list Bead) (refs : list string) : string :=
  match find (λ rc, isLogicalKind rc.2 && (stepRefForRetryBead rc.2 == rc.1)) (list_prod refs all) with
  | Some rc => rc.2.(bID)
  | None => ""
  end.

Definition logicalRefs (bead : Bead) : list string :=
  let controlled := scopeCheckControlledStepRef bead in
  let logical := logicalStepRefForAttemptBead bead in
  (if controlled == "" then [] else [controlled]) ++ (if (logical == "") || (logical == controlled) then [] else [logical]).

Definition resolveLogicalBeadID (bead : Bead) : prog (graphE E) string :=
  let logicalID := bead.(bMetadata).[LogicalBeadIDMetadataKey] in
  if logicalID != "" then Ret logicalID
  else
    let* deps := trigger (UpDeps bead.(bID)) in
    let* blocked := match deps with Ok deps => logicalAmongBlocked deps | Err _ => Ret "" end in
    if blocked != "" then Ret blocked
    else
      let rootID := bead.(bMetadata).[RootBeadIDMetadataKey] in
      if (rootID == "") || bool_decide (logicalRefs bead = []) then Ret ""
      else
        let* all := listByWorkflowRoot isNotFound rootID in
        Ret match all with Ok all => logicalByRef all (logicalRefs bead) | Err _ => "" end.

Definition isRunOf (logicalID : string) (attempt : Z) (candidate : Bead) : bool :=
  (candidate.(bMetadata).[KindMetadataKey] == KindRetryRun) && (candidate.(bMetadata).[LogicalBeadIDMetadataKey] == logicalID) &&
  (candidate.(bMetadata).[AttemptMetadataKey] == Itoa attempt).

Definition resolveRetryRunSubject (eval : Bead) (logicalID : string) (attempt : Z) : io E Bead :=
  let rootID := TrimSpace eval.(bMetadata).[RootBeadIDMetadataKey] in
  let+ found :=
    if (rootID != "") && (logicalID != "") && (0 <? attempt) then
      let+ all := listByWorkflowRoot isNotFound rootID in Ret (Ok (find (isRunOf logicalID attempt) all))
    else Ret (Ok None) in
  match found with
  | Some candidate => Ret (Ok candidate)
  | None => let+ subjectID := resolveBlockingSubjectID eval.(bID) in perform (GetBead subjectID)
  end.

Definition classifyRetryAttemptWithPostconditions (subject : Bead) : io E retryEvalResult :=
  let result := classifyRetryAttempt jsonValid subject in
  if result.(reOutcome) != "pass" then Ret (Ok result)
  else
    let+ reason := perform (RequiredArtifacts subject) in
    Ret (Ok (if reason != "" then mkRetryEvalResult "transient" reason else result)).

(** *** Writes *)

Definition persistRetryEvalResult (beadID : string) (result : retryEvalResult) : io E unit := perform (SetKeys beadID (evalMetadata result)).

Definition propagateRetrySubjectMetadata (logicalID : string) (subject : Bead) : io E unit :=
  let batch := nonGCMetadata subject.(bMetadata) in
  if bool_decide (batch = ∅) then Ret (Ok ()) else perform (SetKeys logicalID batch).

Definition ensureDep (issueID dependsOnID depType : string) : io E unit :=
  let+ deps := perform (DownDeps issueID) in
  if existsb (λ dep, (dep.(DependsOnID) == dependsOnID) && (dep.(DepType) == depType)) deps then Ret (Ok ())
  else perform (AddDep issueID dependsOnID depType).

(** The beads of the next attempt that exist already: the last one of each
    reference. *)
Definition existingAttempt (runRef evalRef : string) (all : list Bead) : option Bead * option Bead :=
  foldl (λ acc candidate,
    if stepRefForRetryBead candidate == runRef then (Some candidate, acc.2)
    else if stepRefForRetryBead candidate == evalRef then (acc.1, Some candidate)
    else acc) (None, None) all.

Definition createUnless (existing : option Bead) (b : Bead) : io E Bead :=
  match existing with
  | Some next => if next.(bID) == "" then perform (CreateBead b) else Ret (Ok next)
  | None => perform (CreateBead b)
  end.

Definition appendRetryAttempt (logicalID : string) (prevRun prevEval : Bead) (nextAttempt : Z) : io E unit :=
  let raw := prevRun.(bMetadata).[AttemptMetadataKey] in
  let oldAttempt := default 0 (Atoi raw) in
  let rootID := prevRun.(bMetadata).[RootBeadIDMetadataKey] in
  let runRef := rewriteRetryAttemptRef (stepRefForRetryBead prevRun) oldAttempt nextAttempt in
  let evalRef := rewriteRetryAttemptRef (stepRefForRetryBead prevEval) oldAttempt nextAttempt in
  if oldAttempt <? 1 then Ret (Err (InvalidAttempt raw))
  else if rootID == "" then Ret (Err MissingRootBeadID)
  else if (runRef == "") || (evalRef == "") then Ret (Err NoStepRefs)
  else
    let+ all := listByWorkflowRoot isNotFound rootID in
    let '(existingRun, existingEval) := existingAttempt runRef evalRef all in
    let+ nextRun := createUnless existingRun (retryAttemptBead cfg prevRun logicalID runRef nextAttempt) in
    let+ nextEval := createUnless existingEval (retryEvalBead prevEval logicalID evalRef nextAttempt) in
    let+ _ := ensureDep nextEval.(bID) nextRun.(bID) "blocks" in
    ensureDep logicalID nextEval.(bID) "blocks".

Definition finalizeRetryEval (logicalID evalID : string) : io E unit :=
  let+ _ := if logicalID != "" then perform (RemoveDep logicalID evalID) else Ret (Ok ()) in
  let+ eval := perform (GetBead evalID) in
  if eval.(bStatus) == "closed" then Ret (Ok ()) else setOutcomeAndClose evalID OutcomeFail.

(** *** The verdicts *)

Definition report (action : string) : io E ControlResult := Ret (Ok (mkControlResult true action 0)).

Definition closeBoth (evalID logicalID evalOutcome logicalOutcome action : string) : io E ControlResult :=
  let+ _ := setOutcomeAndClose evalID evalOutcome in
  let+ _ := setOutcomeAndClose logicalID logicalOutcome in
  report action.

Definition passAttempt (bead subject : Bead) (logicalID : string) (attempt : Z) : io E ControlResult :=
  let outputJSON := subject.(bMetadata).[OutputJSONMetadataKey] in
  let+ _ := if outputJSON != "" then perform (SetKey logicalID OutputJSONMetadataKey outputJSON) else Ret (Ok ()) in
  let+ _ := propagateRetrySubjectMetadata logicalID subject in
  let+ _ := perform (SetKeys logicalID (<[ClosedByAttemptMetadataKey := Itoa attempt]> {[FinalDispositionMetadataKey := DispositionPass]})) in
  closeBoth bead.(bID) logicalID OutcomePass OutcomePass "pass".

Definition failureMetadata (attempt : Z) (class reason disposition : string) : gmap string string :=
  <[ClosedByAttemptMetadataKey := Itoa attempt]> (<[FailedAttemptMetadataKey := Itoa attempt]> (<[FailureClassMetadataKey := class]>
    (<[FailureReasonMetadataKey := reason]> {[FinalDispositionMetadataKey := disposition]}))).

Definition failAttempt (bead : Bead) (logicalID : string) (attempt : Z) (class reason disposition logicalOutcome action : string) : io E ControlResult :=
  let+ _ := perform (SetKeys logicalID (failureMetadata attempt class reason disposition)) in
  closeBoth bead.(bID) logicalID OutcomeFail logicalOutcome action.

Definition spawningMetadata (nextAttempt : Z) : gmap string string :=
  <[RetryStateMetadataKey := SpawnStateSpawning]> {[NextAttemptMetadataKey := Itoa nextAttempt]}.

Definition spawnedMetadata (nextAttempt : Z) : gmap string string :=
  clearControllerSpawnErrorMetadata (<[RetryStateMetadataKey := SpawnStateSpawned]> {[NextAttemptMetadataKey := Itoa nextAttempt]}).

Definition recyclePooled (bead subject : Bead) : io E unit :=
  if negb (beadUsesMetadataPoolRouteWithConfig cfg subject) then Ret (Ok ())
  else if negb hasRecycler then Ret (Err NoRecycler)
  else if bead.(bMetadata).[RetrySessionRecycledMetadataKey] == "true" then Ret (Ok ())
  else if subject.(bAssignee) == "" then Ret (Err MissingAssignee)
  else
    let+ _ := perform (RecycleSession subject) in
    perform (SetKey bead.(bID) RetrySessionRecycledMetadataKey "true").

Definition spawnAttempt (bead subject : Bead) (logicalID : string) (attempt : Z) (reason : string) : io E ControlResult :=
  let nextAttempt := attempt + 1 in
  let state := bead.(bMetadata).[RetryStateMetadataKey] in
  let+ _ :=
    if state == "" then atSpawnBoundary bead.(bID) (perform (SetKeys bead.(bID) (spawningMetadata nextAttempt)))
    else if (state == SpawnStateSpawning) || (state == SpawnStateSpawned) then Ret (Ok ())
    else Ret (Err (UnsupportedRetryState state)) in
  let+ _ := recyclePooled bead subject in
  let+ _ :=
    if state != SpawnStateSpawned then
      let+ _ := atSpawnBoundary bead.(bID) (appendRetryAttempt logicalID subject bead nextAttempt) in
      atSpawnBoundary bead.(bID) (perform (SetKeys bead.(bID) (spawnedMetadata nextAttempt)))
    else Ret (Ok ()) in
  let+ _ := perform (SetKeys logicalID (<[RetryCountMetadataKey := Itoa attempt]>
    (<[LastFailureClassMetadataKey := FailureClassTransient]> {[FailureReasonMetadataKey := reason]}))) in
  let+ _ := finalizeRetryEval logicalID bead.(bID) in
  report "retry".

Definition judge (bead subject : Bead) (logicalID : string) (attempt maxAttempts : Z) (result : retryEvalResult) : io E ControlResult :=
  let onExhausted := bead.(bMetadata).[OnExhaustedMetadataKey] in
  let outcome := result.(reOutcome) in
  let reason := result.(reReason) in
  if outcome == "pass" then passAttempt bead subject logicalID attempt
  else if outcome == "hard" then failAttempt bead logicalID attempt FailureClassHard reason DispositionHardFail OutcomeFail "hard-fail"
  else if outcome == "canceled" then closeBoth bead.(bID) logicalID OutcomeCanceled OutcomeCanceled "canceled"
  else if outcome == "transient" then
    if maxAttempts <=? attempt then
      if onExhausted == DispositionSoftFail
      then failAttempt bead logicalID attempt FailureClassTransient reason DispositionSoftFail OutcomePass "soft-fail"
      else failAttempt bead logicalID attempt FailureClassTransient reason DispositionHardFail OutcomeFail "fail"
    else spawnAttempt bead subject logicalID attempt reason
  else Ret (Err (UnsupportedOutcome outcome)).

Definition processRetryEval (bead : Bead) : io E ControlResult :=
  let md := bead.(bMetadata) in
  let attempt := default 0 (Atoi md.[AttemptMetadataKey]) in
  let maxAttempts := default 0 (Atoi md.[MaxAttemptsMetadataKey]) in
  if attempt <? 1 then Ret (Err (InvalidAttempt md.[AttemptMetadataKey]))
  else if maxAttempts <? 1 then Ret (Err (InvalidMaxAttempts md.[MaxAttemptsMetadataKey]))
  else
    let* logicalID := resolveLogicalBeadID bead in
    if logicalID == "" then Ret (Err LogicalUnresolved)
    else
      let+ logical := perform (GetBead logicalID) in
      if attempt <=? AtoiValue logical.(bMetadata).[ClosedByAttemptMetadataKey] then
        let+ _ := finalizeRetryEval logicalID bead.(bID) in report "noop"
      else
        let+ subject := resolveRetryRunSubject bead logicalID attempt in
        if subject.(bStatus) != "closed" then Ret (Err ControlPending)
        else
          let+ result := classifyRetryAttemptWithPostconditions subject in
          let+ _ := persistRetryEvalResult bead.(bID) result in
          judge bead subject logicalID attempt maxAttempts result.
End retry.
