(* ===== verification/RetryEvalProps.v ===== *)
(** * RetryEvalProps: the next attempt is spawned once

    The processing of a transient failure against the in-memory store: stopped
    after any store call and started again any number of times, it ends with one
    run and one eval of the next attempt, wired to the step, and no other bead
    created or touched.  Against any store, attempts stay within the limit. *)

From S2P Require Import Prelude GoBase GoText Beads MemStore MemStoreProps Prog SessionState SessionReconcile AgentConfig WorkflowScope WorkflowScopeProps RetryEval.

Local Open Scope Z_scope.

(** ** Numbers, lists and dependencies *)

Lemma Atoi_range s n : Atoi s = Some n → in_int64 n.
Proof.
  assert (∀ z, (if decide (in_int64 z) then Some z else None) = Some n → in_int64 n) as Hc by (intros z; case_decide; [by intros [= <-]|done]).
  unfold Atoi. cbv zeta. intros Hs. destruct s as [|[[] [] [] [] [] [] [] []] r]; destruct (parseDigits _); first [done|by apply Hc in Hs].
Qed.

Lemma last_filter_unique {A} (P : A → bool) l a :
  (∀ x, x ∈ l → P x = true → x = a) → a ∈ l → P a = true → last (List.filter P l) = Some a.
Proof.
  intros Hu Hin HP. assert (∀ x, x ∈ List.filter P l → x = a) as Hall.
  { intros x Hx. apply list_elem_of_In, filter_In in Hx as [Hx Hp]. apply Hu; [by apply list_elem_of_In|done]. }
  assert (a ∈ List.filter P l) as Ha by (by apply list_elem_of_In, filter_In; split; [apply list_elem_of_In|]).
  destruct (last (List.filter P l)) as [x|] eqn:El; [by rewrite (Hall x) by (by apply last_Some_elem_of)|].
  apply last_None in El. rewrite El in Ha. by apply elem_of_nil in Ha.
Qed.

Lemma last_filter_none {A} (P : A → bool) l : (∀ x, x ∈ l → P x = false) → last (List.filter P l) = None.
Proof.
  intros Hn. apply last_None. destruct (List.filter P l) as [|x r] eqn:E; [done|]. exfalso.
  assert (x ∈ List.filter P l) as Hx by (rewrite E; left). apply list_elem_of_In, filter_In in Hx as [Hx Hp]. apply list_elem_of_In in Hx. by rewrite Hn in Hp.
Qed.

Lemma existingAttempt_last runRef evalRef all :
  existingAttempt runRef evalRef all =
  (last (List.filter (λ b, stepRefForRetryBead b == runRef) all),
   last (List.filter (λ b, (stepRefForRetryBead b != runRef) && (stepRefForRetryBead b == evalRef)) all)).
Proof.
  unfold existingAttempt. induction all as [|x all IH] using rev_ind; [done|]. rewrite foldl_app, IH, !List.filter_app. cbn [foldl List.filter fst snd].
  destruct (stepRefForRetryBead x == runRef) eqn:E1; cbn [negb andb]; [by rewrite last_snoc, app_nil_r|].
  destruct (stepRefForRetryBead x == evalRef) eqn:E2; rewrite ?app_nil_r; [by rewrite last_snoc|done].
Qed.

Lemma depAdd_added i o t ds : mkDep i o t ∈ depAdd i o t ds.
Proof.
  induction ds as [|[xi xo xt] ds IH]; cbn; [by left|]. repeat case_bool_decide; cbn; subst; first [by left|by right].
Qed.

Lemma depAdd_keeps i o t ds d : d ∈ ds → ¬ (d.(IssueID) = i ∧ d.(DependsOnID) = o) → d ∈ depAdd i o t ds.
Proof.
  intros Hin Hd. induction ds as [|x ds IH]; [by apply elem_of_nil in Hin|]. cbn.
  apply elem_of_cons in Hin as [->|Hin]; repeat case_bool_decide; cbn; try (exfalso; by apply Hd); first [by left|right; by apply IH|by right].
Qed.

Lemma depRemove_keeps i o ds d : d ∈ ds → ¬ (d.(IssueID) = i ∧ d.(DependsOnID) = o) → d ∈ depRemove i o ds.
Proof.
  intros Hin Hd. induction ds as [|x ds IH]; [by apply elem_of_nil in Hin|]. cbn.
  apply elem_of_cons in Hin as [->|Hin]; repeat case_bool_decide; cbn; try (exfalso; by apply Hd); first [by left|right; by apply IH|done].
Qed.

(** ** A retry that is due *)

(** [b] is [b0] with metadata changed at some keys only. *)
Record retouched (keys : list string) (b0 b : Bead) : Prop := {
  rt_id : b.(bID) = b0.(bID);
  rt_ref : b.(bRef) = b0.(bRef);
  rt_status : b.(bStatus) = b0.(bStatus);
  rt_meta : ∀ key, key ∉ keys → b.(bMetadata).[key] = b0.(bMetadata).[key]
}.

Definition evalKeys : list string :=
  [OutcomeMetadataKey; FailureClassMetadataKey; FailureReasonMetadataKey; RetryStateMetadataKey; NextAttemptMetadataKey;
   RetrySessionRecycledMetadataKey; ControllerErrorMetadataKey; ControllerErrorClassMetadataKey; ControllerRetryableMetadataKey].

Definition logicalKeys : list string := [RetryCountMetadataKey; LastFailureClassMetadataKey; FailureReasonMetadataKey].

Lemma retouched_refl keys b : retouched keys b b.
Proof. done. Qed.

Lemma retouched_trans keys b0 b1 b2 : retouched keys b0 b1 → retouched keys b1 b2 → retouched keys b0 b2.
Proof. intros [? ? ? H1] [? ? ? H2]. split; [congruence..|]. intros key Hk. by rewrite H2, H1. Qed.

Lemma retouched_batch keys now (kvs : gmap string string) b :
  (∀ key, is_Some (kvs !! key) → key ∈ keys) → retouched keys b (touch now (setMetadataMap b (kvs ∪ b.(bMetadata)))).
Proof.
  intros Hk. split; [done..|]. intros key Hn. cbn [touch setRevision setUpdatedAt setMetadataMap bMetadata]. rewrite mget_union.
  destruct (kvs !! key) eqn:E; [|done]. exfalso. apply Hn, Hk. by rewrite E.
Qed.

Lemma retouched_stepRef keys b0 b : StepRefMetadataKey ∉ keys → retouched keys b0 b → stepRefForRetryBead b = stepRefForRetryBead b0.
Proof. intros Hk [_ Hr _ Hm]. unfold stepRefForRetryBead. by rewrite Hm, Hr. Qed.

(** The keys of a literal map. *)
Ltac batchKeys :=
  let Hk := fresh in
  intros ?key [? Hk]; repeat (rewrite lookup_insert_Some in Hk; destruct Hk as [[<- _]|[_ Hk]]; [set_solver|]);
  first [apply lookup_singleton_Some in Hk as [<- _]; set_solver | by rewrite lookup_empty in Hk].

Section due.
Context `{UnicodeTables} (batchDeps : bool) (jsonValid : string → bool) (cfg : option City) (hasRecycler : bool).
Context (errorText : ControlError StoreError → string) (typedTransient : ControlError StoreError → bool).
Context (m0 : MemStore) (eval run logical : Bead) (n : Z).

Abbreviation evalID := (bID eval).
Abbreviation L := (bID logical).
Abbreviation R := ((bMetadata eval).[RootBeadIDMetadataKey]).

Definition nextRunRef : string := rewriteRetryAttemptRef (stepRefForRetryBead run) n (n + 1).
Definition nextEvalRef : string := rewriteRetryAttemptRef (stepRefForRetryBead eval) n (n + 1).

(** An open eval whose attempt, below the limit, was closed with a transient
    failure, under a step that no attempt has closed; the references of the next
    attempt are distinct and unused. *)
Record retryDue : Prop := {
  rd_wf : wf m0;
  rd_room : m0.(msSeq) + 2 ≤ maxInt64;
  rd_eval : lookupBead m0 evalID = Some eval ∧ eval.(bStatus) = "open" ∧ eval.(bMetadata).[RetryStateMetadataKey] = "";
  rd_attempt : Atoi eval.(bMetadata).[AttemptMetadataKey] = Some n ∧ 1 ≤ n;
  rd_limit : ∃ N, Atoi eval.(bMetadata).[MaxAttemptsMetadataKey] = Some N ∧ n < N;
  rd_logical : eval.(bMetadata).[LogicalBeadIDMetadataKey] = L ∧ lookupBead m0 L = Some logical ∧ L ≠ evalID ∧
    AtoiValue logical.(bMetadata).[ClosedByAttemptMetadataKey] < n;
  rd_root : R ≠ "" ∧ TrimSpace R = R;
  rd_run : lookupBead m0 run.(bID) = Some run ∧ run.(bMetadata).[RootBeadIDMetadataKey] = R ∧ run.(bID) ≠ evalID ∧ run.(bID) ≠ L ∧
    run.(bStatus) = "closed" ∧ isRunOf L n run = true;
  rd_only : ∀ b, b ∈ rootBeads m0 R → isRunOf L n b = true → b = run;
  rd_transient : (classifyRetryAttempt jsonValid run).(reOutcome) = "transient";
  rd_pool : beadUsesMetadataPoolRouteWithConfig cfg run = true → hasRecycler = true ∧ run.(bAssignee) ≠ "";
  rd_refs : nextRunRef ≠ "" ∧ nextEvalRef ≠ "" ∧ nextRunRef ≠ nextEvalRef;
  rd_plain : TrimSpace nextRunRef = nextRunRef ∧ TrimSpace nextEvalRef = nextEvalRef;
  rd_unused : ∀ b, b ∈ rootBeads m0 R → stepRefForRetryBead b ≠ nextRunRef ∧ stepRefForRetryBead b ≠ nextEvalRef
}.

(** [b] is the bead of the next attempt made from [prev]. *)
Record nextOf (prev : Bead) (ref : string) (b : Bead) : Prop := {
  nx_status : b.(bStatus) = "open";
  nx_ref : stepRefForRetryBead b = ref;
  nx_attempt : b.(bMetadata).[AttemptMetadataKey] = Itoa (n + 1);
  nx_logical : b.(bMetadata).[LogicalBeadIDMetadataKey] = L;
  nx_root : b.(bMetadata).[RootBeadIDMetadataKey] = R;
  nx_kind : b.(bMetadata).[KindMetadataKey] = prev.(bMetadata).[KindMetadataKey];
  nx_clean : ∀ key, key ∈ retryEphemera → b.(bMetadata).[key] = ""
}.

(** A bead of the next attempt that the store has and did not have. *)
Definition created (m : MemStore) (prev : Bead) (ref : string) (b : Bead) : Prop :=
  lookupBead m b.(bID) = Some b ∧ lookupBead m0 b.(bID) = None ∧ b.(bID) ≠ "" ∧ nextOf prev ref b.

Definition wired (m : MemStore) (r e : Bead) : Prop :=
  mkDep e.(bID) r.(bID) "blocks" ∈ m.(msDeps) ∧ mkDep L e.(bID) "blocks" ∈ m.(msDeps).

(** The next attempt exists once: one run and one eval, wired to the step, the
    eval closed, and nothing else created or touched. *)
Definition spawnedOnce (m : MemStore) : Prop :=
  ∃ r e, created m run nextRunRef r ∧ created m eval nextEvalRef e ∧ wired m r e ∧
    (∃ b, lookupBead m evalID = Some b ∧ b.(bStatus) = "closed" ∧ b.(bMetadata).[OutcomeMetadataKey] = OutcomeFail) ∧
    (∃ b, lookupBead m L = Some b ∧ retouched logicalKeys logical b ∧ b.(bMetadata).[RetryCountMetadataKey] = Itoa n) ∧
    ∀ id, id ≠ evalID → id ≠ L → id ≠ r.(bID) → id ≠ e.(bID) → lookupBead m id = lookupBead m0 id.

(** *** On the way *)

Definition stateOK (m : MemStore) (r e : option Bead) (b : Bead) : Prop :=
  let state := b.(bMetadata).[RetryStateMetadataKey] in
  state = "" ∨ state = SpawnStateSpawning ∨ (state = SpawnStateSpawned ∧ ∃ r' e', r = Some r' ∧ e = Some e' ∧ wired m r' e').

Definition evalOK (m : MemStore) (r e : option Bead) (b : Bead) : Prop := retouched evalKeys eval b ∧ stateOK m r e b.

Record underway (m : MemStore) (r e : option Bead) : Prop := {
  uw_wf : wf m;
  uw_seq : m.(msSeq) = m0.(msSeq) + (if r then 1 else 0) + (if e then 1 else 0);
  uw_eval : ∃ b, lookupBead m evalID = Some b ∧ evalOK m r e b;
  uw_logical : ∃ b, lookupBead m L = Some b ∧ retouched logicalKeys logical b;
  uw_run : ∀ b, r = Some b → created m run nextRunRef b;
  uw_next : ∀ b, e = Some b → created m eval nextEvalRef b;
  uw_frame : ∀ id, id ≠ evalID → id ≠ L → (∀ b, r = Some b → id ≠ b.(bID)) → (∀ b, e = Some b → id ≠ b.(bID)) → lookupBead m id = lookupBead m0 id
}.

Context (Hdue : retryDue).

Lemma due_n : in_int64 n ∧ n + 1 ≤ maxInt64.
Proof.
  destruct (rd_attempt Hdue) as [Ha _]. destruct (rd_limit Hdue) as (N & HN & Hlt). apply Atoi_range in Ha, HN. unfold in_int64 in *. lia.
Qed.

Lemma underway_start : underway m0 None None.
Proof.
  destruct (rd_eval Hdue) as (He & _ & Hs). destruct (rd_logical Hdue) as (_ & Hl & _).
  split; [apply Hdue|lia| |by exists logical|done|done|done]. exists eval. split; [done|]. split; [done|by left].
Qed.

(** Where a bead of the store comes from. *)
Lemma underway_cases m r e id b :
  underway m r e → lookupBead m id = Some b →
  (id = evalID ∧ retouched evalKeys eval b) ∨ (id = L ∧ retouched logicalKeys logical b) ∨ r = Some b ∨ e = Some b ∨ lookupBead m0 id = Some b.
Proof.
  intros Hu Hb. destruct (decide (id = evalID)) as [->|He].
  { left. split; [done|]. destruct (uw_eval _ _ _ Hu) as (b' & Hb' & Hok & _). by simplify_eq. }
  destruct (decide (id = L)) as [->|Hl].
  { right. left. split; [done|]. destruct (uw_logical _ _ _ Hu) as (b' & Hb' & Hok). by simplify_eq. }
  right. right. destruct (decide (bID <$> r = Some id)) as [(x & Hx & Hid)%fmap_Some|Hr].
  { left. destruct (uw_run _ _ _ Hu x Hx) as (Hl' & _). rewrite <-Hid in Hl'. congruence. }
  right. destruct (decide (bID <$> e = Some id)) as [(x & Hx & Hid)%fmap_Some|He'].
  { left. destruct (uw_next _ _ _ Hu x Hx) as (Hl' & _). rewrite <-Hid in Hl'. congruence. }
  right. rewrite <-Hb. symmetry. apply (uw_frame _ _ _ Hu); [done|done|intros x -> ->; by apply Hr|intros x -> ->; by apply He'].
Qed.

Lemma bare_not_member keys b0 b : RootBeadIDMetadataKey ∉ keys → retouched keys b0 b →
  (b.(bID) = R ∨ b.(bMetadata).[RootBeadIDMetadataKey] = R) → b0.(bID) = R ∨ b0.(bMetadata).[RootBeadIDMetadataKey] = R.
Proof. intros Hk [Hi _ _ Hm]. by rewrite Hi, Hm. Qed.

(** A bead under the root is one of the next attempt or has the references of
    a bead that was there. *)
Lemma underway_root m r e b :
  underway m r e → b ∈ rootBeads m R → r = Some b ∨ e = Some b ∨ ∃ b0 keys, b0 ∈ rootBeads m0 R ∧ retouched keys b0 b ∧ (keys = evalKeys ∨ keys = logicalKeys) ∧ (b0 = run → b = run).
Proof.
  intros Hu [Hb Hroot]%elem_rootBeads; [|apply Hu]. destruct (rd_run Hdue) as (_ & _ & Hre & Hrl & _).
  pose proof (wf_nodup _ (rd_wf Hdue)) as Hnd.
  destruct (underway_cases m r e _ b Hu Hb) as [[Hi Hr]|[[Hi Hr]|[?|[?|H0]]]]; [| |by left|by right; left|].
  - right. right. exists eval, evalKeys. split; [|split; [done|split; [by left|by intros <-]]].
    apply elem_rootBeads; [done|]. split; [apply (rd_eval Hdue)|]. eapply bare_not_member; [|exact Hr|exact Hroot]. unfold evalKeys. set_solver.
  - right. right. exists logical, logicalKeys. split; [|split; [done|split; [by right|by intros <-]]].
    apply elem_rootBeads; [done|]. split; [apply (rd_logical Hdue)|]. eapply bare_not_member; [|exact Hr|exact Hroot]. unfold logicalKeys. set_solver.
  - right. right. exists b, evalKeys. split; [|split; [done|split; [by left|done]]]. by apply elem_rootBeads.
Qed.

Lemma root_member m r e b : underway m r e → lookupBead m b.(bID) = Some b → b.(bMetadata).[RootBeadIDMetadataKey] = R → b ∈ rootBeads m R.
Proof. intros Hu Hb Hr. apply elem_rootBeads; [apply Hu|]. split; [done|by right]. Qed.

Lemma keys_stepRef keys b0 b : retouched keys b0 b → keys = evalKeys ∨ keys = logicalKeys → stepRefForRetryBead b = stepRefForRetryBead b0.
Proof. intros Hr [->| ->]; (eapply retouched_stepRef; [|done]); unfold evalKeys, logicalKeys; set_solver. Qed.

Lemma keys_isRunOf keys b0 b : retouched keys b0 b → keys = evalKeys ∨ keys = logicalKeys → isRunOf L n b = isRunOf L n b0.
Proof. intros [_ _ _ Hm] [->| ->]; unfold isRunOf; rewrite !Hm by (unfold evalKeys, logicalKeys; set_solver); done. Qed.

Lemma Itoa_next : Itoa (n + 1) ≠ Itoa n.
Proof. destruct due_n as [[? ?] ?]. intros He%Itoa_inj; [lia|..]; unfold in_int64, minInt64 in *; lia. Qed.

(** What the program reads on the way: the closed run, and the beads of the next
    attempt that exist. *)
Lemma find_run m r e : underway m r e → find (isRunOf L n) (rootBeads m R) = Some run.
Proof.
  intros Hu. destruct (rd_run Hdue) as (Hl & Hroot & Hre & Hrl & _ & Hrun).
  assert (lookupBead m run.(bID) = Some run) as Hm.
  { rewrite <-Hl. apply (uw_frame _ _ _ Hu); [done|done|..]; intros b Hb Heq.
    - destruct (uw_run _ _ _ Hu b Hb) as (_ & Hn & _). rewrite <-Heq in Hn. congruence.
    - destruct (uw_next _ _ _ Hu b Hb) as (_ & Hn & _). rewrite <-Heq in Hn. congruence. }
  pose proof (root_member m r e run Hu Hm Hroot) as Hin. destruct (find _ _) as [b|] eqn:Ef.
  - apply find_some in Ef as [Hb Hrb]. apply list_elem_of_In in Hb. destruct (underway_root m r e b Hu Hb) as [Hx|[Hx|(b0 & keys & H0 & Ht & Hk & Hsame)]].
    + destruct (uw_run _ _ _ Hu b Hx) as (_ & _ & _ & Hn). unfold isRunOf in Hrb. rewrite (nx_attempt _ _ _ Hn) in Hrb.
      rewrite (bool_decide_false (Itoa (n + 1) = Itoa n)), andb_false_r in Hrb by apply Itoa_next. done.
    + destruct (uw_next _ _ _ Hu b Hx) as (_ & _ & _ & Hn). unfold isRunOf in Hrb. rewrite (nx_attempt _ _ _ Hn) in Hrb.
      rewrite (bool_decide_false (Itoa (n + 1) = Itoa n)), andb_false_r in Hrb by apply Itoa_next. done.
    + rewrite (keys_isRunOf keys b0 b Ht Hk) in Hrb. f_equal. apply Hsame. by apply (rd_only Hdue).
  - exfalso. apply list_elem_of_In in Hin. eapply find_none in Ef; [|exact Hin]. by rewrite Ef in Hrun.
Qed.

Lemma existing_next m r e : underway m r e → existingAttempt nextRunRef nextEvalRef (rootBeads m R) = (r, e).
Proof.
  intros Hu. destruct (rd_refs Hdue) as (_ & _ & Hne). rewrite existingAttempt_last.
  assert (∀ b, b ∈ rootBeads m R → (stepRefForRetryBead b = nextRunRef → r = Some b) ∧ (stepRefForRetryBead b = nextEvalRef → e = Some b)) as Hu'.
  { intros b Hb. destruct (underway_root m r e b Hu Hb) as [Hx|[Hx|(b0 & keys & H0 & Ht & Hk & _)]].
    - destruct (uw_run _ _ _ Hu b Hx) as (_ & _ & _ & Hn). rewrite (nx_ref _ _ _ Hn). by split.
    - destruct (uw_next _ _ _ Hu b Hx) as (_ & _ & _ & Hn). rewrite (nx_ref _ _ _ Hn). split; [|done]. intros He. by destruct Hne.
    - rewrite (keys_stepRef keys b0 b Ht Hk). by destruct (rd_unused Hdue b0 H0). }
  f_equal.
  - destruct r as [x|].
    + destruct (uw_run _ _ _ Hu x eq_refl) as (Hl & _ & _ & Hn). apply last_filter_unique.
      * intros b Hb Hp%bool_decide_eq_true. apply Hu' in Hb as [Hb _]. specialize (Hb Hp). by simplify_eq.
      * eapply root_member; [done|done|apply Hn].
      * apply bool_decide_eq_true, Hn.
    + apply last_filter_none. intros b Hb. apply bool_decide_eq_false. intros Hp. by apply Hu' in Hb as [Hb _]; apply Hb in Hp.
  - destruct e as [x|].
    + destruct (uw_next _ _ _ Hu x eq_refl) as (Hl & _ & _ & Hn). apply last_filter_unique.
      * intros b Hb [_ Hp%bool_decide_eq_true]%andb_true_iff. apply Hu' in Hb as [_ Hb]. specialize (Hb Hp). by simplify_eq.
      * eapply root_member; [done|done|apply Hn].
      * rewrite (nx_ref _ _ _ Hn). rewrite bool_decide_false, bool_decide_true by done. done.
    + apply last_filter_none. intros b Hb. apply andb_false_iff. right. apply bool_decide_eq_false. intros Hp. by apply Hu' in Hb as [_ Hb]; apply Hb in Hp.
Qed.

(** *** What the writes keep *)

Lemma created_old m prev ref b : created m prev ref b → b.(bID) ≠ evalID ∧ b.(bID) ≠ L ∧ b.(bID) ≠ run.(bID).
Proof.
  intros (_ & Hn & _). destruct (rd_eval Hdue) as [He _]. destruct (rd_logical Hdue) as (_ & Hl & _). destruct (rd_run Hdue) as [Hr _].
  split_and!; intros Heq; rewrite Heq in Hn; congruence.
Qed.

Lemma created_lookup m m' prev ref b : (lookupBead m b.(bID) = Some b → lookupBead m' b.(bID) = Some b) → created m prev ref b → created m' prev ref b.
Proof. intros Hl (Hb & H0 & Hne & Hn). split_and!; auto. Qed.

Lemma created_distinct m r e : created m run nextRunRef r → created m eval nextEvalRef e → r.(bID) ≠ e.(bID).
Proof.
  intros (Hr & _ & _ & Hnr) (He & _ & _ & Hne) Heq. rewrite Heq in Hr. assert (r = e) as -> by congruence.
  destruct (rd_refs Hdue) as (_ & _ & Hd). apply Hd. by rewrite <-(nx_ref _ _ _ Hnr), <-(nx_ref _ _ _ Hne).
Qed.

Lemma wf_stored m id b m' : stored m id b m' → wf m → wf m'.
Proof. intros Hs. apply wf_same_ids; [by apply Hs|apply Hs]. Qed.

Lemma stateOK_deps m m' r e b : (∀ r' e', r = Some r' → e = Some e' → wired m r' e' → wired m' r' e') → stateOK m r e b → stateOK m' r e b.
Proof. intros Hw [?|[?|(? & r' & e' & -> & -> & ?)]]; [by left|by right; left|]. right. right. split; [done|]. exists r', e'. split_and!; auto. Qed.

Lemma underway_eval m r e b m' : underway m r e → stored m evalID b m' → evalOK m r e b → underway m' r e.
Proof.
  intros Hu Hs [Ht Hok]. pose proof (rd_logical Hdue) as (_ & _ & Hne & _).
  split; [by eapply wf_stored, Hu|rewrite (st_seq _ _ _ _ Hs); apply Hu| | | | |].
  - exists b. split; [by rewrite (st_lookup _ _ _ _ Hs), decide_True|]. split; [done|]. eapply stateOK_deps; [|exact Hok]. intros r' e' _ _. unfold wired. by rewrite (st_deps _ _ _ _ Hs).
  - destruct (uw_logical _ _ _ Hu) as (l & Hl & Hr). exists l. split; [|done]. by rewrite (st_lookup _ _ _ _ Hs), decide_False.
  - intros x Hx. pose proof (uw_run _ _ _ Hu x Hx) as Hc. eapply created_lookup; [|exact Hc]. intros Hl. rewrite (st_lookup _ _ _ _ Hs), decide_False; [done|]. by eapply created_old.
  - intros x Hx. pose proof (uw_next _ _ _ Hu x Hx) as Hc. eapply created_lookup; [|exact Hc]. intros Hl. rewrite (st_lookup _ _ _ _ Hs), decide_False; [done|]. by eapply created_old.
  - intros id He Hl Hr Hn. rewrite (st_lookup _ _ _ _ Hs), decide_False by done. by apply Hu.
Qed.

Lemma underway_logical m r e b m' : underway m r e → stored m L b m' → retouched logicalKeys logical b → underway m' r e.
Proof.
  intros Hu Hs Ht. pose proof (rd_logical Hdue) as (_ & _ & Hne & _).
  split; [by eapply wf_stored, Hu|rewrite (st_seq _ _ _ _ Hs); apply Hu| | | | |].
  - destruct (uw_eval _ _ _ Hu) as (x & Hx & Hxt & Hok). exists x. split; [by rewrite (st_lookup _ _ _ _ Hs), decide_False|]. split; [done|].
    eapply stateOK_deps; [|exact Hok]. intros r' e' _ _. unfold wired. by rewrite (st_deps _ _ _ _ Hs).
  - exists b. split; [|done]. by rewrite (st_lookup _ _ _ _ Hs), decide_True.
  - intros x Hx. pose proof (uw_run _ _ _ Hu x Hx) as Hc. eapply created_lookup; [|exact Hc]. intros Hl. rewrite (st_lookup _ _ _ _ Hs), decide_False; [done|]. by eapply created_old.
  - intros x Hx. pose proof (uw_next _ _ _ Hu x Hx) as Hc. eapply created_lookup; [|exact Hc]. intros Hl. rewrite (st_lookup _ _ _ _ Hs), decide_False; [done|]. by eapply created_old.
  - intros id He Hl Hr Hn. rewrite (st_lookup _ _ _ _ Hs), decide_False by done. by apply Hu.
Qed.

Lemma lookup_setDeps m ds id : lookupBead (setDeps m ds) id = lookupBead m id.
Proof. done. Qed.

Lemma underway_deps m r e ds :
  underway m r e → (∀ r' e', r = Some r' → e = Some e' → wired m r' e' → wired (setDeps m ds) r' e') → underway (setDeps m ds) r e.
Proof.
  intros Hu Hw. split; [apply (wf_same_ids m); [done|done|apply Hu]|apply Hu| |apply Hu|apply Hu|apply Hu|apply Hu].
  destruct (uw_eval _ _ _ Hu) as (x & Hx & Hxt & Hok). exists x. split; [done|]. split; [done|]. by eapply stateOK_deps.
Qed.

(** A bead made for the next attempt. *)
Lemma foldl_delete_lookup (keys : list string) (md : gmap string string) key :
  foldl (λ md key, delete key md) md keys !! key = if decide (key ∈ keys) then None else md !! key.
Proof.
  revert md. induction keys as [|k keys IH]; intros md; cbn [foldl]; [by rewrite decide_False by apply not_elem_of_nil|]. rewrite IH.
  destruct (decide (key ∈ keys)) as [Hi|Hi]; [by rewrite decide_True by (by right)|]. destruct (decide (key = k)) as [->|Hk].
  - by rewrite lookup_delete_eq, decide_True by left.
  - rewrite lookup_delete_ne, decide_False by set_solver. done.
Qed.

Lemma cleared_get keys (md : gmap string string) key :
  (foldl (λ md key, delete key md) md keys).[key] = if decide (key ∈ keys) then "" else md.[key].
Proof. unfold mget. rewrite foldl_delete_lookup. by case_decide. Qed.

Lemma lineage_nextOf now seq prev assignee ref md :
  ref ≠ "" → TrimSpace ref = ref → md.[RootBeadIDMetadataKey] = R → md.[KindMetadataKey] = prev.(bMetadata).[KindMetadataKey] →
  (∀ key, key ∈ retryEphemera → md.[key] = "") →
  nextOf prev ref (createdBead now seq (clonedBead prev assignee ref (lineage prev L ref (n + 1) md))).
Proof.
  intros Hne Ht Hroot Hkind Hclean. unfold createdBead. set (b := setStatus _ _). assert (∀ c : bool, bMetadata (if c then setType b "task" else b) = lineage prev L ref (n + 1) md) as Hm by (by intros []).
  assert (∀ c : bool, bStatus (if c then setType b "task" else b) = "open") as Hs by (by intros []).
  assert (∀ x, bMetadata x = lineage prev L ref (n + 1) md → bStatus x = "open" → nextOf prev ref x) as Hx; [|apply Hx; [exact (Hm _)|exact (Hs _)]].
  clear b Hm Hs. intros x Hm Hs. split; [done|..]; unfold stepRefForRetryBead; rewrite ?Hm; unfold lineage.
  - rewrite mget_insert_ne by done. rewrite mget_insert_eq. rewrite Ht, bool_decide_false by done. done.
  - rewrite !mget_insert_ne by done. by rewrite mget_insert_eq.
  - by rewrite mget_insert_eq.
  - by rewrite !mget_insert_ne by done.
  - by rewrite !mget_insert_ne by done.
  - intros key Hk. rewrite !mget_insert_ne; [by apply Hclean|..]; intros <-; unfold retryEphemera in Hk; set_solver.
Qed.

Lemma attempt_nextOf now seq : nextOf run nextRunRef (createdBead now seq (retryAttemptBead cfg run L nextRunRef (n + 1))).
Proof.
  destruct (rd_refs Hdue) as (Hne & _ & _). destruct (rd_plain Hdue) as [Ht _]. destruct (rd_run Hdue) as (_ & Hroot & _).
  apply lineage_nextOf; [done|done|..]; unfold clearSessionAffinityMetadata, clearRetryEphemera; destruct (_ == ""); rewrite ?cleared_get; try done.
  all: intros key Hk; rewrite ?cleared_get; rewrite (decide_True (P := key ∈ retryEphemera)) by done; by case_decide || done.
Qed.

Lemma eval_nextOf now seq b : retouched evalKeys eval b → nextOf eval nextEvalRef (createdBead now seq (retryEvalBead b L nextEvalRef (n + 1))).
Proof.
  intros Ht. destruct (rd_refs Hdue) as (_ & Hne & _). destruct (rd_plain Hdue) as [_ Hp].
  assert (nextOf b nextEvalRef (createdBead now seq (retryEvalBead b L nextEvalRef (n + 1)))) as [? ? ? ? ? Hk ?].
  { apply lineage_nextOf; [done|done|..]; unfold clearSessionAffinityMetadata, clearRetryEphemera; rewrite ?cleared_get; try done.
    - rewrite decide_False, decide_False, (rt_meta _ _ _ Ht) by (unfold evalKeys, retryEphemera, SessionAffinityMetadataKeys; set_solver). done.
    - intros key Hk. rewrite !cleared_get. rewrite (decide_True (P := key ∈ retryEphemera)) by done. by case_decide. }
  split; [done..| |done]. rewrite Hk. apply Ht. unfold evalKeys. set_solver.
Qed.

Lemma fresh_created now m r e b :
  underway m r e → m.(msSeq) < maxInt64 → let nb := createdBead now (incr64 m.(msSeq)) b in
  lookupBead m nb.(bID) = None ∧ lookupBead m0 nb.(bID) = None ∧ nb.(bID) ≠ "".
Proof.
  intros Hu Hlt nb. destruct (uw_wf _ _ _ Hu) as [Hseq Hnd Hiss].
  assert (nb.(bID) = gcID (m.(msSeq) + 1)) as Hid. { rewrite <-incr64_succ by (unfold in_int64, minInt64; lia). unfold nb, createdBead. by destruct (_ == ""). }
  assert (lookupBead m nb.(bID) = None) as Hm.
  { destruct (lookupBead m nb.(bID)) as [x|] eqn:Ex; [|done]. exfalso. apply lookupBead_Some in Ex as [Hin Hx]; [|done].
    rewrite Forall_forall in Hiss. destruct (Hiss x Hin) as (j & Hj & Hxj). rewrite Hxj, Hid in Hx. apply gcID_inj in Hx; unfold in_int64, minInt64 in *; lia. }
  split_and!; [done| |rewrite Hid; done].
  destruct (lookupBead m0 nb.(bID)) as [x|] eqn:Ex; [|done]. exfalso.
  destruct (rd_wf Hdue) as [Hseq0 Hnd0 Hiss0]. apply lookupBead_Some in Ex as [Hin Hx]; [|done].
  rewrite Forall_forall in Hiss0. destruct (Hiss0 x Hin) as (j & Hj & Hxj). pose proof (uw_seq _ _ _ Hu) as Hs.
  rewrite Hxj, Hid in Hx. apply gcID_inj in Hx; unfold in_int64, minInt64 in *; destruct r, e; lia.
Qed.

Lemma underway_room m r e : underway m r e → r = None ∨ e = None → m.(msSeq) < maxInt64.
Proof. intros Hu Hn. pose proof (uw_seq _ _ _ Hu). pose proof (rd_room Hdue). destruct r, e; [by destruct Hn|lia..]. Qed.

Lemma create_lookup now m r e b nb : underway m r e → r = None ∨ e = None → nb = createdBead now (incr64 m.(msSeq)) b → b.(bNeeds) = [] →
  let m' := (Create now b m).2 in
  (Create now b m).1 = Ok nb ∧ wf m' ∧ msSeq m' = m.(msSeq) + 1 ∧ m'.(msDeps) = m.(msDeps) ∧
  lookupBead m' nb.(bID) = Some nb ∧ (∀ id, id ≠ nb.(bID) → lookupBead m' id = lookupBead m id).
Proof.
  intros Hu Hn -> Hneeds m'. pose proof (underway_room m r e Hu Hn) as Hlt. pose proof (uw_wf _ _ _ Hu) as Hwf. pose proof (wf_seq _ Hwf).
  assert (∀ id, lookupBead m' id = if decide (id = bID (createdBead now (incr64 (msSeq m)) b)) then Some (createdBead now (incr64 (msSeq m)) b) else lookupBead m id) as Hl
    by (intros id; by apply lookupBead_create).
  split_and!; [done|by apply wf_create|unfold m'; cbn; apply incr64_succ; [unfold in_int64, minInt64; lia|done]| |by rewrite Hl, decide_True|intros id Hid; by rewrite Hl, decide_False].
  unfold m'. cbn [Create snd msDeps]. assert (bNeeds (createdBead now (incr64 (msSeq m)) b) = []) as ->; [|apply app_nil_r]. unfold createdBead. by destruct (_ == "").
Qed.

Lemma underway_spawning m r e b : underway m r e → r = None ∨ e = None → stateOK m r e b →
  b.(bMetadata).[RetryStateMetadataKey] = "" ∨ b.(bMetadata).[RetryStateMetadataKey] = SpawnStateSpawning.
Proof. intros _ Hn [?|[?|(_ & r' & e' & -> & -> & _)]]; [by left|by right|by destruct Hn]. Qed.

Lemma created_other m m' nb prev ref b :
  (∀ id, id ≠ nb → lookupBead m' id = lookupBead m id) → lookupBead m nb = None → created m prev ref b → created m' prev ref b.
Proof. intros Hl Hn Hc. eapply created_lookup; [|exact Hc]. intros Hb. rewrite Hl; [done|]. intros Heq. rewrite Heq in Hb. congruence. Qed.

Lemma underway_create now m r e (b : Bead) (r' e' : option Bead) :
  underway m r e → r = None ∨ e = None → b.(bNeeds) = [] → let nb := createdBead now (incr64 m.(msSeq)) b in
  (r' = r ∧ e = None ∧ e' = Some nb ∧ nextOf eval nextEvalRef nb ∨ e' = e ∧ r = None ∧ r' = Some nb ∧ nextOf run nextRunRef nb) →
  ∃ m', Create now b m = (Ok nb, m') ∧ underway m' r' e'.
Proof.
  intros Hu Hn Hneeds nb Hcase. destruct (create_lookup now m r e b nb Hu Hn eq_refl Hneeds) as (H1 & Hwf & Hseq & Hdeps & Hnb & Hoth).
  destruct (fresh_created now m r e b Hu (underway_room _ _ _ Hu Hn)) as (Hfm & Hf0 & Hne). fold nb in Hfm, Hf0, Hne.
  destruct (Create now b m) as [x m'] eqn:Ec. cbn [fst snd] in *. subst x. exists m'. split; [done|].
  assert (evalID ≠ nb.(bID)) as Hen. { destruct (uw_eval _ _ _ Hu) as (x & Hx & _). intros Heq. rewrite Heq in Hx. congruence. }
  assert (L ≠ nb.(bID)) as Hln. { destruct (uw_logical _ _ _ Hu) as (x & Hx & _). intros Heq. rewrite Heq in Hx. congruence. }
  split; [done| | | | | |].
  - rewrite Hseq, (uw_seq _ _ _ Hu). destruct Hcase as [(-> & -> & -> & _)|(-> & -> & -> & _)]; lia.
  - destruct (uw_eval _ _ _ Hu) as (x & Hx & Ht & Hok). exists x. split; [by rewrite Hoth|]. split; [done|].
    destruct (underway_spawning m r e x Hu Hn Hok) as [?|?]; [by left|by right; left].
  - destruct (uw_logical _ _ _ Hu) as (x & Hx & Ht). exists x. split; [by rewrite Hoth|done].
  - intros x Hx. destruct Hcase as [(-> & _)|(_ & _ & -> & Hnx)]; [eapply created_other; [done|done|by apply Hu]|]. simplify_eq. by split_and!.
  - intros x Hx. destruct Hcase as [(_ & _ & -> & Hnx)|(-> & _)]; [|eapply created_other; [done|done|by apply Hu]]. simplify_eq. by split_and!.
  - intros id He Hl Hr Hx. destruct Hcase as [(-> & -> & -> & _)|(-> & -> & -> & _)]; (rewrite Hoth by first [by apply Hx|by apply Hr]); by apply Hu.
Qed.

(** *** The program *)

Section program.
Context (clock : nat → Z).

Abbreviation h := (graphMem clock).

Definition onTheWay (m : MemStore) : Prop := (∃ r e, underway m r e) ∨ spawnedOnce m.

Lemma way m r e : underway m r e → onTheWay m.
Proof. intros Hu. left. eauto. Qed.

Lemma settles_keys (J : MemStore → Prop) m k id kvs b Q :
  NoDup (bID <$> m.(msBeads)) → lookupBead m id = Some b → kvs ≠ ∅ → J m →
  (∀ m' k' now, stored m id (touch now (setMetadataMap b (kvs ∪ b.(bMetadata)))) m' → J m' ∧ Q (Ok ()) (m', k')) →
  settles h (λ t, J t.1) (perform (SetKeys id kvs)) (m, k) Q.
Proof.
  intros Hnd Hb Hne HJ HQ. destruct (SetMetadataBatch_stored (clock k) m id kvs b Hnd Hb Hne) as (m' & Hs & Hst).
  apply settles_perform; [done|]. cbn [graphMem]. rewrite Hs. cbn [fst snd]. by eapply HQ.
Qed.

Lemma settles_boundary {A} (J : MemStore → Prop) id (p : io StoreError A) t Q :
  settles h (λ t, J t.1) p t (λ r t', ∃ a, r = Ok a ∧ (J t'.1 → Q (Ok a) t')) →
  settles h (λ t, J t.1) (atSpawnBoundary notFound batchDeps errorText typedTransient id p) t Q.
Proof. intros Hp. apply settles_bind. eapply settles_mono; [exact Hp|]. cbn beta. intros r t' HJ (a & -> & HQ). split; [done|]. by apply HQ. Qed.

Lemma setDeps_id m : setDeps m m.(msDeps) = m.
Proof. by destruct m. Qed.

Lemma ensureDep_settles (J : MemStore → Prop) m k i o Q :
  J m →
  (∀ ds k', mkDep i o "blocks" ∈ ds → (∀ d, d ∈ m.(msDeps) → ¬ (d.(IssueID) = i ∧ d.(DependsOnID) = o) → d ∈ ds) →
    J (setDeps m ds) ∧ Q (Ok ()) (setDeps m ds, k')) →
  settles h (λ t, J t.1) (ensureDep i o "blocks") (m, k) Q.
Proof.
  intros HJ HQ. unfold ensureDep. eapply (settles_reads clock J); [by apply reads_perform|done|]. clear k. intros k.
  destruct (existsb _ _) eqn:Ex.
  - apply existsb_exists in Ex as ([di do dt] & Hin & Hd). apply andb_true_iff in Hd as [Ho Ht]. apply bool_decide_eq_true in Ho, Ht. cbn in Ho, Ht. subst.
    apply filter_In in Hin as [Hin Hi]. change ("down" == "up") with false in Hi. cbn iota in Hi. apply bool_decide_eq_true in Hi. cbn in Hi. subst.
    apply list_elem_of_In in Hin. destruct (HQ m.(msDeps) k) as [_ Hq]; [done|done|]. rewrite setDeps_id in Hq. by split.
  - apply settles_perform; [done|]. cbn [graphMem DepAdd fst snd]. apply HQ; [apply depAdd_added|]. intros d Hd Hn. by apply depAdd_keeps.
Qed.

Lemma createRun_settles m r e k Q :
  underway m r e → (∀ m' k' r', underway m' (Some r') e → Q (Ok r') (m', k')) →
  settles h (λ t, onTheWay t.1) (createUnless r (retryAttemptBead cfg run L nextRunRef (n + 1))) (m, k) Q.
Proof.
  intros Hu HQ. destruct r as [x|]; cbn [createUnless].
  - destruct (uw_run _ _ _ Hu x eq_refl) as (_ & _ & Hne & _). rewrite bool_decide_false by done. split; [by eapply way|]. by apply HQ.
  - destruct (underway_create (clock k) m None e (retryAttemptBead cfg run L nextRunRef (n + 1)) (Some (createdBead (clock k) (incr64 m.(msSeq)) (retryAttemptBead cfg run L nextRunRef (n + 1)))) e)
      as (m' & Hc & Hu'); [done|by left|done|right; split_and!; [done..|apply attempt_nextOf]|].
    apply settles_perform; [by eapply way|]. cbn [graphMem]. rewrite Hc. cbn [fst snd]. split; [by eapply way|]. by apply HQ.
Qed.

Lemma createEval_settles m r e k b Q :
  underway m r e → retouched evalKeys eval b → (∀ m' k' e', underway m' r (Some e') → Q (Ok e') (m', k')) →
  settles h (λ t, onTheWay t.1) (createUnless e (retryEvalBead b L nextEvalRef (n + 1))) (m, k) Q.
Proof.
  intros Hu Ht HQ. destruct e as [x|]; cbn [createUnless].
  - destruct (uw_next _ _ _ Hu x eq_refl) as (_ & _ & Hne & _). rewrite bool_decide_false by done. split; [by eapply way|]. by apply HQ.
  - destruct (underway_create (clock k) m r None (retryEvalBead b L nextEvalRef (n + 1)) r (Some (createdBead (clock k) (incr64 m.(msSeq)) (retryEvalBead b L nextEvalRef (n + 1)))))
      as (m' & Hc & Hu'); [done|by right|done|left; split_and!; [done..|by apply eval_nextOf]|].
    apply settles_perform; [by eapply way|]. cbn [graphMem]. rewrite Hc. cbn [fst snd]. split; [by eapply way|]. by apply HQ.
Qed.

Lemma append_settles m r e k b Q :
  underway m r e → retouched evalKeys eval b →
  (∀ m' k' r' e', underway m' (Some r') (Some e') → wired m' r' e' → Q (Ok ()) (m', k')) →
  settles h (λ t, onTheWay t.1) (appendRetryAttempt notFound cfg L run b (n + 1)) (m, k) Q.
Proof.
  intros Hu Ht HQ. destruct (rd_run Hdue) as (_ & Hroot & _ & _ & _ & Hrun). destruct (rd_root Hdue) as [HR _]. destruct (rd_refs Hdue) as (Hr & He & _).
  destruct due_n as [Hn _]. destruct (rd_attempt Hdue) as [_ H1].
  assert (run.(bMetadata).[AttemptMetadataKey] = Itoa n) as Ha.
  { unfold isRunOf in Hrun. apply andb_true_iff in Hrun as [_ Hx]. by apply bool_decide_eq_true in Hx. }
  unfold appendRetryAttempt. rewrite Hroot, Ha, Atoi_Itoa by done. cbn [from_option id]. rewrite (keys_stepRef evalKeys eval b Ht) by (by left).
  fold nextRunRef nextEvalRef. destruct (Z.ltb_spec n 1); [lia|]. rewrite !bool_decide_false by done. cbn [orb].
  eapply (settles_reads clock onTheWay); [apply reads_root|by eapply way|]. clear k. intros k. rewrite (existing_next m r e Hu).
  apply settles_andThen, createRun_settles with (e := e); [done|]. clear m k r Hu. intros m k r Hu.
  apply settles_andThen, createEval_settles with (r := Some r); [done|done|]. clear m k e Hu. intros m k e Hu.
  pose proof (uw_run _ _ _ Hu r eq_refl) as Hcr. pose proof (uw_next _ _ _ Hu e eq_refl) as Hce.
  apply settles_andThen, ensureDep_settles; [by eapply way|]. clear k. intros ds k Hin Hkeep.
  assert (underway (setDeps m ds) (Some r) (Some e)) as Hu1.
  { apply underway_deps; [done|]. intros ? ? [= <-] [= <-] [H1' H2']. split; [done|]. cbn [setDeps msDeps]. apply Hkeep; [done|]. cbn. intros [Hx _].
    destruct (created_old _ _ _ _ Hce) as (_ & Hne & _). by symmetry in Hx. }
  split; [by eapply way|]. apply ensureDep_settles; [by eapply way|]. clear k. intros ds' k Hin' Hkeep'.
  assert (wired (setDeps (setDeps m ds) ds') r e) as Hw.
  { split; [|done]. cbn [setDeps msDeps]. apply Hkeep'; [done|]. cbn. intros [Hx _]. destruct (created_old _ _ _ _ Hce) as (_ & Hne & _). done. }
  assert (underway (setDeps (setDeps m ds) ds') (Some r) (Some e)) as Hu2 by (apply underway_deps; [done|]; by intros ? ? [= <-] [= <-] _).
  split; [by eapply way|]. by eapply HQ.
Qed.

Lemma evalOK_keys m r e b now (kvs : gmap string string) :
  evalOK m r e b → (∀ key, is_Some (kvs !! key) → key ∈ evalKeys) → kvs !! RetryStateMetadataKey = None →
  evalOK m r e (touch now (setMetadataMap b (kvs ∪ b.(bMetadata)))).
Proof.
  intros [Ht Hok] Hk Hs. split; [eapply retouched_trans; [done|by apply retouched_batch]|]. unfold stateOK in *.
  cbn [touch setRevision setUpdatedAt setMetadataMap bMetadata]. by rewrite mget_union, Hs.
Qed.

Lemma evalOK_state m r e b now (kvs : gmap string string) state :
  evalOK m r e b → (∀ key, is_Some (kvs !! key) → key ∈ evalKeys) → kvs !! RetryStateMetadataKey = Some state →
  state = SpawnStateSpawning ∨ (state = SpawnStateSpawned ∧ ∃ r' e', r = Some r' ∧ e = Some e' ∧ wired m r' e') →
  evalOK m r e (touch now (setMetadataMap b (kvs ∪ b.(bMetadata)))).
Proof.
  intros [Ht _] Hk Hs Hok. split; [eapply retouched_trans; [done|by apply retouched_batch]|]. unfold stateOK.
  cbn [touch setRevision setUpdatedAt setMetadataMap bMetadata]. rewrite mget_union, Hs. by right.
Qed.

(** A write to the eval bead. *)
Lemma evalKeys_settles m r e k (kvs : gmap string string) Q :
  underway m r e → kvs ≠ ∅ → (∀ b now, evalOK m r e b → evalOK m r e (touch now (setMetadataMap b (kvs ∪ b.(bMetadata))))) →
  (∀ m' k', underway m' r e → m'.(msDeps) = m.(msDeps) → Q (Ok ()) (m', k')) →
  settles h (λ t, onTheWay t.1) (perform (SetKeys evalID kvs)) (m, k) Q.
Proof.
  intros Hu Hne Hok HQ. destruct (uw_eval _ _ _ Hu) as (b & Hb & Hev).
  apply settles_keys with (b := b); [apply Hu|done|done|by eapply way|]. clear k. intros m' k now Hs.
  assert (underway m' r e) as Hu' by (eapply underway_eval; [done|done|by apply Hok]). split; [by eapply way|]. apply HQ; [done|apply Hs].
Qed.

Lemma recycle_settles m r e k b Q :
  underway m r e → (∀ m' k', underway m' r e → m'.(msDeps) = m.(msDeps) → Q (Ok ()) (m', k')) → b.(bID) = evalID →
  settles h (λ t, onTheWay t.1) (recyclePooled cfg hasRecycler b run) (m, k) Q.
Proof.
  intros Hu HQ Hid. assert (settles h (λ t, onTheWay t.1) (Ret (Ok ())) (m, k) Q) as Hret by (split; [by eapply way|by apply HQ]).
  unfold recyclePooled. destruct (beadUsesMetadataPoolRouteWithConfig cfg run) eqn:Ep; cbn [negb]; [|done].
  destruct (rd_pool Hdue Ep) as [-> Ha]. cbn [negb]. destruct (_ == "true"); [done|]. rewrite bool_decide_false by done.
  apply settles_andThen, settles_perform; [by eapply way|]. cbn [graphMem fst snd]. split; [by eapply way|]. clear Hret.
  destruct (uw_eval _ _ _ Hu) as (x & Hx & Hev). rewrite Hid. generalize (S k). clear k. intros k.
  destruct (SetMetadata_stored (clock k) m evalID RetrySessionRecycledMetadataKey "true" x (wf_nodup _ (uw_wf _ _ _ Hu)) Hx) as (m' & Hs & Hst).
  apply settles_perform; [by eapply way|]. cbn [graphMem]. rewrite Hs. cbn [fst snd].
  assert (underway m' r e) as Hu'.
  { eapply underway_eval; [done|done|]. rewrite insert_union_singleton_l. apply evalOK_keys; [done|batchKeys|by rewrite lookup_singleton_ne]. }
  split; [by eapply way|]. apply HQ; [done|apply Hst].
Qed.

Lemma finalize_settles m r e k Q :
  underway m (Some r) (Some e) → wired m r e → (∃ l, lookupBead m L = Some l ∧ retouched logicalKeys logical l ∧ l.(bMetadata).[RetryCountMetadataKey] = Itoa n) →
  (∀ m' k', spawnedOnce m' → Q (Ok ()) (m', k')) →
  settles h (λ t, onTheWay t.1) (finalizeRetryEval L evalID) (m, k) Q.
Proof.
  intros Hu Hw (l & Hl & Hlt & Hlc) HQ. pose proof (uw_run _ _ _ Hu r eq_refl) as Hcr. pose proof (uw_next _ _ _ Hu e eq_refl) as Hce.
  destruct (rd_logical Hdue) as (HL & Hl0 & HLe & _). pose proof (rd_wf Hdue) as Hwf0.
  assert (L ≠ "") as HLne. { intros Heq. rewrite Heq in Hl0. apply lookupBead_Some in Hl0 as [Hin Hx]; [|apply Hwf0]. destruct Hwf0 as [_ _ Hiss].
    rewrite Forall_forall in Hiss. destruct (Hiss logical Hin) as (j & _ & Hj). by rewrite Hj in Hx. }
  set (m1 := setDeps m (depRemove L evalID m.(msDeps))).
  assert (wired m1 r e) as Hw1.
  { destruct (created_old _ _ _ _ Hce) as (Hee & Hel & _). destruct Hw as [H1 H2]. split; cbn [m1 setDeps msDeps]; apply depRemove_keeps; [done| |done|]; cbn; by intros []. }
  assert (underway m1 (Some r) (Some e)) as Hu1 by (apply underway_deps; [done|]; by intros ? ? [= <-] [= <-] _).
  unfold finalizeRetryEval. rewrite (bool_decide_false (L = "")) by done. cbn [negb].
  apply settles_andThen, settles_perform; [by eapply way|]. cbn [graphMem DepRemove fst snd]. fold m1. split; [by eapply way|]. generalize (S k). clear k. intros k.
  destruct (uw_eval _ _ _ Hu1) as (x & Hx & Hxt & _).
  eapply (settles_reads clock onTheWay); [by apply reads_get|by eapply way|]. clear k. intros k.
  rewrite (rt_status _ _ _ Hxt). destruct (rd_eval Hdue) as (_ & Ho & _). rewrite Ho. change ("open" == "closed") with false. cbn iota.
  apply settles_close with (b := x); [apply Hu1|done|by eapply way|]. intros m' b' k' Hs (Hfr & Hc & Hout).
  assert (spawnedOnce m') as Hsp; [|split; [by right|by apply HQ]].
  exists r, e. assert (∀ prev ref b, created m1 prev ref b → created m' prev ref b) as Hcr'.
  { intros prev ref b Hb. eapply created_lookup; [|exact Hb]. intros Hlb. rewrite (st_lookup _ _ _ _ Hs), decide_False; [done|]. by eapply created_old. }
  split_and!; [apply Hcr', Hu1; done|apply Hcr', Hu1; done| | | |].
  - unfold wired. by rewrite (st_deps _ _ _ _ Hs).
  - exists b'. by rewrite (st_lookup _ _ _ _ Hs), decide_True.
  - exists l. by rewrite (st_lookup _ _ _ _ Hs), decide_False.
  - intros id He HLid Hr Hen. rewrite (st_lookup _ _ _ _ Hs), decide_False by done. apply (uw_frame _ _ _ Hu1); [done|done|by intros ? [= <-]|by intros ? [= <-]].
Qed.

(** The logical bead is marked, then the eval is closed. *)
Lemma finish_settles m r e k reason (Q : res (ControlError StoreError) ControlResult → MemStore * nat → Prop) :
  underway m (Some r) (Some e) → wired m r e → (∀ m' k', spawnedOnce m' → Q (Ok (mkControlResult true "retry" 0)) (m', k')) →
  settles h (λ t, onTheWay t.1) (andThen (perform (SetKeys L (<[RetryCountMetadataKey := Itoa n]>
    (<[LastFailureClassMetadataKey := FailureClassTransient]> {[FailureReasonMetadataKey := reason]}))))
    (λ _, andThen (finalizeRetryEval L evalID) (λ _, report "retry"))) (m, k) Q.
Proof.
  intros Hu Hw HQ. destruct (uw_logical _ _ _ Hu) as (l & Hl & Hlt).
  apply settles_andThen, settles_keys with (b := l); [apply Hu|done|by apply insert_non_empty|by eapply way|]. clear k. intros m' k now Hs.
  set (l' := touch now _) in Hs. assert (retouched logicalKeys logical l') as Hlt'.
  { eapply retouched_trans; [done|]. apply retouched_batch. unfold logicalKeys. batchKeys. }
  assert (underway m' (Some r) (Some e)) as Hu' by (by eapply underway_logical). split; [by eapply way|].
  apply settles_andThen. eapply finalize_settles; [done|by unfold wired; rewrite (st_deps _ _ _ _ Hs)| |].
  - exists l'. split; [by rewrite (st_lookup _ _ _ _ Hs), decide_True|]. split; [done|]. unfold l'. cbn [touch setRevision setUpdatedAt setMetadataMap bMetadata].
    by rewrite mget_union, lookup_insert_eq.
  - intros m2 k2 Hsp. split; [by right|by apply HQ].
Qed.

(** The next attempt is appended and recorded as spawned. *)
Lemma spawnNext_settles m r e k b Q :
  underway m r e → retouched evalKeys eval b →
  (∀ m' k' r' e', underway m' (Some r') (Some e') → wired m' r' e' → Q (Ok ()) (m', k')) →
  settles h (λ t, onTheWay t.1) (andThen (atSpawnBoundary notFound batchDeps errorText typedTransient evalID (appendRetryAttempt notFound cfg L run b (n + 1)))
    (λ _, atSpawnBoundary notFound batchDeps errorText typedTransient evalID (perform (SetKeys evalID (spawnedMetadata (n + 1)))))) (m, k) Q.
Proof.
  intros Hu Ht HQ. apply settles_andThen, settles_boundary, append_settles with (r := r) (e := e); [done|done|].
  clear m k r e Hu. intros m k r e Hu Hw. exists (). split; [done|]. intros _. apply settles_boundary.
  apply evalKeys_settles with (r := Some r) (e := Some e); [done|by apply insert_non_empty| |].
  - intros x now Hx. eapply evalOK_state with (state := SpawnStateSpawned);
      [done|unfold spawnedMetadata, clearControllerSpawnErrorMetadata, evalKeys; batchKeys| |right; split; [done|]; by exists r, e].
    unfold spawnedMetadata, clearControllerSpawnErrorMetadata. rewrite !lookup_insert_ne by done. by rewrite lookup_insert_eq.
  - intros m' k' Hu' Hd. exists (). split; [done|]. intros _. eapply HQ; [done|]. unfold wired. by rewrite Hd.
Qed.

Lemma spawn_settles m r e k b reason (Q : res (ControlError StoreError) ControlResult → MemStore * nat → Prop) :
  underway m r e → evalOK m r e b → (∀ m' k', spawnedOnce m' → Q (Ok (mkControlResult true "retry" 0)) (m', k')) →
  settles h (λ t, onTheWay t.1) (spawnAttempt notFound batchDeps cfg hasRecycler errorText typedTransient b run L n reason) (m, k) Q.
Proof.
  intros Hu [Ht Hst] HQ. pose proof (rt_id _ _ _ Ht) as Hid. unfold spawnAttempt. rewrite Hid.
  destruct Hst as [He|[He|(He & r' & e' & -> & -> & Hw)]]; rewrite He.
  - change ("" == "") with true. change ("" != SpawnStateSpawned) with true. cbn iota.
    apply settles_andThen, settles_boundary, evalKeys_settles with (r := r) (e := e); [done|by apply insert_non_empty| |].
    { intros x now Hx. eapply evalOK_state with (state := SpawnStateSpawning); [done|unfold spawningMetadata, evalKeys; batchKeys|unfold spawningMetadata; by rewrite lookup_insert_eq|by left]. }
    intros m1 k1 Hu1 _. exists (). split; [done|]. intros _. apply settles_andThen, recycle_settles with (r := r) (e := e); [done| |done].
    intros m2 k2 Hu2 _. apply settles_andThen. apply spawnNext_settles with (r := r) (e := e); [done|done|]. intros m' k' r' e' Hu' Hw. by eapply finish_settles.
  - change (SpawnStateSpawning == "") with false. change ((SpawnStateSpawning == SpawnStateSpawning) || (SpawnStateSpawning == SpawnStateSpawned)) with true.
    change (SpawnStateSpawning != SpawnStateSpawned) with true. cbn iota. apply settles_andThen. split; [by eapply way|].
    apply settles_andThen, recycle_settles with (r := r) (e := e); [done| |done].
    intros m1 k1 Hu1 _. apply settles_andThen. apply spawnNext_settles with (r := r) (e := e); [done|done|]. intros m' k' r' e' Hu' Hw. by eapply finish_settles.
  - change (SpawnStateSpawned == "") with false. change ((SpawnStateSpawned == SpawnStateSpawning) || (SpawnStateSpawned == SpawnStateSpawned)) with true.
    change (SpawnStateSpawned != SpawnStateSpawned) with false. cbn iota. apply settles_andThen. split; [by eapply way|].
    apply settles_andThen, recycle_settles with (r := Some r') (e := Some e'); [done| |done].
    intros m' k' Hu' Hd. apply settles_andThen. split; [by eapply way|]. eapply finish_settles; [done|unfold wired; by rewrite Hd|done].
Qed.

Lemma pass_eval_settles m r e k b (Q : res (ControlError StoreError) ControlResult → MemStore * nat → Prop) :
  underway m r e → lookupBead m evalID = Some b → (∀ m' k', spawnedOnce m' → Q (Ok (mkControlResult true "retry" 0)) (m', k')) →
  settles h (λ t, onTheWay t.1) (processRetryEval notFound batchDeps jsonValid cfg hasRecycler errorText typedTransient b) (m, k) Q.
Proof.
  intros Hu Hb HQ. destruct (uw_eval _ _ _ Hu) as (x & Hx & Hok). assert (x = b) as -> by congruence. clear Hx. pose proof Hok as [Ht _].
  assert (∀ key, key ∉ evalKeys → b.(bMetadata).[key] = eval.(bMetadata).[key]) as Hm by apply Ht.
  destruct (rd_attempt Hdue) as [Ha H1]. destruct (rd_limit Hdue) as (N & HN & Hlt). destruct (rd_logical Hdue) as (HL & Hl0 & _ & Hclosed).
  destruct (rd_root Hdue) as [HR Htrim]. destruct (rd_run Hdue) as (_ & _ & _ & _ & Hcl & _). pose proof (rd_wf Hdue) as Hwf0.
  assert (L ≠ "") as HLne. { intros Heq. rewrite Heq in Hl0. apply lookupBead_Some in Hl0 as [Hin Hx]; [|apply Hwf0]. destruct Hwf0 as [_ _ Hiss].
    rewrite Forall_forall in Hiss. destruct (Hiss logical Hin) as (j & _ & Hj). by rewrite Hj in Hx. }
  unfold processRetryEval, resolveLogicalBeadID, resolveRetryRunSubject. rewrite !Hm by (unfold evalKeys; set_solver). rewrite Ha, HN, HL, Htrim.
  cbn [from_option id]. destruct (Z.ltb_spec n 1); [lia|]. destruct (Z.ltb_spec N 1); [lia|].
  rewrite !bool_decide_false by done. cbn [negb bind]. rewrite bool_decide_false by done.
  destruct (uw_logical _ _ _ Hu) as (l & Hl & Hlt'). eapply (settles_reads clock onTheWay); [by apply reads_get|by eapply way|]. clear k. intros k.
  rewrite (rt_meta _ _ _ Hlt') by (unfold logicalKeys; set_solver). destruct (Z.leb_spec n (AtoiValue (bMetadata logical).[ClosedByAttemptMetadataKey])); [lia|].
  destruct (Z.ltb_spec 0 n); [|lia]. cbn [negb andb].
  eapply (settles_reads clock onTheWay _ _ _ _ run); [|by eapply way|].
  { eapply reads_andThen; [eapply reads_andThen; [apply reads_root|apply reads_ret]|]. rewrite (find_run m r e Hu). apply reads_ret. }
  clear k. intros k. rewrite Hcl. change ("closed" != "closed") with false. cbn iota. pose proof (rd_transient Hdue) as Htr.
  eapply (settles_reads clock onTheWay _ _ _ _ (classifyRetryAttempt jsonValid run)); [|by eapply way|].
  { unfold classifyRetryAttemptWithPostconditions. rewrite Htr. change ("transient" != "pass") with true. apply reads_ret. }
  clear k. intros k. rewrite (rt_id _ _ _ Ht). apply settles_andThen. apply evalKeys_settles with (r := r) (e := e); [done| | |].
  - unfold evalMetadata. rewrite Htr. by apply insert_non_empty.
  - intros x now Hx. apply evalOK_keys; [done| |]; unfold evalMetadata; rewrite Htr; change ("transient" == "pass") with false; change ("transient" == "canceled") with false;
      change ("transient" == "transient") with true; cbn iota; [unfold evalKeys; batchKeys|]. by rewrite !lookup_insert_ne, lookup_singleton_ne.
  - intros m' k' Hu' Hd. unfold judge. rewrite Htr. change ("transient" == "pass") with false; change ("transient" == "hard") with false; change ("transient" == "canceled") with false;
      change ("transient" == "transient") with true; cbn iota. destruct (Z.leb_spec N n); [lia|]. eapply spawn_settles; [done| |done].
    destruct Hok as [_ Hok]. split; [done|]. eapply stateOK_deps; [|exact Hok]. intros r' e' _ _. unfold wired. by rewrite Hd.
Qed.
End program.
End due.

(** A pass of the controller over the open eval, stopped after some calls. *)
Definition stoppedPass `{UnicodeTables} batchDeps jsonValid cfg hasRecycler errorText typedTransient (evalID : string) (m m' : MemStore) : Prop :=
  ∃ b clock k c, lookupBead m evalID = Some b ∧ b.(bStatus) = "open" ∧
    m' = (runN k (graphMem clock) (processRetryEval notFound batchDeps jsonValid cfg hasRecycler errorText typedTransient b) (m, c)).1.

Lemma passes_onTheWay `{UnicodeTables} batchDeps jsonValid cfg hasRecycler errorText typedTransient m0 eval attempt logical n m1 m :
  retryDue jsonValid cfg hasRecycler m0 eval attempt logical n →
  rtc (stoppedPass batchDeps jsonValid cfg hasRecycler errorText typedTransient eval.(bID)) m1 m →
  onTheWay m0 eval attempt logical n m1 → onTheWay m0 eval attempt logical n m.
Proof.
  intros Hdue Hpasses. induction Hpasses as [|m1 m2 m3 (b & clock & k & c & Hb & Ho & ->) _ IH]; [done|].
  intros [(r & e & Hu)|(r & e & _ & _ & _ & (x & Hx & Hc & _) & _)].
  - apply IH. eapply (settles_runN _ (λ t, onTheWay m0 eval attempt logical n t.1)), (pass_eval_settles _ _ _ _ _ _ _ _ _ _ _ Hdue clock _ r e c b (λ _ _, True)); done.
  - exfalso. rewrite Hx in Hb. simplify_eq. by rewrite Hc in Ho.
Qed.

(** C19 A transient failure is retried once: when an attempt below the limit failed
    in passing, the controller, stopped any number of times after any store
    calls and each time started on the eval as it is then, has spawned the next
    attempt or does so in its next full pass, which answers [retry]; there is
    then one run and one eval of the next attempt, open, wired to the step and
    with no trace of the failed attempt, the old eval is closed, the step counts
    the attempt, and no other bead was created or touched. *)
Theorem retry_spawns_once `{UnicodeTables} batchDeps jsonValid cfg hasRecycler errorText typedTransient m0 eval attempt logical n m :
  retryDue jsonValid cfg hasRecycler m0 eval attempt logical n →
  rtc (stoppedPass batchDeps jsonValid cfg hasRecycler errorText typedTransient eval.(bID)) m0 m →
  spawnedOnce m0 eval attempt logical n m ∨
  ∃ b, lookupBead m eval.(bID) = Some b ∧ b.(bStatus) = "open" ∧
    ∀ clock, ∃ m' k,
      run (graphMem clock) (processRetryEval notFound batchDeps jsonValid cfg hasRecycler errorText typedTransient b) (m, 0%nat) =
        (Ok (mkControlResult true "retry" 0), (m', k)) ∧
      spawnedOnce m0 eval attempt logical n m'.
Proof.
  intros Hdue Hpasses.
  destruct (passes_onTheWay _ _ _ _ _ _ _ _ _ _ _ _ _ Hdue Hpasses) as [(r & e & Hu)|Hs]; [left; exists None, None; by eapply underway_start|right|by left].
  destruct (uw_eval _ _ _ _ _ _ _ _ Hu) as (b & Hb & Ht & _). exists b. split; [done|]. split.
  { rewrite (rt_status _ _ _ Ht). apply Hdue. }
  intros clock. pose proof (settles_run _ _ _ _ _ (pass_eval_settles batchDeps jsonValid cfg hasRecycler errorText typedTransient m0 eval attempt logical n Hdue clock m r e 0 b
      (λ x t, x = Ok (mkControlResult true "retry" 0) ∧ spawnedOnce m0 eval attempt logical n t.1) Hu Hb ltac:(done))) as [Hr Hs].
  destruct (run _ _ _) as [x [m' k]]. cbn [fst snd] in Hr, Hs. subst x. by exists m', k.
Qed.

(** ** The limit, on any store *)

Section limit.
Context `{UnicodeTables} {E : Type} (isNotFound : E → bool) (batchDeps : bool) (jsonValid : string → bool) (cfg : option City) (hasRecycler : bool).
Context (errorText : ControlError E → string) (typedTransient : ControlError E → bool).

(** The beads created satisfy [P]. *)
Definition creates (P : Bead → Prop) (X : Type) (op : graphE E X) : Prop := match op with CreateBead b => P b | _ => True end.

Context (P : Bead → Prop).

Lemma creates_andThen {A B} (p : io E A) (f : A → io E B) : uses (creates P) p → (∀ a, uses (creates P) (f a)) → uses (creates P) (andThen p f).
Proof. intros Hp Hf. apply uses_bind; [done|]. by intros [a|e]. Qed.

Lemma creates_perform {A} (op : graphE E (res E A)) : creates P _ op → uses (creates P) (perform op).
Proof. intros Hop. by split. Qed.

Create HintDb footprints.

Ltac footprint :=
  repeat first
    [ exact I
    | solve [auto 1 with footprints nocore]
    | apply creates_andThen; [|intros ?]
    | apply uses_bind; [|intros ?]
    | apply creates_perform; exact I
    | split; [exact I|intros ?]
    | match goal with |- uses _ (match ?x with _ => _ end) => destruct x end
    | progress cbn [bind trigger] ].

Lemma root_creates rootID : uses (creates P) (listByWorkflowRoot isNotFound rootID).
Proof. unfold listByWorkflowRoot. footprint. Qed.

Lemma close_creates id md : uses (creates P) (updateMetadataAndClose id md).
Proof. unfold updateMetadataAndClose. footprint. Qed.

#[local] Hint Resolve root_creates close_creates : footprints.

Lemma outcome_creates id outcome : uses (creates P) (setOutcomeAndClose id outcome).
Proof. apply close_creates. Qed.

#[local] Hint Resolve outcome_creates : footprints.

Lemma body_creates rootID scopeRef : uses (creates P) (resolveScopeBody isNotFound rootID scopeRef).
Proof.
  unfold resolveScopeBody. generalize (scopeBodyResolveAttempts - 1)%nat. intros k.
  assert (uses (creates P) (resolveScopeBodyOnce isNotFound rootID scopeRef)) as Honce by (unfold resolveScopeBodyOnce, resolveScopeBodyByRole; footprint).
  induction k as [|k IH]; cbn [resolveScopeBodyLoop]; (apply uses_bind; [done|]); intros [b|[]]; footprint.
Qed.

Lemma skipLoop_creates fuel control pending skipped : uses (creates P) (skipLoop (E := E) batchDeps fuel control pending skipped).
Proof.
  assert (∀ ids acc, uses (creates P) (downDepsLoop (E := E) ids acc)) as Hloop by (induction ids; intros acc; cbn [downDepsLoop]; footprint; auto).
  assert (∀ ids, uses (creates P) (loadDownDepsForScopeSkip (E := E) batchDeps ids)) as Hdeps by (intros ids; unfold loadDownDepsForScopeSkip; footprint; auto).
  revert pending skipped. induction fuel as [|fuel IH]; intros pending skipped; cbn [skipLoop]; [done|]. destruct (bool_decide _); [done|].
  apply creates_andThen; [done|]. intros D. destruct (skipPass _ _ _ _) as [p [|i l]]; [done|]. apply creates_andThen; [by apply creates_perform|]. intros c. apply IH.
Qed.

#[local] Hint Resolve body_creates skipLoop_creates : footprints.

Lemma reconcile_creates id : uses (creates P) (ReconcileClosedScopeMember isNotFound batchDeps id).
Proof.
  unfold ReconcileClosedScopeMember, reconcileTerminalScopedMember, scopeBodyFor, loadScopeSnapshotWithBody, listByWorkflowRootAndScope, hasOpenScopeMembers,
    listActiveByWorkflowRootAndScope, abortScope, skipOpenScopeMembers, closeScopeAsPassed, propagateScopeMemberMetadata. footprint.
Qed.

#[local] Hint Resolve reconcile_creates : footprints.

Lemma boundary_creates {A} id (p : io E A) : uses (creates P) p → uses (creates P) (atSpawnBoundary isNotFound batchDeps errorText typedTransient id p).
Proof. intros Hp. unfold atSpawnBoundary, markControllerSpawnError. apply uses_bind; [done|]. intros [a|e]; footprint. Qed.

Lemma append_creates logicalID prevRun prevEval k :
  (∀ ref, P (retryAttemptBead cfg prevRun logicalID ref k)) → (∀ ref, P (retryEvalBead prevEval logicalID ref k)) →
  uses (creates P) (appendRetryAttempt isNotFound cfg logicalID prevRun prevEval k).
Proof.
  intros Hr He. assert (∀ o b, P b → uses (creates P) (createUnless (E := E) o b)) as Hc.
  { intros o b Hb. unfold createUnless. destruct o as [x|]; [destruct (_ == ""); [|done]|]; by apply creates_perform. }
  unfold appendRetryAttempt, ensureDep. repeat (match goal with |- context [if ?c then _ else _] => destruct c end; [done|]).
  apply creates_andThen; [apply root_creates|]. intros all. destruct (existingAttempt _ _ all) as [r e].
  apply creates_andThen; [by apply Hc|]. intros x. apply creates_andThen; [by apply Hc|]. intros y. footprint.
Qed.

Lemma subject_creates eval logicalID k : uses (creates P) (resolveRetryRunSubject isNotFound eval logicalID k).
Proof. unfold resolveRetryRunSubject, resolveBlockingSubjectID. footprint. Qed.

Lemma logical_creates b : uses (creates P) (resolveLogicalBeadID isNotFound b).
Proof.
  assert (∀ deps, uses (creates P) (logicalAmongBlocked (E := E) deps)) as Hd by (induction deps; cbn [logicalAmongBlocked]; footprint; auto).
  unfold resolveLogicalBeadID. footprint; auto.
Qed.

#[local] Hint Resolve subject_creates logical_creates : footprints.

Lemma process_creates eval :
  (∀ n N prev logicalID ref, Atoi eval.(bMetadata).[AttemptMetadataKey] = Some n → Atoi eval.(bMetadata).[MaxAttemptsMetadataKey] = Some N → n < N →
    P (retryAttemptBead cfg prev logicalID ref (n + 1)) ∧ P (retryEvalBead eval logicalID ref (n + 1))) →
  uses (creates P) (processRetryEval isNotFound batchDeps jsonValid cfg hasRecycler errorText typedTransient eval).
Proof.
  intros HP. unfold processRetryEval. destruct (Atoi (bMetadata eval).[AttemptMetadataKey]) as [n|] eqn:En; [|done].
  destruct (Atoi (bMetadata eval).[MaxAttemptsMetadataKey]) as [N|] eqn:EN; cbn [from_option id]; [|by destruct (n <? 1)].
  destruct (n <? 1); [done|]. destruct (N <? 1); [done|]. apply uses_bind; [apply logical_creates|]. intros logicalID. destruct (_ == ""); [done|].
  apply creates_andThen; [by apply creates_perform|]. intros logical. destruct (_ <=? _); [unfold finalizeRetryEval, report; footprint|].
  apply creates_andThen; [apply subject_creates|]. intros subject. destruct (_ != _); [done|].
  apply creates_andThen; [unfold classifyRetryAttemptWithPostconditions; footprint|]. intros result. apply creates_andThen; [by apply creates_perform|]. intros _.
  unfold judge, passAttempt, failAttempt, closeBoth, propagateRetrySubjectMetadata, report. destruct (Z.leb_spec N n) as [Hle|Hlt]; [footprint|].
  assert (∀ reason, uses (creates P) (spawnAttempt isNotFound batchDeps cfg hasRecycler errorText typedTransient eval subject logicalID n reason)) as Hs.
  { intros reason. unfold spawnAttempt, finalizeRetryEval, report. apply creates_andThen; [|intros _; apply creates_andThen; [|intros _; apply creates_andThen; [|intros _; footprint]]].
    - destruct (_ == ""); [apply boundary_creates; by apply creates_perform|]. by destruct (_ || _).
    - unfold recyclePooled. destruct (beadUsesMetadataPoolRouteWithConfig cfg subject); cbn [negb]; [|done]. destruct hasRecycler; cbn [negb]; [|done].
      destruct (_ == "true"); [done|]. destruct (_ == ""); [done|]. apply creates_andThen; [by apply creates_perform|]. intros _. by apply creates_perform.
    - destruct (_ != _); [|done]. apply creates_andThen; [apply boundary_creates, append_creates; intros ref; by eapply HP|]. intros _. apply boundary_creates. by apply creates_perform. }
  footprint.
Qed.
End limit.

(** C39 Attempts stay within the limit on any store: in any execution of the
    processing of an eval, whatever the store answers and wherever it stops, a
    bead is created only when the attempt judged is below the limit, and it is
    numbered one more. *)
Theorem attempts_within_limit `{UnicodeTables} {E} (isNotFound : E → bool) batchDeps jsonValid cfg hasRecycler errorText typedTransient eval tr q b x :
  exec (processRetryEval isNotFound batchDeps jsonValid cfg hasRecycler errorText typedTransient eval) tr q → Ev (CreateBead b) x ∈ tr →
  ∃ n N, Atoi eval.(bMetadata).[AttemptMetadataKey] = Some n ∧ Atoi eval.(bMetadata).[MaxAttemptsMetadataKey] = Some N ∧ n < N ∧
    b.(bMetadata).[AttemptMetadataKey] = Itoa (n + 1).
Proof.
  intros He Hin. set (P := λ b : Bead, ∃ n N, Atoi eval.(bMetadata).[AttemptMetadataKey] = Some n ∧ Atoi eval.(bMetadata).[MaxAttemptsMetadataKey] = Some N ∧ n < N ∧
    b.(bMetadata).[AttemptMetadataKey] = Itoa (n + 1)).
  refine (uses_exec (creates P) _ _ _ _ He _ _ _ Hin). apply process_creates. intros n N prev logicalID ref Hn HN Hlt.
  split; exists n, N; split_and!; try done; cbn [retryAttemptBead retryEvalBead clonedBead bMetadata]; unfold lineage; rewrite !mget_insert_ne by done; by rewrite mget_insert_eq.
Qed.
