(* ===== verification/RetryScenarios.v ===== *)
(** * RetryScenarios: a step with one attempt

    A step whose first attempt is closed with some outcome: inputs at which the
    hypotheses of the theorems hold, and the pass that a crash leaves
    unfinished. *)

From S2P Require Import Prelude GoBase GoText Beads MemStore MemStoreProps Prog SessionState SessionReconcile AgentConfig WorkflowScope WorkflowScopeProps.
From S2P Require Import RetryEval RetryEvalProps.

Local Open Scope Z_scope.

#[local] Instance noTables : UnicodeTables := {| lowerTable r := r; letterTable _ := false; digitTable _ := false |}.

Definition stepBead (id status : string) (md : list (string * string)) : Bead :=
  setMetadataMap (setStatus (setID zeroBead id) status) (list_to_map ((RootBeadIDMetadataKey, "gc-1") :: md)).

Definition attemptKeys (kind ref : string) : list (string * string) :=
  [(KindMetadataKey, kind); (LogicalBeadIDMetadataKey, "gc-2"); (AttemptMetadataKey, "1"); (StepRefMetadataKey, "flow.step." +:+ ref)].

Definition stepOf : Bead := stepBead "gc-2" "open" [(KindMetadataKey, "retry"); (StepRefMetadataKey, "flow.step")].
Definition runOf (outcome : list (string * string)) : Bead := stepBead "gc-3" "closed" (attemptKeys "retry-run" "run.1" ++ outcome).
Definition evalOf : Bead := stepBead "gc-4" "open" (attemptKeys "retry-eval" "eval.1" ++ [(MaxAttemptsMetadataKey, "3")]).

Definition retried (outcome : list (string * string)) : MemStore :=
  NewMemStoreFrom 4 [stepBead "gc-1" "open" []; stepOf; runOf outcome; evalOf] [mkDep "gc-4" "gc-3" "blocks"; mkDep "gc-2" "gc-4" "blocks"].

Definition transientFailure : list (string * string) := [(OutcomeMetadataKey, OutcomeFail); (FailureClassMetadataKey, FailureClassTransient)].

(** The controller on the eval as the store has it. *)
Definition evalPass (eval : Bead) : io StoreError ControlResult := processRetryEval notFound true (λ _, true) None false (λ _, "") (λ _, false) eval.

Definition storedEval (m : MemStore) : Bead := default zeroBead (lookupBead m "gc-4").

Definition stoppedAfter (calls : nat) (m : MemStore) : MemStore := (runN calls (graphMem Z.of_nat) (evalPass (storedEval m)) (m, 0%nat)).1.

Lemma retried_due : retryDue (λ _, true) None false (retried transientFailure) evalOf (runOf transientFailure) stepOf 1.
Proof.
  assert (wf (retried transientFailure)) as Hwf.
  { split; [vm_compute; split; discriminate|apply (bool_decide_unpack _); vm_compute; exact I|].
    repeat (apply Forall_cons; split; [first [exists 1; split; [vm_compute; split; discriminate|reflexivity]|exists 2; split; [vm_compute; split; discriminate|reflexivity]
      |exists 3; split; [vm_compute; split; discriminate|reflexivity]|exists 4; split; [vm_compute; split; discriminate|reflexivity]]|]). by apply Forall_nil. }
  split.
  - exact Hwf.
  - vm_compute. discriminate.
  - vm_compute. done.
  - vm_compute. done.
  - exists 3. vm_compute. done.
  - vm_compute. done.
  - vm_compute. done.
  - vm_compute. done.
  - refine (proj1 (Forall_forall _ _) _). vm_compute (rootBeads _ _).
    repeat (apply Forall_cons; split; [intros Hr; first [reflexivity | vm_compute in Hr; discriminate Hr]|]). by apply Forall_nil.
  - vm_compute. reflexivity.
  - vm_compute. discriminate.
  - vm_compute. done.
  - vm_compute. done.
  - refine (proj1 (Forall_forall _ _) _). apply (bool_decide_unpack _). vm_compute. exact I.
Qed.

(** Stopped right after the run of the second attempt was created. *)
Lemma retry_spawns_once_witness :
  retryDue (λ _, true) None false (retried transientFailure) evalOf (runOf transientFailure) stepOf 1 ∧
  let m := stoppedAfter 8 (retried transientFailure) in
  (bID <$> m.(msBeads)) = ["gc-1"; "gc-2"; "gc-3"; "gc-4"; "gc-5"] ∧
  (spawnedOnce (retried transientFailure) evalOf (runOf transientFailure) stepOf 1 m ∨
   ∃ b, lookupBead m "gc-4" = Some b ∧ b.(bStatus) = "open" ∧ ∀ clock, ∃ m' k,
     run (graphMem clock) (evalPass b) (m, 0%nat) = (Ok (mkControlResult true "retry" 0), (m', k)) ∧
     spawnedOnce (retried transientFailure) evalOf (runOf transientFailure) stepOf 1 m').
Proof.
  split; [exact retried_due|]. split; [vm_compute; reflexivity|].
  apply (retry_spawns_once true (λ _, true) None false (λ _, "") (λ _, false) _ _ _ _ _ _ retried_due).
  apply rtc_once. exists evalOf, Z.of_nat, 8%nat, 0%nat. split; [vm_compute; reflexivity|]. split; [reflexivity|]. unfold stoppedAfter.
  assert (storedEval (retried transientFailure) = evalOf) as -> by (vm_compute; reflexivity). reflexivity.
Defined.

(** The operations that create a bead. *)
Definition createdIn (tr : list (event (graphE StoreError))) : list (Bead * res StoreError Bead) :=
  omap (λ ev, match ev with @Ev _ X e x => match e in graphE _ X return X → option (Bead * res StoreError Bead) with CreateBead b => λ x, Some (b, x) | _ => λ _, None end x end) tr.

Lemma createdIn_elem tr b x : (b, x) ∈ createdIn tr → Ev (CreateBead b) x ∈ tr.
Proof.
  intros (ev & Hin & Hev)%list_elem_of_omap. destruct ev as [X e y]. destruct e; try discriminate Hev. injection Hev as -> ->. exact Hin.
Qed.

Lemma attempts_within_limit_witness :
  ∃ b x, Ev (CreateBead b) x ∈ runTrace (graphMem Z.of_nat) (evalPass evalOf) (retried transientFailure, 0%nat) ∧
  ∃ n N, Atoi evalOf.(bMetadata).[AttemptMetadataKey] = Some n ∧ Atoi evalOf.(bMetadata).[MaxAttemptsMetadataKey] = Some N ∧ n < N ∧
    b.(bMetadata).[AttemptMetadataKey] = Itoa (n + 1).
Proof.
  destruct (createdIn (runTrace (graphMem Z.of_nat) (evalPass evalOf) (retried transientFailure, 0%nat))) as [|[b x] rest] eqn:Ec;
    [vm_compute in Ec; discriminate Ec|].
  assert (Ev (CreateBead b) x ∈ runTrace (graphMem Z.of_nat) (evalPass evalOf) (retried transientFailure, 0%nat)) as Hin
    by (apply createdIn_elem; rewrite Ec; left).
  exists b, x. split; [exact Hin|].
  exact (attempts_within_limit notFound true (λ _, true) None false (λ _, "") (λ _, false) evalOf _ _ b x (runTrace_exec (graphMem Z.of_nat) (evalPass evalOf) _) Hin).
Defined.

(** What a bead shows. *)
Definition shows (m : MemStore) (id : string) : option (string * string * string) :=
  (λ b, (b.(bStatus), b.(bMetadata).[OutcomeMetadataKey], b.(bMetadata).[ClosedByAttemptMetadataKey])) <$> lookupBead m id.

